(* ===== verification/_CoqProject ===== *)
-Q . S2P
Prelude.v
Riscv.v
Memory.v
Str.v
State.v
Kalloc.v
PageTable.v
Paging.v
PagingInv.v
Swap.v
Policy.v
Fault.v
Machine.v
Witness.v
Uvm.v
Proc.v
Exec.v
ProcSpec.v
ProcInv.v
ProcSys.v
WitnessProc.v
UserCopy.v
ExecSpec.v
ExecImage.v
Trap.v
TrapSpec.v
Unmap.v
WitnessUser.v
Pipe.v
Cache.v
Bio.v
BioList.v
BioSpec.v
Log.v
LogSpec.v
LogCrash.v
BioUse.v
Txn.v
WitnessFs.v
LogSys.v
Fs.v
FsSpec.v
FsBlocks.v
FsInode.v
FsFile.v
FsCopy.v
FsIo.v
FsUse.v
Dir.v
DirSpec.v
Mkfs.v
MkfsSpec.v
MkfsUse.v
WitnessDir.v
File.v
Sysfile.v
PathSpec.v
FileSpec.v
WitnessSys.v
Grep.v
Sh.v
ShLex.v
ShParse.v
ShGrammar.v
ShSpec.v
ShPrint.v
ShRun.v
ShMain.v
Umalloc.v
UmallocSpec.v
UmallocSys.v
Queue.v
Console.v
ConsoleSpec.v
Printf.v
UserProgs.v
Spinlock.v
Virtio.v
VirtioSpec.v
VirtioSys.v
