(* ===== verification/Prelude.v ===== *)
(** * Verification of xv6 with demand paging

    The program is the teaching operating system xv6 for RISC-V, changed so that a
    process keeps at most 16 pages in RAM and swaps the others to a file of its
    own, with a choice of replacement policy at compile time (NFUA, LAPA, SCFIFO, or
    NONE for no paging).  This library models the kernel under src/kernel, the
    program that builds its disk image (src/mkfs), and the user programs that are
    more than a test (src/user), as functions that can be evaluated, and proves
    what makes them correct.

    ** The parts of the program and how they interact

    A user program enters the kernel through the trampoline (trampoline.S, trap.c),
    which dispatches system calls (syscall.c, sysproc.c, sysfile.c, exec.c).
    Processes (proc.c) have page tables (vm.c) over pages of the allocator
    (kalloc.c); a page fault brings pages in from the swap file and picks victims
    (vm.c, proc.c).  Swap files are files: open files (file.c) and pipes (pipe.c)
    sit on the file system (fs.c), which changes blocks inside transactions of the
    log (log.c), which goes through the buffer cache (bio.c) to the disk driver
    (virtio_disk.c).  The console and UART driver (console.c, uart.c) and printf.c
    are the other device; spinlock.c and sleeplock.c provide mutual exclusion.
    mkfs.c writes the file system the kernel finds at boot.

    ** How programs are modelled

    C functions are functions of the same name in the monad [M S A], a state
    transformer whose outcome is a value and a state, a [panic], a wild access, the
    end of the process, or a loop out of fuel.  C integers are [Z] with the
    wrap-around of their width written out ([w8], [w16], [w32], [w64], [i32]).
    Theorems are stated with [wp m s Q]: run from [s], [m] returns, without panic,
    wild access or lack of fuel, and [Q] holds of what it returns.  Code that is
    shared between CPUs, processes and devices is a step relation over the
    functions, cut where the source gives up its lock or touches what is shared,
    and its invariants hold in all interleavings.  Code reached through a function
    pointer or in another part is a type class of operations ([SwapStore],
    [ProcFiles], [ExecFiles], [BlockCache], [UserMem], [FileWorld], [Devices],
    [FileCalls]), with a class of laws where a theorem needs them ([SwapStoreOk],
    [ExecFilesOk], [BlockCacheOk], [UserMemOk]); the buffer cache discharges
    [BlockCacheOk], and reference implementations discharge the others.

    ** Files, in groups

    Foundations.  Prelude: the monad, its program logic, fixed-width integers,
    lemmas on lists.  Riscv: riscv.h, memlayout.h, param.h.  Memory, Str: string.c.
    State: [struct proc] and the state [kst] of the kernel.

    Memory management.  Kalloc: kalloc.c.  PageTable: first half of vm.c.  Paging,
    PagingInv, Swap, Policy, Fault: swapping, the policies, the page fault handler.
    Uvm, UserCopy, Unmap: second half of vm.c.  Machine, Witness, WitnessUser:
    concrete machines.  Theorems: the allocator is a stack of pages and starts with
    all of them; mapping is what translation finds; a page fault makes the page
    resident and keeps the contents of every page; the policies return the page
    they promise; copies between kernel and user are what the page tables say.

    Processes.  Proc, ProcSpec, ProcInv, ProcSys, WitnessProc: proc.c.  Theorem: in
    every reachable state no exit is lost to [wait], every process has a living
    parent, ids are unique.  Exec, ExecSpec, ExecImage: exec.c, elf.h, [sys_exec].
    Theorem: the image of a new program holds its segments and its arguments.
    Trap, TrapSpec: trampoline.S, trap.c, syscall.c, sysproc.c.  Theorem: a system
    call comes back with every register but [a0] as it was.  Spinlock: spinlock.c on
    several CPUs.  Theorem: mutual exclusion with interrupts off.

    Storage.  Virtio, VirtioSpec, VirtioSys: virtio_disk.c with a device that runs
    at any time.  Cache, Bio, BioList, BioSpec, BioUse: bio.c and sleeplock.c.  Log,
    LogSpec, LogCrash, LogSys, Txn: log.c.  Fs, FsSpec, FsBlocks, FsInode, FsFile,
    FsCopy, FsIo, FsUse: fs.c.  Dir, DirSpec, PathSpec: its directories, paths and
    swap file names.  File, Sysfile, FileSpec: file.c and sysfile.c.  Pipe: pipe.c.
    Mkfs, MkfsSpec, MkfsUse: mkfs.c.  WitnessFs, WitnessDir, WitnessSys: concrete
    disks.  Theorems: every disk request is served once and no wake-up is lost; the
    cache behaves as the disk; a transaction survives a crash at any write, whole or
    not at all; the log never overflows for operations that keep to their limit;
    writing and reading files and directories; pipes are queues; the disk of mkfs
    holds the given files and boots.

    Console and text.  Queue: cyclic buffers and queue.c.  Console, ConsoleSpec:
    console.c and uart.c as a line discipline.  Printf: kernel/printf.c and
    user/printf.c print the canonical text of their arguments.

    User programs.  Sh, ShLex, ShParse, ShGrammar, ShSpec, ShPrint, ShRun, ShMain:
    sh.c.  Theorems: the parser decides its grammar within its buffer, and the shell
    runs what was typed.  Umalloc, UmallocSpec, UmallocSys: umalloc.c never hands
    out memory twice.  Grep: grep.c matches what its patterns mean.  UserProgs: wc,
    cat and echo.

    ** Fuel and bounds

    A loop runs on fuel that the code's own bounds give, and the theorems show it is
    never used up: the pages of a range ([map_fuel], [copy_fuel]), the 32 bits
    of an age, the digits of a number, the length of a list or a ring
    (NPROC, NBUF, NINODE, INPUT_BUF, NUM), the length of a line for the shell's
    parser, the blocks of a file for reading and writing.  Integers keep their
    width wherever they can reach it; hypotheses such as [va + len + PGSIZE <= 2 ^ 64]
    state the range in which the code does not wrap.

    ** Not modelled

    - Assembly other than the trampoline (entry.S, kernelvec.S, swtch.S,
      initcode.S), start.c and main.c: machine-mode set-up and the order of
      initialisation; the switch of stacks in [swtch] is the point where the model
      of proc.c changes the running process.
    - plic.c, [uartinit], [consoleinit] and ramdisk.c: single stores to device
      registers; ramdisk.c is not part of the kernel that is built.
    - The generated system call stubs (usys.pl), kernel.ld, Makefile and the headers
      that only declare (defs.h, types.h, date.h, user.h).
    - Test programs: usertests.c, grind.c, forktest.c, stressfs.c, lazytests.c,
      tests.c, test.c, exec_test.c, ttt.c, ttt2.c.  They exercise the kernel; what
      they check is stated here as theorems about the kernel itself.
    - User programs that are a single system call in a loop over their arguments
      (kill.c, ln.c, mkdir.c, rm.c, zombie.c), init.c and ls.c, and the part of
      ulib.c that the modelled programs do not use.
    - Memory models weaker than sequential consistency, and the time and the
      atomicity of device accesses.
    - The file system and the process table are modelled in states of their own:
      what a function of one needs of the other is one of the interfaces above. *)

From Stdlib Require Export ZArith Lia.
From stdpp Require Export base gmap list list_numbers strings numbers.

#[global] Set Default Goal Selector "!".
#[global] Open Scope Z_scope.

#[global] Arguments Z.testbit : simpl never.
#[global] Arguments Z.land : simpl never.
#[global] Arguments Z.lor : simpl never.
#[global] Arguments Z.lnot : simpl never.
#[global] Arguments Z.shiftl : simpl never.
#[global] Arguments Z.shiftr : simpl never.
#[global] Arguments Z.modulo : simpl never.
#[global] Arguments Z.div : simpl never.
#[global] Arguments Z.mul : simpl never.
#[global] Arguments Z.pow : simpl never.
#[global] Arguments Z.to_nat : simpl never.
#[global] Arguments Z.of_nat : simpl never.

(** ** Fixed-width C integers

    A C integer is a [Z] kept in the range of its type; the conversions below
    are the wrap-around of the assignment to that type. *)

(** [uint64] / [unsigned long]. *)
Definition w64 (z : Z) : Z := z mod 2 ^ 64.

(** [uint] / [uint32]. *)
Definition w32 (z : Z) : Z := z mod 2 ^ 32.

(** [ushort] / [uint16]. *)
Definition w16 (z : Z) : Z := z mod 2 ^ 16.

(** [uchar] and the stored representation of [char]. *)
Definition w8 (z : Z) : Z := z mod 2 ^ 8.

(** [int]: two's complement on 32 bits. *)
Definition i32 (z : Z) : Z := (z + 2 ^ 31) mod 2 ^ 32 - 2 ^ 31.

(** C truth value of an integer. *)
Definition truth (z : Z) : bool := negb (z =? 0).

(** ** Outcomes and the kernel monad

    Kernel code either returns, calls [panic], dereferences an address that is
    not part of the modelled memory, leaves through [exit] (which never
    returns), or needs more loop iterations than the fuel it was given. *)
Inductive outcome (A : Type) : Type :=
| Ok (a : A)
| Panic (msg : string)
| Wild (addr : Z)
| Exit (status : Z)
| OutOfFuel.
Arguments Ok {A} a.
Arguments Panic {A} msg.
Arguments Wild {A} addr.
Arguments Exit {A} status.
Arguments OutOfFuel {A}.

Definition M (S A : Type) : Type := S → outcome (A * S).

#[global] Instance M_ret S : MRet (M S) := λ A a s, Ok (a, s).
#[global] Instance M_bind S : MBind (M S) := λ A B f m s,
  match m s with
  | Ok (a, s') => f a s'
  | Panic msg => Panic msg
  | Wild a => Wild a
  | Exit st => Exit st
  | OutOfFuel => OutOfFuel
  end.

Definition panic {S A} (msg : string) : M S A := λ _, Panic msg.
Definition wild {S A} (addr : Z) : M S A := λ _, Wild addr.
Definition exits {S A} (status : Z) : M S A := λ _, Exit status.
Definition gets {S A} (f : S → A) : M S A := λ s, Ok (f s, s).
Definition modify {S} (f : S → S) : M S unit := λ s, Ok (tt, f s).

(** A C loop: [body] returns [inl a] to go round again with loop variables [a]
    and [inr b] to leave the loop with [b]. *)
Fixpoint loop {S A B} (fuel : nat) (body : A → M S (A + B)) (a : A) : M S B :=
  match fuel with
  | O => λ _, OutOfFuel
  | S k => r ← body a; match r with inl a' => loop k body a' | inr b => mret b end
  end.

(** A [for] loop over a fixed list of iterations that never leaves early. *)
Fixpoint for_each {S X} (l : list X) (body : X → M S unit) : M S unit :=
  match l with
  | [] => mret tt
  | x :: l' => body x;; for_each l' body
  end.

(** The same with loop variables [a]. *)
Fixpoint foldM {S X A} (body : A → X → M S A) (a : A) (l : list X) : M S A :=
  match l with
  | [] => mret a
  | x :: l' => a' ← body a x; foldM body a' l'
  end.

(** ** Weakest preconditions

    [wp m s Q]: from state [s], [m] returns normally (no panic, no wild access,
    no missing fuel) and its result and final state satisfy [Q]. *)
Definition wp {S A} (m : M S A) (s : S) (Q : A → S → Prop) : Prop :=
  match m s with Ok (a, s') => Q a s' | _ => False end.

Lemma wp_ok {S A} (m : M S A) s Q :
  wp m s Q ↔ ∃ a s', m s = Ok (a, s') ∧ Q a s'.
Proof.
  unfold wp. destruct (m s) as [[a s']| | | |]; split; try naive_solver.
Qed.

Lemma wp_ret {S A} (a : A) (s : S) (Q : A → S → Prop) : Q a s → wp (mret a) s Q.
Proof. done. Qed.

Lemma wp_bind {S A B} (m : M S A) (f : A → M S B) s Q :
  wp m s (λ a s', wp (f a) s' Q) → wp (m ≫= f) s Q.
Proof.
  unfold wp, mbind, M_bind. destruct (m s) as [[a s']| | | |]; done.
Qed.

Lemma wp_bind_assoc {S A B C} (m : M S A) (f : A → M S B) (g : B → M S C) s Q :
  wp ((m ≫= f) ≫= g) s Q → wp (m ≫= λ a, f a ≫= g) s Q.
Proof. unfold wp, mbind, M_bind. destruct (m s) as [[a s']| | | |]; done. Qed.

Lemma wp_seq3 {S A} (a b c : M S unit) (r : M S A) s Q :
  wp (a;; b;; c) s (λ _ s', wp r s' Q) → wp (a;; b;; c;; r) s Q.
Proof.
  unfold wp, mbind, M_bind. destruct (a s) as [[[] s1]| | | |]; try done.
  destruct (b s1) as [[[] s2]| | | |]; try done. by destruct (c s2) as [[[] s3]| | | |].
Qed.

Lemma wp_seq_ret {S A} (x y z : M S unit) (a : A) s (Q : A → S → Prop) :
  wp (x;; y;; z) s (λ _ s', Q a s') → wp (x;; y;; mret a) s (λ a' s', wp (z;; mret a') s' Q).
Proof.
  unfold wp, mbind, M_bind. destruct (x s) as [[[] s1]| | | |]; try done.
  destruct (y s1) as [[[] s2]| | | |]; try done. simpl. by destruct (z s2) as [[[] s3]| | | |].
Qed.

Lemma wp_mono {S A} (m : M S A) s (Q Q' : A → S → Prop) :
  wp m s Q → (∀ a s', Q a s' → Q' a s') → wp m s Q'.
Proof. unfold wp. destruct (m s) as [[a s']| | | |]; naive_solver. Qed.

Lemma wp_gets {S A} (f : S → A) s (Q : A → S → Prop) : Q (f s) s → wp (gets f) s Q.
Proof. done. Qed.

Lemma wp_modify {S} (f : S → S) s (Q : unit → S → Prop) : Q tt (f s) → wp (modify f) s Q.
Proof. done. Qed.

Lemma wp_eq {S A} (m : M S A) s a s' (Q : A → S → Prop) :
  m s = Ok (a, s') → Q a s' → wp m s Q.
Proof. unfold wp. by intros ->. Qed.

Lemma bind_ok {S A B} (m : M S A) (f : A → M S B) s a s1 :
  m s = Ok (a, s1) → (m ≫= f) s = f a s1.
Proof. unfold mbind, M_bind. by intros ->. Qed.

Lemma bind_panic {S A B} (m : M S A) (f : A → M S B) s msg :
  m s = Panic msg → (m ≫= f) s = Panic msg.
Proof. unfold mbind, M_bind. by intros ->. Qed.

(** The loop rule: [I n a s] says that [n] more iterations are enough. *)
Lemma wp_loop {S A B} (body : A → M S (A + B)) (I : nat → A → S → Prop)
    (Q : B → S → Prop) :
  (∀ n a s, I n a s →
     wp (body a) s (λ r s', match r with
       | inl a' => ∃ n', (n' < n)%nat ∧ I n' a' s'
       | inr b => Q b s' end)) →
  ∀ fuel n a s, I n a s → (n < fuel)%nat → wp (loop fuel body a) s Q.
Proof.
  intros Hbody fuel. induction fuel as [|fuel IH]; intros n a s HI Hn; [lia|].
  simpl. apply wp_bind. eapply wp_mono; [by apply Hbody|].
  intros [a'|b] s' H; simpl in *; [|done].
  destruct H as (n' & ? & ?). eapply IH; [done|lia].
Qed.

(** The fold rule: [I l a s] holds with the iterations [l] still to do. *)
Lemma wp_foldM {S X A} (body : A → X → M S A) (I : list X → A → S → Prop) (Q : A → S → Prop) :
  (∀ x l a s, I (x :: l) a s → wp (body a x) s (I l)) →
  (∀ a s, I [] a s → Q a s) →
  ∀ l a s, I l a s → wp (foldM body a l) s Q.
Proof.
  intros Hbody HQ l. induction l as [|x l IH]; intros a s HI; simpl; [by apply wp_ret, HQ|].
  apply wp_bind. eapply wp_mono; [by apply Hbody|]. auto.
Qed.

Lemma wp_for_each {S X} (body : X → M S unit) (I : list X → S → Prop) (Q : unit → S → Prop) :
  (∀ x l s, I (x :: l) s → wp (body x) s (λ _, I l)) →
  (∀ s, I [] s → Q tt s) →
  ∀ l s, I l s → wp (for_each l body) s Q.
Proof.
  intros Hbody HQ l. induction l as [|x l IH]; intros s HI; simpl; [by apply wp_ret, HQ|].
  apply wp_bind. eapply wp_mono; [by apply Hbody|]. auto.
Qed.

(** One round. *)
Lemma loop_S {S A B} k (body : A → M S (A + B)) a :
  loop (Datatypes.S k) body a = (r ← body a; match r with inl a' => loop k body a' | inr b => mret b end).
Proof. reflexivity. Qed.

Lemma wp_loop_S {S A B} fuel (body : A → M S (A + B)) a s (Q : B → S → Prop) :
  wp (body a) s (λ r s', match r with inl a' => wp (loop fuel body a') s' Q | inr b => Q b s' end) →
  wp (loop (Datatypes.S fuel) body a) s Q.
Proof. intros H. simpl. apply wp_bind. eapply wp_mono; [done|]. by intros [a'|b] s' H'. Qed.

(** What a run that ends made of its parts. *)
Lemma bind_Ok {S A B} (m : M S A) (f : A → M S B) s b s' :
  (m ≫= f) s = Ok (b, s') → ∃ a s1, m s = Ok (a, s1) ∧ f a s1 = Ok (b, s').
Proof. unfold mbind, M_bind. destruct (m s) as [[a s1]| | | |]; try done. intros H. by exists a, s1. Qed.

(** [m] keeps the part [p] of the state. *)
Definition keeps {S P A} (p : S → P) (m : M S A) : Prop := ∀ s a s', m s = Ok (a, s') → p s' = p s.

Section Keeps.
Context {S P : Type} (p : S → P).

Lemma keeps_bind {A B} (m : M S A) (f : A → M S B) : keeps p m → (∀ a, keeps p (f a)) → keeps p (m ≫= f).
Proof. intros Hm Hf s b s' (a & s1 & H1 & H2)%bind_Ok. by rewrite (Hf _ _ _ _ H2), (Hm _ _ _ H1). Qed.

Lemma keeps_ret {A} (a : A) : keeps p (mret a : M S A).
Proof. intros s b s' [= _ <-]. done. Qed.

Lemma keeps_gets {A} (f : S → A) : keeps p (gets f).
Proof. intros s b s' [= _ <-]. done. Qed.

Lemma keeps_panic {A} msg : keeps p (panic msg : M S A).
Proof. by intros s a s'. Qed.

Lemma keeps_wild {A} x : keeps p (wild x : M S A).
Proof. by intros s a s'. Qed.

Lemma keeps_modify f : (∀ s, p (f s) = p s) → keeps p (modify f).
Proof. intros Hf s a s' [= _ <-]. apply Hf. Qed.

Lemma keeps_for_each {X} (l : list X) (body : X → M S unit) : (∀ x, keeps p (body x)) → keeps p (for_each l body).
Proof. intros Hb. induction l as [|x l IH]; cbn [for_each]; [apply keeps_ret|]. by apply keeps_bind. Qed.

Lemma keeps_loop {A B} fuel (body : A → M S (A + B)) : (∀ a, keeps p (body a)) → ∀ a, keeps p (loop fuel body a).
Proof.
  intros Hb. induction fuel as [|fuel IH]; intros a; [by intros s b s'|]. cbn [loop]. apply keeps_bind; [apply Hb|].
  intros [a'|b]; [apply IH|apply keeps_ret].
Qed.
End Keeps.

Create HintDb keeps discriminated.
#[export] Hint Resolve keeps_ret keeps_gets keeps_panic keeps_wild : keeps.

(** Runs through a function part by part, using the lemmas of the database on the
    functions it calls. *)
Ltac keeps_step :=
  match goal with
  | |- ∀ _, _ => intro
  | |- keeps _ (_ ≫= _) => apply keeps_bind
  | |- keeps _ (for_each _ _) => apply keeps_for_each
  | |- keeps _ (loop _ _ _) => apply keeps_loop
  | |- keeps _ (match ?x with _ => _ end) => destruct x
  | |- keeps _ (let _ := _ in _) => cbv zeta
  end.
Ltac keeps_tac := repeat first [solve [eauto 2 with keeps] | keeps_step].

#[global] Arguments loop : simpl never.

(** ** Lists *)

Lemma filter_same {A} (P Q : A → Prop) `{∀ x, Decision (P x)} `{∀ x, Decision (Q x)} (l : list A) :
  (∀ x, x ∈ l → P x ↔ Q x) → filter P l = filter Q l.
Proof.
  induction l as [|x l IH]; intros HPQ; [done|]. rewrite !list.filter_cons.
  rewrite IH by (intros y Hy; apply HPQ, elem_of_cons; by right).
  pose proof (HPQ x ltac:(apply elem_of_cons; by left)). repeat case_decide; tauto || done.
Qed.

Lemma filter_none {A} (P : A → Prop) `{∀ x, Decision (P x)} l : (∀ x, x ∈ l → ¬ P x) → filter P l = [].
Proof.
  induction l as [|x l IH]; intros Hl; [done|]. rewrite list.filter_cons, decide_False.
  - apply IH. intros y Hy. apply Hl, elem_of_cons. by right.
  - apply Hl, elem_of_cons. by left.
Qed.

Lemma filter_all {A} (P : A → Prop) `{∀ x, Decision (P x)} (l : list A) :
  (∀ x, x ∈ l → P x) → filter P l = l.
Proof.
  induction l as [|x l IH]; intros HP; [done|]. rewrite list.filter_cons, decide_True.
  - f_equal. apply IH. intros y Hy. apply HP, elem_of_cons. by right.
  - apply HP, elem_of_cons. by left.
Qed.

Lemma length_filter_split {A} (P : A → Prop) `{∀ x, Decision (P x)} (l : list A) :
  (length (filter P l) + length (filter (λ x, ¬ P x) l) = length l)%nat.
Proof.
  induction l as [|x l IH]; [done|]. rewrite !list.filter_cons. destruct (decide (P x)) as [Hx|Hx].
  - rewrite (decide_False (P := ¬ P x)) by tauto. simpl. lia.
  - rewrite (decide_True (P := ¬ P x)) by done. simpl. lia.
Qed.

(** The first of the numbers below [n] that satisfies [f]. *)
Lemma find_seqZ_Some (f : Z → bool) n k :
  List.find f (seqZ 0 n) = Some k ↔ 0 <= k < n ∧ f k = true ∧ ∀ j, 0 <= j < k → f j = false.
Proof.
  assert (H : ∀ (m : nat) a, List.find f (seqZ a (Z.of_nat m)) = Some k ↔ a <= k < a + Z.of_nat m ∧ f k = true ∧ ∀ j, a <= j < k → f j = false).
  { induction m as [|m IH]; intros a; [simpl; split; [done|lia]|]. rewrite seqZ_cons by lia. cbn [List.find].
    replace (Z.pred (Z.of_nat (S m))) with (Z.of_nat m) by lia. destruct (f a) eqn:E.
    - split; [intros [= <-]; split_and!; [lia|lia|done|intros; lia]|]. intros (Hr & Hk & Hno). f_equal.
      destruct (decide (a = k)); [done|]. rewrite Hno in E by lia. done.
    - rewrite IH. split.
      + intros (Hr & Hk & Hno). split_and!; [lia|lia|done|]. intros j Hj. destruct (decide (j = a)) as [->|]; [done|]. apply Hno. lia.
      + intros (Hr & Hk & Hno). destruct (decide (k = a)) as [->|]; [by rewrite E in Hk|]. split_and!; [lia|lia|done|].
        intros j Hj. apply Hno. lia. }
  destruct (Z.le_gt_cases 0 n) as [Hn|Hn].
  - rewrite <- (Z2Nat.id n) by done. rewrite H. done.
  - unfold seqZ. replace (Z.to_nat n) with 0%nat by lia. simpl. split; [done|lia].
Qed.

Lemma find_seqZ_None (f : Z → bool) n : List.find f (seqZ 0 n) = None ↔ ∀ j, 0 <= j < n → f j = false.
Proof.
  split.
  - intros H j Hj. apply (List.find_none _ _ H). apply list_elem_of_In, elem_of_seqZ. lia.
  - intros H. destruct (List.find f (seqZ 0 n)) as [k|] eqn:E; [|done]. apply find_seqZ_Some in E as (Hk & Ht & _).
    by rewrite H in Ht.
Qed.

Lemma find_same {A} (f g : A → bool) (l : list A) :
  (∀ x, x ∈ l → f x = g x) → List.find f l = List.find g l.
Proof.
  induction l as [|x l IH]; intros Hfg; [done|]. simpl.
  rewrite Hfg, IH; [done|intros y Hy; apply Hfg, elem_of_cons; by right|apply elem_of_cons; by left].
Qed.

Lemma alter_insert {A} (f : A → A) (l : list A) i x : l !! i = Some x → alter f i l = <[i := f x]> l.
Proof.
  intros Hi. apply list_eq. intros j. destruct (decide (j = i)) as [->|Hne].
  - rewrite list_lookup_alter_eq, Hi, list_lookup_insert_eq; [done|]. by eapply lookup_lt_Some.
  - by rewrite list_lookup_alter_ne, list_lookup_insert_ne.
Qed.

(** [for(i = 0; i < n; i++)]: [I k s] holds before round [k]. *)
Lemma wp_for_seq {St} (body : Z → M St unit) (I : nat → St → Prop) (Q : unit → St → Prop) n s :
  I 0%nat s →
  (∀ k s, (k < n)%nat → I k s → wp (body (Z.of_nat k)) s (λ _, I (S k))) →
  (∀ s, I n s → Q tt s) → wp (for_each (seqZ 0 (Z.of_nat n)) body) s Q.
Proof.
  intros H0 Hbody HQ. unfold seqZ. rewrite Nat2Z.id.
  assert (H : ∀ m k s, (k + m = n)%nat → I k s →
    wp (for_each ((λ i : nat, Z.add (Z.of_nat i) 0) <$> seq k m) body) s Q).
  { induction m as [|m IH]; intros k s1 Hk HI; simpl.
    - apply wp_ret, HQ. by replace n with k by lia.
    - apply wp_bind. rewrite Z.add_0_r. eapply wp_mono; [apply Hbody; [lia|done]|].
      intros u s2 HI2. apply IH; [lia|done]. }
  by apply H.
Qed.

Lemma NoDup_take {A} (l : list A) k : NoDup l → NoDup (take k l).
Proof. rewrite <- (take_drop k l) at 1. by intros (? & _)%list.NoDup_app. Qed.
