(* ===== verification/Riscv.v ===== *)
(** Constants and macros of kernel/riscv.h, kernel/memlayout.h and
    kernel/param.h: page sizes and rounding, the fields of an Sv39 page-table
    entry, the page-table indices of a virtual address, the memory map, and the
    limits of the kernel's tables; with the bit-level lemmas the page-table
    files use. *)

From S2P Require Import Prelude.

(** ** riscv.h *)

Definition PGSIZE : Z := 4096.
Definition PGSHIFT : Z := 12.

Definition PGROUNDUP (sz : Z) : Z := Z.land (w64 (sz + PGSIZE - 1)) (Z.lnot (PGSIZE - 1)).
Definition PGROUNDDOWN (a : Z) : Z := Z.land a (Z.lnot (PGSIZE - 1)).

Definition PTE_V : Z := Z.shiftl 1 0.
Definition PTE_R : Z := Z.shiftl 1 1.
Definition PTE_W : Z := Z.shiftl 1 2.
Definition PTE_X : Z := Z.shiftl 1 3.
Definition PTE_U : Z := Z.shiftl 1 4.
Definition PTE_A : Z := Z.shiftl 1 6.
Definition PTE_PG : Z := Z.shiftl 1 9.

Definition PA2PTE (pa : Z) : Z := w64 (Z.shiftl (Z.shiftr pa 12) 10).
Definition PTE2PA (pte : Z) : Z := w64 (Z.shiftl (Z.shiftr pte 10) 12).
Definition PTE_FLAGS (pte : Z) : Z := Z.land pte 0x3FF.

Definition PXMASK : Z := 0x1FF.
Definition PXSHIFT (level : Z) : Z := PGSHIFT + 9 * level.
Definition PX (level va : Z) : Z := Z.land (Z.shiftr va (PXSHIFT level)) PXMASK.

Definition MAXVA : Z := Z.shiftl 1 (9 + 9 + 9 + 12 - 1).

(** ** memlayout.h *)

Definition UART0 : Z := 0x10000000.
Definition UART0_IRQ : Z := 10.
Definition VIRTIO0 : Z := 0x10001000.
Definition VIRTIO0_IRQ : Z := 1.
Definition PLIC : Z := 0x0c000000.
Definition KERNBASE : Z := 0x80000000.
Definition PHYSTOP : Z := KERNBASE + 128 * 1024 * 1024.
Definition TRAMPOLINE : Z := MAXVA - PGSIZE.
Definition KSTACK (p : Z) : Z := TRAMPOLINE - (p + 1) * 2 * PGSIZE.
Definition TRAPFRAME : Z := TRAMPOLINE - PGSIZE.

(** ** param.h *)

Definition NPROC : Z := 64.
Definition MAXARG : Z := 32.
Definition FSSIZE : Z := 1000.
Definition MAX_PSYC_PAGES : Z := 16.
Definition MAX_TOTAL_PAGES : Z := 32.

(** The page-replacement policy chosen when the kernel is built (Makefile
    variable [SELECTION], passed as [-D $(SELECTION)]). *)
Inductive selection := NONE | SCFIFO | NFUA | LAPA.

#[global] Instance selection_eq_dec : EqDecision selection.
Proof. solve_decision. Defined.

(** What the linker script and trampoline.S decide: the first address after the
    kernel, the end of its text and the physical address of the trampoline. *)
Class KImage := {
  kend : Z;
  etext : Z;
  trampoline : Z
}.

(** The facts about that layout the kernel relies on. *)
Class KImageOk (KI : KImage) : Prop := {
  kend_low : KERNBASE <= kend;
  kend_high : kend <= PHYSTOP;
  trampoline_aligned : trampoline mod PGSIZE = 0;
  trampoline_range : KERNBASE <= trampoline < kend
}.

(** ** Rounding *)

Lemma land_lnot_pow2 (a n : Z) : 0 <= n → Z.land a (Z.lnot (2 ^ n - 1)) = 2 ^ n * (a / 2 ^ n).
Proof.
  intros Hn. rewrite <- Z.ldiff_land.
  replace (2 ^ n - 1) with (Z.ones n) by (rewrite Z.ones_equiv; lia).
  rewrite Z.ldiff_ones_r, Z.shiftl_mul_pow2, Z.shiftr_div_pow2 by lia. lia.
Qed.

Lemma PGROUNDDOWN_eq (a : Z) : PGROUNDDOWN a = PGSIZE * (a / PGSIZE).
Proof. unfold PGROUNDDOWN. apply (land_lnot_pow2 a 12). lia. Qed.

Lemma PGROUNDUP_eq (sz : Z) :
  0 <= sz → sz + PGSIZE <= 2 ^ 64 → PGROUNDUP sz = PGSIZE * ((sz + PGSIZE - 1) / PGSIZE).
Proof.
  intros H0 H1. unfold PGROUNDUP, w64, PGSIZE in *.
  rewrite Z.mod_small by lia. apply (land_lnot_pow2 _ 12). lia.
Qed.

Lemma PGROUNDDOWN_aligned a : a mod PGSIZE = 0 → PGROUNDDOWN a = a.
Proof. rewrite PGROUNDDOWN_eq. unfold PGSIZE. intros. Z.div_mod_to_equations. lia. Qed.

Lemma PGROUNDUP_bounds sz :
  0 <= sz → sz + PGSIZE <= 2 ^ 64 →
  sz <= PGROUNDUP sz < sz + PGSIZE ∧ PGROUNDUP sz mod PGSIZE = 0.
Proof.
  intros. rewrite PGROUNDUP_eq by done. unfold PGSIZE in *.
  rewrite Z.mul_comm, Z_mod_mult. split; [|done]. Z.div_mod_to_equations. lia.
Qed.

(** ** Page-table indices *)

Lemma PX_eq level va : 0 <= level → PX level va = (va / 2 ^ (12 + 9 * level)) mod 512.
Proof.
  intros. unfold PX, PXSHIFT, PGSHIFT, PXMASK.
  rewrite Z.shiftr_div_pow2 by lia.
  change 0x1FF with (Z.ones 9). rewrite Z.land_ones by lia. done.
Qed.

Lemma PX_range level va : 0 <= level → 0 <= PX level va < 512.
Proof. intros. rewrite PX_eq by done. apply Z.mod_pos_bound. lia. Qed.

(** ** Testing and changing flag bits *)

Lemma truth_land_pow2 (x n : Z) : 0 <= n → truth (Z.land x (Z.shiftl 1 n)) = Z.testbit x n.
Proof.
  intros Hn. unfold truth. rewrite Z.shiftl_1_l.
  destruct (Z.testbit x n) eqn:E.
  - apply negb_true_iff, Z.eqb_neq. intros H.
    apply (f_equal (λ z, Z.testbit z n)) in H.
    rewrite Z.land_spec, E, Z.pow2_bits_true, Z.bits_0 in H by done. done.
  - apply negb_false_iff, Z.eqb_eq. apply Z.bits_inj'. intros k Hk.
    rewrite Z.land_spec, Z.bits_0.
    destruct (decide (k = n)) as [->|]; [by rewrite E|].
    rewrite Z.pow2_bits_false by lia. apply andb_false_r.
Qed.

Lemma truth_V x : truth (Z.land x PTE_V) = Z.testbit x 0.
Proof. by apply truth_land_pow2. Qed.
Lemma truth_U x : truth (Z.land x PTE_U) = Z.testbit x 4.
Proof. by apply truth_land_pow2. Qed.
Lemma truth_A x : truth (Z.land x PTE_A) = Z.testbit x 6.
Proof. by apply truth_land_pow2. Qed.
Lemma truth_PG x : truth (Z.land x PTE_PG) = Z.testbit x 9.
Proof. by apply truth_land_pow2. Qed.

Lemma testbit_high (z n i : Z) : 0 <= z < 2 ^ n → n <= i → 0 <= n → Z.testbit z i = false.
Proof.
  intros. rewrite <- (Z.mod_small z (2 ^ n)) by done. by apply Z.mod_pow2_bits_high.
Qed.

(** The physical address field of an entry built by [PA2PTE]. *)
Lemma PA2PTE_eq pa : 0 <= pa < 2 ^ 56 → PA2PTE pa = pa / 4096 * 1024.
Proof.
  intros. unfold PA2PTE, w64.
  rewrite Z.shiftl_mul_pow2, Z.shiftr_div_pow2 by lia.
  change (2 ^ 12) with 4096. change (2 ^ 10) with 1024.
  apply Z.mod_small. Z.div_mod_to_equations. lia.
Qed.

Lemma lor_low (x f : Z) : 0 <= f < 1024 → Z.lor (x * 1024) f = x * 1024 + f.
Proof.
  intros. change 1024 with (2 ^ 10). rewrite <- Z.shiftl_mul_pow2 by lia.
  symmetry. apply Z.add_nocarry_lor. apply Z.bits_inj'. intros k Hk.
  rewrite Z.land_spec, Z.bits_0. destruct (decide (k < 10)).
  - by rewrite Z.shiftl_spec_low by lia.
  - rewrite (testbit_high f 10 k) by lia. apply andb_false_r.
Qed.

Lemma PTE2PA_eq pte : 0 <= pte < 2 ^ 54 → PTE2PA pte = pte / 1024 * 4096.
Proof.
  intros. unfold PTE2PA, w64.
  rewrite Z.shiftl_mul_pow2, Z.shiftr_div_pow2 by lia.
  change (2 ^ 12) with 4096. change (2 ^ 10) with 1024.
  apply Z.mod_small. Z.div_mod_to_equations. lia.
Qed.

Lemma PTE2PA_make pa flags :
  0 <= pa < 2 ^ 56 → pa mod PGSIZE = 0 → 0 <= flags < 1024 →
  PTE2PA (Z.lor (PA2PTE pa) flags) = pa.
Proof.
  unfold PGSIZE. intros. rewrite PA2PTE_eq by done. rewrite lor_low by done.
  rewrite PTE2PA_eq; Z.div_mod_to_equations; lia.
Qed.

Lemma PTE_FLAGS_make pa flags :
  0 <= pa < 2 ^ 56 → 0 <= flags < 1024 →
  PTE_FLAGS (Z.lor (PA2PTE pa) flags) = flags.
Proof.
  intros. rewrite PA2PTE_eq by done. rewrite lor_low by done.
  unfold PTE_FLAGS. change 0x3FF with (Z.ones 10). rewrite Z.land_ones by lia.
  change (2 ^ 10) with 1024. rewrite Z.add_comm, Z_mod_plus_full. by apply Z.mod_small.
Qed.

Lemma testbit_make pa flags i :
  0 <= pa < 2 ^ 56 → 0 <= flags < 1024 → 0 <= i < 10 →
  Z.testbit (Z.lor (PA2PTE pa) flags) i = Z.testbit flags i.
Proof.
  intros. rewrite PA2PTE_eq by done. rewrite Z.lor_spec.
  change 1024 with (2 ^ 10). rewrite <- Z.shiftl_mul_pow2 by lia.
  by rewrite Z.shiftl_spec_low by lia.
Qed.

(** Closed comparisons of flag words. *)
Ltac flags := split; vm_compute; congruence.

Lemma PTE_V_range : 0 <= PTE_V < 1024.
Proof. flags. Qed.

Lemma PA2PTE_range pa flags :
  0 <= pa < 2 ^ 56 → 0 <= flags < 1024 → 0 <= Z.lor (PA2PTE pa) flags < 2 ^ 64.
Proof.
  intros. rewrite PA2PTE_eq by done. rewrite lor_low by done.
  Z.div_mod_to_equations. lia.
Qed.

(** Setting and clearing one flag of an entry ([*pte |= f], [*pte &= ~f]). *)
Lemma testbit_flag n i : 0 <= n → 0 <= i → Z.testbit (Z.shiftl 1 n) i = (i =? n).
Proof.
  intros. rewrite Z.shiftl_1_l. destruct (Z.eqb_spec i n) as [->|].
  - by apply Z.pow2_bits_true.
  - by apply Z.pow2_bits_false.
Qed.

Lemma testbit_clear v n i :
  0 <= n → 0 <= i → Z.testbit (Z.land v (Z.lnot (Z.shiftl 1 n))) i = Z.testbit v i && negb (i =? n).
Proof. intros. by rewrite Z.land_spec, Z.lnot_spec, testbit_flag. Qed.

Lemma testbit_set v n i :
  0 <= n → 0 <= i → Z.testbit (Z.lor v (Z.shiftl 1 n)) i = Z.testbit v i || (i =? n).
Proof. intros. by rewrite Z.lor_spec, testbit_flag. Qed.

Lemma shiftr_flag n : 0 <= n < 10 → Z.shiftr (Z.shiftl 1 n) 10 = 0.
Proof.
  intros. apply Z.bits_inj'. intros k Hk. rewrite Z.shiftr_spec, testbit_flag, Z.bits_0 by lia.
  apply Z.eqb_neq. lia.
Qed.

Lemma PTE2PA_clear v n : 0 <= n < 10 → PTE2PA (Z.land v (Z.lnot (Z.shiftl 1 n))) = PTE2PA v.
Proof.
  intros. unfold PTE2PA. do 2 f_equal. apply Z.bits_inj'. intros k Hk.
  rewrite !Z.shiftr_spec, testbit_clear by lia. rewrite (proj2 (Z.eqb_neq _ _)) by lia.
  apply andb_true_r.
Qed.

Lemma PTE2PA_set v n : 0 <= n < 10 → PTE2PA (Z.lor v (Z.shiftl 1 n)) = PTE2PA v.
Proof.
  intros. unfold PTE2PA. by rewrite Z.shiftr_lor, shiftr_flag, Z.lor_0_r.
Qed.

Lemma clear_range v f : 0 <= v < 2 ^ 64 → 0 <= Z.land v (Z.lnot f) < 2 ^ 64.
Proof.
  intros Hv. rewrite <- Z.ldiff_land. split; [apply Z.ldiff_nonneg; lia|].
  destruct (decide (Z.ldiff v f = 0)) as [->|]; [lia|].
  assert (0 <= Z.ldiff v f) by (apply Z.ldiff_nonneg; lia).
  apply Z.log2_lt_pow2; [lia|].
  destruct (decide (64 <= Z.log2 (Z.ldiff v f))) as [Hl|]; [|lia].
  pose proof (Z.bit_log2 (Z.ldiff v f) ltac:(lia)) as Hb.
  rewrite Z.ldiff_spec, (testbit_high v 64) in Hb by lia. done.
Qed.

Lemma set_range v n : 0 <= v < 2 ^ 64 → 0 <= n < 64 → 0 <= Z.lor v (Z.shiftl 1 n) < 2 ^ 64.
Proof.
  intros Hv Hn. assert (Hs : 0 <= Z.shiftl 1 n) by (apply Z.shiftl_nonneg; lia).
  split; [apply Z.lor_nonneg; lia|].
  destruct (decide (Z.lor v (Z.shiftl 1 n) = 0)) as [->|]; [lia|].
  assert (0 <= Z.lor v (Z.shiftl 1 n)) by (apply Z.lor_nonneg; lia).
  apply Z.log2_lt_pow2; [lia|].
  destruct (decide (64 <= Z.log2 (Z.lor v (Z.shiftl 1 n)))) as [Hl|]; [|lia].
  pose proof (Z.bit_log2 (Z.lor v (Z.shiftl 1 n)) ltac:(lia)) as Hb.
  rewrite testbit_set, (testbit_high v 64), (proj2 (Z.eqb_neq _ _)) in Hb by lia. done.
Qed.

#[global] Opaque PA2PTE PTE2PA PTE_FLAGS PX PGROUNDUP PGROUNDDOWN.
