(* ===== verification/Memory.v ===== *)
(** Byte-addressed memory and the memory routines of kernel/string.c.

    Memory is a finite map from addresses to bytes; a byte that was never
    written reads as zero.  [load64]/[store64] are the little-endian accesses
    the compiler emits for a [uint64], and [memset] and [memmove] are the loops
    of string.c, run on that memory. *)

From S2P Require Import Prelude Riscv.

Abbreviation memory := (gmap Z Z).

Definition mget (m : memory) (a : Z) : Z := w8 (default 0 (m !! a)).
Definition mput (m : memory) (a v : Z) : memory := <[a := w8 v]> m.

Fixpoint le_load (n : nat) (m : memory) (a : Z) : Z :=
  match n with
  | O => 0
  | S k => mget m a + 256 * le_load k m (a + 1)
  end.

Fixpoint le_store (n : nat) (m : memory) (a v : Z) : memory :=
  match n with
  | O => m
  | S k => le_store k (mput m a v) (a + 1) (v / 256)
  end.

Definition load64 (m : memory) (a : Z) : Z := le_load 8 m a.
Definition store64 (m : memory) (a v : Z) : memory := le_store 8 m a v.

(** The [n] bytes at [a], and writing a byte string at [a]. *)
Fixpoint read_bytes (m : memory) (a : Z) (n : nat) : list Z :=
  match n with
  | O => []
  | S k => mget m a :: read_bytes m (a + 1) k
  end.

Fixpoint write_bytes (m : memory) (a : Z) (bs : list Z) : memory :=
  match bs with
  | [] => m
  | b :: bs' => write_bytes (mput m a b) (a + 1) bs'
  end.

(** [memset]: [for(i = 0; i < n; i++) cdst[i] = c;] *)
Fixpoint memset_loop (k : nat) (i : Z) (m : memory) (cdst c : Z) : memory :=
  match k with
  | O => m
  | S k' => memset_loop k' (i + 1) (mput m (cdst + i) c) cdst c
  end.

Definition memset (m : memory) (dst c n : Z) : memory :=
  memset_loop (Z.to_nat n) 0 m dst c.

(** [memmove]: [*d++ = *s++] upwards, [*--d = *--s] downwards. *)
Fixpoint copy_up (n : nat) (m : memory) (d s : Z) : memory :=
  match n with
  | O => m
  | S k => copy_up k (mput m d (mget m s)) (d + 1) (s + 1)
  end.

Fixpoint copy_down (n : nat) (m : memory) (d s : Z) : memory :=
  match n with
  | O => m
  | S k => copy_down k (mput m (d - 1) (mget m (s - 1))) (d - 1) (s - 1)
  end.

Definition memmove (m : memory) (dst src n : Z) : memory :=
  if (src <? dst) && (dst <? src + n)
  then copy_down (Z.to_nat n) m (dst + n) (src + n)
  else copy_up (Z.to_nat n) m dst src.

(** [m'] is [m] but for the [n] bytes at [a]. *)
Definition same_off (a n : Z) (m m' : memory) : Prop :=
  ∀ b, b < a ∨ a + n <= b → mget m' b = mget m b.

(** ** Bytes *)

Lemma w8_range z : 0 <= w8 z < 256.
Proof. unfold w8. apply Z.mod_pos_bound. lia. Qed.

Lemma w8_idem z : w8 (w8 z) = w8 z.
Proof. unfold w8. apply Z.mod_mod. lia. Qed.

Lemma mget_range m a : 0 <= mget m a < 256.
Proof. apply w8_range. Qed.

Lemma w8_mget m a : w8 (mget m a) = mget m a.
Proof. apply w8_idem. Qed.

Lemma mget_mput_eq m a v : mget (mput m a v) a = w8 v.
Proof. unfold mget, mput. rewrite lookup_insert_eq. simpl. apply w8_idem. Qed.

Lemma mget_mput_ne m a b v : a ≠ b → mget (mput m a v) b = mget m b.
Proof. intros. unfold mget, mput. by rewrite lookup_insert_ne. Qed.

Lemma mget_mput m a b v : mget (mput m a v) b = if decide (a = b) then w8 v else mget m b.
Proof. case_decide; subst; [apply mget_mput_eq|by apply mget_mput_ne]. Qed.

(** ** Words *)

Lemma le_load_range n m a : 0 <= le_load n m a < 256 ^ Z.of_nat n.
Proof.
  revert a. induction n as [|n IH]; intros a; [simpl; lia|].
  rewrite Nat2Z.inj_succ, Z.pow_succ_r by lia. cbn [le_load].
  pose proof (mget_range m a). specialize (IH (a + 1)). lia.
Qed.

Lemma le_load_ext n m m' a :
  (∀ k, 0 <= k < Z.of_nat n → mget m (a + k) = mget m' (a + k)) →
  le_load n m a = le_load n m' a.
Proof.
  revert a. induction n as [|n IH]; intros a H; [done|]. cbn [le_load].
  rewrite (IH (a + 1)).
  - specialize (H 0). rewrite Z.add_0_r in H. rewrite H by lia. done.
  - intros k Hk. replace (a + 1 + k) with (a + (1 + k)) by lia. apply H. lia.
Qed.

Lemma mget_le_store n m a v b :
  mget (le_store n m a v) b =
  if decide (a <= b < a + Z.of_nat n) then (v / 256 ^ (b - a)) mod 256 else mget m b.
Proof.
  revert m a v. induction n as [|n IH]; intros m a v; cbn [le_store].
  - rewrite decide_False by lia. done.
  - rewrite IH. destruct (decide (a = b)) as [->|Hne].
    + rewrite decide_False by lia. rewrite decide_True by lia.
      rewrite mget_mput_eq, Z.sub_diag, Z.pow_0_r, Z.div_1_r. done.
    + rewrite mget_mput_ne by done. repeat case_decide; try lia; try done.
      replace (b - a) with (Z.succ (b - (a + 1))) by lia.
      rewrite Z.pow_succ_r by lia. rewrite Z.div_div by lia. done.
Qed.

Lemma le_load_store_eq n m a v : le_load n (le_store n m a v) a = v mod 256 ^ Z.of_nat n.
Proof.
  revert m a v. induction n as [|n IH]; intros m a v.
  - simpl. by rewrite Z.mod_1_r.
  - rewrite Nat2Z.inj_succ, Z.pow_succ_r by lia. cbn [le_store le_load].
    rewrite IH. rewrite mget_le_store, decide_False by lia. rewrite mget_mput_eq.
    unfold w8. change (2 ^ 8) with 256. rewrite Z.rem_mul_r by lia. lia.
Qed.

Lemma le_load_store_ne n k m a b v :
  a + Z.of_nat n <= b ∨ b + Z.of_nat k <= a → le_load k (le_store n m a v) b = le_load k m b.
Proof.
  intros. apply le_load_ext. intros j Hj. rewrite mget_le_store, decide_False by lia. done.
Qed.

Lemma load64_range m a : 0 <= load64 m a < 2 ^ 64.
Proof. pose proof (le_load_range 8 m a). change (2 ^ 64) with (256 ^ 8). done. Qed.

Lemma load64_store64_eq m a v : 0 <= v < 2 ^ 64 → load64 (store64 m a v) a = v.
Proof.
  intros. unfold load64, store64. rewrite le_load_store_eq.
  change (256 ^ Z.of_nat 8) with (2 ^ 64). by apply Z.mod_small.
Qed.

Lemma load64_store64_ne m a b v :
  a + 8 <= b ∨ b + 8 <= a → load64 (store64 m a v) b = load64 m b.
Proof. intros. apply le_load_store_ne. lia. Qed.

Lemma load64_ext m m' a :
  (∀ k, 0 <= k < 8 → mget m (a + k) = mget m' (a + k)) → load64 m a = load64 m' a.
Proof. intros. by apply le_load_ext. Qed.

Lemma mget_store64_ne m a v b : b < a ∨ a + 8 <= b → mget (store64 m a v) b = mget m b.
Proof. intros. unfold store64. rewrite mget_le_store, decide_False by lia. done. Qed.

(** ** Byte strings *)

Lemma length_read_bytes m a n : length (read_bytes m a n) = n.
Proof. revert a. induction n; intros; simpl; [done|]. f_equal. auto. Qed.

Lemma lookup_read_bytes m a n i :
  (i < n)%nat → read_bytes m a n !! i = Some (mget m (a + Z.of_nat i)).
Proof.
  revert a i. induction n as [|n IH]; intros a i Hi; [lia|].
  destruct i as [|i]; cbn [read_bytes].
  - cbn. by rewrite Z.add_0_r.
  - rewrite lookup_cons. rewrite (IH (a + 1) i) by lia. do 2 f_equal. lia.
Qed.

Lemma read_bytes_ext m m' a b n :
  (∀ k, 0 <= k < Z.of_nat n → mget m (a + k) = mget m' (b + k)) →
  read_bytes m a n = read_bytes m' b n.
Proof.
  revert a b. induction n as [|n IH]; intros a b H; [done|]. simpl. f_equal.
  - specialize (H 0). rewrite !Z.add_0_r in H. apply H. lia.
  - apply IH. intros k Hk. replace (a + 1 + k) with (a + (1 + k)) by lia.
    replace (b + 1 + k) with (b + (1 + k)) by lia. apply H. lia.
Qed.

Lemma mget_write_bytes m a bs b :
  mget (write_bytes m a bs) b =
  if decide (a <= b < a + Z.of_nat (length bs))
  then w8 (default 0 (bs !! Z.to_nat (b - a))) else mget m b.
Proof.
  revert m a. induction bs as [|x bs IH]; intros m a; cbn [write_bytes length].
  - rewrite decide_False by lia. done.
  - rewrite IH. destruct (decide (a = b)) as [->|Hne].
    + rewrite decide_False by lia. rewrite decide_True by lia.
      rewrite mget_mput_eq, Z.sub_diag. done.
    + rewrite mget_mput_ne by done. repeat case_decide; try lia; try done.
      replace (Z.to_nat (b - a)) with (S (Z.to_nat (b - (a + 1)))) by lia. done.
Qed.

Lemma read_write_bytes m a bs :
  Forall (λ b, 0 <= b < 256) bs →
  read_bytes (write_bytes m a bs) a (length bs) = bs.
Proof.
  intros Hbs. apply list_eq_same_length with (length bs).
  - done.
  - by rewrite length_read_bytes.
  - intros i x y Hi. rewrite lookup_read_bytes by done. rewrite mget_write_bytes.
    rewrite decide_True by lia. replace (Z.to_nat _) with i by lia.
    intros Hx Hy. rewrite Hy in Hx. simpl in Hx. injection Hx as <-.
    unfold w8. apply Z.mod_small. rewrite Forall_lookup in Hbs. by eapply Hbs.
Qed.

Lemma read_bytes_bytes m a n : Forall (λ b, 0 <= b < 256) (read_bytes m a n).
Proof. revert a. induction n; intros; simpl; constructor; auto using mget_range. Qed.

(** ** memset and memmove *)

Lemma mget_memset_loop k i m d c b :
  mget (memset_loop k i m d c) b =
  if decide (d + i <= b < d + i + Z.of_nat k) then w8 c else mget m b.
Proof.
  revert i m. induction k as [|k IH]; intros i m; cbn [memset_loop].
  - rewrite decide_False by lia. done.
  - rewrite IH, mget_mput. repeat case_decide; try done; lia.
Qed.

Lemma mget_memset m d c n b :
  mget (memset m d c n) b = if decide (d <= b < d + n) then w8 c else mget m b.
Proof.
  unfold memset. rewrite mget_memset_loop. repeat case_decide; try done; lia.
Qed.

Lemma mget_copy_up n m d s b :
  d <= s ∨ s + Z.of_nat n <= d →
  mget (copy_up n m d s) b =
  if decide (d <= b < d + Z.of_nat n) then mget m (s + (b - d)) else mget m b.
Proof.
  revert m d s. induction n as [|n IH]; intros m d s Hds; cbn [copy_up].
  - rewrite decide_False by lia. done.
  - rewrite IH by lia. rewrite !mget_mput, !w8_mget.
    repeat case_decide; try lia; try done; f_equal; lia.
Qed.

Lemma mget_copy_down n m d s b :
  s <= d →
  mget (copy_down n m d s) b =
  if decide (d - Z.of_nat n <= b < d) then mget m (s - (d - b)) else mget m b.
Proof.
  revert m d s. induction n as [|n IH]; intros m d s Hds; cbn [copy_down].
  - rewrite decide_False by lia. done.
  - rewrite IH by lia. rewrite !mget_mput, !w8_mget.
    repeat case_decide; try lia; try done; f_equal; lia.
Qed.

Lemma mget_memmove m dst src n b :
  0 <= n →
  mget (memmove m dst src n) b =
  if decide (dst <= b < dst + n) then mget m (src + (b - dst)) else mget m b.
Proof.
  intros Hn. unfold memmove. destruct (Z.ltb_spec src dst), (Z.ltb_spec dst (src + n)); simpl.
  all: rewrite ?mget_copy_down, ?mget_copy_up by lia.
  all: repeat case_decide; try lia; try done; f_equal; lia.
Qed.

Lemma same_off_load64 a n m m' b :
  same_off a n m m' → b + 8 <= a ∨ a + n <= b → load64 m' b = load64 m b.
Proof. intros H Hb. apply load64_ext. intros k Hk. apply H. lia. Qed.

Lemma same_off_store64 a v m : same_off a 8 m (store64 m a v).
Proof. intros b Hb. apply mget_store64_ne. lia. Qed.

Lemma same_off_weaken a n p k m m' :
  same_off a n m m' → p <= a → a + n <= p + k → same_off p k m m'.
Proof. intros H ?? b Hb. apply H. lia. Qed.

Lemma same_off_trans a n m1 m2 m3 :
  same_off a n m1 m2 → same_off a n m2 m3 → same_off a n m1 m3.
Proof. intros H1 H2 b Hb. rewrite H2, H1 by done. done. Qed.

(** Proofs go through the lemmas above; the loops still compute under
    [vm_compute]. *)
(** [memmove] copies correctly also when the two ranges overlap: afterwards
    the destination holds what the source held before, and no other byte
    changed. *)
Lemma memmove_copies m dst src n :
  0 <= n →
  read_bytes (memmove m dst src n) dst (Z.to_nat n) = read_bytes m src (Z.to_nat n) ∧
  same_off dst n m (memmove m dst src n).
Proof.
  intros Hn. split.
  - apply list_eq. intros k. destruct (decide (k < Z.to_nat n)%nat).
    + rewrite !lookup_read_bytes, mget_memmove, decide_True by lia. do 2 f_equal. lia.
    + rewrite !lookup_ge_None_2; [done|rewrite length_read_bytes; lia..].
  - intros b Hb. rewrite mget_memmove by done. by rewrite decide_False by lia.
Qed.

#[global] Opaque memset memmove read_bytes write_bytes load64 store64.
