(* ===== verification/Str.v ===== *)
(** The string routines of kernel/string.c that the file system uses.

    A [char*] is the list of the characters from it on; where the list ends the
    string has its terminating zero.  A [char] array is a list of its length. *)

From S2P Require Import Prelude.

(** [*p] and [p+1]. *)
Definition chr (p : list Z) : Z := default 0 (head p).

Fixpoint strncmp (n : nat) (p q : list Z) : Z :=
  match n with
  | O => 0
  | S n' =>
    if truth (chr p) && (chr p =? chr q) then strncmp n' (tail p) (tail q)
    else chr p - chr q
  end.

(** The [n] characters stored at [s]. *)
Fixpoint strncpy (n : nat) (t : list Z) : list Z :=
  match n with
  | O => []
  | S n' => if truth (chr t) then chr t :: strncpy n' (tail t) else 0 :: replicate n' 0
  end.

(** The characters stored at [s], the closing zero included. *)
Fixpoint safestrcpy_loop (n : nat) (t : list Z) : list Z :=
  match n with
  | O => [0]
  | S n' => if truth (chr t) then chr t :: safestrcpy_loop n' (tail t) else [0; 0]
  end.

Definition safestrcpy (n : Z) (t : list Z) : list Z :=
  if n <=? 0 then [] else safestrcpy_loop (Z.to_nat (n - 1)) t.

Fixpoint strlen_loop (p : list Z) (n : Z) : Z :=
  match p with
  | [] => n
  | c :: p' => if truth c then strlen_loop p' (n + 1) else n
  end.
Definition strlen (s : list Z) : Z := strlen_loop s 0.

Fixpoint memcmp (n : nat) (s1 s2 : list Z) : Z :=
  match n with
  | O => 0
  | S n' => if negb (chr s1 =? chr s2) then chr s1 - chr s2 else memcmp n' (tail s1) (tail s2)
  end.

(** ** Specifications *)

(** The string held by a [char] array: its characters up to the first zero. *)
Fixpoint cstr (p : list Z) : list Z :=
  match p with
  | [] => []
  | c :: p' => if truth c then c :: cstr p' else []
  end.

Lemma truth_0 c : truth c = false ↔ c = 0.
Proof. unfold truth. rewrite negb_false_iff. apply Z.eqb_eq. Qed.

Lemma truth_ne c : truth c = true ↔ c ≠ 0.
Proof. unfold truth. rewrite negb_true_iff. apply Z.eqb_neq. Qed.

Lemma cstr_chr p : cstr p = if truth (chr p) then chr p :: cstr (tail p) else [].
Proof. destruct p as [|c p]; [done|]. done. Qed.

(** [strncmp] returns zero exactly on strings that agree on [n] characters. *)
Lemma strncmp_0 n p q : strncmp n p q = 0 ↔ take n (cstr p) = take n (cstr q).
Proof.
  revert p q. induction n as [|n IH]; intros p q; [by rewrite !take_0|]. cbn [strncmp].
  rewrite (cstr_chr p), (cstr_chr q).
  destruct (truth (chr p)) eqn:Ep, (truth (chr q)) eqn:Eq; cbn [andb].
  - destruct (Z.eqb_spec (chr p) (chr q)) as [He|Hne].
    + rewrite IH, He. cbn [take]. split; [by intros ->|]. intros H. by simplify_eq.
    + cbn [take]. split; [lia|]. intros H. by simplify_eq.
  - apply truth_0 in Eq. apply truth_ne in Ep. rewrite Eq.
    rewrite (proj2 (Z.eqb_neq _ _)) by done. cbn [take]. split; [lia|done].
  - apply truth_0 in Ep. apply truth_ne in Eq. rewrite Ep. cbn [take]. split; [lia|done].
  - apply truth_0 in Ep, Eq. rewrite Ep, Eq. done.
Qed.

Lemma strncpy_length n t : length (strncpy n t) = n.
Proof.
  revert t. induction n as [|n IH]; intros t; [done|]. simpl. case_match; simpl; [by rewrite IH|by rewrite length_replicate].
Qed.

Lemma cstr_zeros n : cstr (replicate n 0) = [].
Proof. by destruct n. Qed.

(** [strncpy] stores the first [n] characters of the string, padded with zeros. *)
Lemma strncpy_cstr n t : cstr (strncpy n t) = take n (cstr t).
Proof.
  revert t. induction n as [|n IH]; intros t; [by rewrite take_0|]. cbn [strncpy]. rewrite (cstr_chr t).
  destruct (truth (chr t)) eqn:E; [|done]. cbn [cstr take]. by rewrite E, IH.
Qed.

Lemma strlen_loop_ok p n : strlen_loop p n = n + Z.of_nat (length (cstr p)).
Proof.
  revert n. induction p as [|c p IH]; intros n; simpl; [lia|]. destruct (truth c); [rewrite IH; simpl; lia|simpl; lia].
Qed.

(** [safestrcpy] stores a terminated string that fits in [n] characters. *)
Lemma safestrcpy_loop_ok n t :
  cstr (safestrcpy_loop n t) = take n (cstr t) ∧ (length (safestrcpy_loop n t) <= S n)%nat ∧
  0 ∈ safestrcpy_loop n t.
Proof.
  revert t. induction n as [|n IH]; intros t; cbn [safestrcpy_loop].
  - rewrite take_0. split_and!; [done|simpl; lia|by apply elem_of_cons; left].
  - rewrite (cstr_chr t). destruct (truth (chr t)) eqn:E.
    + destruct (IH (tail t)) as (H1 & H2 & H3). cbn [cstr take]. rewrite E, H1.
      split_and!; [done|simpl; lia|apply elem_of_cons; by right].
    + split_and!; [done|simpl; lia|by apply elem_of_cons; left].
Qed.
