(* ===== verification/State.v ===== *)
(** The kernel state the memory-management and process code works on.

    [proc] is [struct proc] of kernel/proc.h, [page_data] the per-page record
    added for paging.  [kst] holds physical memory, the allocator's free list
    head, the process table, the process running on this CPU and the store that
    keeps the swap files.  The last is reached only through the operations of
    the class [SwapStore], which stand for [kfileread]/[kfilewrite] on
    [p->swapFile]. *)

From S2P Require Import Prelude Riscv Memory.

(** ** kernel/proc.h *)

Inductive procstate := UNUSED | USED | SLEEPING | RUNNABLE | RUNNING | ZOMBIE.

#[global] Instance procstate_eq_dec : EqDecision procstate.
Proof. solve_decision. Defined.

Record page_data := mk_page_data {
  pd_offset : Z;
  pd_used : Z;
  pd_va : Z;
  pd_age : Z;
  pd_fifo_time : Z
}.

#[global] Instance page_data_eq_dec : EqDecision page_data.
Proof. solve_decision. Defined.

(** Pointers to a [struct proc], [struct file] or [struct inode] are indices in
    the kernel's tables; [None] is the null pointer.  The trapframe is a page of
    physical memory; of [struct context] the code in C only touches [ra] and
    [sp]. *)
Record proc := mk_proc {
  p_state : procstate;
  p_chan : Z;
  p_killed : Z;
  p_xstate : Z;
  p_pid : Z;
  p_parent : option nat;
  p_kstack : Z;
  p_sz : Z;
  p_pagetable : Z;
  p_trapframe : Z;
  p_context_ra : Z;
  p_context_sp : Z;
  p_ofile : list (option nat);
  p_cwd : option nat;
  p_name : list Z;
  p_swapFile : option nat;
  p_ram : list page_data;
  p_swap : list page_data;
  p_fifo_counter : Z
}.

(** ** The swap file interface *)

(** [sw_write f off bs]: [writeToSwapFile] of the bytes [bs] at offset [off] of
    file [f], returning the C result; [sw_read f off n]: [readFromSwapFile],
    returning the C result and the bytes copied to the buffer. *)
Class SwapStore (F : Type) := {
  sw_write : nat → Z → list Z → M F Z;
  sw_read : nat → Z → Z → M F (Z * list Z)
}.

(** What the paging code relies on.  [sw_valid fs f]: [f] is open for reading
    and writing and may grow to the [MAX_PSYC_PAGES] pages of a swap file;
    [sw_size] is its length and [sw_byte] its contents. *)
Class SwapStoreOk (F : Type) `{SwapStore F} := {
  sw_valid : F → nat → Prop;
  sw_size : F → nat → Z;
  sw_byte : F → nat → Z → Z;
  sw_write_ok : ∀ fs f off bs,
    sw_valid fs f → 0 <= off <= sw_size fs f →
    Forall (λ b, 0 <= b < 256) bs →
    off + Z.of_nat (length bs) <= MAX_PSYC_PAGES * PGSIZE →
    wp (sw_write f off bs) fs (λ r fs',
      r = Z.of_nat (length bs) ∧
      (∀ g, sw_valid fs g → sw_valid fs' g) ∧
      sw_size fs' f = Z.max (sw_size fs f) (off + Z.of_nat (length bs)) ∧
      (∀ k, sw_byte fs' f k =
        if decide (off <= k < off + Z.of_nat (length bs))
        then default 0 (bs !! Z.to_nat (k - off)) else sw_byte fs f k) ∧
      (∀ g, g ≠ f → sw_valid fs g →
        sw_size fs' g = sw_size fs g ∧ ∀ k, sw_byte fs' g k = sw_byte fs g k));
  sw_read_ok : ∀ fs f off n,
    sw_valid fs f → 0 <= off → 0 <= n → off + n <= sw_size fs f →
    wp (sw_read f off n) fs (λ r fs',
      r.1 = n ∧ r.2 = (λ i, sw_byte fs f (off + i)) <$> seqZ 0 n ∧
      (∀ g, sw_valid fs g → sw_valid fs' g ∧ sw_size fs' g = sw_size fs g ∧
        ∀ k, sw_byte fs' g k = sw_byte fs g k));
  sw_size_nonneg : ∀ fs f, 0 <= sw_size fs f;
  sw_byte_range : ∀ fs f k, 0 <= sw_byte fs f k < 256
}.

(** ** Kernel state *)

Record kst {F : Type} := mk_kst {
  mem : memory;
  freelist : Z;
  procs : list proc;
  cur : option nat;
  nextpid : Z;
  initproc : option nat;
  stval : Z;
  out : list (Z * Z * Z);
  fs : F
}.
Arguments kst F : clear implicits.
Arguments mk_kst {F} _ _ _ _ _ _ _ _ _.

Definition set_mem {F} (m : memory) (s : kst F) : kst F :=
  mk_kst m (freelist s) (procs s) (cur s) (nextpid s) (initproc s) (stval s) (out s) (fs s).
Definition set_freelist {F} (r : Z) (s : kst F) : kst F :=
  mk_kst (mem s) r (procs s) (cur s) (nextpid s) (initproc s) (stval s) (out s) (fs s).
Definition set_procs {F} (ps : list proc) (s : kst F) : kst F :=
  mk_kst (mem s) (freelist s) ps (cur s) (nextpid s) (initproc s) (stval s) (out s) (fs s).
Definition set_out {F} (o : list (Z * Z * Z)) (s : kst F) : kst F :=
  mk_kst (mem s) (freelist s) (procs s) (cur s) (nextpid s) (initproc s) (stval s) o (fs s).
Definition set_fs {F} (f : F) (s : kst F) : kst F :=
  mk_kst (mem s) (freelist s) (procs s) (cur s) (nextpid s) (initproc s) (stval s) (out s) f.

Definition upd_mem {F} (f : memory → memory) (s : kst F) : kst F := set_mem (f (mem s)) s.

(** [s'] is [s] but for memory and the free list. *)
Definition same_but_mem {F} (s s' : kst F) : Prop :=
  s' = set_freelist (freelist s') (set_mem (mem s') s).

(** ** Field updates of [struct proc] *)

Definition set_p_ram (v : list page_data) (p : proc) : proc :=
  mk_proc (p_state p) (p_chan p) (p_killed p) (p_xstate p) (p_pid p) (p_parent p) (p_kstack p)
    (p_sz p) (p_pagetable p) (p_trapframe p) (p_context_ra p) (p_context_sp p) (p_ofile p)
    (p_cwd p) (p_name p) (p_swapFile p) v (p_swap p) (p_fifo_counter p).
Definition set_p_swap (v : list page_data) (p : proc) : proc :=
  mk_proc (p_state p) (p_chan p) (p_killed p) (p_xstate p) (p_pid p) (p_parent p) (p_kstack p)
    (p_sz p) (p_pagetable p) (p_trapframe p) (p_context_ra p) (p_context_sp p) (p_ofile p)
    (p_cwd p) (p_name p) (p_swapFile p) (p_ram p) v (p_fifo_counter p).
Definition set_p_fifo_counter (v : Z) (p : proc) : proc :=
  mk_proc (p_state p) (p_chan p) (p_killed p) (p_xstate p) (p_pid p) (p_parent p) (p_kstack p)
    (p_sz p) (p_pagetable p) (p_trapframe p) (p_context_ra p) (p_context_sp p) (p_ofile p)
    (p_cwd p) (p_name p) (p_swapFile p) (p_ram p) (p_swap p) v.
Definition set_p_killed (v : Z) (p : proc) : proc :=
  mk_proc (p_state p) (p_chan p) v (p_xstate p) (p_pid p) (p_parent p) (p_kstack p)
    (p_sz p) (p_pagetable p) (p_trapframe p) (p_context_ra p) (p_context_sp p) (p_ofile p)
    (p_cwd p) (p_name p) (p_swapFile p) (p_ram p) (p_swap p) (p_fifo_counter p).
Definition set_p_sz (v : Z) (p : proc) : proc :=
  mk_proc (p_state p) (p_chan p) (p_killed p) (p_xstate p) (p_pid p) (p_parent p) (p_kstack p)
    v (p_pagetable p) (p_trapframe p) (p_context_ra p) (p_context_sp p) (p_ofile p)
    (p_cwd p) (p_name p) (p_swapFile p) (p_ram p) (p_swap p) (p_fifo_counter p).

(** ** Memory access

    The memory the allocator hands out runs from [kend] to [PHYSTOP]; an access
    outside it is not given a meaning ([Wild]). *)

Section Access.
Context {F : Type} {KI : KImage}.

Definition in_ram (a n : Z) : bool := (kend <=? a) && (a + n <=? PHYSTOP).

Definition loadM (a : Z) : M (kst F) Z := λ s,
  if in_ram a 8 then Ok (load64 (mem s) a, s) else Wild a.

Definition storeM (a v : Z) : M (kst F) unit := λ s,
  if in_ram a 8 then Ok (tt, upd_mem (λ m, store64 m a v) s) else Wild a.

Definition memsetM (dst c n : Z) : M (kst F) unit := λ s,
  if in_ram dst n then Ok (tt, upd_mem (λ m, memset m dst c n) s) else Wild dst.

Definition memmoveM (dst src n : Z) : M (kst F) unit := λ s,
  if in_ram dst n && in_ram src n
  then Ok (tt, upd_mem (λ m, memmove m dst src n) s) else Wild dst.

(** Copying between kernel variables (byte strings) and physical memory. *)
Definition readM (a n : Z) : M (kst F) (list Z) := λ s,
  if in_ram a n then Ok (read_bytes (mem s) a (Z.to_nat n), s) else Wild a.

Definition writeM (a : Z) (bs : list Z) : M (kst F) unit := λ s,
  if in_ram a (Z.of_nat (length bs))
  then Ok (tt, upd_mem (λ m, write_bytes m a bs) s) else Wild a.

(** [myproc()], and an assignment to fields of [*myproc()]. *)
Definition myproc : M (kst F) proc := λ s,
  match cur s with
  | Some i => match procs s !! i with Some p => Ok (p, s) | None => Wild 0 end
  | None => Wild 0
  end.

Definition upd_myproc (f : proc → proc) : M (kst F) unit := λ s,
  match cur s with
  | Some i => match procs s !! i with
              | Some p => Ok (tt, set_procs (<[i := f p]> (procs s)) s)
              | None => Wild 0
              end
  | None => Wild 0
  end.

(** Running an operation of the swap store. *)
Definition liftF {A} (m : M F A) : M (kst F) A := λ s,
  match m (fs s) with
  | Ok (a, f) => Ok (a, set_fs f s)
  | Panic msg => Panic msg
  | Wild a => Wild a
  | Exit st => Exit st
  | OutOfFuel => OutOfFuel
  end.

End Access.

(** ** Lemmas *)

Section AccessLemmas.
Context {F : Type} {KI : KImage}.
Implicit Types s : kst F.

Lemma in_ram_spec a n : in_ram a n = true ↔ kend <= a ∧ a + n <= PHYSTOP.
Proof. unfold in_ram. rewrite andb_true_iff, !Z.leb_le. done. Qed.

Lemma wp_loadM a s (Q : Z → kst F → Prop) :
  kend <= a → a + 8 <= PHYSTOP → Q (load64 (mem s) a) s → wp (loadM a) s Q.
Proof. intros. unfold wp, loadM. by rewrite (proj2 (in_ram_spec a 8)). Qed.

(** The post-memory of a write is only described by what it holds. *)
Lemma wp_storeM a v s (Q : unit → kst F → Prop) :
  kend <= a → a + 8 <= PHYSTOP → 0 <= v < 2 ^ 64 →
  (∀ m', load64 m' a = v → same_off a 8 (mem s) m' → Q tt (set_mem m' s)) →
  wp (storeM a v) s Q.
Proof.
  intros ?? Hv HQ. unfold wp, storeM. rewrite (proj2 (in_ram_spec a 8)) by done.
  apply HQ; [by apply load64_store64_eq|apply same_off_store64].
Qed.

Lemma wp_memsetM d c n s (Q : unit → kst F → Prop) :
  kend <= d → d + n <= PHYSTOP →
  (∀ m', (∀ b, d <= b < d + n → mget m' b = w8 c) → same_off d n (mem s) m' →
     Q tt (set_mem m' s)) →
  wp (memsetM d c n) s Q.
Proof.
  intros ?? HQ. unfold wp, memsetM. rewrite (proj2 (in_ram_spec d n)) by done.
  apply HQ.
  - intros b Hb. rewrite mget_memset. by rewrite decide_True by lia.
  - intros b Hb. rewrite mget_memset. by rewrite decide_False by lia.
Qed.

Lemma wp_memmoveM d a n s (Q : unit → kst F → Prop) :
  kend <= d → d + n <= PHYSTOP → kend <= a → a + n <= PHYSTOP → 0 <= n →
  (∀ m', (∀ k, 0 <= k < n → mget m' (d + k) = mget (mem s) (a + k)) →
     same_off d n (mem s) m' → Q tt (set_mem m' s)) →
  wp (memmoveM d a n) s Q.
Proof.
  intros ????? HQ. unfold wp, memmoveM. rewrite (proj2 (in_ram_spec d n)) by done.
  rewrite (proj2 (in_ram_spec a n)) by done. apply HQ.
  - intros k Hk. rewrite mget_memmove by done. rewrite decide_True by lia. f_equal. lia.
  - intros b Hb. rewrite mget_memmove by done. by rewrite decide_False by lia.
Qed.

Lemma wp_readM a n s (Q : list Z → kst F → Prop) :
  kend <= a → a + n <= PHYSTOP → Q (read_bytes (mem s) a (Z.to_nat n)) s → wp (readM a n) s Q.
Proof. intros. unfold wp, readM. by rewrite (proj2 (in_ram_spec a n)). Qed.

Lemma wp_writeM a bs s (Q : unit → kst F → Prop) :
  kend <= a → a + Z.of_nat (length bs) <= PHYSTOP →
  Forall (λ b, 0 <= b < 256) bs →
  (∀ m', read_bytes m' a (length bs) = bs →
     same_off a (Z.of_nat (length bs)) (mem s) m' → Q tt (set_mem m' s)) →
  wp (writeM a bs) s Q.
Proof.
  intros ??? HQ. unfold wp, writeM. rewrite (proj2 (in_ram_spec a _)) by done.
  apply HQ; [by apply read_write_bytes|].
  intros b Hb. rewrite mget_write_bytes. by rewrite decide_False by lia.
Qed.

Lemma wp_liftF {A} (m : M F A) s (Q : A → kst F → Prop) :
  wp m (fs s) (λ a f, Q a (set_fs f s)) → wp (liftF m) s Q.
Proof. unfold wp, liftF. destruct (m (fs s)) as [[a f]| | | |]; done. Qed.

Lemma same_but_mem_refl s : same_but_mem s s.
Proof. by destruct s. Qed.

Lemma same_but_mem_trans s1 s2 s3 :
  same_but_mem s1 s2 → same_but_mem s2 s3 → same_but_mem s1 s3.
Proof. unfold same_but_mem. destruct s1, s2, s3. simpl. intros [=] [=]. by subst. Qed.

Lemma same_but_mem_set s m r : same_but_mem s (set_freelist r (set_mem m s)).
Proof. by destruct s. Qed.

Lemma same_but_mem_set' s m r : same_but_mem s (set_mem m (set_freelist r s)).
Proof. by destruct s. Qed.

Lemma same_but_mem_mem s m : same_but_mem s (set_mem m s).
Proof. by destruct s. Qed.

Lemma same_but_mem_fields s s' :
  same_but_mem s s' →
  procs s' = procs s ∧ cur s' = cur s ∧ nextpid s' = nextpid s ∧ initproc s' = initproc s ∧
  stval s' = stval s ∧ out s' = out s ∧ fs s' = fs s.
Proof. unfold same_but_mem. intros ->. done. Qed.

End AccessLemmas.
