(* ===== verification/Kalloc.v ===== *)
(** The physical page allocator, kernel/kalloc.c.

    The free list is the linked list of the source: the head is a field of the
    state and the link of a free page is the [uint64] at its first byte.
    [kmem_ok s l] relates that list to the sequence [l] of free pages.  The
    lock [kmem.lock] brackets the list updates; each routine here is one such
    critical section. *)

From S2P Require Import Prelude Riscv Memory State.

Section Kalloc.
Context {F : Type} {KI : KImage}.

Definition kfree (pa : Z) : M (kst F) unit :=
  if negb (pa mod PGSIZE =? 0) || (pa <? kend) || (PHYSTOP <=? pa)
  then panic "kfree"
  else
    memsetM pa 1 PGSIZE;;
    r ← gets freelist;
    storeM pa r;;
    modify (set_freelist pa).

Definition kalloc : M (kst F) Z :=
  r ← gets freelist;
  (if truth r then (nxt ← loadM r; modify (set_freelist nxt)) else mret tt);;
  (if truth r then memsetM r 5 PGSIZE else mret tt);;
  mret r.

(** [for(; p + PGSIZE <= pa_end; p += PGSIZE) kfree(p);] *)
Definition freerange_body (pa_end : Z) (p : Z) : M (kst F) (Z + unit) :=
  if p + PGSIZE <=? pa_end then kfree p;; mret (inl (p + PGSIZE)) else mret (inr tt).

Definition freerange (pa_start pa_end : Z) : M (kst F) unit :=
  let p := PGROUNDUP pa_start in
  loop (S (Z.to_nat ((pa_end - p) / PGSIZE))) (freerange_body pa_end) p.

Definition kinit : M (kst F) unit := freerange kend PHYSTOP.

(** ** The free list as a sequence of pages *)

(** A page the allocator manages. *)
Definition page_ok (p : Z) : Prop := p mod PGSIZE = 0 ∧ kend <= p < PHYSTOP.

Fixpoint flist (m : memory) (head : Z) (l : list Z) : Prop :=
  match l with
  | [] => head = 0
  | p :: l' => head = p ∧ flist m (load64 m p) l'
  end.

Record kmem_ok (s : kst F) (l : list Z) : Prop := {
  kmem_flist : flist (mem s) (freelist s) l;
  kmem_nodup : NoDup l;
  kmem_pages : Forall page_ok l
}.

(** The [n] consecutive pages starting at [p]. *)
Definition pages_from (p n : Z) : list Z := (λ i, p + PGSIZE * i) <$> seqZ 0 n.

(** [m] and [m'] hold the same bytes outside page [p]. *)
Definition agree_off (p : Z) (m m' : memory) : Prop := same_off p PGSIZE m m'.

(** [m] and [m'] hold the same bytes in page [p]. *)
Definition agree_on (p : Z) (m m' : memory) : Prop :=
  ∀ a, p <= a < p + PGSIZE → mget m' a = mget m a.

End Kalloc.

(** ** Lemmas *)

Section KallocLemmas.
Context {F : Type} {KI : KImage} {KOK : KImageOk KI}.
Implicit Types s : kst F.

Lemma page_ok_end p : page_ok p → p + PGSIZE <= PHYSTOP.
Proof.
  intros [Hp Hr]. unfold PGSIZE, PHYSTOP, KERNBASE in *. Z.div_mod_to_equations. lia.
Qed.

Lemma page_ok_pos p : page_ok p → 0 < p < 2 ^ 56.
Proof.
  intros [Hp Hr]. pose proof kend_low. unfold PHYSTOP, KERNBASE in *. lia.
Qed.

(** Two different pages do not overlap. *)
Lemma page_disjoint p q a :
  p mod PGSIZE = 0 → q mod PGSIZE = 0 → p ≠ q →
  q <= a < q + PGSIZE → a < p ∨ p + PGSIZE <= a.
Proof. unfold PGSIZE. intros. Z.div_mod_to_equations. lia. Qed.

Lemma agree_off_on p q m m' :
  page_ok p → page_ok q → p ≠ q → agree_off p m m' → agree_on q m m'.
Proof.
  intros [Hp _] [Hq _] Hne Hag a Ha. apply Hag. by apply (page_disjoint p q a).
Qed.

Lemma agree_on_load64 p m m' a :
  agree_on p m m' → p <= a → a + 8 <= p + PGSIZE → load64 m' a = load64 m a.
Proof. intros H ??. apply load64_ext. intros k Hk. apply H. lia. Qed.

Lemma agree_on_refl p m : agree_on p m m.
Proof. by intros a. Qed.

Lemma agree_on_trans p m1 m2 m3 : agree_on p m1 m2 → agree_on p m2 m3 → agree_on p m1 m3.
Proof. intros H1 H2 a Ha. rewrite H2, H1 by done. done. Qed.

Lemma agree_off_slot p a m m' :
  same_off a 8 m m' → p <= a → a + 8 <= p + PGSIZE → agree_off p m m'.
Proof. intros. by eapply same_off_weaken. Qed.

(** The free list only depends on the free pages. *)
Lemma flist_agree m m' head l :
  (∀ p, p ∈ l → agree_on p m m') → flist m head l → flist m' head l.
Proof.
  revert head. induction l as [|p l IH]; intros head Hag; simpl; [done|].
  intros [-> H]. split; [done|].
  rewrite (agree_on_load64 p m m') by (try lia; unfold PGSIZE; try lia; apply Hag; set_solver).
  apply IH; [|done]. intros q Hq. apply Hag. set_solver.
Qed.

Lemma kmem_ok_agree s s' l :
  freelist s' = freelist s → (∀ p, p ∈ l → agree_on p (mem s) (mem s')) →
  kmem_ok s l → kmem_ok s' l.
Proof.
  intros Hf Hag [H1 H2 H3]. split; [|done|done]. rewrite Hf. by eapply flist_agree.
Qed.

(** ** Behaviour of the allocator *)

Lemma kfree_ok p s l (Q : unit → kst F → Prop) :
  kmem_ok s l → page_ok p → p ∉ l →
  (∀ s', same_but_mem s s' → kmem_ok s' (p :: l) → agree_off p (mem s) (mem s') → Q tt s') →
  wp (kfree p) s Q.
Proof.
  intros Hl Hp Hnin HQ. pose proof (page_ok_end p Hp) as Hend.
  pose proof (page_ok_pos p Hp) as Hpos. pose proof Hp as [Hal Hr].
  unfold kfree. rewrite (proj2 (Z.eqb_eq _ _) Hal), (proj2 (Z.ltb_ge _ _)) by lia.
  rewrite (proj2 (Z.leb_gt _ _)) by lia. simpl.
  assert (Hfl : 0 <= freelist s < 2 ^ 64).
  { destruct Hl as [H1 _ H3]. destruct l as [|q l]; simpl in H1; [lia|].
    destruct H1 as [-> _]. apply list.Forall_cons in H3 as [H3 _].
    pose proof (page_ok_pos q H3). lia. }
  apply wp_bind, wp_memsetM; [lia|lia|]. intros m1 _ Hoff1. apply wp_bind, wp_gets. simpl.
  apply wp_bind, wp_storeM; [lia|unfold PGSIZE in *; lia|done|]. intros m2 Hld Hoff2.
  apply wp_modify. simpl in *.
  assert (Hoff : agree_off p (mem s) m2).
  { eapply same_off_trans; [exact Hoff1|]. eapply same_off_weaken; [exact Hoff2|lia|].
    unfold PGSIZE; lia. }
  apply HQ; [apply (same_but_mem_set s m2)| |exact Hoff].
  destruct Hl as [H1 H2 H3]. split; simpl; [|by constructor..].
  split; [done|]. rewrite Hld. eapply flist_agree; [|exact H1].
  intros q Hq. rewrite list.Forall_forall in H3.
  apply (agree_off_on p q); [done|by apply H3|congruence|done].
Qed.

(** The free list is never exhausted by a non-null head, so [kalloc] returns the
    first page of the list, filled with 5s, or the null pointer. *)
Lemma kalloc_ok s l (Q : Z → kst F → Prop) :
  kmem_ok s l →
  (l = [] → Q 0 s) →
  (∀ p l' s', l = p :: l' → page_ok p → same_but_mem s s' → kmem_ok s' l' →
     agree_off p (mem s) (mem s') → (∀ a, p <= a < p + PGSIZE → mget (mem s') a = 5) →
     Q p s') →
  wp kalloc s Q.
Proof.
  intros Hl Hnil Hcons. unfold kalloc. apply wp_bind, wp_gets.
  destruct Hl as [H1 H2 H3]. destruct l as [|p l].
  - simpl in H1. rewrite H1. simpl. by apply Hnil.
  - destruct H1 as [-> H1]. apply list.Forall_cons in H3 as [Hp H3].
    pose proof (page_ok_pos p Hp) as Hpos. pose proof (page_ok_end p Hp) as Hend.
    assert (Ht : truth p = true) by (unfold truth; apply negb_true_iff, Z.eqb_neq; lia).
    rewrite Ht. apply wp_bind, wp_bind, wp_loadM;
      [destruct Hp; lia|unfold PGSIZE in *; lia|].
    apply wp_modify. apply wp_bind, wp_memsetM; [destruct Hp; lia|lia|]. intros m1 H5 Hoff1.
    apply wp_ret. simpl in *. apply list.NoDup_cons in H2 as [Hnin H2].
    apply (Hcons p l); [done|done|apply (same_but_mem_set' s)| |exact Hoff1|exact H5].
    split; simpl; [|done|done]. eapply flist_agree; [|exact H1].
    intros q Hq. rewrite list.Forall_forall in H3.
    apply (agree_off_on p q); [done|by apply H3|congruence|done].
Qed.

(** ** freerange *)

Lemma pages_from_snoc p n : 0 <= n → pages_from p (n + 1) = pages_from p n ++ [p + PGSIZE * n].
Proof.
  intros. unfold pages_from. rewrite (seqZ_app 0 n 1) by lia. rewrite fmap_app. done.
Qed.

Lemma elem_of_pages_from p n q :
  q ∈ pages_from p n ↔ ∃ i, q = p + PGSIZE * i ∧ 0 <= i < n.
Proof.
  unfold pages_from. rewrite list_elem_of_fmap. setoid_rewrite elem_of_seqZ.
  split; intros (i & ? & ?); exists i; (split; [done|lia]).
Qed.

Lemma freerange_body_step p0 pa_end s j :
  p0 mod PGSIZE = 0 → kend <= p0 → pa_end <= PHYSTOP → 0 <= j →
  kmem_ok s (reverse (pages_from p0 j)) →
  wp (freerange_body pa_end (p0 + PGSIZE * j)) s (λ r s',
    match r with
    | inl p => p = p0 + PGSIZE * (j + 1) ∧ p <= pa_end ∧ same_but_mem s s' ∧
               kmem_ok s' (reverse (pages_from p0 (j + 1)))
    | inr _ => pa_end < p0 + PGSIZE * (j + 1) ∧ s' = s
    end).
Proof.
  intros Hal Hk He Hj Hok. unfold freerange_body.
  destruct (Z.leb_spec (p0 + PGSIZE * j + PGSIZE) pa_end) as [Hle|Hgt].
  - apply wp_bind. eapply kfree_ok; [exact Hok| | |].
    + unfold page_ok, PGSIZE in *. rewrite Z.mul_comm, Z_mod_plus_full. lia.
    + rewrite elem_of_reverse, elem_of_pages_from. unfold PGSIZE. intros (i & ? & ?). lia.
    + intros s' Hs Hok' _. apply wp_ret. rewrite pages_from_snoc by done.
      rewrite reverse_app. split; [lia|]. split; [lia|]. done.
  - apply wp_ret. split; [lia|done].
Qed.

Lemma freerange_ok s pa_start pa_end :
  kmem_ok s [] → kend <= PGROUNDUP pa_start → PGROUNDUP pa_start mod PGSIZE = 0 →
  PGROUNDUP pa_start <= pa_end <= PHYSTOP →
  wp (freerange pa_start pa_end) s (λ _ s',
    same_but_mem s s' ∧
    kmem_ok s' (reverse (pages_from (PGROUNDUP pa_start)
                           ((pa_end - PGROUNDUP pa_start) / PGSIZE)))).
Proof.
  intros Hok Hk Hal He. unfold freerange. set (p0 := PGROUNDUP pa_start) in *.
  set (N := (pa_end - p0) / PGSIZE).
  eapply wp_loop with (n := Z.to_nat N) (I := λ n p s', ∃ j, 0 <= j ∧ p = p0 + PGSIZE * j ∧
    p <= pa_end ∧ Z.of_nat n = N - j ∧ same_but_mem s s' ∧ kmem_ok s' (reverse (pages_from p0 j))).
  - intros n p s' (j & Hj & -> & Hle & Hn & Hsm & Hok').
    eapply wp_mono; [apply freerange_body_step; done || lia|].
    intros [p'|[]] s''; simpl.
    + intros (-> & Hle' & Hsm' & Hok''). exists (n - 1)%nat.
      assert (j + 1 <= N) by (unfold N, PGSIZE in *; Z.div_mod_to_equations; lia).
      split; [lia|]. exists (j + 1). split_and!; try done; try lia.
      by eapply same_but_mem_trans.
    + intros [Hlt ->]. split; [done|].
      replace N with j; [done|]. unfold N, PGSIZE in *. Z.div_mod_to_equations; lia.
  - exists 0. unfold N, PGSIZE. split_and!; try lia; try done.
    + rewrite Z2Nat.id; [lia|]. Z.div_mod_to_equations; lia.
    + apply same_but_mem_refl.
  - lia.
Qed.

(** C28. After [kinit] the free list holds every whole page from the end of the
    kernel to [PHYSTOP], each once. *)
Theorem kinit_all_pages s :
  freelist s = 0 →
  wp kinit s (λ _ s', ∃ l, kmem_ok s' l ∧ same_but_mem s s' ∧ ∀ p, p ∈ l ↔ page_ok p).
Proof.
  intros Hf. pose proof kend_low as Hlow. pose proof kend_high as Hhigh.
  assert (Hk : 0 <= kend ∧ kend + PGSIZE <= 2 ^ 64)
    by (unfold KERNBASE, PHYSTOP, KERNBASE, PGSIZE in *; lia).
  destruct (PGROUNDUP_bounds kend (proj1 Hk) (proj2 Hk)) as [Hb Hal].
  assert (Hend : PGROUNDUP kend <= PHYSTOP).
  { unfold PGSIZE, PHYSTOP, KERNBASE in *. Z.div_mod_to_equations. lia. }
  unfold kinit. eapply wp_mono.
  { apply freerange_ok; [|lia|done|lia]. split; [done|constructor|constructor]. }
  intros _ s' [Hsm Hok]. eexists. split; [exact Hok|]. split; [done|].
  intros p. rewrite elem_of_reverse, elem_of_pages_from. unfold page_ok. split.
  - intros (i & -> & Hi). unfold PGSIZE, PHYSTOP, KERNBASE in *. Z.div_mod_to_equations. lia.
  - intros [Hp Hr]. exists ((p - PGROUNDUP kend) / PGSIZE).
    unfold PGSIZE, PHYSTOP, KERNBASE in *. Z.div_mod_to_equations. lia.
Qed.

(** ** The allocator as a stack of pages *)

Inductive alloc_op := OpAlloc | OpFree (p : Z).

Definition run_op (o : alloc_op) : M (kst F) Z :=
  match o with
  | OpAlloc => kalloc
  | OpFree p => kfree p;; mret 0
  end.

Fixpoint run_ops (ops : list alloc_op) : M (kst F) (list Z) :=
  match ops with
  | [] => mret []
  | o :: ops' => r ← run_op o; rs ← run_ops ops'; mret (r :: rs)
  end.

(** Abstract state: the free pages, the pages handed out.  A client may only
    free a page it holds. *)
Definition spec_op (o : alloc_op) (st : list Z * list Z) : option (Z * (list Z * list Z)) :=
  let '(l, held) := st in
  match o with
  | OpAlloc =>
      match l with
      | [] => Some (0, (l, held))
      | p :: l' => Some (p, (l', p :: held))
      end
  | OpFree p =>
      if decide (p ∈ held) then Some (0, (p :: l, filter (λ q, q ≠ p) held)) else None
  end.

Fixpoint spec_ops (ops : list alloc_op) (st : list Z * list Z) : option (list Z * (list Z * list Z)) :=
  match ops with
  | [] => Some ([], st)
  | o :: ops' =>
      match spec_op o st with
      | None => None
      | Some (r, st') =>
          match spec_ops ops' st' with
          | None => None
          | Some (rs, st'') => Some (r :: rs, st'')
          end
      end
  end.

(** Pages are either free or held, and never both. *)
Record alloc_ok s (l held : list Z) : Prop := {
  al_mem : kmem_ok s l;
  al_held : Forall page_ok held;
  al_apart : ∀ p, p ∈ held → p ∉ l
}.

Lemma run_op_ok s l held o r l' held' (Q : Z → kst F → Prop) :
  alloc_ok s l held → spec_op o (l, held) = Some (r, (l', held')) →
  (∀ s', alloc_ok s' l' held' →
     (∀ p, p ∈ held → o ≠ OpFree p → p ∈ held' ∧ agree_on p (mem s) (mem s')) → Q r s') →
  wp (run_op o) s Q.
Proof.
  intros [Hm Hh Hap] Hspec HQ. rewrite list.Forall_forall in Hh. destruct o as [|p]; simpl in *.
  - eapply kalloc_ok; [exact Hm| |].
    + intros ->. injection Hspec as <- <- <-. apply HQ; [by split; [|apply list.Forall_forall|]|].
      intros p Hp _. split; [done|apply agree_on_refl].
    + intros p l2 s' -> Hpok Hsm Hm' Hoff _. injection Hspec as <- <- <-.
      pose proof (kmem_nodup _ _ Hm) as [Hnin _]%list.NoDup_cons.
      apply HQ.
      * split; [done|constructor; [done|by apply list.Forall_forall]|].
        intros q [->|Hq]%elem_of_cons; [done|]. intros Hq2. apply (Hap q Hq), elem_of_cons. by right.
      * intros q Hq _. split; [by apply elem_of_cons; right|].
        apply (agree_off_on p q); [done|by apply Hh| |done].
        intros ->. apply (Hap q Hq), elem_of_cons. by left.
  - case_decide as Hp; [|done]. injection Hspec as <- <- <-. apply wp_bind.
    eapply kfree_ok; [exact Hm|by apply Hh|by apply Hap|]. intros s' Hsm Hm' Hoff. apply wp_ret. apply HQ.
    + split; [done| |].
      * apply list.Forall_forall. intros q [_ Hq]%list_elem_of_filter. by apply Hh.
      * intros q [Hne Hq]%list_elem_of_filter [->|Hq2]%elem_of_cons; [done|]. by apply (Hap q).
    + intros q Hq Hne. assert (q ≠ p) by congruence. split; [by apply list_elem_of_filter|].
      apply (agree_off_on p q); [by apply Hh|by apply Hh|done|done].
Qed.

(** C27. Any sequence of [kalloc] and [kfree] calls of clients that only free
    pages they hold behaves as the abstract stack of pages: the same results, 0
    exactly when no page is free, no page handed out twice, and no write to a
    page while a client holds it. *)
Theorem alloc_refines_stack ops s l held rs l' held' :
  alloc_ok s l held → spec_ops ops (l, held) = Some (rs, (l', held')) →
  wp (run_ops ops) s (λ rs' s', rs' = rs ∧ alloc_ok s' l' held' ∧
    ∀ p, p ∈ held → OpFree p ∉ ops → p ∈ held' ∧ agree_on p (mem s) (mem s')).
Proof.
  revert s l held rs. induction ops as [|o ops IH]; intros s l held rs Hok Hspec; cbn [spec_ops] in Hspec.
  { injection Hspec as <- <- <-. apply wp_ret. split_and!; [done..|].
    intros p Hp _. split; [done|apply agree_on_refl]. }
  destruct (spec_op o (l, held)) as [[r [l1 held1]]|] eqn:E1; [|done].
  destruct (spec_ops ops (l1, held1)) as [[rs2 [l2 held2]]|] eqn:E2; [|done].
  injection Hspec as <- -> ->. simpl. apply wp_bind. eapply run_op_ok; [done|done|].
  intros s1 Hok1 Hkeep1. apply wp_bind. eapply wp_mono; [by eapply IH|].
  intros rs' s2 (-> & Hok2 & Hkeep2). apply wp_ret. split_and!; [done..|].
  intros p Hp Hnin. rewrite elem_of_cons in Hnin.
  destruct (Hkeep1 p Hp) as [Hp1 Ha1]; [intros ->; apply Hnin; by left|].
  destruct (Hkeep2 p Hp1) as [Hp2 Ha2]; [intros H; apply Hnin; by right|].
  split; [done|]. by eapply agree_on_trans.
Qed.

(** [kfree] of an address that is not a page of the allocator panics. *)
Lemma kfree_rejects p s : ¬ page_ok p → kfree p s = Panic "kfree".
Proof.
  intros Hbad. unfold kfree.
  destruct (Z.eqb_spec (p mod PGSIZE) 0), (Z.ltb_spec p kend), (Z.leb_spec PHYSTOP p);
    simpl; try done. destruct Hbad. split; [done|lia].
Qed.

End KallocLemmas.
