(* ===== verification/PageTable.v ===== *)
(** Sv39 page tables, first half of kernel/vm.c: [walk], [walkaddr],
    [mappages], [mappage], [kvmmap], [uvmcreate], [uvmclear].

    Page tables live in physical memory, as in the kernel.  The invariant
    [vm_wf] uses a ghost map [G] that gives every allocator page its role: free,
    page-table page (of which root, at which level, for which prefix of the
    virtual address), data page of a user address space, or other.  Because a
    page has one role, a page-table page hangs below exactly one slot, and
    [pte_of m root] is a well-defined map from virtual pages to entries. *)

From S2P Require Import Prelude Riscv Memory State Kalloc.

(** ** The code *)

Section Code.
Context {F : Type} {KI : KImage}.

(** One iteration of the loop of [walk]; [None] is its [return 0]. *)
Definition walk_level (pagetable va : Z) (alloc : bool) (level : Z) : M (kst F) (option Z) :=
  let pte := pagetable + 8 * PX level va in
  v ← loadM pte;
  if truth (Z.land v PTE_V) then mret (Some (PTE2PA v))
  else if negb alloc then mret None
  else
    pg ← kalloc;
    if pg =? 0 then mret None
    else
      memsetM pg 0 PGSIZE;;
      storeM pte (Z.lor (PA2PTE pg) PTE_V);;
      mret (Some pg).

(** [for(int level = 2; level > 0; level--)], then [&pagetable[PX(0, va)]]. *)
Fixpoint walk_loop (levels : list Z) (pagetable va : Z) (alloc : bool) : M (kst F) Z :=
  match levels with
  | [] => mret (pagetable + 8 * PX 0 va)
  | level :: levels' =>
      r ← walk_level pagetable va alloc level;
      match r with
      | None => mret 0
      | Some pagetable' => walk_loop levels' pagetable' va alloc
      end
  end.

Definition walk (pagetable va : Z) (alloc : bool) : M (kst F) Z :=
  if MAXVA <=? va then panic "walk" else walk_loop [2; 1] pagetable va alloc.

Definition walkaddr (pagetable va : Z) : M (kst F) Z :=
  if MAXVA <=? va then mret 0
  else
    pte ← walk pagetable va false;
    if pte =? 0 then mret 0
    else
      v ← loadM pte;
      if negb (truth (Z.land v PTE_V)) then mret 0
      else if negb (truth (Z.land v PTE_U)) then mret 0
      else mret (PTE2PA v).

(** Enough iterations for a loop over the pages from [a] to [last]: the
    distance in pages, and never more than it takes to pass [MAXVA], where
    [walk] panics. *)
Definition map_fuel (a last : Z) : nat :=
  S (S (Z.to_nat (Z.min (w64 (last - a)) MAXVA / PGSIZE))).

Definition mappages_NONE_body (pagetable va last perm : Z) (st : Z * Z) : M (kst F) (Z * Z + Z) :=
  let '(a, pa) := st in
  pte ← walk pagetable a true;
  if pte =? 0 then mret (inr (-1))
  else
    v ← loadM pte;
    (if truth (Z.land v PTE_V)
     then (w ← walkaddr pagetable va; if negb (w =? 0) then panic "remap" else mret tt)
     else mret tt);;
    storeM pte (Z.lor (Z.lor (PA2PTE pa) perm) PTE_V);;
    if a =? last then mret (inr 0) else mret (inl (w64 (a + PGSIZE), w64 (pa + PGSIZE))).

Definition mappages_NONE (pagetable va size pa perm : Z) : M (kst F) Z :=
  let a := PGROUNDDOWN va in
  let last := PGROUNDDOWN (w64 (va + size - 1)) in
  loop (map_fuel a last) (mappages_NONE_body pagetable va last perm) (a, pa).

Definition mappages_not_NONE_body (pagetable last perm : Z) (st : Z * Z) : M (kst F) (Z * Z + Z) :=
  let '(a, pa) := st in
  pte ← walk pagetable a true;
  if pte =? 0 then mret (inr (-1))
  else
    v ← loadM pte;
    if truth (Z.land v PTE_V) then panic "remap"
    else
      storeM pte (Z.lor (Z.lor (PA2PTE pa) perm) PTE_V);;
      if a =? last then mret (inr 0) else mret (inl (w64 (a + PGSIZE), w64 (pa + PGSIZE))).

Definition mappages_not_NONE (pagetable va size pa perm : Z) : M (kst F) Z :=
  let a := PGROUNDDOWN va in
  let last := PGROUNDDOWN (w64 (va + size - 1)) in
  loop (map_fuel a last) (mappages_not_NONE_body pagetable last perm) (a, pa).

Definition mappages (sel : selection) (pagetable va size pa perm : Z) : M (kst F) Z :=
  match sel with
  | NONE => mappages_NONE pagetable va size pa perm
  | _ => mappages_not_NONE pagetable va size pa perm
  end.

Definition kvmmap (sel : selection) (kpgtbl va pa sz perm : Z) : M (kst F) unit :=
  r ← mappages sel kpgtbl va sz pa perm;
  if negb (r =? 0) then panic "kvmmap" else mret tt.

Definition mappage (pagetable va pa perm : Z) : M (kst F) Z :=
  let a := PGROUNDDOWN va in
  pte ← walk pagetable a true;
  if pte =? 0 then mret (-1)
  else
    v ← loadM pte;
    if truth (Z.land v PTE_V) then panic "remap"
    else storeM pte (Z.lor (Z.lor (PA2PTE pa) perm) PTE_V);; mret 0.

Definition uvmcreate : M (kst F) Z :=
  pagetable ← kalloc;
  if pagetable =? 0 then mret 0
  else memsetM pagetable 0 PGSIZE;; mret pagetable.

Definition uvmclear (pagetable va : Z) : M (kst F) unit :=
  pte ← walk pagetable va false;
  if pte =? 0 then panic "uvmclear"
  else v ← loadM pte; storeM pte (Z.land v (Z.lnot PTE_U)).

End Code.

(** ** Page tables as maps *)

Definition next_table (m : memory) (t level va : Z) : option Z :=
  let v := load64 m (t + 8 * PX level va) in
  if Z.testbit v 0 then Some (PTE2PA v) else None.

(** The level-0 table of [va], and the address of its entry there. *)
Definition walk_table (m : memory) (root va : Z) : option Z :=
  next_table m root 2 va ≫= λ t, next_table m t 1 va.

Definition walk_slot (m : memory) (root va : Z) : option Z :=
  (λ t, t + 8 * PX 0 va) <$> walk_table m root va.

(** The entry of [va]; 0 where there is no level-0 table. *)
Definition pte_of (m : memory) (root va : Z) : Z :=
  match walk_slot m root va with Some a => load64 m a | None => 0 end.

Inductive usage :=
| UFree
| UPt (root level pre : Z)
| UData (root va : Z)
| UOther.

#[global] Instance usage_eq_dec : EqDecision usage.
Proof. solve_decision. Defined.

Section Invariant.
Context {F : Type} {KI : KImage}.

Record vm_wf (s : kst F) (G : gmap Z usage) (l : list Z) : Prop := {
  wf_page : ∀ p u, G !! p = Some u → page_ok p;
  wf_kmem : kmem_ok s l;
  wf_free : ∀ p, p ∈ l ↔ G !! p = Some UFree;
  wf_level : ∀ p root lv pre, G !! p = Some (UPt root lv pre) → 0 <= lv <= 2;
  wf_child : ∀ p root lv pre i,
    G !! p = Some (UPt root lv pre) → 0 < lv → 0 <= i < 512 →
    Z.testbit (load64 (mem s) (p + 8 * i)) 0 = true →
    G !! PTE2PA (load64 (mem s) (p + 8 * i)) = Some (UPt root (lv - 1) (pre * 512 + i))
}.

(** [root] is the root of a page table. *)
Definition is_root (G : gmap Z usage) (root : Z) : Prop := G !! root = Some (UPt root 2 0).

(** Pages that hold neither page tables nor the free list. *)
Definition is_data (u : usage) : Prop :=
  match u with UFree | UPt _ _ _ => False | _ => True end.

(** [s'] extends the page tables of [s]: some free pages became page-table
    pages, all entries and all data pages are as before. *)
Record pt_grow (root : Z) (s : kst F) (G : gmap Z usage) (l : list Z)
    (s' : kst F) (G' : gmap Z usage) (l' : list Z) : Prop := {
  grow_wf : vm_wf s' G' l';
  grow_same : same_but_mem s s';
  grow_old : ∀ p u, G !! p = Some u → u ≠ UFree → G' !! p = Some u;
  grow_new : ∀ p u, G' !! p = Some u →
    G !! p = Some u ∨ (G !! p = Some UFree ∧ ∃ lv pre, u = UPt root lv pre ∧ lv < 2);
  grow_view : ∀ r va, is_root G r → 0 <= va < MAXVA →
    pte_of (mem s') r va = pte_of (mem s) r va;
  grow_data : ∀ p u, G !! p = Some u → is_data u → agree_on p (mem s) (mem s');
  grow_free : l' `suffix_of` l
}.

(** Like [pt_grow], but the entries of [root] at the page numbers where [upd] is
    defined have been written. *)
Record pt_upd (root : Z) (upd : Z → option Z) (s : kst F) (G : gmap Z usage) (l : list Z)
    (s' : kst F) (G' : gmap Z usage) (l' : list Z) : Prop := {
  upd_wf : vm_wf s' G' l';
  upd_same : same_but_mem s s';
  upd_old : ∀ p u, G !! p = Some u → u ≠ UFree → G' !! p = Some u;
  upd_new : ∀ p u, G' !! p = Some u →
    G !! p = Some u ∨ (G !! p = Some UFree ∧ ∃ lv pre, u = UPt root lv pre ∧ lv < 2);
  upd_view : ∀ r va, is_root G r → 0 <= va < MAXVA →
    pte_of (mem s') r va =
    if decide (r = root) then default (pte_of (mem s) r va) (upd (va / PGSIZE))
    else pte_of (mem s) r va;
  upd_data : ∀ p u, G !! p = Some u → is_data u → agree_on p (mem s) (mem s');
  upd_free : l' `suffix_of` l
}.

(** The entry [mappages] writes. *)
Definition mk_pte (pa perm : Z) : Z := Z.lor (Z.lor (PA2PTE pa) perm) PTE_V.

(** The entries [mappages] writes for [n] pages from page number [v0] on. *)
Definition map_entries (v0 n pa perm : Z) (v : Z) : option Z :=
  if decide (v0 <= v < v0 + n) then Some (mk_pte (pa + (v - v0) * PGSIZE) perm) else None.

End Invariant.

(** ** Arithmetic of the indices *)

Lemma MAXVA_eq : MAXVA = 2 ^ 38.
Proof. reflexivity. Qed.

Lemma px_pre va : 0 <= va < MAXVA → (0 * 512 + PX 2 va) * 512 + PX 1 va = va / 2 ^ 21.
Proof.
  rewrite MAXVA_eq. intros. rewrite !PX_eq by lia.
  change (12 + 9 * 2) with 30. change (12 + 9 * 1) with 21.
  replace (va / 2 ^ 30) with (va / 2 ^ 21 / 512) by (rewrite Z.div_div by lia; done).
  rewrite (Z.mod_small (_ / 512) 512); Z.div_mod_to_equations; lia.
Qed.

Lemma px_vpn va : 0 <= va → va / 2 ^ 21 * 512 + PX 0 va = va / PGSIZE.
Proof.
  intros. rewrite PX_eq by lia. change (12 + 9 * 0) with 12.
  unfold PGSIZE. change (2 ^ 12) with 4096.
  replace (va / 2 ^ 21) with (va / 4096 / 512) by (rewrite Z.div_div by lia; done).
  Z.div_mod_to_equations; lia.
Qed.

Lemma slot_inj p q i j :
  p mod PGSIZE = 0 → q mod PGSIZE = 0 → 0 <= i < 512 → 0 <= j < 512 →
  p + 8 * i = q + 8 * j → p = q ∧ i = j.
Proof. unfold PGSIZE. intros. Z.div_mod_to_equations. lia. Qed.

(** Distinct slots do not overlap. *)
Lemma slot_disjoint p q i j :
  p mod PGSIZE = 0 → q mod PGSIZE = 0 → 0 <= i < 512 → 0 <= j < 512 →
  (p, i) ≠ (q, j) → p + 8 * i + 8 <= q + 8 * j ∨ q + 8 * j + 8 <= p + 8 * i.
Proof.
  unfold PGSIZE. intros Hp Hq Hi Hj Hne.
  assert (p ≠ q ∨ i ≠ j) by (destruct (decide (p = q)), (decide (i = j)); naive_solver).
  Z.div_mod_to_equations. lia.
Qed.

Section Walk.
Context {F : Type} {KI : KImage} {KOK : KImageOk KI}.
Implicit Types s : kst F.
Implicit Types G : gmap Z usage.

Lemma next_table_wf s G l t root lv pre va t' :
  vm_wf s G l → G !! t = Some (UPt root lv pre) → 0 < lv →
  next_table (mem s) t lv va = Some t' →
  G !! t' = Some (UPt root (lv - 1) (pre * 512 + PX lv va)).
Proof.
  intros Hwf Ht Hlv. unfold next_table. destruct (Z.testbit _ 0) eqn:E; [|done].
  intros [= <-]. eapply wf_child; eauto. apply PX_range. lia.
Qed.

Lemma walk_table_wf s G l root va t :
  vm_wf s G l → is_root G root → 0 <= va < MAXVA →
  walk_table (mem s) root va = Some t → G !! t = Some (UPt root 0 (va / 2 ^ 21)).
Proof.
  intros Hwf Hroot Hva. unfold walk_table. destruct (next_table _ _ 2 va) as [t1|] eqn:E1; [|done].
  simpl. intros E2. eapply next_table_wf in E1; [|done|exact Hroot|lia].
  eapply next_table_wf in E2; [|done|exact E1|lia].
  rewrite E2. rewrite px_pre by done. done.
Qed.

Lemma walk_slot_wf s G l root va a :
  vm_wf s G l → is_root G root → 0 <= va < MAXVA → walk_slot (mem s) root va = Some a →
  ∃ t, walk_table (mem s) root va = Some t ∧ a = t + 8 * PX 0 va ∧
       G !! t = Some (UPt root 0 (va / 2 ^ 21)) ∧ page_ok t.
Proof.
  intros Hwf Hroot Hva. unfold walk_slot. destruct (walk_table _ _ va) as [t|] eqn:E; [|done].
  intros [= <-]. eapply walk_table_wf in E as Ht; [|done..].
  exists t. split_and!; try done. eapply wf_page; eauto.
Qed.

Lemma slot_range t i : page_ok t → 0 <= i < 512 → kend <= t + 8 * i ∧ t + 8 * i + 8 <= PHYSTOP.
Proof.
  intros Ht Hi. pose proof (page_ok_end t Ht). destruct Ht. unfold PGSIZE in *. lia.
Qed.

Lemma walk_slot_range s G l root va a :
  vm_wf s G l → is_root G root → 0 <= va < MAXVA → walk_slot (mem s) root va = Some a →
  kend <= a ∧ a + 8 <= PHYSTOP ∧ a ≠ 0.
Proof.
  intros Hwf Hr Hva Ha. eapply walk_slot_wf in Ha as (t & _ & -> & _ & Ht); [|done..].
  pose proof (slot_range t (PX 0 va) Ht (PX_range 0 va ltac:(lia))).
  pose proof kend_low. unfold KERNBASE in *. lia.
Qed.

(** Different virtual pages, or different page tables, have different slots. *)
Lemma walk_slot_inj s G l r1 r2 va1 va2 a :
  vm_wf s G l → is_root G r1 → is_root G r2 → 0 <= va1 < MAXVA → 0 <= va2 < MAXVA →
  walk_slot (mem s) r1 va1 = Some a → walk_slot (mem s) r2 va2 = Some a →
  r1 = r2 ∧ va1 / PGSIZE = va2 / PGSIZE.
Proof.
  intros Hwf Hr1 Hr2 Hv1 Hv2 H1 H2.
  eapply walk_slot_wf in H1 as (t1 & _ & -> & G1 & [A1 _]); [|done..].
  eapply walk_slot_wf in H2 as (t2 & _ & Heq & G2 & [A2 _]); [|done..].
  apply slot_inj in Heq as [-> Hpx]; try done; try (apply PX_range; lia).
  rewrite G1 in G2. injection G2 as -> Hpre. split; [done|].
  rewrite <- !px_vpn by lia. lia.
Qed.

(** ** Frames *)

(** The page-table pages of [G] hold the same bytes in [m] and [m']. *)
Definition pt_agree G (m m' : memory) : Prop :=
  ∀ p root lv pre, G !! p = Some (UPt root lv pre) → agree_on p m m'.

Lemma agree_slot G m m' p root lv pre i :
  pt_agree G m m' → G !! p = Some (UPt root lv pre) → 0 <= i < 512 →
  load64 m' (p + 8 * i) = load64 m (p + 8 * i).
Proof.
  intros Hag Hp Hi. eapply agree_on_load64; [by eapply Hag|lia|unfold PGSIZE; lia].
Qed.

Lemma next_table_agree G m m' p root lv pre va :
  pt_agree G m m' → G !! p = Some (UPt root lv pre) → 0 <= lv →
  next_table m' p lv va = next_table m p lv va.
Proof.
  intros Hag Hp Hlv. unfold next_table. erewrite agree_slot; eauto. by apply PX_range.
Qed.

Lemma walk_table_agree s G l m' root va :
  vm_wf s G l → is_root G root → pt_agree G (mem s) m' →
  walk_table m' root va = walk_table (mem s) root va.
Proof.
  intros Hwf Hroot Hag. unfold walk_table.
  rewrite (next_table_agree G (mem s) m' root root 2 0) by (done || lia).
  destruct (next_table (mem s) root 2 va) as [t|] eqn:E; [|done]. simpl.
  eapply next_table_wf in E; [|done|exact Hroot|lia].
  eapply next_table_agree; [done|exact E|lia].
Qed.

Lemma walk_slot_agree s G l m' root va :
  vm_wf s G l → is_root G root → pt_agree G (mem s) m' →
  walk_slot m' root va = walk_slot (mem s) root va.
Proof. intros. unfold walk_slot. by erewrite walk_table_agree. Qed.

Lemma pte_of_agree s G l m' root va :
  vm_wf s G l → is_root G root → 0 <= va < MAXVA → pt_agree G (mem s) m' →
  pte_of m' root va = pte_of (mem s) root va.
Proof.
  intros Hwf Hroot Hva Hag. unfold pte_of. erewrite walk_slot_agree by done.
  destruct (walk_slot (mem s) root va) as [a|] eqn:E; [|done].
  eapply walk_slot_wf in E as (t & _ & -> & Ht & _); [|done..].
  eapply agree_slot; [done|exact Ht|apply PX_range; lia].
Qed.

(** [vm_wf] only depends on page-table pages, free pages and the list head. *)
Lemma vm_wf_agree s s' G l :
  vm_wf s G l → freelist s' = freelist s → pt_agree G (mem s) (mem s') →
  (∀ p, G !! p = Some UFree → agree_on p (mem s) (mem s')) →
  vm_wf s' G l.
Proof.
  intros Hwf Hfl Hpt Hfr. split.
  - apply Hwf.
  - eapply kmem_ok_agree; [done| |by eapply wf_kmem].
    intros p Hp. apply Hfr. by eapply wf_free.
  - apply Hwf.
  - apply Hwf.
  - intros p root lv pre i Hp Hlv Hi. erewrite agree_slot; [|done|exact Hp|done].
    by eapply wf_child.
Qed.

(** A state that differs in one data page only. *)
Lemma vm_wf_data s s' G l q u :
  vm_wf s G l → freelist s' = freelist s → G !! q = Some u → is_data u →
  agree_off q (mem s) (mem s') →
  vm_wf s' G l ∧ pt_agree G (mem s) (mem s') ∧
  (∀ p v, G !! p = Some v → p ≠ q → agree_on p (mem s) (mem s')).
Proof.
  intros Hwf Hfl Hq Hu Hoff.
  assert (Hall : ∀ p v, G !! p = Some v → p ≠ q → agree_on p (mem s) (mem s')).
  { intros p v Hp Hne. apply (agree_off_on q p); [by eapply wf_page|by eapply wf_page|congruence|done]. }
  assert (Hpt : pt_agree G (mem s) (mem s')).
  { intros p root lv pre Hp. apply (Hall p _ Hp). intros ->. rewrite Hp in Hq.
    injection Hq as <-. done. }
  split_and!; [|done|done]. eapply vm_wf_agree; [done|done|done|].
  intros p Hp. apply (Hall p _ Hp). intros ->. rewrite Hp in Hq. by injection Hq as <-.
Qed.

(** ** walk without allocation *)

Lemma walk_level_noalloc s G l t root lv pre va (Q : option Z → kst F → Prop) :
  vm_wf s G l → G !! t = Some (UPt root lv pre) → 0 <= lv →
  Q (next_table (mem s) t lv va) s → wp (walk_level t va false lv) s Q.
Proof.
  intros Hwf Ht Hlv HQ. unfold walk_level.
  pose proof (slot_range t (PX lv va) (wf_page _ _ _ Hwf _ _ Ht) (PX_range lv va Hlv)) as [??].
  apply wp_bind, wp_loadM; [done..|]. rewrite truth_V.
  unfold next_table in HQ. destruct (Z.testbit _ 0); simpl; by apply wp_ret.
Qed.

Lemma walk_noalloc_ok s G l root va (Q : Z → kst F → Prop) :
  vm_wf s G l → is_root G root → 0 <= va < MAXVA →
  Q (default 0 (walk_slot (mem s) root va)) s → wp (walk root va false) s Q.
Proof.
  intros Hwf Hroot Hva HQ. unfold walk. rewrite (proj2 (Z.leb_gt _ _)) by lia.
  cbn [walk_loop]. apply wp_bind. eapply walk_level_noalloc; [done|exact Hroot|lia|].
  unfold walk_slot, walk_table in HQ.
  destruct (next_table (mem s) root 2 va) as [t1|] eqn:E1; [|by apply wp_ret].
  eapply next_table_wf in E1; [|done|exact Hroot|lia].
  apply wp_bind. eapply walk_level_noalloc; [done|exact E1|lia|].
  simpl in HQ. destruct (next_table (mem s) t1 1 va); by apply wp_ret.
Qed.

(** ** Linking a fresh table *)

Section Link.
Variables (s : kst F) (G : gmap Z usage) (l : list Z) (t t' root lv pre i : Z) (m' : memory).
Hypothesis Hwf : vm_wf s G l.
Hypothesis Ht : G !! t = Some (UPt root lv pre).
Hypothesis Hlv : 0 < lv.
Hypothesis Hi : 0 <= i < 512.
Hypothesis Hinv : Z.testbit (load64 (mem s) (t + 8 * i)) 0 = false.
Hypothesis Hlink : load64 m' (t + 8 * i) = Z.lor (PA2PTE t') PTE_V.
Hypothesis Hother : ∀ p r lv' pre' j, G !! p = Some (UPt r lv' pre') → 0 <= j < 512 →
  (p, j) ≠ (t, i) → load64 m' (p + 8 * j) = load64 (mem s) (p + 8 * j).
Hypothesis Hzero : ∀ j, 0 <= j < 512 → load64 m' (t' + 8 * j) = 0.
Hypothesis Ht' : page_ok t'.

Lemma link_next : Z.testbit (load64 m' (t + 8 * i)) 0 = true ∧ PTE2PA (load64 m' (t + 8 * i)) = t'.
Proof.
  pose proof (page_ok_pos t' Ht') as Hpos. rewrite Hlink. split.
  - rewrite testbit_make; [done|lia|apply PTE_V_range|lia].
  - apply PTE2PA_make; [lia|apply Ht'|apply PTE_V_range].
Qed.

(** A level of the walk is as before, or goes through the new link. *)
Lemma link_next_table p r lv' pre' va :
  G !! p = Some (UPt r lv' pre') → 0 <= lv' →
  ((p, PX lv' va) ≠ (t, i) ∧ next_table m' p lv' va = next_table (mem s) p lv' va) ∨
  ((p, PX lv' va) = (t, i) ∧ next_table (mem s) p lv' va = None ∧
   next_table m' p lv' va = Some t').
Proof.
  intros Hp Hlv'. pose proof (PX_range lv' va Hlv') as Hpx. unfold next_table.
  destruct (decide ((p, PX lv' va) = (t, i))) as [Heq|Hne].
  - right. injection Heq as -> Heq. rewrite Heq. destruct link_next as [-> ->].
    rewrite Hinv. split_and!; try done.
  - left. split; [done|]. erewrite Hother by eauto. done.
Qed.

Lemma next_table_zero j va : 0 <= j → next_table m' t' j va = None.
Proof. intros. unfold next_table. rewrite Hzero by (apply PX_range; lia). done. Qed.

Lemma link_view r va : is_root G r → 0 <= va < MAXVA → pte_of m' r va = pte_of (mem s) r va.
Proof.
  intros Hr Hva. unfold pte_of, walk_slot, walk_table.
  destruct (link_next_table r r 2 0 va Hr ltac:(lia)) as [[_ ->]|(_ & -> & ->)].
  2: { simpl. by rewrite next_table_zero. }
  destruct (next_table (mem s) r 2 va) as [t1|] eqn:E1; [|done]. simpl.
  eapply next_table_wf in E1; [|done|exact Hr|lia].
  destruct (link_next_table t1 r 1 _ va E1 ltac:(lia)) as [[_ ->]|(_ & -> & ->)].
  2: { simpl. rewrite Hzero by (apply PX_range; lia). done. }
  destruct (next_table (mem s) t1 1 va) as [t0|] eqn:E0; [|done]. simpl.
  eapply next_table_wf in E0; [|done|exact E1|lia].
  eapply Hother; [exact E0|apply PX_range; lia|].
  intros [= -> _]. rewrite Ht in E0. injection E0. lia.
Qed.

Lemma link_wf s' l' :
  l = t' :: l' → mem s' = m' → kmem_ok s' l' →
  vm_wf s' (<[t' := UPt root (lv - 1) (pre * 512 + i)]> G) l'.
Proof.
  intros Hl Hm Hk.
  pose proof (wf_level _ _ _ Hwf _ _ _ _ Ht) as Hlv2.
  assert (Hfree : G !! t' = Some UFree) by (apply (wf_free _ _ _ Hwf); rewrite Hl; set_solver).
  assert (Hnin : t' ∉ l').
  { pose proof (kmem_nodup _ _ (wf_kmem _ _ _ Hwf)) as Hnd. rewrite Hl in Hnd.
    by apply list.NoDup_cons in Hnd as [? _]. }
  split.
  - intros p u. rewrite lookup_insert. case_decide; [by intros; subst|]. by eapply wf_page.
  - done.
  - intros p. rewrite lookup_insert. case_decide as Hp.
    + subst p. split; [done|]. intros [=].
    + rewrite <- (wf_free _ _ _ Hwf p), Hl. set_solver.
  - intros p r lv' pre'. rewrite lookup_insert. case_decide; [|by eapply wf_level].
    intros [= <- <- <-]. lia.
  - intros p r lv' pre' j. rewrite Hm, lookup_insert. case_decide as Hp.
    + intros [= <- <- <-] Hlv' Hj. subst p. rewrite Hzero by done. done.
    + intros HG Hlv' Hj. destruct (decide ((p, j) = (t, i))) as [[= -> ->]|Hne].
      * destruct link_next as [_ ->]. intros _. rewrite lookup_insert_eq.
        rewrite Ht in HG. by injection HG as -> -> ->.
      * erewrite Hother by eauto. intros Hv.
        pose proof (wf_child _ _ _ Hwf _ _ _ _ _ HG Hlv' Hj Hv) as Hc.
        rewrite lookup_insert_ne; [done|]. intros Heq. rewrite <- Heq in Hc. congruence.
Qed.

Lemma link_grow s' l' :
  l = t' :: l' → mem s' = m' → kmem_ok s' l' → same_but_mem s s' →
  (∀ p u, G !! p = Some u → is_data u → agree_on p (mem s) m') →
  pt_grow root s G l s' (<[t' := UPt root (lv - 1) (pre * 512 + i)]> G) l'.
Proof.
  intros Hl Hm Hk Hsame Hdata.
  pose proof (wf_level _ _ _ Hwf _ _ _ _ Ht) as Hlv2.
  assert (Hfree : G !! t' = Some UFree) by (apply (wf_free _ _ _ Hwf); rewrite Hl; set_solver).
  split.
  - by apply link_wf.
  - done.
  - intros p u Hp Hu. rewrite lookup_insert_ne; [done|]. intros <-. congruence.
  - intros p u. rewrite lookup_insert. case_decide; [|by left].
    intros [= <-]. subst p. right. split; [done|]. do 2 eexists. split; [done|lia].
  - rewrite Hm. apply link_view.
  - by rewrite Hm.
  - rewrite Hl. by exists [t'].
Qed.

End Link.

Lemma pt_grow_refl root s G l : vm_wf s G l → pt_grow root s G l s G l.
Proof.
  intros. split; try done.
  - apply same_but_mem_refl.
  - intros. by left.
Qed.

Lemma pt_grow_trans root s1 G1 l1 s2 G2 l2 s3 G3 l3 :
  pt_grow root s1 G1 l1 s2 G2 l2 → pt_grow root s2 G2 l2 s3 G3 l3 →
  pt_grow root s1 G1 l1 s3 G3 l3.
Proof.
  intros H12 H23. split.
  - apply H23.
  - eapply same_but_mem_trans; [apply H12|apply H23].
  - intros p u Hp Hu. eapply (grow_old _ _ _ _ _ _ _ H23); [|done]. by apply H12.
  - intros p u Hp. destruct (grow_new _ _ _ _ _ _ _ H23 p u Hp) as [H|(H & lv & pre & -> & ?)].
    + by apply H12.
    + destruct (grow_new _ _ _ _ _ _ _ H12 p _ H) as [H'|(? & ? & ? & [=] & ?)].
      right. split; [done|]. by exists lv, pre.
  - intros r va Hr Hva. rewrite (grow_view _ _ _ _ _ _ _ H23 r va); [|by apply H12|done].
    by apply H12.
  - intros p u Hp Hu. eapply agree_on_trans; [by eapply H12|].
    eapply (grow_data _ _ _ _ _ _ _ H23); [|done]. eapply H12; [done|]. by destruct u.
  - etrans; [apply H23|apply H12].
Qed.

Lemma grow_root root s G l s' G' l' r : pt_grow root s G l s' G' l' → is_root G r → is_root G' r.
Proof. intros H Hr. by apply H. Qed.

(** ** walk with allocation *)

(** The bytes of a page set to zero read as zero words. *)
Lemma load64_zero m a : (∀ k, 0 <= k < 8 → mget m (a + k) = 0) → load64 m a = 0.
Proof.
  intros H. transitivity (load64 ∅ a); [|reflexivity].
  apply load64_ext. intros k Hk. by rewrite H.
Qed.

Lemma walk_level_alloc s G l t root lv pre va (Q : option Z → kst F → Prop) :
  vm_wf s G l → G !! t = Some (UPt root lv pre) → 0 < lv →
  (∀ t', next_table (mem s) t lv va = Some t' → Q (Some t') s) →
  (next_table (mem s) t lv va = None → l = [] → Q None s) →
  (∀ t' l' s', next_table (mem s) t lv va = None → l = t' :: l' →
     pt_grow root s G l s' (<[t' := UPt root (lv - 1) (pre * 512 + PX lv va)]> G) l' →
     next_table (mem s') t lv va = Some t' →
     (∀ p, G !! p ≠ Some UFree → p ≠ t → page_ok p → agree_on p (mem s) (mem s')) →
     Q (Some t') s') →
  wp (walk_level t va true lv) s Q.
Proof.
  intros Hwf Ht Hlv Hsome Hnone Hnew. unfold walk_level. set (i := PX lv va) in *.
  assert (Hi : 0 <= i < 512) by (apply PX_range; lia).
  pose proof (wf_page _ _ _ Hwf _ _ Ht) as Htok.
  pose proof (slot_range t i Htok Hi) as [Hlo Hhi].
  apply wp_bind, wp_loadM; [done..|]. rewrite truth_V. unfold next_table in Hsome, Hnone, Hnew.
  fold i in Hsome, Hnone, Hnew.
  destruct (Z.testbit (load64 (mem s) (t + 8 * i)) 0) eqn:Ev; [apply wp_ret; by apply Hsome|].
  simpl. apply wp_bind. eapply kalloc_ok; [by eapply wf_kmem| |].
  { intros Hl. apply wp_ret. by apply Hnone. }
  intros t' l' s1 Hl Hok' Hsm1 Hk1 Hoff1 _.
  pose proof (page_ok_pos t' Hok') as Hpos. pose proof (page_ok_end t' Hok') as Hend.
  rewrite (proj2 (Z.eqb_neq t' 0)) by lia.
  apply wp_bind, wp_memsetM; [destruct Hok'; lia|lia|]. intros m2 Hz2 Hoff2.
  apply wp_bind, wp_storeM; [done|done|apply PA2PTE_range; [lia|apply PTE_V_range]|].
  intros m3 Hlink Hoff3. apply wp_ret. simpl in *.
  assert (Hfree : G !! t' = Some UFree)
    by (apply (wf_free _ _ _ Hwf); rewrite Hl; apply elem_of_cons; auto).
  assert (Htt' : t ≠ t') by congruence.
  assert (Hnin : t' ∉ l').
  { pose proof (kmem_nodup _ _ (wf_kmem _ _ _ Hwf)) as Hnd. rewrite Hl in Hnd.
    by apply list.NoDup_cons in Hnd as [? _]. }
  assert (Hoff : agree_off t' (mem s) m2) by (by eapply same_off_trans).
  assert (Hon : ∀ p, p ≠ t → p ≠ t' → page_ok p → agree_on p (mem s) m3).
  { intros p Hp1 Hp2 Hpok. eapply agree_on_trans; [by apply (agree_off_on t' p)|].
    apply (agree_off_on t p); [done..|]. apply (agree_off_slot t (t + 8 * i)); [done|lia|].
    unfold PGSIZE; lia. }
  assert (Hslot : ∀ p j, page_ok p → 0 <= j < 512 → (p, j) ≠ (t, i) →
    load64 m3 (p + 8 * j) = load64 m2 (p + 8 * j)).
  { intros p j Hpok Hj Hne. eapply same_off_load64; [exact Hoff3|].
    destruct (slot_disjoint t p i j); [apply Htok|apply Hpok|done|done|congruence|lia|lia]. }
  apply (Hnew t' l' (set_mem m3 (set_mem m2 s1))); [reflexivity|exact Hl| | |].
  - apply (link_grow s G l t t' root lv pre i m3);
      [exact Hwf|exact Ht|exact Hlv|exact Hi|exact Ev|exact Hlink| | |exact Hok'|exact Hl
      |reflexivity| | |].
    + intros p r lv' pre' j Hp Hj Hne. pose proof (wf_page _ _ _ Hwf _ _ Hp) as Hpok.
      rewrite Hslot by done. apply (agree_on_load64 p (mem s)); [|lia|unfold PGSIZE; lia].
      apply (agree_off_on t' p); [done|done|congruence|done].
    + intros j Hj. rewrite Hslot by (done || congruence).
      apply load64_zero. intros k Hk. apply Hz2. unfold PGSIZE; lia.
    + apply (kmem_ok_agree s1); [reflexivity| |exact Hk1]. intros p Hp. simpl.
      assert (Hpf : G !! p = Some UFree)
        by (apply (wf_free _ _ _ Hwf); rewrite Hl; apply elem_of_cons; auto).
      assert (Hpok : page_ok p) by (by eapply wf_page).
      eapply agree_on_trans; [apply (agree_off_on t' p); [done|done|congruence|exact Hoff2]|].
      apply (agree_off_on t p); [done|done|congruence|].
      apply (agree_off_slot t (t + 8 * i)); [done|lia|unfold PGSIZE; lia].
    + eapply same_but_mem_trans; [exact Hsm1|].
      eapply same_but_mem_trans; apply same_but_mem_mem.
    + intros p u Hp Hu. apply Hon; [..|by eapply wf_page].
      * intros ->. rewrite Ht in Hp. by injection Hp as <-.
      * intros ->. rewrite Hfree in Hp. by injection Hp as <-.
  - simpl. fold i. destruct (link_next t t' i m3 Hlink Hok') as [-> ->]. reflexivity.
  - intros p Hpf Hpt Hpok. apply Hon; [done|congruence|done].
Qed.

Lemma next_table_on m m' t lv va :
  agree_on t m m' → 0 <= lv → next_table m' t lv va = next_table m t lv va.
Proof.
  intros Hag Hlv. pose proof (PX_range lv va Hlv). unfold next_table.
  rewrite (agree_on_load64 t m m'); [done|done|lia|unfold PGSIZE; lia].
Qed.

Lemma walk_alloc_ok s G l root va (Q : Z → kst F → Prop) :
  vm_wf s G l → is_root G root → 0 <= va < MAXVA →
  (∀ s' G' l', pt_grow root s G l s' G' l' → (length l <= 1)%nat →
     walk_slot (mem s) root va = None → Q 0 s') →
  (∀ s' G' l' a, pt_grow root s G l s' G' l' → walk_slot (mem s') root va = Some a →
     (length l <= length l' + 2)%nat →
     (∀ a0, walk_slot (mem s) root va = Some a0 → s' = s ∧ G' = G ∧ l' = l) → Q a s') →
  wp (walk root va true) s Q.
Proof.
  intros Hwf Hroot Hva Hfail Hok. unfold walk. rewrite (proj2 (Z.leb_gt _ _)) by lia.
  cbn [walk_loop]. apply wp_bind. unfold walk_slot, walk_table in Hfail, Hok.
  eapply walk_level_alloc; [done|exact Hroot|lia| | |].
  - (* the level-1 table exists *)
    intros t1 E1. rewrite E1 in Hfail, Hok. simpl in *. apply wp_bind.
    pose proof (next_table_wf _ _ _ _ _ _ _ _ _ Hwf Hroot ltac:(lia) E1) as Ht1.
    eapply walk_level_alloc; [done|exact Ht1|lia| | |].
    + intros t0 E0. apply wp_ret. rewrite E0 in Hok. apply (Hok s G l).
      * by apply pt_grow_refl.
      * by rewrite E1; simpl; rewrite E0.
      * lia.
      * done.
    + intros E0 ->. apply wp_ret. rewrite E0 in Hfail. apply (Hfail s G []); simpl; try lia.
      * by apply pt_grow_refl.
      * done.
    + intros t0 l0 s0 E0 -> Hg E0' Hag. apply wp_ret. rewrite E0 in Hok.
      eapply Hok; [exact Hg| |simpl; lia|done].
      assert (Hne : root ≠ t1) by (intros <-; rewrite Hroot in Ht1; injection Ht1; lia).
      rewrite (next_table_on (mem s)); [|apply Hag; [by rewrite Hroot|done|by eapply wf_page]|lia].
      rewrite E1. simpl. by rewrite E0'.
  - intros E1 ->. apply wp_ret. rewrite E1 in Hfail. apply (Hfail s G []); simpl; try lia.
    + by apply pt_grow_refl.
    + done.
  - (* the level-1 table was just allocated *)
    intros t1 l1 s1 E1 -> Hg1 E1' Hag1. rewrite E1 in Hfail, Hok. simpl in *. apply wp_bind.
    pose proof (grow_wf _ _ _ _ _ _ _ Hg1) as Hwf1.
    pose proof (grow_root _ _ _ _ _ _ _ root Hg1 Hroot) as Hroot1.
    pose proof (next_table_wf _ _ _ _ _ _ _ _ _ Hwf1 Hroot1 ltac:(lia) E1') as Ht1.
    eapply walk_level_alloc; [done|exact Ht1|lia| | |].
    + intros t0 E0. apply wp_ret. eapply Hok; [exact Hg1| |simpl; lia|done].
      rewrite E1'. simpl. by rewrite E0.
    + intros E0 ->. apply wp_ret. eapply Hfail; [exact Hg1|simpl; lia|done].
    + intros t0 l0 s0 E0 -> Hg0 E0' Hag0. apply wp_ret.
      eapply Hok; [by eapply pt_grow_trans| |simpl; lia|done].
      assert (Hne : root ≠ t1) by (intros <-; rewrite Hroot1 in Ht1; injection Ht1; lia).
      rewrite (next_table_on (mem s1));
        [|apply Hag0; [by rewrite Hroot1|done|by eapply wf_page]|lia].
      rewrite E1'. simpl. by rewrite E0'.
Qed.

(** ** Writing an entry *)

Lemma pte_of_slot m root va a : walk_slot m root va = Some a → pte_of m root va = load64 m a.
Proof. unfold pte_of. by intros ->. Qed.

(** Writing the entry of [va] changes that entry of that table and nothing else. *)
Lemma store_leaf_ok s G l root va a v m' :
  vm_wf s G l → is_root G root → 0 <= va < MAXVA → walk_slot (mem s) root va = Some a →
  load64 m' a = v → same_off a 8 (mem s) m' →
  vm_wf (set_mem m' s) G l ∧
  (∀ r va', is_root G r → 0 <= va' < MAXVA →
     walk_slot m' r va' = walk_slot (mem s) r va') ∧
  (∀ r va', is_root G r → 0 <= va' < MAXVA →
     pte_of m' r va' = if decide (r = root ∧ va' / PGSIZE = va / PGSIZE) then v
                       else pte_of (mem s) r va') ∧
  (∀ p u, G !! p = Some u → is_data u → agree_on p (mem s) m').
Proof.
  intros Hwf Hroot Hva Ha Hv Hoff.
  destruct (walk_slot_wf _ _ _ _ _ _ Hwf Hroot Hva Ha) as (t & Ht & -> & HGt & Htok).
  set (i := PX 0 va) in *. assert (Hi : 0 <= i < 512) by (apply PX_range; lia).
  assert (Hon : ∀ p u, G !! p = Some u → p ≠ t → agree_on p (mem s) m').
  { intros p u Hp Hne. apply (agree_off_on t p); [done|by eapply wf_page|congruence|].
    apply (agree_off_slot t (t + 8 * i)); [done|lia|unfold PGSIZE; lia]. }
  assert (Hnext : ∀ p r lv pre va', G !! p = Some (UPt r lv pre) → 0 < lv →
    next_table m' p lv va' = next_table (mem s) p lv va').
  { intros p r lv pre va' Hp Hlv. apply next_table_on; [|lia]. eapply Hon; [done|].
    intros ->. rewrite HGt in Hp. injection Hp. lia. }
  assert (Hslots : ∀ r va', is_root G r → 0 <= va' < MAXVA →
    walk_slot m' r va' = walk_slot (mem s) r va').
  { intros r va' Hr Hva'. unfold walk_slot, walk_table.
    rewrite (Hnext r r 2 0) by (done || lia).
    destruct (next_table (mem s) r 2 va') as [t1|] eqn:E1; [|done]. simpl.
    eapply next_table_wf in E1; [|done|exact Hr|lia]. by erewrite Hnext by (done || lia). }
  split_and!; [|done| |].
  - split.
    + apply Hwf.
    + apply (kmem_ok_agree s); [done| |by eapply wf_kmem]. intros p Hp.
      apply (wf_free _ _ _ Hwf) in Hp. apply (Hon p _ Hp). congruence.
    + apply Hwf.
    + apply Hwf.
    + intros p r lv pre j Hp Hlv Hj. cbn [mem set_mem].
      rewrite (agree_on_load64 p (mem s)); [by eapply wf_child| |lia|unfold PGSIZE; lia].
      apply (Hon p _ Hp). intros ->. rewrite HGt in Hp. injection Hp. lia.
  - intros r va' Hr Hva'. unfold pte_of. rewrite Hslots by done.
    case_decide as Hd.
    + destruct Hd as [-> Hd]. replace (walk_slot (mem s) root va') with (Some (t + 8 * i)); [done|].
      rewrite <- Ha. unfold walk_slot, walk_table, next_table.
      assert (Hpx : ∀ lv, 0 <= lv → PX lv va' = PX lv va).
      { intros lv Hlv. rewrite !PX_eq by done. replace (12 + 9 * lv) with (12 + (9 * lv)) by lia.
        rewrite Z.pow_add_r by lia. rewrite <- !Z.div_div by lia. unfold PGSIZE in Hd.
        change (2 ^ 12) with 4096. by rewrite Hd. }
      by rewrite !Hpx by lia.
    + destruct (walk_slot (mem s) r va') as [b|] eqn:E; [|done].
      destruct (walk_slot_wf _ _ _ _ _ _ Hwf Hr Hva' E) as (t2 & _ & -> & HG2 & Ht2ok).
      eapply same_off_load64; [exact Hoff|].
      destruct (slot_disjoint t t2 i (PX 0 va')) as [?|?];
        [apply Htok|apply Ht2ok|done|apply PX_range; lia| |lia|lia].
      intros [= <- Heq]. apply Hd. rewrite HGt in HG2. injection HG2 as <- Hpre. split; [done|].
      rewrite <- !px_vpn by lia. fold i. lia.
  - intros p u Hp Hu. apply (Hon p _ Hp). intros ->. rewrite HGt in Hp. by injection Hp as <-.
Qed.

(** ** mappages *)

Lemma perm_V_range perm : 0 <= perm < 1024 → 0 <= Z.lor perm PTE_V < 1024.
Proof.
  intros H. split; [apply Z.lor_nonneg; split; [lia|done]|].
  destruct (decide (Z.lor perm PTE_V = 0)) as [->|Hne]; [lia|].
  apply (Z.log2_lt_cancel _ 1024). change (Z.log2 1024) with 10.
  rewrite Z.log2_lor by (lia || done). apply Z.max_lub_lt; [|done].
  destruct (decide (perm = 0)) as [->|]; [done|]. apply Z.log2_lt_pow2; [lia|]. lia.
Qed.

Lemma mk_pte_eq pa perm : mk_pte pa perm = Z.lor (PA2PTE pa) (Z.lor perm PTE_V).
Proof. unfold mk_pte. by rewrite Z.lor_assoc. Qed.

Lemma mk_pte_range pa perm : 0 <= pa < 2 ^ 56 → 0 <= perm < 1024 → 0 <= mk_pte pa perm < 2 ^ 64.
Proof. intros. rewrite mk_pte_eq. apply PA2PTE_range; [done|]. by apply perm_V_range. Qed.

Lemma mk_pte_V pa perm :
  0 <= pa < 2 ^ 56 → 0 <= perm < 1024 → Z.testbit (mk_pte pa perm) 0 = true.
Proof.
  intros. rewrite mk_pte_eq, testbit_make by (done || lia || by apply perm_V_range).
  rewrite Z.lor_spec. apply orb_true_r.
Qed.

Lemma mk_pte_PA pa perm :
  0 <= pa < 2 ^ 56 → pa mod PGSIZE = 0 → 0 <= perm < 1024 → PTE2PA (mk_pte pa perm) = pa.
Proof. intros. rewrite mk_pte_eq. apply PTE2PA_make; [done..|]. by apply perm_V_range. Qed.

Lemma pt_grow_upd root s G l s' G' l' :
  pt_grow root s G l s' G' l' → pt_upd root (λ _, None) s G l s' G' l'.
Proof.
  intros [?? Ho Hn Hv ??]. split; try done. intros r va Hr Hva. rewrite Hv by done.
  by case_decide.
Qed.

Lemma pt_upd_trans root u1 u2 s1 G1 l1 s2 G2 l2 s3 G3 l3 :
  pt_upd root u1 s1 G1 l1 s2 G2 l2 → pt_upd root u2 s2 G2 l2 s3 G3 l3 →
  pt_upd root (λ v, u2 v ∪ u1 v) s1 G1 l1 s3 G3 l3.
Proof.
  intros H12 H23. split.
  - apply H23.
  - eapply same_but_mem_trans; [apply H12|apply H23].
  - intros p u Hp Hu. eapply (upd_old _ _ _ _ _ _ _ _ H23); [|done]. by eapply H12.
  - intros p u Hp. destruct (upd_new _ _ _ _ _ _ _ _ H23 p u Hp) as [H|(H & lv & pre & -> & ?)].
    + by eapply H12.
    + destruct (upd_new _ _ _ _ _ _ _ _ H12 p _ H) as [H'|(? & ? & ? & [=] & ?)].
      right. split; [done|]. by exists lv, pre.
  - intros r va Hr Hva. assert (is_root G2 r) by (by eapply H12).
    rewrite (upd_view _ _ _ _ _ _ _ _ H23 r va) by done.
    rewrite (upd_view _ _ _ _ _ _ _ _ H12 r va) by done.
    case_decide; [|done]. by destruct (u2 _), (u1 _).
  - intros p u Hp Hu. eapply agree_on_trans; [by eapply H12|].
    eapply (upd_data _ _ _ _ _ _ _ _ H23); [|done]. eapply H12; [done|]. by destruct u.
  - etrans; [apply H23|apply H12].
Qed.

Lemma pt_upd_ext root u1 u2 s G l s' G' l' :
  (∀ v, u1 v = u2 v) → pt_upd root u1 s G l s' G' l' → pt_upd root u2 s G l s' G' l'.
Proof.
  intros He [?? Ho Hn Hv ??]. split; try done. intros r va Hr Hva. rewrite Hv by done.
  by rewrite He.
Qed.

Lemma store_leaf_upd s G l root va a v m' :
  vm_wf s G l → is_root G root → 0 <= va < MAXVA → walk_slot (mem s) root va = Some a →
  load64 m' a = v → same_off a 8 (mem s) m' →
  pt_upd root (λ n, if decide (n = va / PGSIZE) then Some v else None) s G l (set_mem m' s) G l.
Proof.
  intros Hwf Hroot Hva Ha Hv Hoff.
  destruct (store_leaf_ok _ _ _ _ _ _ _ _ Hwf Hroot Hva Ha Hv Hoff) as (Hwf' & _ & Hview & Hdata).
  split; try done.
  - intros. by left.
  - intros r va' Hr Hva'. cbn [mem set_mem]. rewrite Hview by done.
    repeat case_decide; try done; naive_solver.
Qed.

Lemma upd_root root u s G l s' G' l' r : pt_upd root u s G l s' G' l' → is_root G r → is_root G' r.
Proof. intros H Hr. by eapply H. Qed.

(** Mapping one page, the common part of [mappages] and [mappage]. *)
Lemma map_one s G l root va pa perm {A} (k : Z → M (kst F) A) (kerr : M (kst F) A) Q :
  vm_wf s G l → is_root G root → 0 <= va < MAXVA → 0 <= pa < 2 ^ 56 → 0 <= perm < 1024 →
  Z.testbit (pte_of (mem s) root va) 0 = false →
  (∀ s' G' l', pt_grow root s G l s' G' l' → (length l <= 1)%nat → wp kerr s' Q) →
  (∀ s' G' l', pt_upd root (map_entries (va / PGSIZE) 1 pa perm) s G l s' G' l' →
     (length l <= length l' + 2)%nat →
     (∀ a, walk_slot (mem s) root va = Some a → l' = l ∧ G' = G) → wp (k 0) s' Q) →
  wp (pte ← walk root va true;
      if pte =? 0 then kerr
      else
        v ← loadM pte;
        if truth (Z.land v PTE_V) then panic "remap"
        else storeM pte (Z.lor (Z.lor (PA2PTE pa) perm) PTE_V);; k 0) s Q.
Proof.
  intros Hwf Hroot Hva Hpa Hperm HV Herr Hk. apply wp_bind.
  eapply walk_alloc_ok; [done|done|done| |].
  { intros s' G' l' Hg Hlen _. simpl. by eapply Herr. }
  intros s' G' l' a Hg Ha Hlen Hsame.
  pose proof (grow_wf _ _ _ _ _ _ _ Hg) as Hwf'.
  pose proof (grow_root _ _ _ _ _ _ _ root Hg Hroot) as Hroot'.
  destruct (walk_slot_range _ _ _ _ _ _ Hwf' Hroot' Hva Ha) as (Hlo & Hhi & Hnz).
  rewrite (proj2 (Z.eqb_neq a 0)) by done.
  apply wp_bind, wp_loadM; [done..|].
  rewrite truth_V, <- (pte_of_slot _ _ _ _ Ha), (grow_view _ _ _ _ _ _ _ Hg) by done.
  rewrite HV. apply wp_bind, wp_storeM; [done|done|by apply mk_pte_range|].
  intros m' Hld Hoff. eapply Hk; [|exact Hlen|].
  - eapply pt_upd_ext; [|eapply pt_upd_trans; [apply pt_grow_upd, Hg|]].
    2: { eapply store_leaf_upd; done. }
    intros v. unfold map_entries. rewrite right_id_L by apply _.
    repeat case_decide; try lia; [|done]. subst. f_equal. unfold mk_pte. do 3 f_equal. lia.
  - intros a0 Ha0. destruct (Hsame a0 Ha0) as (-> & -> & ->). done.
Qed.

Lemma map_entries_snoc v0 n pa perm v :
  0 <= n →
  map_entries (v0 + n) 1 (pa + n * PGSIZE) perm v ∪ map_entries v0 n pa perm v =
  map_entries v0 (n + 1) pa perm v.
Proof.
  intros. unfold map_entries. repeat case_decide; try lia; try done.
  rewrite right_id_L by apply _. unfold PGSIZE. do 2 f_equal. lia.
Qed.

Lemma map_entries_0 v0 pa perm v : map_entries v0 0 pa perm v = None.
Proof. unfold map_entries. rewrite decide_False by lia. done. Qed.

(** Number of pages [mappages] touches. *)
Definition map_count (va size : Z) : Z := (va + size - 1) / PGSIZE - va / PGSIZE + 1.

Lemma mappages_body_ok s G l root v0 n k pa perm s' G' l' :
  is_root G root → 0 <= v0 → (v0 + n) * PGSIZE <= MAXVA → 0 <= k < n →
  0 <= pa → pa + n * PGSIZE <= 2 ^ 56 → 0 <= perm < 1024 →
  (∀ va, v0 <= va / PGSIZE < v0 + n → Z.testbit (pte_of (mem s) root va) 0 = false) →
  pt_upd root (map_entries v0 k pa perm) s G l s' G' l' → Z.of_nat (length l) <= Z.of_nat (length l') + 2 * k →
  wp (mappages_not_NONE_body root ((v0 + n - 1) * PGSIZE) perm
        ((v0 + k) * PGSIZE, pa + k * PGSIZE)) s' (λ r s2, ∃ G2 l2,
    match r with
    | inl st => k + 1 < n ∧ st = ((v0 + (k + 1)) * PGSIZE, pa + (k + 1) * PGSIZE) ∧
        pt_upd root (map_entries v0 (k + 1) pa perm) s G l s2 G2 l2 ∧
        Z.of_nat (length l) <= Z.of_nat (length l2) + 2 * (k + 1)
    | inr r => (r = 0 ∧ k + 1 = n ∧ pt_upd root (map_entries v0 n pa perm) s G l s2 G2 l2) ∨
        (r = -1 ∧ Z.of_nat (length l) < 2 * n ∧ pt_upd root (map_entries v0 k pa perm) s G l s2 G2 l2)
    end).
Proof.
  intros Hroot Hv0 Hmax Hk Hpa Hpa' Hperm HV Hu Hlen. unfold mappages_not_NONE_body.
  pose proof MAXVA_eq as Hmx. unfold PGSIZE in *.
  assert (Hva : 0 <= (v0 + k) * 4096 < MAXVA) by lia.
  assert (Hdiv : (v0 + k) * 4096 / 4096 = v0 + k) by (apply Z.div_mul; lia).
  eapply (map_one s' G' l' root ((v0 + k) * 4096) (pa + k * 4096) perm
    (λ _, if (v0 + k) * 4096 =? (v0 + n - 1) * 4096 then mret (inr 0)
          else mret (inl (w64 ((v0 + k) * 4096 + 4096), w64 (pa + k * 4096 + 4096))))
    (mret (inr (-1)))).
  - apply Hu.
  - by eapply Hu.
  - done.
  - lia.
  - done.
  - rewrite (upd_view _ _ _ _ _ _ _ _ Hu) by done. rewrite decide_True by done.
    unfold map_entries, PGSIZE. rewrite Hdiv, decide_False by lia. simpl. apply HV. lia.
  - intros s2 G2 l2 Hg Hl. apply wp_ret. exists G2, l2. right. split; [done|]. split; [lia|].
    eapply pt_upd_ext; [|eapply pt_upd_trans; [exact Hu|apply pt_grow_upd, Hg]].
    intros v. simpl. by rewrite left_id_L by apply _.
  - intros s2 G2 l2 Hu2 Hl _. unfold PGSIZE in Hu2. rewrite Hdiv in Hu2.
    assert (Hu3 : pt_upd root (map_entries v0 (k + 1) pa perm) s G l s2 G2 l2).
    { eapply pt_upd_ext; [|eapply pt_upd_trans; [exact Hu|exact Hu2]].
      intros v. simpl. apply (map_entries_snoc v0 k pa perm v). lia. }
    destruct (Z.eqb_spec ((v0 + k) * 4096) ((v0 + n - 1) * 4096)); apply wp_ret; exists G2, l2.
    + left. replace n with (k + 1) by lia. done.
    + split; [lia|]. split; [|split; [done|lia]].
      unfold w64. rewrite !Z.mod_small by lia. f_equal; lia.
Qed.

Lemma mappages_not_NONE_ok s G l root va size pa perm :
  vm_wf s G l → is_root G root → 0 <= va → 0 < size → va + size <= MAXVA →
  0 <= pa → pa + map_count va size * PGSIZE <= 2 ^ 56 → 0 <= perm < 1024 →
  (∀ va', va / PGSIZE <= va' / PGSIZE < va / PGSIZE + map_count va size →
     Z.testbit (pte_of (mem s) root va') 0 = false) →
  wp (mappages_not_NONE root va size pa perm) s (λ r s', ∃ G' l' k,
    pt_upd root (map_entries (va / PGSIZE) k pa perm) s G l s' G' l' ∧
    ((r = 0 ∧ k = map_count va size) ∨
     (r = -1 ∧ 0 <= k < map_count va size ∧ Z.of_nat (length l) < 2 * map_count va size))).
Proof.
  intros Hwf Hroot Hva Hsz Hmax Hpa Hpa' Hperm HV. unfold mappages_not_NONE.
  set (v0 := va / PGSIZE) in *. set (n := map_count va size) in *.
  pose proof MAXVA_eq as Hmx.
  assert (Hn : 0 < n) by (unfold n, map_count, PGSIZE; Z.div_mod_to_equations; lia).
  assert (Hv0 : 0 <= v0) by (apply Z.div_pos; unfold PGSIZE; lia).
  assert (Hlast : PGROUNDDOWN (w64 (va + size - 1)) = (v0 + n - 1) * PGSIZE).
  { rewrite PGROUNDDOWN_eq. unfold w64. rewrite Z.mod_small by lia. unfold n, map_count, v0. lia. }
  assert (Hfirst : PGROUNDDOWN va = (v0 + 0) * PGSIZE) by (rewrite PGROUNDDOWN_eq; unfold v0; lia).
  assert (Hbound : (v0 + n) * PGSIZE <= MAXVA).
  { rewrite Hmx in *. unfold n, map_count, v0, PGSIZE in *. Z.div_mod_to_equations; lia. }
  rewrite Hlast, Hfirst.
  eapply (wp_loop _ (λ m st s', ∃ k G' l', 0 <= k < n ∧ Z.of_nat m = n - 1 - k ∧
    st = ((v0 + k) * PGSIZE, pa + k * PGSIZE) ∧
    pt_upd root (map_entries v0 k pa perm) s G l s' G' l' ∧
    Z.of_nat (length l) <= Z.of_nat (length l') + 2 * k)) with (n := Z.to_nat (n - 1)).
  - intros m st s' (k & G' & l' & Hk & Hm & -> & Hu & Hlen).
    eapply wp_mono; [eapply (mappages_body_ok s G l root v0 n k pa perm); try done|].
    intros [st|r] s2 (G2 & l2 & H).
    + destruct H as (Hk1 & -> & Hu2 & Hlen2). exists (m - 1)%nat. split; [lia|].
      exists (k + 1), G2, l2. split_and!; done || lia.
    + destruct H as [(-> & Hkn & Hu2)|(-> & Hl & Hu2)].
      * exists G2, l2, n. split; [done|]. by left.
      * exists G2, l2, k. split; [done|]. right. split_and!; done || lia.
  - exists 0, G, l. split_and!; try lia.
    + f_equal; lia.
    + eapply pt_upd_ext; [|by apply pt_grow_upd, pt_grow_refl].
      intros v. by rewrite map_entries_0.
  - unfold map_fuel. unfold PGSIZE in *. rewrite Hmx in *. unfold w64.
    rewrite (Z.mod_small (_ - _)) by lia. rewrite Z.min_l by lia.
    replace ((v0 + n - 1) * 4096 - (v0 + 0) * 4096) with ((n - 1) * 4096) by lia.
    rewrite Z.div_mul by lia. lia.
Qed.

(** ** mappage *)

Lemma mappage_ok s G l root va pa perm (Q : Z → kst F → Prop) :
  vm_wf s G l → is_root G root → 0 <= va < MAXVA → va mod PGSIZE = 0 →
  0 <= pa < 2 ^ 56 → 0 <= perm < 1024 → Z.testbit (pte_of (mem s) root va) 0 = false →
  (∀ s' G' l', pt_grow root s G l s' G' l' → (length l <= 1)%nat → Q (-1) s') →
  (∀ s' G' l', pt_upd root (map_entries (va / PGSIZE) 1 pa perm) s G l s' G' l' →
     (∀ a, walk_slot (mem s) root va = Some a → l' = l ∧ G' = G) → Q 0 s') →
  wp (mappage root va pa perm) s Q.
Proof.
  intros Hwf Hroot Hva Hal Hpa Hperm HV Herr HQ. unfold mappage.
  rewrite PGROUNDDOWN_aligned by done.
  apply (map_one s G l root va pa perm (λ _, mret 0) (mret (-1))); try assumption.
  intros s' G' l' Hu _ Hsame. apply wp_ret. by eapply HQ.
Qed.

(** ** Allocating and freeing pages under the invariant *)

Lemma vm_wf_ext s s' G l :
  mem s' = mem s → freelist s' = freelist s → vm_wf s G l → vm_wf s' G l.
Proof.
  intros Hm Hf Hwf. eapply vm_wf_agree; [done|done|..]; rewrite Hm; intros ???*; done.
Qed.

Lemma vm_relabel s G l pg u u' :
  vm_wf s G l → G !! pg = Some u → is_data u → is_data u' → vm_wf s (<[pg := u']> G) l.
Proof.
  intros Hwf Hpg Hu Hu'. split.
  - intros p v [[<- _]|[_ Hp]]%lookup_insert_Some; by eapply wf_page.
  - apply Hwf.
  - intros p. rewrite (wf_free _ _ _ Hwf), lookup_insert_Some. split.
    + intros Hp. right. split; [|done]. intros ->. rewrite Hp in Hpg. by injection Hpg as <-.
    + intros [[_ ->]|[_ ?]]; done.
  - intros p r lv pre [[_ ->]|[_ Hp]]%lookup_insert_Some; [done|]. by eapply wf_level.
  - intros p r lv pre j [[_ ->]|[_ Hp]]%lookup_insert_Some Hlv Hj Hv; [done|].
    apply lookup_insert_Some. right. split; [|by eapply wf_child].
    intros Heq. eapply wf_child in Hv; [|done|exact Hp|done|done].
    rewrite <- Heq, Hpg in Hv. by injection Hv as ->.
Qed.

(** Agreement on every page but [pg]. *)
Definition agree_but (pg : Z) (G : gmap Z usage) (m m' : memory) : Prop :=
  ∀ q u, G !! q = Some u → q ≠ pg → agree_on q m m'.

Lemma agree_but_pt pg u G m m' :
  agree_but pg G m m' → G !! pg = Some u → ¬ (∃ r lv pre, u = UPt r lv pre) → pt_agree G m m'.
Proof. intros Hag Hpg Hu p r lv pre Hp. eapply Hag; [done|]. intros ->. naive_solver. Qed.

Lemma vm_kalloc_ok s G l (Q : Z → kst F → Prop) :
  vm_wf s G l → (l = [] → Q 0 s) →
  (∀ pg l' s', l = pg :: l' → G !! pg = Some UFree → page_ok pg → same_but_mem s s' →
     vm_wf s' (<[pg := UOther]> G) l' → agree_but pg G (mem s) (mem s') →
     pt_agree G (mem s) (mem s') → Q pg s') →
  wp kalloc s Q.
Proof.
  intros Hwf Hnil Hcons. eapply kalloc_ok; [by eapply wf_kmem|done|].
  intros pg l' s' Hl Hok Hsm Hk Hoff _.
  assert (Hfree : G !! pg = Some UFree)
    by (apply (wf_free _ _ _ Hwf); rewrite Hl; apply elem_of_cons; auto).
  assert (Hnin : pg ∉ l').
  { pose proof (kmem_nodup _ _ (wf_kmem _ _ _ Hwf)) as Hnd. rewrite Hl in Hnd.
    by apply list.NoDup_cons in Hnd as [? _]. }
  assert (Hbut : agree_but pg G (mem s) (mem s')).
  { intros q u Hq Hne. apply (agree_off_on pg q); [done|by eapply wf_page|congruence|done]. }
  assert (Hpt : pt_agree G (mem s) (mem s')) by (eapply agree_but_pt; naive_solver).
  eapply Hcons; [exact Hl|done..| |done|done]. split.
  - intros p v [[<- _]|[_ Hp]]%lookup_insert_Some; by eapply wf_page.
  - done.
  - intros p. rewrite lookup_insert_Some, <- (wf_free _ _ _ Hwf), Hl, elem_of_cons.
    split; [|naive_solver]. intros Hp. right. split; [|by right]. by intros ->.
  - intros p r lv pre [[_ ?]|[_ Hp]]%lookup_insert_Some; [done|]. by eapply wf_level.
  - intros p r lv pre j [[_ ?]|[_ Hp]]%lookup_insert_Some Hlv Hj; [done|].
    erewrite agree_slot; [|done|exact Hp|done]. intros Hv.
    apply lookup_insert_Some. right. eapply wf_child in Hv; [|done|exact Hp|done|done].
    split; [congruence|done].
Qed.

Lemma vm_kfree_ok s G l pg u (Q : unit → kst F → Prop) :
  vm_wf s G l → G !! pg = Some u → is_data u →
  (∀ s', same_but_mem s s' → vm_wf s' (<[pg := UFree]> G) (pg :: l) →
     agree_but pg G (mem s) (mem s') → pt_agree G (mem s) (mem s') → Q tt s') →
  wp (kfree pg) s Q.
Proof.
  intros Hwf Hpg Hu HQ. pose proof (wf_page _ _ _ Hwf _ _ Hpg) as Hok.
  assert (Hnin : pg ∉ l).
  { rewrite (wf_free _ _ _ Hwf), Hpg. intros [= ->]. done. }
  eapply kfree_ok; [by eapply wf_kmem|done|done|]. intros s' Hsm Hk Hoff.
  assert (Hbut : agree_but pg G (mem s) (mem s')).
  { intros q v Hq Hne. apply (agree_off_on pg q); [done|by eapply wf_page|congruence|done]. }
  assert (Hpt : pt_agree G (mem s) (mem s')).
  { eapply agree_but_pt; [done|done|]. by intros (?&?&?&->). }
  apply HQ; [done| |done|done]. split.
  - intros p v [[<- _]|[_ Hp]]%lookup_insert_Some; by eapply wf_page.
  - done.
  - intros p. rewrite lookup_insert_Some, <- (wf_free _ _ _ Hwf), elem_of_cons.
    destruct (decide (pg = p)) as [->|]; naive_solver.
  - intros p r lv pre [[_ ?]|[_ Hp]]%lookup_insert_Some; [done|]. by eapply wf_level.
  - intros p r lv pre j [[_ ?]|[_ Hp]]%lookup_insert_Some Hlv Hj; [done|].
    erewrite agree_slot; [|done|exact Hp|done]. intros Hv.
    apply lookup_insert_Some. right. eapply wf_child in Hv; [|done|exact Hp|done|done].
    split; [|done]. intros Heq. rewrite <- Heq, Hpg in Hv. by injection Hv as ->.
Qed.

(** ** Writing a leaf entry *)

(** [s'] is [s] with the entry of [va] in [root] set to [v]. *)
Record leaf_upd (root va v : Z) (s : kst F) (G : gmap Z usage) (l : list Z) (s' : kst F) : Prop := {
  leaf_wf : vm_wf s' G l;
  leaf_same : same_but_mem s s';
  leaf_slot : ∀ r va', is_root G r → 0 <= va' < MAXVA →
    walk_slot (mem s') r va' = walk_slot (mem s) r va';
  leaf_view : ∀ r va', is_root G r → 0 <= va' < MAXVA →
    pte_of (mem s') r va' =
    if decide (r = root ∧ va' / PGSIZE = va / PGSIZE) then v else pte_of (mem s) r va';
  leaf_data : ∀ p u, G !! p = Some u → is_data u → agree_on p (mem s) (mem s')
}.

Lemma leaf_store s G l root va a v (Q : unit → kst F → Prop) :
  vm_wf s G l → is_root G root → 0 <= va < MAXVA → walk_slot (mem s) root va = Some a →
  0 <= v < 2 ^ 64 → (∀ s', leaf_upd root va v s G l s' → Q tt s') → wp (storeM a v) s Q.
Proof.
  intros Hwf Hroot Hva Ha Hv HQ.
  destruct (walk_slot_range _ _ _ _ _ _ Hwf Hroot Hva Ha) as (Hlo & Hhi & Hnz).
  apply wp_storeM; [done..|]. intros m' Hld Hoff. apply HQ.
  destruct (store_leaf_ok _ _ _ _ _ _ _ _ Hwf Hroot Hva Ha Hld Hoff) as (?&?&?&?).
  by split.
Qed.

Lemma wp_load_slot s G l root va a (Q : Z → kst F → Prop) :
  vm_wf s G l → is_root G root → 0 <= va < MAXVA → walk_slot (mem s) root va = Some a →
  Q (pte_of (mem s) root va) s → wp (loadM a) s Q.
Proof.
  intros Hwf Hroot Hva Ha HQ.
  destruct (walk_slot_range _ _ _ _ _ _ Hwf Hroot Hva Ha) as (Hlo & Hhi & Hnz).
  apply wp_loadM; [done..|]. by rewrite <- (pte_of_slot _ _ _ _ Ha).
Qed.

(** [mappage] where the level-0 table is already there. *)
Lemma mappage_present s G l root va a pa perm (Q : Z → kst F → Prop) :
  vm_wf s G l → is_root G root → 0 <= va < MAXVA → va mod PGSIZE = 0 →
  walk_slot (mem s) root va = Some a → 0 <= pa < 2 ^ 56 → 0 <= perm < 1024 →
  Z.testbit (pte_of (mem s) root va) 0 = false →
  (∀ s', leaf_upd root va (mk_pte pa perm) s G l s' → Q 0 s') →
  wp (mappage root va pa perm) s Q.
Proof.
  intros Hwf Hroot Hva Hal Ha Hpa Hperm HV HQ. unfold mappage.
  rewrite PGROUNDDOWN_aligned by done. apply wp_bind.
  eapply walk_alloc_ok; [done|done|done| |].
  { intros s' G' l' _ _ Hnone. congruence. }
  intros s' G' l' a' _ Ha' _ Hsame. destruct (Hsame a Ha) as (-> & _ & _).
  assert (a' = a) as -> by congruence. clear Hsame.
  destruct (walk_slot_range _ _ _ _ _ _ Hwf Hroot Hva Ha) as (Hlo & Hhi & Hnz).
  rewrite (proj2 (Z.eqb_neq a 0)) by done.
  apply wp_bind. eapply wp_load_slot; [done..|]. rewrite truth_V, HV.
  apply wp_bind. eapply leaf_store; [done..| |].
  { by apply mk_pte_range. }
  intros s2 Hs2. apply wp_ret. by apply HQ.
Qed.

Lemma pte_of_range m root va : 0 <= pte_of m root va < 2 ^ 64.
Proof. unfold pte_of. destruct (walk_slot m root va); [apply load64_range|lia]. Qed.

Lemma pte_of_nonzero m root va : pte_of m root va ≠ 0 → ∃ a, walk_slot m root va = Some a.
Proof. unfold pte_of. destruct (walk_slot m root va); [by eexists|done]. Qed.

Lemma testbit_nonzero v i : Z.testbit v i = true → v ≠ 0.
Proof. intros H ->. by rewrite Z.bits_0 in H. Qed.

(** ** walkaddr *)

(** What [walkaddr] returns. *)
Definition user_pa (m : memory) (root va : Z) : Z :=
  let v := pte_of m root va in
  if (va <? MAXVA) && Z.testbit v 0 && Z.testbit v 4 then PTE2PA v else 0.

Lemma walkaddr_ok s G l root va (Q : Z → kst F → Prop) :
  vm_wf s G l → is_root G root → 0 <= va → Q (user_pa (mem s) root va) s → wp (walkaddr root va) s Q.
Proof.
  intros Hwf Hroot Hva HQ. unfold walkaddr, user_pa in *.
  destruct (Z.leb_spec MAXVA va) as [Hge|Hlt].
  { rewrite (proj2 (Z.ltb_ge _ _)) in HQ by lia. by apply wp_ret. }
  rewrite (proj2 (Z.ltb_lt _ _)) in HQ by lia. simpl in HQ.
  apply wp_bind. eapply walk_noalloc_ok; [done|done|lia|].
  destruct (walk_slot (mem s) root va) as [a|] eqn:Ha; simpl.
  - destruct (walk_slot_range _ _ _ _ _ _ Hwf Hroot (conj Hva Hlt) Ha) as (_ & _ & Hnz).
    rewrite (proj2 (Z.eqb_neq a 0)) by done.
    apply wp_bind. eapply (wp_load_slot s G l root va); [done|done|lia|done|]. rewrite truth_V, truth_U.
    destruct (Z.testbit (pte_of (mem s) root va) 0), (Z.testbit (pte_of (mem s) root va) 4);
      simpl; by apply wp_ret.
  - apply wp_ret. unfold pte_of in HQ. rewrite Ha, Z.bits_0 in HQ. exact HQ.
Qed.

(** C26. Mapping a range and translating: under a paging policy, when [mappages]
    returns 0, [walkaddr] translates every address of the range to the page it
    was mapped to if [perm] has [PTE_U], every other address of every page table
    translates as before, and only free pages were taken; [mappages] returns -1
    only when fewer than two free pages per mapped page were left. *)
Theorem mappages_walkaddr sel s G l root va size pa perm :
  sel ≠ NONE → vm_wf s G l → is_root G root → 0 <= va → 0 < size → va + size <= MAXVA →
  0 <= pa → pa mod PGSIZE = 0 → pa + map_count va size * PGSIZE <= 2 ^ 56 → 0 <= perm < 1024 →
  (∀ va', va / PGSIZE <= va' / PGSIZE < va / PGSIZE + map_count va size →
     Z.testbit (pte_of (mem s) root va') 0 = false) →
  wp (mappages sel root va size pa perm) s (λ r s', ∃ G' l', vm_wf s' G' l' ∧ l' `suffix_of` l ∧
    ((r = -1 ∧ Z.of_nat (length l) < 2 * map_count va size) ∨
     (r = 0 ∧ ∀ root' va', is_root G root' → 0 <= va' < MAXVA →
        let n := va' / PGSIZE - va / PGSIZE in
        wp (walkaddr root' va') s' (λ w s2, s2 = s' ∧
          if decide (root' = root ∧ 0 <= n < map_count va size)
          then w = if Z.testbit perm 4 then pa + n * PGSIZE else 0
          else w = user_pa (mem s) root' va')))).
Proof.
  intros Hsel Hwf Hroot Hva Hsz Hmax Hpa Hal Hpa' Hperm HV.
  replace (mappages (F := F) sel root va size pa perm) with (mappages_not_NONE (F := F) root va size pa perm)
    by (by destruct sel).
  eapply wp_mono; [by eapply mappages_not_NONE_ok|].
  intros r s' (G' & l' & k & Hu & Hr). exists G', l'. split; [apply Hu|]. split; [apply Hu|].
  destruct Hr as [[-> ->]|(-> & _ & Hl)]; [right|by left]. split; [done|].
  intros root' va' Hr' Hva' n. eapply walkaddr_ok; [apply Hu|by eapply upd_root|lia|]. split; [done|].
  unfold user_pa. rewrite (proj2 (Z.ltb_lt va' MAXVA)) by lia.
  rewrite (upd_view _ _ _ _ _ _ _ _ Hu) by done. unfold map_entries.
  repeat case_decide; simpl; try lia; try done.
  replace (va' / PGSIZE - va / PGSIZE) with n by done.
  assert (0 <= pa + n * PGSIZE < 2 ^ 56 ∧ (pa + n * PGSIZE) mod PGSIZE = 0) as [Hb Hb'].
  { unfold PGSIZE in *. split; [nia|]. rewrite Z_mod_plus_full. done. }
  rewrite mk_pte_PA, mk_pte_V by done.
  rewrite mk_pte_eq, testbit_make, Z.lor_spec by (done || lia || by apply perm_V_range).
  change (Z.testbit PTE_V 4) with false. by rewrite orb_false_r.
Qed.

End Walk.
