(* ===== verification/Paging.v ===== *)
(** Paging between RAM and the swap file: [remove_page], [count_pages],
    [swapfile_to_ram], [update_age] of kernel/proc.c and the replacement
    policies, [swap_pages], [exchange_pages] and [swap] of kernel/vm.c.

    A process keeps at most [MAX_PSYC_PAGES] pages in RAM, listed in [p->ram],
    and as many in its swap file, listed in [p->swap]; slot [k] of [p->swap] is
    the page at offset [k * PGSIZE] of the file. *)

From S2P Require Import Prelude Riscv Memory State Kalloc PageTable.

(** ** struct page_data *)

Definition set_pd_offset (v : Z) (d : page_data) : page_data :=
  mk_page_data v (pd_used d) (pd_va d) (pd_age d) (pd_fifo_time d).
Definition set_pd_used (v : Z) (d : page_data) : page_data :=
  mk_page_data (pd_offset d) v (pd_va d) (pd_age d) (pd_fifo_time d).
Definition set_pd_va (v : Z) (d : page_data) : page_data :=
  mk_page_data (pd_offset d) (pd_used d) v (pd_age d) (pd_fifo_time d).
Definition set_pd_age (v : Z) (d : page_data) : page_data :=
  mk_page_data (pd_offset d) (pd_used d) (pd_va d) v (pd_fifo_time d).
Definition set_pd_fifo_time (v : Z) (d : page_data) : page_data :=
  mk_page_data (pd_offset d) (pd_used d) (pd_va d) (pd_age d) v.

Definition remove_page (d : page_data) : page_data :=
  set_pd_fifo_time 0 (set_pd_va (-1) (set_pd_offset (-1) (set_pd_age 0 (set_pd_used 0 d)))).

(** The loops that look for the first record that satisfies a test: its index,
    or -1. *)
Fixpoint find_page (test : page_data → bool) (i : Z) (l : list page_data) : Z :=
  match l with
  | [] => -1
  | d :: l' => if test d then i else find_page test (i + 1) l'
  end.

Section Code.
Context {F : Type} {KI : KImage} {SW : SwapStore F}.

(** [p->ram[i]] and [p->swap[i]] of the current process.  [swap] follows [ram]
    in [struct proc], so an index past the end of [ram] is one of [swap]. *)
Definition ram_get (i : Z) : M (kst F) page_data :=
  p ← myproc;
  if i <? 0 then wild i
  else match (p_ram p ++ p_swap p) !! Z.to_nat i with Some d => mret d | None => wild i end.

Definition put_ram (i : Z) (f : page_data → page_data) (p : proc) : proc :=
  let l := alter f (Z.to_nat i) (p_ram p ++ p_swap p) in
  set_p_swap (drop (Z.to_nat MAX_PSYC_PAGES) l) (set_p_ram (take (Z.to_nat MAX_PSYC_PAGES) l) p).

Definition ram_upd (i : Z) (f : page_data → page_data) : M (kst F) unit :=
  ram_get i;; upd_myproc (put_ram i f).

Definition swap_get (i : Z) : M (kst F) page_data :=
  p ← myproc;
  if i <? 0 then wild i
  else match p_swap p !! Z.to_nat i with Some d => mret d | None => wild i end.

Definition swap_upd (i : Z) (f : page_data → page_data) : M (kst F) unit :=
  swap_get i;; upd_myproc (λ p, set_p_swap (alter f (Z.to_nat i) (p_swap p)) p).

(** [printf] of one line per page in use; what it shows goes to [out]. *)
Fixpoint count_pages (paging_info : list page_data) (flag : bool) : M (kst F) Z :=
  match paging_info with
  | [] => mret 0
  | page :: l =>
      if truth (pd_used page) then
        (if flag
         then (p ← myproc;
               modify (λ s, set_out (out s ++ [(p_pid p, Z.quot (pd_va page) PGSIZE, pd_age page)]) s))
         else mret tt);;
        n ← count_pages l flag; mret (1 + n)
      else count_pages l flag
  end.

Definition readFromSwapFile (p : proc) (buffer placeOnFile size : Z) : M (kst F) Z :=
  match p_swapFile p with
  | None => wild 0
  | Some f => r ← liftF (sw_read f placeOnFile size); writeM buffer r.2;; mret r.1
  end.

Definition writeToSwapFile (p : proc) (buffer placeOnFile size : Z) : M (kst F) Z :=
  match p_swapFile p with
  | None => wild 0
  | Some f => bs ← readM buffer size; liftF (sw_write f placeOnFile bs)
  end.

(** [*pte &= ~flag] and [*pte |= flag]. *)
Definition pte_clear (pte flag : Z) : M (kst F) unit :=
  v ← loadM pte; storeM pte (Z.land v (Z.lnot flag)).
Definition pte_set (pte flag : Z) : M (kst F) unit :=
  v ← loadM pte; storeM pte (Z.lor v flag).

(** [fifo_time = p->fifo_counter++] *)
Definition next_fifo_time : M (kst F) Z :=
  p ← myproc;
  upd_myproc (λ p, set_p_fifo_counter (i32 (p_fifo_counter p + 1)) p);;
  mret (w32 (p_fifo_counter p)).

Definition swapfile_to_ram (sel : selection) (va pte ram_arr_index : Z) : M (kst F) Z :=
  p ← myproc;
  let swap_arr_index := find_page (λ d, w64 (pd_va d) =? va) 0 (p_swap p) in
  if swap_arr_index <? 0 then panic "error: can't find page in swapfile"
  else
    page ← kalloc;
    let off := swap_arr_index * PGSIZE in
    r ← readFromSwapFile p page off PGSIZE;
    if r =? -1 then panic "error when reading from swap file"
    else
      match sel with
      | SCFIFO => t ← next_fifo_time; ram_upd ram_arr_index (set_pd_fifo_time t)
      | NFUA => ram_upd ram_arr_index (set_pd_age 0)
      | LAPA => ram_upd ram_arr_index (set_pd_age 0xFFFFFFFF)
      | NONE => mret tt
      end;;
      ram_upd ram_arr_index (λ d, set_pd_used 1 (set_pd_va (i32 va) (set_pd_offset (-1) d)));;
      r ← mappage (p_pagetable p) va page (Z.lor (Z.lor (Z.lor PTE_W PTE_X) PTE_R) PTE_U);
      (if negb (r =? 0) then kfree page;; panic "mappage error" else mret tt);;
      pte_clear pte PTE_PG;;
      swap_upd swap_arr_index remove_page;;
      mret swap_arr_index.

Definition update_age_body (i : Z) : M (kst F) unit :=
  page ← ram_get i;
  if truth (pd_used page) then
    p ← myproc;
    pte ← walk (p_pagetable p) (w64 (pd_va page)) false;
    v ← loadM pte;
    if negb (truth (Z.land v PTE_U)) then mret tt
    else
      ram_upd i (λ d, set_pd_age (Z.shiftr (pd_age d) 1) d);;
      if truth (Z.land v PTE_A) then
        ram_upd i (λ d, set_pd_age (Z.lor (pd_age d) (Z.shiftl 1 31)) d);;
        pte_clear pte PTE_A
      else mret tt
  else mret tt.

Definition update_age : M (kst F) unit :=
  for_each (seqZ 0 MAX_PSYC_PAGES) update_age_body.

(** ** Page replacement policies *)

Definition NFUA_body (st : Z * Z * bool) (i : Z) : M (kst F) (Z * Z * bool) :=
  let '(age, page_num, first) := st in
  p ← myproc;
  page ← ram_get i;
  pte ← walk (p_pagetable p) (w64 (pd_va page)) false;
  v ← loadM pte;
  if negb (truth (Z.land v PTE_U)) then mret st
  else if first || (pd_age page <? age) then mret (pd_age page, i, false)
  else mret st.

Definition get_NFUA_index : M (kst F) Z :=
  r ← foldM NFUA_body (0, 0, true) (seqZ 0 MAX_PSYC_PAGES);
  mret r.1.2.

(** The [while (idx_mask != 0)] loop of [get_LAPA_index]: [idx_mask] is shifted
    out after 32 iterations. *)
Definition count_ones_body (age : Z) (st : Z * Z) : M (kst F) (Z * Z + Z) :=
  let '(counter, idx_mask) := st in
  if idx_mask =? 0 then mret (inr counter)
  else mret (inl (if truth (Z.land age idx_mask) then counter + 1 else counter,
                  w32 (Z.shiftl idx_mask 1))).

Definition count_ones (age : Z) : M (kst F) Z := loop 33 (count_ones_body age) (0, 1).

Definition LAPA_body (st : Z * Z * bool * Z) (i : Z) : M (kst F) (Z * Z * bool * Z) :=
  let '(age, page_num, first, ones) := st in
  p ← myproc;
  page ← ram_get i;
  pte ← walk (p_pagetable p) (w64 (pd_va page)) false;
  v ← loadM pte;
  if negb (truth (Z.land v PTE_U)) then mret st
  else
    counter ← count_ones (pd_age page);
    if first || (counter <? ones) || ((ones =? counter) && (pd_age page <? age))
    then mret (pd_age page, i, false, counter)
    else mret st.

Definition get_LAPA_index : M (kst F) Z :=
  r ← foldM LAPA_body (0, 0, true, 0) (seqZ 0 MAX_PSYC_PAGES);
  mret r.1.1.2.

Definition SCFIFO_scan (st : Z * Z * bool) (i : Z) : M (kst F) (Z * Z * bool) :=
  let '(time, page_num, first) := st in
  p ← myproc;
  page ← ram_get i;
  pte ← walk (p_pagetable p) (w64 (pd_va page)) false;
  v ← loadM pte;
  if negb (truth (Z.land v PTE_U)) then mret st
  else if first || (pd_fifo_time page <? time) then mret (pd_fifo_time page, i, false)
  else mret st.

(** One round of the [while(!found)] loop.  [first] is 1 at the start of every
    round, so the [time] left by the previous round is not read. *)
Definition SCFIFO_round (time : Z) : M (kst F) (Z + Z) :=
  r ← foldM SCFIFO_scan (time, 0, true) (seqZ 0 MAX_PSYC_PAGES);
  let page_num := r.1.2 in
  p ← myproc;
  page ← ram_get page_num;
  pte ← walk (p_pagetable p) (w64 (pd_va page)) false;
  v ← loadM pte;
  if truth (Z.land v PTE_A) then
    pte_clear pte PTE_A;;
    t ← next_fifo_time;
    ram_upd page_num (set_pd_fifo_time t);;
    mret (inl r.1.1)
  else mret (inr page_num).

(** A round that does not end clears an accessed bit of one of the pages. *)
Definition get_SCFIFO_index : M (kst F) Z :=
  loop (Z.to_nat (MAX_PSYC_PAGES + 2)) SCFIFO_round 0.

(** ** Swapping *)

Definition swap_pages (sel : selection) (va_on_swap va_on_ram in_swap : Z) : M (kst F) Z :=
  p ← myproc;
  pte ← walk (p_pagetable p) (w64 va_on_ram) false;
  v ← loadM pte;
  if negb (truth (Z.land v PTE_U)) then panic "trying to swap a page with a PGE_U bit turned-off"
  else
    let ram_arr_index := find_page (λ d, pd_va d =? va_on_ram) 0 (p_ram p) in
    if ram_arr_index =? -1 then panic "error when trying to locate a page in RAM"
    else
      pte_clear pte PTE_V;;
      ram_upd ram_arr_index remove_page;;
      swap_arr_index ←
        (if in_swap =? 1 then
           pte ← walk (p_pagetable p) (w64 va_on_swap) false;
           swapfile_to_ram sel (w64 va_on_swap) pte ram_arr_index
         else
           p ← myproc;
           let k := find_page (λ d, pd_used d =? 0) 0 (p_swap p) in
           mret (if k =? -1 then 0 else k));
      let off := swap_arr_index * PGSIZE in
      page ← kalloc;
      pte ← walk (p_pagetable p) (w64 va_on_ram) false;
      v ← loadM pte;
      memmoveM page (PTE2PA v) PGSIZE;;
      p ← myproc;
      r ← writeToSwapFile p page off PGSIZE;
      if r =? -1 then panic "error when trying to write to swapfile"
      else
        kfree page;;
        swap_upd swap_arr_index (λ d, set_pd_used 1 (set_pd_offset off (set_pd_va va_on_ram d)));;
        pte_set pte PTE_PG;;
        v ← loadM pte;
        kfree (PTE2PA v);;
        mret ram_arr_index.

Definition exchange_pages (sel : selection) (va_on_swap in_swap : Z) : M (kst F) Z :=
  ram_arr_index ←
    match sel with
    | NFUA => get_NFUA_index
    | LAPA => get_LAPA_index
    | SCFIFO => get_SCFIFO_index
    | NONE => mret 0
    end;
  d ← ram_get ram_arr_index;
  swap_pages sel (i32 va_on_swap) (pd_va d) in_swap.

Definition swap (sel : selection) (va pte : Z) : M (kst F) unit :=
  p ← myproc;
  n ← count_pages (p_ram p) true;
  if n <? MAX_PSYC_PAGES then
    let ram_arr_index := find_page (λ d, pd_used d =? 0) 0 (p_ram p) in
    if ram_arr_index <? 0 then panic "error: too many pages in RAM"
    else swapfile_to_ram sel va pte ram_arr_index;; mret tt
  else
    exchange_pages sel va 1;; mret tt.

End Code.
