(* ===== verification/PagingInv.v ===== *)
(** The paging invariant of a process and the contents of its pages.

    [paging_ok] relates the records of [p->ram] and [p->swap] to the page table,
    the owner map and the swap file; [page_byte] is what the process would read
    at an address if no page were ever swapped out.  The lemmas cover the record
    arrays, the access functions of Paging.v, and the transitions [pstep] that
    leave everything outside a set of virtual pages alone. *)

From S2P Require Import Prelude Riscv Memory State Kalloc PageTable Paging.

(** ** Searching the record arrays *)

Lemma find_page_spec t i l : 0 <= i →
  (find_page t i l = -1 ∧ ∀ n d, l !! n = Some d → t d = false) ∨
  (∃ n d, find_page t i l = i + Z.of_nat n ∧ l !! n = Some d ∧ t d = true ∧
     ∀ m d', (m < n)%nat → l !! m = Some d' → t d' = false).
Proof.
  revert i. induction l as [|d l IH]; intros i Hi; simpl.
  { left. split; [done|]. intros n d. by rewrite lookup_nil. }
  destruct (t d) eqn:Et.
  - right. exists 0%nat, d. split_and!; [lia|done|done|]. intros. lia.
  - destruct (IH (i + 1)) as [[-> H]|(n & d' & -> & Hn & Ht & Hb)]; [lia| |].
    + left. split; [done|]. intros [|n] d'; simpl; [by intros [= <-]|by apply H].
    + right. exists (S n), d'. split_and!; [lia|done|done|].
      intros [|m] d2 Hm; simpl; [by intros [= <-]|apply Hb; lia].
Qed.

(** The search for a record by address, when at most one has it. *)
Lemma find_page_unique t l n d :
  l !! n = Some d → t d = true →
  (∀ n' d', l !! n' = Some d' → t d' = true → n' = n) →
  find_page t 0 l = Z.of_nat n.
Proof.
  intros Hn Ht Hu. destruct (find_page_spec t 0 l) as [[_ H]|(n' & d' & -> & Hn' & Ht' & _)]; [lia| |].
  - by rewrite (H _ _ Hn) in Ht.
  - rewrite (Hu _ _ Hn' Ht'). lia.
Qed.

Lemma find_page_absent t i l :
  0 <= i → (∀ n d, l !! n = Some d → t d = false) → find_page t i l = -1.
Proof.
  intros Hi H. destruct (find_page_spec t i l Hi) as [[-> _]|(n & d & _ & Hn & Ht & _)]; [done|].
  by rewrite (H _ _ Hn) in Ht.
Qed.

Section Inv.
Context {F : Type} {KI : KImage} {KOK : KImageOk KI} {SW : SwapStore F} {SWOK : SwapStoreOk F}.
Implicit Types (s : kst F) (p : proc).

(** ** The running process *)

Definition proc_at s (i : nat) p : Prop := cur s = Some i ∧ procs s !! i = Some p.

Lemma wp_myproc s i p (Q : proc → kst F → Prop) : proc_at s i p → Q p s → wp myproc s Q.
Proof. intros [H1 H2] HQ. unfold wp, myproc. by rewrite H1, H2. Qed.

Lemma proc_at_same s s' i p : same_but_mem s s' → proc_at s i p → proc_at s' i p.
Proof. intros (H1 & H2 & _)%same_but_mem_fields [H3 H4]. split; congruence. Qed.

(** What a step of process [i] leaves alone in the kernel state proper. *)
Record outside (i : nat) s s' : Prop := {
  out_cur : cur s' = cur s;
  out_pid : nextpid s' = nextpid s;
  out_init : initproc s' = initproc s;
  out_stval : stval s' = stval s;
  out_procs : ∀ j, j ≠ i → procs s' !! j = procs s !! j
}.

#[global] Instance outside_preorder i : PreOrder (outside i).
Proof.
  split; [by intros s|]. intros s1 s2 s3 [???? H12] [???? H23]. split; [congruence..|].
  intros j Hj. by rewrite H23, H12.
Qed.

Lemma outside_same i s s' : same_but_mem s s' → outside i s s'.
Proof.
  intros (H1 & H2 & H3 & H4 & H5 & _)%same_but_mem_fields. split; try done.
  intros j _. by rewrite H1.
Qed.

(** An assignment to fields of the running process. *)
Lemma wp_upd_myproc s i p f (Q : unit → kst F → Prop) :
  proc_at s i p →
  (∀ s', mem s' = mem s → freelist s' = freelist s → fs s' = fs s → out s' = out s →
     proc_at s' i (f p) → outside i s s' → Q tt s') →
  wp (upd_myproc f) s Q.
Proof.
  intros [H1 H2] HQ. unfold wp, upd_myproc. rewrite H1, H2. apply HQ; try done.
  - split; [done|]. simpl. apply list_lookup_insert_eq. by eapply lookup_lt_Some.
  - split; try done. intros j Hj. simpl. by apply list_lookup_insert_ne.
Qed.

Lemma wp_ram_get s i p k d (Q : page_data → kst F → Prop) :
  proc_at s i p → p_ram p !! k = Some d → Q d s → wp (ram_get (Z.of_nat k)) s Q.
Proof.
  intros Hp Hd HQ. unfold ram_get. apply wp_bind. eapply wp_myproc; [done|].
  rewrite (proj2 (Z.ltb_ge _ _)), Nat2Z.id, lookup_app_l by (lia || by eapply lookup_lt_Some).
  rewrite Hd. by apply wp_ret.
Qed.

Lemma put_ram_eq p k f d :
  length (p_ram p) = 16%nat → p_ram p !! k = Some d →
  put_ram (Z.of_nat k) f p = set_p_ram (<[k := f d]> (p_ram p)) p.
Proof.
  intros Hlen Hd. unfold put_ram. rewrite Nat2Z.id. change (Z.to_nat MAX_PSYC_PAGES) with 16%nat.
  assert (Hk : (k < length (p_ram p))%nat) by (by eapply lookup_lt_Some).
  assert (Halt : alter f k (p_ram p) = <[k := f d]> (p_ram p)).
  { apply list_eq. intros j. destruct (decide (j = k)) as [->|].
    - rewrite list_lookup_alter_eq, Hd, list_lookup_insert_eq by done. done.
    - by rewrite list_lookup_alter_ne, list_lookup_insert_ne by done. }
  rewrite alter_app_l, Halt by done.
  rewrite take_app_length', drop_app_length' by (by rewrite length_insert). by destruct p.
Qed.

Lemma wp_ram_upd s i p k f d (Q : unit → kst F → Prop) :
  proc_at s i p → length (p_ram p) = 16%nat → p_ram p !! k = Some d →
  (∀ s', mem s' = mem s → freelist s' = freelist s → fs s' = fs s → out s' = out s →
     proc_at s' i (set_p_ram (<[k := f d]> (p_ram p)) p) → outside i s s' → Q tt s') →
  wp (ram_upd (Z.of_nat k) f) s Q.
Proof.
  intros Hp Hlen Hd HQ. unfold ram_upd. apply wp_bind. eapply wp_ram_get; [done|done|].
  eapply wp_upd_myproc; [done|]. intros s' ???? Hp' Hout.
  rewrite (put_ram_eq _ _ _ d) in Hp' by done. by apply HQ.
Qed.

Lemma wp_swap_upd s i p k f d (Q : unit → kst F → Prop) :
  proc_at s i p → p_swap p !! k = Some d →
  (∀ s', mem s' = mem s → freelist s' = freelist s → fs s' = fs s → out s' = out s →
     proc_at s' i (set_p_swap (<[k := f d]> (p_swap p)) p) → outside i s s' → Q tt s') →
  wp (swap_upd (Z.of_nat k) f) s Q.
Proof.
  intros Hp Hd HQ. unfold swap_upd, swap_get. apply wp_bind, wp_bind. eapply wp_myproc; [done|].
  rewrite (proj2 (Z.ltb_ge _ _)), Nat2Z.id, Hd by lia. apply wp_ret.
  eapply wp_upd_myproc; [done|]. intros s' ???? Hp' Hout. apply HQ; try done.
  replace (<[k := f d]> (p_swap p)) with (alter f k (p_swap p)); [done|].
  apply list_eq. intros j. destruct (decide (j = k)) as [->|].
  - rewrite list_lookup_alter_eq, Hd, list_lookup_insert_eq by (by eapply lookup_lt_Some). done.
  - by rewrite list_lookup_alter_ne, list_lookup_insert_ne by done.
Qed.

(** ** The invariant *)

Definition free_pd (d : page_data) : Prop := pd_used d = 0 ∧ pd_va d = -1.

(** Addresses a record can hold: page aligned and within [int]. *)
Definition va_ok (va : Z) : Prop := 0 <= va < 2 ^ 31 ∧ va mod PGSIZE = 0.

(** A record of [p->ram]: the page is mapped, and owned by this address. *)
Record ram_ok (m : memory) (G : gmap Z usage) (root : Z) (d : page_data) : Prop := {
  ram_used : pd_used d = 1;
  ram_va : va_ok (pd_va d);
  ram_V : Z.testbit (pte_of m root (pd_va d)) 0 = true;
  ram_PG : Z.testbit (pte_of m root (pd_va d)) 9 = false;
  ram_own : G !! PTE2PA (pte_of m root (pd_va d)) = Some (UData root (pd_va d))
}.

(** Record [k] of [p->swap]: the entry is invalid and marked [PTE_PG], and the
    file reaches to the end of page [k]. *)
Record swap_ok (m : memory) (root size : Z) (k : nat) (d : page_data) : Prop := {
  swap_used : pd_used d = 1;
  swap_va : va_ok (pd_va d);
  swap_V : Z.testbit (pte_of m root (pd_va d)) 0 = false;
  swap_PG : Z.testbit (pte_of m root (pd_va d)) 9 = true;
  swap_size : (Z.of_nat k + 1) * PGSIZE <= size
}.

Definition in_ram_at p (k : nat) (va : Z) : Prop :=
  ∃ d, p_ram p !! k = Some d ∧ pd_used d = 1 ∧ pd_va d = va.
Definition in_swap_at p (k : nat) (va : Z) : Prop :=
  ∃ d, p_swap p !! k = Some d ∧ pd_used d = 1 ∧ pd_va d = va.

Record paging_ok s (G : gmap Z usage) (l : list Z) (i : nat) p (f : nat) : Prop := {
  pg_vm : vm_wf s G l;
  pg_proc : proc_at s i p;
  pg_root : is_root G (p_pagetable p);
  pg_file : p_swapFile p = Some f;
  pg_valid : sw_valid (fs s) f;
  pg_lram : length (p_ram p) = 16%nat;
  pg_lswap : length (p_swap p) = 16%nat;
  pg_ram : ∀ k d, p_ram p !! k = Some d → free_pd d ∨ ram_ok (mem s) G (p_pagetable p) d;
  pg_swap : ∀ k d, p_swap p !! k = Some d →
    free_pd d ∨ swap_ok (mem s) (p_pagetable p) (sw_size (fs s) f) k d;
  pg_ram_inj : ∀ k k' va, in_ram_at p k va → in_ram_at p k' va → k = k';
  pg_swap_inj : ∀ k k' va, in_swap_at p k va → in_swap_at p k' va → k = k'
}.

(** The byte at offset [j] of the page at [va], wherever the page is. *)
Definition page_byte s p (f : nat) (va j : Z) : option Z :=
  if 0 <=? find_page (λ d, pd_va d =? va) 0 (p_ram p)
  then Some (mget (mem s) (PTE2PA (pte_of (mem s) (p_pagetable p) va) + j))
  else
    let k := find_page (λ d, pd_va d =? va) 0 (p_swap p) in
    if 0 <=? k then Some (sw_byte (fs s) f (k * PGSIZE + j)) else None.

Lemma va_ok_page va va' : va_ok va → va_ok va' → va / PGSIZE = va' / PGSIZE → va = va'.
Proof. intros [_ H] [_ H']. unfold PGSIZE in *. Z.div_mod_to_equations. lia. Qed.

Lemma in_swap_same p p' k va : p_swap p' = p_swap p → in_swap_at p' k va ↔ in_swap_at p k va.
Proof. intros H. unfold in_swap_at. by rewrite H. Qed.

Lemma in_ram_same p p' k va : p_ram p' = p_ram p → in_ram_at p' k va ↔ in_ram_at p k va.
Proof. intros H. unfold in_ram_at. by rewrite H. Qed.

(** ** Where a page is *)

Section Located.
Context s G l i p f (Hok : paging_ok s G l i p f).

Lemma ram_at_ok k va : in_ram_at p k va →
  ∃ d, p_ram p !! k = Some d ∧ pd_va d = va ∧ ram_ok (mem s) G (p_pagetable p) d.
Proof.
  intros (d & Hd & Hu & Hv). exists d. split_and!; [done..|].
  destruct (pg_ram _ _ _ _ _ _ Hok k d Hd) as [[Hf _]|]; [congruence|done].
Qed.

Lemma swap_at_ok k va : in_swap_at p k va →
  ∃ d, p_swap p !! k = Some d ∧ pd_va d = va ∧
       swap_ok (mem s) (p_pagetable p) (sw_size (fs s) f) k d.
Proof.
  intros (d & Hd & Hu & Hv). exists d. split_and!; [done..|].
  destruct (pg_swap _ _ _ _ _ _ Hok k d Hd) as [[Hf _]|]; [congruence|done].
Qed.

Lemma ram_rec_at k d va : p_ram p !! k = Some d → pd_va d = va → 0 <= va → in_ram_at p k va.
Proof.
  intros Hd Hv Hpos. destruct (pg_ram _ _ _ _ _ _ Hok k d Hd) as [[_ Hf]|[? _ _ _ _]]; [lia|].
  by exists d.
Qed.

Lemma swap_rec_at k d va : p_swap p !! k = Some d → pd_va d = va → 0 <= va → in_swap_at p k va.
Proof.
  intros Hd Hv Hpos. destruct (pg_swap _ _ _ _ _ _ Hok k d Hd) as [[_ Hf]|[? _ _ _ _]]; [lia|].
  by exists d.
Qed.

Lemma ram_not_swap k k' va : in_ram_at p k va → in_swap_at p k' va → False.
Proof.
  intros (d & _ & Hv & [_ _ H1 _ _])%ram_at_ok (d' & _ & Hv' & [_ _ H2 _ _])%swap_at_ok. congruence.
Qed.

Lemma find_ram k va : in_ram_at p k va →
  find_page (λ d, pd_va d =? va) 0 (p_ram p) = Z.of_nat k.
Proof.
  intros H. destruct (ram_at_ok _ _ H) as (d & Hd & Hv & [_ [Hr _] _ _ _]).
  eapply find_page_unique; [done|by apply Z.eqb_eq|].
  intros n' d' Hd' ?%Z.eqb_eq. eapply pg_ram_inj; [done| |done].
  eapply ram_rec_at; [done|done|lia].
Qed.

Lemma find_swap k va : in_swap_at p k va →
  find_page (λ d, pd_va d =? va) 0 (p_swap p) = Z.of_nat k.
Proof.
  intros H. destruct (swap_at_ok _ _ H) as (d & Hd & Hv & [_ [Hr _] _ _ _]).
  eapply find_page_unique; [done|by apply Z.eqb_eq|].
  intros n' d' Hd' ?%Z.eqb_eq. eapply pg_swap_inj; [done| |done].
  eapply swap_rec_at; [done|done|lia].
Qed.

Lemma find_no_ram va : 0 <= va → (∀ k, ¬ in_ram_at p k va) →
  find_page (λ d, pd_va d =? va) 0 (p_ram p) = -1.
Proof.
  intros Hva Hn. apply find_page_absent; [done|]. intros n d Hd. apply Z.eqb_neq. intros Hv.
  eapply Hn, ram_rec_at; done.
Qed.

Lemma find_no_swap va : 0 <= va → (∀ k, ¬ in_swap_at p k va) →
  find_page (λ d, pd_va d =? va) 0 (p_swap p) = -1.
Proof.
  intros Hva Hn. apply find_page_absent; [done|]. intros n d Hd. apply Z.eqb_neq. intros Hv.
  eapply Hn, swap_rec_at; done.
Qed.

Lemma page_byte_ram k va j : in_ram_at p k va →
  page_byte s p f va j = Some (mget (mem s) (PTE2PA (pte_of (mem s) (p_pagetable p) va) + j)).
Proof.
  intros H. unfold page_byte. rewrite (find_ram _ _ H), (proj2 (Z.leb_le _ _)) by lia. done.
Qed.

Lemma page_byte_swap k va j : in_swap_at p k va →
  page_byte s p f va j = Some (sw_byte (fs s) f (Z.of_nat k * PGSIZE + j)).
Proof.
  intros H. destruct (swap_at_ok _ _ H) as (d & Hd & Hv & [_ [Hr _] _ _ _]). unfold page_byte.
  rewrite find_no_ram; [|lia|intros k' H'; by eapply ram_not_swap].
  rewrite (find_swap _ _ H), (proj2 (Z.leb_le _ (Z.of_nat k))) by lia. done.
Qed.

Lemma page_byte_none va j :
  0 <= va → (∀ k, ¬ in_ram_at p k va) → (∀ k, ¬ in_swap_at p k va) →
  page_byte s p f va j = None.
Proof.
  intros Hva H1 H2. unfold page_byte. by rewrite find_no_ram, find_no_swap.
Qed.

Lemma locate va : 0 <= va →
  (∃ k, in_ram_at p k va) ∨ (∃ k, in_swap_at p k va) ∨
  ((∀ k, ¬ in_ram_at p k va) ∧ (∀ k, ¬ in_swap_at p k va)).
Proof.
  intros Hva.
  destruct (find_page_spec (λ d, pd_va d =? va) 0 (p_ram p)) as [[_ H]|(n & d & _ & Hn & ?%Z.eqb_eq & _)];
    [lia| |left; exists n; by eapply ram_rec_at].
  destruct (find_page_spec (λ d, pd_va d =? va) 0 (p_swap p)) as [[_ H']|(n & d & _ & Hn & ?%Z.eqb_eq & _)];
    [lia| |right; left; exists n; by eapply swap_rec_at].
  right; right. split; intros k (d & Hd & _ & Hv).
  - apply H in Hd. apply Z.eqb_neq in Hd. done.
  - apply H' in Hd. apply Z.eqb_neq in Hd. done.
Qed.

(** Different records are about different virtual pages. *)
Lemma ram_apart r k va va' :
  in_ram_at p r va → k ≠ r → in_ram_at p k va' → va' / PGSIZE ≠ va / PGSIZE.
Proof.
  intros H1 Hne H2 Heq. destruct (ram_at_ok _ _ H1) as (d1 & _ & <- & [_ Hv1 _ _ _]).
  destruct (ram_at_ok _ _ H2) as (d2 & _ & <- & [_ Hv2 _ _ _]).
  apply va_ok_page in Heq; [|done..]. rewrite Heq in H2. apply Hne. by eapply pg_ram_inj.
Qed.

Lemma swap_apart r k va va' :
  in_swap_at p r va → k ≠ r → in_swap_at p k va' → va' / PGSIZE ≠ va / PGSIZE.
Proof.
  intros H1 Hne H2 Heq. destruct (swap_at_ok _ _ H1) as (d1 & _ & <- & [_ Hv1 _ _ _]).
  destruct (swap_at_ok _ _ H2) as (d2 & _ & <- & [_ Hv2 _ _ _]).
  apply va_ok_page in Heq; [|done..]. rewrite Heq in H2. apply Hne. by eapply pg_swap_inj.
Qed.

Lemma ram_swap_apart r k va va' :
  in_ram_at p r va → in_swap_at p k va' → va' / PGSIZE ≠ va / PGSIZE.
Proof.
  intros H1 H2 Heq. destruct (ram_at_ok _ _ H1) as (d1 & _ & <- & [_ Hv1 _ _ _]).
  destruct (swap_at_ok _ _ H2) as (d2 & _ & <- & [_ Hv2 _ _ _]).
  apply va_ok_page in Heq; [|done..]. rewrite Heq in H2. by eapply ram_not_swap.
Qed.

(** There is no record 16. *)
Lemma no_ram_16 va : ¬ in_ram_at p 16 va.
Proof. intros (d & Hd%lookup_lt_Some & _). rewrite (pg_lram _ _ _ _ _ _ Hok) in Hd. lia. Qed.

Lemma no_swap_16 va : ¬ in_swap_at p 16 va.
Proof. intros (d & Hd%lookup_lt_Some & _). rewrite (pg_lswap _ _ _ _ _ _ Hok) in Hd. lia. Qed.

(** The free slot the search for a new place in the file finds does not leave a
    hole in the file. *)
Lemma first_free_size k d :
  p_swap p !! k = Some d →
  (∀ m d', (m < k)%nat → p_swap p !! m = Some d' → (pd_used d' =? 0) = false) →
  0 <= sw_size (fs s) f → Z.of_nat k * PGSIZE <= sw_size (fs s) f.
Proof.
  intros Hd Hb Hsz. destruct k as [|k]; [lia|].
  destruct (lookup_lt_is_Some_2 (p_swap p) k) as [d' Hd'].
  { apply lookup_lt_Some in Hd. lia. }
  destruct (pg_swap _ _ _ _ _ _ Hok k d' Hd') as [[Hu _]|[_ _ _ _ Hs]].
  - apply Hb in Hd'; [|lia]. by rewrite Hu in Hd'.
  - unfold PGSIZE in *. lia.
Qed.

End Located.

End Inv.
