(* ===== verification/Swap.v ===== *)
(** Correctness of paging: [swapfile_to_ram], [swap_pages], [swap] and the page
    fault handler preserve the paging invariant and the contents of every page
    of the process, and touch nothing else. *)

From S2P Require Import Prelude Riscv Memory State Kalloc PageTable Paging PagingInv.

Section Swap.
Context {F : Type} {KI : KImage} {KOK : KImageOk KI} {SW : SwapStore F} {SWOK : SwapStoreOk F}.
Implicit Types (s : kst F) (p : proc).

(** ** What a paging step leaves alone *)

(** File contents seen by the other files, and by all files. *)
Definition files_same (P : nat → Prop) (a b : F) : Prop :=
  ∀ g, P g → sw_valid a g →
    sw_valid b g ∧ sw_size b g = sw_size a g ∧ ∀ k, sw_byte b g k = sw_byte a g k.

(** A step of process [i] on the virtual pages [T] of [root] and on file [f]:
    all other entries, pages and files are as before. *)
Record pstep (i : nat) (root : Z) (f : nat) (T : Z → Prop)
    s (G : gmap Z usage) s' (G' : gmap Z usage) : Prop := {
  ps_out : outside i s s';
  ps_root : ∀ r, is_root G r → is_root G' r;
  ps_view : ∀ r va, is_root G r → 0 <= va < MAXVA → r ≠ root ∨ ¬ T (va / PGSIZE) →
    pte_of (mem s') r va = pte_of (mem s) r va;
  ps_data : ∀ q u, G !! q = Some u → is_data u →
    (∀ va, u = UData root va → ¬ T (va / PGSIZE)) →
    G' !! q = Some u ∧ agree_on q (mem s) (mem s');
  ps_files : files_same (λ g, g ≠ f) (fs s) (fs s')
}.

Lemma files_same_refl P a : files_same P a a.
Proof. by intros g. Qed.

Lemma files_same_trans P a b c : files_same P a b → files_same P b c → files_same P a c.
Proof.
  intros H1 H2 g Hg Hv. destruct (H1 g Hg Hv) as (Hv1 & Hs1 & Hb1).
  destruct (H2 g Hg Hv1) as (Hv2 & Hs2 & Hb2). split_and!; [done|congruence|].
  intros k. by rewrite Hb2.
Qed.

Lemma files_same_weaken (P P' : nat → Prop) a b :
  files_same P a b → (∀ g, P' g → P g) → files_same P' a b.
Proof. intros H HP g Hg. by apply H, HP. Qed.

Lemma pstep_trans i root f T s1 G1 s2 G2 s3 G3 :
  pstep i root f T s1 G1 s2 G2 → pstep i root f T s2 G2 s3 G3 → pstep i root f T s1 G1 s3 G3.
Proof.
  intros H12 H23. split.
  - etrans; [apply H12|apply H23].
  - intros r Hr. by apply H23, H12.
  - intros r va Hr Hva HT. rewrite (ps_view _ _ _ _ _ _ _ _ H23) by (done || by apply H12).
    by apply H12.
  - intros q u Hq Hu HT. destruct (ps_data _ _ _ _ _ _ _ _ H12 q u Hq Hu HT) as [Hq2 Ha].
    destruct (ps_data _ _ _ _ _ _ _ _ H23 q u Hq2 Hu HT) as [Hq3 Ha'].
    split; [done|]. by eapply agree_on_trans.
  - eapply files_same_trans; [apply H12|apply H23].
Qed.

Lemma pstep_weaken i root f (T T' : Z → Prop) s G s' G' :
  pstep i root f T s G s' G' → (∀ v, T v → T' v) → pstep i root f T' s G s' G'.
Proof.
  intros [] HT. split; [done|done| | |done].
  - intros r va Hr Hva H. apply ps_view0; [done|done|]. destruct H; [by left|right; auto].
  - intros q u Hq Hu H. apply ps_data0; [done|done|]. intros va ->. intros ?%HT. by eapply H.
Qed.

(** Steps that only change process records, the output or the file system. *)
Lemma pstep_mem i root f T s G s' :
  mem s' = mem s → outside i s s' → files_same (λ g, g ≠ f) (fs s) (fs s') →
  pstep i root f T s G s' G.
Proof.
  intros Hm Hout Hf. split; [done|done| | |done].
  - intros. by rewrite Hm.
  - intros. rewrite Hm. split; [done|apply agree_on_refl].
Qed.

Lemma pstep_leaf i root f va v s G l s' :
  leaf_upd root va v s G l s' → pstep i root f (λ n, n = va / PGSIZE) s G s' G.
Proof.
  intros [H1 H2 H3 H4 H5]. split.
  - by apply outside_same.
  - done.
  - intros r va' Hr Hva Hne. rewrite H4 by done. case_decide; naive_solver.
  - intros q u Hq Hu _. split; [done|]. by eapply H5.
  - apply same_but_mem_fields in H2 as (_&_&_&_&_&_&->). apply files_same_refl.
Qed.

(** A step that changes the memory of page [pg] only and its role to [u']. *)
Lemma pstep_page i root f T s G l s' pg u u' :
  vm_wf s G l → outside i s s' → files_same (λ g, g ≠ f) (fs s) (fs s') →
  agree_but pg G (mem s) (mem s') → pt_agree G (mem s) (mem s') →
  G !! pg = Some u →
  (is_data u → ∃ va, u = UData root va ∧ T (va / PGSIZE)) →
  (∀ r, u ≠ UPt r 2 0) →
  pstep i root f T s G s' (<[pg := u']> G).
Proof.
  intros Hwf Hout Hf Hbut Hpt Hpg HT Hnr. split.
  - done.
  - intros r Hr. unfold is_root. rewrite lookup_insert_ne; [done|].
    intros ->. unfold is_root in Hr. rewrite Hpg in Hr. injection Hr as ->. by eapply Hnr.
  - intros r va Hr Hva _. by eapply pte_of_agree.
  - intros q v Hq Hv Hn. assert (q ≠ pg) as Hne.
    { intros ->. rewrite Hpg in Hq. injection Hq as <-. destruct (HT Hv) as (va & -> & H).
      by eapply Hn. }
    split; [by rewrite lookup_insert_ne|]. by eapply Hbut.
  - done.
Qed.

(** ** Reading a page of the file into a new page of memory *)

Lemma files_same_mem s s' P : same_but_mem s s' → files_same P (fs s) (fs s').
Proof. intros (_&_&_&_&_&_&->)%same_but_mem_fields. apply files_same_refl. Qed.

Lemma load_page_ok s G l i p f k root va {A} (K : Z → Z → M (kst F) A) Q :
  vm_wf s G l → proc_at s i p → p_swapFile p = Some f → sw_valid (fs s) f →
  (Z.of_nat k + 1) * PGSIZE <= sw_size (fs s) f → l ≠ [] →
  (∀ pg l' s', l = pg :: l' → G !! pg = Some UFree → page_ok pg → proc_at s' i p →
     vm_wf s' (<[pg := UData root va]> G) l' →
     pstep i root f (λ _, False) s G s' (<[pg := UData root va]> G) →
     files_same (λ _, True) (fs s) (fs s') → out s' = out s →
     (∀ r va', is_root G r → walk_slot (mem s') r va' = walk_slot (mem s) r va') →
     (∀ j, 0 <= j < PGSIZE → mget (mem s') (pg + j) = sw_byte (fs s) f (Z.of_nat k * PGSIZE + j)) →
     wp (K pg PGSIZE) s' Q) →
  wp (page ← kalloc; r ← readFromSwapFile p page (Z.of_nat k * PGSIZE) PGSIZE; K page r) s Q.
Proof.
  intros Hwf Hp Hf Hv Hsz Hl HK. apply wp_bind. eapply vm_kalloc_ok; [done|done|].
  intros pg l' s1 Hl' Hfree Hok Hsm1 Hwf1 Hbut1 Hpt1. apply wp_bind.
  unfold readFromSwapFile. rewrite Hf. apply wp_bind, wp_liftF.
  pose proof (page_ok_end pg Hok) as Hend. pose proof Hok as [_ [Hlo _]].
  assert (Hfs1 : fs s1 = fs s) by apply (same_but_mem_fields _ _ Hsm1).
  rewrite Hfs1. eapply wp_mono; [apply (sw_read_ok _ f); [done|unfold PGSIZE in *; lia..]|].
  intros [r bs0] fs2 (-> & -> & Hfs2). cbn [fst snd] in *.
  set (bs := (λ i0, sw_byte (fs s) f (Z.of_nat k * PGSIZE + i0)) <$> seqZ 0 PGSIZE).
  assert (Hlen : length bs = Z.to_nat PGSIZE) by (unfold bs; by rewrite length_fmap, length_seqZ).
  assert (Hlen' : Z.of_nat (length bs) = PGSIZE) by (rewrite Hlen; done).
  apply wp_bind, wp_writeM; [done|lia| |].
  { apply list.Forall_forall. intros b (n & -> & _)%list_elem_of_fmap. apply sw_byte_range. }
  intros m' Hrd Hoff. rewrite Hlen' in Hoff. apply wp_ret. simpl in Hoff.
  assert (Hpg1 : (<[pg := UOther]> G) !! pg = Some UOther) by apply lookup_insert_eq.
  destruct (vm_wf_data s1 (set_mem m' (set_fs fs2 s1)) _ l' pg UOther Hwf1 eq_refl Hpg1 I Hoff)
    as (Hwf2 & _ & Hbut2).
  assert (Hbut : agree_but pg G (mem s) m').
  { intros q u Hq Hne. eapply agree_on_trans; [by eapply Hbut1|].
    eapply (Hbut2 q u); [|done]. by rewrite lookup_insert_ne. }
  assert (Hpt : pt_agree G (mem s) m').
  { eapply agree_but_pt; [done|done|]. by intros (?&?&?&?). }
  assert (Hall : files_same (λ _, True) (fs s) fs2) by (intros g _; apply Hfs2).
  assert (Hout : outside i s (set_mem m' (set_fs fs2 s1))).
  { etrans; [by apply outside_same|]. by split. }
  eapply HK; [done|done|done| | | |done| | |].
  - destruct (proc_at_same _ _ _ _ Hsm1 Hp). by split.
  - replace (<[pg:=UData root va]> G) with (<[pg:=UData root va]> (<[pg:=UOther]> G))
      by apply insert_insert_eq.
    by eapply vm_relabel.
  - eapply pstep_page; [exact Hwf|exact Hout| |exact Hbut|exact Hpt|exact Hfree|intros []|congruence].
    by eapply files_same_weaken.
  - simpl. apply (same_but_mem_fields _ _ Hsm1).
  - intros r' va' Hr. simpl. by eapply walk_slot_agree.
  - intros j Hj. simpl. assert (Hlk : bs !! Z.to_nat j = Some (mget m' (pg + j))).
    { rewrite <- Hrd, lookup_read_bytes by lia. by rewrite Z2Nat.id by lia. }
    unfold bs in Hlk. rewrite list_lookup_fmap, lookup_seqZ_lt in Hlk by lia.
    simpl in Hlk. injection Hlk as Hlk. rewrite <- Hlk. do 2 f_equal; lia.
Qed.

(** ** swapfile_to_ram *)

(** The record [swapfile_to_ram] writes over [d], and the process afterwards. *)
Definition new_pd (sel : selection) p (va : Z) (d : page_data) : page_data :=
  set_pd_used 1 (set_pd_va va (set_pd_offset (-1)
    match sel with
    | SCFIFO => set_pd_fifo_time (w32 (p_fifo_counter p)) d
    | NFUA => set_pd_age 0 d
    | LAPA => set_pd_age 0xFFFFFFFF d
    | NONE => d
    end)).

Definition fresh_counter (sel : selection) p : Z :=
  match sel with SCFIFO => i32 (p_fifo_counter p + 1) | _ => p_fifo_counter p end.

Definition enter_ram (sel : selection) (va : Z) (r : nat) (d : page_data) p : proc :=
  set_p_fifo_counter (fresh_counter sel p) (set_p_ram (<[r := new_pd sel p va d]> (p_ram p)) p).

Lemma enter_ram_ok sel s i p r d va (Q : unit → kst F → Prop) :
  proc_at s i p → length (p_ram p) = 16%nat → p_ram p !! r = Some d → va_ok va →
  (∀ s', mem s' = mem s → freelist s' = freelist s → fs s' = fs s → out s' = out s →
     proc_at s' i (enter_ram sel va r d p) → outside i s s' → Q tt s') →
  wp (match sel with
      | SCFIFO => t ← next_fifo_time; ram_upd (Z.of_nat r) (set_pd_fifo_time t)
      | NFUA => ram_upd (Z.of_nat r) (set_pd_age 0)
      | LAPA => ram_upd (Z.of_nat r) (set_pd_age 0xFFFFFFFF)
      | NONE => mret tt
      end;;
      ram_upd (Z.of_nat r) (λ d, set_pd_used 1 (set_pd_va (i32 va) (set_pd_offset (-1) d)))) s Q.
Proof.
  intros Hp Hlen Hd Hva HQ.
  assert (Hi : i32 va = va) by (unfold i32; destruct Hva; rewrite Z.mod_small; lia).
  assert (Hr : (r < length (p_ram p))%nat) by (by eapply lookup_lt_Some).
  apply wp_bind.
  assert (Hpol : ∀ s1 p1 d1, mem s1 = mem s → freelist s1 = freelist s → fs s1 = fs s →
    out s1 = out s → outside i s s1 → proc_at s1 i p1 → p_ram p1 = <[r := d1]> (p_ram p) →
    set_p_ram (<[r := set_pd_used 1 (set_pd_va va (set_pd_offset (-1) d1))]> (p_ram p)) p1 =
      enter_ram sel va r d p →
    wp (ram_upd (Z.of_nat r) (λ d, set_pd_used 1 (set_pd_va (i32 va) (set_pd_offset (-1) d)))) s1 Q).
  { intros s1 p1 d1 Hm Hfl Hfs Hou Hout Hp1 Hram Heq.
    eapply (wp_ram_upd s1 i p1 r _ d1); [done| | |].
    - by rewrite Hram, length_insert.
    - by rewrite Hram, list_lookup_insert_eq.
    - intros s2 Hm2 Hfl2 Hfs2 Hou2 Hp2 Hout2. rewrite Hi, Hram, list_insert_insert_eq, Heq in Hp2.
      apply HQ; [congruence..|done|]. by etrans. }
  destruct sel.
  - apply wp_ret. apply (Hpol s p d); try done. by rewrite list_insert_id.
  - unfold next_fifo_time. apply wp_bind, wp_bind. eapply wp_myproc; [done|].
    apply wp_bind. eapply wp_upd_myproc; [done|]. intros s1 Hm Hfl Hfs Hou Hp1 Hout. apply wp_ret.
    eapply (wp_ram_upd s1 i _ r _ d); [done|done|done|]. intros s2 Hm2 Hfl2 Hfs2 Hou2 Hp2 Hout2.
    eapply Hpol; [congruence..|by etrans|done|reflexivity|by destruct p].
  - eapply (wp_ram_upd s i p r _ d); [done..|]. intros s2 Hm2 Hfl2 Hfs2 Hou2 Hp2 Hout2.
    eapply Hpol; [congruence..|done|done|reflexivity|by destruct p].
  - eapply (wp_ram_upd s i p r _ d); [done..|]. intros s2 Hm2 Hfl2 Hfs2 Hou2 Hp2 Hout2.
    eapply Hpol; [congruence..|done|done|reflexivity|by destruct p].
Qed.

(** The entry of a page just brought in. *)
Definition user_perm : Z := Z.lor (Z.lor (Z.lor PTE_W PTE_X) PTE_R) PTE_U.
Definition in_pte (pg : Z) : Z := Z.land (mk_pte pg user_perm) (Z.lnot PTE_PG).

Lemma user_perm_range : 0 <= user_perm < 1024.
Proof. flags. Qed.

Lemma in_pte_facts pg : page_ok pg →
  PTE2PA (in_pte pg) = pg ∧ Z.testbit (in_pte pg) 0 = true ∧ Z.testbit (in_pte pg) 9 = false ∧
  Z.testbit (in_pte pg) 4 = true ∧ 0 <= in_pte pg < 2 ^ 64.
Proof.
  intros Hok. pose proof (page_ok_pos pg Hok) as Hpos. destruct Hok as [Hal _].
  pose proof user_perm_range as Hup. unfold in_pte, PTE_PG.
  rewrite PTE2PA_clear by lia. rewrite mk_pte_PA by (done || lia).
  rewrite !testbit_clear by lia. rewrite mk_pte_eq. rewrite !testbit_make by (lia || apply perm_V_range, Hup).
  do 4 (split; [reflexivity|]). apply clear_range. rewrite <- mk_pte_eq. apply mk_pte_range; lia.
Qed.

Definition swapped_in (sel : selection) (va : Z) (r k : nat) (d dk : page_data) p : proc :=
  let p1 := enter_ram sel va r d p in set_p_swap (<[k := remove_page dk]> (p_swap p1)) p1.

(** What bringing the page at [va] from slot [k] of the file into record [r]
    and page [pg] does to the machine. *)
Record swap_in (sel : selection) (i : nat) (f : nat) p (va : Z) (r k : nat) (d dk : page_data)
    (pg : Z) s (G : gmap Z usage) s' (l' : list Z) : Prop := {
  si_wf : vm_wf s' (<[pg := UData (p_pagetable p) va]> G) l';
  si_proc : proc_at s' i (swapped_in sel va r k d dk p);
  si_step : pstep i (p_pagetable p) f (λ n, n = va / PGSIZE) s G s'
              (<[pg := UData (p_pagetable p) va]> G);
  si_files : files_same (λ _, True) (fs s) (fs s');
  si_out : out s' = out s;
  si_pte : pte_of (mem s') (p_pagetable p) va = in_pte pg;
  si_byte : ∀ j, 0 <= j < PGSIZE →
    mget (mem s') (pg + j) = sw_byte (fs s) f (Z.of_nat k * PGSIZE + j);
  si_free : G !! pg = Some UFree;
  si_page : page_ok pg
}.

Lemma va_ok_max va : va_ok va → 0 <= va < MAXVA.
Proof. intros [H _]. rewrite MAXVA_eq. lia. Qed.

Lemma va_ok_w64 va : va_ok va → w64 va = va.
Proof. intros [H _]. apply Z.mod_small. lia. Qed.

Lemma find_swap_w64 s G l i p f k va :
  paging_ok s G l i p f → in_swap_at p k va →
  find_page (λ d, w64 (pd_va d) =? va) 0 (p_swap p) = Z.of_nat k.
Proof.
  intros Hok H. destruct (swap_at_ok _ _ _ _ _ _ Hok _ _ H) as (d & Hd & Hv & [_ Hvo _ _ _]).
  rewrite Hv in Hvo. eapply find_page_unique; [done|rewrite Hv, va_ok_w64 by done; apply Z.eqb_refl|].
  intros n' d' Hd' Heq%Z.eqb_eq. eapply pg_swap_inj; [done| |done].
  destruct (pg_swap _ _ _ _ _ _ Hok n' d' Hd') as [[_ Hf]|[? Hvo' _ _ _]].
  - rewrite Hf in Heq. destruct Hvo as [Hr _]. change (w64 (-1)) with (2 ^ 64 - 1) in Heq. lia.
  - rewrite va_ok_w64 in Heq by done. by exists d'.
Qed.

Lemma wp_pte_clear s G l root va a n (Q : unit → kst F → Prop) :
  vm_wf s G l → is_root G root → 0 <= va < MAXVA → walk_slot (mem s) root va = Some a →
  (∀ s', leaf_upd root va (Z.land (pte_of (mem s) root va) (Z.lnot n)) s G l s' → Q tt s') →
  wp (pte_clear a n) s Q.
Proof.
  intros Hwf Hroot Hva Ha HQ. unfold pte_clear. apply wp_bind.
  eapply wp_load_slot; [done..|]. eapply leaf_store; [done..| |exact HQ].
  apply clear_range, pte_of_range.
Qed.

Lemma swapfile_to_ram_in sel s G l i p f va a r k d dk (Q : Z → kst F → Prop) :
  paging_ok s G l i p f → p_ram p !! r = Some d → p_swap p !! k = Some dk →
  pd_used dk = 1 → pd_va dk = va → walk_slot (mem s) (p_pagetable p) va = Some a → l ≠ [] →
  (∀ pg l' s', l = pg :: l' → swap_in sel i f p va r k d dk pg s G s' l' → Q (Z.of_nat k) s') →
  wp (swapfile_to_ram sel va a (Z.of_nat r)) s Q.
Proof.
  intros Hok Hd Hdk Hu Hv Ha Hl HQ. pose proof Hok as [Hwf Hp Hroot Hf Hvalid Hlr _ _ Hsw _ _].
  destruct (Hsw k dk Hdk) as [[? _]|[_ Hvo HV _ Hsz]]; [congruence|].
  rewrite Hv in Hvo, HV. pose proof (va_ok_max va Hvo) as Hmax.
  unfold swapfile_to_ram. apply wp_bind. eapply wp_myproc; [done|]. cbv zeta.
  rewrite (find_swap_w64 _ _ _ _ _ _ k va Hok) by (by exists dk).
  rewrite (proj2 (Z.ltb_ge _ 0)) by lia.
  apply (load_page_ok s G l i p f k (p_pagetable p) va); [done..|].
  intros pg l' s1 Hl' Hfree Hpg Hp1 Hwf1 Hst1 Hfs1 Hou1 Hslot1 Hby1. cbn [Z.eqb PGSIZE].
  apply wp_bind_assoc, wp_bind. apply (enter_ram_ok sel s1 i p r d va); [done..|].
  intros s2 Hm2 Hfl2 Hfs2 Hou2 Hp2 Hout2.
  set (G1 := <[pg := UData (p_pagetable p) va]> G) in *.
  assert (Hwf2 : vm_wf s2 G1 l') by (by eapply vm_wf_ext).
  assert (Hroot1 : is_root G1 (p_pagetable p)) by (by eapply Hst1).
  assert (Ha2 : walk_slot (mem s2) (p_pagetable p) va = Some a) by (rewrite Hm2, Hslot1; done).
  pose proof (page_ok_pos pg Hpg) as Hpos.
  apply wp_bind. eapply (mappage_present s2 G1 l' (p_pagetable p) va a pg user_perm);
    [done|done|done|apply Hvo|done|lia|apply user_perm_range| |].
  { rewrite Hm2, (ps_view _ _ _ _ _ _ _ _ Hst1) by (done || by right; intros []). done. }
  intros s3 Hs3. apply wp_bind, wp_ret. apply wp_bind.
  pose proof (leaf_wf _ _ _ _ _ _ _ Hs3) as Hwf3.
  eapply wp_pte_clear; [done|done|done|by rewrite (leaf_slot _ _ _ _ _ _ _ Hs3)|].
  intros s4 Hs4. pose proof (leaf_wf _ _ _ _ _ _ _ Hs4) as Hwf4.
  rewrite (leaf_view _ _ _ _ _ _ _ Hs3), decide_True in Hs4 by done. fold (in_pte pg) in Hs4.
  apply wp_bind. eapply (wp_swap_upd s4 i _ k _ dk); [| |].
  { eapply proc_at_same; [apply Hs4|]. eapply proc_at_same; [apply Hs3|]. exact Hp2. }
  { done. }
  intros s5 Hm5 Hfl5 Hfs5 Hou5 Hp5 Hout5. apply wp_ret. eapply HQ; [done|].
  assert (Hst4 : pstep i (p_pagetable p) f (λ n, n = va / PGSIZE) s2 G1 s4 G1).
  { eapply pstep_trans; by eapply pstep_leaf. }
  assert (Hf4 : fs s4 = fs s2).
  { destruct (same_but_mem_fields _ _ (leaf_same _ _ _ _ _ _ _ Hs3)) as (_&_&_&_&_&_&<-).
    apply (same_but_mem_fields _ _ (leaf_same _ _ _ _ _ _ _ Hs4)). }
  split; [by eapply vm_wf_ext|done| | | | | |done|done].
  - eapply pstep_trans; [eapply pstep_weaken; [exact Hst1|done]|].
    eapply pstep_trans; [eapply (pstep_mem _ _ _ _ s1 _ s2); [done|done|by rewrite Hfs2; apply files_same_refl]|].
    eapply pstep_trans; [exact Hst4|].
    eapply pstep_mem; [done|done|by rewrite Hfs5; apply files_same_refl].
  - by rewrite Hfs5, Hf4, Hfs2.
  - rewrite Hou5. destruct (same_but_mem_fields _ _ (leaf_same _ _ _ _ _ _ _ Hs4)) as (_&_&_&_&_&->&_).
    destruct (same_but_mem_fields _ _ (leaf_same _ _ _ _ _ _ _ Hs3)) as (_&_&_&_&_&->&_). congruence.
  - rewrite Hm5, (leaf_view _ _ _ _ _ _ _ Hs4), decide_True by done. done.
  - intros j Hj. rewrite <- Hby1 by done. rewrite Hm5.
    assert (Hown : G1 !! pg = Some (UData (p_pagetable p) va)) by apply lookup_insert_eq.
    rewrite (leaf_data _ _ _ _ _ _ _ Hs4 pg _ Hown I), (leaf_data _ _ _ _ _ _ _ Hs3 pg _ Hown I) by lia.
    by rewrite Hm2.
Qed.

(** ** Changing one record of each array

    Every step of swapping rewrites at most one record [r] of [p->ram] and one
    record [k] of [p->swap]; the invariant and the contents of the pages of all
    other records carry over. *)

Lemma in_ram_insert p p' r d' k va :
  p_ram p' = <[r := d']> (p_ram p) → in_ram_at p' k va →
  (k = r ∧ pd_used d' = 1 ∧ pd_va d' = va) ∨ (k ≠ r ∧ in_ram_at p k va).
Proof.
  intros Hp (d & Hd & Hu & Hv). rewrite Hp in Hd.
  apply list_lookup_insert_Some in Hd as [(-> & -> & _)|(? & Hd)]; [by left|].
  right. split; [done|]. by exists d.
Qed.

Lemma in_swap_insert p p' r d' k va :
  p_swap p' = <[r := d']> (p_swap p) → in_swap_at p' k va →
  (k = r ∧ pd_used d' = 1 ∧ pd_va d' = va) ∨ (k ≠ r ∧ in_swap_at p k va).
Proof.
  intros Hp (d & Hd & Hu & Hv). rewrite Hp in Hd.
  apply list_lookup_insert_Some in Hd as [(-> & -> & _)|(? & Hd)]; [by left|].
  right. split; [done|]. by exists d.
Qed.

Lemma in_ram_keep p p' r d' k va :
  p_ram p' = <[r := d']> (p_ram p) → k ≠ r → in_ram_at p k va → in_ram_at p' k va.
Proof. intros Hp Hk (d & ?). exists d. by rewrite Hp, list_lookup_insert_ne. Qed.

Lemma in_swap_keep p p' r d' k va :
  p_swap p' = <[r := d']> (p_swap p) → k ≠ r → in_swap_at p k va → in_swap_at p' k va.
Proof. intros Hp Hk (d & ?). exists d. by rewrite Hp, list_lookup_insert_ne. Qed.

Lemma ram_ok_step i root f T s G s' G' d :
  is_root G root → ram_ok (mem s) G root d → pstep i root f T s G s' G' →
  ¬ T (pd_va d / PGSIZE) → ram_ok (mem s') G' root d.
Proof.
  intros Hr [Hu Hv HV HPG Ho] Hst HT.
  assert (Hview : pte_of (mem s') root (pd_va d) = pte_of (mem s) root (pd_va d)).
  { apply Hst; [done|by apply va_ok_max|by right]. }
  split; rewrite ?Hview; try done.
  apply (ps_data _ _ _ _ _ _ _ _ Hst _ _ Ho I). by intros va [= <-].
Qed.

Lemma swap_ok_step i root f T s G s' G' sz sz' k d :
  is_root G root → swap_ok (mem s) root sz k d → pstep i root f T s G s' G' →
  ¬ T (pd_va d / PGSIZE) → sz <= sz' → swap_ok (mem s') root sz' k d.
Proof.
  intros Hr [Hu Hv HV HPG Hs] Hst HT Hsz.
  assert (Hview : pte_of (mem s') root (pd_va d) = pte_of (mem s) root (pd_va d)).
  { apply Hst; [done|by apply va_ok_max|by right]. }
  split; rewrite ?Hview; done || lia.
Qed.

Section Transfer.
Context s (G : gmap Z usage) (l : list Z) (i : nat) p (f : nat).
Context s' (G' : gmap Z usage) (l' : list Z) p' (T : Z → Prop) (r k : nat) (d' e' : page_data).
Hypothesis Hok : paging_ok s G l i p f.
Hypothesis Hpt : p_pagetable p' = p_pagetable p.
Hypothesis Hram : p_ram p' = <[r := d']> (p_ram p).
Hypothesis Hswap : p_swap p' = <[k := e']> (p_swap p).
Hypothesis Hst : pstep i (p_pagetable p) f T s G s' G'.
Hypothesis HTr : ∀ k' va, k' ≠ r → in_ram_at p k' va → ¬ T (va / PGSIZE).
Hypothesis HTs : ∀ k' va, k' ≠ k → in_swap_at p k' va → ¬ T (va / PGSIZE).

Lemma paging_transfer :
  vm_wf s' G' l' → proc_at s' i p' → p_swapFile p' = p_swapFile p → sw_valid (fs s') f →
  sw_size (fs s) f <= sw_size (fs s') f →
  free_pd d' ∨ (ram_ok (mem s') G' (p_pagetable p) d' ∧
                ∀ k', k' ≠ r → ¬ in_ram_at p k' (pd_va d')) →
  free_pd e' ∨ (swap_ok (mem s') (p_pagetable p) (sw_size (fs s') f) k e' ∧
                ∀ k', k' ≠ k → ¬ in_swap_at p k' (pd_va e')) →
  paging_ok s' G' l' i p' f.
Proof.
  intros Hwf Hp Hf Hv Hsz Hd He. split; try done.
  - rewrite Hpt. by apply Hst, Hok.
  - rewrite Hf. apply Hok.
  - rewrite Hram, length_insert. apply Hok.
  - rewrite Hswap, length_insert. apply Hok.
  - intros k' d0 Hd0. rewrite Hpt. rewrite Hram in Hd0.
    apply list_lookup_insert_Some in Hd0 as [(-> & -> & _)|(Hne & Hd0)]; [tauto|].
    destruct (pg_ram _ _ _ _ _ _ Hok k' d0 Hd0) as [?|Hro]; [by left|right].
    eapply ram_ok_step; [apply Hok|done|done|]. eapply HTr; [done|]. exists d0. split; [done|].
    by destruct Hro.
  - intros k' d0 Hd0. rewrite Hpt. rewrite Hswap in Hd0.
    apply list_lookup_insert_Some in Hd0 as [(-> & -> & _)|(Hne & Hd0)]; [tauto|].
    destruct (pg_swap _ _ _ _ _ _ Hok k' d0 Hd0) as [?|Hro]; [by left|right].
    eapply swap_ok_step; [apply Hok|done|done| |done]. eapply HTs; [done|]. exists d0.
    split; [done|]. by destruct Hro.
  - intros k1 k2 va [(-> & Hu & Hva)|[? H1]]%(in_ram_insert _ _ _ _ _ _ Hram)
      [(-> & Hu' & Hva')|[? H2]]%(in_ram_insert _ _ _ _ _ _ Hram).
    + done.
    + destruct Hd as [[? _]|[_ Hn]]; [lia|]. subst va. by eapply Hn in H2.
    + destruct Hd as [[? _]|[_ Hn]]; [lia|]. subst va. by eapply Hn in H1.
    + by eapply (pg_ram_inj _ _ _ _ _ _ Hok).
  - intros k1 k2 va [(-> & Hu & Hva)|[? H1]]%(in_swap_insert _ _ _ _ _ _ Hswap)
      [(-> & Hu' & Hva')|[? H2]]%(in_swap_insert _ _ _ _ _ _ Hswap).
    + done.
    + destruct He as [[? _]|[_ Hn]]; [lia|]. subst va. by eapply Hn in H2.
    + destruct He as [[? _]|[_ Hn]]; [lia|]. subst va. by eapply Hn in H1.
    + by eapply (pg_swap_inj _ _ _ _ _ _ Hok).
Qed.

(** Pages of records that are not rewritten keep their contents. *)
Lemma byte_stays va j :
  paging_ok s' G' l' i p' f → 0 <= va → 0 <= j < PGSIZE →
  ¬ in_ram_at p r va → ¬ in_swap_at p k va → ¬ in_ram_at p' r va → ¬ in_swap_at p' k va →
  (∀ k', k' ≠ k → (k' < 16)%nat → ∀ j, 0 <= j < PGSIZE →
     sw_byte (fs s') f (Z.of_nat k' * PGSIZE + j) = sw_byte (fs s) f (Z.of_nat k' * PGSIZE + j)) →
  page_byte s' p' f va j = page_byte s p f va j.
Proof.
  intros Hok' Hva Hj Hnr Hns Hnr' Hns' Hby.
  destruct (locate _ _ _ _ _ _ Hok va Hva) as [[k0 H]|[[k0 H]|[H1 H2]]].
  - assert (k0 ≠ r) by (by intros ->).
    rewrite (page_byte_ram _ _ _ _ _ _ Hok _ _ _ H).
    rewrite (page_byte_ram _ _ _ _ _ _ Hok' k0) by (by eapply in_ram_keep).
    destruct (ram_at_ok _ _ _ _ _ _ Hok _ _ H) as (d0 & _ & <- & [_ Hvo _ _ Ho]).
    assert (HT : ¬ T (pd_va d0 / PGSIZE)) by (by eapply HTr).
    rewrite Hpt, (ps_view _ _ _ _ _ _ _ _ Hst) by (apply Hok || by apply va_ok_max || by right).
    destruct (ps_data _ _ _ _ _ _ _ _ Hst _ _ Ho I) as [_ Ha]; [by intros va [= <-]|].
    f_equal. apply Ha. lia.
  - assert (k0 ≠ k) by (by intros ->).
    rewrite (page_byte_swap _ _ _ _ _ _ Hok _ _ _ H).
    rewrite (page_byte_swap _ _ _ _ _ _ Hok' k0) by (by eapply in_swap_keep).
    f_equal. apply Hby; [done| |done]. destruct H as (d0 & Hd0 & _).
    apply lookup_lt_Some in Hd0. by rewrite (pg_lswap _ _ _ _ _ _ Hok) in Hd0.
  - rewrite (page_byte_none _ _ _ _ _ _ Hok) by done. eapply page_byte_none; [done|done|..].
    + intros k0 H. pose proof (in_ram_insert _ _ _ _ _ _ Hram H) as [(-> & _)|[_ ?]]; [done|].
      by eapply H1.
    + intros k0 H. pose proof (in_swap_insert _ _ _ _ _ _ Hswap H) as [(-> & _)|[_ ?]]; [done|].
      by eapply H2.
Qed.

End Transfer.

Lemma swap_in_paging sel s G pg l' i p f va r k d dk s' :
  paging_ok s G (pg :: l') i p f → p_ram p !! r = Some d → free_pd d →
  p_swap p !! k = Some dk → pd_used dk = 1 → pd_va dk = va →
  swap_in sel i f p va r k d dk pg s G s' l' →
  paging_ok s' (<[pg := UData (p_pagetable p) va]> G) l' i (swapped_in sel va r k d dk p) f ∧
  ∀ va' j, 0 <= va' → 0 <= j < PGSIZE →
    page_byte s' (swapped_in sel va r k d dk p) f va' j = page_byte s p f va' j.
Proof.
  intros Hok Hd Hfd Hdk Hu Hv [Hwf Hp Hst Hfs Hou Hpte Hby Hfree Hpg].
  set (p' := swapped_in sel va r k d dk p) in *.
  destruct (in_pte_facts pg Hpg) as (HPA & HV & HPG & HU & _).
  assert (Hat : in_swap_at p k va) by (by exists dk).
  destruct (swap_at_ok _ _ _ _ _ _ Hok _ _ Hat) as (dk' & Hdk' & _ & Hso).
  assert (dk' = dk) as -> by congruence. destruct Hso as [_ Hvo _ _ Hsz]. rewrite Hv in Hvo.
  destruct (Hfs f I) as (Hvalid' & Hsize' & Hby'); [apply Hok|].
  assert (Hr : (r < length (p_ram p))%nat) by (by eapply lookup_lt_Some).
  assert (Hk : (k < length (p_swap p))%nat) by (by eapply lookup_lt_Some).
  assert (Hram : p_ram p' = <[r := new_pd sel p va d]> (p_ram p)) by reflexivity.
  assert (Hswap : p_swap p' = <[k := remove_page dk]> (p_swap p)) by reflexivity.
  assert (Hnew : pd_used (new_pd sel p va d) = 1 ∧ pd_va (new_pd sel p va d) = va) by done.
  destruct Hnew as [Hnu Hnv].
  assert (HTr : ∀ k' va', k' ≠ r → in_ram_at p k' va' → ¬ (va' / PGSIZE = va / PGSIZE)).
  { intros k' va' _ H Heq. symmetry in Heq. by eapply ram_swap_apart in Heq. }
  assert (HTs : ∀ k' va', k' ≠ k → in_swap_at p k' va' → ¬ (va' / PGSIZE = va / PGSIZE))
    by (intros k' va' Hne H; by eapply swap_apart).
  assert (Hok' : paging_ok s' (<[pg := UData (p_pagetable p) va]> G) l' i p' f).
  { eapply (paging_transfer s G _ i p f s' _ l' p' _ r k); try done; [lia| |].
    - right. rewrite Hnv. split; [split; rewrite ?Hnv, ?Hpte; try done|].
      + rewrite HPA. apply lookup_insert_eq.
      + intros k' Hne H. by eapply ram_not_swap.
    - by left. }
  split; [done|]. intros va' j Hva' Hj.
  destruct (decide (va' = va)) as [->|Hne].
  - assert (Hat' : in_ram_at p' r va).
    { exists (new_pd sel p va d). rewrite Hram. by rewrite list_lookup_insert_eq. }
    rewrite (page_byte_ram _ _ _ _ _ _ Hok' _ _ _ Hat'), (page_byte_swap _ _ _ _ _ _ Hok _ _ _ Hat).
    change (p_pagetable p') with (p_pagetable p). by rewrite Hpte, HPA, Hby.
  - eapply (byte_stays s G _ i p f s' _ l' p' _ r k); try done.
    + intros (d0 & Hd0 & Hu0 & _). destruct Hfd. congruence.
    + intros (d0 & Hd0 & _ & Hv0). congruence.
    + intros [(_ & _ & ?)|[? _]]%(in_ram_insert _ _ _ _ _ _ Hram); congruence.
    + intros [(_ & ? & _)|[? _]]%(in_swap_insert _ _ _ _ _ _ Hswap); done.
Qed.

(** ** Taking a page out of RAM *)

(** The entry of a page that is neither in RAM nor in the file: invalid, but
    still holding the page's physical address. *)
Record detached (m : memory) (G : gmap Z usage) p (va : Z) : Prop := {
  det_va : va_ok va;
  det_V : Z.testbit (pte_of m (p_pagetable p) va) 0 = false;
  det_own : G !! PTE2PA (pte_of m (p_pagetable p) va) = Some (UData (p_pagetable p) va);
  det_slot : ∃ a, walk_slot m (p_pagetable p) va = Some a;
  det_ram : ∀ k, ¬ in_ram_at p k va;
  det_swap : ∀ k, ¬ in_swap_at p k va
}.

Definition removed (r : nat) (d : page_data) p : proc :=
  set_p_ram (<[r := remove_page d]> (p_ram p)) p.

Lemma detach_paging s G l i p f r d va s' :
  paging_ok s G l i p f → p_ram p !! r = Some d → pd_used d = 1 → pd_va d = va →
  vm_wf s' G l → proc_at s' i (removed r d p) → fs s' = fs s →
  pstep i (p_pagetable p) f (λ n, n = va / PGSIZE) s G s' G →
  paging_ok s' G l i (removed r d p) f ∧
  (∀ k, ¬ in_ram_at (removed r d p) k va) ∧ (∀ k, ¬ in_swap_at (removed r d p) k va) ∧
  (∀ va' j, 0 <= va' → 0 <= j < PGSIZE → va' ≠ va →
     page_byte s' (removed r d p) f va' j = page_byte s p f va' j).
Proof.
  intros Hok Hd Hu Hv Hwf' Hp' Hf' Hst. set (p' := removed r d p) in *.
  assert (Hat : in_ram_at p r va) by (by exists d).
  destruct (ram_at_ok _ _ _ _ _ _ Hok _ _ Hat) as (d0 & _ & Hvd & [_ Hvo _ _ _]).
  rewrite Hvd in Hvo.
  assert (Hram : p_ram p' = <[r := remove_page d]> (p_ram p)) by reflexivity.
  assert (Hswap : p_swap p' = <[16%nat := remove_page d]> (p_swap p)).
  { rewrite list_insert_ge; [done|]. by rewrite (pg_lswap _ _ _ _ _ _ Hok). }
  assert (HTr : ∀ k' va', k' ≠ r → in_ram_at p k' va' → ¬ (va' / PGSIZE = va / PGSIZE))
    by (intros k' va' Hne H; by eapply ram_apart).
  assert (HTs : ∀ k' va', in_swap_at p k' va' → ¬ (va' / PGSIZE = va / PGSIZE))
    by (intros k' va' H; by eapply ram_swap_apart).
  assert (Hok' : paging_ok s' G l i p' f).
  { eapply (paging_transfer s G l i p f s' G l p' _ r 16); try done.
    - intros k' va' _. apply HTs.
    - rewrite Hf'. apply Hok.
    - by rewrite Hf'.
    - by left.
    - by left. }
  split_and!; [done| | |].
  - intros k [(_ & ? & _)|[Hne H]]%(in_ram_insert _ _ _ _ _ _ Hram); [done|]. by apply (HTr k va Hne H).
  - intros k H. by apply (HTs k va H).
  - intros va' j Hva' Hj Hne.
    eapply (byte_stays s G l i p f s' G l p' _ r 16); try done.
    + intros (d1 & Hd1 & _ & Hv1). congruence.
    + by eapply no_swap_16.
    + intros [(_ & ? & _)|[? _]]%(in_ram_insert _ _ _ _ _ _ Hram); done.
    + rewrite (in_swap_same p p') by done. by eapply no_swap_16.
    + intros. by rewrite Hf'.
Qed.

Lemma detach_ok s G l i p f r d va a {A} (K : M (kst F) A) Q :
  paging_ok s G l i p f → p_ram p !! r = Some d → pd_used d = 1 → pd_va d = va →
  walk_slot (mem s) (p_pagetable p) va = Some a →
  (∀ s', paging_ok s' G l i (removed r d p) f → detached (mem s') G (removed r d p) va →
     pstep i (p_pagetable p) f (λ n, n = va / PGSIZE) s G s' G →
     (∀ va' j, 0 <= va' → 0 <= j < PGSIZE → va' ≠ va →
        page_byte s' (removed r d p) f va' j = page_byte s p f va' j) →
     (∀ j, 0 <= j < PGSIZE →
        Some (mget (mem s') (PTE2PA (pte_of (mem s') (p_pagetable p) va) + j)) =
        page_byte s p f va j) →
     fs s' = fs s → out s' = out s → wp K s' Q) →
  wp (pte_clear a PTE_V;; ram_upd (Z.of_nat r) remove_page;; K) s Q.
Proof.
  intros Hok Hd Hu Hv Ha HK. pose proof Hok as [Hwf Hp Hroot _ _ Hlr _ _ _ _ _].
  assert (Hat : in_ram_at p r va) by (by exists d).
  destruct (ram_at_ok _ _ _ _ _ _ Hok _ _ Hat) as (d0 & _ & Hvd & [_ Hvo _ _ Hown]).
  rewrite Hvd in *. pose proof (va_ok_max va Hvo) as Hmax.
  apply wp_bind. eapply wp_pte_clear; [done..|]. intros s1 Hs1.
  pose proof (leaf_same _ _ _ _ _ _ _ Hs1) as Hsm.
  assert (Hpte : pte_of (mem s1) (p_pagetable p) va =
    Z.land (pte_of (mem s) (p_pagetable p) va) (Z.lnot PTE_V)).
  { rewrite (leaf_view _ _ _ _ _ _ _ Hs1), decide_True by done. done. }
  assert (HPA : PTE2PA (pte_of (mem s1) (p_pagetable p) va) = PTE2PA (pte_of (mem s) (p_pagetable p) va)).
  { rewrite Hpte. by apply PTE2PA_clear. }
  apply wp_bind. eapply (wp_ram_upd s1 i p r _ d); [by eapply proc_at_same|done|done|].
  intros s2 Hm2 Hfl2 Hfs2 Hou2 Hp2 Hout2. fold (removed r d p) in Hp2.
  assert (Hst : pstep i (p_pagetable p) f (λ n, n = va / PGSIZE) s G s2 G).
  { eapply pstep_trans; [by eapply pstep_leaf|].
    eapply pstep_mem; [done|done|rewrite Hfs2; apply files_same_refl]. }
  assert (Hf2 : fs s2 = fs s) by (rewrite Hfs2; apply (same_but_mem_fields _ _ Hsm)).
  destruct (detach_paging s G l i p f r d va s2) as (Hok' & Hnr & Hns & Hby); try done.
  { eapply vm_wf_ext; [done|done|apply Hs1]. }
  apply HK; [done| |done|done| |done|].
  - split; [done| | | |done|done]; simpl; rewrite Hm2.
    + rewrite Hpte. unfold PTE_V. rewrite testbit_clear by lia. apply andb_false_r.
    + by rewrite HPA.
    + rewrite (leaf_slot _ _ _ _ _ _ _ Hs1) by done. by exists a.
  - intros j Hj. rewrite (page_byte_ram _ _ _ _ _ _ Hok _ _ _ Hat), Hm2, HPA. f_equal.
    apply (leaf_data _ _ _ _ _ _ _ Hs1 _ _ Hown I). lia.
  - rewrite Hou2. apply (same_but_mem_fields _ _ Hsm).
Qed.

(** ** Writing a page to the file *)

(** [b] is [a] with page [k] of file [f] replaced by the bytes [c]. *)
Record file_put (f k : nat) (c : Z → Z) (a b : F) : Prop := {
  fp_valid : sw_valid b f;
  fp_size : sw_size a f <= sw_size b f ∧ (Z.of_nat k + 1) * PGSIZE <= sw_size b f;
  fp_byte : ∀ j, 0 <= j < PGSIZE → sw_byte b f (Z.of_nat k * PGSIZE + j) = c j;
  fp_other : ∀ k', k' ≠ k → ∀ j, 0 <= j < PGSIZE →
    sw_byte b f (Z.of_nat k' * PGSIZE + j) = sw_byte a f (Z.of_nat k' * PGSIZE + j);
  fp_files : files_same (λ g, g ≠ f) a b
}.

(** [writeToSwapFile] of a whole page of memory. *)
Lemma write_page_ok s p f k pg (Q : Z → kst F → Prop) :
  p_swapFile p = Some f → sw_valid (fs s) f → page_ok pg → (k < 16)%nat →
  Z.of_nat k * PGSIZE <= sw_size (fs s) f →
  (∀ fs', file_put f k (λ j, mget (mem s) (pg + j)) (fs s) fs' → Q PGSIZE (set_fs fs' s)) →
  wp (writeToSwapFile p pg (Z.of_nat k * PGSIZE) PGSIZE) s Q.
Proof.
  intros Hf Hv Hpg Hk Hsz HQ. pose proof (page_ok_end pg Hpg) as Hend. destruct Hpg as [_ [Hlo _]].
  unfold writeToSwapFile. rewrite Hf. apply wp_bind, wp_readM; [done|done|].
  pose proof (length_read_bytes (mem s) pg (Z.to_nat PGSIZE)) as Hlen.
  assert (Hlk : ∀ j, 0 <= j < PGSIZE →
    read_bytes (mem s) pg (Z.to_nat PGSIZE) !! Z.to_nat j = Some (mget (mem s) (pg + j))).
  { intros j Hj. rewrite lookup_read_bytes by lia. by rewrite Z2Nat.id by lia. }
  assert (Hbs : Forall (λ b, 0 <= b < 256) (read_bytes (mem s) pg (Z.to_nat PGSIZE)))
    by apply read_bytes_bytes.
  generalize dependent (read_bytes (mem s) pg (Z.to_nat PGSIZE)). intros bs Hlen Hlk Hbs.
  assert (Hlen' : Z.of_nat (length bs) = PGSIZE) by (rewrite Hlen; done).
  apply wp_liftF. eapply wp_mono; [apply (sw_write_ok _ f); [done| |done|]|].
  { unfold PGSIZE in *. lia. }
  { rewrite Hlen'. unfold MAX_PSYC_PAGES, PGSIZE in *. lia. }
  intros r fs' (-> & Hv' & Hsz' & Hby & Hoth). rewrite Hlen' in *. apply HQ. split.
  - by apply Hv'.
  - unfold PGSIZE in *. lia.
  - intros j Hj. rewrite Hby, decide_True by lia.
    replace (Z.of_nat k * PGSIZE + j - Z.of_nat k * PGSIZE) with j by lia. by rewrite Hlk.
  - intros k' Hne j Hj. rewrite Hby, decide_False; [done|]. unfold PGSIZE in *. lia.
  - intros g Hg Hvg. destruct (Hoth g Hg Hvg) as [? ?]. split_and!; [by apply Hv'|done|done].
Qed.

Lemma save_page_ok s G l i p f k va a {A} (K : Z → M (kst F) A) msg Q :
  paging_ok s G l i p f → va_ok va → walk_slot (mem s) (p_pagetable p) va = Some a →
  G !! PTE2PA (pte_of (mem s) (p_pagetable p) va) = Some (UData (p_pagetable p) va) →
  (k < 16)%nat → Z.of_nat k * PGSIZE <= sw_size (fs s) f → l ≠ [] →
  (∀ s', vm_wf s' G l → proc_at s' i p → pstep i (p_pagetable p) f (λ _, False) s G s' G →
     (∀ r va', is_root G r → walk_slot (mem s') r va' = walk_slot (mem s) r va') →
     file_put f k (λ j, mget (mem s) (PTE2PA (pte_of (mem s) (p_pagetable p) va) + j)) (fs s) (fs s') →
     out s' = out s → wp (K a) s' Q) →
  wp (page ← kalloc;
      pte ← walk (p_pagetable p) (w64 va) false;
      v ← loadM pte;
      memmoveM page (PTE2PA v) PGSIZE;;
      p ← myproc;
      r ← writeToSwapFile p page (Z.of_nat k * PGSIZE) PGSIZE;
      if r =? -1 then panic msg else kfree page;; K pte) s Q.
Proof.
  intros Hok Hvo Ha Hown Hk Hsz Hl HK. pose proof Hok as [Hwf Hp Hroot Hf Hvalid _ _ _ _ _ _].
  pose proof (va_ok_max va Hvo) as Hmax. set (PA := PTE2PA (pte_of (mem s) (p_pagetable p) va)) in *.
  apply wp_bind. eapply vm_kalloc_ok; [done|done|].
  intros pg l' s1 Hl' Hfree Hpg Hsm1 Hwf1 Hbut1 Hpt1. set (G1 := <[pg := UOther]> G) in *.
  assert (Hroot1 : is_root G1 (p_pagetable p)).
  { unfold is_root, G1. rewrite lookup_insert_ne; [done|]. intros ->. unfold is_root in Hroot. congruence. }
  assert (Hslot1 : walk_slot (mem s1) (p_pagetable p) va = Some a)
    by (by rewrite (walk_slot_agree s G l)).
  assert (Hpte1 : pte_of (mem s1) (p_pagetable p) va = pte_of (mem s) (p_pagetable p) va)
    by (by eapply pte_of_agree).
  apply wp_bind. rewrite va_ok_w64 by done. eapply walk_noalloc_ok; [done|done|done|].
  rewrite Hslot1. simpl. apply wp_bind. eapply wp_load_slot; [done..|]. rewrite Hpte1. fold PA.
  assert (HPAok : page_ok PA) by exact (wf_page _ _ _ Hwf _ _ Hown).
  assert (Hne : PA ≠ pg) by congruence.
  pose proof (page_ok_end _ Hpg) as Hend. pose proof (page_ok_end _ HPAok) as Hend'.
  apply wp_bind, wp_memmoveM; [destruct Hpg; lia|done|destruct HPAok; lia|done|done|].
  intros m2 Hcopy Hoff2.
  assert (Hpg1 : G1 !! pg = Some UOther) by apply lookup_insert_eq.
  destruct (vm_wf_data s1 (set_mem m2 s1) G1 l' pg UOther Hwf1 eq_refl Hpg1 I Hoff2)
    as (Hwf2 & _ & Hbut2).
  apply wp_bind. eapply wp_myproc; [apply (proc_at_same s1); [apply same_but_mem_mem|]; by eapply proc_at_same|].
  assert (Hfs1 : fs s1 = fs s) by apply (same_but_mem_fields _ _ Hsm1).
  apply wp_bind. eapply write_page_ok; [done|simpl; by rewrite Hfs1|done|done|simpl; by rewrite Hfs1|].
  intros fs' Hput. cbn [Z.eqb PGSIZE]. apply wp_bind.
  assert (Hwf3 : vm_wf (set_fs fs' (set_mem m2 s1)) G1 l') by (by eapply vm_wf_ext; [| |exact Hwf2]).
  eapply (vm_kfree_ok _ G1 l' pg UOther); [done|done|done|].
  intros s4 Hsm4 Hwf4 Hbut4 Hpt4.
  assert (HG : <[pg := UFree]> G1 = G) by (unfold G1; rewrite insert_insert_eq; by apply insert_id).
  rewrite HG, <- Hl' in Hwf4.
  assert (Hbut : agree_but pg G (mem s) (mem s4)).
  { intros q u Hq Hqne. assert (G1 !! q = Some u) by (unfold G1; by rewrite lookup_insert_ne).
    eapply agree_on_trans; [by eapply Hbut1|]. eapply agree_on_trans; [by eapply Hbut2|].
    by eapply Hbut4. }
  assert (Hpt : pt_agree G (mem s) (mem s4)).
  { eapply agree_but_pt; [done|done|]. by intros (?&?&?&?). }
  assert (Hf4 : fs s4 = fs') by apply (same_but_mem_fields _ _ Hsm4).
  assert (Hput' : file_put f k (λ j, mget (mem s) (PA + j)) (fs s) (fs s4)).
  { rewrite Hf4. simpl in Hput. rewrite Hfs1 in Hput. destruct Hput as [? ? Hb ? ?].
    split; try done. intros j Hj. rewrite Hb, Hcopy by done.
    apply (Hbut1 PA _ Hown Hne). lia. }
  apply HK; [done| | | |done|].
  - eapply (proc_at_same (set_fs fs' (set_mem m2 s1))); [done|].
    destruct (proc_at_same _ _ _ _ Hsm1 Hp). by split.
  - rewrite <- HG at 2. unfold G1. rewrite insert_insert_eq.
    eapply pstep_page; [exact Hwf| |apply Hput'|exact Hbut|exact Hpt|exact Hfree|intros []|congruence].
    etrans; [by apply outside_same|]. etrans; [|by apply outside_same]. by split.
  - intros r va' Hr. by eapply walk_slot_agree.
  - destruct (same_but_mem_fields _ _ Hsm4) as (_&_&_&_&_&->&_). apply (same_but_mem_fields _ _ Hsm1).
Qed.

(** ** Moving a detached page to the file *)

Definition saved (k : nat) (e : page_data) (va : Z) p : proc :=
  set_p_swap (<[k := set_pd_used 1 (set_pd_offset (Z.of_nat k * PGSIZE) (set_pd_va va e))]> (p_swap p)) p.

Lemma swap_out_paging s G l i p f va k e s' G' l' c :
  paging_ok s G l i p f → detached (mem s) G p va → p_swap p !! k = Some e → free_pd e →
  vm_wf s' G' l' → proc_at s' i (saved k e va p) →
  pstep i (p_pagetable p) f (λ n, n = va / PGSIZE) s G s' G' → file_put f k c (fs s) (fs s') →
  Z.testbit (pte_of (mem s') (p_pagetable p) va) 0 = false →
  Z.testbit (pte_of (mem s') (p_pagetable p) va) 9 = true →
  paging_ok s' G' l' i (saved k e va p) f ∧
  (∀ j, 0 <= j < PGSIZE → page_byte s' (saved k e va p) f va j = Some (c j)) ∧
  (∀ va' j, 0 <= va' → 0 <= j < PGSIZE → va' ≠ va →
     page_byte s' (saved k e va p) f va' j = page_byte s p f va' j).
Proof.
  intros Hok [Hvo _ _ _ Hnr Hns] He Hfe Hwf' Hp' Hst [Hv' [Hs1 Hs2] Hb Hbo _] HV HPG.
  set (p' := saved k e va p) in *.
  set (e' := set_pd_used 1 (set_pd_offset (Z.of_nat k * PGSIZE) (set_pd_va va e))).
  assert (Hk : (k < length (p_swap p))%nat) by (by eapply lookup_lt_Some).
  assert (Hram : p_ram p' = <[16%nat := e']> (p_ram p)).
  { rewrite list_insert_ge; [done|]. by rewrite (pg_lram _ _ _ _ _ _ Hok). }
  assert (Hswap : p_swap p' = <[k := e']> (p_swap p)) by reflexivity.
  assert (HTr : ∀ k' va', k' ≠ 16%nat → in_ram_at p k' va' → ¬ (va' / PGSIZE = va / PGSIZE)).
  { intros k' va' _ H Heq. destruct (ram_at_ok _ _ _ _ _ _ Hok _ _ H) as (d1 & _ & <- & [_ Hvo' _ _ _]).
    apply va_ok_page in Heq; [|done..]. rewrite Heq in H. by apply (Hnr k'). }
  assert (HTs : ∀ k' va', k' ≠ k → in_swap_at p k' va' → ¬ (va' / PGSIZE = va / PGSIZE)).
  { intros k' va' _ H Heq. destruct (swap_at_ok _ _ _ _ _ _ Hok _ _ H) as (d1 & _ & <- & [_ Hvo' _ _ _]).
    apply va_ok_page in Heq; [|done..]. rewrite Heq in H. by apply (Hns k'). }
  assert (Hnr' : ∀ va', ¬ in_ram_at p' 16 va').
  { intros va'. rewrite (in_ram_same p p') by done. by eapply no_ram_16. }
  assert (Hok' : paging_ok s' G' l' i p' f).
  { eapply (paging_transfer s G l i p f s' G' l' p' _ 16 k (remove_page e) e'); try done.
    - rewrite list_insert_ge; [done|]. by rewrite (pg_lram _ _ _ _ _ _ Hok).
    - by left.
    - right. split; [by split|]. intros k' _. apply Hns. }
  assert (Hat : in_swap_at p' k va).
  { exists e'. rewrite Hswap. by rewrite list_lookup_insert_eq. }
  split_and!; [done| |].
  - intros j Hj. rewrite (page_byte_swap _ _ _ _ _ _ Hok' _ _ _ Hat). by rewrite Hb.
  - intros va' j Hva' Hj Hne.
    eapply (byte_stays s G l i p f s' G' l' p' _ 16 k); try done.
    + by eapply no_ram_16.
    + intros (d1 & Hd1 & Hu1 & _). destruct Hfe. congruence.
    + intros [(_ & _ & ?)|[? _]]%(in_swap_insert _ _ _ _ _ _ Hswap); [|done]. by apply Hne.
    + intros. by apply Hbo.
Qed.

Lemma swap_out_ok s G l i p f va a k e msg {A} (x : A) Q :
  paging_ok s G l i p f → detached (mem s) G p va → walk_slot (mem s) (p_pagetable p) va = Some a →
  p_swap p !! k = Some e → free_pd e → Z.of_nat k * PGSIZE <= sw_size (fs s) f → l ≠ [] →
  let PA := PTE2PA (pte_of (mem s) (p_pagetable p) va) in
  (∀ s', paging_ok s' (<[PA := UFree]> G) (PA :: l) i (saved k e va p) f →
     pstep i (p_pagetable p) f (λ n, n = va / PGSIZE) s G s' (<[PA := UFree]> G) →
     (∀ j, 0 <= j < PGSIZE → page_byte s' (saved k e va p) f va j = Some (mget (mem s) (PA + j))) →
     (∀ va' j, 0 <= va' → 0 <= j < PGSIZE → va' ≠ va →
        page_byte s' (saved k e va p) f va' j = page_byte s p f va' j) →
     Z.testbit (pte_of (mem s') (p_pagetable p) va) 9 = true → out s' = out s → Q x s') →
  wp (page ← kalloc;
      pte ← walk (p_pagetable p) (w64 va) false;
      v ← loadM pte;
      memmoveM page (PTE2PA v) PGSIZE;;
      p ← myproc;
      r ← writeToSwapFile p page (Z.of_nat k * PGSIZE) PGSIZE;
      if r =? -1 then panic msg
      else
        kfree page;;
        swap_upd (Z.of_nat k) (λ d, set_pd_used 1 (set_pd_offset (Z.of_nat k * PGSIZE) (set_pd_va va d)));;
        pte_set pte PTE_PG;;
        v ← loadM pte;
        kfree (PTE2PA v);;
        mret x) s Q.
Proof.
  intros Hok Hdet Ha He Hfe Hsz Hl PA HQ. pose proof Hdet as [Hvo HV Hown _ _ _].
  pose proof Hok as [Hwf Hp Hroot _ _ _ Hls _ _ _ _]. pose proof (va_ok_max va Hvo) as Hmax.
  assert (Hk : (k < 16)%nat) by (rewrite <- Hls; by eapply lookup_lt_Some).
  eapply (save_page_ok s G l i p f k va a (λ pte,
    swap_upd (Z.of_nat k) (λ d, set_pd_used 1 (set_pd_offset (Z.of_nat k * PGSIZE) (set_pd_va va d)));;
    pte_set pte PTE_PG;; v ← loadM pte; kfree (PTE2PA v);; mret x)); [done..|].
  intros s1 Hwf1 Hp1 Hst1 Hslot1 Hput1 Hou1.
  apply wp_bind. eapply wp_swap_upd; [done|done|].
  intros s2 Hm2 Hfl2 Hfs2 Hou2 Hp2 Hout2. fold (saved k e va p) in Hp2.
  assert (Hwf2 : vm_wf s2 G l) by (by eapply vm_wf_ext).
  assert (Ha2 : walk_slot (mem s2) (p_pagetable p) va = Some a) by (rewrite Hm2, Hslot1; done).
  assert (Hpte2 : pte_of (mem s2) (p_pagetable p) va = pte_of (mem s) (p_pagetable p) va).
  { rewrite Hm2. apply Hst1; [done|done|]. right. intros []. }
  apply wp_bind. unfold pte_set. apply wp_bind. eapply wp_load_slot; [done..|]. rewrite Hpte2.
  eapply leaf_store; [done..| |].
  { apply set_range; [apply pte_of_range|lia]. }
  intros s3 Hs3. pose proof (leaf_wf _ _ _ _ _ _ _ Hs3) as Hwf3.
  assert (Hpte3 : pte_of (mem s3) (p_pagetable p) va = Z.lor (pte_of (mem s) (p_pagetable p) va) PTE_PG).
  { rewrite (leaf_view _ _ _ _ _ _ _ Hs3), decide_True by done. done. }
  apply wp_bind. eapply (wp_load_slot s3); [done|done|done|by rewrite (leaf_slot _ _ _ _ _ _ _ Hs3)|].
  rewrite Hpte3. unfold PTE_PG at 1. rewrite PTE2PA_set by lia. fold PA.
  apply wp_bind. eapply (vm_kfree_ok s3 G l PA _); [done|exact Hown|done|].
  intros s4 Hsm4 Hwf4 Hbut4 Hpt4. apply wp_ret.
  assert (Hf4 : fs s4 = fs s1).
  { destruct (same_but_mem_fields _ _ Hsm4) as (_&_&_&_&_&_&->).
    destruct (same_but_mem_fields _ _ (leaf_same _ _ _ _ _ _ _ Hs3)) as (_&_&_&_&_&_&->). done. }
  assert (Hst : pstep i (p_pagetable p) f (λ n, n = va / PGSIZE) s G s4 (<[PA := UFree]> G)).
  { eapply pstep_trans; [eapply pstep_weaken; [exact Hst1|done]|].
    eapply (pstep_trans _ _ _ _ s1 G s2 G);
      [eapply pstep_mem; [done|done|rewrite Hfs2; apply files_same_refl]|].
    eapply pstep_trans; [by eapply pstep_leaf|].
    eapply pstep_page; [done|by apply outside_same|by apply files_same_mem|done|done|done| |done].
    intros _. by exists va. }
  assert (Hpte4 : pte_of (mem s4) (p_pagetable p) va = Z.lor (pte_of (mem s) (p_pagetable p) va) PTE_PG).
  { rewrite <- Hpte3. by eapply pte_of_agree. }
  unfold PTE_PG in Hpte4.
  edestruct (swap_out_paging s G l i p f va k e s4 (<[PA := UFree]> G) (PA :: l)) as (Hok' & Hb & Hbo);
    [done|done|done|done|done| |done|rewrite Hf4; exact Hput1| | |].
  - eapply proc_at_same; [exact Hsm4|]. eapply proc_at_same; [apply Hs3|]. exact Hp2.
  - rewrite Hpte4, testbit_set, HV by lia. done.
  - rewrite Hpte4, testbit_set by lia. apply orb_true_r.
  - apply HQ; [done|done|done|done| |].
    + rewrite Hpte4, testbit_set by lia. apply orb_true_r.
    + destruct (same_but_mem_fields _ _ Hsm4) as (_&_&_&_&_&->&_).
      destruct (same_but_mem_fields _ _ (leaf_same _ _ _ _ _ _ _ Hs3)) as (_&_&_&_&_&->&_). congruence.
Qed.

(** ** swap_pages *)

(** An entry whose page has an owner is in a table. *)
Lemma own_slot s G l root va u :
  vm_wf s G l → G !! PTE2PA (pte_of (mem s) root va) = Some u →
  ∃ a, walk_slot (mem s) root va = Some a.
Proof.
  intros Hwf Ho. apply pte_of_nonzero. intros H0. rewrite H0 in Ho.
  apply (wf_page _ _ _ Hwf), page_ok_pos in Ho. change (PTE2PA 0) with 0 in Ho. lia.
Qed.

Lemma detached_step i f T s G l s' G' l' p p' va :
  detached (mem s) G p va → vm_wf s G l → vm_wf s' G' l' → is_root G (p_pagetable p) →
  p_pagetable p' = p_pagetable p →
  pstep i (p_pagetable p) f T s G s' G' → ¬ T (va / PGSIZE) →
  (∀ k, ¬ in_ram_at p' k va) → (∀ k, ¬ in_swap_at p' k va) →
  detached (mem s') G' p' va ∧
  pte_of (mem s') (p_pagetable p) va = pte_of (mem s) (p_pagetable p) va ∧
  agree_on (PTE2PA (pte_of (mem s) (p_pagetable p) va)) (mem s) (mem s').
Proof.
  intros [Hvo HV Ho Hsl _ _] Hwf Hwf' Hroot Hpt Hst HT Hnr Hns.
  assert (Hv : pte_of (mem s') (p_pagetable p) va = pte_of (mem s) (p_pagetable p) va).
  { apply Hst; [done|by apply va_ok_max|by right]. }
  destruct (ps_data _ _ _ _ _ _ _ _ Hst _ _ Ho I) as [Ho' Ha]; [by intros ? [= <-]|].
  split; [|done]. split; rewrite ?Hpt, ?Hv; try done.
  eapply own_slot; [exact Hwf'|]. rewrite Hv. exact Ho'.
Qed.

Definition exchanged (sel : selection) (va vr : Z) (r k : nat) (d dk : page_data) p : proc :=
  saved k (remove_page dk) vr (swapped_in sel va r k (remove_page d) dk (removed r d p)).

(** The first steps of [swap_pages], up to the choice of a slot of the file. *)
Lemma swap_pages_detach sel s G l i p f vr r d va_on_swap in_swap (Q : Z → kst F → Prop) :
  paging_ok s G l i p f → p_ram p !! r = Some d → pd_used d = 1 → pd_va d = vr →
  Z.testbit (pte_of (mem s) (p_pagetable p) vr) 4 = true →
  (∀ s1, paging_ok s1 G l i (removed r d p) f → detached (mem s1) G (removed r d p) vr →
     pstep i (p_pagetable p) f (λ n, n = vr / PGSIZE) s G s1 G →
     (∀ va' j, 0 <= va' → 0 <= j < PGSIZE → va' ≠ vr →
        page_byte s1 (removed r d p) f va' j = page_byte s p f va' j) →
     (∀ j, 0 <= j < PGSIZE →
        Some (mget (mem s1) (PTE2PA (pte_of (mem s1) (p_pagetable p) vr) + j)) =
        page_byte s p f vr j) →
     fs s1 = fs s → out s1 = out s →
     wp (swap_arr_index ←
           (if in_swap =? 1 then
              pte ← walk (p_pagetable p) (w64 va_on_swap) false;
              swapfile_to_ram sel (w64 va_on_swap) pte (Z.of_nat r)
            else
              p ← myproc;
              let k := find_page (λ d, pd_used d =? 0) 0 (p_swap p) in
              mret (if k =? -1 then 0 else k));
         let off := swap_arr_index * PGSIZE in
         page ← kalloc;
         pte ← walk (p_pagetable p) (w64 vr) false;
         v ← loadM pte;
         memmoveM page (PTE2PA v) PGSIZE;;
         p ← myproc;
         x ← writeToSwapFile p page off PGSIZE;
         if x =? -1 then panic "error when trying to write to swapfile"
         else
           kfree page;;
           swap_upd swap_arr_index (λ d, set_pd_used 1 (set_pd_offset off (set_pd_va vr d)));;
           pte_set pte PTE_PG;;
           v ← loadM pte;
           kfree (PTE2PA v);;
           mret (Z.of_nat r)) s1 Q) →
  wp (swap_pages sel va_on_swap vr in_swap) s Q.
Proof.
  intros Hok Hd Hu Hv HU HK. pose proof Hok as [Hwf Hp Hroot _ _ _ _ _ _ _ _].
  assert (Hat : in_ram_at p r vr) by (by exists d).
  destruct (ram_at_ok _ _ _ _ _ _ Hok _ _ Hat) as (d0 & _ & Hvd & [_ Hvo HV _ Hown]).
  rewrite Hvd in *. pose proof (va_ok_max vr Hvo) as Hmax.
  destruct (own_slot _ _ _ _ _ _ Hwf Hown) as [a Ha].
  unfold swap_pages. apply wp_bind. eapply wp_myproc; [done|].
  apply wp_bind. rewrite va_ok_w64 by done. eapply walk_noalloc_ok; [done..|]. rewrite Ha. simpl.
  apply wp_bind. eapply wp_load_slot; [done..|]. rewrite truth_U, HU. simpl.
  rewrite (find_ram _ _ _ _ _ _ Hok _ _ Hat). rewrite (proj2 (Z.eqb_neq _ (-1))) by lia.
  eapply (detach_ok s G l i p f r d vr a); [done..|].
  rewrite va_ok_w64 in HK by done. exact HK.
Qed.

Lemma swap_pages_exchange sel s G l i p f vr va r k d dk :
  paging_ok s G l i p f → p_ram p !! r = Some d → pd_used d = 1 → pd_va d = vr →
  p_swap p !! k = Some dk → pd_used dk = 1 → pd_va dk = va →
  Z.testbit (pte_of (mem s) (p_pagetable p) vr) 4 = true → (2 <= length l)%nat →
  wp (swap_pages sel va vr 1) s (λ x s', x = Z.of_nat r ∧ ∃ G' l',
    paging_ok s' G' l' i (exchanged sel va vr r k d dk p) f ∧ length l' = length l ∧
    pstep i (p_pagetable p) f (λ n, n = vr / PGSIZE ∨ n = va / PGSIZE) s G s' G' ∧
    (∀ va' j, 0 <= va' → 0 <= j < PGSIZE →
       page_byte s' (exchanged sel va vr r k d dk p) f va' j = page_byte s p f va' j) ∧
    Z.testbit (pte_of (mem s') (p_pagetable p) va) 4 = true ∧ out s' = out s).
Proof.
  intros Hok Hd Hu Hv Hdk Huk Hvk HU Hl.
  assert (Hat : in_swap_at p k va) by (by exists dk).
  destruct (swap_at_ok _ _ _ _ _ _ Hok _ _ Hat) as (dk' & _ & Hvd & [_ Hvo _ HPG _]).
  rewrite Hvd in *. pose proof (va_ok_max va Hvo) as Hmax.
  assert (Hne : va ≠ vr).
  { intros ->. eapply (ram_not_swap _ _ _ _ _ _ Hok r k vr); [|done]. by exists d. }
  eapply (swap_pages_detach sel s G l i p f vr r d); [done..|].
  intros s1 Hok1 Hdet1 Hst1 Hb1 Hv1 Hf1 Hou1. set (p1 := removed r d p) in *.
  pose proof Hok1 as [Hwf1 Hp1 Hroot1 _ _ _ _ _ _ _ _].
  pose proof (det_va _ _ _ _ Hdet1) as Hvor.
  assert (Hdk1 : p_swap p1 !! k = Some dk) by done.
  assert (Hr : (r < length (p_ram p))%nat) by (by eapply lookup_lt_Some).
  assert (Hk : (k < length (p_swap p))%nat) by (by eapply lookup_lt_Some).
  assert (Hd1 : p_ram p1 !! r = Some (remove_page d)) by (simpl; by apply list_lookup_insert_eq).
  destruct (swap_at_ok _ _ _ _ _ _ Hok1 k va) as (dk2 & _ & Hvd2 & [_ _ _ HPG1 _]); [by exists dk|].
  rewrite Hvd2 in HPG1.
  destruct (pte_of_nonzero _ _ _ (testbit_nonzero _ _ HPG1)) as [a Ha]. simpl in Ha.
  rewrite (va_ok_w64 va) by done. change (1 =? 1) with true. cbv iota.
  apply wp_bind, wp_bind. eapply (walk_noalloc_ok s1); [exact Hwf1|exact Hroot1|exact Hmax|]. rewrite Ha. simpl.
  eapply (swapfile_to_ram_in sel s1 G l i p1 f va a r k (remove_page d) dk); try done.
  { destruct l; [simpl in Hl; lia|done]. }
  intros pg l2 s2 Hl2 Hin. rewrite Hl2 in Hok1.
  destruct (swap_in_paging sel s1 G pg l2 i p1 f va r k _ dk s2 Hok1 Hd1) as [Hok2 Hb2]; try done.
  set (p2 := swapped_in sel va r k (remove_page d) dk p1) in *.
  set (G2 := <[pg := UData (p_pagetable p1) va]> G) in *.
  destruct Hin as [Hwf2 Hp2 Hst2 Hfs2 Hou2 Hpte2 _ _ Hpg].
  destruct (in_pte_facts pg Hpg) as (_ & _ & _ & HU2 & _).
  assert (HnT : ¬ (vr / PGSIZE = va / PGSIZE)).
  { intros Heq. apply Hne. symmetry. by eapply va_ok_page. }
  destruct (detached_step i f (λ n, n = va / PGSIZE) s1 G l s2 G2 l2 p1 p2 vr) as (Hdet2 & Hpte & Hag);
    try done.
  { intros k' [(_ & _ & H)|[_ H]]%(in_ram_insert p1 p2 r (new_pd sel p1 va (remove_page d)) _ _ eq_refl);
      [by apply Hne|by eapply (det_ram _ _ _ _ Hdet1)]. }
  { intros k' [(_ & ? & _)|[_ H]]%(in_swap_insert p1 p2 k (remove_page dk) _ _ eq_refl);
      [done|by eapply (det_swap _ _ _ _ Hdet1)]. }
  destruct (det_slot _ _ _ _ Hdet2) as [ar Har]. cbv zeta.
  eapply (swap_out_ok s2 G2 l2 i p2 f vr ar k (remove_page dk)); [done|done|done| |done| | |].
  { simpl. by apply list_lookup_insert_eq. }
  { destruct (Hfs2 f I) as (_ & -> & _); [apply Hok1|]. rewrite Hf1.
    destruct (pg_swap _ _ _ _ _ _ Hok k dk Hdk) as [[? _]|[_ _ _ _ ?]]; [congruence|].
    unfold PGSIZE in *. lia. }
  { subst l. simpl in Hl. destruct l2; [simpl in Hl; lia|done]. }
  intros s3 Hok3 Hst3 Hb3 Hbo3 _ Hou3.
  split; [done|]. eexists _, _. split; [exact Hok3|]. split_and!.
  - by rewrite Hl2.
  - eapply pstep_trans; [eapply pstep_weaken; [exact Hst1|by left]|].
    eapply pstep_trans; [eapply pstep_weaken; [exact Hst2|by right]|].
    eapply pstep_weaken; [exact Hst3|by left].
  - intros va' j Hva' Hj. destruct (decide (va' = vr)) as [->|Hne'].
    + change (exchanged sel va vr r k d dk p) with (saved k (remove_page dk) vr p2).
      rewrite Hb3 by done. rewrite <- Hv1 by done. change (p_pagetable p2) with (p_pagetable p).
      change (p_pagetable p1) with (p_pagetable p) in Hpte, Hag.
      rewrite Hpte. f_equal. apply Hag. lia.
    + change (exchanged sel va vr r k d dk p) with (saved k (remove_page dk) vr p2).
      rewrite Hbo3, Hb2, Hb1 by done. done.
  - rewrite (ps_view _ _ _ _ _ _ _ _ Hst3); [change (p_pagetable p1) with (p_pagetable p) in Hpte2; by rewrite Hpte2|apply Hok2|done|].
    right. intros H. by apply HnT.
  - congruence.
Qed.

(** Moving a page out to make room: the first free slot of the file is used. *)
Lemma swap_pages_evict sel s G l i p f vr r d va :
  paging_ok s G l i p f → p_ram p !! r = Some d → pd_used d = 1 → pd_va d = vr →
  Z.testbit (pte_of (mem s) (p_pagetable p) vr) 4 = true → l ≠ [] →
  (∃ k e, p_swap p !! k = Some e ∧ pd_used e = 0) →
  wp (swap_pages sel va vr 0) s (λ x s', x = Z.of_nat r ∧ ∃ k e G' l',
    p_swap p !! k = Some e ∧ free_pd e ∧
    paging_ok s' G' l' i (saved k e vr (removed r d p)) f ∧ length l' = S (length l) ∧
    pstep i (p_pagetable p) f (λ n, n = vr / PGSIZE) s G s' G' ∧
    (∀ va' j, 0 <= va' → 0 <= j < PGSIZE →
       page_byte s' (saved k e vr (removed r d p)) f va' j = page_byte s p f va' j)).
Proof.
  intros Hok Hd Hu Hv HU Hl (k0 & e0 & He0 & Hu0).
  eapply (swap_pages_detach sel s G l i p f vr r d); [done..|].
  intros s1 Hok1 Hdet1 Hst1 Hb1 Hv1 Hf1 Hou1. set (p1 := removed r d p) in *.
  change (0 =? 1) with false. cbv iota.
  apply wp_bind, wp_bind. eapply wp_myproc; [apply Hok1|].
  change (p_swap p1) with (p_swap p).
  destruct (find_page_spec (λ d, pd_used d =? 0) 0 (p_swap p)) as [[_ Hno]|(k & e & -> & He & Hue & Hbefore)];
    [lia| |].
  { apply Hno in He0. apply Z.eqb_neq in He0. done. }
  apply Z.eqb_eq in Hue. cbv zeta. rewrite Z.add_0_l, (proj2 (Z.eqb_neq (Z.of_nat k) (-1))) by lia.
  apply wp_ret.
  assert (Hfe : free_pd e) by (destruct (pg_swap _ _ _ _ _ _ Hok _ _ He) as [?|[? _ _ _ _]]; [done|lia]).
  destruct (det_slot _ _ _ _ Hdet1) as [a Ha].
  eapply (swap_out_ok s1 G l i p1 f vr a k e); [done|done|done|done|done| |done|].
  { eapply (first_free_size _ _ _ _ _ _ Hok1); [exact He|exact Hbefore|]. apply sw_size_nonneg. }
  intros s2 Hok2 Hst2 Hb2 Hbo2 _ _. split; [done|]. eexists k, e, _, _.
  split; [done|]. split; [done|]. split; [exact Hok2|]. split; [done|]. split.
  - eapply pstep_trans; [exact Hst1|exact Hst2].
  - intros va' j Hva' Hj. destruct (decide (va' = vr)) as [->|Hne].
    + rewrite Hb2 by done. rewrite <- Hv1 by done. done.
    + rewrite Hbo2 by done. by apply Hb1.
Qed.

End Swap.
