(* ===== verification/Policy.v ===== *)
(** The page replacement policies of kernel/vm.c: what [get_NFUA_index],
    [get_LAPA_index] and [get_SCFIFO_index] return, when every record of
    [p->ram] is in use (the only case in which they are called).

    The three share one scan: the first user page with the least key, where the
    key is the age (NFUA), the number of one bits of the age and then the age
    (LAPA), or the time the page entered the queue (SCFIFO).

    [update_age] of kernel/proc.c, run at every timer interrupt under NFUA and
    LAPA: the age of every user page in RAM is a shift register that takes in
    the page's accessed bit at the top, and the accessed bit is cleared. *)

From S2P Require Import Prelude Riscv Memory State Kalloc PageTable Paging PagingInv Swap.

(** ** Scanning for the least key *)

Definition lexlt (a b : Z * Z) : bool :=
  (a.1 <? b.1) || ((b.1 =? a.1) && (a.2 <? b.2)).

(** [r] is the first of the [n] indices that satisfy [ub] and have the least
    key. *)
Record victim (ub : Z → bool) (K : Z → Z * Z) (n r : Z) : Prop := {
  vic_range : 0 <= r < n;
  vic_user : ub r = true;
  vic_least : ∀ k, 0 <= k < n → ub k = true → lexlt (K k) (K r) = false;
  vic_first : ∀ k, 0 <= k < r → ub k = true → lexlt (K r) (K k) = true
}.

(** The scan after the indices below [n]. *)
Definition scanned (ub : Z → bool) (K : Z → Z * Z) (n : Z) (key : Z * Z) (r : Z) (first : bool) : Prop :=
  if first then r = 0 ∧ ∀ k, 0 <= k < n → ub k = false
  else key = K r ∧ victim ub K n r.

Lemma lexlt_spec a b :
  lexlt a b = true ↔ a.1 < b.1 ∨ (a.1 = b.1 ∧ a.2 < b.2).
Proof.
  unfold lexlt. rewrite orb_true_iff, andb_true_iff, !Z.ltb_lt, Z.eqb_eq. intuition lia.
Qed.

Lemma lexlt_false a b :
  lexlt a b = false ↔ b.1 < a.1 ∨ (a.1 = b.1 ∧ b.2 <= a.2).
Proof. rewrite <- not_true_iff_false, lexlt_spec. lia. Qed.

Section Scan.
Context (ub : Z → bool) (K : Z → Z * Z).

Lemma scanned_0 key : scanned ub K 0 key 0 true.
Proof. split; [done|]. intros. lia. Qed.

Lemma scanned_skip n key r first :
  0 <= n → ub n = false → scanned ub K n key r first → scanned ub K (n + 1) key r first.
Proof.
  intros Hn Hub. destruct first.
  - intros [-> H]. split; [done|]. intros k Hk. destruct (decide (k = n)) as [->|]; [done|].
    apply H. lia.
  - intros [-> [Hr Hu Hl Hf]]. split; [done|]. split; [lia|done| |done].
    intros k Hk Hku. apply Hl; [|done]. destruct (decide (k = n)) as [->|]; [congruence|lia].
Qed.

Lemma scanned_take n key r first :
  0 <= n → ub n = true → first || lexlt (K n) key = true → scanned ub K n key r first →
  scanned ub K (n + 1) (K n) n false.
Proof.
  intros Hn Hub Hlt H. split; [done|]. split; [lia|done|..].
  - intros k Hk Hku. destruct (decide (k = n)) as [->|].
    { apply lexlt_false. lia. }
    destruct first; [destruct H as [_ H]; rewrite H in Hku by lia; done|].
    destruct H as [-> [_ _ Hl _]]. specialize (Hl k ltac:(lia) Hku).
    simpl in Hlt. apply lexlt_spec in Hlt. apply lexlt_false in Hl. apply lexlt_false. lia.
  - intros k Hk Hku.
    destruct first; [destruct H as [_ H]; rewrite H in Hku by lia; done|].
    destruct H as [-> [_ _ Hl _]]. specialize (Hl k ltac:(lia) Hku).
    simpl in Hlt. apply lexlt_spec in Hlt. apply lexlt_false in Hl. apply lexlt_spec. lia.
Qed.

Lemma scanned_keep n key r first :
  0 <= n → ub n = true → first || lexlt (K n) key = false → scanned ub K n key r first →
  scanned ub K (n + 1) key r first.
Proof.
  intros Hn Hub Hlt H. apply orb_false_iff in Hlt as [-> Hlt].
  destruct H as [-> [Hr Hu Hl Hf]]. split; [done|]. split; [lia|done| |done].
  intros k Hk Hku. destruct (decide (k = n)) as [->|]; [done|]. apply Hl; [lia|done].
Qed.

(** With a user page among them, the scan ends at the victim. *)
Lemma scanned_victim n key r first :
  scanned ub K n key r first → (∃ k, 0 <= k < n ∧ ub k = true) → victim ub K n r.
Proof.
  destruct first; [|by intros [_ ?]]. intros [_ H] (k & Hk & Hu). by rewrite H in Hu.
Qed.

Lemma victim_unique n r r' : victim ub K n r → victim ub K n r' → r = r'.
Proof.
  intros [H1 H2 H3 H4] [H1' H2' H3' H4']. destruct (Z.lt_trichotomy r r') as [Hlt|[->|Hlt]]; [|done|].
  - specialize (H4' r ltac:(lia) H2). specialize (H3 r' H1' H2'). congruence.
  - specialize (H4 r' ltac:(lia) H2'). specialize (H3' r H1 H2). congruence.
Qed.

End Scan.

Lemma scanned_exists ub K n :
  0 <= n → ∃ key r first, scanned ub K n key r first.
Proof.
  revert n. apply natlike_ind; [by eexists (0, 0), 0, true; apply scanned_0|].
  intros n Hn (key & r & first & H). destruct (ub n) eqn:Eu.
  - destruct (first || lexlt (K n) key) eqn:El.
    + eexists _, _, _. by eapply scanned_take.
    + eexists _, _, _. by eapply scanned_keep.
  - eexists _, _, _. by eapply scanned_skip.
Qed.

Lemma victim_exists ub K n :
  0 <= n → (∃ k, 0 <= k < n ∧ ub k = true) → ∃ r, victim ub K n r.
Proof.
  intros Hn Hu. destruct (scanned_exists ub K n Hn) as (key & r & first & H).
  exists r. by eapply scanned_victim.
Qed.

(** The number of indices below [n] in a set. *)
Fixpoint count_below (n : nat) (D : Z → bool) : Z :=
  match n with
  | O => 0
  | S k => count_below k D + (if D (Z.of_nat k) then 1 else 0)
  end.

Lemma count_below_range n D : 0 <= count_below n D <= Z.of_nat n.
Proof. induction n as [|n IH]; simpl; [lia|]. destruct (D _); lia. Qed.

Lemma count_below_add n D r :
  D r = false → 0 <= r →
  count_below n (λ k, D k || (k =? r)) =
  count_below n D + (if decide (r < Z.of_nat n) then 1 else 0).
Proof.
  intros HD Hr. induction n as [|n IH]; cbn [count_below]; [rewrite decide_False by lia; lia|].
  rewrite IH. destruct (Z.eqb_spec (Z.of_nat n) r) as [Heq|].
  - rewrite Heq, HD. simpl. repeat case_decide; lia.
  - rewrite orb_false_r. repeat case_decide; destruct (D _); lia.
Qed.

Lemma count_below_pos n D k : D k = true → 0 <= k < Z.of_nat n → 0 < count_below n D.
Proof.
  intros HD. induction n as [|n IH]; cbn [count_below]; intros Hk; [lia|].
  pose proof (count_below_range n D). destruct (decide (k = Z.of_nat n)) as [->|].
  - rewrite HD. lia.
  - destruct (D (Z.of_nat n)); [lia|]. rewrite Z.add_0_r. apply IH. lia.
Qed.

Lemma victim_ext ub ub' K K' n r :
  (∀ k, 0 <= k < n → ub k = ub' k) → (∀ k, 0 <= k < n → ub k = true → K k = K' k) →
  victim ub K n r → victim ub' K' n r.
Proof.
  intros Hu HK [H1 H2 H3 H4]. split; [done|by rewrite <- Hu|..].
  - intros k Hk Hku. rewrite <- !HK; rewrite ?Hu by lia; try done; [|by rewrite <- Hu].
    apply H3; [done|by rewrite Hu].
  - intros k Hk Hku. rewrite <- !HK; rewrite ?Hu by lia; try done; [|lia|by rewrite <- Hu].
    apply H4; [done|by rewrite Hu by lia].
Qed.

(** ** Counting one bits *)

(** The number of one bits among the [n] lowest of [x]. *)
Fixpoint ones_below (n : nat) (x : Z) : Z :=
  match n with
  | O => 0
  | S k => ones_below k x + (if Z.testbit x (Z.of_nat k) then 1 else 0)
  end.

Definition popcount32 (x : Z) : Z := ones_below 32 x.

Section Policy.
Context {F : Type} {KI : KImage} {KOK : KImageOk KI} {SW : SwapStore F} {SWOK : SwapStoreOk F}.
Implicit Types (s : kst F) (p : proc).

Lemma count_ones_ok age s (Q : Z → kst F → Prop) :
  Q (popcount32 age) s → wp (count_ones age) s Q.
Proof.
  unfold popcount32. intros HQ. unfold count_ones.
  eapply (wp_loop _ (λ m st s', ∃ n, (n + m = 32)%nat ∧ s' = s ∧
    st = (ones_below n age, if decide (n < 32)%nat then 2 ^ Z.of_nat n else 0))) with (n := 32%nat).
  - intros m st s' (n & Hn & -> & ->). unfold count_ones_body.
    case_decide as Hlt.
    + rewrite (proj2 (Z.eqb_neq _ 0)) by lia. apply wp_ret. exists (m - 1)%nat. split; [lia|].
      exists (S n). split_and!; [lia|done|]. rewrite <- Z.shiftl_1_l, truth_land_pow2 by lia.
      f_equal; [simpl; destruct (Z.testbit _ _); lia|].
      unfold w32. rewrite Z.shiftl_shiftl, Z.shiftl_1_l by lia.
      replace (Z.of_nat n + 1) with (Z.of_nat (S n)) by lia. case_decide.
      * apply Z.mod_small. split; [lia|]. apply Z.pow_lt_mono_r; lia.
      * assert (n = 31%nat) as -> by lia. done.
    + assert (n = 32%nat) as -> by lia. change (0 =? 0) with true. cbv iota. by apply wp_ret.
  - exists 0%nat. done.
  - lia.
Qed.

#[local] Opaque popcount32.

(** ** Loops over the records *)

Lemma wp_scan {A} (body : A → Z → M (kst F) A) (inv : Z → A → Prop) a0 s (Q : A → kst F → Prop) :
  inv 0 a0 →
  (∀ n a, 0 <= n < 16 → inv n a → wp (body a n) s (λ a' s', s' = s ∧ inv (n + 1) a')) →
  (∀ a, inv 16 a → Q a s) →
  wp (foldM body a0 (seqZ 0 MAX_PSYC_PAGES)) s Q.
Proof.
  intros H0 Hstep HQ.
  eapply (wp_foldM _ (λ rem a s', s' = s ∧ ∃ n, 0 <= n <= 16 ∧ rem = seqZ n (16 - n) ∧ inv n a)).
  - intros x rem a s' (-> & n & Hn & Hrem & Hinv).
    destruct (decide (n = 16)) as [->|]; [done|].
    rewrite (seqZ_cons n) in Hrem by lia. injection Hrem as -> ->.
    eapply wp_mono; [apply Hstep; [lia|done]|]. intros a' s'' [-> Ha']. split; [done|].
    exists (n + 1). split_and!; [lia|lia| |done]. f_equal; lia.
  - intros a s' (-> & n & Hn & Hrem & Hinv).
    destruct (decide (n = 16)) as [->|]; [by apply HQ|]. by rewrite seqZ_cons in Hrem by lia.
  - split; [done|]. exists 0. done.
Qed.

(** Record [k] of [p->ram] and the flags of its page. *)
Definition ram_rec p (k : Z) : page_data :=
  default (mk_page_data (-1) 0 (-1) 0 0) (p_ram p !! Z.to_nat k).
Definition rec_pte s p (k : Z) : Z := pte_of (mem s) (p_pagetable p) (pd_va (ram_rec p k)).
Definition user_page s p (k : Z) : bool := Z.testbit (rec_pte s p k) 4.
Definition accessed s p (k : Z) : bool := Z.testbit (rec_pte s p k) 6.

Definition ram_full p : Prop := ∀ k d, p_ram p !! k = Some d → pd_used d = 1.

Definition NFUA_key p (k : Z) : Z * Z := (0, pd_age (ram_rec p k)).
Definition LAPA_key p (k : Z) : Z * Z := (popcount32 (pd_age (ram_rec p k)), pd_age (ram_rec p k)).
Definition FIFO_key p (k : Z) : Z * Z := (0, pd_fifo_time (ram_rec p k)).

Lemma lexlt_0 a b : lexlt (0, a) (0, b) = (a <? b).
Proof. done. Qed.

Section Full.
Context s (G : gmap Z usage) (l : list Z) (i : nat) p (f : nat).
Hypothesis Hok : paging_ok s G l i p f.
Hypothesis Hfull : ram_full p.

Lemma rec_facts k : 0 <= k < 16 →
  p_ram p !! Z.to_nat k = Some (ram_rec p k) ∧ ram_ok (mem s) G (p_pagetable p) (ram_rec p k).
Proof.
  intros Hk. destruct (lookup_lt_is_Some_2 (p_ram p) (Z.to_nat k)) as [d Hd].
  { rewrite (pg_lram _ _ _ _ _ _ Hok). lia. }
  unfold ram_rec. rewrite Hd. simpl. split; [done|].
  destruct (pg_ram _ _ _ _ _ _ Hok _ _ Hd) as [[H0 _]|]; [|done].
  rewrite (Hfull _ _ Hd) in H0. done.
Qed.

(** Reading record [k] and the entry of its page. *)
Lemma wp_rec k {A} (K : proc → page_data → Z → Z → M (kst F) A) Q :
  0 <= k < 16 →
  (∀ a, walk_slot (mem s) (p_pagetable p) (pd_va (ram_rec p k)) = Some a →
     wp (K p (ram_rec p k) a (rec_pte s p k)) s Q) →
  wp (p ← myproc;
      page ← ram_get k;
      pte ← walk (p_pagetable p) (w64 (pd_va page)) false;
      v ← loadM pte;
      K p page pte v) s Q.
Proof.
  intros Hk HK. destruct (rec_facts k Hk) as [Hd [_ Hvo _ _ Ho]].
  destruct Hok as [Hwf Hp Hroot _ _ _ _ _ _ _ _]. destruct (own_slot _ _ _ _ _ _ Hwf Ho) as [a Ha].
  apply wp_bind. eapply wp_myproc; [done|]. apply wp_bind.
  rewrite <- (Z2Nat.id k) by lia. eapply wp_ram_get; [done|done|].
  apply wp_bind. rewrite va_ok_w64 by done.
  eapply walk_noalloc_ok; [done|done|by apply va_ok_max|]. rewrite Ha. simpl.
  apply wp_bind. eapply wp_load_slot; [done|done|by apply va_ok_max|done|]. by apply HK.
Qed.

Lemma NFUA_scan :
  wp (foldM NFUA_body (0, 0, true) (seqZ 0 MAX_PSYC_PAGES)) s (λ st s', s' = s ∧
    scanned (user_page s p) (NFUA_key p) 16 (0, st.1.1) st.1.2 st.2).
Proof.
  eapply (wp_scan _ (λ n st, scanned (user_page s p) (NFUA_key p) n (0, st.1.1) st.1.2 st.2));
    [apply scanned_0| |done].
  intros n [[age r] first] Hn Hinv. simpl in Hinv. unfold NFUA_body.
  apply (wp_rec n); [done|]. intros a _. rewrite truth_U. fold (user_page s p n).
  destruct (user_page s p n) eqn:Eu; simpl.
  - rewrite <- lexlt_0. change (0, pd_age (ram_rec p n)) with (NFUA_key p n).
    destruct (first || lexlt (NFUA_key p n) (0, age)) eqn:El; apply wp_ret; (split; [done|]).
    + exact (scanned_take (user_page s p) (NFUA_key p) n (0, age) r first (proj1 Hn) Eu El Hinv).
    + by apply scanned_keep; [lia|..].
  - apply wp_ret. split; [done|]. by apply scanned_skip; [lia|..].
Qed.

Lemma LAPA_scan :
  wp (foldM LAPA_body (0, 0, true, 0) (seqZ 0 MAX_PSYC_PAGES)) s (λ st s', s' = s ∧
    scanned (user_page s p) (LAPA_key p) 16 (st.2, st.1.1.1) st.1.1.2 st.1.2).
Proof.
  eapply (wp_scan _ (λ n st, scanned (user_page s p) (LAPA_key p) n (st.2, st.1.1.1) st.1.1.2 st.1.2));
    [apply scanned_0| |done].
  intros n [[[age r] first] ones] Hn Hinv. cbn [fst snd] in Hinv. unfold LAPA_body.
  apply (wp_rec n); [done|]. intros a _. rewrite truth_U. fold (user_page s p n).
  destruct (user_page s p n) eqn:Eu; cbn [negb].
  - apply wp_bind, count_ones_ok.
    assert (Hc : (first || (popcount32 (pd_age (ram_rec p n)) <? ones))
      || ((ones =? popcount32 (pd_age (ram_rec p n))) && (pd_age (ram_rec p n) <? age))
      = first || lexlt (LAPA_key p n) (ones, age)).
    { rewrite <- orb_assoc. reflexivity. }
    rewrite Hc. clear Hc.
    destruct (first || lexlt (LAPA_key p n) (ones, age)) eqn:El; apply wp_ret; (split; [done|]).
    + exact (scanned_take (user_page s p) (LAPA_key p) n (ones, age) r first (proj1 Hn) Eu El Hinv).
    + by apply scanned_keep; [lia|..].
  - apply wp_ret. split; [done|]. by apply scanned_skip; [lia|..].
Qed.

Lemma SCFIFO_scan_ok time :
  wp (foldM SCFIFO_scan (time, 0, true) (seqZ 0 MAX_PSYC_PAGES)) s (λ st s', s' = s ∧
    scanned (user_page s p) (FIFO_key p) 16 (0, st.1.1) st.1.2 st.2).
Proof.
  eapply (wp_scan _ (λ n st, scanned (user_page s p) (FIFO_key p) n (0, st.1.1) st.1.2 st.2));
    [apply scanned_0| |done].
  intros n [[time' r] first] Hn Hinv. simpl in Hinv. unfold SCFIFO_scan.
  apply (wp_rec n); [done|]. intros a _. rewrite truth_U. fold (user_page s p n).
  destruct (user_page s p n) eqn:Eu; simpl.
  - rewrite <- lexlt_0. change (0, pd_fifo_time (ram_rec p n)) with (FIFO_key p n).
    destruct (first || lexlt (FIFO_key p n) (0, time')) eqn:El; apply wp_ret; (split; [done|]).
    + exact (scanned_take (user_page s p) (FIFO_key p) n (0, time') r first (proj1 Hn) Eu El Hinv).
    + by apply scanned_keep; [lia|..].
  - apply wp_ret. split; [done|]. by apply scanned_skip; [lia|..].
Qed.

(** Some page may be swapped out: the pages [exec] makes inaccessible (the guard
    below the stack) are never chosen. *)
Definition has_user_page : Prop := ∃ k, 0 <= k < 16 ∧ user_page s p k = true.

Lemma get_NFUA_ok : has_user_page →
  wp get_NFUA_index s (λ r s', s' = s ∧ victim (user_page s p) (NFUA_key p) 16 r).
Proof.
  intros Hu. unfold get_NFUA_index. apply wp_bind. eapply wp_mono; [apply NFUA_scan|].
  intros st s' [-> H]. apply wp_ret. split; [done|]. by eapply scanned_victim.
Qed.

Lemma get_LAPA_ok : has_user_page →
  wp get_LAPA_index s (λ r s', s' = s ∧ victim (user_page s p) (LAPA_key p) 16 r).
Proof.
  intros Hu. unfold get_LAPA_index. apply wp_bind. eapply wp_mono; [apply LAPA_scan|].
  intros st s' [-> H]. apply wp_ret. split; [done|]. by eapply scanned_victim.
Qed.

End Full.

(** ** Second chance *)

(** Giving page [r] its second chance: the accessed bit is cleared and the page
    goes to the end of the queue. *)
Definition requeued (r : nat) (d : page_data) p : proc :=
  set_p_ram (<[r := set_pd_fifo_time (w32 (p_fifo_counter p)) d]> (p_ram p))
    (set_p_fifo_counter (i32 (p_fifo_counter p + 1)) p).

Record requeue (i : nat) (f : nat) (r : nat) (d : page_data) s (G : gmap Z usage) (l : list Z) p s' : Prop := {
  rq_ok : paging_ok s' G l i (requeued r d p) f;
  rq_step : pstep i (p_pagetable p) f (λ n, n = pd_va d / PGSIZE) s G s' G;
  rq_byte : ∀ va j, 0 <= va → 0 <= j < PGSIZE →
    page_byte s' (requeued r d p) f va j = page_byte s p f va j;
  rq_pte : pte_of (mem s') (p_pagetable p) (pd_va d) =
    Z.land (pte_of (mem s) (p_pagetable p) (pd_va d)) (Z.lnot PTE_A);
  rq_out : out s' = out s
}.

(** A record whose page stays in place: the entry may lose its accessed bit. *)
Lemma touch_paging s G l i p f r d d' p' s' :
  paging_ok s G l i p f → p_ram p !! r = Some d → pd_used d = 1 →
  p_ram p' = <[r := d']> (p_ram p) → pd_used d' = 1 → pd_va d' = pd_va d →
  p_swap p' = p_swap p → p_pagetable p' = p_pagetable p → p_swapFile p' = p_swapFile p →
  vm_wf s' G l → proc_at s' i p' → fs s' = fs s →
  pstep i (p_pagetable p) f (λ n, n = pd_va d / PGSIZE) s G s' G →
  agree_on (PTE2PA (pte_of (mem s) (p_pagetable p) (pd_va d))) (mem s) (mem s') →
  pte_of (mem s') (p_pagetable p) (pd_va d) = pte_of (mem s) (p_pagetable p) (pd_va d) ∨
  pte_of (mem s') (p_pagetable p) (pd_va d) =
    Z.land (pte_of (mem s) (p_pagetable p) (pd_va d)) (Z.lnot PTE_A) →
  paging_ok s' G l i p' f ∧
  ∀ va j, 0 <= va → 0 <= j < PGSIZE → page_byte s' p' f va j = page_byte s p f va j.
Proof.
  intros Hok Hd Hu Hram Hu' Hv' Hsw Hpt Hsf Hwf' Hp' Hf' Hst Hag Hpte.
  assert (Hat : in_ram_at p r (pd_va d)) by (by exists d).
  destruct (ram_at_ok _ _ _ _ _ _ Hok _ _ Hat) as (d0 & Hd0 & _ & Hro).
  assert (d0 = d) as -> by congruence. destruct Hro as [_ Hvo HV HPG Hown].
  assert (Hr : (r < length (p_ram p))%nat) by (by eapply lookup_lt_Some).
  assert (Hswap : p_swap p' = <[16%nat := remove_page d]> (p_swap p)).
  { rewrite list_insert_ge; [done|]. by rewrite (pg_lswap _ _ _ _ _ _ Hok). }
  assert (HTr : ∀ k' va', k' ≠ r → in_ram_at p k' va' → ¬ (va' / PGSIZE = pd_va d / PGSIZE))
    by (intros k' va' Hne H; by eapply ram_apart).
  assert (HTs : ∀ k' va', in_swap_at p k' va' → ¬ (va' / PGSIZE = pd_va d / PGSIZE))
    by (intros k' va' H; by eapply ram_swap_apart).
  assert (Hbits : PTE2PA (pte_of (mem s') (p_pagetable p) (pd_va d)) =
                  PTE2PA (pte_of (mem s) (p_pagetable p) (pd_va d)) ∧
    Z.testbit (pte_of (mem s') (p_pagetable p) (pd_va d)) 0 = true ∧
    Z.testbit (pte_of (mem s') (p_pagetable p) (pd_va d)) 9 = false).
  { destruct Hpte as [->| ->]; [done|]. unfold PTE_A. rewrite PTE2PA_clear, !testbit_clear, HV, HPG by lia.
    done. }
  destruct Hbits as (HPA & HV' & HPG').
  assert (Hok' : paging_ok s' G l i p' f).
  { eapply (paging_transfer s G l i p f s' G l p' _ r 16 d'); try done.
    - intros k' va' _. apply HTs.
    - rewrite Hf'. apply Hok.
    - by rewrite Hf'.
    - right. rewrite Hv'. split; [|intros k' Hne H; by apply (HTr k' (pd_va d) Hne H)].
      split; rewrite ?Hv'; try done. by rewrite HPA.
    - by left. }
  split; [done|]. intros va j Hva Hj. destruct (decide (va = pd_va d)) as [->|Hne].
  - rewrite (page_byte_ram _ _ _ _ _ _ Hok _ _ _ Hat).
    rewrite (page_byte_ram _ _ _ _ _ _ Hok' r).
    { rewrite Hpt, HPA. f_equal. apply Hag. lia. }
    exists d'. rewrite Hram. by rewrite list_lookup_insert_eq.
  - eapply (byte_stays s G l i p f s' G l p' _ r 16); try done.
    + intros (d1 & Hd1 & _ & Hv1). congruence.
    + by eapply no_swap_16.
    + intros [(_ & _ & H)|[? _]]%(in_ram_insert _ _ _ _ _ _ Hram); [|done]. congruence.
    + rewrite (in_swap_same p p') by done. by eapply no_swap_16.
    + intros. by rewrite Hf'.
Qed.

Lemma requeue_ok s G l i p f r d a {A} (K : M (kst F) A) Q :
  paging_ok s G l i p f → p_ram p !! r = Some d → pd_used d = 1 →
  walk_slot (mem s) (p_pagetable p) (pd_va d) = Some a →
  (∀ s', requeue i f r d s G l p s' → wp K s' Q) →
  wp (pte_clear a PTE_A;; t ← next_fifo_time; ram_upd (Z.of_nat r) (set_pd_fifo_time t);; K) s Q.
Proof.
  intros Hok Hd Hu Ha HQ. pose proof Hok as [Hwf Hp Hroot _ _ Hlr _ _ _ _ _].
  assert (Hat : in_ram_at p r (pd_va d)) by (by exists d).
  destruct (ram_at_ok _ _ _ _ _ _ Hok _ _ Hat) as (d0 & Hd0 & _ & Hro).
  assert (d0 = d) as -> by congruence. destruct Hro as [_ Hvo _ _ Hown].
  pose proof (va_ok_max _ Hvo) as Hmax.
  apply wp_bind. eapply wp_pte_clear; [done..|]. intros s1 Hs1.
  pose proof (leaf_same _ _ _ _ _ _ _ Hs1) as Hsm.
  assert (Hp1 : proc_at s1 i p) by (by eapply proc_at_same).
  apply wp_bind. unfold next_fifo_time. apply wp_bind. eapply wp_myproc; [done|].
  apply wp_bind. eapply wp_upd_myproc; [done|]. intros s2 Hm2 Hfl2 Hfs2 Hou2 Hp2 Hout2.
  apply wp_ret, wp_bind. eapply wp_ram_upd; [done|done|done|].
  intros s3 Hm3 Hfl3 Hfs3 Hou3 Hp3 Hout3. fold (requeued r d p) in Hp3.
  apply HQ. destruct (same_but_mem_fields _ _ Hsm) as (_&_&_&_&_&Ho1&Hf1).
  assert (Hst : pstep i (p_pagetable p) f (λ n, n = pd_va d / PGSIZE) s G s3 G).
  { eapply pstep_trans; [by eapply pstep_leaf|].
    eapply pstep_mem; [congruence|by etrans|]. rewrite Hfs3, Hfs2. apply files_same_refl. }
  assert (Hpte : pte_of (mem s3) (p_pagetable p) (pd_va d) =
    Z.land (pte_of (mem s) (p_pagetable p) (pd_va d)) (Z.lnot PTE_A)).
  { rewrite Hm3, Hm2, (leaf_view _ _ _ _ _ _ _ Hs1), decide_True by done. done. }
  destruct (touch_paging s G l i p f r d (set_pd_fifo_time (w32 (p_fifo_counter p)) d) (requeued r d p) s3)
    as [Hok3 Hb3]; [done|done|done|done|done|done|done|done|done| |exact Hp3|congruence|done| |by right|].
  - eapply (vm_wf_ext s1); [congruence|congruence|apply Hs1].
  - rewrite Hm3, Hm2. by apply (leaf_data _ _ _ _ _ _ _ Hs1 _ _ Hown I).
  - split; [done|done|done|done|congruence].
Qed.

(** Every record entered the queue before now, and the clock does not wrap
    during one search. *)
Definition fifo_fresh p : Prop :=
  0 <= p_fifo_counter p ∧ p_fifo_counter p + 16 < 2 ^ 31 ∧
  ∀ k d, p_ram p !! k = Some d → 0 <= pd_fifo_time d < p_fifo_counter p.

Definition ram_pages p (n : Z) : Prop := ∃ k va, in_ram_at p k va ∧ n = va / PGSIZE.

(** The search after the pages in [D] got their second chance. *)
Record sc_inv s (G : gmap Z usage) (l : list Z) (i : nat) p (f : nat) (D : Z → bool) s' p' : Prop := {
  sc_ok : paging_ok s' G l i p' f;
  sc_step : pstep i (p_pagetable p) f (ram_pages p) s G s' G;
  sc_byte : ∀ va j, 0 <= va → 0 <= j < PGSIZE → page_byte s' p' f va j = page_byte s p f va j;
  sc_out : out s' = out s;
  sc_swap : p_swap p' = p_swap p;
  sc_pt : p_pagetable p' = p_pagetable p;
  sc_rec : ∀ k, 0 <= k < 16 → ∃ t, ram_rec p' k = set_pd_fifo_time t (ram_rec p k);
  sc_user : ∀ k, 0 <= k < 16 → user_page s' p' k = user_page s p k;
  sc_old : ∀ k, 0 <= k < 16 → D k = false →
    ram_rec p' k = ram_rec p k ∧ accessed s' p' k = accessed s p k;
  sc_new : ∀ k, 0 <= k < 16 → D k = true → accessed s p k = true ∧ accessed s' p' k = false;
  sc_time : fifo_fresh p →
    p_fifo_counter p' = p_fifo_counter p + count_below 16 D ∧
    (∀ k, 0 <= k < 16 → D k = true →
       p_fifo_counter p <= pd_fifo_time (ram_rec p' k) < p_fifo_counter p') ∧
    (∀ r0, victim (user_page s p) (FIFO_key p) 16 r0 → 0 < count_below 16 D →
       D r0 = true ∧ ∀ k, 0 <= k < 16 → D k = true → k ≠ r0 →
         pd_fifo_time (ram_rec p' r0) < pd_fifo_time (ram_rec p' k))
}.

Lemma count_below_none n : count_below n (λ _, false) = 0.
Proof. induction n; simpl; [done|lia]. Qed.

Lemma pstep_refl i root f T s G : pstep i root f T s G s G.
Proof.
  apply pstep_mem; [done|reflexivity|apply files_same_refl].
Qed.

Lemma sc_start s G l i p f : paging_ok s G l i p f → sc_inv s G l i p f (λ _, false) s p.
Proof.
  intros Hok. split; try done.
  - intros k Hk. exists (pd_fifo_time (ram_rec p k)). by destruct (ram_rec p k).
  - intros _. rewrite count_below_none. split_and!; [lia|done|]. intros. lia.
Qed.

Lemma sc_full s G l i p f D s' p' :
  sc_inv s G l i p f D s' p' → paging_ok s G l i p f → ram_full p → ram_full p'.
Proof.
  intros Hsc Hok Hf k d Hd.
  assert (Hk : (k < 16)%nat).
  { rewrite <- (pg_lram _ _ _ _ _ _ (sc_ok _ _ _ _ _ _ _ _ _ Hsc)). by eapply lookup_lt_Some. }
  destruct (sc_rec _ _ _ _ _ _ _ _ _ Hsc (Z.of_nat k)) as [t Ht]; [lia|].
  unfold ram_rec at 1 in Ht. rewrite Nat2Z.id, Hd in Ht. simpl in Ht. rewrite Ht.
  destruct (rec_facts s G l i p f Hok Hf (Z.of_nat k)) as [_ [? _ _ _ _]]; [lia|done].
Qed.

Lemma ram_rec_requeued p r d k :
  p_ram p !! Z.to_nat r = Some d → 0 <= r → 0 <= k →
  ram_rec (requeued (Z.to_nat r) d p) k =
  if decide (k = r) then set_pd_fifo_time (w32 (p_fifo_counter p)) d else ram_rec p k.
Proof.
  intros Hd Hr Hk. unfold ram_rec. simpl. case_decide as Heq.
  - subst. rewrite list_lookup_insert_eq by (by eapply lookup_lt_Some). done.
  - rewrite list_lookup_insert_ne; [done|]. lia.
Qed.

(** The flags of the records after page [r] was requeued. *)
Lemma rec_pte_requeued i f G l s p s' r d k :
  paging_ok s G l i p f → ram_full p → 0 <= r < 16 → p_ram p !! Z.to_nat r = Some d →
  requeue i f (Z.to_nat r) d s G l p s' → 0 <= k < 16 →
  rec_pte s' (requeued (Z.to_nat r) d p) k =
  if decide (k = r) then Z.land (rec_pte s p k) (Z.lnot PTE_A) else rec_pte s p k.
Proof.
  intros Hok Hfull Hr Hd [_ Hst _ Hpte _] Hk. unfold rec_pte at 1.
  rewrite (ram_rec_requeued _ _ d) by (done || lia).
  destruct (rec_facts _ _ _ _ _ _ Hok Hfull r Hr) as [Hd' Hro].
  assert (Hdr : ram_rec p r = d) by congruence. rewrite Hdr in Hro.
  case_decide as Heq.
  - subst k. unfold rec_pte. rewrite Hdr. exact Hpte.
  - destruct (rec_facts _ _ _ _ _ _ Hok Hfull k Hk) as [Hdk Hrk].
    unfold rec_pte. apply Hst; [apply Hok|apply va_ok_max, Hrk|].
    right. intros Heqv. apply va_ok_page in Heqv; [|apply Hrk|apply Hro].
    apply Heq. enough (Z.to_nat k = Z.to_nat r) by lia.
    eapply (pg_ram_inj _ _ _ _ _ _ Hok _ _ (pd_va d)); [exists (ram_rec p k)|exists d].
    + split_and!; [done|apply Hrk|done].
    + split_and!; [done|apply Hro|done].
Qed.

Section Round.
Context s (G : gmap Z usage) (l : list Z) (i : nat) p (f : nat) (D : Z → bool) s1 p1 (r : Z) s2.
Hypothesis Hok : paging_ok s G l i p f.
Hypothesis Hfull : ram_full p.
Hypothesis Hsc : sc_inv s G l i p f D s1 p1.
Hypothesis Hvic : victim (user_page s1 p1) (FIFO_key p1) 16 r.
Hypothesis Hacc : accessed s1 p1 r = true.
Hypothesis Hrq : requeue i f (Z.to_nat r) (ram_rec p1 r) s1 G l p1 s2.

Let D2 (k : Z) : bool := D k || (k =? r).
Let p2 : proc := requeued (Z.to_nat r) (ram_rec p1 r) p1.

Lemma round_fresh : D r = false.
Proof.
  destruct (D r) eqn:E; [|done].
  destruct (sc_new _ _ _ _ _ _ _ _ _ Hsc r (vic_range _ _ _ _ Hvic) E). congruence.
Qed.

Lemma round_rec k : 0 <= k < 16 →
  ram_rec p2 k = if decide (k = r) then set_pd_fifo_time (w32 (p_fifo_counter p1)) (ram_rec p1 r)
                 else ram_rec p1 k.
Proof.
  intros Hk. pose proof (vic_range _ _ _ _ Hvic) as Hr. pose proof (sc_ok _ _ _ _ _ _ _ _ _ Hsc) as Hok1.
  assert (Hfull1 : ram_full p1) by (by eapply sc_full).
  destruct (rec_facts _ _ _ _ _ _ Hok1 Hfull1 r Hr) as [Hd _].
  apply ram_rec_requeued; [done|lia|lia].
Qed.

Lemma round_pte k : 0 <= k < 16 →
  rec_pte s2 p2 k = if decide (k = r) then Z.land (rec_pte s1 p1 k) (Z.lnot PTE_A) else rec_pte s1 p1 k.
Proof.
  intros Hk. pose proof (vic_range _ _ _ _ Hvic) as Hr. pose proof (sc_ok _ _ _ _ _ _ _ _ _ Hsc) as Hok1.
  assert (Hfull1 : ram_full p1) by (by eapply sc_full).
  destruct (rec_facts _ _ _ _ _ _ Hok1 Hfull1 r Hr) as [Hd _].
  by eapply rec_pte_requeued.
Qed.

Lemma round_user k : 0 <= k < 16 → user_page s2 p2 k = user_page s1 p1 k.
Proof.
  intros Hk. unfold user_page. rewrite round_pte by done. case_decide; [|done].
  unfold PTE_A. rewrite testbit_clear by lia. apply andb_true_r.
Qed.

Lemma round_accessed k : 0 <= k < 16 →
  accessed s2 p2 k = if decide (k = r) then false else accessed s1 p1 k.
Proof.
  intros Hk. unfold accessed. rewrite round_pte by done. case_decide; [|done].
  unfold PTE_A. rewrite testbit_clear by lia. apply andb_false_r.
Qed.

(** Before the first round of a search the queue is the one it started with. *)
Lemma round_first : count_below 16 D = 0 → victim (user_page s p) (FIFO_key p) 16 r.
Proof.
  intros H0. assert (HD : ∀ k, 0 <= k < 16 → D k = false).
  { intros k Hk. destruct (D k) eqn:E; [|done]. pose proof (count_below_pos 16 D k E). lia. }
  eapply victim_ext; [| |exact Hvic].
  - intros k Hk. by apply (sc_user _ _ _ _ _ _ _ _ _ Hsc).
  - intros k Hk _. unfold FIFO_key. by rewrite (proj1 (sc_old _ _ _ _ _ _ _ _ _ Hsc k Hk (HD k Hk))).
Qed.

Lemma round_time : fifo_fresh p →
  p_fifo_counter p2 = p_fifo_counter p + count_below 16 D2 ∧
  (∀ k, 0 <= k < 16 → D2 k = true →
     p_fifo_counter p <= pd_fifo_time (ram_rec p2 k) < p_fifo_counter p2) ∧
  (∀ r0, victim (user_page s p) (FIFO_key p) 16 r0 → 0 < count_below 16 D2 →
     D2 r0 = true ∧ ∀ k, 0 <= k < 16 → D2 k = true → k ≠ r0 →
       pd_fifo_time (ram_rec p2 r0) < pd_fifo_time (ram_rec p2 k)).
Proof.
  intros Hfresh. destruct (sc_time _ _ _ _ _ _ _ _ _ Hsc Hfresh) as (Hc & Ht & Hv).
  destruct Hfresh as (Hc0 & Hc1 & _). pose proof (vic_range _ _ _ _ Hvic) as Hr.
  pose proof (count_below_add 16 D r round_fresh ltac:(lia)) as Hcount. rewrite decide_True in Hcount by lia.
  pose proof (count_below_range 16 D2) as Hrange. unfold D2 in Hrange. rewrite Hcount in Hrange.
  assert (Hw : w32 (p_fifo_counter p1) = p_fifo_counter p1).
  { pose proof (count_below_range 16 D). unfold w32. rewrite Z.mod_small; lia. }
  assert (Hcount2 : p_fifo_counter p2 = p_fifo_counter p1 + 1).
  { pose proof (count_below_range 16 D). unfold p2. simpl. unfold i32. rewrite Z.mod_small; lia. }
  assert (Htime : ∀ k, 0 <= k < 16 → pd_fifo_time (ram_rec p2 k) =
    if decide (k = r) then p_fifo_counter p1 else pd_fifo_time (ram_rec p1 k)).
  { intros k Hk. rewrite round_rec by done. case_decide; [by rewrite Hw|done]. }
  assert (HD2 : ∀ k, D2 k = true → k ≠ r → D k = true).
  { unfold D2. intros k Hk Hne. rewrite (proj2 (Z.eqb_neq _ _)), orb_false_r in Hk; done. }
  pose proof (count_below_range 16 D) as HrD.
  split_and!.
  - unfold D2. rewrite Hcount2, Hcount, Hc. lia.
  - intros k Hk HDk. rewrite Htime by done. case_decide; [lia|].
    specialize (Ht k Hk (HD2 k HDk ltac:(done))). lia.
  - intros r0 Hr0 _. pose proof (vic_range _ _ _ _ Hr0) as Hr0r.
    destruct (decide (count_below 16 D = 0)) as [H0|H0].
    + assert (r0 = r) as -> by (eapply victim_unique; [done|by apply round_first]).
      split; [unfold D2; rewrite Z.eqb_refl; apply orb_true_r|].
      intros k Hk HDk Hne. pose proof (count_below_pos 16 D k (HD2 k HDk Hne)). lia.
    + destruct (Hv r0 Hr0 ltac:(lia)) as [HD0 Hlt]. assert (r0 ≠ r) by (intros ->; pose proof round_fresh; congruence).
      split; [unfold D2; by rewrite HD0|]. intros k Hk HDk Hne.
      rewrite !Htime by done. rewrite (decide_False (P := r0 = r)) by done. case_decide.
      * apply Ht; done.
      * apply Hlt; [done|by apply HD2|done].
Qed.

Lemma round_sc : sc_inv s G l i p f D2 s2 p2.
Proof.
  pose proof (vic_range _ _ _ _ Hvic) as Hr. pose proof (sc_ok _ _ _ _ _ _ _ _ _ Hsc) as Hok1.
  destruct Hsc as [_ Hst Hby Hou Hsw Hpt Hrec Hus Hold Hnew _]. destruct Hrq as [Hok2 Hst2 Hby2 Hpte Hou2].
  assert (HD2 : ∀ k, D2 k = false → k ≠ r ∧ D k = false).
  { unfold D2. intros k [? ?%Z.eqb_neq]%orb_false_iff. done. }
  split.
  - exact Hok2.
  - eapply pstep_trans; [exact Hst|]. rewrite <- Hpt. eapply pstep_weaken; [exact Hst2|].
    intros n ->. destruct (Hrec r Hr) as [t ->]. simpl.
    destruct (rec_facts _ _ _ _ _ _ Hok Hfull r Hr) as [Hd Hro].
    exists (Z.to_nat r), (pd_va (ram_rec p r)). split; [|done]. exists (ram_rec p r).
    split_and!; [done|apply Hro|done].
  - intros va j Hva Hj. rewrite Hby2 by done. by apply Hby.
  - congruence.
  - exact Hsw.
  - exact Hpt.
  - intros k Hk. rewrite round_rec by done. case_decide; [|by apply Hrec].
    destruct (Hrec r Hr) as [t ->]. subst. by eexists.
  - intros k Hk. rewrite round_user by done. by apply Hus.
  - intros k Hk [Hne HDk]%HD2. rewrite round_rec, round_accessed by done.
    rewrite !decide_False by done. by apply Hold.
  - intros k Hk HDk. rewrite round_accessed by done. case_decide as Heq.
    + subst. split; [|done]. rewrite <- (proj2 (Hold r Hk round_fresh)). exact Hacc.
    + apply Hnew; [done|]. unfold D2 in HDk. by rewrite (proj2 (Z.eqb_neq _ _)), orb_false_r in HDk.
  - apply round_time.
Qed.

End Round.

Lemma SCFIFO_round_ok s G l i p f D s1 p1 t :
  paging_ok s G l i p f → ram_full p → has_user_page s p → sc_inv s G l i p f D s1 p1 →
  wp (SCFIFO_round t) s1 (λ x s2, match x with
    | inl _ => ∃ D2 p2, sc_inv s G l i p f D2 s2 p2 ∧ count_below 16 D2 = count_below 16 D + 1
    | inr r => s2 = s1 ∧ victim (user_page s1 p1) (FIFO_key p1) 16 r ∧ accessed s1 p1 r = false
    end).
Proof.
  intros Hok Hfull (k & Hk & Hu) Hsc. pose proof (sc_ok _ _ _ _ _ _ _ _ _ Hsc) as Hok1.
  assert (Hfull1 : ram_full p1) by (by eapply sc_full).
  unfold SCFIFO_round. apply wp_bind.
  eapply wp_mono; [by apply (SCFIFO_scan_ok s1 G l i p1 f Hok1 Hfull1)|].
  intros st s' [-> Hscan]. cbv zeta.
  assert (Hvic : victim (user_page s1 p1) (FIFO_key p1) 16 st.1.2).
  { eapply scanned_victim; [exact Hscan|]. exists k. split; [done|].
    by rewrite (sc_user _ _ _ _ _ _ _ _ _ Hsc). }
  set (r := st.1.2) in *. pose proof (vic_range _ _ _ _ Hvic) as Hr.
  destruct (rec_facts s1 G l i p1 f Hok1 Hfull1 r Hr) as [Hd Hro].
  apply (wp_rec s1 G l i p1 f Hok1 Hfull1 r); [done|]. intros a Ha.
  rewrite truth_A. fold (accessed s1 p1 r). destruct (accessed s1 p1 r) eqn:Eacc.
  - replace (ram_upd r) with (@ram_upd F (Z.of_nat (Z.to_nat r))) by (by rewrite Z2Nat.id by lia).
    eapply requeue_ok; [done|done|apply Hro|done|]. intros s2 Hrq. apply wp_ret.
    eexists _, _. split; [by eapply round_sc|].
    rewrite count_below_add; [|by eapply round_fresh|lia]. by rewrite decide_True by lia.
  - by apply wp_ret.
Qed.

(** The search ends: every round but the last clears an accessed bit. *)
Lemma get_SCFIFO_ok s G l i p f :
  paging_ok s G l i p f → ram_full p → has_user_page s p →
  wp get_SCFIFO_index s (λ r s', ∃ D p', sc_inv s G l i p f D s' p' ∧
    victim (user_page s' p') (FIFO_key p') 16 r ∧ accessed s' p' r = false).
Proof.
  intros Hok Hfull Hu. unfold get_SCFIFO_index.
  eapply (wp_loop _ (λ m (_ : Z) s', ∃ D p', sc_inv s G l i p f D s' p' ∧
    Z.of_nat m = 16 - count_below 16 D)) with (n := 16%nat).
  - intros m t s' (D & p' & Hsc & Hm).
    eapply wp_mono; [by eapply SCFIFO_round_ok|]. intros [t'|r] s2 H.
    + destruct H as (D2 & p2 & Hsc2 & Hc). pose proof (count_below_range 16 D2).
      exists (m - 1)%nat. split; [lia|]. exists D2, p2. split; [done|lia].
    + destruct H as (-> & ? & ?). by exists D, p'.
  - exists (λ _, false), p. split; [by apply sc_start|]. by rewrite count_below_none.
  - unfold MAX_PSYC_PAGES. lia.
Qed.

(** What the search returns, in terms of the state it started in. *)
Lemma second_chance s G l i p f D s' p' r :
  paging_ok s G l i p f → ram_full p → has_user_page s p → fifo_fresh p →
  sc_inv s G l i p f D s' p' →
  victim (user_page s' p') (FIFO_key p') 16 r → accessed s' p' r = false →
  victim (λ k, user_page s p k && negb (accessed s p k)) (FIFO_key p) 16 r ∨
  ((∀ k, 0 <= k < 16 → user_page s p k = true → accessed s p k = true) ∧
   victim (user_page s p) (FIFO_key p) 16 r).
Proof.
  intros Hok Hfull Hu Hfresh Hsc [Hr Hur Hleast Hfirst] Hacc.
  destruct (sc_time _ _ _ _ _ _ _ _ _ Hsc Hfresh) as (_ & Ht & Hv).
  destruct Hfresh as (_ & _ & Hold0).
  destruct Hsc as [_ _ _ _ _ _ _ Hus Hold Hnew _].
  destruct (D r) eqn:ED.
  - right. assert (Hall : ∀ k, 0 <= k < 16 → user_page s p k = true → accessed s p k = true).
    { intros k Hk Huk. destruct (D k) eqn:EDk; [by apply (Hnew k Hk EDk)|]. exfalso.
      specialize (Hleast k Hk). rewrite Hus in Hleast by done. specialize (Hleast Huk).
      apply lexlt_false in Hleast. unfold FIFO_key in Hleast. simpl in Hleast.
      specialize (Ht r Hr ED). rewrite (proj1 (Hold k Hk EDk)) in Hleast.
      destruct (rec_facts _ _ _ _ _ _ Hok Hfull k Hk) as [Hdk _]. specialize (Hold0 _ _ Hdk). lia. }
    split; [done|]. destruct (victim_exists (user_page s p) (FIFO_key p) 16 ltac:(lia) Hu) as [r0 Hr0].
    destruct (Hv r0 Hr0) as [HD0 Hlt]; [by eapply count_below_pos|].
    destruct (decide (r = r0)) as [->|Hne]; [done|]. exfalso.
    specialize (Hlt r Hr ED Hne). specialize (Hleast r0 (vic_range _ _ _ _ Hr0)).
    rewrite Hus in Hleast by apply Hr0. specialize (Hleast (vic_user _ _ _ _ Hr0)).
    apply lexlt_false in Hleast. simpl in Hleast. lia.
  - left. destruct (Hold r Hr ED) as [Hrec Hra].
    assert (HD : ∀ k, 0 <= k < 16 → user_page s p k && negb (accessed s p k) = true →
      user_page s' p' k = true ∧ FIFO_key p' k = FIFO_key p k).
    { intros k Hk [Huk Hak%negb_true_iff]%andb_true_iff. rewrite Hus by done. split; [done|].
      unfold FIFO_key. destruct (D k) eqn:EDk.
      - destruct (Hnew k Hk EDk). congruence.
      - by rewrite (proj1 (Hold k Hk EDk)). }
    assert (Hkr : FIFO_key p' r = FIFO_key p r) by (unfold FIFO_key; by rewrite Hrec).
    split; [done| | |].
    + rewrite Hus in Hur by done. by rewrite Hur, <- Hra, Hacc.
    + intros k Hk Hk'. destruct (HD k Hk Hk') as [? <-]. rewrite <- Hkr. by apply Hleast.
    + intros k Hk Hk'. destruct (HD k ltac:(lia) Hk') as [? <-]. rewrite <- Hkr. by apply Hfirst.
Qed.

(** ** The policies *)

(** NFUA: the page chosen is a user page of least age, the first such in
    [p->ram]; the search changes nothing. *)
Lemma NFUA_least_age s G l i p f :
  paging_ok s G l i p f → ram_full p → has_user_page s p →
  wp get_NFUA_index s (λ r s', s' = s ∧ 0 <= r < 16 ∧ user_page s p r = true ∧
    ∀ k, 0 <= k < 16 → user_page s p k = true →
      pd_age (ram_rec p r) <= pd_age (ram_rec p k) ∧
      (k < r → pd_age (ram_rec p r) < pd_age (ram_rec p k))).
Proof.
  intros Hok Hfull Hu. eapply wp_mono; [by eapply get_NFUA_ok|].
  intros r s' [-> [Hr Hur Hl Hf]]. do 3 (split; [done|]). intros k Hk Huk. split.
  - specialize (Hl k Hk Huk). apply lexlt_false in Hl. simpl in Hl. lia.
  - intros Hlt. specialize (Hf k ltac:(lia) Huk). apply lexlt_spec in Hf. simpl in Hf. lia.
Qed.

(** C25. LAPA: the page chosen is a user page whose age has the fewest one bits,
    of those one of least age, the first such in [p->ram]; the search changes
    nothing. *)
Theorem LAPA_fewest_ones s G l i p f :
  paging_ok s G l i p f → ram_full p → has_user_page s p →
  wp get_LAPA_index s (λ r s', s' = s ∧ 0 <= r < 16 ∧ user_page s p r = true ∧
    ∀ k, 0 <= k < 16 → user_page s p k = true →
      let ones j := popcount32 (pd_age (ram_rec p j)) in
      let age j := pd_age (ram_rec p j) in
      ones r < ones k ∨ (ones r = ones k ∧ age r <= age k ∧ (k < r → age r < age k))).
Proof.
  intros Hok Hfull Hu. eapply wp_mono; [by eapply get_LAPA_ok|].
  intros r s' [-> [Hr Hur Hl Hf]]. split; [done|]. split; [done|]. split; [done|].
  intros k Hk Huk ones age. specialize (Hl k Hk Huk). apply lexlt_false in Hl.
  cbn [LAPA_key fst snd] in Hl. fold (ones r) (ones k) (age r) (age k) in Hl.
  destruct Hl as [Hl|[Hl1 Hl2]]; [left; lia|right]. split; [lia|]. split; [lia|].
  intros Hlt. specialize (Hf k ltac:(lia) Huk). apply lexlt_spec in Hf.
  cbn [LAPA_key fst snd] in Hf. fold (ones r) (ones k) (age r) (age k) in Hf. lia.
Qed.

(** C24. SCFIFO: the search ends, and returns the user page that has been in the
    queue longest among those whose accessed bit was clear, or, when all user
    pages were accessed, the user page that has been in the queue longest.  The
    page chosen has its accessed bit clear afterwards; no page changes its
    contents or leaves RAM. *)
Theorem SCFIFO_second_chance s G l i p f :
  paging_ok s G l i p f → ram_full p → has_user_page s p → fifo_fresh p →
  wp get_SCFIFO_index s (λ r s', 0 <= r < 16 ∧
    (victim (λ k, user_page s p k && negb (accessed s p k)) (FIFO_key p) 16 r ∨
     ((∀ k, 0 <= k < 16 → user_page s p k = true → accessed s p k = true) ∧
      victim (user_page s p) (FIFO_key p) 16 r)) ∧
    ∃ p', paging_ok s' G l i p' f ∧ accessed s' p' r = false ∧
      (∀ k, 0 <= k < 16 → pd_va (ram_rec p' k) = pd_va (ram_rec p k)) ∧
      ∀ va j, 0 <= va → 0 <= j < PGSIZE → page_byte s' p' f va j = page_byte s p f va j).
Proof.
  intros Hok Hfull Hu Hfresh. eapply wp_mono; [by eapply get_SCFIFO_ok|].
  intros r s' (D & p' & Hsc & Hv & Ha). split; [apply Hv|]. split; [by eapply second_chance|].
  exists p'. split; [apply Hsc|]. split; [done|]. split; [|apply Hsc].
  intros k Hk. by destruct (sc_rec _ _ _ _ _ _ _ _ _ Hsc k Hk) as [t ->].
Qed.

End Policy.

Definition aged (A : bool) (d : page_data) : page_data :=
  let half := Z.shiftr (pd_age d) 1 in
  set_pd_age (if A then Z.lor half (Z.shiftl 1 31) else half) d.

Lemma clear_noop v n : 0 <= n → Z.testbit v n = false → Z.land v (Z.lnot (Z.shiftl 1 n)) = v.
Proof.
  intros Hn Hb. apply Z.bits_inj'. intros k Hk. rewrite testbit_clear by done.
  destruct (Z.eqb_spec k n) as [->|]; [by rewrite Hb|apply andb_true_r].
Qed.

(** The age after a tick: bit 31 is the accessed bit, the others move down. *)
Lemma aged_bits A d k : 0 <= pd_age d < 2 ^ 32 → 0 <= k < 32 →
  Z.testbit (pd_age (aged A d)) k = if k =? 31 then A else Z.testbit (pd_age d) (k + 1).
Proof.
  intros Hage Hk. unfold aged. simpl.
  assert (Hhalf : Z.testbit (Z.shiftr (pd_age d) 1) k =
    if k =? 31 then false else Z.testbit (pd_age d) (k + 1)).
  { rewrite Z.shiftr_spec by lia. destruct (Z.eqb_spec k 31) as [->|]; [|done].
    apply (testbit_high _ 32); lia. }
  destruct A; rewrite ?testbit_set, Hhalf by lia; destruct (k =? 31); try done. apply orb_false_r.
Qed.

Section Aging.
Context {F : Type} {KI : KImage} {KOK : KImageOk KI} {SW : SwapStore F} {SWOK : SwapStoreOk F}.
Implicit Types (s : kst F) (p : proc).

(** Record [k] is in use and its page is a user page. *)
Definition live s p (k : Z) : bool := (pd_used (ram_rec p k) =? 1) && user_page s p k.

(** The state after the records below [n] have been updated. *)
Record aging s (G : gmap Z usage) (l : list Z) (i : nat) p (f : nat) (n : Z) s' p' : Prop := {
  ag_ok : paging_ok s' G l i p' f;
  ag_step : pstep i (p_pagetable p) f (ram_pages p) s G s' G;
  ag_byte : ∀ va j, 0 <= va → 0 <= j < PGSIZE → page_byte s' p' f va j = page_byte s p f va j;
  ag_swap : p_swap p' = p_swap p;
  ag_pt : p_pagetable p' = p_pagetable p;
  ag_rec : ∀ k, 0 <= k < 16 →
    ram_rec p' k = if (k <? n) && live s p k then aged (accessed s p k) (ram_rec p k) else ram_rec p k;
  ag_pte : ∀ k, 0 <= k < 16 → pd_used (ram_rec p k) = 1 →
    rec_pte s' p' k = if (k <? n) && live s p k then Z.land (rec_pte s p k) (Z.lnot PTE_A)
                      else rec_pte s p k
}.

Lemma ram_rec_some s G l i p f k : paging_ok s G l i p f → 0 <= k < 16 →
  p_ram p !! Z.to_nat k = Some (ram_rec p k).
Proof.
  intros Hok Hk. destruct (lookup_lt_is_Some_2 (p_ram p) (Z.to_nat k)) as [d Hd].
  { rewrite (pg_lram _ _ _ _ _ _ Hok). lia. }
  unfold ram_rec. by rewrite Hd.
Qed.

Lemma ram_rec_at_k s G l i p f k : paging_ok s G l i p f → 0 <= k < 16 → pd_used (ram_rec p k) = 1 →
  in_ram_at p (Z.to_nat k) (pd_va (ram_rec p k)) ∧ ram_ok (mem s) G (p_pagetable p) (ram_rec p k).
Proof.
  intros Hok Hk Hu. pose proof (ram_rec_some _ _ _ _ _ _ _ Hok Hk) as Hd. split; [by eexists|].
  destruct (pg_ram _ _ _ _ _ _ Hok _ _ Hd) as [[? _]|]; [congruence|done].
Qed.

(** Updating one live record. *)
Lemma update_age_live s G l i p f k (Q : unit → kst F → Prop) :
  paging_ok s G l i p f → 0 <= k < 16 → live s p k = true →
  (∀ s', let p' := set_p_ram (<[Z.to_nat k := aged (accessed s p k) (ram_rec p k)]> (p_ram p)) p in
     paging_ok s' G l i p' f →
     pstep i (p_pagetable p) f (λ n, n = pd_va (ram_rec p k) / PGSIZE) s G s' G →
     (∀ va j, 0 <= va → 0 <= j < PGSIZE → page_byte s' p' f va j = page_byte s p f va j) →
     pte_of (mem s') (p_pagetable p) (pd_va (ram_rec p k)) = Z.land (rec_pte s p k) (Z.lnot PTE_A) →
     Q tt s') →
  wp (update_age_body k) s Q.
Proof.
  intros Hok Hk [Hu%Z.eqb_eq HU]%andb_true_iff HQ. pose proof Hok as [Hwf Hp Hroot _ _ Hlr _ _ _ _ _].
  pose proof (ram_rec_some _ _ _ _ _ _ _ Hok Hk) as Hd.
  destruct (ram_rec_at_k _ _ _ _ _ _ _ Hok Hk Hu) as [Hat [_ Hvo _ _ Hown]].
  destruct (own_slot _ _ _ _ _ _ Hwf Hown) as [a Ha]. pose proof (va_ok_max _ Hvo) as Hmax.
  set (d := ram_rec p k) in *. assert (Hlt : (Z.to_nat k < length (p_ram p))%nat) by lia.
  unfold update_age_body. rewrite <- (Z2Nat.id k) by lia. apply wp_bind. eapply wp_ram_get; [done..|].
  rewrite Hu. change (truth 1) with true. cbv iota. apply wp_bind. eapply wp_myproc; [done|].
  apply wp_bind. rewrite va_ok_w64 by done. eapply walk_noalloc_ok; [done..|]. rewrite Ha. simpl.
  apply wp_bind. eapply wp_load_slot; [done..|].
  change (pte_of (mem s) (p_pagetable p) (pd_va d)) with (rec_pte s p k). rewrite truth_U, truth_A.
  fold (user_page s p k) (accessed s p k). rewrite HU. simpl.
  apply wp_bind. eapply (wp_ram_upd s i p _ _ d); [done..|].
  intros s1 Hm1 Hfl1 Hfs1 Hou1 Hp1 Hout1.
  assert (Hst1 : ∀ T, pstep i (p_pagetable p) f T s G s1 G).
  { intros T. apply pstep_mem; [done|done|rewrite Hfs1; apply files_same_refl]. }
  destruct (accessed s p k) eqn:EA.
  - apply wp_bind. eapply (wp_ram_upd s1); [done| |by apply list_lookup_insert_eq|].
    { simpl. by rewrite length_insert. }
    intros s2 Hm2 Hfl2 Hfs2 Hou2 Hp2 Hout2. simpl in Hp2. rewrite list_insert_insert_eq in Hp2.
    assert (Hwf2 : vm_wf s2 G l) by (eapply vm_wf_ext; [| |exact Hwf]; congruence).
    eapply wp_pte_clear; [done|done|done|by rewrite Hm2, Hm1|]. intros s3 Hs3.
    rewrite Hm2, Hm1 in Hs3.
    destruct (same_but_mem_fields _ _ (leaf_same _ _ _ _ _ _ _ Hs3)) as (_&_&_&_&_&_&Hf3).
    assert (Hst : pstep i (p_pagetable p) f (λ n, n = pd_va d / PGSIZE) s G s3 G).
    { eapply pstep_trans; [apply Hst1|]. eapply (pstep_trans _ _ _ _ s1 G s2 G).
      - apply pstep_mem; [done|done|rewrite Hfs2; apply files_same_refl].
      - by eapply pstep_leaf. }
    assert (Hpte : pte_of (mem s3) (p_pagetable p) (pd_va d) = Z.land (rec_pte s p k) (Z.lnot PTE_A)).
    { rewrite (leaf_view _ _ _ _ _ _ _ Hs3), decide_True by done. done. }
    destruct (touch_paging s G l i p f (Z.to_nat k) d (aged true d)
      (set_p_ram (<[Z.to_nat k := aged true d]> (p_ram p)) p) s3) as [Hok3 Hb3];
      [done..|apply Hs3|eapply proc_at_same; [apply Hs3|exact Hp2]|congruence|done| |by right|].
    + rewrite <- Hm1, <- Hm2. apply (leaf_data _ _ _ _ _ _ _ Hs3 _ (UData (p_pagetable p) (pd_va d))); [|done].
      by rewrite Hm2, Hm1.
    + by apply (HQ s3).
  - apply wp_ret.
    destruct (touch_paging s G l i p f (Z.to_nat k) d (aged false d)
      (set_p_ram (<[Z.to_nat k := aged false d]> (p_ram p)) p) s1) as [Hok3 Hb3];
      [done..|by eapply vm_wf_ext|exact Hp1|done|apply Hst1| |by left; rewrite Hm1|].
    + rewrite Hm1. apply agree_on_refl.
    + apply (HQ s1); [done|apply Hst1|done|]. rewrite Hm1. unfold PTE_A. symmetry. by apply clear_noop.
Qed.

Lemma update_age_dead s G l i p f k (Q : unit → kst F → Prop) :
  paging_ok s G l i p f → 0 <= k < 16 → live s p k = false → Q tt s →
  wp (update_age_body k) s Q.
Proof.
  intros Hok Hk Hlive HQ. pose proof Hok as [Hwf Hp Hroot _ _ _ _ Hram _ _ _].
  pose proof (ram_rec_some _ _ _ _ _ _ _ Hok Hk) as Hd. unfold live in Hlive.
  unfold update_age_body. rewrite <- (Z2Nat.id k) by lia. apply wp_bind. eapply wp_ram_get; [done..|].
  destruct (Hram _ _ Hd) as [[Hu _]|[Hu Hvo _ _ Hown]]; rewrite Hu in *.
  { change (truth 0) with false. cbv iota. by apply wp_ret. }
  simpl in Hlive. change (truth 1) with true. cbv iota.
  destruct (own_slot _ _ _ _ _ _ Hwf Hown) as [a Ha]. pose proof (va_ok_max _ Hvo) as Hmax.
  apply wp_bind. eapply wp_myproc; [done|].
  apply wp_bind. rewrite va_ok_w64 by done. eapply walk_noalloc_ok; [done..|]. rewrite Ha. simpl.
  apply wp_bind. eapply wp_load_slot; [done..|]. fold (rec_pte s p k). rewrite truth_U.
  fold (user_page s p k). rewrite Hlive. by apply wp_ret.
Qed.

Lemma aging_step s G l i p f n s1 p1 :
  paging_ok s G l i p f → 0 <= n < 16 → aging s G l i p f n s1 p1 →
  wp (update_age_body n) s1 (λ _ s2, ∃ p2, aging s G l i p f (n + 1) s2 p2).
Proof.
  intros Hok Hn [Hok1 Hst Hb Hsw Hpt Hrec Hpte].
  assert (Hn1 : ram_rec p1 n = ram_rec p n) by (rewrite Hrec, Z.ltb_irrefl; done).
  assert (Hpn : pd_used (ram_rec p n) = 1 → rec_pte s1 p1 n = rec_pte s p n)
    by (intros; rewrite Hpte, Z.ltb_irrefl; done).
  assert (Hlive : live s1 p1 n = live s p n).
  { unfold live, user_page. rewrite Hn1. destruct (Z.eqb_spec (pd_used (ram_rec p n)) 1); [|done].
    by rewrite Hpn. }
  assert (Hlt : ∀ k, 0 <= k < 16 → k ≠ n → (k <? n + 1) = (k <? n)) by (intros; lia).
  destruct (live s p n) eqn:El.
  - pose proof El as [Hu%Z.eqb_eq _]%andb_true_iff.
    assert (HA : accessed s1 p1 n = accessed s p n) by (unfold accessed; by rewrite Hpn).
    destruct (ram_rec_at_k _ _ _ _ _ _ n Hok Hn Hu) as [Hat _].
    eapply update_age_live; [done|done|done|]. rewrite Hn1, HA, Hpt. intros s2 p2 Hok2 Hst2 Hb2 Hpte2.
    assert (Hin1 : (Z.to_nat n < length (p_ram p1))%nat) by (rewrite (pg_lram _ _ _ _ _ _ Hok1); lia).
    assert (Hrec2 : ∀ k, 0 <= k < 16 → ram_rec p2 k =
      if decide (k = n) then aged (accessed s p n) (ram_rec p n) else ram_rec p1 k).
    { intros k Hk. unfold ram_rec at 1, p2. simpl. case_decide as Heq.
      - subst. by rewrite list_lookup_insert_eq.
      - rewrite list_lookup_insert_ne by lia. done. }
    exists p2. split; [done| | |done|done| |].
    + eapply pstep_trans; [exact Hst|]. eapply pstep_weaken; [exact Hst2|].
      intros ? ->. by eexists _, _.
    + intros va j Hva Hj. rewrite Hb2 by done. by apply Hb.
    + intros k Hk. rewrite Hrec2 by done. case_decide as Heq.
      * subst. rewrite (proj2 (Z.ltb_lt _ _)) by lia. simpl. by rewrite El.
      * rewrite Hlt by done. by apply Hrec.
    + intros k Hk Huk. destruct (decide (k = n)) as [->|Hne].
      * rewrite (proj2 (Z.ltb_lt _ _)) by lia. simpl. rewrite El, <- Hpn by done. rewrite <- Hpte2.
        unfold rec_pte at 1. rewrite Hrec2, decide_True by done. change (p_pagetable p2) with (p_pagetable p1). by rewrite Hpt.
      * rewrite Hlt, <- Hpte by done. unfold rec_pte. rewrite Hrec2, decide_False by done.
        destruct (ram_rec_at_k _ _ _ _ _ _ k Hok Hk Huk) as [Hatk [_ Hvok _ _ _]].
        assert (Hv : pd_va (ram_rec p1 k) = pd_va (ram_rec p k)).
        { rewrite Hrec by done. by destruct (_ && _). }
        rewrite Hv. change (p_pagetable p2) with (p_pagetable p1). rewrite Hpt. apply Hst2.
        { apply Hst, Hok. }
        { by apply va_ok_max. }
        right. eapply (ram_apart _ _ _ _ _ _ Hok); [exact Hat| |exact Hatk]. lia.
  - eapply update_age_dead; [done|done|done|]. exists p1. split; try done.
    + intros k Hk. destruct (decide (k = n)) as [->|]; [by rewrite El, andb_false_r|].
      rewrite Hlt by done. by apply Hrec.
    + intros k Hk Huk. destruct (decide (k = n)) as [->|]; [rewrite El, andb_false_r; auto|].
      rewrite Hlt by done. by apply Hpte.
Qed.

Lemma update_age_ok s G l i p f :
  paging_ok s G l i p f → wp update_age s (λ _ s', ∃ p', aging s G l i p f 16 s' p').
Proof.
  intros Hok. unfold update_age.
  eapply (wp_for_each _ (λ rem s', ∃ n p', 0 <= n <= 16 ∧ rem = seqZ n (16 - n) ∧
    aging s G l i p f n s' p')).
  - intros x rem s' (n & p' & Hn & Hrem & Hag). destruct (decide (n = 16)) as [->|]; [done|].
    rewrite (seqZ_cons n) in Hrem by lia. injection Hrem as -> ->.
    eapply wp_mono; [eapply aging_step; [done|lia|done]|]. intros _ s2 [p2 Hag2].
    exists (n + 1), p2. split; [lia|]. split; [f_equal; lia|done].
  - intros s' (n & p' & Hn & Hrem & Hag). destruct (decide (n = 16)) as [->|]; [by exists p'|].
    by rewrite seqZ_cons in Hrem by lia.
  - exists 0, p. split; [lia|]. split; [done|]. split; try done.
    + intros k Hk. by rewrite (proj2 (Z.ltb_ge _ _)) by lia.
    + intros k Hk _. by rewrite (proj2 (Z.ltb_ge _ _)) by lia.
Qed.

(** A tick of [update_age]: for every user page in RAM the age becomes a
    32-bit shift register with the accessed bit entering at bit 31, and the
    accessed bit is cleared; other records, the contents of all pages and
    everything outside the process stay as they are. *)
Lemma update_age_tick s G l i p f :
  paging_ok s G l i p f → (∀ k, 0 <= k < 16 → 0 <= pd_age (ram_rec p k) < 2 ^ 32) →
  wp update_age s (λ _ s', ∃ p', paging_ok s' G l i p' f ∧
    (∀ k, 0 <= k < 16 → live s p k = true →
       accessed s' p' k = false ∧ user_page s' p' k = true ∧
       ∀ b, 0 <= b < 32 → Z.testbit (pd_age (ram_rec p' k)) b =
         if b =? 31 then accessed s p k else Z.testbit (pd_age (ram_rec p k)) (b + 1)) ∧
    (∀ k, 0 <= k < 16 → live s p k = false → ram_rec p' k = ram_rec p k) ∧
    (∀ va j, 0 <= va → 0 <= j < PGSIZE → page_byte s' p' f va j = page_byte s p f va j) ∧
    pstep i (p_pagetable p) f (ram_pages p) s G s' G).
Proof.
  intros Hok Hage. eapply wp_mono; [by apply update_age_ok|].
  intros _ s' [p' [Hok' Hst Hb _ _ Hrec Hpte]]. exists p'. split; [done|].
  split; [|split; [|by split]].
  - intros k Hk Hlive. pose proof Hlive as [Hu%Z.eqb_eq HU]%andb_true_iff.
    assert (Hlt : (k <? 16) && live s p k = true) by (rewrite Hlive; lia).
    unfold accessed at 1, user_page at 1. rewrite Hpte, Hrec, Hlt by done. unfold PTE_A.
    rewrite !testbit_clear by lia. fold (user_page s p k). rewrite HU. split_and!.
    + apply andb_false_r.
    + done.
    + intros b Hb'. apply aged_bits; [by apply Hage|done].
  - intros k Hk Hlive. by rewrite Hrec, Hlive, andb_false_r.
Qed.

End Aging.
