(* ===== verification/Fault.v ===== *)
(** The page fault path under a paging policy: [exchange_pages], [swap] and
    [handle_not_NONE] of kernel/vm.c bring the faulting page into RAM and keep
    the contents of every page of the process. *)

From S2P Require Import Prelude Riscv Memory State Kalloc PageTable Paging PagingInv Swap Policy.

Section Code.
Context {F : Type} {KI : KImage} {SW : SwapStore F}.

(** [handle_not_NONE] of kernel/vm.c: a page fault under a paging policy. *)
Definition handle_not_NONE (sel : selection) : M (kst F) unit :=
  st ← gets stval;
  let va := PGROUNDDOWN st in
  p ← myproc;
  pte ← walk (p_pagetable p) va false;
  if negb (pte =? 0) then
    v ← loadM pte;
    if truth (Z.land v PTE_PG) then swap sel va pte
    else upd_myproc (set_p_killed 1)
  else upd_myproc (set_p_killed 1).

End Code.

(** The number of records in use. *)
Fixpoint used_pages (l : list page_data) : Z :=
  match l with
  | [] => 0
  | d :: l' => (if truth (pd_used d) then 1 else 0) + used_pages l'
  end.

Section Fault.
Context {F : Type} {KI : KImage} {KOK : KImageOk KI} {SW : SwapStore F} {SWOK : SwapStoreOk F}.
Implicit Types (s : kst F) (p : proc).

(** The virtual pages a process keeps in RAM or in its swap file. *)
Definition paged p (n : Z) : Prop :=
  ∃ k va, (in_ram_at p k va ∨ in_swap_at p k va) ∧ n = va / PGSIZE.

Lemma paging_ok_ext s s' G l i p f :
  mem s' = mem s → freelist s' = freelist s → fs s' = fs s → proc_at s' i p →
  paging_ok s G l i p f → paging_ok s' G l i p f.
Proof.
  intros Hm Hfl Hf Hp []. split; rewrite ?Hm, ?Hf; try done. by eapply vm_wf_ext.
Qed.

Lemma page_byte_ext s s' p f va j :
  mem s' = mem s → fs s' = fs s → page_byte s' p f va j = page_byte s p f va j.
Proof. intros Hm Hf. unfold page_byte. by rewrite Hm, Hf. Qed.

(** ** count_pages *)

Lemma count_pages_ok s i p l flag (Q : Z → kst F → Prop) :
  proc_at s i p →
  (∀ s', mem s' = mem s → freelist s' = freelist s → fs s' = fs s → proc_at s' i p →
     outside i s s' → (flag = false → s' = s) → Q (used_pages l) s') →
  wp (count_pages l flag) s Q.
Proof.
  revert s Q. induction l as [|d l IH]; intros s Q Hp HQ; cbn [count_pages used_pages] in *.
  { apply wp_ret. apply HQ; reflexivity || done. }
  destruct (truth (pd_used d)); [|rewrite Z.add_0_l in HQ; by apply IH].
  apply wp_bind. destruct flag.
  - apply wp_bind. eapply wp_myproc; [done|]. apply wp_modify, wp_bind.
    apply IH; [done|]. intros s' Hm Hfl Hf Hp' Hout Hfs. apply wp_ret.
    apply HQ; try done. etrans; [|exact Hout]. by split.
  - apply wp_ret, wp_bind. apply IH; [done|]. intros s' Hm Hfl Hf Hp' Hout Hfs.
    apply wp_ret. by apply HQ.
Qed.

Lemma used_pages_le l : used_pages l <= Z.of_nat (length l).
Proof. induction l as [|d l IH]; simpl; [lia|]. destruct (truth _); lia. Qed.

Lemma used_pages_lt l :
  used_pages l < Z.of_nat (length l) ↔ ∃ k d, l !! k = Some d ∧ pd_used d = 0.
Proof.
  induction l as [|d l IH]; cbn [used_pages length].
  { split; [lia|]. intros (k & d & Hk & _). by rewrite lookup_nil in Hk. }
  pose proof (used_pages_le l). unfold truth. destruct (Z.eqb_spec (pd_used d) 0) as [H0|H0]; simpl.
  - split; [|lia]. intros _. by exists 0%nat, d.
  - split.
    + intros Hlt. destruct (proj1 IH) as (k & d' & ? & ?); [lia|]. by exists (S k), d'.
    + intros ([|k] & d' & Hk & Hu); simpl in Hk; [congruence|].
      assert (used_pages l < Z.of_nat (length l)); [|lia]. apply IH. by exists k, d'.
Qed.

(** ** Choosing a victim *)

Record chosen s (G : gmap Z usage) (l : list Z) (i : nat) p (f : nat) (r : Z) s' p' : Prop := {
  ch_ok : paging_ok s' G l i p' f;
  ch_range : 0 <= r < 16;
  ch_full : ram_full p';
  ch_user : user_page s' p' r = true;
  ch_step : pstep i (p_pagetable p) f (ram_pages p) s G s' G;
  ch_byte : ∀ va j, 0 <= va → 0 <= j < PGSIZE → page_byte s' p' f va j = page_byte s p f va j;
  ch_swap : p_swap p' = p_swap p;
  ch_pt : p_pagetable p' = p_pagetable p;
  ch_va : ∀ k, 0 <= k < 16 → pd_va (ram_rec p' k) = pd_va (ram_rec p k)
}.

Lemma choose_ok sel s G l i p f (Q : Z → kst F → Prop) :
  sel ≠ NONE → paging_ok s G l i p f → ram_full p → has_user_page s p →
  (∀ r s' p', chosen s G l i p f r s' p' → Q r s') →
  wp (match sel with
      | NFUA => get_NFUA_index
      | LAPA => get_LAPA_index
      | SCFIFO => get_SCFIFO_index
      | NONE => mret 0
      end) s Q.
Proof.
  intros Hsel Hok Hfull Hu HQ.
  assert (Hsame : ∀ K r, victim (user_page s p) K 16 r → chosen s G l i p f r s p).
  { intros K r [Hr Hur _ _]. split; try done. }
  destruct sel; [done|..].
  - eapply wp_mono; [by eapply get_SCFIFO_ok|]. intros r s' (D & p' & Hsc & [Hr Hur _ _] & _).
    apply (HQ r s' p'). assert (Hfull' : ram_full p') by (by eapply sc_full).
    destruct Hsc as [? ? ? ? ? ? Hrec ? ? ? ?]. split; try done.
    intros k Hk. by destruct (Hrec k Hk) as [t ->].
  - eapply wp_mono; [by eapply get_NFUA_ok|]. intros r s' [-> Hv]. eapply HQ; eauto.
  - eapply wp_mono; [by eapply get_LAPA_ok|]. intros r s' [-> Hv]. eapply HQ; eauto.
Qed.

(** ** exchange_pages, swap and the fault handler *)

(** What bringing in the page at [va] guarantees. *)
Record paged_in (i : nat) (f : nat) (va : Z) s (G : gmap Z usage) (l : list Z) p
    s' (G' : gmap Z usage) (l' : list Z) p' : Prop := {
  pi_ok : paging_ok s' G' l' i p' f;
  pi_in : ∃ r, in_ram_at p' r va;
  pi_V : Z.testbit (pte_of (mem s') (p_pagetable p') va) 0 = true;
  pi_U : Z.testbit (pte_of (mem s') (p_pagetable p') va) 4 = true;
  pi_byte : ∀ va' j, 0 <= va' → 0 <= j < PGSIZE →
    page_byte s' p' f va' j = page_byte s p f va' j;
  pi_step : pstep i (p_pagetable p) f (paged p) s G s' G'
}.

Lemma exchange_pages_ok sel s G l i p f k va :
  sel ≠ NONE → paging_ok s G l i p f → in_swap_at p k va → (2 <= length l)%nat →
  ram_full p → has_user_page s p →
  wp (exchange_pages sel va 1) s (λ _ s', ∃ G' l' p',
    paged_in i f va s G l p s' G' l' p' ∧ length l' = length l).
Proof.
  intros Hsel Hok Hat Hl Hfull Hu. unfold exchange_pages. apply wp_bind.
  eapply choose_ok; [done..|]. intros r s1 p1 [Hok1 Hr Hfull1 Hur Hst1 Hb1 Hsw Hpt Hva1].
  destruct (rec_facts s1 G l i p1 f Hok1 Hfull1 r Hr) as [Hd Hro].
  destruct (swap_at_ok _ _ _ _ _ _ Hok _ _ Hat) as (d0 & _ & Hv0 & [_ Hvo _ _ _]). rewrite Hv0 in Hvo.
  destruct Hat as (dk & Hdk & Huk & Hvk). rewrite <- Hsw in Hdk.
  apply wp_bind. rewrite <- (Z2Nat.id r) at 1 by lia.
  eapply wp_ram_get; [apply Hok1|exact Hd|].
  assert (Hi : i32 va = va) by (unfold i32; destruct Hvo; rewrite Z.mod_small; lia). rewrite Hi.
  eapply wp_mono.
  { eapply (swap_pages_exchange sel s1 G l i p1 f _ va (Z.to_nat r) k); try done. apply Hro. }
  intros x s2 (-> & G2 & l2 & Hok2 & Hl2 & Hst2 & Hb2 & HU2 & _).
  set (p2 := exchanged _ _ _ _ _ _ _ _) in *.
  assert (Hin : in_ram_at p2 (Z.to_nat r) va).
  { assert (Hlt : (Z.to_nat r < length (p_ram p1))%nat) by (by eapply lookup_lt_Some).
    exists (new_pd sel (removed (Z.to_nat r) (ram_rec p1 r) p1) va (remove_page (ram_rec p1 r))).
    split; [|done].
    unfold p2, exchanged, saved, swapped_in, enter_ram, removed. simpl.
    rewrite list_insert_insert_eq. by apply list_lookup_insert_eq. }
  exists G2, l2, p2. split; [|done].
  destruct (ram_at_ok _ _ _ _ _ _ Hok2 _ _ Hin) as (d2 & _ & Hv2 & [_ _ HV _ _]). rewrite Hv2 in HV.
  split; [done|by eexists|done|done| |].
  - intros va' j Hva' Hj. rewrite Hb2 by done. by apply Hb1.
  - eapply pstep_trans.
    + eapply pstep_weaken; [exact Hst1|]. intros n (k' & va' & ? & ?). exists k', va'. auto.
    + rewrite <- Hpt. eapply pstep_weaken; [exact Hst2|]. rewrite Hsw in Hdk.
      destruct (rec_facts s G l i p f Hok Hfull r Hr) as [Hd' Hro'].
      intros n [->| ->].
      * rewrite Hva1 by done. exists (Z.to_nat r), (pd_va (ram_rec p r)). split; [|done].
        left. exists (ram_rec p r). split_and!; [done|apply Hro'|done].
      * exists k, va. split; [|done]. right. by exists dk.
Qed.

Lemma swap_ok sel s G l i p f k va a :
  sel ≠ NONE → paging_ok s G l i p f → in_swap_at p k va →
  walk_slot (mem s) (p_pagetable p) va = Some a → (2 <= length l)%nat →
  (ram_full p → has_user_page s p) →
  wp (swap sel va a) s (λ _ s', ∃ G' l' p', paged_in i f va s G l p s' G' l' p' ∧
    (length l <= length l' + 1)%nat).
Proof.
  intros Hsel Hok Hat Ha Hl Hu. pose proof Hok as [_ Hp _ _ _ Hlr _ Hram _ _ _].
  unfold swap. apply wp_bind. eapply wp_myproc; [done|].
  apply wp_bind. eapply count_pages_ok; [done|]. intros s1 Hm1 Hfl1 Hf1 Hp1 Hout1 _.
  assert (Hok1 : paging_ok s1 G l i p f) by (by eapply paging_ok_ext).
  assert (Hst1 : pstep i (p_pagetable p) f (paged p) s G s1 G).
  { apply pstep_mem; [done|done|]. rewrite Hf1. apply files_same_refl. }
  destruct (Z.ltb_spec (used_pages (p_ram p)) MAX_PSYC_PAGES) as [Hlt|Hge].
  - destruct (find_page_spec (λ d, pd_used d =? 0) 0 (p_ram p)) as [[_ Hno]|(r & d & -> & Hd & Hud & _)]; [lia| |].
    { destruct (proj1 (used_pages_lt (p_ram p))) as (k' & d & Hd & Hud); [rewrite Hlr; done|].
      apply Hno in Hd. apply Z.eqb_neq in Hd. done. }
    apply Z.eqb_eq in Hud. rewrite (proj2 (Z.ltb_ge _ 0)), Z.add_0_l by lia.
    assert (Hfree : free_pd d) by (destruct (Hram _ _ Hd) as [?|[? _ _ _ _]]; [done|lia]).
    destruct Hat as (dk & Hdk & Huk & Hvk). rewrite <- Hm1 in Ha.
    apply wp_bind. eapply (swapfile_to_ram_in sel s1 G l i p f va a r k d dk); try done.
    { destruct l; [simpl in Hl; lia|done]. }
    intros pg l' s2 Hl' Hin. apply wp_ret. rewrite Hl' in Hok1.
    destruct (swap_in_paging sel s1 G pg l' i p f va r k d dk s2) as [Hok2 Hb2]; try done.
    destruct Hin as [_ _ Hst2 _ _ Hpte2 _ _ Hpg]. destruct (in_pte_facts pg Hpg) as (_ & HV & _ & HU & _).
    eexists _, l', _. split; [|rewrite Hl'; simpl; lia]. split; [exact Hok2| | | | |].
    + exists r, (new_pd sel p va d). split; [|done]. simpl.
      apply list_lookup_insert_eq. by eapply lookup_lt_Some.
    + simpl. by rewrite Hpte2.
    + simpl. by rewrite Hpte2.
    + intros va' j Hva' Hj. rewrite Hb2 by done. by apply page_byte_ext.
    + eapply pstep_trans; [exact Hst1|]. eapply pstep_weaken; [exact Hst2|].
      intros n ->. exists k, va. split; [|done]. right. by exists dk.
  - assert (Hfull : ram_full p).
    { intros k' d Hd. destruct (Hram _ _ Hd) as [[H0 _]|[? _ _ _ _]]; [|done].
      assert (used_pages (p_ram p) < Z.of_nat (length (p_ram p))); [|rewrite Hlr in *; unfold MAX_PSYC_PAGES in *; lia].
      apply used_pages_lt. by exists k', d. }
    apply wp_bind. eapply wp_mono.
    { eapply (exchange_pages_ok sel s1 G l i p f k va); try done.
      destruct (Hu Hfull) as (k' & ? & Hk'). exists k'. split; [done|].
      unfold user_page, rec_pte in *. by rewrite Hm1. }
    intros x s2 (G2 & l2 & p2 & [H1 H2 H3 H4 H5 H6] & Hl2). apply wp_ret.
    exists G2, l2, p2. split; [|lia]. split; [done..| |].
    + intros va' j Hva' Hj. rewrite H5 by done. by apply page_byte_ext.
    + by eapply pstep_trans.
Qed.

(** C1. A page fault under a paging policy, on a page in the swap file, returns
    with the page in RAM and accessible to the user.  Every page of the process,
    in RAM or in the file, holds the bytes it held before; the paging invariant
    holds again; and page tables, pages and files of everyone else are untouched.
    Two free pages suffice: one for the page, one as the buffer of the page that
    is written out. *)
Theorem page_fault_brings_in sel s G l i p f k :
  sel ≠ NONE → paging_ok s G l i p f → in_swap_at p k (PGROUNDDOWN (stval s)) →
  (2 <= length l)%nat → (ram_full p → has_user_page s p) →
  wp (handle_not_NONE sel) s (λ _ s', ∃ G' l' p',
    paged_in i f (PGROUNDDOWN (stval s)) s G l p s' G' l' p').
Proof.
  intros Hsel Hok Hat Hl Hu. pose proof Hok as [Hwf Hp Hroot _ _ _ _ _ _ _ _].
  destruct (swap_at_ok _ _ _ _ _ _ Hok _ _ Hat) as (d & _ & Hv & [_ Hvo _ HPG _]). rewrite Hv in *.
  set (va := PGROUNDDOWN (stval s)) in *. pose proof (va_ok_max va Hvo) as Hmax.
  destruct (pte_of_nonzero _ _ _ (testbit_nonzero _ _ HPG)) as [a Ha].
  unfold handle_not_NONE. apply wp_bind, wp_gets. cbv zeta. fold va. apply wp_bind. eapply wp_myproc; [done|].
  apply wp_bind. eapply walk_noalloc_ok; [done..|]. rewrite Ha. simpl.
  destruct (walk_slot_range _ _ _ _ _ _ Hwf Hroot Hmax Ha) as (_ & _ & Hnz).
  rewrite (proj2 (Z.eqb_neq a 0)) by done. simpl.
  apply wp_bind. eapply wp_load_slot; [done..|]. rewrite truth_PG, HPG.
  eapply wp_mono; [by eapply swap_ok|]. intros x s' (G' & l' & p' & H & _). by exists G', l', p'.
Qed.

(** A page fault at an address below [MAXVA] whose entry is missing or not
    marked [PTE_PG] sets [p->killed] and does nothing else. *)
Lemma page_fault_kills sel s G l i p :
  vm_wf s G l → proc_at s i p → is_root G (p_pagetable p) → 0 <= stval s < MAXVA →
  Z.testbit (pte_of (mem s) (p_pagetable p) (PGROUNDDOWN (stval s))) 9 = false →
  handle_not_NONE sel s = Ok (tt, set_procs (<[i := set_p_killed 1 p]> (procs s)) s).
Proof.
  intros Hwf Hp Hroot Hst HPG. set (va := PGROUNDDOWN (stval s)) in *.
  assert (Hva : 0 <= va < MAXVA).
  { unfold va. rewrite PGROUNDDOWN_eq. unfold PGSIZE. Z.div_mod_to_equations. lia. }
  assert (Hkill : upd_myproc (set_p_killed 1) s = Ok (tt, set_procs (<[i := set_p_killed 1 p]> (procs s)) s)).
  { unfold upd_myproc. destruct Hp as [-> ->]. done. }
  assert (H : wp (handle_not_NONE sel) s (λ x s', (x, s') = (tt, set_procs (<[i := set_p_killed 1 p]> (procs s)) s))).
  { unfold handle_not_NONE. apply wp_bind, wp_gets. cbv zeta. fold va. apply wp_bind.
    eapply wp_myproc; [done|]. apply wp_bind. eapply walk_noalloc_ok; [done..|].
    destruct (walk_slot (mem s) (p_pagetable p) va) as [a|] eqn:Ha; simpl; [|by eapply wp_eq].
    destruct (walk_slot_range _ _ _ _ _ _ Hwf Hroot Hva Ha) as (_ & _ & Hnz).
    rewrite (proj2 (Z.eqb_neq a 0)) by done. simpl. apply wp_bind. eapply wp_load_slot; [done..|].
    rewrite truth_PG, HPG. by eapply wp_eq. }
  apply wp_ok in H as (x & s' & -> & ?). by f_equal.
Qed.

(** A page fault at an address from [MAXVA] on stops the kernel: the handler
    hands the address to [walk], which panics, where a process should be killed. *)
Lemma page_fault_beyond_MAXVA sel s i p :
  proc_at s i p → MAXVA <= PGROUNDDOWN (stval s) → handle_not_NONE sel s = Panic "walk".
Proof.
  intros [Hc Hp] Hge. unfold handle_not_NONE, mbind, M_bind, gets, myproc. rewrite Hc, Hp.
  unfold walk. by rewrite (proj2 (Z.leb_le _ _)).
Qed.

End Fault.
