(* ===== verification/Machine.v ===== *)
(** A reference implementation of the swap-file interface: a file is a list of
    bytes.  Writes past the end of the file, writes beyond [MAX_PSYC_PAGES]
    pages and accesses to a file that is not open fail with -1, as [writei],
    [kfilewrite] and [kfileread] do; a read past the end is short, as [readi]
    makes it.

    Concrete machines: boolean versions of the invariants with their soundness,
    and small machines on which the theorems are evaluated. *)

From S2P Require Import Prelude Riscv Memory State Kalloc PageTable Paging PagingInv Swap Policy.

Abbreviation flat := (gmap nat (list Z)).

Definition flat_write (f : nat) (off : Z) (bs : list Z) : M flat Z := λ fs,
  match fs !! f with
  | None => Ok (-1, fs)
  | Some c =>
      if (off <? 0) || (Z.of_nat (length c) <? off)
         || (MAX_PSYC_PAGES * PGSIZE <? off + Z.of_nat (length bs))
      then Ok (-1, fs)
      else Ok (Z.of_nat (length bs),
               <[f := take (Z.to_nat off) c ++ bs ++ drop (Z.to_nat off + length bs) c]> fs)
  end.

Definition flat_read (f : nat) (off n : Z) : M flat (Z * list Z) := λ fs,
  match fs !! f with
  | None => Ok ((-1, []), fs)
  | Some c =>
      let bs := take (Z.to_nat n) (drop (Z.to_nat off) c) in
      Ok ((Z.of_nat (length bs), w8 <$> bs), fs)
  end.

#[global] Instance flat_store : SwapStore flat := {
  sw_write := flat_write;
  sw_read := flat_read
}.

Definition flat_bytes (fs : flat) (f : nat) : list Z := default [] (fs !! f).
Definition flat_byte (fs : flat) (f : nat) (k : Z) : Z :=
  if k <? 0 then 0 else w8 (default 0 (flat_bytes fs f !! Z.to_nat k)).

Lemma w8_small b : 0 <= b < 256 → w8 b = b.
Proof. intros. by apply Z.mod_small. Qed.

(** Contents of a file after a write inside or at the end of it. *)
Lemma flat_splice (c bs : list Z) (off : nat) (k : nat) :
  (off <= length c)%nat → Forall (λ b, 0 <= b < 256) bs →
  w8 (default 0 ((take off c ++ bs ++ drop (off + length bs) c) !! k)) =
  if decide (off <= k < off + length bs)%nat then default 0 (bs !! (k - off)%nat)
  else w8 (default 0 (c !! k)).
Proof.
  intros Hoff Hbs. assert (Hlen : length (take off c) = off) by (rewrite length_take; lia).
  destruct (decide (k < off)%nat).
  { rewrite lookup_app_l, lookup_take_lt by lia. by rewrite decide_False by lia. }
  rewrite lookup_app_r, Hlen by lia. destruct (decide (k - off < length bs)%nat).
  - rewrite lookup_app_l by lia. rewrite decide_True by lia.
    destruct (bs !! (k - off)%nat) as [b|] eqn:E; [|done]. simpl.
    rewrite list.Forall_forall in Hbs. apply w8_small, Hbs. by eapply list_elem_of_lookup_2.
  - rewrite lookup_app_r, lookup_drop by lia. rewrite decide_False by lia.
    do 3 f_equal. lia.
Qed.

#[global] Instance flat_store_ok : SwapStoreOk flat.
Proof.
  refine {| sw_valid := λ fs f, is_Some (fs !! f);
            sw_size := λ fs f, Z.of_nat (length (flat_bytes fs f));
            sw_byte := flat_byte |}.
  - intros fs f off bs [c Hc] Hoff Hbs Hmax. unfold wp. simpl. unfold flat_write, flat_bytes in *.
    rewrite Hc in *. simpl in Hoff.
    rewrite (proj2 (Z.ltb_ge off 0)), (proj2 (Z.ltb_ge _ off)), (proj2 (Z.ltb_ge _ (off + _))) by lia.
    simpl. split_and!; [done| | | |].
    + intros g Hg. rewrite lookup_insert. case_decide; [by eexists|done].
    + rewrite lookup_insert_eq. simpl. rewrite !length_app, length_take, length_drop. lia.
    + intros k. unfold flat_byte, flat_bytes. rewrite lookup_insert_eq, Hc. simpl.
      destruct (Z.ltb_spec k 0); [by rewrite decide_False by lia|].
      rewrite flat_splice by (done || lia).
      destruct (decide (off <= k < off + Z.of_nat (length bs))).
      * rewrite decide_True by lia. do 2 f_equal. lia.
      * by rewrite decide_False by lia.
    + intros g Hg _. rewrite lookup_insert_ne by done. split; [done|].
      intros k. unfold flat_byte, flat_bytes. by rewrite lookup_insert_ne.
  - intros fs f off n [c Hc] Hoff Hn Hmax. unfold wp. simpl. unfold flat_read, flat_bytes in *.
    rewrite Hc in *. simpl in Hmax. simpl. rewrite length_take, length_drop.
    split; [lia|]. split; [|done]. apply list_eq. intros k.
    rewrite !list_lookup_fmap. destruct (decide (Z.of_nat k < n)).
    + rewrite lookup_take_lt, lookup_drop, lookup_seqZ_lt by lia. simpl.
      unfold flat_byte, flat_bytes. rewrite Hc. simpl. rewrite (proj2 (Z.ltb_ge _ 0)) by lia.
      replace (Z.to_nat (off + (0 + Z.of_nat k))) with (Z.to_nat off + k)%nat by lia.
      destruct (lookup_lt_is_Some_2 c (Z.to_nat off + k)) as [b Hb]; [lia|]. by rewrite Hb.
    + rewrite lookup_take_ge by lia. by rewrite lookup_seqZ_ge by lia.
  - intros fs f. lia.
  - intros fs f k. unfold flat_byte. destruct (k <? 0); [lia|]. apply Z.mod_pos_bound. lia.
Defined.

(** ** Checking the invariants *)

Section Check.
Context {F : Type} {KI : KImage} {KOK : KImageOk KI}.
Implicit Types s : kst F.

Definition page_okb (p : Z) : bool := (p mod PGSIZE =? 0) && (kend <=? p) && (p <? PHYSTOP).

Fixpoint flistb (m : memory) (head : Z) (l : list Z) : bool :=
  match l with
  | [] => head =? 0
  | p :: l' => (head =? p) && flistb m (load64 m p) l'
  end.

(** Every entry of the table page [p] that has a byte in memory. *)
Definition childb (m : memory) (G : gmap Z usage) (p root lv pre : Z) : bool :=
  forallb (λ kv : Z * Z,
    if (p <=? kv.1) && (kv.1 <? p + PGSIZE) then
      let i := (kv.1 - p) / 8 in
      let v := load64 m (p + 8 * i) in
      implb (Z.testbit v 0) (bool_decide (G !! PTE2PA v = Some (UPt root (lv - 1) (pre * 512 + i))))
    else true) (map_to_list m).

Definition usageb (m : memory) (G : gmap Z usage) (l : list Z) (pu : Z * usage) : bool :=
  page_okb pu.1 &&
  match pu.2 with
  | UFree => bool_decide (pu.1 ∈ l)
  | UPt root lv pre => (0 <=? lv) && (lv <=? 2) && ((lv <=? 0) || childb m G pu.1 root lv pre)
  | _ => true
  end.

Definition vm_wfb s (G : gmap Z usage) (l : list Z) : bool :=
  forallb (usageb (mem s) G l) (map_to_list G) &&
  flistb (mem s) (freelist s) l && bool_decide (NoDup l) &&
  forallb (λ p, bool_decide (G !! p = Some UFree)) l.

Lemma page_okb_sound p : page_okb p = true → page_ok p.
Proof.
  unfold page_okb, page_ok. rewrite !andb_true_iff, Z.eqb_eq, Z.leb_le, Z.ltb_lt. lia.
Qed.

Lemma flistb_sound m head l : flistb m head l = true → flist m head l.
Proof.
  revert head. induction l as [|p l IH]; intros head; simpl; [apply Z.eqb_eq|].
  rewrite andb_true_iff, Z.eqb_eq. intros [? ?]. auto.
Qed.

Lemma load64_byte m a : load64 m a ≠ 0 → ∃ k v, 0 <= k < 8 ∧ m !! (a + k) = Some v.
Proof.
  intros Hne. destruct (decide (Forall (λ k, mget m (a + k) = 0) (seqZ 0 8))) as [Hall|Hex].
  - destruct Hne. apply load64_zero. intros k Hk. rewrite list.Forall_forall in Hall.
    apply Hall. apply elem_of_seqZ. lia.
  - apply not_Forall_Exists, list.Exists_exists in Hex; [|intros ?; apply _].
    destruct Hex as (k & Hk%elem_of_seqZ & Hb). unfold mget, compose in Hb. cbn beta in Hb.
    destruct (m !! (a + k)) as [v|] eqn:E; [|by destruct (Hb eq_refl)]. exists k, v. split; [lia|done].
Qed.

Lemma childb_sound m G p root lv pre i :
  childb m G p root lv pre = true → 0 <= i < 512 → Z.testbit (load64 m (p + 8 * i)) 0 = true →
  G !! PTE2PA (load64 m (p + 8 * i)) = Some (UPt root (lv - 1) (pre * 512 + i)).
Proof.
  intros Hc Hi HV. destruct (load64_byte m (p + 8 * i)) as (k & v & Hk & Hv).
  { by eapply testbit_nonzero. }
  unfold childb in Hc. rewrite forallb_forall in Hc.
  specialize (Hc (p + 8 * i + k, v)). simpl in Hc.
  rewrite (proj2 (Z.leb_le _ _)), (proj2 (Z.ltb_lt _ _)) in Hc by (unfold PGSIZE; lia). simpl in Hc.
  replace ((p + 8 * i + k - p) / 8) with i in Hc by (Z.div_mod_to_equations; lia).
  rewrite HV in Hc. simpl in Hc. apply bool_decide_eq_true_1 in Hc; [done|].
  apply list_elem_of_In, elem_of_map_to_list. done.
Qed.

Lemma vm_wfb_sound s G l : vm_wfb s G l = true → vm_wf s G l.
Proof.
  unfold vm_wfb. rewrite !andb_true_iff. intros [[[HG Hfl] Hnd%bool_decide_eq_true_1] Hl].
  rewrite forallb_forall in HG, Hl.
  assert (HG' : ∀ p u, G !! p = Some u → usageb (mem s) G l (p, u) = true).
  { intros p u Hp. apply HG, list_elem_of_In, elem_of_map_to_list. done. }
  assert (Hpok : ∀ p u, G !! p = Some u → page_ok p).
  { intros p u Hp%HG'. apply andb_true_iff in Hp as [Hp _]. by apply page_okb_sound. }
  assert (Hlf : ∀ p, p ∈ l → G !! p = Some UFree).
  { intros p Hp. apply (bool_decide_eq_true_1 _), Hl, list_elem_of_In. done. }
  split.
  - done.
  - split; [by apply flistb_sound|done|]. apply list.Forall_forall. intros p Hp%Hlf. by eapply Hpok.
  - intros p. split; [apply Hlf|]. intros Hp%HG'. apply andb_true_iff in Hp as [_ Hp].
    by apply bool_decide_eq_true_1 in Hp.
  - intros p root lv pre Hp%HG'. apply andb_true_iff in Hp as [_ Hp]. cbn [snd fst] in Hp.
    rewrite !andb_true_iff, !Z.leb_le in Hp. lia.
  - intros p root lv pre i Hp%HG' Hlv Hi HV. apply andb_true_iff in Hp as [_ Hp]. cbn [snd fst] in Hp.
    apply andb_true_iff in Hp as [_ Hp]. apply orb_true_iff in Hp as [?%Z.leb_le|Hp]; [lia|].
    by apply childb_sound.
Qed.

End Check.

Section PagingCheck.
Context {F : Type} {KI : KImage} {KOK : KImageOk KI} {SW : SwapStore F} {SWOK : SwapStoreOk F}.
Implicit Types (s : kst F) (p : proc).

Definition free_pdb (d : page_data) : bool := (pd_used d =? 0) && (pd_va d =? -1).

Definition va_okb (va : Z) : bool := (0 <=? va) && (va <? 2 ^ 31) && (va mod PGSIZE =? 0).

Definition ram_okb (m : memory) (G : gmap Z usage) (root : Z) (d : page_data) : bool :=
  let v := pte_of m root (pd_va d) in
  (pd_used d =? 1) && va_okb (pd_va d) && Z.testbit v 0 && negb (Z.testbit v 9) &&
  bool_decide (G !! PTE2PA v = Some (UData root (pd_va d))).

Definition swap_okb (m : memory) (root size : Z) (k : nat) (d : page_data) : bool :=
  let v := pte_of m root (pd_va d) in
  (pd_used d =? 1) && va_okb (pd_va d) && negb (Z.testbit v 0) && Z.testbit v 9 &&
  ((Z.of_nat k + 1) * PGSIZE <=? size).

Definition used_vas (l : list page_data) : list Z :=
  pd_va <$> filter (λ d, pd_used d = 1) l.

Definition recordsb s (G : gmap Z usage) p (f : nat) : bool :=
  forallb (λ d, free_pdb d || ram_okb (mem s) G (p_pagetable p) d) (p_ram p) &&
  forallb (λ kd, free_pdb kd.2 || swap_okb (mem s) (p_pagetable p) (sw_size (fs s) f) kd.1 kd.2)
    (imap pair (p_swap p)) &&
  bool_decide (NoDup (used_vas (p_ram p))) && bool_decide (NoDup (used_vas (p_swap p))).

Lemma free_pdb_sound d : free_pdb d = true → free_pd d.
Proof. unfold free_pdb, free_pd. by rewrite andb_true_iff, !Z.eqb_eq. Qed.

Lemma va_okb_sound va : va_okb va = true → va_ok va.
Proof. unfold va_okb, va_ok. rewrite !andb_true_iff, Z.leb_le, Z.ltb_lt, Z.eqb_eq. lia. Qed.

Lemma ram_okb_sound m G root d : ram_okb m G root d = true → ram_ok m G root d.
Proof.
  unfold ram_okb. rewrite !andb_true_iff, Z.eqb_eq, negb_true_iff.
  intros [[[[? ?%va_okb_sound] ?] ?] ?%bool_decide_eq_true_1]. by split.
Qed.

Lemma swap_okb_sound m root size k d : swap_okb m root size k d = true → swap_ok m root size k d.
Proof.
  unfold swap_okb. rewrite !andb_true_iff, Z.eqb_eq, negb_true_iff, Z.leb_le.
  intros [[[[? ?%va_okb_sound] ?] ?] ?]. by split.
Qed.

Lemma used_vas_inj (l : list page_data) k k' d d' :
  NoDup (used_vas l) → l !! k = Some d → l !! k' = Some d' →
  pd_used d = 1 → pd_used d' = 1 → pd_va d = pd_va d' → k = k'.
Proof.
  revert k k'. induction l as [|e l IH]; intros k k' Hnd Hk Hk' Hu Hu' Hv; [by rewrite lookup_nil in Hk|].
  assert (Hin : ∀ n c, l !! n = Some c → pd_used c = 1 → pd_va c ∈ used_vas l).
  { intros n c Hn Hc. apply list_elem_of_fmap. exists c. split; [done|].
    apply list_elem_of_filter. split; [done|]. by eapply list_elem_of_lookup_2. }
  assert (Hnd' : NoDup (used_vas l) ∧ (pd_used e = 1 → pd_va e ∉ used_vas l)).
  { unfold used_vas in Hnd |- *. rewrite filter_cons in Hnd. case_decide; [|done].
    rewrite fmap_cons in Hnd. apply list.NoDup_cons in Hnd as [? ?]. done. }
  destruct Hnd' as [Hnd' Hne].
  destruct k as [|k], k' as [|k']; simpl in Hk, Hk'; [done|..].
  - injection Hk as ->. destruct (Hne Hu). rewrite Hv. eauto.
  - injection Hk' as ->. destruct (Hne Hu'). rewrite <- Hv. eauto.
  - f_equal. by eapply IH.
Qed.

Lemma paging_okb_sound s G l i p f :
  vm_wfb s G l = true → proc_at s i p → G !! p_pagetable p = Some (UPt (p_pagetable p) 2 0) →
  p_swapFile p = Some f → sw_valid (fs s) f → length (p_ram p) = 16%nat → length (p_swap p) = 16%nat →
  recordsb s G p f = true → paging_ok s G l i p f.
Proof.
  intros Hvm Hp Hroot Hf Hv Hlr Hls Hrec. unfold recordsb in Hrec. rewrite !andb_true_iff in Hrec.
  destruct Hrec as [[[Hr Hs] Hnr%bool_decide_eq_true_1] Hns%bool_decide_eq_true_1].
  rewrite forallb_forall in Hr, Hs. split; try done.
  - by apply vm_wfb_sound.
  - intros k d Hd. specialize (Hr d). destruct (orb_prop _ _ (Hr ltac:(apply list_elem_of_In; by eapply list_elem_of_lookup_2))).
    + left. by apply free_pdb_sound.
    + right. by apply ram_okb_sound.
  - intros k d Hd. specialize (Hs (k, d)).
    destruct (orb_prop _ _ (Hs ltac:(apply list_elem_of_In, elem_of_lookup_imap; by exists k, d))).
    + left. by apply free_pdb_sound.
    + right. by apply swap_okb_sound.
  - intros k k' va (d & Hd & Hu & Hva) (d' & Hd' & Hu' & Hva').
    eapply (used_vas_inj (p_ram p)); [done..|]. congruence.
  - intros k k' va (d & Hd & Hu & Hva) (d' & Hd' & Hu' & Hva').
    eapply (used_vas_inj (p_swap p)); [done..|]. congruence.
Qed.

End PagingCheck.

(** ** A machine with one process

    The kernel image ends at 0x80021000.  The process has its page table in the
    three pages from 0x87000000 on, data pages from 0x87010000 on, and the
    allocator holds three free pages. *)

#[global] Instance demo_image : KImage := {
  kend := 0x80021000;
  etext := 0x80008000;
  trampoline := 0x80007000
}.

#[global] Instance demo_image_ok : KImageOk demo_image.
Proof. by split. Qed.

Definition demo_root : Z := 0x87000000.
Definition demo_free : list Z := [0x87020000; 0x87021000; 0x87022000].
Definition demo_data (k : Z) : Z := 0x87010000 + k * PGSIZE.

Definition no_page : page_data := mk_page_data (-1) 0 (-1) 0 0.
Definition ram_page (k : Z) : page_data := mk_page_data (-1) 1 (k * PGSIZE) (16 - k) k.

(** The page at address 16 * PGSIZE is in slot 0 of the swap file; the [n] pages
    below it are in RAM. *)
Definition demo_proc (n : nat) : proc :=
  mk_proc RUNNING 0 0 0 1 None 0 (17 * PGSIZE) demo_root 0 0 0 [] None [] (Some 0%nat)
    ((ram_page <$> seqZ 0 (Z.of_nat n)) ++ replicate (16 - n) no_page)
    (mk_page_data 0 1 (16 * PGSIZE) 0 0 :: replicate 15 no_page) 20.

(** Page 0 is inaccessible to the user (like the stack guard), pages 1 and 2
    have been accessed. *)
Definition demo_perm (k : Z) : Z :=
  if k =? 0 then Z.lor PTE_R PTE_W
  else if k <=? 2 then Z.lor user_perm PTE_A else user_perm.

Definition demo_mem (n : nat) : memory :=
  let m := store64 ∅ demo_root (mk_pte (demo_root + PGSIZE) 0) in
  let m := store64 m (demo_root + PGSIZE) (mk_pte (demo_root + 2 * PGSIZE) 0) in
  let m := store64 m (demo_root + 2 * PGSIZE + 8 * 16) PTE_PG in
  let m := foldl (λ m k, store64 m (demo_root + 2 * PGSIZE + 8 * k) (mk_pte (demo_data k) (demo_perm k)))
             m (seqZ 0 (Z.of_nat n)) in
  store64 (store64 m 0x87020000 0x87021000) 0x87021000 0x87022000.

Definition demo_usage (n : nat) : gmap Z usage :=
  list_to_map ((demo_root, UPt demo_root 2 0) :: (demo_root + PGSIZE, UPt demo_root 1 0)
    :: (demo_root + 2 * PGSIZE, UPt demo_root 0 0)
    :: ((λ k, (demo_data k, UData demo_root (k * PGSIZE))) <$> seqZ 0 (Z.of_nat n))
    ++ ((λ p, (p, UFree)) <$> demo_free)).

Definition demo (n : nat) : kst flat :=
  mk_kst (demo_mem n) 0x87020000 [demo_proc n] (Some 0%nat) 2 (Some 0%nat) (16 * PGSIZE + 8) []
    {[ 0%nat := replicate 4096 7 ]}.

(** The invariant of a concrete machine, by evaluation. *)
Ltac demo_paging :=
  apply paging_okb_sound;
  [vm_compute; reflexivity|split; reflexivity|vm_compute; reflexivity|reflexivity|eexists; reflexivity
  |reflexivity|reflexivity|vm_compute; reflexivity].

(** Facts about all records of a concrete array, by evaluation. *)
Lemma all_records (P : page_data → Prop) `{∀ d, Decision (P d)} (l : list page_data) :
  bool_decide (Forall P l) = true → ∀ k d, l !! k = Some d → P d.
Proof.
  intros Hall%bool_decide_eq_true_1 k d Hd. rewrite list.Forall_forall in Hall.
  apply Hall. by eapply list_elem_of_lookup_2.
Qed.
