(* ===== verification/Witness.v ===== *)
(** The theorems about memory and paging applied to the concrete machine of
    Machine.v: their hypotheses hold there. *)

From S2P Require Import Prelude Riscv Memory State Kalloc PageTable Paging PagingInv Swap Policy Fault Machine.

(** A fault on the swapped page with RAM full, under SCFIFO. *)
Lemma page_fault_brings_in_witness :
  wp (handle_not_NONE SCFIFO) (demo 16) (λ _ s', ∃ G' l' p',
    paged_in 0 0 (PGROUNDDOWN (stval (demo 16))) (demo 16) (demo_usage 16) demo_free (demo_proc 16)
      s' G' l' p').
Proof.
  apply (page_fault_brings_in SCFIFO (demo 16) (demo_usage 16) demo_free 0 (demo_proc 16) 0 0).
  - discriminate.
  - demo_paging.
  - eexists. split; [reflexivity|]. split; [reflexivity|]. vm_compute. reflexivity.
  - simpl. lia.
  - intros _. exists 3. split; [lia|]. vm_compute. reflexivity.
Defined.

Lemma SCFIFO_second_chance_witness :
  let s := demo 16 in let p := demo_proc 16 in
  wp get_SCFIFO_index s (λ r s', 0 <= r < 16 ∧
    (victim (λ k, user_page s p k && negb (accessed s p k)) (FIFO_key p) 16 r ∨
     ((∀ k, 0 <= k < 16 → user_page s p k = true → accessed s p k = true) ∧
      victim (user_page s p) (FIFO_key p) 16 r)) ∧
    ∃ p', paging_ok s' (demo_usage 16) demo_free 0 p' 0 ∧ accessed s' p' r = false ∧
      (∀ k, 0 <= k < 16 → pd_va (ram_rec p' k) = pd_va (ram_rec p k)) ∧
      ∀ va j, 0 <= va → 0 <= j < PGSIZE → page_byte s' p' 0 va j = page_byte s p 0 va j).
Proof.
  intros s p. apply (SCFIFO_second_chance s (demo_usage 16) demo_free 0 p 0).
  - demo_paging.
  - refine (all_records (λ d, pd_used d = 1) _ _). vm_compute. reflexivity.
  - exists 3. split; [lia|]. vm_compute. reflexivity.
  - split; [vm_compute; congruence|]. split; [vm_compute; congruence|].
    refine (all_records (λ d, 0 <= pd_fifo_time d < 20) _ _). vm_compute. reflexivity.
Defined.

Lemma LAPA_fewest_ones_witness :
  let s := demo 16 in let p := demo_proc 16 in
  wp get_LAPA_index s (λ r s', s' = s ∧ 0 <= r < 16 ∧ user_page s p r = true ∧
    ∀ k, 0 <= k < 16 → user_page s p k = true →
      let ones j := popcount32 (pd_age (ram_rec p j)) in
      let age j := pd_age (ram_rec p j) in
      ones r < ones k ∨ (ones r = ones k ∧ age r <= age k ∧ (k < r → age r < age k))).
Proof.
  intros s p. apply (LAPA_fewest_ones s (demo_usage 16) demo_free 0 p 0).
  - demo_paging.
  - refine (all_records (λ d, pd_used d = 1) _ _). vm_compute. reflexivity.
  - exists 3. split; [lia|]. vm_compute. reflexivity.
Defined.

(** Mapping two pages at 2 MiB needs a new level-0 table; three pages are free. *)
Lemma mappages_walkaddr_witness :
  let s := demo 16 in
  wp (mappages NFUA demo_root 0x200000 (2 * PGSIZE) 0x87030000 user_perm) s (λ r s', ∃ G' l',
    vm_wf s' G' l' ∧ l' `suffix_of` demo_free ∧
    ((r = -1 ∧ Z.of_nat (length demo_free) < 2 * map_count 0x200000 (2 * PGSIZE)) ∨
     (r = 0 ∧ ∀ root' va', is_root (demo_usage 16) root' → 0 <= va' < MAXVA →
        let n := va' / PGSIZE - 0x200000 / PGSIZE in
        wp (walkaddr root' va') s' (λ w s2, s2 = s' ∧
          if decide (root' = demo_root ∧ 0 <= n < map_count 0x200000 (2 * PGSIZE))
          then w = if Z.testbit user_perm 4 then 0x87030000 + n * PGSIZE else 0
          else w = user_pa (mem s) root' va')))).
Proof.
  intros s. apply (mappages_walkaddr NFUA s (demo_usage 16) demo_free demo_root).
  - discriminate.
  - apply vm_wfb_sound. vm_compute. reflexivity.
  - vm_compute. reflexivity.
  - lia.
  - reflexivity.
  - vm_compute. congruence.
  - lia.
  - reflexivity.
  - vm_compute. congruence.
  - apply user_perm_range.
  - intros va' Hva'. change (0x200000 / PGSIZE) with 512 in Hva'.
    change (map_count 0x200000 (2 * PGSIZE)) with 2 in Hva'.
    assert (Hpx : PX 2 va' = 0 ∧ PX 1 va' = 1).
    { rewrite !PX_eq by lia. unfold PGSIZE in Hva'.
      change (12 + 9 * 2) with 30. change (12 + 9 * 1) with 21. Z.div_mod_to_equations. lia. }
    unfold pte_of, walk_slot, walk_table, next_table. rewrite (proj1 Hpx), (proj2 Hpx).
    vm_compute. reflexivity.
Defined.

Lemma kinit_all_pages_witness :
  let s := mk_kst ∅ 0 [] None 1 None 0 [] (∅ : flat) in
  wp kinit s (λ _ s', ∃ l, kmem_ok s' l ∧ same_but_mem s s' ∧ ∀ p, p ∈ l ↔ page_ok p).
Proof. intros s. apply (kinit_all_pages s). reflexivity. Defined.

(** Allocate two of the three free pages and give one back. *)
Lemma alloc_refines_stack_witness :
  let ops := [OpAlloc; OpAlloc; OpFree 0x87020000; OpAlloc] in
  wp (run_ops ops) (demo 16) (λ rs s',
    rs = [0x87020000; 0x87021000; 0; 0x87020000] ∧
    alloc_ok s' [0x87022000] [0x87020000; 0x87021000] ∧
    ∀ p, p ∈ [] → OpFree p ∉ ops → p ∈ [0x87020000; 0x87021000] ∧ agree_on p (mem (demo 16)) (mem s')).
Proof.
  intros ops. apply (alloc_refines_stack ops (demo 16) demo_free []).
  - split.
    + apply (wf_kmem _ (demo_usage 16)), vm_wfb_sound. vm_compute. reflexivity.
    + constructor.
    + intros p Hp. by apply elem_of_nil in Hp.
  - vm_compute. reflexivity.
Defined.

