(* ===== verification/Uvm.v ===== *)
(** User address spaces, second half of kernel/vm.c: [uvmunmap], [uvminit],
    [uvmalloc], [lazy_alloc], [uvmdealloc], [freewalk], [uvmfree], [uvmcopy],
    [copyout], [copyin], [copyinstr], the kernel's own page table, and the page
    fault handler without paging ([handle_NONE]). *)

From S2P Require Import Prelude Riscv Memory State Kalloc PageTable Paging Fault.

Section Code.
Context {F : Type} {KI : KImage} {SW : SwapStore F}.

(** ** uvmunmap *)

(** The loops run over [a = va; a < va + npages*PGSIZE; a += PGSIZE]. *)
Definition uvmunmap_NONE_body (pagetable va last : Z) (do_free : bool) (a : Z) : M (kst F) (Z + unit) :=
  if a <? last then
    pte ← walk pagetable a false;
    if pte =? 0 then panic "uvmunmap: walk"
    else
      v ← loadM pte;
      if negb (truth (Z.land v PTE_V)) then panic "uvmunmap: not mapped"
      else
        (if PTE_FLAGS v =? PTE_V
         then (w ← walkaddr pagetable va;
               if negb (w =? 0) then panic "uvmunmap: not a leaf" else mret tt)
         else mret tt);;
        (if do_free
         then (w ← walkaddr pagetable va; if negb (w =? 0) then kfree (PTE2PA v) else mret tt)
         else mret tt);;
        storeM pte 0;;
        mret (inl (w64 (a + PGSIZE)))
  else mret (inr tt).

Definition uvmunmap_NONE (pagetable va npages : Z) (do_free : bool) : M (kst F) unit :=
  if negb (va mod PGSIZE =? 0) then panic "uvmunmap: not aligned"
  else
    let last := w64 (va + npages * PGSIZE) in
    loop (map_fuel va last) (uvmunmap_NONE_body pagetable va last do_free) va.

(** The scan of both record arrays for pages at address [a]. *)
Definition forget_page (a : Z) (d : page_data) : page_data :=
  if w64 (pd_va d) =? a then remove_page d else d.

Definition forget_va (a : Z) (p : proc) : proc :=
  set_p_swap (forget_page a <$> p_swap p) (set_p_ram (forget_page a <$> p_ram p) p).

Definition uvmunmap_not_NONE_body (pagetable last : Z) (do_free : bool) (a : Z) : M (kst F) (Z + unit) :=
  if a <? last then
    pte ← walk pagetable a false;
    if pte =? 0 then panic "uvmunmap: walk"
    else
      v ← loadM pte;
      if negb (truth (Z.land v PTE_V)) && negb (truth (Z.land v PTE_PG)) then panic "uvmunmap: not mapped"
      else if PTE_FLAGS v =? PTE_V then panic "uvmunmap: not a leaf"
      else
        (if do_free
         then (if negb (truth (Z.land v PTE_PG)) then kfree (PTE2PA v) else mret tt)
         else mret tt);;
        storeM pte 0;;
        p ← myproc;
        (if 2 <? p_pid p then upd_myproc (forget_va a) else mret tt);;
        mret (inl (w64 (a + PGSIZE)))
  else mret (inr tt).

Definition uvmunmap_not_NONE (pagetable va npages : Z) (do_free : bool) : M (kst F) unit :=
  if negb (va mod PGSIZE =? 0) then panic "uvmunmap: not aligned"
  else
    let last := w64 (va + npages * PGSIZE) in
    loop (map_fuel va last) (uvmunmap_not_NONE_body pagetable last do_free) va.

Definition uvmunmap (sel : selection) (pagetable va npages : Z) (do_free : bool) : M (kst F) unit :=
  match sel with
  | NONE => uvmunmap_NONE pagetable va npages do_free
  | _ => uvmunmap_not_NONE pagetable va npages do_free
  end.

(** ** Growing and shrinking *)

(** [src] is the [sz] bytes of the initial program. *)
Definition uvminit (sel : selection) (pagetable : Z) (src : list Z) : M (kst F) unit :=
  if PGSIZE <=? Z.of_nat (length src) then panic "inituvm: more than a page"
  else
    mem ← kalloc;
    memsetM mem 0 PGSIZE;;
    mappages sel pagetable 0 PGSIZE mem (Z.lor (Z.lor (Z.lor PTE_W PTE_R) PTE_X) PTE_U);;
    writeM mem src.

Definition uvmdealloc (sel : selection) (pagetable oldsz newsz : Z) : M (kst F) Z :=
  if oldsz <=? newsz then mret oldsz
  else
    (if PGROUNDUP newsz <? PGROUNDUP oldsz then
       let npages := i32 ((PGROUNDUP oldsz - PGROUNDUP newsz) / PGSIZE) in
       uvmunmap sel pagetable (PGROUNDUP newsz) (w64 npages) true
     else mret tt);;
    mret newsz.

(** The place in [p->ram] for a new page of the current process ([idx]). *)
Definition uvmalloc_place (sel : selection) (pagetable a : Z) : M (kst F) Z :=
  match sel with
  | NONE => mret 0
  | _ =>
      p ← myproc;
      if 2 <? p_pid p then
        if negb (a / PGSIZE <? MAX_TOTAL_PAGES) then panic "process cannot be larger than 32 pages"
        else if p_pagetable p =? pagetable then
          n ← count_pages (p_ram p) true;
          if n <? MAX_PSYC_PAGES then
            let k := find_page (λ d, pd_used d =? 0) 0 (p_ram p) in mret (if k =? -1 then 0 else k)
          else exchange_pages sel a 0
        else mret 0
      else mret 0
  end.

(** Recording the new page. *)
Definition uvmalloc_record (sel : selection) (pagetable a idx : Z) : M (kst F) unit :=
  match sel with
  | NONE => mret tt
  | _ =>
      p ← myproc;
      if (2 <? p_pid p) && (p_pagetable p =? pagetable) then
        match sel with
        | SCFIFO => t ← next_fifo_time; ram_upd idx (set_pd_fifo_time t)
        | NFUA => ram_upd idx (set_pd_age 0)
        | LAPA => ram_upd idx (set_pd_age 0xFFFFFFFF)
        | NONE => mret tt
        end;;
        ram_upd idx (λ d, set_pd_used 1 (set_pd_va (i32 a) (set_pd_offset (-1) d)));;
        pte ← walk (p_pagetable p) a false;
        pte_set pte PTE_V;;
        match sel with
        | SCFIFO =>
            p ← myproc;
            if find_page (λ d, w64 (pd_va d) =? a) 0 (p_ram p) =? -1
            then panic "couldn't find page in RAM" else mret tt
        | _ => mret tt
        end
      else mret tt
  end.

Definition uvmalloc_body (sel : selection) (pagetable oldsz newsz a : Z) : M (kst F) (Z + Z) :=
  if a <? newsz then
    idx ← uvmalloc_place sel pagetable a;
    mem ← kalloc;
    if mem =? 0 then uvmdealloc sel pagetable a oldsz;; mret (inr 0)
    else
      memsetM mem 0 PGSIZE;;
      r ← mappages sel pagetable a PGSIZE mem (Z.lor (Z.lor (Z.lor PTE_W PTE_X) PTE_R) PTE_U);
      if negb (r =? 0) then kfree mem;; uvmdealloc sel pagetable a oldsz;; mret (inr 0)
      else
        uvmalloc_record sel pagetable a idx;;
        mret (inl (w64 (a + PGSIZE)))
  else mret (inr newsz).

Definition uvmalloc (sel : selection) (pagetable oldsz newsz : Z) : M (kst F) Z :=
  if newsz <? oldsz then mret oldsz
  else
    let oldsz := PGROUNDUP oldsz in
    loop (map_fuel oldsz newsz) (uvmalloc_body sel pagetable oldsz newsz) oldsz.

Definition lazy_alloc_body (pagetable newsz a : Z) : M (kst F) (Z + Z) :=
  if a <? newsz then
    pte ← walk pagetable a true;
    if pte =? 0 then mret (inr 0)
    else pte_set pte PTE_V;; mret (inl (w64 (a + PGSIZE)))
  else mret (inr (i32 newsz)).

Definition lazy_alloc (pagetable oldsz newsz : Z) : M (kst F) Z :=
  if newsz <? oldsz then mret (i32 oldsz)
  else
    let oldsz := PGROUNDUP oldsz in
    loop (map_fuel oldsz newsz) (lazy_alloc_body pagetable newsz) oldsz.

(** ** Freeing page tables *)

(** [depth] bounds the nesting; a page table has three levels. *)
Fixpoint freewalk (depth : nat) (pagetable : Z) : M (kst F) unit :=
  match depth with
  | O => λ _, OutOfFuel
  | S d =>
      for_each (seqZ 0 512) (λ i,
        pte ← loadM (pagetable + 8 * i);
        if truth (Z.land pte PTE_V) && (Z.land pte (Z.lor (Z.lor PTE_R PTE_W) PTE_X) =? 0) then
          freewalk d (PTE2PA pte);;
          storeM (pagetable + 8 * i) 0
        else if truth (Z.land pte PTE_V) then panic "freewalk: leaf"
        else mret tt);;
      kfree pagetable
  end.

Definition uvmfree (sel : selection) (pagetable sz : Z) : M (kst F) unit :=
  (if 0 <? sz then uvmunmap sel pagetable 0 (PGROUNDUP sz / PGSIZE) true else mret tt);;
  freewalk 4 pagetable.

(** ** Copying an address space *)

Definition uvmcopy_err (sel : selection) (new i : Z) : M (kst F) (Z + Z) :=
  uvmunmap sel new 0 (i / PGSIZE) true;; mret (inr (-1)).

(** An entry without a page of its own: only its flags are copied. *)
Definition uvmcopy_flags (new i v : Z) (alloc : bool) : M (kst F) (Z + Z) :=
  new_pte ← walk new i alloc;
  if new_pte =? 0 then mret (inr (-1))
  else storeM new_pte (PTE_FLAGS v);; mret (inl (w64 (i + PGSIZE))).

Definition uvmcopy_page (sel : selection) (new i v : Z) : M (kst F) (Z + Z) :=
  mem ← kalloc;
  if mem =? 0 then uvmcopy_err sel new i
  else
    memmoveM mem (PTE2PA v) PGSIZE;;
    r ← mappages sel new i PGSIZE mem (PTE_FLAGS v);
    if negb (r =? 0) then kfree mem;; uvmcopy_err sel new i
    else mret (inl (w64 (i + PGSIZE))).

Definition uvmcopy_body (sel : selection) (old new sz i : Z) : M (kst F) (Z + Z) :=
  if i <? sz then
    p ← myproc;
    pte ← walk old i false;
    if pte =? 0 then panic "uvmcopy: pte should exist"
    else
      v ← loadM pte;
      if negb (bool_decide (sel = NONE)) && (2 <? p_pid p) && truth (Z.land v PTE_PG)
      then uvmcopy_flags new i v false
      else if negb (truth (Z.land v PTE_V)) then panic "uvmcopy: page not present"
      else
        match sel with
        | NONE =>
            w ← walkaddr (p_pagetable p) i;
            if w =? 0 then uvmcopy_flags new i v true else uvmcopy_page sel new i v
        | _ => uvmcopy_page sel new i v
        end
  else mret (inr 0).

Definition uvmcopy (sel : selection) (old new sz : Z) : M (kst F) Z :=
  loop (map_fuel 0 sz) (uvmcopy_body sel old new sz) 0.

(** ** Copying between kernel and user

    The kernel-side buffer is the byte string [src], or the bytes returned. *)

(** Every round but the first and the last copies a whole page. *)
Definition copy_fuel (len : Z) : nat := S (S (S (Z.to_nat (len / PGSIZE)))).

Definition copyout_body (pagetable : Z) (st : Z * list Z) : M (kst F) (Z * list Z + Z) :=
  let '(dstva, src) := st in
  let len := Z.of_nat (length src) in
  if 0 <? len then
    let va0 := PGROUNDDOWN dstva in
    pa0 ← walkaddr pagetable va0;
    if pa0 =? 0 then mret (inr (-1))
    else
      let n := Z.min (PGSIZE - (dstva - va0)) len in
      writeM (pa0 + (dstva - va0)) (take (Z.to_nat n) src);;
      mret (inl (w64 (va0 + PGSIZE), drop (Z.to_nat n) src))
  else mret (inr 0).

Definition copyout (pagetable dstva : Z) (src : list Z) : M (kst F) Z :=
  loop (copy_fuel (Z.of_nat (length src))) (copyout_body pagetable) (dstva, src).

Definition copyin_body (pagetable : Z) (st : Z * Z * list Z) : M (kst F) (Z * Z * list Z + Z * list Z) :=
  let '(srcva, len, dst) := st in
  if 0 <? len then
    let va0 := PGROUNDDOWN srcva in
    pa0 ← walkaddr pagetable va0;
    if pa0 =? 0 then mret (inr (-1, dst))
    else
      let n := Z.min (PGSIZE - (srcva - va0)) len in
      bs ← readM (pa0 + (srcva - va0)) n;
      mret (inl (w64 (va0 + PGSIZE), len - n, dst ++ bs))
  else mret (inr (0, dst)).

Definition copyin (pagetable srcva len : Z) : M (kst F) (Z * list Z) :=
  loop (copy_fuel len) (copyin_body pagetable) (srcva, len, []).

(** The inner loop of [copyinstr]: what it writes, and whether it saw the null
    byte (which it writes as well). *)
Fixpoint copy_str (bs : list Z) : list Z * bool :=
  match bs with
  | [] => ([], false)
  | c :: bs' => if c =? 0 then ([0], true) else let '(d, z) := copy_str bs' in (c :: d, z)
  end.

Definition copyinstr_body (pagetable : Z) (st : Z * Z * list Z) : M (kst F) (Z * Z * list Z + Z * list Z) :=
  let '(srcva, max, dst) := st in
  if 0 <? max then
    let va0 := PGROUNDDOWN srcva in
    pa0 ← walkaddr pagetable va0;
    if pa0 =? 0 then mret (inr (-1, dst))
    else
      let n := Z.min (PGSIZE - (srcva - va0)) max in
      bs ← readM (pa0 + (srcva - va0)) n;
      let '(d, got_null) := copy_str bs in
      if (got_null : bool) then mret (inr (0, dst ++ d))
      else mret (inl (w64 (va0 + PGSIZE), max - n, dst ++ d))
  else mret (inr (-1, dst)).

Definition copyinstr (pagetable srcva max : Z) : M (kst F) (Z * list Z) :=
  loop (copy_fuel max) (copyinstr_body pagetable) (srcva, max, []).

(** ** The kernel's page table *)

Definition proc_mapstacks (sel : selection) (kpgtbl : Z) : M (kst F) unit :=
  for_each (seqZ 0 NPROC) (λ i,
    pa ← kalloc;
    if pa =? 0 then panic "kalloc"
    else kvmmap sel kpgtbl (KSTACK i) pa PGSIZE (Z.lor PTE_R PTE_W)).

Definition kvmmake (sel : selection) : M (kst F) Z :=
  kpgtbl ← kalloc;
  memsetM kpgtbl 0 PGSIZE;;
  kvmmap sel kpgtbl UART0 UART0 PGSIZE (Z.lor PTE_R PTE_W);;
  kvmmap sel kpgtbl VIRTIO0 VIRTIO0 PGSIZE (Z.lor PTE_R PTE_W);;
  kvmmap sel kpgtbl PLIC PLIC 0x400000 (Z.lor PTE_R PTE_W);;
  kvmmap sel kpgtbl KERNBASE KERNBASE (etext - KERNBASE) (Z.lor PTE_R PTE_X);;
  kvmmap sel kpgtbl etext etext (PHYSTOP - etext) (Z.lor PTE_R PTE_W);;
  kvmmap sel kpgtbl TRAMPOLINE trampoline PGSIZE (Z.lor PTE_R PTE_X);;
  proc_mapstacks sel kpgtbl;;
  mret kpgtbl.

(** ** Page faults *)

Definition handle_NONE : M (kst F) unit :=
  st ← gets stval;
  let va := PGROUNDDOWN st in
  p ← myproc;
  (if MAXVA <? va then exits (-1) else mret tt);;
  pte ← walk (p_pagetable p) va false;
  if negb (pte =? 0) then
    v ← loadM pte;
    w ← (if truth (Z.land v PTE_V) then walkaddr (p_pagetable p) va else mret 1);
    if w =? 0 then
      r ← uvmalloc NONE (p_pagetable p) va (w64 (va + PGSIZE));
      if r =? 0 then panic "uvmalloc failure" else mret tt
    else upd_myproc (set_p_killed 1)
  else upd_myproc (set_p_killed 1).

Definition handle_page_fault (sel : selection) : M (kst F) unit :=
  match sel with
  | NONE => handle_NONE
  | _ => handle_not_NONE sel
  end.

End Code.
