(* ===== verification/Proc.v ===== *)
(** Processes (kernel/proc.c): allocation, [fork], [exit], [wait], sleeping and
    waking, [kill], and the steps of the scheduler.

    The functions run on the kernel state [kst] of State.v.  Each stands for the
    code between two points where the CPU changes hands: [sched] is where a process
    hands over to the scheduler, so [yield], [sleep] and [exit] end there, and
    [sleep_return] is the rest of [sleep].  Spin locks are left out: a function runs
    with the locks it takes. *)

From S2P Require Import Prelude Riscv Memory State Str Kalloc PageTable Paging Fault Uvm.

Definition set_p_state (v : procstate) (p : proc) : proc :=
  mk_proc v (p_chan p) (p_killed p) (p_xstate p) (p_pid p) (p_parent p) (p_kstack p) (p_sz p)
    (p_pagetable p) (p_trapframe p) (p_context_ra p) (p_context_sp p) (p_ofile p) (p_cwd p) (p_name p) (p_swapFile p) (p_ram p) (p_swap p) (p_fifo_counter p).
Definition set_p_chan (v : Z) (p : proc) : proc :=
  mk_proc (p_state p) v (p_killed p) (p_xstate p) (p_pid p) (p_parent p) (p_kstack p) (p_sz p)
    (p_pagetable p) (p_trapframe p) (p_context_ra p) (p_context_sp p) (p_ofile p) (p_cwd p) (p_name p) (p_swapFile p) (p_ram p) (p_swap p) (p_fifo_counter p).
Definition set_p_xstate (v : Z) (p : proc) : proc :=
  mk_proc (p_state p) (p_chan p) (p_killed p) v (p_pid p) (p_parent p) (p_kstack p) (p_sz p)
    (p_pagetable p) (p_trapframe p) (p_context_ra p) (p_context_sp p) (p_ofile p) (p_cwd p) (p_name p) (p_swapFile p) (p_ram p) (p_swap p) (p_fifo_counter p).
Definition set_p_pid (v : Z) (p : proc) : proc :=
  mk_proc (p_state p) (p_chan p) (p_killed p) (p_xstate p) v (p_parent p) (p_kstack p) (p_sz p)
    (p_pagetable p) (p_trapframe p) (p_context_ra p) (p_context_sp p) (p_ofile p) (p_cwd p) (p_name p) (p_swapFile p) (p_ram p) (p_swap p) (p_fifo_counter p).
Definition set_p_parent (v : option nat) (p : proc) : proc :=
  mk_proc (p_state p) (p_chan p) (p_killed p) (p_xstate p) (p_pid p) v (p_kstack p) (p_sz p)
    (p_pagetable p) (p_trapframe p) (p_context_ra p) (p_context_sp p) (p_ofile p) (p_cwd p) (p_name p) (p_swapFile p) (p_ram p) (p_swap p) (p_fifo_counter p).
Definition set_p_kstack (v : Z) (p : proc) : proc :=
  mk_proc (p_state p) (p_chan p) (p_killed p) (p_xstate p) (p_pid p) (p_parent p) v (p_sz p)
    (p_pagetable p) (p_trapframe p) (p_context_ra p) (p_context_sp p) (p_ofile p) (p_cwd p) (p_name p) (p_swapFile p) (p_ram p) (p_swap p) (p_fifo_counter p).
Definition set_p_pagetable (v : Z) (p : proc) : proc :=
  mk_proc (p_state p) (p_chan p) (p_killed p) (p_xstate p) (p_pid p) (p_parent p) (p_kstack p) (p_sz p)
    v (p_trapframe p) (p_context_ra p) (p_context_sp p) (p_ofile p) (p_cwd p) (p_name p) (p_swapFile p) (p_ram p) (p_swap p) (p_fifo_counter p).
Definition set_p_trapframe (v : Z) (p : proc) : proc :=
  mk_proc (p_state p) (p_chan p) (p_killed p) (p_xstate p) (p_pid p) (p_parent p) (p_kstack p) (p_sz p)
    (p_pagetable p) v (p_context_ra p) (p_context_sp p) (p_ofile p) (p_cwd p) (p_name p) (p_swapFile p) (p_ram p) (p_swap p) (p_fifo_counter p).
Definition set_p_ofile (v : list (option nat)) (p : proc) : proc :=
  mk_proc (p_state p) (p_chan p) (p_killed p) (p_xstate p) (p_pid p) (p_parent p) (p_kstack p) (p_sz p)
    (p_pagetable p) (p_trapframe p) (p_context_ra p) (p_context_sp p) v (p_cwd p) (p_name p) (p_swapFile p) (p_ram p) (p_swap p) (p_fifo_counter p).
Definition set_p_cwd (v : option nat) (p : proc) : proc :=
  mk_proc (p_state p) (p_chan p) (p_killed p) (p_xstate p) (p_pid p) (p_parent p) (p_kstack p) (p_sz p)
    (p_pagetable p) (p_trapframe p) (p_context_ra p) (p_context_sp p) (p_ofile p) v (p_name p) (p_swapFile p) (p_ram p) (p_swap p) (p_fifo_counter p).
Definition set_p_name (v : list Z) (p : proc) : proc :=
  mk_proc (p_state p) (p_chan p) (p_killed p) (p_xstate p) (p_pid p) (p_parent p) (p_kstack p) (p_sz p)
    (p_pagetable p) (p_trapframe p) (p_context_ra p) (p_context_sp p) (p_ofile p) (p_cwd p) v (p_swapFile p) (p_ram p) (p_swap p) (p_fifo_counter p).
Definition set_p_swapFile (v : option nat) (p : proc) : proc :=
  mk_proc (p_state p) (p_chan p) (p_killed p) (p_xstate p) (p_pid p) (p_parent p) (p_kstack p) (p_sz p)
    (p_pagetable p) (p_trapframe p) (p_context_ra p) (p_context_sp p) (p_ofile p) (p_cwd p) (p_name p) v (p_ram p) (p_swap p) (p_fifo_counter p).
Definition set_p_context (ra sp : Z) (p : proc) : proc :=
  mk_proc (p_state p) (p_chan p) (p_killed p) (p_xstate p) (p_pid p) (p_parent p) (p_kstack p) (p_sz p)
    (p_pagetable p) (p_trapframe p) ra sp (p_ofile p) (p_cwd p) (p_name p) (p_swapFile p) (p_ram p) (p_swap p) (p_fifo_counter p).

(** The files of processes (kernel/file.c, fs.c, log.c), as the process code uses
    them. *)
Class ProcFiles (F : Type) := {
  pf_createSwapFile : Z → M F nat;
  pf_removeSwapFile : Z → option nat → M F Z;
  pf_filedup : nat → M F nat;
  pf_fileclose : nat → M F unit;
  pf_idup : nat → M F nat;
  pf_iput : nat → M F unit;
  pf_begin_op : M F unit;
  pf_end_op : M F unit;
  pf_namei : list Z → M F (option nat)
}.

(** Addresses in the kernel: of [forkret] and of [&proc[i]], which is also the
    channel its process sleeps on in [wait]. *)
Class KCode := {
  forkret : Z;
  proc_addr : nat → Z;
  proc_addr_inj : ∀ i j, proc_addr i = proc_addr j → i = j;
  proc_addr_pos : ∀ i, 0 < proc_addr i
}.

(** The [n] bytes of an integer in memory. *)
Fixpoint le_bytes (n : nat) (v : Z) : list Z :=
  match n with
  | O => []
  | S k => w8 v :: le_bytes k (v / 256)
  end.

Definition not_NONE (sel : selection) : bool := match sel with NONE => false | _ => true end.

Section Code.
Context {F : Type} {KI : KImage} {SW : SwapStore F} {PF : ProcFiles F} {KC : KCode}.

(** [proc[i]] *)
Definition getp (i : nat) : M (kst F) proc := λ s,
  match procs s !! i with Some p => Ok (p, s) | None => Wild 0 end.
Definition updp (i : nat) (f : proc → proc) : M (kst F) unit := λ s,
  match procs s !! i with Some p => Ok (tt, set_procs (<[i := f p]> (procs s)) s) | None => Wild 0 end.
Definition curp : M (kst F) nat := λ s, match cur s with Some i => Ok (i, s) | None => Wild 0 end.
Definition set_cur (o : option nat) (s : kst F) : kst F :=
  mk_kst (mem s) (freelist s) (procs s) o (nextpid s) (initproc s) (stval s) (out s) (fs s).
Definition set_nextpid (n : Z) (s : kst F) : kst F :=
  mk_kst (mem s) (freelist s) (procs s) (cur s) n (initproc s) (stval s) (out s) (fs s).
Definition set_initproc (o : option nat) (s : kst F) : kst F :=
  mk_kst (mem s) (freelist s) (procs s) (cur s) (nextpid s) o (stval s) (out s) (fs s).

(** A pointer to a [struct proc] as a channel. *)
Definition chan_of (o : option nat) : Z := match o with Some i => proc_addr i | None => 0 end.

Definition procinit : M (kst F) unit :=
  for_each (seq 0 (Z.to_nat NPROC)) (λ i, updp i (set_p_kstack (KSTACK (Z.of_nat i)))).

Definition allocpid : M (kst F) Z :=
  pid ← gets nextpid; modify (set_nextpid (i32 (pid + 1)));; mret pid.

(** ** Page tables of processes *)

Definition proc_pagetable (sel : selection) (p : proc) : M (kst F) Z :=
  pagetable ← uvmcreate;
  if pagetable =? 0 then mret 0
  else
    r ← mappages sel pagetable TRAMPOLINE PGSIZE trampoline (Z.lor PTE_R PTE_X);
    if r <? 0 then uvmfree sel pagetable 0;; mret 0
    else
      r ← mappages sel pagetable TRAPFRAME PGSIZE (p_trapframe p) (Z.lor PTE_R PTE_W);
      if r <? 0 then
        uvmunmap sel pagetable TRAMPOLINE 1 false;;
        uvmfree sel pagetable 0;;
        mret 0
      else mret pagetable.

Definition proc_freepagetable (sel : selection) (pagetable sz : Z) : M (kst F) unit :=
  uvmunmap sel pagetable TRAMPOLINE 1 false;;
  uvmunmap sel pagetable TRAPFRAME 1 false;;
  uvmfree sel pagetable sz.

(** ** Allocation *)

(** The last assignments of [freeproc]; [p->name[0] = 0]. *)
Definition clear_proc (p : proc) : proc :=
  set_p_state UNUSED (set_p_xstate 0 (set_p_killed 0 (set_p_chan 0 (set_p_name (<[0%nat := 0]> (p_name p))
    (set_p_parent None (set_p_pid 0 (set_p_sz 0 (set_p_pagetable 0 p)))))))).

Definition freeproc (sel : selection) (i : nat) : M (kst F) unit :=
  p ← getp i;
  (if truth (p_trapframe p) then kfree (p_trapframe p) else mret tt);;
  updp i (set_p_trapframe 0);;
  (if truth (p_pagetable p) then proc_freepagetable sel (p_pagetable p) (p_sz p) else mret tt);;
  (if not_NONE sel then
     (if 2 <? p_pid p then updp i (λ p, set_p_swap (remove_page <$> p_swap p) (set_p_ram (remove_page <$> p_ram p) p))
      else mret tt);;
     updp i (set_p_fifo_counter 0)
   else mret tt);;
  updp i clear_proc.

(** The first unused entry of the table. *)
Definition find_unused_proc (ps : list proc) : option nat :=
  fst <$> list_find (λ p, p_state p = UNUSED) ps.

Definition allocproc (sel : selection) : M (kst F) (option nat) :=
  ps ← gets procs;
  match find_unused_proc ps with
  | None => mret None
  | Some i =>
    pid ← allocpid;
    updp i (λ p, set_p_state USED (set_p_pid pid p));;
    (if not_NONE sel && (2 <? pid) then
       f ← liftF (pf_createSwapFile pid); updp i (set_p_swapFile (Some f))
     else mret tt);;
    tf ← kalloc;
    updp i (set_p_trapframe tf);;
    if tf =? 0 then freeproc sel i;; mret None
    else
      p ← getp i;
      pt ← proc_pagetable sel p;
      updp i (set_p_pagetable pt);;
      if pt =? 0 then freeproc sel i;; mret None
      else
        updp i (λ p, set_p_context forkret (p_kstack p + PGSIZE) p);;
        mret (Some i)
  end.

(** ** The first process *)

Definition initcode : list Z :=
  [0x17; 0x05; 0x00; 0x00; 0x13; 0x05; 0x45; 0x02;
   0x97; 0x05; 0x00; 0x00; 0x93; 0x85; 0x35; 0x02;
   0x93; 0x08; 0x70; 0x00; 0x73; 0x00; 0x00; 0x00;
   0x93; 0x08; 0x20; 0x00; 0x73; 0x00; 0x00; 0x00;
   0xef; 0xf0; 0x9f; 0xff; 0x2f; 0x69; 0x6e; 0x69;
   0x74; 0x00; 0x00; 0x24; 0x00; 0x00; 0x00; 0x00;
   0x00; 0x00; 0x00; 0x00].

(** Offsets in [struct trapframe]. *)
Definition TF_EPC : Z := 24.
Definition TF_SP : Z := 48.
Definition TF_A0 : Z := 112.
Definition sizeof_trapframe : Z := 288.

(** [safestrcpy(p->name, t, sizeof(p->name))] *)
Definition put_name (t : list Z) (p : proc) : proc :=
  let cs := safestrcpy 16 t in set_p_name (cs ++ drop (length cs) (p_name p)) p.

Definition userinit (sel : selection) : M (kst F) unit :=
  o ← allocproc sel;
  modify (set_initproc o);;
  match o with
  | None => wild 0
  | Some i =>
    p ← getp i;
    uvminit sel (p_pagetable p) initcode;;
    updp i (set_p_sz PGSIZE);;
    storeM (p_trapframe p + TF_EPC) 0;;
    storeM (p_trapframe p + TF_SP) PGSIZE;;
    updp i (put_name [105; 110; 105; 116; 99; 111; 100; 101]);;
    cwd ← liftF (pf_namei [47]);
    updp i (set_p_cwd cwd);;
    updp i (set_p_state RUNNABLE)
  end.

(** ** Growing: [sz] is a [uint]. *)

Definition lazy_growproc (sel : selection) (n : Z) : M (kst F) Z :=
  p ← myproc;
  let sz := w32 (p_sz p) in
  if 0 <? n then
    sz ← lazy_alloc (p_pagetable p) sz (w32 (sz + n));
    if w32 sz =? 0 then mret (-1) else upd_myproc (set_p_sz (w32 sz));; mret 0
  else if n <? 0 then
    sz ← uvmdealloc sel (p_pagetable p) sz (w32 (sz + n));
    upd_myproc (set_p_sz (w32 sz));; mret 0
  else upd_myproc (set_p_sz sz);; mret 0.

Definition growproc (sel : selection) (n : Z) : M (kst F) Z :=
  match sel with
  | NONE => lazy_growproc sel n
  | _ =>
    p ← myproc;
    let sz := w32 (p_sz p) in
    if 0 <? n then
      sz ← uvmalloc sel (p_pagetable p) sz (w32 (sz + n));
      if w32 sz =? 0 then mret (-1) else upd_myproc (set_p_sz (w32 sz));; mret 0
    else if n <? 0 then
      sz ← uvmdealloc sel (p_pagetable p) sz (w32 (sz + n));
      upd_myproc (set_p_sz (w32 sz));; mret 0
    else upd_myproc (set_p_sz sz);; mret 0
  end.

(** ** fork *)

(** Copies of the open files. *)
Fixpoint dup_files (fds : list (option nat)) : M (kst F) (list (option nat)) :=
  match fds with
  | [] => mret []
  | None :: fds => r ← dup_files fds; mret (None :: r)
  | Some f :: fds => g ← liftF (pf_filedup f); r ← dup_files fds; mret (Some g :: r)
  end.

(** [np->ofile[i] = filedup(p->ofile[i])] where [p->ofile[i]] is not null. *)
Definition merge_files (new old : list (option nat)) : list (option nat) :=
  zip_with (λ n o, match n with Some f => Some f | None => o end) new old.

Definition copy_swap_page (p np : proc) (i : Z) : M (kst F) unit :=
  page ← kalloc;
  r ← readFromSwapFile p page (i * PGSIZE) PGSIZE;
  if r =? -1 then panic "failed to read from swapfile"
  else
    r ← writeToSwapFile np page (i * PGSIZE) PGSIZE;
    if r =? -1 then panic "failed to write to swapfile" else kfree page.

Definition fork (sel : selection) : M (kst F) Z :=
  me ← curp;
  o ← allocproc sel;
  match o with
  | None => mret (-1)
  | Some n =>
    p ← myproc;
    np ← getp n;
    r ← uvmcopy sel (p_pagetable p) (p_pagetable np) (p_sz p);
    if r <? 0 then freeproc sel n;; mret (-1)
    else
      updp n (set_p_sz (p_sz p));;
      memmoveM (p_trapframe np) (p_trapframe p) sizeof_trapframe;;
      storeM (p_trapframe np + TF_A0) 0;;
      fds ← dup_files (p_ofile p);
      updp n (λ q, set_p_ofile (merge_files fds (p_ofile q)) q);;
      cwd ← match p_cwd p with Some ip => liftF (pf_idup ip) | None => wild 0 end;
      updp n (set_p_cwd (Some cwd));;
      updp n (put_name (p_name p));;
      np ← getp n;
      let pid := p_pid np in
      (if not_NONE sel && (2 <? p_pid p) then
         p ← myproc;
         size ← count_pages (p_swap p) false;
         for_each (seqZ 0 size) (copy_swap_page p np);;
         updp n (λ q, set_p_fifo_counter (p_fifo_counter p) (set_p_swap (p_swap p) (set_p_ram (p_ram p) q)))
       else mret tt);;
      updp n (set_p_parent (Some me));;
      updp n (set_p_state RUNNABLE);;
      mret pid
  end.

(** ** Sleeping and waking *)

(** The checks of [sched] on the process; the CPU's are in Spinlock.v. *)
Definition sched : M (kst F) unit :=
  p ← myproc; if bool_decide (p_state p = RUNNING) then panic "sched running" else mret tt.

Definition yield : M (kst F) unit := upd_myproc (set_p_state RUNNABLE);; sched.

Definition sleep (chan : Z) : M (kst F) unit :=
  upd_myproc (λ p, set_p_state SLEEPING (set_p_chan chan p));; sched.
Definition sleep_return : M (kst F) unit := upd_myproc (set_p_chan 0).

Definition wake (me : option nat) (chan : Z) (i : nat) (p : proc) : proc :=
  if bool_decide (me = Some i) then p
  else if bool_decide (p_state p = SLEEPING) && (p_chan p =? chan) then set_p_state RUNNABLE p else p.

Definition wakeup (chan : Z) : M (kst F) unit := modify (λ s, set_procs (imap (wake (cur s) chan) (procs s)) s).

(** The index of the victim, if any. *)
Definition kill (pid : Z) : M (kst F) Z :=
  ps ← gets procs;
  match list_find (λ p, p_pid p = pid) ps with
  | None => mret (-1)
  | Some (i, _) =>
    updp i (λ p, let p := set_p_killed 1 p in
                 if bool_decide (p_state p = SLEEPING) then set_p_state RUNNABLE p else p);;
    mret 0
  end.

(** ** exit *)

Definition reparent (me : nat) : M (kst F) unit :=
  for_each (seq 0 (Z.to_nat NPROC)) (λ i,
    pp ← getp i;
    if bool_decide (p_parent pp = Some me) then
      init ← gets initproc;
      updp i (set_p_parent init);;
      wakeup (chan_of init)
    else mret tt).

Definition close_file (i : nat) : M (kst F) unit :=
  p ← myproc;
  match p_ofile p !! i with
  | Some (Some f) => liftF (pf_fileclose f);; upd_myproc (λ p, set_p_ofile (<[i := None]> (p_ofile p)) p)
  | _ => mret tt
  end.

(** Up to [sched], which does not return. *)
Definition exit (sel : selection) (status : Z) : M (kst F) unit :=
  me ← curp;
  init ← gets initproc;
  if bool_decide (init = Some me) then panic "init exiting"
  else
    p ← myproc;
    (if not_NONE sel && (2 <? p_pid p) then
       r ← liftF (pf_removeSwapFile (p_pid p) (p_swapFile p));
       if negb (r =? 0) then panic "failed to remove swapfile" else mret tt
     else mret tt);;
    for_each (seq 0 16) close_file;;
    liftF pf_begin_op;;
    match p_cwd p with Some ip => liftF (pf_iput ip) | None => wild 0 end;;
    liftF pf_end_op;;
    upd_myproc (set_p_cwd None);;
    reparent me;;
    p ← myproc;
    wakeup (chan_of (p_parent p));;
    upd_myproc (λ p, set_p_state ZOMBIE (set_p_xstate status p));;
    sched.

(** ** wait *)

(** One step of the scan: [inl havekids] to go on, [inr r] to return. *)
Definition wait_step (sel : selection) (addr : Z) (me : nat) (havekids : bool) (i : nat) : M (kst F) (bool + Z) :=
  np ← getp i;
  if bool_decide (p_parent np = Some me) then
    if bool_decide (p_state np = ZOMBIE) then
      r ← (if negb (addr =? 0) then
             p ← myproc; copyout (p_pagetable p) addr (le_bytes 4 (p_xstate np))
           else mret 0);
      if r <? 0 then mret (inr (-1))
      else freeproc sel i;; mret (inr (p_pid np))
    else mret (inl true)
  else mret (inl havekids).

Fixpoint wait_scan (sel : selection) (addr : Z) (me : nat) (havekids : bool) (l : list nat) : M (kst F) (bool + Z) :=
  match l with
  | [] => mret (inl havekids)
  | i :: l =>
    r ← wait_step sel addr me havekids i;
    match r with inl k => wait_scan sel addr me k l | inr z => mret (inr z) end
  end.

(** One round of [wait]: its result, or [None] when it has gone to sleep. *)
Definition wait (sel : selection) (addr : Z) : M (kst F) (option Z) :=
  me ← curp;
  r ← wait_scan sel addr me false (seq 0 (Z.to_nat NPROC));
  match r with
  | inr z => mret (Some z)
  | inl havekids =>
    p ← myproc;
    if negb havekids || truth (p_killed p) then mret (Some (-1))
    else sleep (proc_addr me);; mret None
  end.

(** ** Scheduler *)

(** Switching to process [i], and coming back from it. *)
Definition scheduler_switch (i : nat) : M (kst F) unit :=
  p ← getp i;
  if bool_decide (p_state p = RUNNABLE) then updp i (set_p_state RUNNING);; modify (set_cur (Some i)) else mret tt.

Definition scheduler_back (sel : selection) : M (kst F) unit :=
  p ← myproc;
  match sel with
  | NFUA | LAPA => if 2 <? p_pid p then update_age else mret tt
  | _ => mret tt
  end;;
  modify (set_cur None).

End Code.
