(* ===== verification/Exec.v ===== *)
(** Running a program: [exec] and [loadseg] (kernel/exec.c, kernel/elf.h), and the
    system call [sys_exec] (kernel/sysfile.c) with the argument fetching of
    kernel/syscall.c it uses.

    The functions run on the kernel state [kst].  A string in the kernel is the list
    of its characters.  Files are reached through [ExecFiles], besides what
    [ProcFiles] has. *)

From S2P Require Import Prelude Riscv Memory Str State Kalloc PageTable Paging Fault Uvm Proc.

Definition ELF_MAGIC : Z := 0x464C457F.
Definition ELF_PROG_LOAD : Z := 1.

(** The fields of [struct elfhdr] and [struct proghdr] that are used. *)
Record elfhdr := mk_elf { e_magic : Z; e_entry : Z; e_phoff : Z; e_phnum : Z }.
Record proghdr := mk_ph { ph_type : Z; ph_off : Z; ph_vaddr : Z; ph_filesz : Z; ph_memsz : Z }.

Definition sizeof_elfhdr : Z := 64.
Definition sizeof_proghdr : Z := 56.

(** The structures as [readi] stored them; [elf] and [ph] lie on the stack. *)
Definition get_elf (bs : list Z) : elfhdr :=
  let m := write_bytes ∅ 0 bs in mk_elf (le_load 4 m 0) (le_load 8 m 24) (le_load 8 m 32) (le_load 2 m 56).
Definition get_ph (bs : list Z) : proghdr :=
  let m := write_bytes ∅ 0 bs in mk_ph (le_load 4 m 0) (le_load 8 m 8) (le_load 8 m 16) (le_load 8 m 32) (le_load 8 m 40).

(** [ef_readi ip off n]: [readi] into kernel memory, its result and the bytes it
    stored. *)
Class ExecFiles (F : Type) := {
  ef_ilock : nat → M F unit;
  ef_iunlockput : nat → M F unit;
  ef_readi : nat → Z → Z → M F (Z * list Z)
}.

Definition TF_A1 : Z := 120.

(** The part of the path after the last slash. *)
Fixpoint last_elem (s last : list Z) : list Z :=
  match s with
  | [] => last
  | c :: s' => if truth c then last_elem s' (if c =? 47 then s' else last) else last
  end.

Section Code.
Context {F : Type} {KI : KImage} {SW : SwapStore F} {PF : ProcFiles F} {EF : ExecFiles F} {KC : KCode}.

Definition loadseg_body (pagetable va : Z) (ip : nat) (offset sz i : Z) : M (kst F) (Z + Z) :=
  if i <? sz then
    pa ← walkaddr pagetable (w64 (va + i));
    if pa =? 0 then panic "loadseg: address should exist"
    else
      let n := if w32 (sz - i) <? PGSIZE then w32 (sz - i) else PGSIZE in
      r ← liftF (ef_readi ip (w32 (offset + i)) n);
      writeM pa (snd r);;
      if negb (fst r =? n) then mret (inr (-1)) else mret (inl (w32 (i + PGSIZE)))
  else mret (inr 0).

Definition loadseg (pagetable va : Z) (ip : nat) (offset sz : Z) : M (kst F) Z :=
  if negb (va mod PGSIZE =? 0) then panic "loadseg: va must be page aligned"
  else loop (S (S (Z.to_nat (sz / PGSIZE)))) (loadseg_body pagetable va ip offset sz) 0.

(** One program header: [false] for [goto bad], with the size reached. *)
Definition exec_seg (sel : selection) (pagetable : Z) (ip : nat) (off sz : Z) : M (kst F) (bool * Z) :=
  r ← liftF (ef_readi ip (w32 off) sizeof_proghdr);
  if negb (fst r =? sizeof_proghdr) then mret (false, sz)
  else
    let ph := get_ph (snd r) in
    if negb (ph_type ph =? ELF_PROG_LOAD) then mret (true, sz)
    else if ph_memsz ph <? ph_filesz ph then mret (false, sz)
    else if w64 (ph_vaddr ph + ph_memsz ph) <? ph_vaddr ph then mret (false, sz)
    else
      sz1 ← uvmalloc sel pagetable sz (w64 (ph_vaddr ph + ph_memsz ph));
      if sz1 =? 0 then mret (false, sz)
      else if negb (ph_vaddr ph mod PGSIZE =? 0) then mret (false, sz1)
      else
        r ← loadseg pagetable (ph_vaddr ph) ip (w32 (ph_off ph)) (w32 (ph_filesz ph));
        if r <? 0 then mret (false, sz1) else mret (true, sz1).

(** The loop over the headers: [n] are left. *)
Fixpoint exec_load (sel : selection) (pagetable : Z) (ip : nat) (n : nat) (off sz : Z) : M (kst F) (bool * Z) :=
  match n with
  | O => mret (true, sz)
  | S n =>
    r ← exec_seg sel pagetable ip off sz;
    let '(ok, sz) := r in
    if (ok : bool) then exec_load sel pagetable ip n (i32 (off + sizeof_proghdr)) sz else mret (false, sz)
  end.

(** The loop that pushes the argument strings: the addresses in [ustack] and the
    new stack pointer, or [None] for [goto bad]. *)
Fixpoint push_args (pagetable stackbase : Z) (argv : list (list Z)) (argc sp : Z) : M (kst F) (option (list Z * Z)) :=
  match argv with
  | [] => mret (Some ([], sp))
  | arg :: argv =>
    if MAXARG <=? argc then mret None
    else
      let sp := w64 (sp - (strlen arg + 1)) in
      let sp := sp - sp mod 16 in
      if sp <? stackbase then mret None
      else
        r ← copyout pagetable sp (cstr arg ++ [0]);
        if r <? 0 then mret None
        else
          o ← push_args pagetable stackbase argv (argc + 1) sp;
          match o with
          | None => mret None
          | Some (ustack, sp') => mret (Some (sp :: ustack, sp'))
          end
  end.

(** The strings and the array of their addresses: [argc] and the stack pointer. *)
Definition push_stack (pagetable sz : Z) (argv : list (list Z)) : M (kst F) (option (Z * Z)) :=
  let stackbase := w64 (sz - PGSIZE) in
  o ← push_args pagetable stackbase argv 0 sz;
  match o with
  | None => mret None
  | Some (ustack, sp) =>
    let argc := Z.of_nat (length ustack) in
    let sp := w64 (sp - (argc + 1) * 8) in
    let sp := sp - sp mod 16 in
    if sp <? stackbase then mret None
    else
      r ← copyout pagetable sp (concat (le_bytes 8 <$> (ustack ++ [0])));
      if r <? 0 then mret None else mret (Some (argc, sp))
  end.

(** The records of the new image, for processes with paging. *)
Definition exec_record (sel : selection) (i : Z) : M (kst F) unit :=
  ram_upd i (λ d, set_pd_offset (-1) (set_pd_used 1 (set_pd_va (i32 (i * PGSIZE)) d)));;
  match sel with
  | NFUA => ram_upd i (set_pd_age 0)
  | LAPA => ram_upd i (set_pd_age 0xFFFFFFFF)
  | SCFIFO => t ← next_fifo_time; ram_upd i (set_pd_fifo_time t)
  | NONE => mret tt
  end;;
  p ← myproc;
  r ← liftF (pf_removeSwapFile (p_pid p) (p_swapFile p));
  if r =? -1 then panic "failure when trying to remove swapfile"
  else
    f ← liftF (pf_createSwapFile (p_pid p));
    upd_myproc (set_p_swapFile (Some f)).

Definition exec_records (sel : selection) (sz : Z) : M (kst F) unit :=
  p ← myproc;
  if not_NONE sel && (2 <? p_pid p) then
    upd_myproc (λ p, set_p_swap (remove_page <$> p_swap p) (set_p_ram (remove_page <$> p_ram p) p));;
    for_each (seqZ 0 ((sz + PGSIZE - 1) / PGSIZE)) (exec_record sel)
  else mret tt.

(** [bad]: the new page table is freed, the inode released if still held. *)
Definition exec_bad (sel : selection) (pagetable sz : Z) (ip : option nat) : M (kst F) Z :=
  (if truth pagetable then proc_freepagetable sel pagetable sz else mret tt);;
  match ip with
  | Some ip => liftF (ef_iunlockput ip);; liftF pf_end_op
  | None => mret tt
  end;;
  mret (-1).

(** The guard page and the stack with the arguments: the size reached, and [argc]
    with the stack pointer unless [goto bad]. *)
Definition exec_stack (sel : selection) (pagetable sz : Z) (argv : list (list Z)) : M (kst F) (Z * option (Z * Z)) :=
  let sz := PGROUNDUP sz in
  sz1 ← uvmalloc sel pagetable sz (w64 (sz + 2 * PGSIZE));
  if sz1 =? 0 then mret (sz, None)
  else
    uvmclear pagetable (w64 (sz1 - 2 * PGSIZE));;
    o ← push_stack pagetable sz1 argv;
    mret (sz1, o).

(** The new image: the segments, then the stack.  The result is the inode if it is
    still held, the size reached, [oldsz], and [argc] with the stack pointer unless
    [goto bad]. *)
Definition exec_image (sel : selection) (elf : elfhdr) (pagetable : Z) (ip : nat) (argv : list (list Z)) :
    M (kst F) (option nat * Z * Z * option (Z * Z)) :=
  l ← exec_load sel pagetable ip (Z.to_nat (e_phnum elf)) (i32 (e_phoff elf)) 0;
  let '(ok, sz) := l in
  if negb ok then mret (Some ip, sz, 0, None)
  else
    liftF (ef_iunlockput ip);;
    liftF pf_end_op;;
    p ← myproc;
    r ← exec_stack sel pagetable sz argv;
    mret (None, fst r, p_sz p, snd r).

(** From the records on: the process takes the new image. *)
Definition exec_commit (sel : selection) (path : list Z) (entry pagetable sz oldsz argc sp : Z) : M (kst F) Z :=
  exec_records sel sz;;
  p ← myproc;
  storeM (p_trapframe p + TF_A1) sp;;
  upd_myproc (put_name (last_elem path path));;
  upd_myproc (λ p, set_p_sz sz (set_p_pagetable pagetable p));;
  storeM (p_trapframe p + TF_EPC) entry;;
  storeM (p_trapframe p + TF_SP) sp;;
  proc_freepagetable sel (p_pagetable p) oldsz;;
  mret (i32 argc).

Definition exec (sel : selection) (path : list Z) (argv : list (list Z)) : M (kst F) Z :=
  liftF pf_begin_op;;
  o ← liftF (pf_namei path);
  match o with
  | None => liftF pf_end_op;; mret (-1)
  | Some ip =>
    liftF (ef_ilock ip);;
    r ← liftF (ef_readi ip 0 sizeof_elfhdr);
    if negb (fst r =? sizeof_elfhdr) then exec_bad sel 0 0 (Some ip)
    else
      let elf := get_elf (snd r) in
      if negb (e_magic elf =? ELF_MAGIC) then exec_bad sel 0 0 (Some ip)
      else
        p ← myproc;
        pagetable ← proc_pagetable sel p;
        if pagetable =? 0 then exec_bad sel 0 0 (Some ip)
        else
          r ← exec_image sel elf pagetable ip argv;
          let '(held, sz, oldsz, o) := r in
          match o with
          | None => exec_bad sel pagetable sz held
          | Some (argc, sp) => exec_commit sel path (e_entry elf) pagetable sz oldsz argc sp
          end
  end.

(** ** Arguments of system calls *)

Definition argraw (n : Z) : M (kst F) Z :=
  p ← myproc;
  if (0 <=? n) && (n <=? 5) then loadM (p_trapframe p + TF_A0 + 8 * n) else panic "argraw".
Definition argint (n : Z) : M (kst F) Z := v ← argraw n; mret (i32 v).
Definition argaddr (n : Z) : M (kst F) Z := argraw n.

(** The value, or [None] for -1. *)
Definition fetchaddr (addr : Z) : M (kst F) (option Z) :=
  p ← myproc;
  if (p_sz p <=? addr) || (p_sz p <? w64 (addr + 8)) then mret None
  else
    r ← copyin (p_pagetable p) addr 8;
    if negb (fst r =? 0) then mret None else mret (Some (le_load 8 (write_bytes ∅ 0 (snd r)) 0)).

(** The bytes stored in the buffer, and the result. *)
Definition fetchstr (addr max : Z) : M (kst F) (list Z * Z) :=
  p ← myproc;
  r ← copyinstr (p_pagetable p) addr max;
  if fst r <? 0 then mret (snd r, fst r) else mret (snd r, strlen (snd r)).
Definition argstr (n max : Z) : M (kst F) (list Z * Z) := addr ← argaddr n; fetchstr addr max.

(** [sys_exec]: [pages] are the pages of [argv] so far, the last one first; the
    result is whether the loop ended with [break]. *)
Definition exec_arg_body (uargv : Z) (st : Z * list Z) : M (kst F) (Z * list Z + bool * list Z) :=
  let '(i, pages) := st in
  if MAXARG <=? i then mret (inr (false, pages))
  else
    o ← fetchaddr (w64 (uargv + 8 * i));
    match o with
    | None => mret (inr (false, pages))
    | Some uarg =>
      if uarg =? 0 then mret (inr (true, pages))
      else
        pa ← kalloc;
        if pa =? 0 then mret (inr (false, pages))
        else
          r ← fetchstr uarg PGSIZE;
          writeM pa (fst r);;
          if snd r <? 0 then mret (inr (false, pa :: pages)) else mret (inl (i + 1, pa :: pages))
    end.

Definition read_str (pa : Z) : M (kst F) (list Z) := bs ← readM pa PGSIZE; mret (cstr bs).

Fixpoint read_strs (pages : list Z) : M (kst F) (list (list Z)) :=
  match pages with
  | [] => mret []
  | pa :: pages => s ← read_str pa; l ← read_strs pages; mret (s :: l)
  end.

Definition sys_exec (sel : selection) : M (kst F) Z :=
  path ← argstr 0 128;
  if snd path <? 0 then mret (-1)
  else
    uargv ← argaddr 1;
    r ← loop 34 (exec_arg_body uargv) (0, []);
    let '(done, l) := r in
    let pages := rev l in
    ret ← (if (done : bool) then argv ← read_strs pages; exec sel (cstr (fst path)) argv else mret (-1));
    for_each pages kfree;;
    mret ret.

End Code.
