(* ===== verification/ProcSpec.v ===== *)
(** What the memory code leaves of the process table: state, channel, parent, id,
    exit status and kill flag of every process, the running process and the next
    id.

    What the functions of kernel/proc.c do to the process table. *)

From S2P Require Import Prelude Riscv Memory Str State Kalloc PageTable Paging Fault Uvm Proc.

(** The part of [struct proc] that scheduling and [wait] depend on. *)
Record pcore := mk_pcore {
  c_state : procstate;
  c_chan : Z;
  c_killed : Z;
  c_xstate : Z;
  c_pid : Z;
  c_parent : option nat
}.
Definition core_of (p : proc) : pcore :=
  mk_pcore (p_state p) (p_chan p) (p_killed p) (p_xstate p) (p_pid p) (p_parent p).

Record ptable := mk_ptable { t_procs : list pcore; t_cur : option nat; t_next : Z; t_init : option nat }.
Definition table {F} (s : kst F) : ptable := mk_ptable (core_of <$> procs s) (cur s) (nextpid s) (initproc s).

Section Keeps.
Context {F : Type} {KI : KImage} {SW : SwapStore F}.
Notation kept := (keeps (@table F)).

Lemma keeps_loadM a : kept (loadM a).
Proof. intros s v s'. unfold loadM. case_match; [by intros [= _ <-]|done]. Qed.

Lemma keeps_storeM a v : kept (storeM a v).
Proof. intros s u s'. unfold storeM. case_match; [by intros [= _ <-]|done]. Qed.

Lemma keeps_memsetM d c n : kept (memsetM d c n).
Proof. intros s u s'. unfold memsetM. case_match; [by intros [= _ <-]|done]. Qed.

Lemma keeps_memmoveM d a n : kept (memmoveM d a n).
Proof. intros s u s'. unfold memmoveM. case_match; [by intros [= _ <-]|done]. Qed.

Lemma keeps_readM a n : kept (readM a n).
Proof. intros s u s'. unfold readM. case_match; [by intros [= _ <-]|done]. Qed.

Lemma keeps_writeM a bs : kept (writeM a bs).
Proof. intros s u s'. unfold writeM. case_match; [by intros [= _ <-]|done]. Qed.

Lemma keeps_myproc : kept myproc.
Proof. intros s u s'. unfold myproc. repeat case_match; try done. by intros [= _ <-]. Qed.

Lemma keeps_curp : kept curp.
Proof. intros s u s'. unfold curp. case_match; [by intros [= _ <-]|done]. Qed.

Lemma keeps_getp i : kept (getp i).
Proof. intros s u s'. unfold getp. case_match; [by intros [= _ <-]|done]. Qed.

Lemma keeps_liftF {A} (m : M F A) : kept (liftF m).
Proof. intros s u s'. unfold liftF. destruct (m (fs s)) as [[? ?]| | | |]; try done. by intros [= _ <-]. Qed.

Lemma table_set_procs (s : kst F) i p q : procs s !! i = Some p → core_of q = core_of p → table (set_procs (<[i := q]> (procs s)) s) = table s.
Proof.
  intros Hi Hq. unfold table. cbn [procs set_procs cur nextpid initproc]. f_equal.
  rewrite list_fmap_insert, Hq. apply list_insert_id. by rewrite list_lookup_fmap, Hi.
Qed.

Lemma keeps_updp i f : (∀ p, core_of (f p) = core_of p) → kept (updp i f).
Proof.
  intros Hf s u s'. unfold updp. destruct (procs s !! i) as [p|] eqn:E; [|done]. intros [= _ <-]. by eapply table_set_procs.
Qed.

Lemma keeps_upd_myproc f : (∀ p, core_of (f p) = core_of p) → kept (upd_myproc f).
Proof.
  intros Hf s u s'. unfold upd_myproc. destruct (cur s) as [i|]; [|done]. destruct (procs s !! i) as [p|] eqn:E; [|done].
  intros [= _ <-]. by eapply table_set_procs.
Qed.

#[local] Hint Resolve keeps_loadM keeps_storeM keeps_memsetM keeps_memmoveM keeps_readM keeps_writeM keeps_myproc keeps_curp keeps_getp keeps_liftF : keeps.
#[local] Hint Extern 1 (keeps _ (upd_myproc _)) => apply keeps_upd_myproc; intro; reflexivity : keeps.
#[local] Hint Extern 1 (keeps _ (updp _ _)) => apply keeps_updp; intro; reflexivity : keeps.
#[local] Hint Extern 1 (keeps _ (modify _)) => apply keeps_modify; intro; reflexivity : keeps.

Lemma keeps_kalloc : kept kalloc.
Proof. unfold kalloc. keeps_tac. Qed.

Lemma keeps_kfree a : kept (kfree a).
Proof. unfold kfree. keeps_tac. Qed.
#[local] Hint Resolve keeps_kalloc keeps_kfree : keeps.

Lemma keeps_walk_loop l : ∀ pt va alloc, kept (walk_loop l pt va alloc).
Proof. induction l as [|x l IH]; intros pt va alloc; cbn [walk_loop]; unfold walk_level; keeps_tac. Qed.

Lemma keeps_walk pt va alloc : kept (walk pt va alloc).
Proof. unfold walk. case_match; [keeps_tac|apply keeps_walk_loop]. Qed.
#[local] Hint Resolve keeps_walk : keeps.

Lemma keeps_walkaddr pt va : kept (walkaddr pt va).
Proof. unfold walkaddr. keeps_tac. Qed.
#[local] Hint Resolve keeps_walkaddr : keeps.

Lemma keeps_mappages sel pt va sz pa perm : kept (mappages sel pt va sz pa perm).
Proof. unfold mappages, mappages_NONE, mappages_not_NONE, mappages_NONE_body, mappages_not_NONE_body. keeps_tac. Qed.

Lemma keeps_mappage pt va pa perm : kept (mappage pt va pa perm).
Proof. unfold mappage. keeps_tac. Qed.

Lemma keeps_uvmcreate : kept uvmcreate.
Proof. unfold uvmcreate. keeps_tac. Qed.

Lemma keeps_uvmunmap sel pt va n b : kept (uvmunmap sel pt va n b).
Proof. unfold uvmunmap, uvmunmap_NONE, uvmunmap_not_NONE, uvmunmap_NONE_body, uvmunmap_not_NONE_body. keeps_tac. Qed.
#[local] Hint Resolve keeps_mappages keeps_mappage keeps_uvmcreate keeps_uvmunmap : keeps.

Lemma keeps_freewalk d : ∀ pt, kept (freewalk d pt).
Proof. induction d as [|d IH]; intros pt; cbn [freewalk]; [by intros s a s'|keeps_tac]. Qed.
#[local] Hint Resolve keeps_freewalk : keeps.

Lemma keeps_uvmfree sel pt sz : kept (uvmfree sel pt sz).
Proof. unfold uvmfree. keeps_tac. Qed.
#[local] Hint Resolve keeps_uvmfree : keeps.

Lemma keeps_uvmcopy sel old new sz : kept (uvmcopy sel old new sz).
Proof. unfold uvmcopy, uvmcopy_body, uvmcopy_page, uvmcopy_flags, uvmcopy_err. keeps_tac. Qed.

Lemma keeps_copyout pt va bs : kept (copyout pt va bs).
Proof. unfold copyout, copyout_body. keeps_tac. Qed.

Lemma keeps_uvminit sel pt bs : kept (uvminit sel pt bs).
Proof. unfold uvminit. keeps_tac. Qed.

Lemma keeps_count_pages l flag : kept (count_pages l flag).
Proof. induction l as [|d l IH]; cbn [count_pages]; keeps_tac. Qed.

Lemma keeps_update_age : kept update_age.
Proof. unfold update_age, update_age_body, ram_upd, ram_get, pte_clear. keeps_tac. Qed.

End Keeps.

#[export] Hint Resolve keeps_loadM keeps_storeM keeps_memsetM keeps_memmoveM keeps_readM keeps_writeM keeps_myproc keeps_curp : keeps.
#[export] Hint Resolve keeps_getp keeps_liftF keeps_kalloc keeps_kfree keeps_walk keeps_walkaddr keeps_mappages keeps_mappage : keeps.
#[export] Hint Resolve keeps_uvmcreate keeps_uvmunmap keeps_uvmfree keeps_uvmcopy keeps_copyout keeps_uvminit keeps_count_pages : keeps.
#[export] Hint Resolve keeps_update_age : keeps.
#[export] Hint Extern 1 (keeps _ (upd_myproc _)) => apply keeps_upd_myproc; intro; reflexivity : keeps.
#[export] Hint Extern 1 (keeps _ (updp _ _)) => apply keeps_updp; intro; reflexivity : keeps.
#[export] Hint Extern 1 (keeps _ (modify _)) => apply keeps_modify; intro; reflexivity : keeps.

(** ** Operations on the table *)

Definition with_procs (l : list pcore) (T : ptable) : ptable := mk_ptable l (t_cur T) (t_next T) (t_init T).
Definition with_next (n : Z) (T : ptable) : ptable := mk_ptable (t_procs T) (t_cur T) n (t_init T).
Definition with_cur (o : option nat) (T : ptable) : ptable := mk_ptable (t_procs T) o (t_next T) (t_init T).
Definition t_upd (i : nat) (g : pcore → pcore) (T : ptable) : ptable := with_procs (alter g i (t_procs T)) T.

Definition c_set_state (v : procstate) (c : pcore) : pcore :=
  mk_pcore v (c_chan c) (c_killed c) (c_xstate c) (c_pid c) (c_parent c).
Definition c_set_chan (v : Z) (c : pcore) : pcore :=
  mk_pcore (c_state c) v (c_killed c) (c_xstate c) (c_pid c) (c_parent c).
Definition c_set_parent (v : option nat) (c : pcore) : pcore :=
  mk_pcore (c_state c) (c_chan c) (c_killed c) (c_xstate c) (c_pid c) v.
Definition free_core : pcore := mk_pcore UNUSED 0 0 0 0 None.

Definition c_wake (me : option nat) (chan : Z) (i : nat) (c : pcore) : pcore :=
  if bool_decide (me = Some i) then c
  else if bool_decide (c_state c = SLEEPING) && (c_chan c =? chan) then c_set_state RUNNABLE c else c.
Definition t_wake (chan : Z) (T : ptable) : ptable := with_procs (imap (c_wake (t_cur T) chan) (t_procs T)) T.

Definition t_unused (T : ptable) : option nat := fst <$> list_find (λ c, c_state c = UNUSED) (t_procs T).

(** Process [i] of the table. *)
Definition t_at (T : ptable) (i : nat) (c : pcore) : Prop := t_procs T !! i = Some c.

Section Spec.
Context {F : Type} {KI : KImage} {SW : SwapStore F} {PF : ProcFiles F} {KC : KCode}.
Notation kept := (keeps (@table F)).

(** If [m] returns from a state with table [T], then [Q] holds of its result and the
    table. *)
Definition lw {A} (m : M (kst F) A) (T : ptable) (Q : A → ptable → Prop) : Prop :=
  ∀ s a s', table s = T → m s = Ok (a, s') → Q a (table s').

Lemma updp_table i f g (s : kst F) a s' : (∀ p, core_of (f p) = g (core_of p)) → updp i f s = Ok (a, s') → table s' = t_upd i g (table s).
Proof.
  intros Hf. unfold updp. destruct (procs s !! i) as [p|] eqn:E; [|done]. intros [= _ <-].
  unfold table, t_upd, with_procs. cbn [procs set_procs cur nextpid initproc t_procs t_cur t_next t_init]. f_equal.
  rewrite list_fmap_insert, Hf. apply list_eq. intros j. destruct (decide (i = j)) as [<-|Hne].
  - rewrite list_lookup_insert_eq by (rewrite length_fmap; by eapply lookup_lt_Some).
    rewrite list_lookup_alter_eq, list_lookup_fmap, E. done.
  - by rewrite list_lookup_insert_ne, list_lookup_alter_ne.
Qed.

Lemma getp_Ok i (s : kst F) p s' : getp i s = Ok (p, s') → s' = s ∧ procs s !! i = Some p.
Proof. unfold getp. destruct (procs s !! i); [|done]. by intros [= -> ->]. Qed.

Lemma curp_Ok (s : kst F) i s' : curp s = Ok (i, s') → s' = s ∧ cur s = Some i.
Proof. unfold curp. destruct (cur s); [|done]. by intros [= -> ->]. Qed.

Lemma myproc_Ok (s : kst F) p s' : myproc s = Ok (p, s') → s' = s ∧ ∃ i, cur s = Some i ∧ procs s !! i = Some p.
Proof. unfold myproc. destruct (cur s) as [i|]; [|done]. destruct (procs s !! i) eqn:E; [|done]. intros [= -> ->]. eauto. Qed.

Lemma upd_myproc_table f g (s : kst F) a s' i : (∀ p, core_of (f p) = g (core_of p)) → upd_myproc f s = Ok (a, s') → cur s = Some i →
  table s' = t_upd i g (table s).
Proof.
  intros Hf H Hc. unfold upd_myproc in H. rewrite Hc in H. eapply (updp_table i f g); [done|]. unfold updp.
  destruct (procs s !! i); [|done]. exact H.
Qed.

Lemma table_at (s : kst F) i p : procs s !! i = Some p → t_at (table s) i (core_of p).
Proof. intros H. unfold t_at, table. cbn [t_procs]. by rewrite list_lookup_fmap, H. Qed.

Lemma t_upd_lookup T i g j : t_procs (t_upd i g T) !! j = if decide (j = i) then g <$> t_procs T !! i else t_procs T !! j.
Proof.
  unfold t_upd, with_procs. cbn [t_procs]. destruct (decide (j = i)) as [->|Hne]; [apply list_lookup_alter_eq|by apply list_lookup_alter_ne].
Qed.

Lemma t_upd_upd T i g h : t_upd i h (t_upd i g T) = t_upd i (h ∘ g) T.
Proof.
  unfold t_upd, with_procs. cbn [t_procs t_cur t_next t_init]. f_equal. apply list_eq. intros j. destruct (decide (i = j)) as [<-|Hne].
  - rewrite !list_lookup_alter_eq. by destruct (t_procs T !! i).
  - by rewrite !list_lookup_alter_ne.
Qed.

Lemma t_upd_ext T i g h : (∀ c, t_at T i c → g c = h c) → t_upd i g T = t_upd i h T.
Proof.
  intros H. unfold t_upd, with_procs. f_equal. apply list_eq. intros j. destruct (decide (i = j)) as [<-|Hne].
  - rewrite !list_lookup_alter_eq. destruct (t_procs T !! i) eqn:E; [|done]. simpl. by rewrite H.
  - by rewrite !list_lookup_alter_ne.
Qed.

Lemma lw_bind {A B} (m : M (kst F) A) (f : A → M (kst F) B) T Q : lw m T (λ a T', lw (f a) T' Q) → lw (m ≫= f) T Q.
Proof. intros H s b s' HT (a & s1 & H1 & H2)%bind_Ok. by eapply (H _ _ _ HT H1). Qed.

Lemma lw_mono {A} (m : M (kst F) A) T (Q Q' : A → ptable → Prop) : lw m T Q → (∀ a T', Q a T' → Q' a T') → lw m T Q'.
Proof. intros H HQ s a s' HT Hm. by eapply HQ, H. Qed.

Lemma lw_kept {A} (m : M (kst F) A) T (Q : A → ptable → Prop) : kept m → (∀ a, Q a T) → lw m T Q.
Proof. intros Hk HQ s a s' HT Hm. by rewrite (Hk _ _ _ Hm), HT. Qed.

Lemma lw_keep {A B} (m : M (kst F) A) (f : A → M (kst F) B) T Q : kept m → (∀ a, lw (f a) T Q) → lw (m ≫= f) T Q.
Proof. intros Hk HQ. apply lw_bind, lw_kept; done. Qed.

Lemma lw_ret {A} (a : A) T (Q : A → ptable → Prop) : Q a T → lw (mret a) T Q.
Proof. intros HQ s b s' <- [= <- <-]. done. Qed.

Lemma lw_panic {A} msg T (Q : A → ptable → Prop) : lw (panic msg) T Q.
Proof. by intros s a s'. Qed.

Lemma lw_wild {A} x T (Q : A → ptable → Prop) : lw (wild x) T Q.
Proof. by intros s a s'. Qed.

Lemma lw_updp i f g T Q : (∀ p, core_of (f p) = g (core_of p)) → Q tt (t_upd i g T) → lw (updp i f) T Q.
Proof. intros Hf HQ s [] s' <- H. by rewrite (updp_table _ _ _ _ _ _ Hf H). Qed.

Lemma lw_upd_myproc i f g T Q :
  t_cur T = Some i → (∀ p, core_of (f p) = g (core_of p)) → Q tt (t_upd i g T) → lw (upd_myproc f) T Q.
Proof. intros Hc Hf HQ s [] s' <- H. by rewrite (upd_myproc_table _ _ _ _ _ _ Hf H Hc). Qed.

Lemma lw_getp i T Q : (∀ p, t_at T i (core_of p) → Q p T) → lw (getp i) T Q.
Proof. intros HQ s p s' <- [-> H]%getp_Ok. by apply HQ, table_at. Qed.

Lemma lw_curp T Q : (∀ i, t_cur T = Some i → Q i T) → lw curp T Q.
Proof. intros HQ s p s' <- [-> H]%curp_Ok. by apply HQ. Qed.

Lemma lw_myproc T Q : (∀ i p, t_cur T = Some i → t_at T i (core_of p) → Q p T) → lw myproc T Q.
Proof. intros HQ s p s' <- (-> & i & Hc & H)%myproc_Ok. eapply HQ; [done|]. by apply table_at. Qed.

Lemma lw_initproc T Q : Q (t_init T) T → lw (gets initproc) T Q.
Proof. intros HQ s p s' <- [= <- <-]. done. Qed.

Lemma imap_fmap_core (me : option nat) chan (l : list proc) :
  core_of <$> imap (wake me chan) l = imap (c_wake me chan) (core_of <$> l).
Proof.
  apply list_eq. intros i. rewrite list_lookup_fmap, !list_lookup_imap, list_lookup_fmap.
  destruct (l !! i) as [p|]; [|done]. simpl. f_equal. unfold wake, c_wake. change (c_state (core_of p)) with (p_state p).
  change (c_chan (core_of p)) with (p_chan p). case_bool_decide; [done|]. by destruct (_ && _).
Qed.

Lemma lw_wakeup chan T Q : Q tt (t_wake chan T) → lw (wakeup chan) T Q.
Proof.
  intros HQ s [] s' <- H. unfold wakeup, modify in H. injection H as <-.
  assert (table (set_procs (imap (wake (cur s) chan) (procs s)) s) = t_wake chan (table s)) as ->; [|done].
  unfold table, t_wake, with_procs. cbn [procs set_procs cur nextpid initproc t_procs t_cur t_next t_init]. by rewrite imap_fmap_core.
Qed.

(** A loop with an invariant over the part of the list that is done. *)
Lemma lw_for_each {X} (I : list X → ptable → Prop) (l : list X) (body : X → M (kst F) unit) T Q :
  I [] T → (∀ done x rest T', l = done ++ x :: rest → I done T' → lw (body x) T' (λ _, I (done ++ [x]))) →
  (∀ T', I l T' → Q tt T') → lw (for_each l body) T Q.
Proof.
  intros H0 Hb HQ. assert (Hgen : ∀ done rest T', l = done ++ rest → I done T' → lw (for_each rest body) T' (λ _, I l)).
  { intros done rest. revert done. induction rest as [|x rest IH]; intros done T' Hl HI; cbn [for_each].
    - apply lw_ret. rewrite app_nil_r in Hl. by subst.
    - apply lw_bind. eapply lw_mono; [by apply (Hb done x rest)|]. intros [] T1 HI1. apply (IH (done ++ [x])); [|done].
      by rewrite <- app_assoc. }
  eapply lw_mono; [by apply (Hgen [] l)|]. intros [] T'. apply HQ.
Qed.

(** ** Allocation *)

Lemma keeps_proc_pagetable sel p : kept (proc_pagetable sel p).
Proof. unfold proc_pagetable. keeps_tac. Qed.

Lemma keeps_proc_freepagetable sel pt sz : kept (proc_freepagetable sel pt sz).
Proof. unfold proc_freepagetable. keeps_tac. Qed.
#[local] Hint Resolve keeps_proc_pagetable keeps_proc_freepagetable : keeps.

Lemma freeproc_lw sel i T Q : Q tt (t_upd i (λ _, free_core) T) → lw (freeproc sel i) T Q.
Proof.
  intros HQ. unfold freeproc. do 5 (apply lw_keep; [keeps_tac|intros ?]). by apply (lw_updp _ _ (λ _, free_core)).
Qed.

Lemma find_unused_table (s : kst F) : find_unused_proc (procs s) = t_unused (table s).
Proof.
  unfold find_unused_proc, t_unused, table. cbn [t_procs]. rewrite list_find_fmap.
  change ((λ c, c_state c = UNUSED) ∘ core_of) with (λ p, p_state p = UNUSED).
  by destruct (list_find _ (procs s)) as [[? ?]|].
Qed.

(** The entry of a process that [allocproc] has taken. *)
Definition c_alloc (pid : Z) (c : pcore) : pcore := mk_pcore USED (c_chan c) (c_killed c) (c_xstate c) pid (c_parent c).
Definition t_pid (T : ptable) : ptable := with_next (i32 (t_next T + 1)) T.

Lemma allocproc_lw sel T Q :
  match t_unused T with
  | None => Q None T
  | Some n => Q None (t_upd n (λ _, free_core) (t_pid T)) ∧ Q (Some n) (t_upd n (c_alloc (t_next T)) (t_pid T))
  end → lw (allocproc sel) T Q.
Proof.
  intros HQ s o s' HT H. unfold allocproc in H. apply bind_Ok in H as (ps & s0 & [= <- <-] & H).
  rewrite find_unused_table, HT in H. destruct (t_unused T) as [n|]; [|by injection H as <- <-; rewrite HT].
  destruct HQ as [Q1 Q2].
  assert (Hlw : lw allocpid T (λ pid T', pid = t_next T ∧ T' = t_pid T)).
  { intros s1 a s2 <- H1. unfold allocpid in H1. apply bind_Ok in H1 as (p & s3 & [= <- <-] & H1).
    apply bind_Ok in H1 as ([] & s4 & [= <-] & H1). injection H1 as <- <-. done. }
  revert HT H. apply lw_bind. eapply lw_mono; [exact Hlw|]. intros pid T' [-> ->].
  apply lw_bind. eapply (lw_updp n _ (c_alloc (t_next T))); [done|].
  do 3 (apply lw_keep; [keeps_tac|intros ?]). case_match.
  - apply lw_bind, freeproc_lw, lw_ret. rewrite t_upd_upd. exact Q1.
  - do 3 (apply lw_keep; [keeps_tac|intros ?]). case_match.
    + apply lw_bind, freeproc_lw, lw_ret. rewrite t_upd_upd. exact Q1.
    + apply lw_keep; [keeps_tac|intros ?]. by apply lw_ret.
Qed.

(** ** fork *)

Lemma keeps_dup_files fds : kept (dup_files fds).
Proof. induction fds as [|[f|] fds IH]; cbn [dup_files]; keeps_tac. Qed.

Lemma keeps_copy_swap_page p np i : kept (copy_swap_page p np i).
Proof. unfold copy_swap_page, readFromSwapFile, writeToSwapFile. keeps_tac. Qed.

Lemma keeps_put_name n t : kept (updp n (put_name t)).
Proof. by apply keeps_updp. Qed.
#[local] Hint Resolve keeps_dup_files keeps_copy_swap_page keeps_put_name : keeps.

(** The entry of a child. *)
Definition c_child (me : nat) (pid : Z) (c : pcore) : pcore :=
  mk_pcore RUNNABLE (c_chan c) (c_killed c) (c_xstate c) pid (Some me).

Lemma t_unused_lt T n : t_unused T = Some n → ∃ c, t_at T n c ∧ c_state c = UNUSED.
Proof.
  unfold t_unused, t_at. destruct (list_find _ (t_procs T)) as [[i c]|] eqn:E; [|done]. intros [= <-].
  apply list_find_Some in E as (H1 & H2 & _). eauto.
Qed.

Lemma fork_lw sel T (Q : Z → ptable → Prop) :
  (∀ me, t_cur T = Some me →
    match t_unused T with
    | None => Q (-1) T
    | Some n => Q (-1) (t_upd n (λ _, free_core) (t_pid T)) ∧ Q (t_next T) (t_upd n (c_child me (t_next T)) (t_pid T))
    end) → lw (fork sel) T Q.
Proof.
  intros HQ. unfold fork. apply lw_bind, lw_curp. intros me Hme. specialize (HQ me Hme).
  apply lw_bind, allocproc_lw. destruct (t_unused T) as [n|] eqn:En; [|by apply lw_ret].
  destruct HQ as [Q1 Q2]. split; [by apply lw_ret|]. set (T1 := t_upd n (c_alloc (t_next T)) (t_pid T)).
  do 3 (apply lw_keep; [keeps_tac|intros ?]). case_match.
  - apply lw_bind, freeproc_lw, lw_ret. unfold T1. rewrite t_upd_upd. exact Q1.
  - do 8 (apply lw_keep; [keeps_tac|intros ?]). apply lw_bind, lw_getp. intros np Hnp. cbv zeta.
    apply lw_keep; [keeps_tac|intros ?]. apply lw_bind, (lw_updp _ _ (c_set_parent (Some me))); [done|].
    apply lw_bind, (lw_updp _ _ (c_set_state RUNNABLE)); [done|]. apply lw_ret. unfold T1. rewrite !t_upd_upd.
    destruct (t_unused_lt _ _ En) as (c & Hc & _).
    assert (p_pid np = t_next T) as ->.
    { unfold t_at, T1 in Hnp. rewrite t_upd_lookup, decide_True in Hnp by done. unfold t_at in Hc. change (t_procs (t_pid T)) with (t_procs T) in Hnp.
      rewrite Hc in Hnp. apply (f_equal (λ o, c_pid (default free_core o))) in Hnp. by symmetry. }
    erewrite (t_upd_ext _ n); [exact Q2|]. done.
Qed.

End Spec.
