(* ===== verification/ProcInv.v ===== *)
(** The process table in every reachable state: ids are unique, every process but
    the first has a living parent, and no process sleeps in [wait] while a child of
    it is a zombie. *)

From S2P Require Import Prelude Riscv Memory Str State Kalloc PageTable Paging Fault Uvm Proc ProcSpec.

Definition alive (st : procstate) : Prop := st = SLEEPING ∨ st = RUNNABLE ∨ st = RUNNING.

Section Inv.
Context {F : Type} {KI : KImage} {SW : SwapStore F} {PF : ProcFiles F} {KC : KCode}.
Abbreviation lw := (@ProcSpec.lw F _).

Record ptable_ok (T : ptable) : Prop := {
  pt_len : length (t_procs T) = Z.to_nat NPROC;
  pt_next : 0 < t_next T;
  pt_states : ∀ i c, t_at T i c → alive (c_state c) ∨ c_state c = UNUSED ∨ c_state c = ZOMBIE;
  pt_pid : ∀ i c, t_at T i c → c_state c ≠ UNUSED → 0 < c_pid c < t_next T;
  pt_uniq : ∀ i j ci cj, t_at T i ci → t_at T j cj → c_state ci ≠ UNUSED → c_state cj ≠ UNUSED → c_pid ci = c_pid cj → i = j;
  pt_free : ∀ i c, t_at T i c → c_state c = UNUSED → c_pid c = 0 ∧ c_parent c = None;
  pt_run : ∀ i c, t_at T i c → c_state c = RUNNING → t_cur T = Some i;
  pt_parent : ∀ i c, t_at T i c → c_state c ≠ UNUSED → t_init T ≠ Some i →
    ∃ j cj, c_parent c = Some j ∧ t_at T j cj ∧ alive (c_state cj);
  pt_init : ∃ i c, t_init T = Some i ∧ t_at T i c ∧ alive (c_state c);
  pt_wake : ∀ i c, t_at T i c → c_state c = SLEEPING → c_chan c = proc_addr i →
    ∀ k ck, t_at T k ck → c_parent ck = Some i → c_state ck ≠ ZOMBIE
}.

(** A change of one entry. *)
Lemma t_upd_at T i g j c :
  t_at (t_upd i g T) j c ↔ (j = i ∧ ∃ c0, t_at T i c0 ∧ c = g c0) ∨ (j ≠ i ∧ t_at T j c).
Proof.
  unfold t_at. rewrite t_upd_lookup. destruct (decide (j = i)) as [->|Hne].
  - destruct (t_procs T !! i) as [c0|]; simpl; split; naive_solver.
  - naive_solver.
Qed.

Lemma t_upd_at_ne T i g j c : j ≠ i → t_at (t_upd i g T) j c ↔ t_at T j c.
Proof. intros Hne. rewrite t_upd_at. naive_solver. Qed.

Lemma t_at_inj T i c c' : t_at T i c → t_at T i c' → c = c'.
Proof. unfold t_at. congruence. Qed.

(** Changes that touch neither ids nor parents nor the set of living processes. *)
Record gentle (g : pcore → pcore) (c : pcore) : Prop := {
  ge_pid : c_pid (g c) = c_pid c;
  ge_parent : c_parent (g c) = c_parent c;
  ge_alive : c_state (g c) = c_state c ∨ alive (c_state c) ∧ alive (c_state (g c))
}.

Lemma alive_not st : alive st → st ≠ UNUSED ∧ st ≠ ZOMBIE.
Proof. intros [->|[->| ->]]; done. Qed.

Lemma gentle_state g c st : gentle g c → (st = UNUSED ∨ st = ZOMBIE) → (c_state (g c) = st ↔ c_state c = st).
Proof.
  intros [_ _ [E|[H1 H2]]] Hst; [by rewrite E|]. apply alive_not in H1, H2. destruct Hst as [->| ->]; naive_solver.
Qed.

(** A table whose entries differ gently from those of a well-formed one. *)
Lemma ptable_ok_gentle T T' (g : nat → pcore → pcore) :
  ptable_ok T → t_next T' = t_next T → t_init T' = t_init T → length (t_procs T') = length (t_procs T) →
  (∀ i c', t_at T' i c' ↔ ∃ c, t_at T i c ∧ c' = g i c) → (∀ i c, t_at T i c → gentle (g i) c) →
  (∀ i c, t_at T i c → c_state (g i c) = RUNNING → t_cur T' = Some i) →
  (∀ i c, t_at T i c → c_state (g i c) = SLEEPING → c_chan (g i c) = proc_addr i →
    (c_state c = SLEEPING ∧ c_chan c = proc_addr i) ∨ ∀ k ck, t_at T k ck → c_parent ck = Some i → c_state ck ≠ ZOMBIE) →
  ptable_ok T'.
Proof.
  intros [] En Ei El Hat Hg Hrun Hwake. split; rewrite ?En, ?Ei; try done; [congruence|..].
  - intros i c' (c & Hc & ->)%Hat. destruct (Hg i c Hc) as [_ _ [->|[_ ?]]]; [by eapply pt_states0|by left].
  - intros i c' (c & Hc & ->)%Hat Hu. rewrite (gentle_state _ _ UNUSED (Hg i c Hc)) in Hu by tauto.
    rewrite (ge_pid _ _ (Hg i c Hc)). by eapply pt_pid0.
  - intros i j ci' cj' (ci & Hi & ->)%Hat (cj & Hj & ->)%Hat. rewrite (gentle_state _ _ UNUSED (Hg i ci Hi)), (gentle_state _ _ UNUSED (Hg j cj Hj)) by tauto.
    rewrite (ge_pid _ _ (Hg i ci Hi)), (ge_pid _ _ (Hg j cj Hj)). by eapply pt_uniq0.
  - intros i c' (c & Hc & ->)%Hat. rewrite (gentle_state _ _ UNUSED (Hg i c Hc)) by tauto.
    rewrite (ge_pid _ _ (Hg i c Hc)), (ge_parent _ _ (Hg i c Hc)). by eapply pt_free0.
  - intros i c' (c & Hc & ->)%Hat. by apply Hrun.
  - intros i c' (c & Hc & ->)%Hat. rewrite (gentle_state _ _ UNUSED (Hg i c Hc)) by tauto. intros Hu Hi.
    rewrite (ge_parent _ _ (Hg i c Hc)). destruct (pt_parent0 i c Hc Hu Hi) as (j & cj & Hp & Hj & Ha).
    exists j, (g j cj). split_and!; [done|apply Hat; eauto|]. destruct (Hg j cj Hj) as [_ _ [->|[_ ?]]]; done.
  - destruct pt_init0 as (i & c & Hi & Hc & Ha). exists i, (g i c). split_and!; [done|apply Hat; eauto|].
    destruct (Hg i c Hc) as [_ _ [->|[_ ?]]]; done.
  - intros i c' (c & Hc & ->)%Hat Hs Hch k ck' (ck & Hk & ->)%Hat. rewrite (gentle_state _ _ ZOMBIE (Hg k ck Hk)) by tauto.
    rewrite (ge_parent _ _ (Hg k ck Hk)). destruct (Hwake i c Hc Hs Hch) as [[H1 H2]|H]; [by eapply pt_wake0|by eapply H].
Qed.

(** The same for a change of one entry. *)
Lemma ptable_ok_upd T i g :
  ptable_ok T → (∀ c, t_at T i c → gentle g c) →
  (∀ c, t_at T i c → c_state (g c) = RUNNING → t_cur T = Some i) →
  (∀ c, t_at T i c → c_state (g c) = SLEEPING → c_chan (g c) = proc_addr i →
    (c_state c = SLEEPING ∧ c_chan c = proc_addr i) ∨ ∀ k ck, t_at T k ck → c_parent ck = Some i → c_state ck ≠ ZOMBIE) →
  ptable_ok (t_upd i g T).
Proof.
  intros Hok Hg Hrun Hwake. apply (ptable_ok_gentle T _ (λ j, if decide (j = i) then g else id)); try done.
  - unfold t_upd, with_procs. cbn [t_procs]. by rewrite length_alter.
  - intros j c'. rewrite t_upd_at. destruct (decide (j = i)) as [->|Hne]; [naive_solver|]. split; [|naive_solver].
    intros [[? _]|[_ ?]]; [done|]. by exists c'.
  - intros j c Hc. destruct (decide (j = i)) as [->|Hne]; [by apply Hg|]. split; try done. by left.
  - intros j c Hc. destruct (decide (j = i)) as [->|Hne]; [by apply Hrun|]. by apply (pt_run _ Hok).
  - intros j c Hc. destruct (decide (j = i)) as [->|Hne]; [by apply Hwake|]. intros Hs Hch. by left.
Qed.

Lemma c_wake_cases me chan i c :
  c_wake me chan i c = c ∨ c_state c = SLEEPING ∧ c_chan c = chan ∧ c_wake me chan i c = c_set_state RUNNABLE c.
Proof.
  unfold c_wake. case_bool_decide; [by left|]. case_bool_decide; cbn [andb]; [|by left].
  destruct (Z.eqb_spec (c_chan c) chan); [by right|by left].
Qed.

Lemma t_wake_at T chan i c' : t_at (t_wake chan T) i c' ↔ ∃ c, t_at T i c ∧ c' = c_wake (t_cur T) chan i c.
Proof.
  unfold t_at, t_wake, with_procs. cbn [t_procs]. rewrite list_lookup_imap. destruct (t_procs T !! i) as [c|]; simpl; naive_solver.
Qed.

Lemma ptable_ok_wake T chan : ptable_ok T → ptable_ok (t_wake chan T).
Proof.
  intros Hok. apply (ptable_ok_gentle T _ (c_wake (t_cur T) chan)); try done.
  - unfold t_wake, with_procs. cbn [t_procs]. by rewrite length_imap.
  - intros i c'. apply t_wake_at.
  - intros i c Hc. destruct (c_wake_cases (t_cur T) chan i c) as [E|(Hs & _ & E)]; split; rewrite E; try done; [by left|].
    right. rewrite Hs. split; [by left|]. right. by left.
  - intros i c Hc. destruct (c_wake_cases (t_cur T) chan i c) as [->|(Hs & _ & ->)]; [by apply (pt_run _ Hok)|done].
  - intros i c Hc. destruct (c_wake_cases (t_cur T) chan i c) as [->|(Hs & _ & ->)]; [|done]. intros. by left.
Qed.

(** ** exit *)

(** After a wakeup of [&proc[j]], [j] does not sleep on it. *)
Lemma t_wake_awake T j c : t_at (t_wake (proc_addr j) T) j c → t_cur T ≠ Some j → ¬ (c_state c = SLEEPING ∧ c_chan c = proc_addr j).
Proof.
  intros (c0 & Hc & ->)%t_wake_at Hne [Hs Hch]. unfold c_wake in *. rewrite bool_decide_eq_false_2 in * by done.
  destruct (bool_decide (c_state c0 = SLEEPING)) eqn:E; cbn [andb] in *.
  - destruct (c_chan c0 =? proc_addr j) eqn:E2; [done|]. by rewrite Hch, Z.eqb_refl in E2.
  - apply bool_decide_eq_false in E. done.
Qed.

(** One round of [reparent]: the child [i] goes to [init], which is woken. *)
Lemma ptable_ok_adopt T i init :
  ptable_ok T → t_init T = Some init → t_cur T ≠ Some init → (∃ c, t_at T i c ∧ c_state c ≠ UNUSED) →
  ptable_ok (t_wake (proc_addr init) (t_upd i (c_set_parent (Some init)) T)).
Proof.
  intros Hok Hi Hcur (ci & Hci & Hciu). set (T1 := t_upd i (c_set_parent (Some init)) T).
  destruct (pt_init _ Hok) as (i0 & c0 & Hi0 & Hc0 & Ha0). assert (i0 = init) as -> by congruence.
  assert (Hat : ∀ j c, t_at (t_wake (proc_addr init) T1) j c → ∃ c1, t_at T j c1 ∧ c_pid c = c_pid c1 ∧
    (c_state c = c_state c1 ∨ c_state c1 = SLEEPING ∧ c_state c = RUNNABLE) ∧ c_chan c = c_chan c1 ∧
    c_parent c = if decide (j = i) then Some init else c_parent c1).
  { intros j c (c1 & Hc1 & ->)%t_wake_at. apply t_upd_at in Hc1.
    assert (∃ c2, t_at T j c2 ∧ c_state c1 = c_state c2 ∧ c_chan c1 = c_chan c2 ∧ c_pid c1 = c_pid c2 ∧
      c_parent c1 = if decide (j = i) then Some init else c_parent c2) as (c2 & H2 & Es & Ec & Ep & Epa).
    { destruct Hc1 as [[-> (c2 & H2 & ->)]|[Hne H2]]; [exists c2; by rewrite decide_True|exists c1; by rewrite decide_False]. }
    exists c2. split; [done|]. destruct (c_wake_cases (t_cur T1) (proc_addr init) j c1) as [->|(Hs & _ & ->)]; cbn; split_and!; try done.
    - by left.
    - right. by rewrite <- Es. }
  assert (Hfor : ∀ j c1, t_at T j c1 → alive (c_state c1) → ∃ c, t_at (t_wake (proc_addr init) T1) j c ∧ alive (c_state c)).
  { intros j c1 H1 Ha. set (c2 := if decide (j = i) then c_set_parent (Some init) c1 else c1).
    exists (c_wake (t_cur T1) (proc_addr init) j c2). assert (alive (c_state c2)) by (unfold c2; by destruct (decide (j = i))).
    split; [apply t_wake_at; exists c2; split; [|done]; apply t_upd_at; unfold c2; destruct (decide (j = i)) as [->|]; naive_solver|].
    destruct (c_wake_cases (t_cur T1) (proc_addr init) j c2) as [->|(Hs & _ & ->)]; [done|]. right. by left. }
  destruct Hok. split; try done.
  - unfold t_wake, with_procs. cbn [t_procs]. rewrite length_imap. unfold T1, t_upd, with_procs. cbn [t_procs]. by rewrite length_alter.
  - intros j c (c1 & H1 & _ & Hs & _)%Hat. destruct Hs as [->|[_ ->]]; [by eapply pt_states0|]. left. right. by left.
  - intros j c (c1 & H1 & -> & Hs & _)%Hat Hu. apply (pt_pid0 j c1 H1). destruct Hs as [E|[E _]]; congruence.
  - intros j k cj ck (c1 & H1 & -> & Hs1 & _)%Hat (c2 & H2 & -> & Hs2 & _)%Hat Hu1 Hu2. apply (pt_uniq0 j k c1 c2 H1 H2); destruct Hs1 as [?|[? _]], Hs2 as [?|[? _]]; congruence.
  - intros j c (c1 & H1 & -> & Hs & _ & ->)%Hat Hu. assert (Hu1 : c_state c1 = UNUSED) by (destruct Hs as [?|[_ ?]]; congruence).
    destruct (decide (j = i)) as [->|]; [|by eapply pt_free0]. rewrite (t_at_inj _ _ _ _ H1 Hci) in Hu1. done.
  - intros j c (c1 & H1 & _ & Hs & _)%Hat Hr. apply (pt_run0 j c1 H1). destruct Hs as [?|[_ ?]]; congruence.
  - intros j c (c1 & H1 & _ & Hs & _ & ->)%Hat Hu Hj. destruct (decide (j = i)) as [->|Hne].
    + destruct (Hfor init c0 Hc0 Ha0) as (c' & ? & ?). eauto 10.
    + assert (Hu1 : c_state c1 ≠ UNUSED) by (destruct Hs as [?|[? _]]; congruence).
      destruct (pt_parent0 j c1 H1 Hu1 Hj) as (k & ck & Hp & Hk & Ha). destruct (Hfor k ck Hk Ha) as (c' & ? & ?). eauto 10.
  - destruct (Hfor init c0 Hc0 Ha0) as (c' & ? & ?). eauto 10.
  - intros j c Hjc Hsl Hch k ck Hk Hp. destruct (decide (j = init)) as [->|Hne].
    { by destruct (t_wake_awake _ _ _ Hjc Hcur). }
    destruct (Hat _ _ Hjc) as (c1 & H1 & _ & Hs & Ec & _). destruct (Hat _ _ Hk) as (c2 & H2 & _ & Hs2 & _ & Ep).
    destruct (decide (k = i)) as [->|Hki]; [congruence|]. rewrite Ep in Hp.
    intros Hz. apply (pt_wake0 j c1 H1) with (k := k) (ck := c2); try done; try congruence.
    + destruct Hs as [?|[? _]]; congruence.
    + destruct Hs2 as [?|[_ ?]]; congruence.
Qed.

(** The running process [me], which is not the first one. *)
Record exiting (T : ptable) (me init : nat) : Prop := {
  ex_ok : ptable_ok T;
  ex_cur : t_cur T = Some me;
  ex_init : t_init T = Some init;
  ex_ne : init ≠ me;
  ex_run : ∃ c, t_at T me c ∧ c_state c = RUNNING
}.

Lemma exiting_wake T me init chan : exiting T me init → exiting (t_wake chan T) me init.
Proof.
  intros [? Hc ? ? (c & Hat & Hr)]. split; try done; [by apply ptable_ok_wake|]. exists c. split; [|done].
  apply t_wake_at. exists c. split; [done|]. unfold c_wake. by rewrite bool_decide_eq_true_2.
Qed.

Lemma exiting_adopt T me init i : exiting T me init → (∃ c, t_at T i c ∧ c_state c ≠ UNUSED) →
  exiting (t_wake (proc_addr init) (t_upd i (c_set_parent (Some init)) T)) me init.
Proof.
  intros [? Hc ? ? (c & Hat & Hr)] Hi. split; try done; [apply ptable_ok_adopt; [done|done|congruence|done]|].
  set (c' := if decide (me = i) then c_set_parent (Some init) c else c). exists c'. split; [|unfold c'; by case_match].
  apply t_wake_at. exists c'. split; [|unfold c_wake; by rewrite bool_decide_eq_true_2].
  apply t_upd_at. unfold c'. destruct (decide (me = i)) as [->|]; naive_solver.
Qed.

(** [reparent] leaves no child of [me]. *)
Lemma reparent_lw T me init : exiting T me init →
  lw (reparent me) T (λ _ T', exiting T' me init ∧ ∀ k c, t_at T' k c → c_parent c ≠ Some me).
Proof.
  intros Hex. unfold reparent.
  apply (lw_for_each (λ l T', exiting T' me init ∧ ∀ k c, k ∈ l → t_at T' k c → c_parent c ≠ Some me)).
  - split; [done|]. intros k c Hk%elem_of_nil. done.
  - clear T Hex. intros l i rest T Hl [Hex Hl']. apply lw_bind, lw_getp. intros p Hp. case_bool_decide as Hpar.
    + apply lw_bind, lw_initproc. rewrite (ex_init _ _ _ Hex).
      apply lw_bind, (lw_updp _ _ (c_set_parent (Some init))); [done|]. apply lw_wakeup. cbn [chan_of].
      assert (Hu : c_state (core_of p) ≠ UNUSED).
      { intros Hu. destruct (pt_free _ (ex_ok _ _ _ Hex) _ _ Hp Hu) as [_ Hn]. cbn in Hn. congruence. }
      split; [apply exiting_adopt; eauto|]. intros k c Hk (c1 & Hc1 & ->)%t_wake_at.
      assert (Hpc : c_parent (c_wake (t_cur (t_upd i (c_set_parent (Some init)) T)) (proc_addr init) k c1) = c_parent c1).
      { destruct (c_wake_cases (t_cur (t_upd i (c_set_parent (Some init)) T)) (proc_addr init) k c1) as [->|(_ & _ & ->)]; done. }
      rewrite Hpc. apply t_upd_at in Hc1 as [[-> (c0 & _ & ->)]|[Hne Hc1]].
      * cbn. intros [= E]. by apply (ex_ne _ _ _ Hex).
      * apply elem_of_app in Hk as [Hk|Hk%list_elem_of_singleton]; [by eapply Hl'|done].
    + apply lw_ret. split; [done|]. intros k c Hk Hc. apply elem_of_app in Hk as [Hk| ->%list_elem_of_singleton]; [by eapply Hl'|].
      rewrite (t_at_inj _ _ _ _ Hc Hp). done.
  - intros T' [Hex' Hall]. split; [done|]. intros k c Hc. apply (Hall k c); [|done]. apply elem_of_seq. split; [lia|].
    rewrite <- (pt_len _ (ex_ok _ _ _ Hex')). by eapply lookup_lt_Some.
Qed.

Definition c_zombie (st : Z) (c : pcore) : pcore := mk_pcore ZOMBIE (c_chan c) (c_killed c) st (c_pid c) (c_parent c).

Lemma ptable_ok_zombie T me init st :
  exiting T me init → (∀ k c, t_at T k c → c_parent c ≠ Some me) →
  (∀ cm j cj, t_at T me cm → c_parent cm = Some j → t_at T j cj → ¬ (c_state cj = SLEEPING ∧ c_chan cj = proc_addr j)) →
  ptable_ok (t_upd me (c_zombie st) T).
Proof.
  intros [Hok Hcur Hinit Hne (cm & Hcm & Hrun)] Hkids Hwk. destruct Hok.
  assert (Hold : ∀ j c, t_at (t_upd me (c_zombie st) T) j c → ∃ c1, t_at T j c1 ∧ c_pid c = c_pid c1 ∧ c_parent c = c_parent c1 ∧
    (j ≠ me ∧ c = c1 ∨ j = me ∧ c_state c = ZOMBIE ∧ c1 = cm)).
  { intros j c [[-> (c1 & H1 & ->)]|[Hj H1]]%t_upd_at; [exists c1|exists c]; split_and!; try done.
    - right. split_and!; try done. by eapply t_at_inj.
    - by left. }
  split; try done.
  - unfold t_upd, with_procs. cbn [t_procs]. by rewrite length_alter.
  - intros j c (c1 & H1 & _ & _ & [[_ ->]|(_ & -> & _)])%Hold; [by eapply pt_states0|]. right. by right.
  - intros j c (c1 & H1 & -> & _ & Hs)%Hold Hu. apply (pt_pid0 j c1 H1). destruct Hs as [[_ ->]|(_ & _ & ->)]; [done|]. by rewrite Hrun.
  - intros j k cj ck (c1 & H1 & -> & _ & Hs)%Hold (c2 & H2 & -> & _ & Hs2)%Hold Hu1 Hu2. apply (pt_uniq0 j k c1 c2 H1 H2).
    + destruct Hs as [[_ ->]|(_ & _ & ->)]; [done|]. by rewrite Hrun.
    + destruct Hs2 as [[_ ->]|(_ & _ & ->)]; [done|]. by rewrite Hrun.
  - intros j c (c1 & H1 & -> & -> & [[_ ->]|(_ & Hz & _)])%Hold Hu; [by eapply pt_free0|]. by rewrite Hz in Hu.
  - intros j c (c1 & H1 & _ & _ & [[_ ->]|(_ & Hz & _)])%Hold Hr; [by eapply pt_run0|]. by rewrite Hz in Hr.
  - intros j c (c1 & H1 & _ & -> & Hs)%Hold Hu Hj.
    assert (Hu1 : c_state c1 ≠ UNUSED) by (destruct Hs as [[_ ->]|(_ & _ & ->)]; [done|by rewrite Hrun]).
    destruct (pt_parent0 j c1 H1 Hu1 Hj) as (k & ck & Hp & Hk & Ha). exists k, ck. split_and!; [done| |done].
    apply t_upd_at_ne; [|done]. intros ->. by apply (Hkids j c1 H1).
  - destruct pt_init0 as (i & c & Hi & Hc & Ha). exists i, c. split_and!; [done| |done]. apply t_upd_at_ne; [congruence|done].
  - intros j c (c1 & H1 & _ & _ & [[Hj ->]|(_ & Hz & _)])%Hold Hs Hch k ck (c2 & H2 & _ & -> & Hs2)%Hold Hp; [|congruence].
    destruct Hs2 as [[_ ->]|(-> & _ & ->)]; [by apply (pt_wake0 j c1 H1 Hs Hch k c2 H2)|]. by destruct (Hwk cm j c1 Hcm Hp H1).
Qed.

Lemma keeps_close_file i : keeps (@table F) (close_file i).
Proof. unfold close_file. keeps_tac. Qed.

Lemma keeps_sched : keeps (@table F) sched.
Proof. unfold sched. keeps_tac. Qed.
#[local] Hint Resolve keeps_close_file keeps_sched : keeps.

(** The running process. *)
Definition running (T : ptable) (me : nat) : Prop := t_cur T = Some me ∧ ∃ c, t_at T me c ∧ c_state c = RUNNING.

Lemma exit_lw sel st T me : ptable_ok T → running T me → lw (exit sel st) T (λ _ T', ptable_ok T').
Proof.
  intros Hok [Hcur Hrun]. unfold exit. apply lw_bind, lw_curp. intros me' Hme. rewrite Hcur in Hme. injection Hme as <-.
  apply lw_bind, lw_initproc. case_bool_decide as Hinit; [apply lw_panic|].
  destruct (pt_init _ Hok) as (init & ci & Hi & _ & _).
  assert (Hex : exiting T me init) by (split; try done; congruence).
  do 7 (apply lw_keep; [keeps_tac|intros ?]). apply lw_bind. eapply lw_mono; [by apply (reparent_lw T me init)|].
  intros [] T1 [Hex1 Hkids]. apply lw_bind, lw_myproc. intros me' q Hme Hq.
  rewrite (ex_cur _ _ _ Hex1) in Hme. injection Hme as <-.
  destruct (ex_run _ _ _ Hex1) as (cm & Hcm & Hr). pose proof (t_at_inj _ _ _ _ Hq Hcm) as Eq.
  destruct (pt_parent _ (ex_ok _ _ _ Hex1) me cm Hcm) as (j & cj & Hp & Hj & _).
  { by rewrite Hr. }
  { rewrite (ex_init _ _ _ Hex1). intros [= E]. by apply (ex_ne _ _ _ Hex1). }
  assert (p_parent q = Some j) as -> by (rewrite <- Hp, <- Eq; done). cbn [chan_of].
  apply lw_bind, lw_wakeup. set (T2 := t_wake (proc_addr j) T1). pose proof (exiting_wake T1 me init (proc_addr j) Hex1) as Hex2. fold T2 in Hex2.
  apply lw_bind, (lw_upd_myproc me _ (c_zombie st)); [apply Hex2|done|]. apply lw_kept; [keeps_tac|]. intros [].
  apply (ptable_ok_zombie T2 me init st Hex2).
  - intros k c (c1 & Hc1 & ->)%t_wake_at. destruct (c_wake_cases (t_cur T1) (proc_addr j) k c1) as [->|(_ & _ & ->)]; by apply (Hkids k c1).
  - intros cm' k ck Hcm' Hpk Hk. apply t_wake_at in Hcm' as (c1 & Hc1 & ->). rewrite (t_at_inj _ _ _ _ Hc1 Hcm) in Hpk.
    assert (k = j) as ->.
    { destruct (c_wake_cases (t_cur T1) (proc_addr j) me cm) as [E|(_ & _ & E)]; rewrite E in Hpk; cbn in Hpk; congruence. }
    apply (t_wake_awake T1 j); [done|]. rewrite (ex_cur _ _ _ Hex1). intros E. apply (Hkids me cm Hcm). congruence.
Qed.

End Inv.
