(* ===== verification/ProcSys.v ===== *)
(** All processes together: the steps of the kernel on the process table, and the
    invariant of ProcInv.v in every state they reach. *)

From S2P Require Import Prelude Riscv Memory Str State Kalloc PageTable Paging Fault Uvm Proc ProcSpec ProcInv.

Section Sys.
Context {F : Type} {KI : KImage} {SW : SwapStore F} {PF : ProcFiles F} {KC : KCode}.
Abbreviation lw := (@ProcSpec.lw F _).

(** ** wait *)

(** A zombie's entry given back. *)
Lemma ptable_ok_reap T i c : ptable_ok T → t_at T i c → c_state c = ZOMBIE → ptable_ok (t_upd i (λ _, free_core) T).
Proof.
  intros Hok Hc Hz. destruct Hok.
  assert (Hno : ∀ j cj, t_at T j cj → alive (c_state cj) → j ≠ i).
  { intros j cj Hj Ha ->. rewrite (t_at_inj _ _ _ _ Hj Hc), Hz in Ha. by apply alive_not in Ha as [_ ?]. }
  assert (Hat : ∀ j cj, t_at (t_upd i (λ _, free_core) T) j cj → cj = free_core ∧ j = i ∨ t_at T j cj).
  { intros j cj [[-> (? & _ & ->)]|[_ ?]]%t_upd_at; [by left|by right]. }
  split; try done.
  - unfold t_upd, with_procs. cbn [t_procs]. by rewrite length_alter.
  - intros j cj [[-> _]|Hj]%Hat; [right; by left|by eapply pt_states].
  - intros j cj [[-> _]|Hj]%Hat Hu; [done|by eapply (pt_pid j cj)].
  - intros j k cj ck [[-> _]|Hj]%Hat [[-> _]|Hk]%Hat Hu1 Hu2; try done. by apply (pt_uniq j k cj ck).
  - intros j cj [[-> _]|Hj]%Hat Hu; [done|by eapply pt_free].
  - intros j cj [[-> _]|Hj]%Hat Hr; [done|by eapply pt_run].
  - intros j cj [[-> _]|Hj]%Hat Hu Hi; [done|]. destruct (pt_parent j cj Hj Hu Hi) as (k & ck & Hp & Hk & Ha).
    exists k, ck. split_and!; [done| |done]. apply t_upd_at_ne; [by eapply Hno|done].
  - destruct pt_init as (j & cj & Hi & Hj & Ha). exists j, cj. split_and!; [done| |done]. apply t_upd_at_ne; [by eapply Hno|done].
  - intros j cj [[-> _]|Hj]%Hat Hs Hch k ck [[-> _]|Hk]%Hat Hp; try done. by apply (pt_wake j cj Hj Hs Hch k ck).
Qed.

(** What one scan of the table by [wait] finds. *)
Definition waited (T : ptable) (me : nat) (l : list nat) (r : bool + Z) (T' : ptable) : Prop :=
  match r with
  | inl _ => T' = T ∧ ∀ i c, i ∈ l → t_at T i c → c_parent c = Some me → c_state c ≠ ZOMBIE
  | inr z => z = -1 ∧ T' = T ∨ ∃ i c, t_at T i c ∧ c_parent c = Some me ∧ c_state c = ZOMBIE ∧ z = c_pid c ∧
      T' = t_upd i (λ _, free_core) T
  end.

Lemma wait_scan_lw sel addr me l T : ∀ k, lw (wait_scan sel addr me k l) T (waited T me l).
Proof.
  induction l as [|i l IH]; intros k; cbn [wait_scan].
  { apply lw_ret. split; [done|]. intros i c Hi%elem_of_nil. done. }
  apply lw_bind. unfold wait_step. apply lw_bind, lw_getp. intros p Hp.
  assert (Hgo : (c_parent (core_of p) = Some me → c_state (core_of p) ≠ ZOMBIE) → ∀ k', lw (wait_scan sel addr me k' l) T (waited T me (i :: l))).
  { intros Hn k'. eapply lw_mono; [apply IH|]. intros [b|z] T'; [|done]. intros [-> Hl]. split; [done|].
    intros j c [->|Hj]%elem_of_cons Hc; [rewrite (t_at_inj _ _ _ _ Hc Hp); done|by eapply Hl]. }
  case_bool_decide as Hpar; [|apply lw_ret, Hgo; intros Hc; by destruct Hpar].
  case_bool_decide as Hz; [|by apply lw_ret, Hgo]. apply lw_bind, lw_kept; [keeps_tac|]. intros r. case_match.
  - apply lw_ret, lw_ret. by left.
  - apply lw_bind, freeproc_lw, lw_ret, lw_ret. right. by exists i, (core_of p).
Qed.

Lemma gentle_id_state c st : alive (c_state c) → alive st → gentle (c_set_state st) c.
Proof. intros H1 H2. split; try done. by right. Qed.

Lemma sleep_lw chan T me : ptable_ok T → running T me →
  (chan = proc_addr me → ∀ k ck, t_at T k ck → c_parent ck = Some me → c_state ck ≠ ZOMBIE) →
  lw (sleep chan) T (λ _ T', ptable_ok T').
Proof.
  intros Hok [Hcur (c & Hc & Hr)] Hch. unfold sleep.
  apply lw_bind, (lw_upd_myproc me _ (λ c, c_set_state SLEEPING (c_set_chan chan c))); [done|done|].
  unfold sched. apply lw_kept; [keeps_tac|]. intros []. apply ptable_ok_upd; [done|..].
  - intros c' Hc'. rewrite (t_at_inj _ _ _ _ Hc' Hc). split; try done. right. rewrite Hr. split; [right; by right|by left].
  - done.
  - intros c' Hc' _ Hch'. right. by apply Hch.
Qed.

Lemma wait_lw sel addr T me : ptable_ok T → running T me → lw (wait sel addr) T (λ _ T', ptable_ok T').
Proof.
  intros Hok Hrun. unfold wait. apply lw_bind, lw_curp. intros me' Hme.
  assert (me' = me) as -> by (destruct Hrun as [Hc _]; congruence).
  apply lw_bind. eapply lw_mono; [apply wait_scan_lw|]. intros [b|z] T'; cbn [waited].
  - intros [-> Hz]. apply lw_bind, lw_kept; [keeps_tac|]. intros p. case_match; [by apply lw_ret|].
    apply lw_bind. eapply lw_mono; [apply (sleep_lw (proc_addr me) T me Hok Hrun)|].
    + intros _ k ck Hk Hp. apply (Hz k ck); [|done|done]. apply elem_of_seq. split; [lia|]. rewrite <- (pt_len _ Hok). by eapply lookup_lt_Some.
    + intros [] T' Hok'. by apply lw_ret.
  - intros [[-> ->]|(i & c & Hc & _ & Hz & _ & ->)]; apply lw_ret; [done|]. by apply (ptable_ok_reap T i c).
Qed.

(** ** fork *)

Lemma t_pid_at T i c : t_at (t_pid T) i c ↔ t_at T i c.
Proof. done. Qed.

(** An unused entry taken, or given back after a failure; the id is used up. *)
Lemma ptable_ok_take T n c c0 :
  ptable_ok T → t_next T < 2 ^ 31 - 1 → t_at T n c0 → c_state c0 = UNUSED →
  (c = free_core ∨ c_state c = RUNNABLE ∧ c_pid c = t_next T ∧ ∃ me, running T me ∧ c_parent c = Some me) →
  ptable_ok (t_upd n (λ _, c) (t_pid T)).
Proof.
  intros Hok Hnext Hn Hu Hc. destruct Hok.
  assert (En : t_next (t_upd n (λ _, c) (t_pid T)) = t_next T + 1).
  { cbn. unfold i32. rewrite Z.mod_small by lia. lia. }
  assert (Hno : ∀ j cj, t_at T j cj → alive (c_state cj) → j ≠ n).
  { intros j cj Hj Ha ->. rewrite (t_at_inj _ _ _ _ Hj Hn), Hu in Ha. by apply alive_not in Ha as [? _]. }
  assert (Hat : ∀ j cj, t_at (t_upd n (λ _, c) (t_pid T)) j cj → cj = c ∧ j = n ∨ j ≠ n ∧ t_at T j cj).
  { intros j cj [[-> (? & _ & ->)]|[? ?]]%t_upd_at; [by left|by right]. }
  assert (Hkeep : ∀ j cj, t_at T j cj → alive (c_state cj) → t_at (t_upd n (λ _, c) (t_pid T)) j cj).
  { intros j cj Hj Ha. apply t_upd_at_ne; [by eapply Hno|done]. }
  assert (Hrun : ∀ me, running T me → ∃ cm, t_at T me cm ∧ alive (c_state cm)).
  { intros me [_ (cm & Hcm & Hr)]. exists cm. split; [done|]. rewrite Hr. right. by right. }
  split; rewrite ?En; try done.
  - unfold t_upd, with_procs. cbn [t_procs t_pid with_next]. by rewrite length_alter.
  - lia.
  - intros j cj [[-> _]|[_ Hj]]%Hat; [|by eapply pt_states]. destruct Hc as [->|[-> _]]; [right; by left|left; right; by left].
  - intros j cj [[-> _]|[_ Hj]]%Hat Hu'; [|specialize (pt_pid _ _ Hj Hu'); lia]. destruct Hc as [->|(_ & -> & _)]; [done|lia].
  - intros j k cj ck [[-> ->]|[_ Hj]]%Hat [[-> ->]|[_ Hk]]%Hat Hu1 Hu2 Ep; try done; [| |by eapply pt_uniq].
    + destruct Hc as [->|(_ & Ec & _)]; [done|]. specialize (pt_pid _ _ Hk Hu2). lia.
    + destruct Hc as [->|(_ & Ec & _)]; [done|]. specialize (pt_pid _ _ Hj Hu1). lia.
  - intros j cj [[-> _]|[_ Hj]]%Hat Hu'; [|by eapply pt_free]. destruct Hc as [->|(E & _)]; [done|congruence].
  - intros j cj [[-> _]|[_ Hj]]%Hat Hr; [|by eapply pt_run]. destruct Hc as [->|(E & _)]; [done|congruence].
  - intros j cj [[-> ->]|[_ Hj]]%Hat Hu' Hi.
    + destruct Hc as [->|(_ & _ & me & Hme & Hp)]; [done|]. destruct (Hrun me Hme) as (cm & ? & ?). eauto 10.
    + destruct (pt_parent j cj Hj Hu' Hi) as (k & ck & Hp & Hk & Ha). eauto 10.
  - destruct pt_init as (j & cj & Hi & Hj & Ha). eauto 10.
  - intros j cj [[-> ->]|[_ Hj]]%Hat Hs Hch k ck [[-> ->]|[_ Hk]]%Hat Hp; [| | |by apply (pt_wake j cj Hj Hs Hch k ck)].
    all: destruct Hc as [->|(E & _)]; try done; congruence.
Qed.

Lemma t_upd_const T n g c : t_at T n c → t_upd n g T = t_upd n (λ _, g c) T.
Proof. intros Hc. apply t_upd_ext. intros c' Hc'. by rewrite (t_at_inj _ _ _ _ Hc' Hc). Qed.

Lemma fork_ok_lw sel T me : ptable_ok T → running T me → t_next T < 2 ^ 31 - 1 → lw (fork sel) T (λ _ T', ptable_ok T').
Proof.
  intros Hok Hrun Hn. apply fork_lw. intros me' Hme. assert (me' = me) as -> by (destruct Hrun as [Hc _]; congruence).
  destruct (t_unused T) as [n|] eqn:E; [|done]. destruct (t_unused_lt _ _ E) as (c & Hc & Hu). split.
  - apply (ptable_ok_take T n _ c); try done. by left.
  - rewrite (t_upd_const (t_pid T) n _ c Hc). apply (ptable_ok_take T n _ c); try done. right. split_and!; try done. by exists me.
Qed.

(** ** The other steps *)

Lemma lw_gets_procs T (Q : list proc → ptable → Prop) : (∀ ps, core_of <$> ps = t_procs T → Q ps T) → lw (gets procs) T Q.
Proof. intros HQ s ps s' <- [= <- <-]. by apply HQ. Qed.

Definition c_kill (c : pcore) : pcore :=
  let c := mk_pcore (c_state c) (c_chan c) 1 (c_xstate c) (c_pid c) (c_parent c) in
  if bool_decide (c_state c = SLEEPING) then c_set_state RUNNABLE c else c.

Lemma c_kill_state c : c_pid (c_kill c) = c_pid c ∧ c_parent (c_kill c) = c_parent c ∧
  (c_state c = SLEEPING ∧ c_state (c_kill c) = RUNNABLE ∨ c_state c ≠ SLEEPING ∧ c_state (c_kill c) = c_state c).
Proof. unfold c_kill. cbn. case_bool_decide; split_and!; try done; [by left|by right]. Qed.

Lemma kill_lw pid T : ptable_ok T → lw (kill pid) T (λ _ T', ptable_ok T').
Proof.
  intros Hok. unfold kill. apply lw_bind, lw_gets_procs. intros ps Hps.
  destruct (list_find _ ps) as [[i p]|] eqn:E; [|by apply lw_ret].
  apply lw_bind, (lw_updp _ _ c_kill).
  { intros q. unfold c_kill. change (c_state (core_of q)) with (p_state q). cbn. by case_bool_decide. }
  apply lw_ret, ptable_ok_upd; [done|..]; intros c Hc; destruct (c_kill_state c) as (Ep & Ea & Hs).
  - split; [done|done|]. destruct Hs as [[-> ->]|[_ ->]]; [right|by left]. split; [by left|right; by left].
  - destruct Hs as [[_ ->]|[_ ->]]; [done|]. by apply (pt_run _ Hok).
  - destruct Hs as [[_ ->]|[? ->]]; done.
Qed.

Lemma yield_lw T me : ptable_ok T → running T me → lw yield T (λ _ T', ptable_ok T').
Proof.
  intros Hok [Hcur (c & Hc & Hr)]. unfold yield. apply lw_bind, (lw_upd_myproc me _ (c_set_state RUNNABLE)); [done|done|].
  unfold sched. apply lw_kept; [keeps_tac|]. intros []. apply ptable_ok_upd; try done.
  intros c' Hc'. apply gentle_id_state; [|right; by left]. rewrite (t_at_inj _ _ _ _ Hc' Hc), Hr. right. by right.
Qed.

Lemma sleep_return_lw T me : ptable_ok T → running T me → lw sleep_return T (λ _ T', ptable_ok T').
Proof.
  intros Hok [Hcur (c & Hc & Hr)]. unfold sleep_return. apply (lw_upd_myproc me _ (c_set_chan 0)); [done|done|].
  apply ptable_ok_upd; [done|..].
  - intros c' Hc'. split; try done. by left.
  - intros c' Hc' Hr'. done.
  - intros c' Hc' Hs. exfalso. rewrite (t_at_inj _ _ _ _ Hc' Hc) in Hs. cbn in Hs. congruence.
Qed.

Lemma lw_set_cur o T Q : Q tt (with_cur o T) → lw (modify (set_cur o)) T Q.
Proof. intros HQ s [] s' <- H. injection H as <-. done. Qed.

Lemma switch_lw i T : ptable_ok T → t_cur T = None → lw (scheduler_switch i) T (λ _ T', ptable_ok T').
Proof.
  intros Hok Hcur. unfold scheduler_switch. apply lw_bind, lw_getp. intros p Hp. case_bool_decide as Hr; [|by apply lw_ret].
  apply lw_bind, (lw_updp _ _ (c_set_state RUNNING)); [done|]. apply lw_set_cur.
  assert (Hnr : ∀ j c, t_at T j c → c_state c ≠ RUNNING) by (intros j c Hc H; pose proof (pt_run _ Hok j c Hc H); congruence).
  apply (ptable_ok_gentle T _ (λ j, if decide (j = i) then c_set_state RUNNING else id)); try done.
  - unfold t_upd, with_procs. cbn [t_procs with_cur]. by rewrite length_alter.
  - intros j c'. change (t_at (with_cur (Some i) (t_upd i (c_set_state RUNNING) T)) j c') with (t_at (t_upd i (c_set_state RUNNING) T) j c').
    rewrite t_upd_at. destruct (decide (j = i)) as [->|Hne]; [naive_solver|]. split; [|naive_solver].
    intros [[? _]|[_ ?]]; [done|]. by exists c'.
  - intros j c Hc. destruct (decide (j = i)) as [->|Hne]; [|split; try done; by left].
    rewrite (t_at_inj _ _ _ _ Hc Hp). apply gentle_id_state; [right; left; exact Hr|right; by right].
  - intros j c Hc. destruct (decide (j = i)) as [->|Hne]; [done|]. intros H. by destruct (Hnr j c Hc).
  - intros j c Hc. destruct (decide (j = i)) as [->|Hne]; [done|]. intros. by left.
Qed.

Lemma back_lw sel T i c : ptable_ok T → t_cur T = Some i → t_at T i c → c_state c ≠ RUNNING →
  lw (scheduler_back sel) T (λ _ T', ptable_ok T').
Proof.
  intros Hok Hcur Hc Hr. unfold scheduler_back. do 2 (apply lw_keep; [keeps_tac|intros ?]). apply lw_set_cur.
  apply (ptable_ok_gentle T _ (λ _, id)); try done.
  - intros j c'. unfold t_at. cbn. naive_solver.
  - intros j cj Hj. split; try done. by left.
  - intros j cj Hj Hrj. exfalso. pose proof (pt_run _ Hok j cj Hj Hrj) as E. rewrite Hcur in E. injection E as <-.
    by rewrite (t_at_inj _ _ _ _ Hj Hc) in Hrj.
  - intros. by left.
Qed.

(** ** Boot *)

(** The table as it is before [userinit]: all entries zero. *)
Definition booted (s : kst F) : Prop :=
  length (procs s) = Z.to_nat NPROC ∧ (∀ i p, procs s !! i = Some p → core_of p = free_core) ∧ cur s = None ∧ nextpid s = 1.

Definition c_first : pcore := mk_pcore RUNNABLE 0 0 0 1 None.

Lemma userinit_lw sel (s : kst F) : booted s → lw (userinit sel) (table s) (λ _ T', ptable_ok T').
Proof.
  intros (Hlen & Hall & Hcur & Hnext). set (T := table s).
  assert (Hat : ∀ i c, t_at T i c → c = free_core).
  { intros i c Hc. unfold t_at, T, table in Hc. cbn in Hc. rewrite list_lookup_fmap in Hc. destruct (procs s !! i) as [p|] eqn:E; [|done].
    injection Hc as <-. by eapply Hall. }
  assert (HlenT : length (t_procs T) = Z.to_nat NPROC) by (unfold T, table; cbn [t_procs]; by rewrite length_fmap).
  unfold userinit. apply lw_bind, allocproc_lw. destruct (t_unused T) as [n|] eqn:En.
  2: { apply lw_bind. intros s1 [] s2 H1 H2. apply lw_wild. }
  split. { apply lw_bind. intros s1 [] s2 H1 H2. apply lw_wild. }
  apply lw_bind. intros s1 [] s2 H1 H2. injection H2 as <-.
  assert (table (set_initproc (Some n) s1) = mk_ptable (t_procs (table s1)) (t_cur (table s1)) (t_next (table s1)) (Some n)) as -> by done. rewrite H1.
  do 7 (apply lw_keep; [keeps_tac; try (by apply keeps_updp)|intros ?]). apply lw_keep; [by apply keeps_updp|intros _].
  apply (lw_updp _ _ (c_set_state RUNNABLE)); [done|].
  destruct (t_unused_lt _ _ En) as (c & Hc & _). rewrite (Hat _ _ Hc) in Hc.
  set (T' := t_upd n _ _).
  assert (HT' : ∀ i c, t_at T' i c ↔ i = n ∧ c = c_first ∨ i ≠ n ∧ t_at T i c).
  { intros i ci. unfold T'. rewrite t_upd_at. unfold t_at at 2. cbn [t_procs].
    change (t_procs (t_upd n (c_alloc (t_next T)) (t_pid T)) !! i) with (t_procs (t_upd n (c_alloc (t_next T)) (t_pid T)) !! i).
    split.
    - intros [[-> (c1 & H3 & ->)]|[Hne H3]].
      + left. split; [done|]. unfold t_at in H3. cbn [t_procs] in H3. apply (t_upd_at (t_pid T)) in H3 as [[_ (c2 & H4 & ->)]|[? _]]; [|done].
        rewrite (Hat _ _ H4). unfold c_first. cbn. by rewrite Hnext.
      + right. split; [done|]. by apply (t_upd_at_ne (t_pid T)) in H3.
    - intros [[-> ->]|[Hne H3]].
      + left. split; [done|]. exists (c_alloc (t_next T) free_core). split; [|cbn; by rewrite Hnext].
        apply (t_upd_at (t_pid T)). left. split; [done|]. by exists free_core.
      + right. split; [done|]. by apply (t_upd_at_ne (t_pid T)). }
  assert (Halv : alive (c_state c_first)) by (right; by left).
  assert (Hn' : t_next T' = 2) by (cbn; rewrite Hnext; done).
  split; rewrite ?Hn'; try done.
  - unfold T', t_upd, with_procs. cbn [t_procs]. by rewrite !length_alter.
  - intros i ci [[-> ->]|[_ H3]]%HT'; [by left|]. rewrite (Hat _ _ H3). right. by left.
  - intros i ci [[-> ->]|[_ H3]]%HT' Hu; [cbn; lia|]. by rewrite (Hat _ _ H3) in Hu.
  - intros i j ci cj [[-> ->]|[_ H3]]%HT' [[-> ->]|[_ H4]]%HT' Hu1 Hu2; try done.
    + by rewrite (Hat _ _ H4) in Hu2.
    + by rewrite (Hat _ _ H3) in Hu1.
    + by rewrite (Hat _ _ H3) in Hu1.
  - intros i ci [[-> ->]|[_ H3]]%HT' Hu; [done|]. by rewrite (Hat _ _ H3).
  - intros i ci [[-> ->]|[_ H3]]%HT' Hr; [done|]. by rewrite (Hat _ _ H3) in Hr.
  - intros i ci [[-> ->]|[_ H3]]%HT' Hu Hi; [done|]. by rewrite (Hat _ _ H3) in Hu.
  - exists n, c_first. split_and!; [done| |done]. apply HT'. by left.
  - intros i ci [[-> ->]|[_ H3]]%HT' Hs; [done|]. by rewrite (Hat _ _ H3) in Hs.
Qed.

(** ** All steps

    A call by the running process, a wakeup or kill from anywhere, a switch of the
    scheduler, or any other code of the kernel, which leaves the table alone.  The
    channels of [sleep] other than in [wait] are not processes. *)
Inductive kstep (sel : selection) : kst F → kst F → Prop :=
| k_fork me s r s' : running (table s) me → nextpid s < 2 ^ 31 - 1 → fork sel s = Ok (r, s') → kstep sel s s'
| k_exit me st s s' : running (table s) me → exit sel st s = Ok (tt, s') → kstep sel s s'
| k_wait me addr s r s' : running (table s) me → wait sel addr s = Ok (r, s') → kstep sel s s'
| k_yield me s s' : running (table s) me → yield s = Ok (tt, s') → kstep sel s s'
| k_sleep me chan s s' : running (table s) me → (∀ i, chan ≠ proc_addr i) → sleep chan s = Ok (tt, s') → kstep sel s s'
| k_sleep_return me s s' : running (table s) me → sleep_return s = Ok (tt, s') → kstep sel s s'
| k_wakeup chan s s' : wakeup chan s = Ok (tt, s') → kstep sel s s'
| k_kill pid s r s' : kill pid s = Ok (r, s') → kstep sel s s'
| k_switch i s s' : cur s = None → scheduler_switch i s = Ok (tt, s') → kstep sel s s'
| k_back i p s s' : cur s = Some i → procs s !! i = Some p → p_state p ≠ RUNNING → scheduler_back sel s = Ok (tt, s') → kstep sel s s'
| k_other s s' : table s' = table s → kstep sel s s'.

Lemma kstep_ok sel s s' : ptable_ok (table s) → kstep sel s s' → ptable_ok (table s').
Proof.
  intros Hok Hstep. revert Hok.
  destruct Hstep as [me s0 r s1 Hr Hn H|me st s0 s1 Hr H|me addr s0 r s1 Hr H|me s0 s1 Hr H|me chan s0 s1 Hr Hc H|me s0 s1 Hr H|chan s0 s1 H|pid s0 r s1 H
    |i s0 s1 Hc H|i p s0 s1 Hc Hp Hs H|s0 s1 H]; intros Hok.
  - by apply (fork_ok_lw sel (table s0) me Hok Hr Hn s0 r s1).
  - by apply (exit_lw sel st (table s0) me Hok Hr s0 tt s1).
  - by apply (wait_lw sel addr (table s0) me Hok Hr s0 r s1).
  - by apply (yield_lw (table s0) me Hok Hr s0 tt s1).
  - apply (sleep_lw chan (table s0) me Hok Hr) in H; [done| |done]. intros E. by destruct (Hc me).
  - by apply (sleep_return_lw (table s0) me Hok Hr s0 tt s1).
  - exact (lw_wakeup chan (table s0) (λ _ T', ptable_ok T') (ptable_ok_wake _ chan Hok) s0 tt s1 eq_refl H).
  - by apply (kill_lw pid (table s0) Hok s0 r s1).
  - by apply (switch_lw i (table s0) Hok Hc s0 tt s1).
  - by apply (back_lw sel (table s0) i (core_of p) Hok Hc (table_at _ _ _ Hp) Hs s0 tt s1).
  - by rewrite H.
Qed.

Lemma reachable_ok sel s0 s1 s : booted s0 → userinit sel s0 = Ok (tt, s1) → rtc (kstep sel) s1 s → ptable_ok (table s).
Proof.
  intros Hb Hu Hr. assert (Hok : ptable_ok (table s1)) by (by apply (userinit_lw sel s0 Hb s0 tt s1)).
  clear Hu. induction Hr as [|x y z Hs _ IH]; [done|]. by apply IH, (kstep_ok sel x).
Qed.

Lemma at_table (s : kst F) i c : t_at (table s) i c → ∃ p, procs s !! i = Some p ∧ c = core_of p.
Proof.
  unfold t_at, table. cbn [t_procs]. rewrite list_lookup_fmap. destruct (procs s !! i) as [p|]; [|done].
  intros [= <-]. eauto.
Qed.


(** kill(0) finds the first entry that is not in use, whose id is 0, and
    marks it killed.  It stays so: the next process that allocproc makes, in
    that very entry, is killed from the start. *)
Lemma kill_zero_dooms_next sel (s : kst F) n :
  ptable_ok (table s) → find_unused_proc (procs s) = Some n →
  ∃ s', kill 0 s = Ok (0, s') ∧ ∀ m s'', allocproc sel s' = Ok (Some m, s'') →
    m = n ∧ ∃ p, procs s'' !! n = Some p ∧ p_pid p = nextpid s ∧ p_killed p = 1.
Proof.
  intros Hok Hf. unfold find_unused_proc in Hf. destruct (list_find (λ p, p_state p = UNUSED) (procs s)) as [[i p]|] eqn:E; [|done].
  injection Hf as ->. apply list_find_Some in E as (Hp & Hu & Hfirst).
  assert (Hz : list_find (λ p, p_pid p = 0) (procs s) = Some (n, p)).
  { apply list_find_Some. split_and!; [done|by apply (pt_free _ Hok n _ (table_at _ _ _ Hp))|].
    intros j q Hq Hj H0. pose proof (pt_pid _ Hok j _ (table_at _ _ _ Hq) (Hfirst j q Hq Hj)). cbn in *. lia. }
  unfold kill, mbind, M_bind, gets. rewrite Hz. unfold updp. rewrite Hp. eexists. split; [done|].
  set (s' := set_procs _ s). intros m s'' Ha.
  assert (Hs' : table s' = t_upd n c_kill (table s)).
  { apply (updp_table n (λ p, let p := set_p_killed 1 p in if bool_decide (p_state p = SLEEPING) then set_p_state RUNNABLE p else p) c_kill s tt).
    - intros q. unfold c_kill. change (c_state (core_of q)) with (p_state q). cbn. by case_bool_decide.
    - unfold updp. by rewrite Hp. }
  assert (Hun : t_unused (table s') = Some n).
  { rewrite <- find_unused_table. unfold find_unused_proc, s'. cbn [procs set_procs].
    set (q := if bool_decide _ then set_p_state RUNNABLE _ else set_p_killed 1 p). assert (Hqu : p_state q = UNUSED) by (unfold q; cbn; case_bool_decide; [congruence|done]).
    assert (list_find (λ p, p_state p = UNUSED) (<[n := q]> (procs s)) = Some (n, q)) as ->; [|done].
    apply list_find_Some. split_and!; [apply list_lookup_insert_eq; by eapply lookup_lt_Some|done|].
    intros j r Hj Hlt. rewrite list_lookup_insert_ne in Hj by lia. by eapply Hfirst. }
  assert (HQ : lw (allocproc sel) (table s') (λ o T', o = Some m → m = n ∧ ∃ c, t_at T' n c ∧ c_pid c = nextpid s ∧ c_killed c = 1)).
  { apply allocproc_lw. rewrite Hun. split; [done|]. intros [= <-]. split; [done|].
    exists (c_alloc (t_next (table s')) (c_kill (core_of p))). split_and!.
    - apply t_upd_at. left. split; [done|]. exists (c_kill (core_of p)). split; [|done]. rewrite t_pid_at, Hs'. apply t_upd_at.
      left. split; [done|]. exists (core_of p). split; [|done]. by apply table_at.
    - done.
    - cbn. unfold c_kill. cbn. by case_bool_decide. }
  destruct (HQ s' (Some m) s'' eq_refl Ha eq_refl) as (-> & c & (q & Hq & ->)%at_table & H1 & H2). split; [done|]. by exists q.
Qed.

End Sys.
