(* ===== verification/WitnessProc.v ===== *)
(** A concrete boot: the first process runs and forks. *)

From S2P Require Import Prelude Riscv Memory Str State Kalloc PageTable Paging Fault Machine Uvm Proc ProcSpec ProcInv ProcSys.

(** Files that only count references. *)
#[local] Instance flat_files : ProcFiles flat := {
  pf_createSwapFile _ := mret 0%nat;
  pf_removeSwapFile _ _ := mret 0;
  pf_filedup f := mret f;
  pf_fileclose _ := mret tt;
  pf_idup ip := mret ip;
  pf_iput _ := mret tt;
  pf_begin_op := mret tt;
  pf_end_op := mret tt;
  pf_namei _ := mret (Some 0%nat)
}.

#[local] Instance demo_code : KCode.
Proof.
  refine {| forkret := 0x80001000; proc_addr := λ i, 0x80010000 + 8 * Z.of_nat i |}; intros; lia.
Defined.

Definition proc0 : proc :=
  mk_proc UNUSED 0 0 0 0 None 0x3fffffd000 0 0 0 0 0 (replicate 16 None) None (replicate 16 0) None (replicate 16 no_page) (replicate 16 no_page) 0.

(** Twenty-four free pages. *)
Definition boot_free (k : Z) : Z := 0x87000000 + k * PGSIZE.
Definition boot_mem : memory := foldl (λ m k, store64 m (boot_free k) (boot_free (k + 1))) ∅ (seqZ 0 23).
Definition boot : kst flat := mk_kst boot_mem (boot_free 0) (replicate 64 proc0) None 1 None 0 [] ∅.

Definition after {A} (m : M (kst flat) A) (s : kst flat) : kst flat := match m s with Ok (_, s') => s' | _ => s end.
Definition init1 := after (userinit SCFIFO) boot.

Lemma after_Ok {A} (m : M (kst flat) A) s a :
  (match m s with Ok (b, _) => Some b | _ => None end) = Some a → m s = Ok (a, after m s).
Proof. unfold after. destruct (m s) as [[b s']| | | |]; try done. by intros [= ->]. Qed.

Lemma run_state (s : kst flat) me :
  cur s = Some me → p_state <$> procs s !! me = Some RUNNING → running (table s) me.
Proof.
  intros Hc Hr. split; [done|]. destruct (procs s !! me) as [p|] eqn:E; [|done]. exists (core_of p).
  split; [by apply table_at|]. by injection Hr.
Qed.

(** The first process runs and forks. *)
Definition run0 := after (scheduler_switch 0) init1.
Definition forked := after (fork SCFIFO) run0.

Lemma boot_booted : booted boot.
Proof.
  split_and!; [done| |done|done]. intros i p Hp. change (procs boot) with (replicate 64 proc0) in Hp.
  apply lookup_replicate_1 in Hp as [-> _]. done.
Qed.

Ltac ran := lazymatch goal with |- _ = Ok (_, ?d) => unfold d; apply after_Ok; vm_compute; reflexivity end.
Ltac runs := apply run_state; vm_compute; reflexivity.

Lemma boot_run : rtc (kstep SCFIFO) init1 forked.
Proof.
  eapply rtc_l; [apply (k_switch _ 0%nat _ run0); [by vm_compute|ran]|].
  eapply rtc_l; [apply (k_fork _ 0%nat _ 2 forked); [runs|by vm_compute|ran]|]. apply rtc_refl.
Qed.

Lemma init_ran : userinit SCFIFO boot = Ok (tt, init1).
Proof. ran. Qed.


