(* ===== verification/UserCopy.v ===== *)
(** [copyin], [copyout] and [copyinstr] of kernel/vm.c against the user's view
    of memory: the bytes at the virtual addresses of one address space. *)

From S2P Require Import Prelude Riscv Memory State Kalloc PageTable Paging PagingInv Fault Uvm.

(** ** The user's view *)

(** [va] is mapped for the user, and the byte there. *)
Definition umapped (m : memory) (root va : Z) : bool := negb (user_pa m root (PGROUNDDOWN va) =? 0).
Definition ubyte (m : memory) (root va : Z) : Z :=
  mget m (user_pa m root (PGROUNDDOWN va) + (va - PGROUNDDOWN va)).

Lemma PX_page lv va va' :
  0 <= lv → va / PGSIZE = va' / PGSIZE → PX lv va = PX lv va'.
Proof.
  intros Hlv Heq. rewrite !PX_eq by done. unfold PGSIZE in Heq.
  replace (2 ^ (12 + 9 * lv)) with (4096 * 2 ^ (9 * lv)) by (rewrite Z.pow_add_r by lia; lia).
  rewrite <- !Z.div_div by lia. by rewrite Heq.
Qed.

(** Entries belong to pages. *)
Lemma pte_of_page m root va va' : va / PGSIZE = va' / PGSIZE → pte_of m root va = pte_of m root va'.
Proof.
  intros Heq. unfold pte_of, walk_slot, walk_table, next_table.
  by rewrite (PX_page 2 va va'), (PX_page 1 va va'), (PX_page 0 va va').
Qed.

Lemma round_down va : PGROUNDDOWN va <= va < PGROUNDDOWN va + PGSIZE ∧ PGROUNDDOWN va mod PGSIZE = 0 ∧
  PGROUNDDOWN va / PGSIZE = va / PGSIZE.
Proof.
  rewrite PGROUNDDOWN_eq. unfold PGSIZE.
  rewrite (Z.mul_comm 4096), Z_mod_mult, Z.div_mul by lia. Z.div_mod_to_equations. lia.
Qed.

Lemma round_down_pos va : 0 <= va → 0 <= PGROUNDDOWN va.
Proof. rewrite PGROUNDDOWN_eq. unfold PGSIZE. intros. Z.div_mod_to_equations. lia. Qed.

Lemma round_down_same va va' :
  PGROUNDDOWN va <= va' < PGROUNDDOWN va + PGSIZE → PGROUNDDOWN va' = PGROUNDDOWN va.
Proof. rewrite !PGROUNDDOWN_eq. unfold PGSIZE. intros. Z.div_mod_to_equations. lia. Qed.

Section UserCopy.
Context {F : Type} {KI : KImage} {KOK : KImageOk KI} {SW : SwapStore F}.
Implicit Types s : kst F.

(** Every page mapped for the user in [root] is a page of this address space. *)
Record aspace_ok s (G : gmap Z usage) (l : list Z) (root : Z) : Prop := {
  as_wf : vm_wf s G l;
  as_root : is_root G root;
  as_own : ∀ va, 0 <= va → user_pa (mem s) root (PGROUNDDOWN va) ≠ 0 →
    G !! user_pa (mem s) root (PGROUNDDOWN va) = Some (UData root (PGROUNDDOWN va))
}.

(** Pages still to visit for [len] bytes from [va] on. *)
Definition pages_left (va len : Z) : Z :=
  if decide (0 < len) then (va + len - 1) / PGSIZE - va / PGSIZE + 1 else 0.

Lemma pages_left_fuel va len : 0 <= va → 0 <= len → (Z.to_nat (pages_left va len) < copy_fuel len)%nat.
Proof.
  intros Hva Hlen. unfold pages_left, copy_fuel, PGSIZE. case_decide; [|lia].
  apply Nat2Z.inj_lt. rewrite !Nat2Z.inj_succ, !Z2Nat.id; Z.div_mod_to_equations; lia.
Qed.

Lemma pages_left_step va len n :
  0 <= va → 0 < len → n = Z.min (PGSIZE - (va - PGROUNDDOWN va)) len →
  0 < n <= len ∧ 0 <= pages_left (PGROUNDDOWN va + PGSIZE) (len - n) < pages_left va len.
Proof.
  intros Hva Hlen ->. destruct (round_down va) as (H1 & H2 & H3).
  assert (Hd : (PGROUNDDOWN va + PGSIZE) / PGSIZE = va / PGSIZE + 1).
  { rewrite <- H3. unfold PGSIZE. Z.div_mod_to_equations. lia. }
  unfold pages_left. rewrite Hd. split; [unfold PGSIZE in *; lia|].
  assert (0 <= (va + len - 1) / PGSIZE - va / PGSIZE).
  { unfold PGSIZE. Z.div_mod_to_equations. lia. }
  repeat case_decide; try lia.
  destruct (Z.min_spec (PGSIZE - (va - PGROUNDDOWN va)) len) as [[? Hm]|[? Hm]]; rewrite Hm in *; [|lia].
  replace (PGROUNDDOWN va + PGSIZE + (len - (PGSIZE - (va - PGROUNDDOWN va))) - 1) with (va + len - 1) by lia.
  assert (va / PGSIZE + 1 <= (va + len - 1) / PGSIZE).
  { rewrite <- Hd. apply Z.div_le_mono; unfold PGSIZE in *; lia. }
  lia.
Qed.

(** The bytes from [va] to the end of the page or of the range are read at
    consecutive physical addresses. *)
Lemma read_ubytes m root va n :
  PGROUNDDOWN va <= va → 0 <= n <= PGSIZE - (va - PGROUNDDOWN va) →
  read_bytes m (user_pa m root (PGROUNDDOWN va) + (va - PGROUNDDOWN va)) (Z.to_nat n) =
  ubyte m root <$> seqZ va n.
Proof.
  intros Hva Hn. apply list_eq. intros k. rewrite list_lookup_fmap.
  destruct (decide (Z.of_nat k < n)).
  - rewrite lookup_read_bytes, lookup_seqZ_lt by lia. simpl. f_equal. unfold ubyte.
    rewrite (round_down_same va (va + Z.of_nat k)) by lia. f_equal. lia.
  - rewrite lookup_seqZ_ge by lia. apply lookup_ge_None_2. rewrite length_read_bytes. lia.
Qed.

Lemma umapped_page m root va va' :
  PGROUNDDOWN va <= va' < PGROUNDDOWN va + PGSIZE → umapped m root va' = umapped m root va.
Proof. intros H. unfold umapped. by rewrite (round_down_same va va' H). Qed.

Lemma user_page_ram s G l root va :
  aspace_ok s G l root → 0 <= va → user_pa (mem s) root (PGROUNDDOWN va) ≠ 0 →
  page_ok (user_pa (mem s) root (PGROUNDDOWN va)).
Proof. intros [Hwf _ Ho] Hva Hne. eapply wf_page; [done|by apply Ho]. Qed.

(** ** copyin *)

(** What [copyin] returns: all [len] bytes, or -1 and the bytes before the
    first page that is not mapped. *)
Definition copyin_post (m : memory) (root srcva len : Z) (r : Z) (bs : list Z) : Prop :=
  (r = 0 ∧ bs = (ubyte m root <$> seqZ srcva len) ∧
     ∀ k, 0 <= k < len → umapped m root (srcva + k) = true) ∨
  (r = -1 ∧ ∃ n, 0 <= n < len ∧ bs = (ubyte m root <$> seqZ srcva n) ∧
     (∀ k, 0 <= k < n → umapped m root (srcva + k) = true) ∧ umapped m root (srcva + n) = false).

Lemma copyin_ok s G l root srcva len :
  aspace_ok s G l root → 0 <= srcva → 0 <= len → srcva + len + PGSIZE <= 2 ^ 64 →
  wp (copyin root srcva len) s (λ r s', s' = s ∧ copyin_post (mem s) root srcva len r.1 r.2).
Proof.
  intros Has Hsv Hlen Hmax. unfold copyin.
  eapply (wp_loop _ (λ m st s', s' = s ∧ ∃ n, 0 <= n <= len ∧ 
    (n < len → st.1.1 = srcva + n) ∧ st.1.2 = len - n ∧ 0 <= st.1.1 ∧
    st.2 = (ubyte (mem s) root <$> seqZ srcva n) ∧
    (∀ k, 0 <= k < n → umapped (mem s) root (srcva + k) = true) ∧
    m = Z.to_nat (pages_left st.1.1 (len - n)))) with (n := Z.to_nat (pages_left srcva len)).
  - intros m [[sv ln] dst] s' (-> & n & Hn & Hsvn & Hln & Hpos & Hdst & Hmap & Hm).
    cbn [fst snd] in *. subst ln dst m. unfold copyin_body.
    destruct (Z.ltb_spec 0 (len - n)) as [Hlt|Hge].
    + rewrite Hsvn in * by lia. clear Hsvn.
      destruct (round_down (srcva + n)) as (Hr1 & Hr2 & Hr3).
      apply wp_bind. eapply walkaddr_ok; [apply Has|apply Has|by apply round_down_pos|].
      destruct (Z.eqb_spec (user_pa (mem s) root (PGROUNDDOWN (srcva + n))) 0) as [Hz|Hnz].
      * apply wp_ret. split; [done|]. right. split; [done|]. exists n. split_and!; [lia|lia|done|done|].
        unfold umapped. by rewrite Hz.
      * set (c := Z.min (PGSIZE - (srcva + n - PGROUNDDOWN (srcva + n))) (len - n)).
        destruct (pages_left_step (srcva + n) (len - n) c) as [Hc Hleft]; [lia|lia|done|].
        pose proof (user_page_ram _ _ _ _ _ Has Hpos Hnz) as Hok.
        pose proof (page_ok_end _ Hok). destruct Hok as [_ [Hlo _]].
        apply wp_bind, wp_readM; [unfold PGSIZE in *; lia|unfold PGSIZE in *; lia|]. apply wp_ret.
        exists (Z.to_nat (pages_left (PGROUNDDOWN (srcva + n) + PGSIZE) (len - n - c))).
        split; [lia|]. split; [done|]. exists (n + c). cbn [fst snd].
        assert (Hw : w64 (PGROUNDDOWN (srcva + n) + PGSIZE) = PGROUNDDOWN (srcva + n) + PGSIZE).
        { apply Z.mod_small. unfold PGSIZE in *. lia. }
        rewrite Hw. split_and!; [lia|lia|lia|lia|unfold PGSIZE in *; lia| | |].
        -- rewrite read_ubytes by lia. by rewrite seqZ_app, fmap_app by lia.
        -- intros k Hk. destruct (decide (k < n)); [apply Hmap; lia|].
           rewrite (umapped_page _ _ (srcva + n)) by lia. unfold umapped.
           by rewrite (proj2 (Z.eqb_neq _ 0)).
        -- by replace (len - (n + c)) with (len - n - c) by lia.
    + apply wp_ret. split; [done|]. left. assert (n = len) as -> by lia. done.
  - split; [done|]. exists 0. cbn [fst snd]. rewrite Z.sub_0_r, Z.add_0_r. split_and!; done || lia.
  - by apply pages_left_fuel.
Qed.

(** ** copyout *)

(** [s'] is [s] with the bytes [bs] at virtual address [va] of [root]. *)
Record user_written s (G : gmap Z usage) (l : list Z) (root va : Z) (bs : list Z) s' : Prop := {
  uw_ok : aspace_ok s' G l root;
  uw_same : same_but_mem s s';
  uw_view : ∀ r va', is_root G r → 0 <= va' → user_pa (mem s') r va' = user_pa (mem s) r va';
  uw_byte : ∀ va', 0 <= va' → umapped (mem s) root va' = true →
    ubyte (mem s') root va' =
    if decide (va <= va' < va + Z.of_nat (length bs)) then default 0 (bs !! Z.to_nat (va' - va))
    else ubyte (mem s) root va';
  uw_other : ∀ q u, G !! q = Some u → (∀ v, u ≠ UData root v) → agree_on q (mem s) (mem s')
}.

Lemma user_written_nil s G l root va : aspace_ok s G l root → user_written s G l root va [] s.
Proof.
  intros Has. split; try done.
  - apply same_but_mem_refl.
  - intros va' _ _. by rewrite decide_False by (simpl; lia).
Qed.

Lemma user_written_app s G l root va bs1 s1 bs2 s2 :
  0 <= va → user_written s G l root va bs1 s1 →
  user_written s1 G l root (va + Z.of_nat (length bs1)) bs2 s2 →
  user_written s G l root va (bs1 ++ bs2) s2.
Proof.
  intros Hva [H1 H2 H3 H4 H5] [K1 K2 K3 K4 K5]. split.
  - done.
  - by eapply same_but_mem_trans.
  - intros r va' Hr Hva'. rewrite K3, H3 by done. done.
  - intros va' Hva' Hm.
    assert (Hm1 : umapped (mem s1) root va' = true).
    { unfold umapped in *. by rewrite H3 by (apply H1 || by apply round_down_pos). }
    rewrite K4, H4 by done. rewrite length_app.
    repeat case_decide; try lia; try done.
    + rewrite lookup_app_r by lia. do 2 f_equal. lia.
    + rewrite lookup_app_l by lia. done.
  - intros q u Hq Hu. eapply agree_on_trans; [by eapply H5|by eapply K5].
Qed.

Lemma write_user s G l root va bs (Q : unit → kst F → Prop) :
  aspace_ok s G l root → 0 <= va → user_pa (mem s) root (PGROUNDDOWN va) ≠ 0 →
  Z.of_nat (length bs) <= PGSIZE - (va - PGROUNDDOWN va) → Forall (λ b, 0 <= b < 256) bs →
  (∀ s', user_written s G l root va bs s' → Q tt s') →
  wp (writeM (user_pa (mem s) root (PGROUNDDOWN va) + (va - PGROUNDDOWN va)) bs) s Q.
Proof.
  intros Has Hva Hnz Hlen Hbs HQ. pose proof Has as [Hwf Hroot Hown].
  pose proof (Hown va Hva Hnz) as Ho. set (PA := user_pa (mem s) root (PGROUNDDOWN va)) in *.
  pose proof (wf_page _ _ _ Hwf _ _ Ho) as Hok. pose proof (page_ok_end _ Hok) as Hend.
  destruct (round_down va) as (Hr & _ & _).
  apply wp_writeM; [destruct Hok; lia|lia|done|]. intros m' Hrd Hoff. apply HQ.
  assert (Hoff' : agree_off PA (mem s) m').
  { eapply same_off_weaken; [exact Hoff|lia|lia]. }
  destruct (vm_wf_data s (set_mem m' s) G l PA _ Hwf eq_refl Ho I Hoff') as (Hwf' & Hpt & Hbut).
  assert (Hview : ∀ r va', is_root G r → 0 <= va' → user_pa m' r va' = user_pa (mem s) r va').
  { intros r va' Hrr Hva'. unfold user_pa. destruct (Z.ltb_spec va' MAXVA); [|done].
    by rewrite (pte_of_agree s G l m') by done. }
  split.
  - split; [done|done|]. intros va' Hva'. simpl. rewrite Hview by (done || by apply round_down_pos).
    by apply Hown.
  - apply same_but_mem_mem.
  - done.
  - intros va' Hva' Hm. simpl. unfold ubyte. rewrite Hview by (done || by apply round_down_pos).
    unfold umapped in Hm. apply negb_true_iff, Z.eqb_neq in Hm.
    pose proof (Hown va' Hva' Hm) as Ho'. destruct (round_down va') as (Hr' & _ & _).
    destruct (decide (PGROUNDDOWN va' = PGROUNDDOWN va)) as [Heq|Hne].
    + rewrite Heq. fold PA. case_decide.
      * assert (Hlk : bs !! Z.to_nat (va' - va) = Some (mget m' (PA + (va' - PGROUNDDOWN va)))).
        { rewrite <- Hrd at 1. rewrite lookup_read_bytes by lia. do 2 f_equal. lia. }
        by rewrite Hlk.
      * apply Hoff. lia.
    + rewrite decide_False.
      * apply (Hbut _ _ Ho'); [|lia]. intros HPA. rewrite HPA in Ho'. congruence.
      * intros Hin. apply Hne. apply round_down_same. lia.
  - intros q u Hq Hu. apply (Hbut _ _ Hq). intros ->. rewrite Ho in Hq. injection Hq as <-. by eapply Hu.
Qed.

(** What [copyout] does: it writes all bytes, or returns -1 after writing those
    before the first page that is not mapped. *)
Definition copyout_post s G l (root dstva : Z) (src : list Z) (r : Z) s' : Prop :=
  ∃ n, (n <= length src)%nat ∧ user_written s G l root dstva (take n src) s' ∧
    (∀ k, 0 <= k < Z.of_nat n → umapped (mem s) root (dstva + k) = true) ∧
    ((r = 0 ∧ n = length src) ∨
     (r = -1 ∧ (n < length src)%nat ∧ umapped (mem s) root (dstva + Z.of_nat n) = false)).

Lemma umapped_same s G l root va bs s' va' :
  user_written s G l root va bs s' → 0 <= va' → umapped (mem s') root va' = umapped (mem s) root va'.
Proof.
  intros Hw Hva. unfold umapped. rewrite (uw_view _ _ _ _ _ _ _ Hw); [done|apply Hw|].
  by apply round_down_pos.
Qed.

Lemma copyout_ok s G l root dstva src :
  aspace_ok s G l root → 0 <= dstva → dstva + Z.of_nat (length src) + PGSIZE <= 2 ^ 64 →
  Forall (λ b, 0 <= b < 256) src →
  wp (copyout root dstva src) s (λ r s', copyout_post s G l root dstva src r s').
Proof.
  intros Has Hdv Hmax Hsrc. unfold copyout.
  eapply (wp_loop _ (λ m st s', ∃ n, (n <= length src)%nat ∧ st.2 = drop n src ∧
    ((n < length src)%nat → st.1 = dstva + Z.of_nat n) ∧ 0 <= st.1 ∧
    user_written s G l root dstva (take n src) s' ∧
    (∀ k, 0 <= k < Z.of_nat n → umapped (mem s) root (dstva + k) = true) ∧
    m = Z.to_nat (pages_left st.1 (Z.of_nat (length src - n)))))
    with (n := Z.to_nat (pages_left dstva (Z.of_nat (length src)))).
  - intros m [dv rest] s' (n & Hn & Hrest & Hdvn & Hpos & Hw & Hmap & Hm).
    cbn [fst snd] in *. subst rest m. unfold copyout_body. rewrite length_drop.
    destruct (Z.ltb_spec 0 (Z.of_nat (length src - n))) as [Hlt|Hge].
    + rewrite Hdvn in * by lia. clear Hdvn. set (va := dstva + Z.of_nat n) in *.
      destruct (round_down va) as (Hr1 & Hr2 & Hr3). pose proof (uw_ok _ _ _ _ _ _ _ Hw) as Has'.
      apply wp_bind. eapply walkaddr_ok; [apply Has'|apply Has'|by apply round_down_pos|].
      destruct (Z.eqb_spec (user_pa (mem s') root (PGROUNDDOWN va)) 0) as [Hz|Hnz].
      * apply wp_ret. exists n. split_and!; [done|done|done|]. right. split_and!; [done|lia|].
        fold va. rewrite <- (umapped_same _ _ _ _ _ _ _ va Hw Hpos). unfold umapped. by rewrite Hz.
      * set (c := Z.min (PGSIZE - (va - PGROUNDDOWN va)) (Z.of_nat (length src - n))).
        destruct (pages_left_step va (Z.of_nat (length src - n)) c) as [Hc Hleft]; [lia|lia|done|].
        assert (Hlc : length (take (Z.to_nat c) (drop n src)) = Z.to_nat c)
          by (rewrite length_take, length_drop; lia).
        apply wp_bind. eapply (write_user s' G l root va); [done|done|done|rewrite Hlc; lia| |].
        { by apply Forall_take, Forall_drop. }
        intros s2 Hw2. apply wp_ret. rewrite drop_drop.
        assert (Htk : take (n + Z.to_nat c) src = take n src ++ take (Z.to_nat c) (drop n src)).
        { by rewrite <- take_take_drop. }
        assert (Hw64 : w64 (PGROUNDDOWN va + PGSIZE) = PGROUNDDOWN va + PGSIZE).
        { apply Z.mod_small. pose proof (round_down_pos va). unfold PGSIZE in *. lia. }
        eexists. split; [|exists (n + Z.to_nat c)%nat; cbn [fst snd]; rewrite Hw64; split_and!;
          [lia|done|lia| | |intros k Hk|reflexivity]].
        -- replace (Z.of_nat (length src - (n + Z.to_nat c))) with (Z.of_nat (length src - n) - c) by lia.
           lia.
        -- pose proof (round_down_pos va Hpos). unfold PGSIZE. lia.
        -- rewrite Htk. eapply user_written_app; [done|exact Hw|].
           rewrite length_take_le by lia. exact Hw2.
        -- destruct (decide (k < Z.of_nat n)); [apply Hmap; lia|].
           rewrite <- (umapped_same _ _ _ _ _ _ _ (dstva + k) Hw) by lia.
           rewrite (umapped_page _ _ va) by lia. unfold umapped.
           by rewrite (proj2 (Z.eqb_neq _ 0)).
    + apply wp_ret. exists n. split_and!; [done..|]. left. split; [done|lia].
  - exists 0%nat. cbn [fst snd]. rewrite Nat.sub_0_r, Z.add_0_r. split_and!; [lia|done|done|done| |lia|done].
    by apply user_written_nil.
  - apply pages_left_fuel; lia.
Qed.

(** ** copyinstr *)

Lemma copy_str_spec bs :
  if (copy_str bs).2
  then ∃ n, bs !! n = Some 0 ∧ (∀ k c, (k < n)%nat → bs !! k = Some c → c ≠ 0) ∧
            (copy_str bs).1 = take (S n) bs
  else (copy_str bs).1 = bs ∧ ∀ k c, bs !! k = Some c → c ≠ 0.
Proof.
  induction bs as [|c bs IH]; simpl; [done|].
  destruct (Z.eqb_spec c 0) as [->|Hc]; simpl.
  { exists 0%nat. split_and!; [done|lia|by rewrite take_0]. }
  destruct (copy_str bs) as [d z]. simpl in *. destruct z.
  - destruct IH as (n & Hn & Hb & ->). exists (S n). split_and!; [done| |done].
    intros [|k] c' Hk; simpl; [by intros [= <-]|]. apply Hb. lia.
  - destruct IH as [-> Hb]. split; [done|]. intros [|k] c'; simpl; [by intros [= <-]|apply Hb].
Qed.

(** What [copyinstr] returns: the string and its null byte, or -1 and the bytes
    before the first unmapped page or the limit. *)
Definition copyinstr_post (m : memory) (root srcva max : Z) (r : Z) (bs : list Z) : Prop :=
  ∃ n, 0 <= n <= max ∧
    (∀ k, 0 <= k < n → umapped m root (srcva + k) = true ∧ ubyte m root (srcva + k) ≠ 0) ∧
    ((r = 0 ∧ n < max ∧ umapped m root (srcva + n) = true ∧ ubyte m root (srcva + n) = 0 ∧
        bs = (ubyte m root <$> seqZ srcva (n + 1))) ∨
     (r = -1 ∧ (n = max ∨ umapped m root (srcva + n) = false) ∧ bs = (ubyte m root <$> seqZ srcva n))).

Lemma copyinstr_step m root srcva max n c :
  0 <= n → 0 < c → n + c <= max →
  (∀ k, 0 <= k < n → umapped m root (srcva + k) = true ∧ ubyte m root (srcva + k) ≠ 0) →
  (∀ k, n <= k < n + c → umapped m root (srcva + k) = true) →
  let bs := ubyte m root <$> seqZ (srcva + n) c in
  if (copy_str bs).2
  then copyinstr_post m root srcva max 0 ((ubyte m root <$> seqZ srcva n) ++ (copy_str bs).1)
  else (copy_str bs).1 = bs ∧
       ∀ k, 0 <= k < n + c → umapped m root (srcva + k) = true ∧ ubyte m root (srcva + k) ≠ 0.
Proof.
  intros Hn Hc Hmax Hbefore Hmap bs. pose proof (copy_str_spec bs) as Hspec.
  assert (Hlk : ∀ j, 0 <= j < c → bs !! Z.to_nat j = Some (ubyte m root (srcva + (n + j)))).
  { intros j Hj. unfold bs. rewrite list_lookup_fmap, lookup_seqZ_lt by lia. simpl. do 2 f_equal. lia. }
  assert (Hlen : length bs = Z.to_nat c) by (unfold bs; by rewrite length_fmap, length_seqZ).
  destruct (copy_str bs).2.
  - destruct Hspec as (j & Hj & Hb & ->).
    assert (Hjc : (j < Z.to_nat c)%nat) by (rewrite <- Hlen; by eapply lookup_lt_Some).
    pose proof (Hlk (Z.of_nat j) ltac:(lia)) as Hj'. rewrite Nat2Z.id, Hj in Hj'. injection Hj' as Hj'.
    exists (n + Z.of_nat j). split; [lia|]. split.
    + intros k Hk. destruct (decide (k < n)); [apply Hbefore; lia|]. split; [apply Hmap; lia|].
      replace k with (n + (k - n)) by lia. eapply (Hb (Z.to_nat (k - n))); [lia|]. apply Hlk. lia.
    + left. split_and!; [done|lia|apply Hmap; lia|done|].
      rewrite <- Z.add_assoc, seqZ_app, fmap_app by lia. f_equal.
      unfold bs. rewrite <- fmap_take. f_equal. replace c with ((Z.of_nat j + 1) + (c - Z.of_nat j - 1)) by lia.
      rewrite seqZ_app by lia. rewrite take_app_length'; [done|]. rewrite length_seqZ. lia.
  - destruct Hspec as [-> Hb]. split; [done|]. intros k Hk.
    destruct (decide (k < n)); [apply Hbefore; lia|]. split; [apply Hmap; lia|].
    replace k with (n + (k - n)) by lia. eapply (Hb (Z.to_nat (k - n))). apply Hlk. lia.
Qed.

(** C30. [copyinstr] reads the user's string: it returns 0 exactly when a null
    byte occurs within [max] mapped bytes, with the string up to and including
    the null byte; otherwise it returns -1 after the bytes before the limit or
    the first unmapped page.  It always ends and changes nothing. *)
Theorem copyinstr_reads s G l root srcva max :
  aspace_ok s G l root → 0 <= srcva → 0 <= max → srcva + max + PGSIZE <= 2 ^ 64 →
  wp (copyinstr root srcva max) s (λ r s', s' = s ∧ copyinstr_post (mem s) root srcva max r.1 r.2).
Proof.
  intros Has Hsv Hlen Hmax. unfold copyinstr.
  eapply (wp_loop _ (λ m st s', s' = s ∧ ∃ n, 0 <= n <= max ∧
    (n < max → st.1.1 = srcva + n) ∧ st.1.2 = max - n ∧ 0 <= st.1.1 ∧
    st.2 = (ubyte (mem s) root <$> seqZ srcva n) ∧
    (∀ k, 0 <= k < n → umapped (mem s) root (srcva + k) = true ∧ ubyte (mem s) root (srcva + k) ≠ 0) ∧
    m = Z.to_nat (pages_left st.1.1 (max - n)))) with (n := Z.to_nat (pages_left srcva max)).
  - intros m [[sv ln] dst] s' (-> & n & Hn & Hsvn & Hln & Hpos & Hdst & Hmap & Hm).
    cbn [fst snd] in *. subst ln dst m. unfold copyinstr_body.
    destruct (Z.ltb_spec 0 (max - n)) as [Hlt|Hge].
    + rewrite Hsvn in * by lia. clear Hsvn. destruct (round_down (srcva + n)) as (Hr1 & Hr2 & Hr3).
      apply wp_bind. eapply walkaddr_ok; [apply Has|apply Has|by apply round_down_pos|].
      destruct (Z.eqb_spec (user_pa (mem s) root (PGROUNDDOWN (srcva + n))) 0) as [Hz|Hnz].
      * apply wp_ret. split; [done|]. exists n. split; [lia|]. split; [done|]. right.
        split; [done|]. split; [|done]. right. unfold umapped. by rewrite Hz.
      * set (c := Z.min (PGSIZE - (srcva + n - PGROUNDDOWN (srcva + n))) (max - n)).
        destruct (pages_left_step (srcva + n) (max - n) c) as [Hc Hleft]; [lia|lia|done|].
        pose proof (user_page_ram _ _ _ _ _ Has Hpos Hnz) as Hok.
        pose proof (page_ok_end _ Hok). destruct Hok as [_ [Hlo _]].
        apply wp_bind, wp_readM; [unfold PGSIZE in *; lia|unfold PGSIZE in *; lia|].
        rewrite read_ubytes by lia.
        pose proof (copyinstr_step (mem s) root srcva max n c) as Hst.  cbv zeta in Hst.
        destruct (copy_str (ubyte (mem s) root <$> seqZ (srcva + n) c)) as [d z]. cbn [fst snd] in Hst.
        assert (Hmapc : ∀ k, n <= k < n + c → umapped (mem s) root (srcva + k) = true).
        { intros k Hk. rewrite (umapped_page _ _ (srcva + n)) by lia. unfold umapped.
          by rewrite (proj2 (Z.eqb_neq _ 0)). }
        specialize (Hst ltac:(lia) ltac:(lia) ltac:(lia) Hmap Hmapc).
        destruct z; apply wp_ret; [split; [done|exact Hst]|]. destruct Hst as [-> Hst].
        exists (Z.to_nat (pages_left (PGROUNDDOWN (srcva + n) + PGSIZE) (max - n - c))).
        split; [lia|]. split; [done|]. exists (n + c). cbn [fst snd].
        assert (Hw : w64 (PGROUNDDOWN (srcva + n) + PGSIZE) = PGROUNDDOWN (srcva + n) + PGSIZE).
        { apply Z.mod_small. unfold PGSIZE in *. lia. }
        rewrite Hw. split_and!; [lia|lia|lia|lia|unfold PGSIZE in *; lia| |done|].
        -- by rewrite seqZ_app, fmap_app by lia.
        -- by replace (max - (n + c)) with (max - n - c) by lia.
    + apply wp_ret. split; [done|]. exists n. split; [lia|]. split; [done|]. right.
      split; [done|]. split; [left; lia|done].
  - split; [done|]. exists 0. cbn [fst snd]. rewrite Z.sub_0_r, Z.add_0_r. split_and!; done || lia.
  - by apply pages_left_fuel.
Qed.

(** C29. What [copyout] writes [copyin] reads back: after a [copyout] that
    returned 0, [copyin] of the same range returns 0 and the same bytes; when
    [copyout] returns -1 some byte of the range is not mapped for the user. *)
Theorem copyout_copyin s G l root va src :
  aspace_ok s G l root → 0 <= va → va + Z.of_nat (length src) + PGSIZE <= 2 ^ 64 →
  Forall (λ b, 0 <= b < 256) src →
  wp (r ← copyout root va src;
      if r =? 0 then copyin root va (Z.of_nat (length src)) else mret (r, [])) s (λ x s',
    (x = (0, src) ∧ ∀ k, 0 <= k < Z.of_nat (length src) → umapped (mem s) root (va + k) = true) ∨
    (x.1 = -1 ∧ ∃ k, 0 <= k < Z.of_nat (length src) ∧ umapped (mem s) root (va + k) = false)).
Proof.
  intros Has Hva Hmax Hsrc. apply wp_bind. eapply wp_mono; [by eapply copyout_ok|].
  intros r s1 (n & Hn & Hw & Hmap & [[-> ->]|(-> & Hlt & Hun)]); simpl.
  - rewrite take_ge in Hw by lia.
    eapply wp_mono; [eapply (copyin_ok s1 G l root va); [apply Hw|lia|lia|lia]|].
    intros [r bs] s2 [-> [(Hr & Hbs & _)|(Hr & k & Hk & _ & _ & Hu)]]; cbn [fst snd] in *; subst r.
    + left. split; [|done]. f_equal. subst bs. apply list_eq. intros k. rewrite list_lookup_fmap.
      destruct (decide (k < length src)%nat) as [Hk|].
      * rewrite lookup_seqZ_lt by lia. simpl.
        rewrite (uw_byte _ _ _ _ _ _ _ Hw) by (lia || apply Hmap; lia).
        rewrite decide_True by lia. replace (Z.to_nat (va + Z.of_nat k - va)) with k by lia.
        destruct (lookup_lt_is_Some_2 src k Hk) as [b ->]. done.
      * rewrite lookup_seqZ_ge by lia. symmetry. apply lookup_ge_None_2. lia.
    + rewrite (umapped_same _ _ _ _ _ _ _ _ Hw) in Hu by lia. rewrite Hmap in Hu by lia. done.
  - apply wp_ret. right. split; [done|]. exists (Z.of_nat n). split; [lia|done].
Qed.

End UserCopy.
