(* ===== verification/ExecSpec.v ===== *)
(** Correctness of kernel/exec.c: [loadseg] puts the bytes of the file at the
    addresses of the segment, and the arguments pushed on the stack are the ones
    the new program finds through [argv]. *)

From S2P Require Import Prelude Riscv Memory Str State Kalloc PageTable Paging PagingInv Fault Uvm UserCopy Proc Exec.

(** The user reads the bytes [bs] at virtual address [va]. *)
Definition reads (m : memory) (root va : Z) (bs : list Z) : Prop :=
  (ubyte m root <$> seqZ va (Z.of_nat (length bs))) = bs.

Lemma reads_app m root va bs1 bs2 :
  reads m root va (bs1 ++ bs2) ↔ reads m root va bs1 ∧ reads m root (va + Z.of_nat (length bs1)) bs2.
Proof.
  unfold reads. rewrite length_app, Nat2Z.inj_add, seqZ_app, fmap_app by lia. split.
  - intros H. apply app_inj_1 in H; [done|]. rewrite length_fmap, length_seqZ. lia.
  - intros [-> ->]. done.
Qed.

Lemma reads_lookup m root va bs :
  reads m root va bs ↔ ∀ k c, bs !! k = Some c → ubyte m root (va + Z.of_nat k) = c.
Proof.
  unfold reads. split.
  - intros H k c Hk. pose proof (lookup_lt_Some _ _ _ Hk). rewrite <- H, list_lookup_fmap, lookup_seqZ_lt in Hk by lia.
    by injection Hk.
  - intros H. apply list_eq. intros k. rewrite list_lookup_fmap. destruct (bs !! k) as [c|] eqn:Hk.
    + pose proof (lookup_lt_Some _ _ _ Hk). rewrite lookup_seqZ_lt by lia. cbn. f_equal. by apply H.
    + apply lookup_ge_None in Hk. by rewrite lookup_seqZ_ge by lia.
Qed.

Lemma reads_same m m' root va bs :
  (∀ k, va <= k < va + Z.of_nat (length bs) → ubyte m' root k = ubyte m root k) →
  reads m root va bs → reads m' root va bs.
Proof.
  rewrite !reads_lookup. intros Hs H k c Hk. pose proof (lookup_lt_Some _ _ _ Hk). rewrite Hs by lia. by apply H.
Qed.

Lemma length_le_bytes n v : length (le_bytes n v) = n.
Proof. revert v. induction n as [|n IH]; intros v; cbn [le_bytes length]; [done|]. by rewrite IH. Qed.

Lemma le_bytes_range n v : Forall (λ b, 0 <= b < 256) (le_bytes n v).
Proof.
  revert v. induction n as [|n IH]; intros v; [constructor|]. cbn [le_bytes]. constructor; [|apply IH].
  unfold w8. apply Z.mod_pos_bound. lia.
Qed.

Definition words (ws : list Z) : list Z := concat (le_bytes 8 <$> ws).

Lemma length_words ws : length (words ws) = (8 * length ws)%nat.
Proof.
  unfold words. induction ws as [|w ws IH]; [done|]. cbn [fmap list_fmap concat length].
  rewrite length_app, length_le_bytes, IH. lia.
Qed.

Lemma words_range ws : Forall (λ b, 0 <= b < 256) (words ws).
Proof.
  unfold words. induction ws as [|w ws IH]; cbn [fmap list_fmap concat]; [constructor|].
  apply Forall_app_2; [apply le_bytes_range|done].
Qed.

Lemma reads_words m root va ws i w :
  reads m root va (words ws) → ws !! i = Some w → reads m root (va + 8 * Z.of_nat i) (le_bytes 8 w).
Proof.
  revert va i. induction ws as [|w' ws IH]; intros va [|i] Hr Hi; try done.
  - injection Hi as ->. rewrite Z.add_0_r. apply reads_app in Hr. apply Hr.
  - change (words (w' :: ws)) with (le_bytes 8 w' ++ words ws) in Hr. apply reads_app in Hr as [_ Hr].
    rewrite length_le_bytes in Hr. replace (va + 8 * Z.of_nat (S i)) with (va + Z.of_nat 8 + 8 * Z.of_nat i) by lia.
    by apply IH.
Qed.

Section Span.
Context {F : Type} {KI : KImage} {KOK : KImageOk KI}.
Implicit Types s : kst F.

(** [s'] is [s] with other bytes at the user's addresses from [lo] to [hi], and
    possibly another state of the files. *)
Record uspan s (G : gmap Z usage) (l : list Z) (root lo hi : Z) s' : Prop := {
  us_ok : aspace_ok s' G l root;
  us_same : same_but_mem (set_fs (fs s') s) s';
  us_map : ∀ va, 0 <= va → user_pa (mem s') root va = user_pa (mem s) root va;
  us_byte : ∀ va, 0 <= va → umapped (mem s) root va = true → ¬ lo <= va < hi →
    ubyte (mem s') root va = ubyte (mem s) root va;
  us_other : ∀ q u, G !! q = Some u → (∀ v, u ≠ UData root v) → agree_on q (mem s) (mem s')
}.

Lemma uspan_refl s G l root lo hi : aspace_ok s G l root → uspan s G l root lo hi s.
Proof. intros H. split; try done. by destruct s. Qed.

Lemma uspan_umapped s G l root lo hi s' va :
  uspan s G l root lo hi s' → 0 <= va → umapped (mem s') root va = umapped (mem s) root va.
Proof. intros H Hva. unfold umapped. rewrite (us_map _ _ _ _ _ _ _ H); [done|]. by apply round_down_pos. Qed.

(** The page tables are not touched. *)
Lemma uspan_pte s G l root lo hi s' va :
  aspace_ok s G l root → uspan s G l root lo hi s' → 0 <= va < MAXVA → pte_of (mem s') root va = pte_of (mem s) root va.
Proof.
  intros Has Hs Hva. apply (pte_of_agree s G l); [apply Has|apply Has|done|].
  intros p r lv pre Hp. by eapply (us_other _ _ _ _ _ _ _ Hs).
Qed.

Lemma uspan_trans s G l root lo hi lo1 hi1 lo2 hi2 s1 s2 :
  uspan s G l root lo1 hi1 s1 → uspan s1 G l root lo2 hi2 s2 → lo <= lo1 → lo <= lo2 → hi1 <= hi → hi2 <= hi →
  uspan s G l root lo hi s2.
Proof.
  intros H1 H2 ????. split.
  - apply H2.
  - destruct H1 as [_ H1 _ _ _], H2 as [_ H2 _ _ _]. unfold same_but_mem in *. rewrite H2, H1. by destruct s.
  - intros va Hva. by rewrite (us_map _ _ _ _ _ _ _ H2), (us_map _ _ _ _ _ _ _ H1).
  - intros va Hva Hm Hn. rewrite (us_byte _ _ _ _ _ _ _ H2), (us_byte _ _ _ _ _ _ _ H1); [done|done|done|lia|done| |lia].
    by rewrite (uspan_umapped _ _ _ _ _ _ _ _ H1).
  - intros q u Hq Hu. eapply agree_on_trans; [by eapply (us_other _ _ _ _ _ _ _ H1)|by eapply (us_other _ _ _ _ _ _ _ H2)].
Qed.

Lemma written_span s G l root va bs s' :
  user_written s G l root va bs s' → uspan s G l root va (va + Z.of_nat (length bs)) s'.
Proof.
  intros [H1 H2 H3 H4 H5]. split.
  - done.
  - destruct (same_but_mem_fields _ _ H2) as (_ & _ & _ & _ & _ & _ & ->). unfold same_but_mem in *. rewrite H2. by destruct s.
  - intros va' Hva. apply H3; [apply H1|done].
  - intros va' Hva Hm Hn. rewrite H4 by done. by rewrite decide_False by lia.
  - done.
Qed.

Lemma written_reads s G l root va bs s' :
  user_written s G l root va bs s' → 0 <= va →
  (∀ k, va <= k < va + Z.of_nat (length bs) → umapped (mem s) root k = true) → reads (mem s') root va bs.
Proof.
  intros Hw Hva Hm. apply reads_lookup. intros k c Hk. pose proof (lookup_lt_Some _ _ _ Hk).
  rewrite (uw_byte _ _ _ _ _ _ _ Hw) by (lia || apply Hm; lia). rewrite decide_True by lia.
  replace (Z.to_nat (va + Z.of_nat k - va)) with k by lia. by rewrite Hk.
Qed.

(** What was read outside the span is still read. *)
Lemma uspan_reads s G l root lo hi s' va bs :
  uspan s G l root lo hi s' → 0 <= va →
  (∀ k, va <= k < va + Z.of_nat (length bs) → umapped (mem s) root k = true) →
  va + Z.of_nat (length bs) <= lo ∨ hi <= va → reads (mem s) root va bs → reads (mem s') root va bs.
Proof.
  intros Hs Hva Hm Hd. apply reads_same. intros k Hk. apply (us_byte _ _ _ _ _ _ _ Hs); [lia|by apply Hm|lia].
Qed.

(** A whole [copyout] into mapped addresses. *)
Lemma copyout_all s G l root va bs :
  aspace_ok s G l root → 0 <= va → va + Z.of_nat (length bs) <= MAXVA → Forall (λ b, 0 <= b < 256) bs →
  (∀ k, va <= k < va + Z.of_nat (length bs) → umapped (mem s) root k = true) →
  wp (copyout root va bs) s (λ r s', r = 0 ∧ uspan s G l root va (va + Z.of_nat (length bs)) s' ∧
    fs s' = fs s ∧ reads (mem s') root va bs).
Proof.
  intros Has Hva Hmax Hb Hm. eapply wp_mono; [apply (copyout_ok s G l); [done|done| |done]|].
  { rewrite MAXVA_eq in Hmax. unfold PGSIZE. lia. }
  intros r s' (n & Hn & Hw & _ & [[-> ->]|(_ & Hlt & Hun)]).
  - rewrite take_ge in Hw by lia. split_and!; [done|by eapply written_span| |by eapply written_reads].
    apply (same_but_mem_fields _ _ (uw_same _ _ _ _ _ _ _ Hw)).
  - rewrite Hm in Hun by lia. done.
Qed.

End Span.

(** ** The stack of a new program *)

Definition down16 (a : Z) : Z := a - a mod 16.

(** Where the next string goes, and the stack pointer after all strings. *)
Definition arg_sp (sp : Z) (arg : list Z) : Z := down16 (sp - (strlen arg + 1)).
Definition args_sp (sp : Z) (argv : list (list Z)) : Z := foldl arg_sp sp argv.
Definition stack_sp (sz : Z) (argv : list (list Z)) : Z :=
  down16 (args_sp sz argv - (Z.of_nat (length argv) + 1) * 8).

(** The arguments fit: at most [MAXARG], and all on one page with their array. *)
Definition args_fit (sz : Z) (argv : list (list Z)) : Prop :=
  Z.of_nat (length argv) <= MAXARG ∧ sz - PGSIZE <= stack_sp sz argv.

(** What [main] finds: [argv[i]] points to the [i]th string with its null byte,
    and the array ends with a null pointer. *)
Definition argv_at (m : memory) (root sp sz : Z) (argv : list (list Z)) : Prop :=
  (∀ i arg, argv !! i = Some arg → ∃ p, sp <= p ∧ p + strlen arg < sz ∧
     reads m root (sp + 8 * Z.of_nat i) (le_bytes 8 p) ∧ reads m root p (cstr arg ++ [0])) ∧
  reads m root (sp + 8 * Z.of_nat (length argv)) (le_bytes 8 0).

Lemma strlen_cstr a : strlen a = Z.of_nat (length (cstr a)).
Proof. unfold strlen. rewrite strlen_loop_ok. lia. Qed.

Lemma down16_spec a : a - 16 < down16 a <= a ∧ down16 a mod 16 = 0.
Proof. unfold down16. Z.to_euclidean_division_equations. lia. Qed.

Lemma arg_sp_le sp arg : arg_sp sp arg <= sp - (strlen arg + 1).
Proof. unfold arg_sp. apply down16_spec. Qed.

Lemma args_sp_le sp argv : args_sp sp argv <= sp.
Proof.
  revert sp. induction argv as [|a argv IH]; intros sp; cbn [args_sp foldl]; [lia|].
  pose proof (IH (arg_sp sp a)). pose proof (arg_sp_le sp a). pose proof (strlen_cstr a). unfold args_sp in *. lia.
Qed.

Lemma cstr_range a : Forall (λ b, 0 <= b < 256) a → Forall (λ b, 0 <= b < 256) (cstr a ++ [0]).
Proof.
  induction 1 as [|c a Hc _ IH]; cbn [cstr app]; [by repeat constructor|].
  destruct (truth c); [by constructor|]. by repeat constructor.
Qed.

Section Stack.
Context {F : Type} {KI : KImage} {KOK : KImageOk KI}.
Implicit Types s : kst F.

(** An argument as [sys_exec] fetches it. *)
Definition arg_ok (a : list Z) : Prop := Forall (λ b, 0 <= b < 256) a ∧ strlen a < PGSIZE.

(** The strings pushed below [sp], their addresses in [us]. *)
Definition pushed s G l root (sp : Z) (argv : list (list Z)) (us : list Z) s' : Prop :=
  uspan s G l root (args_sp sp argv) sp s' ∧ fs s' = fs s ∧ length us = length argv ∧
  ∀ i p a, us !! i = Some p → argv !! i = Some a →
    args_sp sp argv <= p ∧ p + strlen a < sp ∧ reads (mem s') root p (cstr a ++ [0]).

Lemma pushed_cons s G l root sp a argv us s1 s2 :
  0 <= args_sp (arg_sp sp a) argv →
  (∀ k, args_sp sp (a :: argv) <= k < sp → umapped (mem s) root k = true) →
  uspan s G l root (arg_sp sp a) (arg_sp sp a + (strlen a + 1)) s1 → fs s1 = fs s →
  reads (mem s1) root (arg_sp sp a) (cstr a ++ [0]) →
  pushed s1 G l root (arg_sp sp a) argv us s2 → pushed s G l root sp (a :: argv) (arg_sp sp a :: us) s2.
Proof.
  intros Hpos Hm Hs1 Hf Hr (Hs2 & Hf2 & Hl & Hus). pose proof (arg_sp_le sp a) as Hle. pose proof (args_sp_le (arg_sp sp a) argv) as Hle2.
  pose proof (strlen_cstr a) as Hlen.
  assert (Hc : args_sp sp (a :: argv) = args_sp (arg_sp sp a) argv) by done.
  split_and!.
  - eapply uspan_trans; [exact Hs1|exact Hs2|lia..].
  - congruence.
  - cbn [length]. lia.
  - intros [|i] p b Hp Hb; cbn in Hp, Hb.
    + injection Hp as <-. injection Hb as <-. split_and!; [lia|lia|]. eapply uspan_reads; [exact Hs2|lia| |right; lia|done].
      intros k Hk. rewrite length_app in Hk. cbn [length] in Hk.
      rewrite (uspan_umapped _ _ _ _ _ _ _ _ Hs1) by lia. apply Hm. lia.
    + destruct (Hus i p b Hp Hb) as (? & ? & ?). split_and!; [lia|lia|done].
Qed.

Lemma push_args_ok s G l root base sp argv n :
  aspace_ok s G l root → PGSIZE <= base → base <= sp <= MAXVA → Forall arg_ok argv →
  (∀ k, base <= k < sp → umapped (mem s) root k = true) → 0 <= n <= MAXARG →
  wp (push_args root base argv n sp) s (λ o s',
    (n + Z.of_nat (length argv) <= MAXARG ∧ base <= args_sp sp argv ∧
       ∃ us, o = Some (us, args_sp sp argv) ∧ pushed s G l root sp argv us s') ∨
    (¬ (n + Z.of_nat (length argv) <= MAXARG ∧ base <= args_sp sp argv) ∧ o = None)).
Proof.
  revert s sp n. induction argv as [|a argv IH]; intros s sp n Has Hbase Hsp Hargs Hm Hn; cbn [push_args].
  { apply wp_ret. left. cbn [length args_sp foldl]. split_and!; [lia|lia|]. exists []. split; [done|].
    split_and!; [by apply uspan_refl|done|done|done]. }
  apply list.Forall_cons in Hargs as [[Ha Hal] Hargs]. pose proof (arg_sp_le sp a) as Hle.
  pose proof (args_sp_le (arg_sp sp a) argv) as Hle2. pose proof (strlen_cstr a) as Hlen.
  assert (Hc : args_sp sp (a :: argv) = args_sp (arg_sp sp a) argv) by done. cbn [length]. rewrite Hc.
  destruct (Z.leb_spec MAXARG n); [apply wp_ret; right; split; [lia|done]|].
  assert (Hw : w64 (sp - (strlen a + 1)) = sp - (strlen a + 1)).
  { apply Z.mod_small. rewrite MAXVA_eq in Hsp. unfold PGSIZE in *. lia. }
  rewrite Hw. fold (down16 (sp - (strlen a + 1))). fold (arg_sp sp a).
  destruct (Z.ltb_spec (arg_sp sp a) base); [apply wp_ret; right; split; [lia|done]|].
  assert (Hl1 : Z.of_nat (length (cstr a ++ [0])) = strlen a + 1) by (rewrite length_app; cbn [length]; lia).
  apply wp_bind. eapply wp_mono; [apply (copyout_all s G l)|].
  { done. } { unfold PGSIZE in *. lia. } { lia. } { by apply cstr_range. } { intros k Hk. apply Hm. lia. }
  rewrite Hl1. intros r s1 (-> & Hs1 & Hf1 & Hr1). cbn [Z.ltb Z.compare].
  apply wp_bind. eapply wp_mono; [apply (IH s1 (arg_sp sp a) (n + 1))|].
  { apply Hs1. } { done. } { lia. } { done. }
  { intros k Hk. rewrite (uspan_umapped _ _ _ _ _ _ _ _ Hs1) by (unfold PGSIZE in *; lia). apply Hm. lia. }
  { lia. }
  intros o s2 [(Hn1 & Hb & us & -> & Hp)|[Hno ->]]; apply wp_ret; [left|right; split; [lia|done]].
  split_and!; [lia|done|]. exists (arg_sp sp a :: us). split; [done|].
  eapply pushed_cons; [unfold PGSIZE in *; lia|intros k Hk; apply Hm; lia|done..].
Qed.

(** The strings and the array: exactly when everything fits. *)
Lemma push_stack_ok s G l root sz argv :
  aspace_ok s G l root → 2 * PGSIZE <= sz <= MAXVA → Forall arg_ok argv →
  (∀ k, sz - PGSIZE <= k < sz → umapped (mem s) root k = true) →
  wp (push_stack root sz argv) s (λ o s',
    (args_fit sz argv ∧ o = Some (Z.of_nat (length argv), stack_sp sz argv) ∧ fs s' = fs s ∧
       uspan s G l root (stack_sp sz argv) sz s' ∧ argv_at (mem s') root (stack_sp sz argv) sz argv) ∨
    (¬ args_fit sz argv ∧ o = None)).
Proof.
  intros Has Hsz Hargs Hm. unfold push_stack. assert (Hw : w64 (sz - PGSIZE) = sz - PGSIZE).
  { apply Z.mod_small. rewrite MAXVA_eq in Hsz. unfold PGSIZE in *. lia. }
  rewrite Hw. apply wp_bind. eapply wp_mono; [apply (push_args_ok s G l root (sz - PGSIZE) sz argv 0)|].
  { done. } { lia. } { unfold PGSIZE in *. lia. } { done. } { done. } { done. }
  pose proof (down16_spec (args_sp sz argv - (Z.of_nat (length argv) + 1) * 8)) as [Hd _].
  fold (stack_sp sz argv) in Hd. pose proof (args_sp_le sz argv) as Hle.
  intros o s1 [(Hn & Hb & us & -> & Hs1 & Hf1 & Hl & Hus)|[Hno ->]].
  2: { apply wp_ret. right. split; [|done]. intros [H1 H2]. apply Hno. split; [lia|]. lia. }
  rewrite Hl. assert (Hw2 : w64 (args_sp sz argv - (Z.of_nat (length argv) + 1) * 8) =
    args_sp sz argv - (Z.of_nat (length argv) + 1) * 8).
  { apply Z.mod_small. rewrite MAXVA_eq in Hsz. unfold PGSIZE, MAXARG in *. lia. }
  rewrite Hw2. fold (down16 (args_sp sz argv - (Z.of_nat (length argv) + 1) * 8)). fold (stack_sp sz argv).
  destruct (Z.ltb_spec (stack_sp sz argv) (sz - PGSIZE)) as [Hlt|Hge].
  { apply wp_ret. right. split; [|done]. intros [_ H]. lia. }
  fold (words (us ++ [0])).
  assert (Hlw : Z.of_nat (length (words (us ++ [0]))) = (Z.of_nat (length argv) + 1) * 8).
  { rewrite length_words, length_app, Hl. cbn [length]. lia. }
  apply wp_bind. eapply wp_mono; [apply (copyout_all s1 G l)|].
  { apply Hs1. } { unfold PGSIZE in *. lia. } { lia. } { apply words_range. }
  { intros k Hk. rewrite (uspan_umapped _ _ _ _ _ _ _ _ Hs1) by (unfold PGSIZE in *; lia). apply Hm. lia. }
  intros r s2 (-> & Hs2 & Hf2 & Hr2). apply wp_ret. left. split_and!; [by split|done|congruence| |].
  - eapply uspan_trans; [exact Hs1|exact Hs2|lia..].
  - split.
    + intros i a Hi. destruct (lookup_lt_is_Some_2 us i) as [p Hp].
      { rewrite Hl. by eapply lookup_lt_Some. }
      destruct (Hus i p a Hp Hi) as (? & ? & Hr). exists p. split_and!; [lia|lia| |].
      * eapply reads_words; [exact Hr2|]. by apply lookup_app_l_Some.
      * eapply uspan_reads; [exact Hs2|unfold PGSIZE in *; lia| |right; lia|done].
        intros k Hk. rewrite length_app in Hk. cbn [length] in Hk. pose proof (strlen_cstr a).
        rewrite (uspan_umapped _ _ _ _ _ _ _ _ Hs1) by (unfold PGSIZE in *; lia). apply Hm. lia.
    + eapply reads_words; [exact Hr2|]. rewrite <- Hl. by rewrite lookup_app_r, Nat.sub_diag by lia.
Qed.

End Stack.

(** ** Loading a segment *)

(** What exec relies on: [readi] on an inode locked within an operation returns the
    bytes of the file from [off] on, as many as there are up to [n], and the
    operation can be ended. *)
Class ExecFilesOk (F : Type) {PF : ProcFiles F} {EF : ExecFiles F} := {
  ef_content : F → nat → option (list Z);
  ef_bytes : ∀ f ip c, ef_content f ip = Some c → Forall (λ b, 0 <= b < 256) c;
  ef_readi_ok : ∀ f ip c off n, ef_content f ip = Some c → 0 <= off → 0 <= n → off + n < 2 ^ 32 →
    wp (ef_readi ip off n) f (λ r f', ef_content f' ip = Some c ∧
      r = (Z.of_nat (length (take (Z.to_nat n) (drop (Z.to_nat off) c))), take (Z.to_nat n) (drop (Z.to_nat off) c)));
  ef_release_ok : ∀ f ip c, ef_content f ip = Some c → wp (ef_iunlockput ip;; pf_end_op) f (λ _ _, True)
}.

(** Of an aligned mapped address [walkaddr] gives a page. *)
Lemma round_down_mapped m root va :
  umapped m root va = true → va mod PGSIZE = 0 → (user_pa m root va =? 0) = false.
Proof.
  unfold umapped. intros H Ha. assert (Hr : PGROUNDDOWN va = va).
  { rewrite PGROUNDDOWN_eq. unfold PGSIZE in *. Z.div_mod_to_equations. lia. }
  rewrite Hr in H. by apply negb_true_iff.
Qed.

Section Load.
Context {F : Type} {KI : KImage} {KOK : KImageOk KI} {PF : ProcFiles F} {EF : ExecFiles F} {EFO : ExecFilesOk F}.
Implicit Types s : kst F.

Lemma aspace_set_fs s G l root f : aspace_ok s G l root → aspace_ok (set_fs f s) G l root.
Proof. intros [H1 H2 H3]. split; [by eapply vm_wf_ext; [| |exact H1]|done|done]. Qed.

(** The bytes of the segment in the file. *)
Definition segment (c : list Z) (offset sz : Z) : list Z := take (Z.to_nat sz) (drop (Z.to_nat offset) c).

Lemma segment_app c offset i n :
  0 <= offset → 0 <= i → 0 <= n → segment c offset (i + n) = segment c offset i ++ segment c (offset + i) n.
Proof.
  intros ???. unfold segment. rewrite Z2Nat.inj_add, <- take_take_drop, drop_drop, Z2Nat.inj_add by lia. done.
Qed.

Lemma segment_length c offset sz : Z.of_nat (length (segment c offset sz)) <= Z.max 0 sz.
Proof. unfold segment. rewrite length_take. lia. Qed.

Lemma segment_range c offset sz : Forall (λ b, 0 <= b < 256) c → Forall (λ b, 0 <= b < 256) (segment c offset sz).
Proof. intros H. by apply Forall_take, Forall_drop. Qed.

(** The first [i] bytes of the segment are in place. *)
Definition loaded s G l root va ip c offset (i : Z) s' : Prop :=
  uspan s G l root va (va + i) s' ∧ ef_content (fs s') ip = Some c ∧
  Z.of_nat (length (segment c offset i)) = i ∧ reads (mem s') root va (segment c offset i).

Lemma load_page s G l root va ip c offset sz i s1 {B} (k : Z * list Z → M (kst F) B) (Q : B → kst F → Prop) n :
  loaded s G l root va ip c offset i s1 → 0 <= va → va mod PGSIZE = 0 → i mod PGSIZE = 0 → 0 <= i < sz → 0 <= offset →
  offset + sz < 2 ^ 32 → va + sz <= MAXVA →
  (∀ a, va <= a < va + sz → umapped (mem s) root a = true) → n = Z.min PGSIZE (sz - i) →
  (∀ bs s2, bs = segment c (offset + i) n →
     (Z.of_nat (length bs) = n → loaded s G l root va ip c offset (i + n) s2) → wp (k (Z.of_nat (length bs), bs)) s2 Q) →
  wp (r ← liftF (ef_readi ip (offset + i) n); writeM (user_pa (mem s1) root (va + i)) (snd r);; k r) s1 Q.
Proof.
  intros (Hs1 & Hc & Hlen & Hr) Hva Hal Hial Hi Hoff H32 Hmax Hm Hn HQ. subst n. set (n := Z.min PGSIZE (sz - i)) in *.
  assert (Hnp : 0 < n <= PGSIZE) by (unfold PGSIZE in *; lia).
  apply wp_bind, wp_liftF. eapply wp_mono; [apply (ef_readi_ok _ ip c); [done|lia|lia|lia]|].
  intros r f (Hcf & ->). fold (segment c (offset + i) n). cbn [snd]. pose proof (segment_length c (offset + i) n) as Hsl.
  assert (Hrd : PGROUNDDOWN (va + i) = va + i).
  { rewrite PGROUNDDOWN_eq. unfold PGSIZE in *. Z.div_mod_to_equations. lia. }
  assert (Hmi : umapped (mem s1) root (va + i) = true).
  { rewrite (uspan_umapped _ _ _ _ _ _ _ _ Hs1) by lia. apply Hm. lia. }
  replace (user_pa (mem s1) root (va + i)) with
    (user_pa (mem (set_fs f s1)) root (PGROUNDDOWN (va + i)) + (va + i - PGROUNDDOWN (va + i)))
    by (rewrite Hrd, Z.sub_diag, Z.add_0_r; done).
  apply wp_bind. eapply write_user.
  { apply aspace_set_fs, Hs1. } { lia. }
  { unfold umapped in Hmi. by apply negb_true_iff, Z.eqb_neq in Hmi. }
  { rewrite Hrd. lia. }
  { eapply segment_range, ef_bytes, Hc. }
  intros s2 Hw. apply HQ; [done|]. intros Hfull.
  assert (Hs2 : uspan s1 G l root (va + i) (va + i + n) s2).
  { apply written_span in Hw. rewrite Hfull in Hw. destruct Hw as [W1 W2 W3 W4 W5]. by split. }
  assert (Hmk : ∀ a, va <= a < va + sz → umapped (mem s1) root a = true).
  { intros a Ha. rewrite (uspan_umapped _ _ _ _ _ _ _ _ Hs1) by lia. by apply Hm. }
  split_and!.
  - eapply uspan_trans; [exact Hs1|exact Hs2|lia..].
  - destruct (same_but_mem_fields _ _ (uw_same _ _ _ _ _ _ _ Hw)) as (_ & _ & _ & _ & _ & _ & ->). exact Hcf.
  - rewrite segment_app, length_app by lia. lia.
  - rewrite segment_app by lia. apply reads_app. rewrite Hlen. split.
    + eapply uspan_reads; [exact Hs2|lia| |left; lia|done]. intros a Ha. apply Hmk. lia.
    + eapply written_reads; [exact Hw|lia|]. intros a Ha. apply Hmk. lia.
Qed.

(** The segment is loaded when the file has all of it, and refused otherwise. *)
Lemma loadseg_ok s G l root va ip c offset sz :
  aspace_ok s G l root → ef_content (fs s) ip = Some c → 0 <= va → va mod PGSIZE = 0 → 0 <= offset → 0 <= sz →
  offset + sz + PGSIZE < 2 ^ 32 → va + sz <= MAXVA →
  (∀ a, va <= a < va + sz → umapped (mem s) root a = true) →
  wp (loadseg root va ip offset sz) s (λ r s',
    (r = 0 ∧ loaded s G l root va ip c offset sz s') ∨ (r = -1 ∧ Z.of_nat (length (segment c offset sz)) < sz)).
Proof.
  intros Has Hc Hva Hal Hoff Hsz H32 Hmax Hm. unfold loadseg. rewrite Hal. cbn [Z.eqb negb].
  eapply (wp_loop _ (λ m i s', 0 <= i ∧ i mod PGSIZE = 0 ∧ i < sz + PGSIZE ∧ m = Z.to_nat ((sz + PGSIZE - i) / PGSIZE) ∧
    loaded s G l root va ip c offset (Z.min i sz) s')) with (n := Z.to_nat ((sz + PGSIZE - 0) / PGSIZE)).
  - intros m i s1 (Hi0 & Hial & Hib & -> & Hld). unfold loadseg_body. destruct (Z.ltb_spec i sz) as [Hlt|Hge].
    2: { apply wp_ret. left. split; [done|]. by rewrite Z.min_r in Hld by lia. }
    rewrite Z.min_l in Hld by lia. pose proof Hld as (Hs1 & _).
    assert (Hmi : umapped (mem s1) root (va + i) = true).
    { rewrite (uspan_umapped _ _ _ _ _ _ _ _ Hs1) by lia. apply Hm. lia. }
    assert (H64 : w64 (va + i) = va + i) by (apply Z.mod_small; rewrite MAXVA_eq in Hmax; lia).
    assert (H32i : w32 (offset + i) = offset + i ∧ w32 (sz - i) = sz - i ∧ w32 (i + PGSIZE) = i + PGSIZE).
    { unfold w32, PGSIZE in *. rewrite !Z.mod_small by lia. done. }
    destruct H32i as (-> & -> & ->). rewrite H64.
    apply wp_bind. eapply walkaddr_ok; [apply Hs1|apply Hs1|lia|].
    rewrite (round_down_mapped _ _ _ Hmi) by (unfold PGSIZE in *; Z.div_mod_to_equations; lia).
    replace (if sz - i <? PGSIZE then sz - i else PGSIZE) with (Z.min PGSIZE (sz - i))
      by (destruct (Z.ltb_spec (sz - i) PGSIZE); lia).
    eapply (load_page s G l root va ip c offset sz i s1); [exact Hld|done|done|done|lia|done|unfold PGSIZE in *; lia|done|done|reflexivity|].
    intros bs s2 Hbs Hdone. cbn [fst].
    destruct (Z.eqb_spec (Z.of_nat (length bs)) (Z.min PGSIZE (sz - i))) as [He|Hne]; apply wp_ret.
    + eexists. split; [|split_and!; [| | |reflexivity|]].
      * unfold PGSIZE in *. Z.div_mod_to_equations. lia.
      * unfold PGSIZE in *. lia.
      * unfold PGSIZE in *. Z.div_mod_to_equations. lia.
      * unfold PGSIZE in *. lia.
      * replace (Z.min (i + PGSIZE) sz) with (i + Z.min PGSIZE (sz - i)) by lia. by apply Hdone.
    + right. split; [done|]. pose proof (segment_length c (offset + i) (Z.min PGSIZE (sz - i))) as Hsl.
      replace sz with (i + (Z.min PGSIZE (sz - i) + (sz - i - Z.min PGSIZE (sz - i)))) at 1 by lia.
      rewrite segment_app, segment_app, !length_app by (unfold PGSIZE in *; lia). destruct Hld as (_ & _ & Hl & _).
      pose proof (segment_length c (offset + i + Z.min PGSIZE (sz - i)) (sz - i - Z.min PGSIZE (sz - i))).
      rewrite <- Hbs in *. unfold PGSIZE in *. lia.
  - split_and!; [lia|done|unfold PGSIZE; lia|done|]. rewrite Z.min_l by lia.
    split_and!; [by apply uspan_refl|done|done|done].
  - unfold PGSIZE. rewrite Z.sub_0_r. replace (sz + 4096) with (sz + 1 * 4096) by lia. rewrite Z.div_add by lia.
    assert (0 <= sz / 4096) by (apply Z.div_pos; lia). lia.
Qed.

End Load.
