(* ===== verification/ExecImage.v ===== *)
(** The image [exec] builds (kernel/exec.c, [uvmalloc] and [uvmclear] of
    kernel/vm.c): the pages of a page table that is not in use yet are fresh and
    zero, hold the segments of the file, and end with a guard page and the stack
    with the arguments. *)

From S2P Require Import Prelude Riscv Memory Str State Kalloc PageTable Paging PagingInv Fault Uvm UserCopy Proc Exec ExecSpec.

Section Alloc.
Context {F : Type} {KI : KImage} {KOK : KImageOk KI} {SW : SwapStore F}.
Implicit Types s : kst F.

(** One page mapped at an aligned address. *)
Lemma mappages_one sel s G l root a pa perm {B} (k : Z → M (kst F) B) (Q : B → kst F → Prop) :
  sel ≠ NONE → vm_wf s G l → is_root G root → 0 <= a → a mod PGSIZE = 0 → a + PGSIZE <= MAXVA → 0 <= pa < 2 ^ 56 →
  0 <= perm < 1024 → Z.testbit (pte_of (mem s) root a) 0 = false → (2 <= length l)%nat →
  (∀ s' G' l', pt_upd root (map_entries (a / PGSIZE) 1 pa perm) s G l s' G' l' →
     (length l <= length l' + 2)%nat → wp (k 0) s' Q) →
  wp (r ← mappages sel root a PGSIZE pa perm; k r) s Q.
Proof.
  intros Hsel Hwf Hr Ha Hal Hmax Hpa Hperm HV Hl HQ. apply wp_bind.
  replace (mappages sel root a PGSIZE pa perm) with (mappages_not_NONE root a PGSIZE pa perm : M (kst F) Z) by (by destruct sel).
  unfold mappages_not_NONE. assert (Hlast : PGROUNDDOWN (w64 (a + PGSIZE - 1)) = a).
  { rewrite PGROUNDDOWN_eq, MAXVA_eq in *. unfold w64, PGSIZE in *. rewrite Z.mod_small by lia. Z.div_mod_to_equations. lia. }
  rewrite Hlast, PGROUNDDOWN_aligned by done. cbn [loop map_fuel]. apply wp_bind. unfold mappages_not_NONE_body.
  apply (map_one s G l root a pa perm
    (λ _, if a =? a then mret (inr 0) else mret (inl (w64 (a + PGSIZE), w64 (pa + PGSIZE)))) (mret (inr (-1)))); try done.
  - unfold PGSIZE in *. lia.
  - intros. lia.
  - intros s' G' l' Hu Hll _. rewrite Z.eqb_refl. do 2 apply wp_ret. by eapply HQ.
Qed.

(** The address space [root] has grown by zero pages from [lo] to [hi]. *)
Record zgrown s (G : gmap Z usage) (l : list Z) (root lo hi : Z) s' (G' : gmap Z usage) (l' : list Z) : Prop := {
  zg_ok : aspace_ok s' G' l' root;
  zg_same : same_but_mem s s';
  zg_zero : ∀ va, lo <= va < hi → umapped (mem s') root va = true ∧ ubyte (mem s') root va = 0;
  zg_pte : ∀ va, 0 <= va < MAXVA → ¬ lo <= va < hi → pte_of (mem s') root va = pte_of (mem s) root va;
  zg_byte : ∀ va, 0 <= va → ¬ lo <= va < hi → umapped (mem s) root va = true →
    ubyte (mem s') root va = ubyte (mem s) root va;
  zg_data : ∀ q u, G !! q = Some u → is_data u → G' !! q = Some u ∧ ((∀ v, u ≠ UData root v) → agree_on q (mem s) (mem s'));
  zg_free : Z.of_nat (length l) <= Z.of_nat (length l') + 3 * ((hi - lo) / PGSIZE)
}.

Lemma zgrown_refl s G l root a : aspace_ok s G l root → zgrown s G l root a a s G l.
Proof. intros H. split; try done; [apply same_but_mem_refl|lia|]. rewrite Z.sub_diag, Z.div_0_l by done. lia. Qed.

Lemma zgrown_upa s G l root lo hi s' G' l' va :
  zgrown s G l root lo hi s' G' l' → lo mod PGSIZE = 0 → hi mod PGSIZE = 0 → 0 <= va → ¬ lo <= va < hi →
  user_pa (mem s') root (PGROUNDDOWN va) = user_pa (mem s) root (PGROUNDDOWN va).
Proof.
  intros Hz Hlo Hhi Hva Hn. destruct (round_down va) as (H1 & H2 & _). pose proof (round_down_pos va Hva).
  unfold user_pa. destruct (Z.ltb_spec (PGROUNDDOWN va) MAXVA) as [Hlt|]; [|done].
  rewrite (zg_pte _ _ _ _ _ _ _ _ _ Hz); [done|lia|]. unfold PGSIZE in *. Z.div_mod_to_equations. lia.
Qed.

Lemma zgrown_umapped s G l root lo hi s' G' l' va :
  zgrown s G l root lo hi s' G' l' → lo mod PGSIZE = 0 → hi mod PGSIZE = 0 → 0 <= va → ¬ lo <= va < hi →
  umapped (mem s') root va = umapped (mem s) root va.
Proof. intros. unfold umapped. by erewrite zgrown_upa. Qed.

Lemma zgrown_trans s G l root lo mid hi s1 G1 l1 s2 G2 l2 :
  zgrown s G l root lo mid s1 G1 l1 → zgrown s1 G1 l1 root mid hi s2 G2 l2 → 0 <= lo <= mid → mid <= hi →
  lo mod PGSIZE = 0 → mid mod PGSIZE = 0 → hi mod PGSIZE = 0 → zgrown s G l root lo hi s2 G2 l2.
Proof.
  intros H1 H2 Hlm Hmh Hlo Hmid Hhi. split.
  - apply H2.
  - eapply same_but_mem_trans; [apply H1|apply H2].
  - intros va Hva. destruct (decide (va < mid)); [|apply H2; lia].
    destruct (zg_zero _ _ _ _ _ _ _ _ _ H1 va) as [Hu Hb]; [lia|].
    rewrite (zgrown_umapped _ _ _ _ _ _ _ _ _ va H2), (zg_byte _ _ _ _ _ _ _ _ _ H2) by (done || lia). done.
  - intros va Hva Hn. rewrite (zg_pte _ _ _ _ _ _ _ _ _ H2), (zg_pte _ _ _ _ _ _ _ _ _ H1) by (done || lia). done.
  - intros va Hva Hn Hm. rewrite (zg_byte _ _ _ _ _ _ _ _ _ H2), (zg_byte _ _ _ _ _ _ _ _ _ H1); try (done || lia).
    by rewrite (zgrown_umapped _ _ _ _ _ _ _ _ _ va H1) by (done || lia).
  - intros q u Hq Hu. destruct (zg_data _ _ _ _ _ _ _ _ _ H1 q u Hq Hu) as [Hq1 Ha1].
    destruct (zg_data _ _ _ _ _ _ _ _ _ H2 q u Hq1 Hu) as [Hq2 Ha2]. split; [done|].
    intros Hn. eapply agree_on_trans; [by apply Ha1|by apply Ha2].
  - pose proof (zg_free _ _ _ _ _ _ _ _ _ H1). pose proof (zg_free _ _ _ _ _ _ _ _ _ H2).
    unfold PGSIZE in *. Z.div_mod_to_equations. lia.
Qed.

(** A fresh page [pg], zero in [s2], is mapped at [a]. *)
Section Page.
Variables (s : kst F) (G : gmap Z usage) (l : list Z) (root a pg : Z) (l1 : list Z).
Variables (s2 s3 : kst F) (G3 : gmap Z usage) (l3 : list Z).
Hypothesis (Has : aspace_ok s G l root) (Ha : 0 <= a) (Hal : a mod PGSIZE = 0) (Hmax : a + PGSIZE <= MAXVA).
Hypothesis (Hl : l = pg :: l1) (Hfree : G !! pg = Some UFree) (Hok : page_ok pg).
Hypothesis (Hsame : same_but_mem s s2) (Hbut : agree_but pg G (mem s) (mem s2)) (Hpt : pt_agree G (mem s) (mem s2)).
Hypothesis (Hzero : ∀ b, pg <= b < pg + PGSIZE → mget (mem s2) b = 0).
Hypothesis (Hu : pt_upd root (map_entries (a / PGSIZE) 1 pg 30) s2 (<[pg := UOther]> G) l1 s3 G3 l3).
Hypothesis (Hlen : (length l1 <= length l3 + 2)%nat).

Lemma page_other q u : G !! q = Some u → u ≠ UFree → <[pg := UOther]> G !! q = Some u ∧ q ≠ pg.
Proof. intros Hq Hne. assert (q ≠ pg) by (intros ->; congruence). split; [|done]. by rewrite lookup_insert_ne. Qed.

Lemma page_root : is_root G root ∧ is_root (<[pg := UOther]> G) root.
Proof. split; [apply Has|]. by apply page_other; [apply Has|]. Qed.

Lemma page_pte va : 0 <= va < MAXVA →
  pte_of (mem s3) root va = if decide (va / PGSIZE = a / PGSIZE) then mk_pte pg 30 else pte_of (mem s) root va.
Proof.
  intros Hva. rewrite (upd_view _ _ _ _ _ _ _ _ Hu) by (done || apply page_root). rewrite decide_True by done.
  rewrite (pte_of_agree s G l (mem s2)) by (done || apply Has). unfold map_entries.
  repeat case_decide; try lia; [|done]. cbn. f_equal. lia.
Qed.

Lemma page_upa va : 0 <= va →
  user_pa (mem s3) root (PGROUNDDOWN va) = if decide (PGROUNDDOWN va = a) then pg else user_pa (mem s) root (PGROUNDDOWN va).
Proof.
  intros Hva. destruct (round_down va) as (H1 & H2 & H3). pose proof (round_down_pos va Hva). unfold user_pa.
  destruct (Z.ltb_spec (PGROUNDDOWN va) MAXVA) as [Hlt|]; [|rewrite decide_False by (unfold PGSIZE in *; lia); done].
  rewrite page_pte by lia. pose proof (page_ok_pos _ Hok). destruct Hok as [Hpal _].
  destruct (decide (PGROUNDDOWN va = a)) as [->|Hne].
  - rewrite decide_True by done. rewrite mk_pte_V, mk_pte_PA by (done || lia).
    assert (Z.testbit (mk_pte pg 30) 4 = true) as ->; [|done].
    rewrite mk_pte_eq, testbit_make by (done || lia || by apply perm_V_range). done.
  - rewrite decide_False; [done|]. intros He. apply Hne. unfold PGSIZE in *. Z.div_mod_to_equations. lia.
Qed.

Lemma page_own va : 0 <= va → user_pa (mem s3) root (PGROUNDDOWN va) ≠ 0 →
  <[pg := UData root a]> G3 !! user_pa (mem s3) root (PGROUNDDOWN va) = Some (UData root (PGROUNDDOWN va)).
Proof.
  intros Hva. rewrite page_upa by done. case_decide as Hd; [intros _; by rewrite lookup_insert_eq, Hd|].
  intros Hne. apply (as_own _ _ _ _ Has) in Hne; [|done]. destruct (page_other _ _ Hne) as [H1 H2]; [done|].
  rewrite lookup_insert_ne by done. by apply (upd_old _ _ _ _ _ _ _ _ Hu).
Qed.

Lemma page_kept q u : G !! q = Some u → is_data u → G3 !! q = Some u ∧ q ≠ pg ∧ agree_on q (mem s) (mem s3).
Proof.
  intros Hq Hd. destruct (page_other q u Hq) as [H1 H2]; [by intros ->|]. split_and!; [|done|].
  - apply (upd_old _ _ _ _ _ _ _ _ Hu); [done|]. by intros ->.
  - eapply agree_on_trans; [by eapply Hbut|]. by eapply (upd_data _ _ _ _ _ _ _ _ Hu).
Qed.

Lemma zgrown_page : zgrown s G l root a (a + PGSIZE) s3 (<[pg := UData root a]> G3) l3.
Proof.
  assert (Hpg3 : G3 !! pg = Some UOther) by (apply (upd_old _ _ _ _ _ _ _ _ Hu); [apply lookup_insert_eq|done]).
  assert (Hin : ∀ va, a <= va < a + PGSIZE ↔ PGROUNDDOWN va = a).
  { intros va. destruct (round_down va) as (H1 & H2 & _). split; [|lia]. unfold PGSIZE in *. Z.div_mod_to_equations. lia. }
  split.
  - split; [by eapply vm_relabel; [apply Hu|..]| |by apply page_own]. unfold is_root.
    destruct page_root as [Hr Hr']. destruct (page_other _ _ Hr) as [_ Hne]; [done|].
    rewrite lookup_insert_ne by done. by eapply upd_root.
  - eapply same_but_mem_trans; [exact Hsame|apply Hu].
  - intros va Hva. assert (0 <= va) by lia. unfold umapped, ubyte. rewrite page_upa by done. apply Hin in Hva as Hd.
    rewrite decide_True by done. pose proof (page_ok_pos _ Hok). rewrite (proj2 (Z.eqb_neq _ _)) by lia. split; [done|].
    assert (Hag : agree_on pg (mem s2) (mem s3)).
    { eapply (upd_data _ _ _ _ _ _ _ _ Hu); [apply lookup_insert_eq|done]. }
    rewrite Hag by lia. apply Hzero. lia.
  - intros va Hva Hn. rewrite page_pte by done. rewrite decide_False; [done|]. unfold PGSIZE in *. Z.div_mod_to_equations. lia.
  - intros va Hva Hn Hm. unfold ubyte, umapped in *. rewrite page_upa by done.
    rewrite decide_False by (by rewrite <- Hin). apply negb_true_iff, Z.eqb_neq in Hm.
    apply (as_own _ _ _ _ Has) in Hm as Ho; [|done]. destruct (page_kept _ _ Ho I) as (_ & _ & Hag).
    destruct (round_down va). apply Hag. lia.
  - intros q u Hq Hd. destruct (page_kept q u Hq Hd) as (H1 & H2 & H3). split; [by rewrite lookup_insert_ne by done|done].
  - subst l. cbn [length]. replace (a + PGSIZE - a) with PGSIZE by lia. rewrite Z.div_same by done. lia.
Qed.

End Page.

(** The current process is not the one whose image is built, and its paging limit
    is respected. *)
Definition builds s (root hi : Z) : Prop :=
  ∃ i p, proc_at s i p ∧ p_pagetable p ≠ root ∧ (p_pid p <= 2 ∨ hi <= MAX_TOTAL_PAGES * PGSIZE).

Lemma builds_same s s' root hi : same_but_mem s s' → builds s root hi → builds s' root hi.
Proof. intros Hs (i & p & Hp & Hr). exists i, p. split; [by eapply proc_at_same|done]. Qed.

Lemma uvmalloc_body_ok sel s G l root oldsz newsz a :
  sel ≠ NONE → aspace_ok s G l root → builds s root newsz → 0 <= a → a mod PGSIZE = 0 → a < newsz → newsz <= MAXVA →
  Z.testbit (pte_of (mem s) root a) 0 = false → (3 <= length l)%nat →
  wp (uvmalloc_body sel root oldsz newsz a) s (λ r s', r = inl (a + PGSIZE) ∧
    ∃ G' l', zgrown s G l root a (a + PGSIZE) s' G' l').
Proof.
  intros Hsel Has Hb Ha Hal Hlt Hmax HV Hl. unfold uvmalloc_body. rewrite (proj2 (Z.ltb_lt _ _)) by done.
  destruct Hb as (i & p & Hp & Hne & Hlim).
  assert (Hmax' : a + PGSIZE <= MAXVA) by (rewrite MAXVA_eq in *; unfold PGSIZE in *; Z.div_mod_to_equations; lia).
  assert (Hplace : wp (uvmalloc_place sel root a) s (λ r s', s' = s)).
  { unfold uvmalloc_place. destruct sel; try done; (apply wp_bind; eapply wp_myproc; [exact Hp|];
      destruct (Z.ltb_spec 2 (p_pid p)); [|by apply wp_ret]; rewrite (proj2 (Z.eqb_neq _ _)) by done;
      rewrite (proj2 (Z.ltb_lt _ _)) by (unfold PGSIZE in *; Z.div_mod_to_equations; lia); by apply wp_ret). }
  apply wp_bind. eapply wp_mono; [exact Hplace|]. intros idx ? ->.
  apply wp_bind. eapply vm_kalloc_ok; [apply Has|intros ->; cbn in Hl; lia|].
  intros pg l1 s1 Hpg Hfree Hok Hs1 Hwf1 Hbut1 Hpt1. pose proof (page_ok_end _ Hok). pose proof (page_ok_pos _ Hok).
  rewrite (proj2 (Z.eqb_neq _ _)) by lia.
  apply wp_bind, wp_memsetM; [destruct Hok; lia|done|]. intros m2 Hz2 Hoff2.
  destruct (vm_wf_data s1 (set_mem m2 s1) _ l1 pg UOther Hwf1 eq_refl (lookup_insert_eq _ _ _) I Hoff2) as (Hwf2 & _ & Hbut2).
  assert (Hbut : agree_but pg G (mem s) m2).
  { intros q u Hq Hqne. eapply agree_on_trans; [by eapply Hbut1|]. apply (Hbut2 q u); [by rewrite lookup_insert_ne by done|done]. }
  assert (Hpt : pt_agree G (mem s) m2) by (eapply agree_but_pt; [done|exact Hfree|naive_solver]).
  assert (Hr2 : is_root (<[pg:=UOther]> G) root).
  { unfold is_root. rewrite lookup_insert_ne; [apply Has|]. intros ->. pose proof (as_root _ _ _ _ Has) as Hr. unfold is_root in Hr. congruence. }
  eapply (mappages_one sel (set_mem m2 s1)); [done|exact Hwf2|done|done|done|done|lia|done| | |].
  { rewrite (pte_of_agree s G l m2) by (done || apply Has || (unfold PGSIZE in *; lia)). done. }
  { subst l. cbn [length] in Hl. lia. }
  intros s3 G3 l3 Hu Hlen. cbn [Z.eqb negb].
  pose proof (zgrown_page s G l root a pg l1 (set_mem m2 s1) s3 G3 l3 Has Ha Hal Hmax' Hpg Hfree Hok
    ltac:(eapply same_but_mem_trans; [exact Hs1|apply same_but_mem_mem]) Hbut Hpt Hz2 Hu Hlen) as Hzg.
  assert (Hrec : wp (uvmalloc_record sel root a idx) s3 (λ _ s', s' = s3)).
  { unfold uvmalloc_record. destruct sel; try done; (apply wp_bind; eapply wp_myproc;
      [by eapply proc_at_same; [apply Hzg|]|]; rewrite (proj2 (Z.eqb_neq (p_pagetable p) _)), andb_false_r by done; by apply wp_ret). }
  apply wp_bind. eapply wp_mono; [exact Hrec|]. intros _ ? ->. apply wp_ret.
  split; [|by eexists _, _]. f_equal. apply Z.mod_small. rewrite MAXVA_eq in *. unfold PGSIZE in *. lia.
Qed.

Lemma uvmalloc_new_ok sel s G l root oldsz newsz :
  sel ≠ NONE → aspace_ok s G l root → builds s root newsz → 0 <= oldsz <= newsz → newsz <= MAXVA →
  (∀ va, PGROUNDUP oldsz <= va < PGROUNDUP newsz → Z.testbit (pte_of (mem s) root va) 0 = false) →
  3 * ((PGROUNDUP newsz - PGROUNDUP oldsz) / PGSIZE) <= Z.of_nat (length l) →
  wp (uvmalloc sel root oldsz newsz) s (λ r s', r = newsz ∧
    ∃ G' l', zgrown s G l root (PGROUNDUP oldsz) (PGROUNDUP newsz) s' G' l').
Proof.
  intros Hsel Has Hb Hle Hmax HV Hl. unfold uvmalloc. rewrite (proj2 (Z.ltb_ge _ _)) by lia.
  pose proof MAXVA_eq as Hmx. destruct (PGROUNDUP_bounds oldsz) as [Ho1 Ho2]; [lia|unfold PGSIZE; lia|].
  destruct (PGROUNDUP_bounds newsz) as [Hn1 Hn2]; [lia|unfold PGSIZE; lia|].
  set (lo := PGROUNDUP oldsz) in *. set (hi := PGROUNDUP newsz) in *.
  assert (Hlh : lo <= hi) by (unfold PGSIZE in *; Z.div_mod_to_equations; lia).
  eapply (wp_loop _ (λ m a s', lo <= a <= hi ∧ a mod PGSIZE = 0 ∧ m = Z.to_nat ((hi - a) / PGSIZE) ∧
    ∃ G' l', zgrown s G l root lo a s' G' l')) with (n := Z.to_nat ((hi - lo) / PGSIZE)).
  - intros m a s1 (Ha & Hal & -> & G1 & l1 & Hz). destruct (decide (a < newsz)) as [Hlt|Hge].
    + eapply wp_mono; [apply (uvmalloc_body_ok sel s1 G1 l1); [done|apply Hz| |lia|done|done|done| |]|].
      * eapply builds_same; [apply Hz|done].
      * rewrite (zg_pte _ _ _ _ _ _ _ _ _ Hz) by lia. apply HV. lia.
      * pose proof (zg_free _ _ _ _ _ _ _ _ _ Hz). unfold PGSIZE in *. Z.div_mod_to_equations. lia.
      * intros r s2 (-> & G2 & l2 & Hz2).
        assert (Hnext : a + PGSIZE <= hi ∧ (a + PGSIZE) mod PGSIZE = 0)
          by (unfold PGSIZE in *; Z.div_mod_to_equations; lia).
        eexists. split; [|split_and!; [| | |reflexivity|]]; [|unfold PGSIZE in *; lia|apply Hnext|apply Hnext|].
        { unfold PGSIZE in *. Z.div_mod_to_equations. lia. }
        exists G2, l2. eapply zgrown_trans; [exact Hz|exact Hz2|lia|unfold PGSIZE; lia|done|done|apply Hnext].
    + unfold uvmalloc_body. rewrite (proj2 (Z.ltb_ge _ _)) by lia. apply wp_ret. split; [done|].
      exists G1, l1. replace hi with a; [done|]. unfold PGSIZE in *. Z.div_mod_to_equations. lia.
  - split_and!; [lia|lia|done|done|]. exists G, l. by apply zgrown_refl.
  - unfold map_fuel, w64. rewrite Hmx in *. unfold PGSIZE in *. destruct (decide (lo <= newsz)).
    + rewrite Z.mod_small by lia. rewrite Z.min_l by lia. Z.div_mod_to_equations. lia.
    + assert (hi = lo) as -> by (Z.div_mod_to_equations; lia). rewrite Z.sub_diag, Z.div_0_l by lia. lia.
Qed.

End Alloc.

(** ** The segments *)

(** Segment [ph] of file [c] is in memory: its bytes, and zeros after them. *)
Definition seg_in (m : memory) (root : Z) (c : list Z) (ph : proghdr) : Prop :=
  reads m root (ph_vaddr ph) (segment c (ph_off ph) (ph_filesz ph)) ∧
  ∀ a, ph_vaddr ph + ph_filesz ph <= a < ph_vaddr ph + ph_memsz ph → ubyte m root a = 0.

(** A segment that can follow an image of size [sz]. *)
Record seg_ok (c : list Z) (sz : Z) (ph : proghdr) : Prop := {
  so_file : ph_filesz ph <= ph_memsz ph;
  so_align : ph_vaddr ph mod PGSIZE = 0;
  so_above : sz <= ph_vaddr ph;
  so_end : 0 < ph_vaddr ph + ph_memsz ph <= MAXVA;
  so_pos : 0 <= ph_off ph ∧ 0 <= ph_filesz ph;
  so_there : ph_off ph + ph_filesz ph <= Z.of_nat (length c)
}.

(** Headers whose segments follow each other, and where the last one ends. *)
Fixpoint segs_ok (c : list Z) (sz : Z) (phs : list proghdr) : Prop :=
  match phs with
  | [] => True
  | ph :: phs => if ph_type ph =? ELF_PROG_LOAD then seg_ok c sz ph ∧ segs_ok c (ph_vaddr ph + ph_memsz ph) phs else segs_ok c sz phs
  end.
Fixpoint segs_end (sz : Z) (phs : list proghdr) : Z :=
  match phs with
  | [] => sz
  | ph :: phs => segs_end (if ph_type ph =? ELF_PROG_LOAD then ph_vaddr ph + ph_memsz ph else sz) phs
  end.

Lemma segs_end_le c sz phs : 0 <= sz <= MAXVA → segs_ok c sz phs → sz <= segs_end sz phs <= MAXVA.
Proof.
  revert sz. induction phs as [|ph phs IH]; intros sz Hsz; cbn [segs_ok segs_end]; [lia|].
  destruct (ph_type ph =? ELF_PROG_LOAD); [|by apply IH]. intros [Ho Hs].
  destruct Ho as [? ? ? ? [? ?] ?]. pose proof (IH (ph_vaddr ph + ph_memsz ph) ltac:(lia) Hs). lia.
Qed.

(** The header at an offset of the file. *)
Definition header_at (c : list Z) (off : Z) : proghdr := get_ph (segment c off sizeof_proghdr).
Fixpoint headers (c : list Z) (off : Z) (n : nat) : list proghdr :=
  match n with O => [] | S n => header_at c off :: headers c (off + sizeof_proghdr) n end.

Section Image.
Context {F : Type} {KI : KImage} {KOK : KImageOk KI} {SW : SwapStore F} {PF : ProcFiles F} {EF : ExecFiles F} {EFO : ExecFilesOk F}.
Implicit Types s : kst F.

(** The image of size [hi] in [root], built from the state [s0], with the
    segments [segs] of the file with contents [c]; [ip] is its inode while locked. *)
Record image s0 (G0 : gmap Z usage) (l0 : list Z) (root : Z) (ip : option nat) (c : list Z) (hi : Z) (segs : list proghdr)
    s (G : gmap Z usage) (l : list Z) : Prop := {
  im_ok : aspace_ok s G l root;
  im_same : same_but_mem (set_fs (fs s) s0) s;
  im_file : ∀ i, ip = Some i → ef_content (fs s) i = Some c;
  im_map : ∀ va, 0 <= va < PGROUNDUP hi → umapped (mem s) root va = true;
  im_pte : ∀ va, PGROUNDUP hi <= va < MAXVA → pte_of (mem s) root va = pte_of (mem s0) root va;
  im_segs : Forall (λ ph, seg_in (mem s) root c ph ∧ 0 <= ph_vaddr ph ∧ 0 <= ph_filesz ph <= ph_memsz ph ∧
    ph_vaddr ph + ph_memsz ph <= hi) segs;
  im_data : ∀ q u, G0 !! q = Some u → is_data u → G !! q = Some u ∧ ((∀ v, u ≠ UData root v) → agree_on q (mem s0) (mem s));
  im_free : Z.of_nat (length l0) <= Z.of_nat (length l) + 3 * (PGROUNDUP hi / PGSIZE)
}.

(** Segments survive what does not touch their addresses. *)
Lemma seg_in_same m m' root c ph :
  0 <= ph_filesz ph <= ph_memsz ph →
  (∀ a, ph_vaddr ph <= a < ph_vaddr ph + ph_memsz ph → ubyte m' root a = ubyte m root a) →
  seg_in m root c ph → seg_in m' root c ph.
Proof.
  intros Hf Hs [H1 H2]. pose proof (segment_length c (ph_off ph) (ph_filesz ph)). split.
  - eapply reads_same; [|exact H1]. intros k Hk. apply Hs. lia.
  - intros a Ha. rewrite Hs by lia. by apply H2.
Qed.

Lemma PGROUNDUP_mono a b : 0 <= a <= b → b <= MAXVA → PGROUNDUP a <= PGROUNDUP b.
Proof.
  intros. rewrite MAXVA_eq in *. rewrite !PGROUNDUP_eq by (unfold PGSIZE; lia).
  apply Z.mul_le_mono_nonneg_l; [done|]. apply Z.div_le_mono; unfold PGSIZE; lia.
Qed.

Lemma up_bounds sz : 0 <= sz <= MAXVA → sz <= PGROUNDUP sz <= MAXVA ∧ PGROUNDUP sz mod PGSIZE = 0.
Proof.
  intros H. rewrite MAXVA_eq in *. destruct (PGROUNDUP_bounds sz) as [? ?]; [lia|unfold PGSIZE; lia|].
  unfold PGSIZE in *. Z.div_mod_to_equations. lia.
Qed.

(** More pages above. *)
Lemma image_grow s0 G0 l0 root ip c hi segs s G l hi' s' G' l' :
  image s0 G0 l0 root ip c hi segs s G l → 0 <= hi <= hi' → hi' <= MAXVA →
  zgrown s G l root (PGROUNDUP hi) (PGROUNDUP hi') s' G' l' → image s0 G0 l0 root ip c hi' segs s' G' l'.
Proof.
  intros Hi Hle Hmax Hz. destruct (up_bounds hi) as [Hb1 Hm1]; [lia|]. destruct (up_bounds hi') as [Hb2 Hm2]; [lia|].
  pose proof (PGROUNDUP_mono hi hi' Hle Hmax) as Hmono.
  assert (Hfs : fs s' = fs s) by apply (same_but_mem_fields _ _ (zg_same _ _ _ _ _ _ _ _ _ Hz)).
  split.
  - apply Hz.
  - rewrite Hfs. eapply same_but_mem_trans; [apply Hi|apply Hz].
  - rewrite Hfs. apply Hi.
  - intros va Hva. destruct (decide (va < PGROUNDUP hi)); [|apply Hz; lia].
    rewrite (zgrown_umapped _ _ _ _ _ _ _ _ _ va Hz) by (done || lia). apply Hi. lia.
  - intros va Hva. rewrite (zg_pte _ _ _ _ _ _ _ _ _ Hz) by lia. apply Hi. lia.
  - eapply list.Forall_impl; [apply Hi|]. intros ph (Hs & Hv & Hf & He). split_and!; [|done|lia|lia|lia].
    eapply seg_in_same; [done| |exact Hs]. intros a Ha. apply (zg_byte _ _ _ _ _ _ _ _ _ Hz); [lia|lia|]. apply Hi. lia.
  - intros q u Hq Hu. destruct (im_data _ _ _ _ _ _ _ _ _ _ _ Hi q u Hq Hu) as [H1 H2].
    destruct (zg_data _ _ _ _ _ _ _ _ _ Hz q u H1 Hu) as [H3 H4]. split; [done|].
    intros Hn. eapply agree_on_trans; [by apply H2|by apply H4].
  - pose proof (im_free _ _ _ _ _ _ _ _ _ _ _ Hi). pose proof (zg_free _ _ _ _ _ _ _ _ _ Hz).
    unfold PGSIZE in *. Z.div_mod_to_equations. lia.
Qed.

Lemma image_fs s0 G0 l0 root ip c hi segs s G l f :
  image s0 G0 l0 root ip c hi segs s G l → ∀ ip', (∀ i, ip' = Some i → ef_content f i = Some c) →
  image s0 G0 l0 root ip' c hi segs (set_fs f s) G l.
Proof.
  intros [] ip' Hc. split; try done; [by apply aspace_set_fs|]. unfold same_but_mem in *. cbn [fs set_fs].
  rewrite im_same0. by destruct s0.
Qed.

(** A segment loaded into zero pages of the image. *)
Lemma image_load s0 G0 l0 root ip c hi segs s G l ph s' :
  image s0 G0 l0 root (Some ip) c hi segs s G l → 0 <= hi <= MAXVA → 0 <= ph_vaddr ph → 0 <= ph_filesz ph <= ph_memsz ph →
  ph_vaddr ph + ph_memsz ph <= hi → Forall (λ ph', ph_vaddr ph' + ph_memsz ph' <= ph_vaddr ph) segs →
  (∀ a, ph_vaddr ph <= a < hi → ubyte (mem s) root a = 0) →
  loaded s G l root (ph_vaddr ph) ip c (ph_off ph) (ph_filesz ph) s' →
  image s0 G0 l0 root (Some ip) c hi (ph :: segs) s' G l.
Proof.
  intros Hi Hhi Hv Hf He Hbelow Hz (Hs & Hc & Hlen & Hr). destruct (up_bounds hi) as [Hb _]; [done|].
  assert (Hmap : ∀ a, 0 <= a < hi → umapped (mem s) root a = true) by (intros a Ha; apply Hi; lia).
  split.
  - apply Hs.
  - destruct Hi as [_ H1 _ _ _ _ _ _], Hs as [_ H2 _ _ _]. unfold same_but_mem in *. rewrite H2, H1. by destruct s0.
  - by intros i [= <-].
  - intros va Hva. rewrite (uspan_umapped _ _ _ _ _ _ _ _ Hs) by lia. by apply Hi.
  - intros va Hva. rewrite <- (im_pte _ _ _ _ _ _ _ _ _ _ _ Hi) by done. eapply uspan_pte; [apply Hi|exact Hs|lia].
  - apply list.Forall_cons. split.
    + split_and!; [|done|lia|lia|done]. split; [done|]. intros a Ha.
      rewrite (us_byte _ _ _ _ _ _ _ Hs); [apply Hz; lia|lia|apply Hmap; lia|lia].
    + apply list.Forall_forall. intros ph' Hin. pose proof (im_segs _ _ _ _ _ _ _ _ _ _ _ Hi) as Hsegs.
      rewrite list.Forall_forall in Hsegs, Hbelow. destruct (Hsegs ph' Hin) as (Hs' & Hv' & Hf' & He').
      pose proof (Hbelow ph' Hin). split_and!; [|done|lia|lia|lia]. eapply seg_in_same; [done| |exact Hs'].
      intros a Ha. apply (us_byte _ _ _ _ _ _ _ Hs); [lia|apply Hmap; lia|lia].
  - intros q u Hq Hu. destruct (im_data _ _ _ _ _ _ _ _ _ _ _ Hi q u Hq Hu) as [H1 H2]. split; [done|].
    intros Hn. eapply agree_on_trans; [by apply H2|]. by eapply (us_other _ _ _ _ _ _ _ Hs).
  - apply Hi.
Qed.

Lemma image_builds s0 G0 l0 root ip c hi segs s G l top top' :
  image s0 G0 l0 root ip c hi segs s G l → builds s0 root top → top' <= top → builds s root top'.
Proof.
  intros Hi (i & p & [Hp1 Hp2] & Hne & Hlim) Hle. destruct (same_but_mem_fields _ _ (im_same _ _ _ _ _ _ _ _ _ _ _ Hi)) as (H1 & H2 & _).
  exists i, p. split_and!; [|done|lia]. cbn in H1, H2. split; congruence.
Qed.

(** [readi] of the kernel's own data. *)
Lemma image_readi s0 G0 l0 root ip c hi segs s G l off n (Q : Z * list Z → kst F → Prop) :
  image s0 G0 l0 root (Some ip) c hi segs s G l → 0 <= off → 0 <= n → off + n <= Z.of_nat (length c) →
  Z.of_nat (length c) < 2 ^ 31 →
  (∀ f, image s0 G0 l0 root (Some ip) c hi segs (set_fs f s) G l → Q (n, segment c off n) (set_fs f s)) →
  wp (liftF (ef_readi ip off n)) s Q.
Proof.
  intros Hi Ho Hn Hlen Hc HQ. apply wp_liftF.
  eapply wp_mono; [apply (ef_readi_ok _ ip c); [by apply Hi|done|done|lia]|]. intros r f (Hf & ->).
  fold (segment c off n). replace (Z.of_nat (length (segment c off n))) with n.
  - apply HQ. eapply image_fs; [exact Hi|]. by intros i [= <-].
  - unfold segment. rewrite length_take, length_drop. lia.
Qed.

(** The pages from [lo] on were not mapped when the image was begun. *)
Definition unused s root (hi : Z) : Prop :=
  ∀ va, 0 <= va < PGROUNDUP hi → Z.testbit (pte_of (mem s) root va) 0 = false.

(** [uvmalloc] for the image: zero pages up to [hi']. *)
Lemma image_alloc sel s0 G0 l0 root ip c hi segs s G l hi' top :
  sel ≠ NONE → image s0 G0 l0 root ip c hi segs s G l → builds s0 root top → unused s0 root top →
  3 * (PGROUNDUP top / PGSIZE) <= Z.of_nat (length l0) →
  0 <= hi <= hi' → hi' <= top → top <= MAXVA →
  wp (uvmalloc sel root hi hi') s (λ r s', r = hi' ∧ ∃ G' l', image s0 G0 l0 root ip c hi' segs s' G' l' ∧
    (∀ a, PGROUNDUP hi <= a < PGROUNDUP hi' → ubyte (mem s') root a = 0)).
Proof.
  intros Hsel Hi Hb Hu Hfree Hle Htop Hmax. pose proof (PGROUNDUP_mono hi hi' Hle ltac:(lia)).
  pose proof (PGROUNDUP_mono hi' top ltac:(lia) ltac:(lia)). destruct (up_bounds hi') as [? ?]; [lia|].
  destruct (up_bounds hi) as [? ?]; [lia|]. destruct (up_bounds top) as [? ?]; [lia|].
  eapply wp_mono; [apply (uvmalloc_new_ok sel s G l); [done|apply Hi| |lia|lia| |]|].
  - by eapply image_builds.
  - intros va Hva. rewrite (im_pte _ _ _ _ _ _ _ _ _ _ _ Hi) by lia. apply Hu. lia.
  - pose proof (im_free _ _ _ _ _ _ _ _ _ _ _ Hi). unfold PGSIZE in *. Z.div_mod_to_equations. lia.
  - intros r s' (-> & G' & l' & Hz). split; [done|]. exists G', l'. split; [eapply image_grow; [exact Hi|lia|lia|exact Hz]|].
    intros a Ha. by apply Hz.
Qed.

(** One header. *)
Lemma exec_seg_ok sel s0 G0 l0 root ip c hi segs s G l top off :
  sel ≠ NONE → image s0 G0 l0 root (Some ip) c hi segs s G l → builds s0 root top → unused s0 root top →
  3 * (PGROUNDUP top / PGSIZE) <= Z.of_nat (length l0) → top <= MAXVA →
  0 <= hi → 0 <= off → off + sizeof_proghdr <= Z.of_nat (length c) → Z.of_nat (length c) + PGSIZE < 2 ^ 31 →
  (ph_type (header_at c off) = ELF_PROG_LOAD → seg_ok c hi (header_at c off) ∧ 
     ph_vaddr (header_at c off) + ph_memsz (header_at c off) <= top) →
  wp (exec_seg sel root ip off hi) s (λ r s', ∃ G' l',
    if ph_type (header_at c off) =? ELF_PROG_LOAD
    then r = (true, ph_vaddr (header_at c off) + ph_memsz (header_at c off)) ∧
      image s0 G0 l0 root (Some ip) c (ph_vaddr (header_at c off) + ph_memsz (header_at c off)) (header_at c off :: segs) s' G' l'
    else r = (true, hi) ∧ image s0 G0 l0 root (Some ip) c hi segs s' G' l').
Proof.
  intros Hsel Hi Hb Hu Hfree Hmax Hhi Hoff Hlen Hc Hseg. unfold exec_seg, sizeof_proghdr in *. set (ph := header_at c off) in *.
  unfold PGSIZE in Hc. assert (Hw : w32 off = off) by (apply Z.mod_small; lia). rewrite Hw.
  apply wp_bind. eapply image_readi; [exact Hi|lia|lia|lia|lia|]. intros f Hi1. cbn [fst snd]. rewrite Z.eqb_refl. cbn [negb].
  change (get_ph (segment c off 56)) with ph. destruct (Z.eqb_spec (ph_type ph) ELF_PROG_LOAD) as [Ht|Ht]; cbn [negb].
  2: { apply wp_ret. by eexists _, _. }
  destruct (Hseg Ht) as ([Hfile Hal Habove Hend [Hpo Hpf] Hthere] & Htop). rewrite MAXVA_eq in *.
  rewrite (proj2 (Z.ltb_ge _ _)) by lia. assert (Hw2 : w64 (ph_vaddr ph + ph_memsz ph) = ph_vaddr ph + ph_memsz ph) by (apply Z.mod_small; lia).
  rewrite Hw2, (proj2 (Z.ltb_ge _ _)) by lia.
  apply wp_bind. eapply wp_mono; [eapply (image_alloc sel s0 G0 l0); [done|exact Hi1|done|done|done|lia|lia|rewrite MAXVA_eq; lia]|].
  intros r s2 (-> & G2 & l2 & Hi2 & Hz). rewrite (proj2 (Z.eqb_neq _ 0)) by lia. rewrite Hal. cbn [Z.eqb negb].
  assert (Hwo : w32 (ph_off ph) = ph_off ph ∧ w32 (ph_filesz ph) = ph_filesz ph) by (unfold w32; rewrite !Z.mod_small by lia; done).
  destruct Hwo as [-> ->]. destruct (up_bounds hi) as [? Hup]; [rewrite MAXVA_eq; lia|].
  destruct (up_bounds (ph_vaddr ph + ph_memsz ph)) as [? ?]; [rewrite MAXVA_eq; lia|].
  assert (PGROUNDUP hi <= ph_vaddr ph).
  { destruct (PGROUNDUP_bounds hi) as [? ?]; [lia|unfold PGSIZE; lia|]. unfold PGSIZE in *. Z.div_mod_to_equations. lia. }
  apply wp_bind. eapply wp_mono; [apply (loadseg_ok s2 G2 l2 root (ph_vaddr ph) ip c)|].
  { apply Hi2. } { by apply Hi2. } { lia. } { done. } { done. } { done. } { unfold PGSIZE. lia. } { rewrite MAXVA_eq. lia. }
  { intros a Ha. apply Hi2. lia. }
  intros r s3 [[-> Hld]|[-> Hshort]].
  - apply wp_ret. eexists _, _. split; [done|]. eapply image_load; [exact Hi2|rewrite MAXVA_eq; lia|lia|lia|lia| |intros a Ha; apply Hz; lia|done].
    eapply list.Forall_impl; [apply Hi1|]. intros ph' (_ & _ & _ & Hlast). clear - Hlast Habove. cbv beta. lia.
  - exfalso. unfold segment in Hshort. rewrite length_take, length_drop in Hshort. lia.
Qed.

(** The segments among the headers, the last one first. *)
Definition loads (phs : list proghdr) : list proghdr := filter (λ ph, ph_type ph = ELF_PROG_LOAD) phs.

(** All headers. *)
Lemma exec_load_ok sel s0 G0 l0 root ip c top n :
  sel ≠ NONE → builds s0 root top → unused s0 root top →
  3 * (PGROUNDUP top / PGSIZE) <= Z.of_nat (length l0) → top <= MAXVA → Z.of_nat (length c) + PGSIZE < 2 ^ 31 →
  ∀ hi segs s G l off, image s0 G0 l0 root (Some ip) c hi segs s G l → 0 <= hi <= MAXVA → 0 <= off →
  off + sizeof_proghdr * Z.of_nat n <= Z.of_nat (length c) → segs_ok c hi (headers c off n) →
  segs_end hi (headers c off n) <= top →
  wp (exec_load sel root ip n off hi) s (λ r s', r = (true, segs_end hi (headers c off n)) ∧
    ∃ G' l' segs', image s0 G0 l0 root (Some ip) c (segs_end hi (headers c off n)) segs' s' G' l' ∧
      ∀ ph, ph ∈ segs ∨ ph ∈ loads (headers c off n) → ph ∈ segs').
Proof.
  intros Hsel Hb Hu Hfree Hmax Hc. induction n as [|n IH]; intros hi segs s G l off Hi Hhi Hoff Hlen Hsegs Htop; cbn [exec_load headers].
  { apply wp_ret. split; [done|]. exists G, l, segs. split; [done|]. intros ph [Hin|Hin]; [done|]. by apply elem_of_nil in Hin. }
  set (ph := header_at c off). cbn [headers segs_ok segs_end] in Hsegs, Htop |- *. fold ph in Hsegs, Htop.
  apply wp_bind. eapply wp_mono; [eapply (exec_seg_ok sel s0 G0 l0); [done|exact Hi|done|done|done|done|lia|done| |done|]|].
  { unfold sizeof_proghdr in *. lia. }
  { fold ph. intros Ht. rewrite Ht, Z.eqb_refl in Hsegs, Htop. destruct Hsegs as [Ho Hs]. split; [done|].
    destruct Ho as [? ? ? ? [? ?] ?]. pose proof (segs_end_le c (ph_vaddr ph + ph_memsz ph) _ ltac:(lia) Hs). lia. }
  fold ph. intros r s1 (G1 & l1 & H1).
  assert (Hnext : i32 (off + sizeof_proghdr) = off + sizeof_proghdr).
  { unfold sizeof_proghdr, PGSIZE in *. unfold i32. rewrite Z.mod_small by lia. lia. }
  unfold loads in *. rewrite filter_cons.
  destruct (Z.eqb_spec (ph_type ph) ELF_PROG_LOAD) as [Ht|Ht]; destruct H1 as [-> Hi1]; rewrite Hnext.
  - destruct Hsegs as [Ho Hs]. destruct Ho as [? ? ? ? [? ?] ?].
    eapply wp_mono; [eapply IH; [exact Hi1|lia|unfold sizeof_proghdr; lia|unfold sizeof_proghdr in *; lia|done|done]|].
    intros r s2 (-> & G2 & l2 & segs' & Hi2 & Hin). split; [done|]. exists G2, l2, segs'. split; [done|].
    intros ph' Hph. apply Hin. rewrite decide_True in Hph by done. rewrite !elem_of_cons in *. tauto.
  - eapply wp_mono; [eapply IH; [exact Hi1|lia|unfold sizeof_proghdr; lia|unfold sizeof_proghdr in *; lia|done|done]|].
    intros r s2 (-> & G2 & l2 & segs' & Hi2 & Hin). split; [done|]. exists G2, l2, segs'. split; [done|].
    intros ph' Hph. apply Hin. by rewrite decide_False in Hph by done.
Qed.

(** The guard page: no longer the user's, everything else as before. *)
Lemma uvmclear_ok s G l root g :
  aspace_ok s G l root → 0 <= g < MAXVA → g mod PGSIZE = 0 → umapped (mem s) root g = true →
  wp (uvmclear root g) s (λ _ s', aspace_ok s' G l root ∧ same_but_mem s s' ∧ umapped (mem s') root g = false ∧
    ∀ va, 0 <= va → ¬ g <= va < g + PGSIZE →
      umapped (mem s') root va = umapped (mem s) root va ∧
      (umapped (mem s) root va = true → ubyte (mem s') root va = ubyte (mem s) root va)).
Proof.
  intros Has Hg Hal Hm. pose proof Has as [Hwf Hroot Hown]. unfold uvmclear.
  assert (Hrg : PGROUNDDOWN g = g) by (by apply PGROUNDDOWN_aligned).
  assert (Hslot : ∃ a, walk_slot (mem s) root g = Some a).
  { apply pte_of_nonzero. intros Hz. unfold umapped, user_pa in Hm. rewrite Hrg, Hz, Z.bits_0, !andb_false_r in Hm. done. }
  destruct Hslot as [a Ha]. destruct (walk_slot_range _ _ _ _ _ _ Hwf Hroot Hg Ha) as (_ & _ & Hnz).
  apply wp_bind. eapply walk_noalloc_ok; [done|done|lia|]. rewrite Ha. cbn. rewrite (proj2 (Z.eqb_neq a 0)) by done.
  apply wp_bind. eapply wp_load_slot; [done..|]. set (v := pte_of (mem s) root g).
  assert (Hr : 0 <= Z.land v (Z.lnot PTE_U) < 2 ^ 64).
  { apply clear_range, pte_of_range. }
  eapply leaf_store; [done..|]. intros s' [Lwf Lsame _ Lview Ldata].
  assert (Hupa : ∀ va, 0 <= va → user_pa (mem s') root (PGROUNDDOWN va) =
    if decide (PGROUNDDOWN va = g) then 0 else user_pa (mem s) root (PGROUNDDOWN va)).
  { intros va Hva. destruct (round_down va) as (H1 & H2 & H3). pose proof (round_down_pos va Hva). unfold user_pa.
    destruct (Z.ltb_spec (PGROUNDDOWN va) MAXVA); [|by case_decide]. rewrite Lview by (done || lia).
    destruct (decide (PGROUNDDOWN va = g)) as [->|Hne].
    - rewrite decide_True by done. rewrite <- Z.ldiff_land, !Z.ldiff_spec.
      replace (Z.testbit PTE_U 4) with true by done. by rewrite !andb_false_r.
    - rewrite decide_False; [done|]. intros [_ He]. apply Hne. unfold PGSIZE in *. Z.div_mod_to_equations. lia. }
  split_and!; [split; [done|done|]|done| |].
  - intros va Hva. rewrite Hupa by done. case_decide; [done|]. by apply Hown.
  - unfold umapped. rewrite Hupa, Hrg, decide_True by (done || lia). done.
  - intros va Hva Hn. destruct (round_down va) as (H1 & H2 & _).
    assert (PGROUNDDOWN va ≠ g) by (intros He; apply Hn; lia). unfold umapped, ubyte. rewrite Hupa, decide_False by done.
    split; [done|]. intros Hmv. apply negb_true_iff, Z.eqb_neq in Hmv. apply Hown in Hmv; [|done].
    eapply (Ldata _ _ Hmv); [done|lia].
Qed.

(** What the new program finds in memory. *)
Record program (m : memory) (root : Z) (c : list Z) (phs : list proghdr) (sz sp : Z) (argv : list (list Z)) : Prop := {
  pr_segs : ∀ ph, ph ∈ loads phs → seg_in m root c ph;
  pr_argv : argv_at m root sp sz argv;
  pr_sp : sp mod 16 = 0 ∧ sz - PGSIZE <= sp <= sz;
  pr_stack : ∀ va, sz - PGSIZE <= va < sz → umapped m root va = true;
  pr_guard : ∀ va, sz - 2 * PGSIZE <= va < sz - PGSIZE → umapped m root va = false
}.

Lemma up_aligned a : 0 <= a <= MAXVA → a mod PGSIZE = 0 → PGROUNDUP a = a.
Proof.
  intros Ha Hm. rewrite MAXVA_eq in Ha. destruct (PGROUNDUP_bounds a) as [? ?]; [lia|unfold PGSIZE; lia|].
  unfold PGSIZE in *. Z.div_mod_to_equations. lia.
Qed.

Lemma image_round s0 G0 l0 root ip c hi segs s G l :
  image s0 G0 l0 root ip c hi segs s G l → 0 <= hi <= MAXVA → image s0 G0 l0 root ip c (PGROUNDUP hi) segs s G l.
Proof.
  intros Hi Hhi. destruct (up_bounds hi Hhi) as [? ?]. eapply image_grow; [exact Hi|lia|lia|].
  rewrite (up_aligned (PGROUNDUP hi)) by (done || lia). apply zgrown_refl, Hi.
Qed.

(** The guard page below the stack, and the arguments on the stack. *)
Lemma clear_push_ok s G l root lo argv :
  aspace_ok s G l root → PGSIZE <= lo + PGSIZE → lo mod PGSIZE = 0 → lo + 2 * PGSIZE <= MAXVA →
  (∀ va, lo <= va < lo + 2 * PGSIZE → umapped (mem s) root va = true) → Forall arg_ok argv →
  let top := lo + 2 * PGSIZE in
  wp (uvmclear root lo;; push_stack root top argv) s (λ o s',
    (args_fit top argv ∧ o = Some (Z.of_nat (length argv), stack_sp top argv) ∧
       argv_at (mem s') root (stack_sp top argv) top argv ∧
       (∀ va, lo <= va < top → umapped (mem s') root va = negb (va <? lo + PGSIZE)) ∧
       (∀ va, 0 <= va < lo → umapped (mem s) root va = true → ubyte (mem s') root va = ubyte (mem s) root va)) ∨
    (¬ args_fit top argv ∧ o = None)).
Proof.
  intros Has Hpos Hal Hmax Hm Hargs top. unfold PGSIZE in Hpos.
  apply wp_bind. eapply wp_mono; [apply (uvmclear_ok s G l root lo)|].
  { done. } { unfold PGSIZE in *; lia. } { done. } { apply Hm. unfold PGSIZE. lia. }
  intros _ s1 (Has1 & Hsame1 & Hg & Hrest).
  eapply wp_mono; [apply (push_stack_ok s1 G l root top argv)|].
  { done. } { unfold top, PGSIZE in *. lia. } { done. }
  { intros k Hk. unfold top, PGSIZE in *. destruct (Hrest k) as [-> _]; [lia|lia|]. apply Hm. lia. }
  intros o s2 [(Hfit & -> & _ & Hs2 & Hargv)|[Hno ->]]; [left|by right].
  split_and!; [done|done|done| |].
  - intros va Hva. unfold top, PGSIZE in *. rewrite (uspan_umapped _ _ _ _ _ _ _ _ Hs2) by lia.
    destruct (Z.ltb_spec va (lo + 4096)) as [Hlt|Hge].
    + rewrite (umapped_page _ _ lo); [done|]. rewrite PGROUNDDOWN_aligned by done. unfold PGSIZE. lia.
    + destruct (Hrest va) as [-> _]; [lia|lia|]. apply Hm. lia.
  - intros va Hva Hmv. destruct (Hrest va) as [He Hb]; [lia|lia|].
    rewrite (us_byte _ _ _ _ _ _ _ Hs2); [by apply Hb|lia|congruence|].
    destruct Hfit as [_ Hfit]. unfold top, PGSIZE in *. lia.
Qed.

(** The stack on top of an image. *)
Lemma exec_stack_ok sel s0 G0 l0 root ip c hi segs s G l phs argv :
  sel ≠ NONE → image s0 G0 l0 root ip c hi segs s G l → (∀ ph, ph ∈ loads phs → ph ∈ segs) →
  let top := PGROUNDUP hi + 2 * PGSIZE in
  builds s0 root top → unused s0 root top → 3 * (top / PGSIZE) <= Z.of_nat (length l0) →
  0 <= hi <= MAXVA → top <= MAXVA → Forall arg_ok argv →
  wp (exec_stack sel root hi argv) s (λ r s',
    (args_fit top argv ∧ r = (top, Some (Z.of_nat (length argv), stack_sp top argv)) ∧
       program (mem s') root c phs top (stack_sp top argv) argv) ∨
    (¬ args_fit top argv ∧ r = (top, None))).
Proof.
  intros Hsel Hi Hphs top Hb Hu Hfree Hhi Hmax Hargs. unfold exec_stack. pose proof MAXVA_eq as Hmx.
  destruct (up_bounds hi) as [Hlo Hlom]; [done|]. set (lo := PGROUNDUP hi) in *.
  assert (Htm : top mod PGSIZE = 0) by (unfold top, PGSIZE in *; Z.div_mod_to_equations; lia).
  assert (Htop : lo <= top) by (unfold top, PGSIZE; lia).
  assert (Hut : PGROUNDUP top = top) by (apply up_aligned; [lia|done]).
  assert (Hul : PGROUNDUP lo = lo) by (apply up_aligned; [lia|done]).
  replace (w64 (lo + 2 * PGSIZE)) with top by (symmetry; apply Z.mod_small; fold top; lia).
  apply wp_bind. eapply wp_mono; [eapply (image_alloc sel s0 G0 l0 root ip c lo segs s G l top top)|].
  { done. } { by apply image_round. } { done. } { done. } { by rewrite Hut. } { lia. } { lia. } { done. }
  intros r s1 (-> & G1 & l1 & Hi1 & _). assert (top ≠ 0) by (unfold top, PGSIZE; lia).
  rewrite (proj2 (Z.eqb_neq _ _)) by done.
  replace (w64 (top - 2 * PGSIZE)) with lo by (symmetry; unfold top; rewrite Z.add_simpl_r; apply Z.mod_small; lia).
  apply wp_bind_assoc, wp_bind. eapply wp_mono; [apply (clear_push_ok s1 G1 l1 root lo argv)|].
  { apply Hi1. } { unfold PGSIZE. lia. } { done. } { done. }
  { fold top. intros va Hva. apply Hi1. rewrite Hut. lia. } { done. }
  fold top. intros o s2 [(Hfit & -> & Hargv & Hmap & Hold)|[Hno ->]]; apply wp_ret; [left|by right].
  split_and!; [done|done|]. split; [|done| | |].
  - intros ph Hph. pose proof (im_segs _ _ _ _ _ _ _ _ _ _ _ Hi) as Hsegs0.
    pose proof (im_segs _ _ _ _ _ _ _ _ _ _ _ Hi1) as Hsegs. rewrite list.Forall_forall in Hsegs, Hsegs0.
    destruct (Hsegs0 ph (Hphs ph Hph)) as (_ & Hv & Hf & He). destruct (Hsegs ph (Hphs ph Hph)) as (Hs & _).
    eapply seg_in_same; [done| |exact Hs]. intros a Ha. apply Hold; [lia|]. apply Hi1. rewrite Hut. lia.
  - pose proof (down16_spec (args_sp top argv - (Z.of_nat (length argv) + 1) * 8)) as [Hd Hd16].
    fold (stack_sp top argv) in Hd, Hd16. pose proof (args_sp_le top argv). split; [done|]. destruct Hfit. lia.
  - intros va Hva. rewrite Hmap, (proj2 (Z.ltb_ge _ _)) by (unfold top, PGSIZE in *; lia). done.
  - intros va Hva. rewrite Hmap, (proj2 (Z.ltb_lt _ _)) by (unfold top, PGSIZE in *; lia). done.
Qed.

Lemma image_start s G l root ip c :
  aspace_ok s G l root → ef_content (fs s) ip = Some c → image s G l root (Some ip) c 0 [] s G l.
Proof.
  intros Has Hc. assert (H0 : PGROUNDUP 0 = 0) by (apply up_aligned; [rewrite MAXVA_eq; lia|done]).
  split; try done; rewrite ?H0.
  - by destruct s.
  - by intros i [= <-].
  - lia.
  - rewrite Z.div_0_l by done. lia.
Qed.

Lemma image_release s0 G0 l0 root ip c hi segs s G l :
  image s0 G0 l0 root (Some ip) c hi segs s G l →
  wp (liftF (ef_iunlockput ip);; liftF pf_end_op) s (λ _ s', image s0 G0 l0 root None c hi segs s' G l).
Proof.
  intros Hi. pose proof (ef_release_ok (fs s) ip c (im_file _ _ _ _ _ _ _ _ _ _ _ Hi ip eq_refl)) as Hr.
  unfold wp, mbind, M_bind, liftF in *. destruct (ef_iunlockput ip (fs s)) as [[[] f]| | | |]; try done.
  cbn [fs set_fs]. destruct (pf_end_op f) as [[[] f']| | | |]; try done.
  eapply (image_fs _ _ _ _ _ _ _ _ _ _ _ f' Hi). done.
Qed.

(** C3. The image of a new program: given a file whose segments follow each other
    and free pages for it, under a paging policy [exec] builds in a page table that
    is not in use an image of the exact size.  When the arguments fit on the stack
    page (at most [MAXARG] of them) it holds every segment at its address, with
    zeros after the bytes of the file, and a 16-byte aligned stack where [argv] is
    a null-terminated array of pointers to copies of the argument strings, above a
    guard page the user cannot access.  When they do not fit, exec fails with the
    size of the image for [bad] to free. *)
Theorem exec_image_built sel s G l root ip c elf argv :
  sel ≠ NONE → aspace_ok s G l root → ef_content (fs s) ip = Some c → Z.of_nat (length c) + PGSIZE < 2 ^ 31 →
  0 <= e_phoff elf → 0 <= e_phnum elf → e_phoff elf + sizeof_proghdr * e_phnum elf <= Z.of_nat (length c) →
  let phs := headers c (e_phoff elf) (Z.to_nat (e_phnum elf)) in
  let top := PGROUNDUP (segs_end 0 phs) + 2 * PGSIZE in
  segs_ok c 0 phs → top <= MAXVA → builds s root top → unused s root top →
  3 * (top / PGSIZE) <= Z.of_nat (length l) → Forall arg_ok argv →
  wp (exec_image sel elf root ip argv) s (λ r s', ∃ oldsz,
    (args_fit top argv ∧ r = (None, top, oldsz, Some (Z.of_nat (length argv), stack_sp top argv)) ∧
       program (mem s') root c phs top (stack_sp top argv) argv) ∨
    (¬ args_fit top argv ∧ r = (None, top, oldsz, None))).
Proof.
  intros Hsel Has Hc Hlen Hoff Hn Hend phs top Hsegs Hmax Hb Hu Hfree Hargs. unfold exec_image. pose proof MAXVA_eq as Hmx.
  assert (Hi32 : i32 (e_phoff elf) = e_phoff elf).
  { unfold sizeof_proghdr, PGSIZE in *. unfold i32. rewrite Z.mod_small by lia. lia. }
  rewrite Hi32. destruct (segs_end_le c 0 phs) as [He0 He1]; [lia|done|]. destruct (up_bounds (segs_end 0 phs)) as [Hup Hupm]; [lia|].
  assert (Hut : PGROUNDUP top = top).
  { apply up_aligned; [unfold top, PGSIZE in *; lia|]. unfold top, PGSIZE in *. Z.div_mod_to_equations. lia. }
  apply wp_bind. eapply wp_mono; [apply (exec_load_ok sel s G l root ip c top) with (segs := []) (G := G) (l := l)|].
  { done. } { done. } { done. } { by rewrite Hut. } { done. } { done. } { by apply image_start. } { lia. } { done. }
  { rewrite Z2Nat.id by done. done. } { done. } { fold phs. unfold top, PGSIZE. lia. }
  fold phs. intros r s1 (-> & G1 & l1 & segs & Hi1 & Hin). cbn [negb].
  apply wp_bind_assoc, wp_bind. eapply wp_mono; [by eapply image_release|]. intros u s2 Hi2. cbv beta in Hi2. clear u.
  pose proof (image_builds _ _ _ _ _ _ _ _ _ _ _ top top Hi2 Hb ltac:(lia)) as (i & p & Hp & _). apply wp_bind.
  eapply wp_myproc; [exact Hp|]. apply wp_bind. 
  eapply wp_mono; [apply (exec_stack_ok sel s G l root None c (segs_end 0 phs) segs s2 G1 l1 phs argv)|].
  { done. } { done. } { auto. } { done. } { done. } { done. } { lia. } { done. } { done. }
  fold top. intros r s3 Hr. apply wp_ret. exists (p_sz p).
  destruct Hr as [(Hfit & -> & Hpr)|[Hno ->]]; [by left|by right].
Qed.

End Image.
