(* ===== verification/Trap.v ===== *)
(** Entering and leaving the kernel: kernel/trampoline.S ([uservec], [userret]),
    kernel/trap.c, the dispatch of kernel/syscall.c and kernel/sysproc.c.

    The state adds to the kernel state the hart (its registers as seen by this
    code), [ticks], and the messages printed here.  A trap that does not come back
    to the user in one go ends in [Yielded], [Asleep] or [Exited]; the rest of it
    runs when the process is scheduled again. *)

From S2P Require Import Prelude Riscv Memory Str State Kalloc PageTable Paging Fault Uvm Proc Exec.

Definition SSTATUS_SPP : Z := Z.shiftl 1 8.
Definition SSTATUS_SPIE : Z := Z.shiftl 1 5.
Definition SSTATUS_SIE : Z := Z.shiftl 1 1.
Definition SATP_SV39 : Z := Z.shiftl 8 60.
Definition MAKE_SATP (pagetable : Z) : Z := Z.lor SATP_SV39 (Z.shiftr pagetable 12).

(** [x1] to [x31] are at their index in [regs]. *)
Record hart := mk_hart {
  regs : list Z;
  pc : Z;
  umode : bool;
  sstatus : Z;
  sepc : Z;
  scause : Z;
  stvec : Z;
  satp : Z;
  sscratch : Z;
  sip : Z
}.

Definition set_regs v h := mk_hart v (pc h) (umode h) (sstatus h) (sepc h) (scause h) (stvec h) (satp h) (sscratch h) (sip h).
Definition set_pc v h := mk_hart (regs h) v (umode h) (sstatus h) (sepc h) (scause h) (stvec h) (satp h) (sscratch h) (sip h).
Definition set_umode v h := mk_hart (regs h) (pc h) v (sstatus h) (sepc h) (scause h) (stvec h) (satp h) (sscratch h) (sip h).
Definition set_sstatus v h := mk_hart (regs h) (pc h) (umode h) v (sepc h) (scause h) (stvec h) (satp h) (sscratch h) (sip h).
Definition set_sepc v h := mk_hart (regs h) (pc h) (umode h) (sstatus h) v (scause h) (stvec h) (satp h) (sscratch h) (sip h).
Definition set_scause v h := mk_hart (regs h) (pc h) (umode h) (sstatus h) (sepc h) v (stvec h) (satp h) (sscratch h) (sip h).
Definition set_stvec v h := mk_hart (regs h) (pc h) (umode h) (sstatus h) (sepc h) (scause h) v (satp h) (sscratch h) (sip h).
Definition set_satp v h := mk_hart (regs h) (pc h) (umode h) (sstatus h) (sepc h) (scause h) (stvec h) v (sscratch h) (sip h).
Definition set_sscratch v h := mk_hart (regs h) (pc h) (umode h) (sstatus h) (sepc h) (scause h) (stvec h) (satp h) v (sip h).
Definition set_sip v h := mk_hart (regs h) (pc h) (umode h) (sstatus h) (sepc h) (scause h) (stvec h) (satp h) (sscratch h) v.

Definition reg (n : nat) (h : hart) : Z := default 0 (regs h !! n).
Definition put_reg (n : nat) (v : Z) (h : hart) : hart := set_regs (<[n := v]> (regs h)) h.

(** ** The hardware *)

Definition put_bit (n : Z) (b : bool) (x : Z) : Z := if b then Z.lor x (Z.shiftl 1 n) else Z.land x (Z.lnot (Z.shiftl 1 n)).

(** Taking a trap: the old mode and interrupt enable go to SPP and SPIE. *)
Definition hw_trap (cause : Z) (h : hart) : hart :=
  set_pc (stvec h) (set_umode false (set_sepc (pc h) (set_scause cause
    (set_sstatus (put_bit 1 false (put_bit 5 (Z.testbit (sstatus h) 1) (put_bit 8 (negb (umode h)) (sstatus h)))) h)))).

(** [sret] *)
Definition hw_sret (h : hart) : hart :=
  set_pc (sepc h) (set_umode (negb (Z.testbit (sstatus h) 8))
    (set_sstatus (put_bit 8 false (put_bit 5 true (put_bit 1 (Z.testbit (sstatus h) 5) (sstatus h)))) h)).

(** The page table [satp] points to. *)
Definition satp_root (x : Z) : Z := Z.shiftl (Z.land x (2 ^ 44 - 1)) 12.

(** Addresses the linker decides. *)
Class TrapCode := {
  uservec_off : Z;
  userret_off : Z;
  usertrap_addr : Z;
  kernelvec : Z;
  ticks_addr : Z
}.

Inductive trap_msg :=
| UnexpectedTrap (scause pid sepc stval : Z)
| UnknownCall (pid : Z) (name : list Z) (num : Z)
| UnexpectedIrq (irq : Z).

Record tst {F : Type} := mk_tst { ks : kst F; hrt : hart; ticks : Z; tlog : list trap_msg }.
Arguments tst F : clear implicits.
Arguments mk_tst {F} _ _ _ _.

Inductive trap_end := Returned | Yielded | Asleep | Exited.

(** The device drivers, and the system calls on files (kernel/sysfile.c): [None]
    is a call that went to sleep. *)
Class Devices (F : Type) := {
  dv_plic_claim : M (kst F) Z;
  dv_plic_complete : Z → M (kst F) unit;
  dv_uartintr : M (kst F) unit;
  dv_virtio_disk_intr : M (kst F) unit
}.
Class FileCalls (F : Type) := {
  fc_pipe : M (kst F) (option Z);
  fc_read : M (kst F) (option Z);
  fc_fstat : M (kst F) (option Z);
  fc_chdir : M (kst F) (option Z);
  fc_dup : M (kst F) (option Z);
  fc_open : M (kst F) (option Z);
  fc_write : M (kst F) (option Z);
  fc_mknod : M (kst F) (option Z);
  fc_unlink : M (kst F) (option Z);
  fc_link : M (kst F) (option Z);
  fc_mkdir : M (kst F) (option Z);
  fc_close : M (kst F) (option Z)
}.

Section Code.
Context {F : Type} {KI : KImage} {SW : SwapStore F} {PF : ProcFiles F} {EF : ExecFiles F} {KC : KCode}.
Context {TC : TrapCode} {DV : Devices F} {FC : FileCalls F}.

Definition liftK {A} (m : M (kst F) A) : M (tst F) A := λ t,
  match m (ks t) with
  | Ok (a, k) => Ok (a, mk_tst k (hrt t) (ticks t) (tlog t))
  | Panic msg => Panic msg
  | Wild a => Wild a
  | Exit st => Exit st
  | OutOfFuel => OutOfFuel
  end.
Definition on_cpu (f : hart → hart) : M (tst F) unit := modify (λ t, mk_tst (ks t) (f (hrt t)) (ticks t) (tlog t)).
Definition get_cpu {A} (f : hart → A) : M (tst F) A := gets (λ t, f (hrt t)).
Definition say (x : trap_msg) : M (tst F) unit := modify (λ t, mk_tst (ks t) (hrt t) (ticks t) (tlog t ++ [x])).

(** The accessors of riscv.h. *)
Definition r_sstatus : M (tst F) Z := get_cpu sstatus.
Definition w_sstatus (x : Z) : M (tst F) unit := on_cpu (set_sstatus x).
Definition r_sip : M (tst F) Z := get_cpu sip.
Definition w_sip (x : Z) : M (tst F) unit := on_cpu (set_sip x).
Definition r_sepc : M (tst F) Z := get_cpu sepc.
Definition w_sepc (x : Z) : M (tst F) unit := on_cpu (set_sepc x).
Definition w_stvec (x : Z) : M (tst F) unit := on_cpu (set_stvec x).
Definition r_satp : M (tst F) Z := get_cpu satp.
Definition r_scause : M (tst F) Z := get_cpu scause.
Definition r_tp : M (tst F) Z := get_cpu (reg 4).

(** ** trampoline.S *)

(** The physical address of [va] in the page table of [satp]. *)
Definition hw_addr (va : Z) : M (tst F) Z := λ t,
  let v := pte_of (mem (ks t)) (satp_root (satp (hrt t))) va in
  if Z.testbit v 0 then Ok (PTE2PA v + va mod PGSIZE, t) else Wild va.
Definition ld (va : Z) : M (tst F) Z := a ← hw_addr va; liftK (loadM a).
Definition sd (v va : Z) : M (tst F) unit := a ← hw_addr va; liftK (storeM a v).

(** [csrrw a0, sscratch, a0] *)
Definition swap_a0 (h : hart) : hart := set_sscratch (reg 10 h) (put_reg 10 (sscratch h) h).

(** All registers but [a0]; [xn] is kept at 32 + 8n in the trapframe. *)
Definition others : list nat := seq 1 9 ++ seq 11 21.
Definition slot (n : nat) : Z := 32 + 8 * Z.of_nat n.

(** Up to [jr t0]: where it jumps to. *)
Definition uservec : M (tst F) Z :=
  on_cpu swap_a0;;
  a0 ← get_cpu (reg 10);
  for_each others (λ n, v ← get_cpu (reg n); sd v (a0 + slot n));;
  t0 ← get_cpu sscratch;
  on_cpu (put_reg 5 t0);;
  sd t0 (a0 + 112);;
  sp ← ld (a0 + 8); on_cpu (put_reg 2 sp);;
  tp ← ld (a0 + 32); on_cpu (put_reg 4 tp);;
  t0 ← ld (a0 + 16); on_cpu (put_reg 5 t0);;
  t1 ← ld (a0 + 0); on_cpu (put_reg 6 t1);;
  on_cpu (set_satp t1);;
  mret t0.

Definition userret (a0 a1 : Z) : M (tst F) unit :=
  on_cpu (λ h, put_reg 10 a0 (put_reg 11 a1 h));;
  on_cpu (set_satp a1);;
  t0 ← ld (a0 + 112);
  on_cpu (λ h, set_sscratch t0 (put_reg 5 t0 h));;
  for_each others (λ n, v ← ld (a0 + slot n); on_cpu (put_reg n v));;
  on_cpu swap_a0;;
  on_cpu hw_sret.

(** ** kernel/sysproc.c *)

Definition sys_exit (sel : selection) : M (kst F) unit := n ← argint 0; exit sel n.
Definition sys_getpid : M (kst F) Z := p ← myproc; mret (w64 (p_pid p)).
Definition sys_fork (sel : selection) : M (kst F) Z := r ← fork sel; mret (w64 r).
Definition sys_wait (sel : selection) : M (kst F) (option Z) := p ← argaddr 0; r ← wait sel p; mret (w64 <$> r).
Definition sys_sbrk (sel : selection) : M (kst F) Z :=
  n ← argint 0;
  p ← myproc;
  let addr := i32 (p_sz p) in
  r ← growproc sel n;
  if r <? 0 then mret (w64 (-1)) else mret (w64 addr).
Definition sys_kill : M (kst F) Z := pid ← argint 0; r ← kill pid; mret (w64 r).

(** The loop of [sys_sleep] up to its return or the next [sleep]; [ticks] is a [uint]. *)
Definition sleep_round (n ticks0 : Z) : M (tst F) (option Z) :=
  t ← gets ticks;
  if w32 (t - ticks0) <? w32 n then
    p ← liftK myproc;
    if truth (p_killed p) then mret (Some (w64 (-1)))
    else liftK (sleep ticks_addr);; mret None
  else mret (Some 0).
Definition sys_sleep : M (tst F) (option Z) := n ← liftK (argint 0); ticks0 ← gets ticks; sleep_round n ticks0.
Definition sleep_resume (n ticks0 : Z) : M (tst F) (option Z) := liftK sleep_return;; sleep_round n ticks0.
Definition sys_uptime : M (tst F) Z := t ← gets ticks; mret t.

(** ** Dispatch *)

(** What a system call gives: a result, or how the process left the CPU. *)
Inductive call_end := Result (v : Z) | CallAsleep | CallExited.

Definition total {A} (m : M A Z) : M A call_end := v ← m; mret (Result v).
Definition blocking {A} (m : M A (option Z)) : M A call_end :=
  o ← m; mret (match o with Some v => Result v | None => CallAsleep end).

Definition syscalls (sel : selection) (num : Z) : option (M (tst F) call_end) :=
  match num with
  | 1 => Some (liftK (total (sys_fork sel)))
  | 2 => Some (liftK (sys_exit sel);; mret CallExited)
  | 3 => Some (liftK (blocking (sys_wait sel)))
  | 4 => Some (liftK (blocking fc_pipe))
  | 5 => Some (liftK (blocking fc_read))
  | 6 => Some (liftK (total sys_kill))
  | 7 => Some (liftK (total (r ← sys_exec sel; mret (w64 r))))
  | 8 => Some (liftK (blocking fc_fstat))
  | 9 => Some (liftK (blocking fc_chdir))
  | 10 => Some (liftK (blocking fc_dup))
  | 11 => Some (liftK (total sys_getpid))
  | 12 => Some (liftK (total (sys_sbrk sel)))
  | 13 => Some (blocking sys_sleep)
  | 14 => Some (total sys_uptime)
  | 15 => Some (liftK (blocking fc_open))
  | 16 => Some (liftK (blocking fc_write))
  | 17 => Some (liftK (blocking fc_mknod))
  | 18 => Some (liftK (blocking fc_unlink))
  | 19 => Some (liftK (blocking fc_link))
  | 20 => Some (liftK (blocking fc_mkdir))
  | 21 => Some (liftK (blocking fc_close))
  | _ => None
  end.

Definition TF_A7 : Z := 168.

(** [true] when the call returned; the return value goes to [a0]. *)
Definition syscall_ret (v : Z) : M (tst F) unit := p ← liftK myproc; liftK (storeM (p_trapframe p + TF_A0) v).
Definition syscall (sel : selection) : M (tst F) trap_end :=
  p ← liftK myproc;
  v ← liftK (loadM (p_trapframe p + TF_A7));
  let num := i32 v in
  match syscalls sel num with
  | Some call =>
    r ← call;
    match r with
    | Result v => syscall_ret v;; mret Returned
    | CallAsleep => mret Asleep
    | CallExited => mret Exited
    end
  | None => say (UnknownCall (p_pid p) (p_name p) num);; syscall_ret (w64 (-1));; mret Returned
  end.

(** ** trap.c *)

Definition trapinithart : M (tst F) unit := w_stvec kernelvec.

Definition intr_on : M (tst F) unit := x ← r_sstatus; w_sstatus (Z.lor x SSTATUS_SIE).
Definition intr_off : M (tst F) unit := x ← r_sstatus; w_sstatus (Z.land x (Z.lnot SSTATUS_SIE)).
Definition intr_get : M (tst F) bool := x ← r_sstatus; mret (truth (Z.land x SSTATUS_SIE)).
Definition cpuid : M (tst F) Z := tp ← r_tp; mret (i32 tp).

Definition clockintr : M (tst F) unit :=
  modify (λ t, mk_tst (ks t) (hrt t) (w32 (ticks t + 1)) (tlog t));;
  liftK (wakeup ticks_addr).

Definition devintr : M (tst F) Z :=
  cause ← r_scause;
  if truth (Z.land cause 0x8000000000000000) && (Z.land cause 0xff =? 9) then
    irq ← liftK dv_plic_claim;
    (if irq =? UART0_IRQ then liftK dv_uartintr
     else if irq =? VIRTIO0_IRQ then liftK dv_virtio_disk_intr
     else if truth irq then say (UnexpectedIrq irq) else mret tt);;
    (if truth irq then liftK (dv_plic_complete irq) else mret tt);;
    mret 1
  else if cause =? 0x8000000000000001 then
    id ← cpuid;
    (if id =? 0 then clockintr else mret tt);;
    x ← r_sip; w_sip (Z.land x (Z.lnot 2));;
    mret 2
  else mret 0.

Definition usertrapret : M (tst F) unit :=
  p ← liftK myproc;
  intr_off;;
  w_stvec (TRAMPOLINE + uservec_off);;
  x ← r_satp; liftK (storeM (p_trapframe p + 0) x);;
  liftK (storeM (p_trapframe p + 8) (w64 (p_kstack p + PGSIZE)));;
  liftK (storeM (p_trapframe p + 16) usertrap_addr);;
  x ← r_tp; liftK (storeM (p_trapframe p + 32) x);;
  x ← r_sstatus;
  let x := Z.land x (Z.lnot SSTATUS_SPP) in
  let x := Z.lor x SSTATUS_SPIE in
  w_sstatus x;;
  epc ← liftK (loadM (p_trapframe p + TF_EPC));
  w_sepc epc;;
  userret TRAPFRAME (MAKE_SATP (p_pagetable p)).

(** After the cause has been handled. *)
Definition usertrap_end (sel : selection) (which_dev : Z) : M (tst F) trap_end :=
  p ← liftK myproc;
  if truth (p_killed p) then liftK (exit sel (-1));; mret Exited
  else if which_dev =? 2 then liftK yield;; mret Yielded
  else usertrapret;; mret Returned.

Definition usertrap (sel : selection) : M (tst F) trap_end :=
  x ← r_sstatus;
  if truth (Z.land x SSTATUS_SPP) then panic "usertrap: not from user mode"
  else
    w_stvec kernelvec;;
    p ← liftK myproc;
    pc ← r_sepc;
    liftK (storeM (p_trapframe p + TF_EPC) pc);;
    cause ← r_scause;
    if cause =? 8 then
      if truth (p_killed p) then liftK (exit sel (-1));; mret Exited
      else
        epc ← liftK (loadM (p_trapframe p + TF_EPC));
        liftK (storeM (p_trapframe p + TF_EPC) (w64 (epc + 4)));;
        intr_on;;
        r ← syscall sel;
        match r with
        | Returned => usertrap_end sel 0
        | e => mret e
        end
    else if (2 <? p_pid p) && ((cause =? 13) || (cause =? 15) || (cause =? 12)) then
      liftK (handle_page_fault sel);;
      usertrap_end sel 0
    else
      which_dev ← devintr;
      (if which_dev =? 0 then
         pc ← r_sepc;
         st ← liftK (gets stval);
         say (UnexpectedTrap cause (p_pid p) pc st);;
         liftK (upd_myproc (set_p_killed 1))
       else mret tt);;
      usertrap_end sel which_dev.

(** [kerneltrap] up to its [yield] if it has one, and what follows. *)
Definition kerneltrap_ret (pc st : Z) : M (tst F) unit := w_sepc pc;; w_sstatus st.
Definition kerneltrap : M (tst F) trap_end :=
  pc ← r_sepc;
  st ← r_sstatus;
  cause ← r_scause;
  on ← intr_get;
  if negb (truth (Z.land st SSTATUS_SPP)) then panic "kerneltrap: not from supervisor mode"
  else if (on : bool) then panic "kerneltrap: interrupts enabled"
  else
    which_dev ← devintr;
    if which_dev =? 0 then panic "kerneltrap"
    else
      t ← gets ks;
      match cur t with
      | Some i =>
        p ← liftK myproc;
        if (which_dev =? 2) && bool_decide (p_state p = RUNNING) then liftK yield;; mret Yielded
        else kerneltrap_ret pc st;; mret Returned
      | None => kerneltrap_ret pc st;; mret Returned
      end.

(** A trap taken in user mode: the hardware, [uservec], [usertrap]. *)
Definition user_trap (sel : selection) (cause : Z) : M (tst F) trap_end :=
  on_cpu (hw_trap cause);;
  a ← get_cpu pc;
  if a =? TRAMPOLINE + uservec_off then
    fn ← uservec;
    if fn =? usertrap_addr then usertrap sel else wild fn
  else wild a.

End Code.
