(* ===== verification/TrapSpec.v ===== *)
(** A system call seen from the user (kernel/trampoline.S, kernel/trap.c,
    kernel/syscall.c): every register but [a0] comes back as it was, execution
    goes on after the [ecall], and the next trap finds everything in place. *)

From S2P Require Import Prelude Riscv Memory Str State Kalloc PageTable Paging PagingInv Fault Uvm UserCopy Proc Exec Trap.

Lemma put_bit_spec n b x i : 0 <= n → 0 <= i → Z.testbit (put_bit n b x) i = if i =? n then b else Z.testbit x i.
Proof.
  intros Hn Hi. unfold put_bit. destruct b.
  - rewrite Z.lor_spec, testbit_flag by done. destruct (i =? n); [apply orb_true_r|apply orb_false_r].
  - rewrite testbit_clear by done. destruct (i =? n); [apply andb_false_r|apply andb_true_r].
Qed.

Section Trap.
Context {F : Type} {KI : KImage} {KOK : KImageOk KI} {SW : SwapStore F} {PF : ProcFiles F} {EF : ExecFiles F} {KC : KCode}.
Context {TC : TrapCode} {DV : Devices F} {FC : FileCalls F}.
Implicit Types (s : kst F) (t : tst F).

Lemma wp_liftK {A} (m : M (kst F) A) t (Q : A → tst F → Prop) :
  wp m (ks t) (λ a k, Q a (mk_tst k (hrt t) (ticks t) (tlog t))) → wp (liftK m) t Q.
Proof. unfold wp, liftK. destruct (m (ks t)) as [[a k]| | | |]; done. Qed.

Lemma wp_on_cpu f t (Q : unit → tst F → Prop) : Q tt (mk_tst (ks t) (f (hrt t)) (ticks t) (tlog t)) → wp (on_cpu f) t Q.
Proof. done. Qed.

Lemma wp_get_cpu {A} (f : hart → A) t (Q : A → tst F → Prop) : Q (f (hrt t)) t → wp (get_cpu f) t Q.
Proof. done. Qed.

(** The current process and its trapframe page, mapped at [TRAPFRAME]. *)
Record frame s (G : gmap Z usage) (l : list Z) (i : nat) (p : proc) : Prop := {
  fr_proc : proc_at s i p;
  fr_wf : vm_wf s G l;
  fr_root : is_root G (p_pagetable p);
  fr_page : G !! p_trapframe p = Some UOther;
  fr_map : Z.testbit (pte_of (mem s) (p_pagetable p) TRAPFRAME) 0 = true ∧
    PTE2PA (pte_of (mem s) (p_pagetable p) TRAPFRAME) = p_trapframe p
}.

(** Word [k] of the trapframe. *)
Definition tfw s (p : proc) (k : Z) : Z := load64 (mem s) (p_trapframe p + 8 * k).

Lemma frame_store s G l i p k v (Q : unit → kst F → Prop) :
  frame s G l i p → 0 <= k < 36 → 0 <= v < 2 ^ 64 →
  (∀ s', frame s' G l i p → (∀ j, 0 <= j < 36 → tfw s' p j = if decide (j = k) then v else tfw s p j) → Q tt s') →
  wp (storeM (p_trapframe p + 8 * k) v) s Q.
Proof.
  intros [Hp Hwf Hr Hg [HV HP]] Hk Hv HQ. pose proof (wf_page _ _ _ Hwf _ _ Hg) as Hok. pose proof (page_ok_end _ Hok).
  apply wp_storeM; [destruct Hok; lia|unfold PGSIZE in *; lia|done|]. intros m' Hld Hoff. apply HQ.
  - assert (Hoff' : agree_off (p_trapframe p) (mem s) m') by (eapply same_off_weaken; [exact Hoff|lia|unfold PGSIZE; lia]).
    destruct (vm_wf_data s (set_mem m' s) G l _ _ Hwf eq_refl Hg I Hoff') as (Hwf' & Hpt & _).
    split; [done|done|done|done|]. cbn [mem set_mem]. by rewrite (pte_of_agree s G l m').
  - intros j Hj. unfold tfw. cbn [mem set_mem]. case_decide; [by subst|].
    eapply same_off_load64; [exact Hoff|lia].
Qed.

Lemma frame_load s G l i p k (Q : Z → kst F → Prop) :
  frame s G l i p → 0 <= k < 36 → Q (tfw s p k) s → wp (loadM (p_trapframe p + 8 * k)) s Q.
Proof.
  intros [Hp Hwf Hr Hg _] Hk HQ. pose proof (wf_page _ _ _ Hwf _ _ Hg) as Hok. pose proof (page_ok_end _ Hok).
  apply wp_loadM; [destruct Hok; lia|unfold PGSIZE in *; lia|done].
Qed.

(** ** The trampoline's accesses *)

Lemma satp_root_make root : page_ok root → satp_root (MAKE_SATP root) = root.
Proof.
  intros Hok. pose proof (page_ok_pos _ Hok). destruct Hok as [Hal _]. unfold satp_root, MAKE_SATP.
  rewrite Z.land_lor_distr_l. replace (Z.land SATP_SV39 (2 ^ 44 - 1)) with 0 by done. rewrite Z.lor_0_l.
  replace (2 ^ 44 - 1) with (Z.ones 44) by done. rewrite Z.land_ones by lia. rewrite Z.shiftr_div_pow2, Z.shiftl_mul_pow2 by lia.
  unfold PGSIZE in Hal. rewrite Z.mod_small; [|change (2 ^ 12) with 4096; split; [apply Z.div_pos; lia|apply Z.div_lt_upper_bound; lia]].
  change (2 ^ 12) with 4096. Z.div_mod_to_equations. lia.
Qed.

Lemma hw_addr_ok t G l i p k (Q : Z → tst F → Prop) :
  frame (ks t) G l i p → satp (hrt t) = MAKE_SATP (p_pagetable p) → 0 <= k < 36 →
  Q (p_trapframe p + 8 * k) t → wp (hw_addr (TRAPFRAME + 8 * k)) t Q.
Proof.
  intros [Hp Hwf Hr Hg [HV HP]] Hs Hk HQ. unfold wp, hw_addr. rewrite Hs, satp_root_make by (by eapply wf_page).
  assert (Hd : (TRAPFRAME + 8 * k) / PGSIZE = TRAPFRAME / PGSIZE ∧ (TRAPFRAME + 8 * k) mod PGSIZE = 8 * k).
  { replace TRAPFRAME with (67108862 * 4096) by done. unfold PGSIZE. split.
    - rewrite Z.div_add_l by lia. rewrite Z.div_small by lia. rewrite Z.div_mul by lia. lia.
    - rewrite Z.add_comm, Z_mod_plus_full. apply Z.mod_small. lia. }
  destruct Hd as [Hd Hm]. rewrite (pte_of_page _ _ _ TRAPFRAME Hd), HV, HP, Hm. done.
Qed.

Lemma sd_ok t G l i p k v (Q : unit → tst F → Prop) :
  frame (ks t) G l i p → satp (hrt t) = MAKE_SATP (p_pagetable p) → 0 <= k < 36 → 0 <= v < 2 ^ 64 →
  (∀ s', frame s' G l i p → (∀ j, 0 <= j < 36 → tfw s' p j = if decide (j = k) then v else tfw (ks t) p j) →
     Q tt (mk_tst s' (hrt t) (ticks t) (tlog t))) →
  wp (sd v (TRAPFRAME + 8 * k)) t Q.
Proof.
  intros Hf Hs Hk Hv HQ. unfold sd. apply wp_bind. eapply hw_addr_ok; [done..|]. apply wp_liftK.
  eapply frame_store; [done..|]. exact HQ.
Qed.

Lemma ld_ok t G l i p k (Q : Z → tst F → Prop) :
  frame (ks t) G l i p → satp (hrt t) = MAKE_SATP (p_pagetable p) → 0 <= k < 36 →
  Q (tfw (ks t) p k) t → wp (ld (TRAPFRAME + 8 * k)) t Q.
Proof.
  intros Hf Hs Hk HQ. unfold ld. apply wp_bind. eapply hw_addr_ok; [done..|]. apply wp_liftK.
  eapply frame_load; [done..|]. by destruct t.
Qed.

(** ** Saving and restoring *)

Definition hart_ok (h : hart) : Prop := length (regs h) = 32%nat ∧ ∀ n, 0 <= reg n h < 2 ^ 64.

Lemma reg_put n v m h : (n < length (regs h))%nat → reg m (put_reg n v h) = if decide (m = n) then v else reg m h.
Proof.
  intros Hn. unfold reg, put_reg. cbn [regs set_regs]. case_decide; [subst; by rewrite list_lookup_insert_eq|].
  by rewrite list_lookup_insert_ne.
Qed.

Lemma hart_ok_put n v h : hart_ok h → (n < 32)%nat → 0 <= v < 2 ^ 64 → hart_ok (put_reg n v h).
Proof.
  intros [H1 H2] Hn Hv. split; [unfold put_reg; cbn [regs set_regs]; by rewrite length_insert|].
  intros m. rewrite reg_put by lia. by case_decide.
Qed.

(** The words of the trapframe as a function. *)
Definition words_are s p (T : Z → Z) : Prop := ∀ j, 0 <= j < 36 → tfw s p j = T j.

Lemma save_ok ns t G l i p T (Q : unit → tst F → Prop) :
  frame (ks t) G l i p → satp (hrt t) = MAKE_SATP (p_pagetable p) → hart_ok (hrt t) → words_are (ks t) p T →
  Forall (λ n, 1 <= n <= 31)%nat ns →
  (∀ s', frame s' G l i p →
     words_are s' p (λ j, if decide (4 <= j ∧ Z.to_nat (j - 4) ∈ ns) then reg (Z.to_nat (j - 4)) (hrt t) else T j) →
     Q tt (mk_tst s' (hrt t) (ticks t) (tlog t))) →
  wp (for_each ns (λ n, v ← get_cpu (reg n); sd v (TRAPFRAME + slot n))) t Q.
Proof.
  revert t T. induction ns as [|n ns IH]; intros t T Hf Hs Hh HT Hns HQ; cbn [for_each].
  { apply wp_ret. destruct t as [s h tk lg]. apply HQ; [done|]. intros j Hj. rewrite decide_False; [by apply HT|].
    intros [_ Hin]. by apply elem_of_nil in Hin. }
  apply list.Forall_cons in Hns as [Hn Hns]. apply wp_bind, wp_bind, wp_get_cpu.
  replace (TRAPFRAME + slot n) with (TRAPFRAME + 8 * (4 + Z.of_nat n)) by (unfold slot; lia).
  eapply sd_ok; [done|done|lia|apply Hh|]. intros s1 Hf1 HT1.
  eapply (IH (mk_tst s1 (hrt t) (ticks t) (tlog t)) (λ j, if decide (j = 4 + Z.of_nat n) then reg n (hrt t) else T j)); try done.
  { intros j Hj. cbn [ks]. rewrite HT1 by done. case_decide; [done|by apply HT]. }
  cbn [ks hrt ticks tlog]. intros s2 Hf2 HT2. apply HQ; [done|]. intros j Hj. rewrite HT2 by done.
  destruct (decide (4 <= j ∧ Z.to_nat (j - 4) ∈ ns)) as [[H1 H2]|Hno].
  { by rewrite decide_True by (split; [done|by right]). }
  destruct (decide (j = 4 + Z.of_nat n)) as [->|Hne].
  - replace (Z.to_nat (4 + Z.of_nat n - 4)) with n by lia. rewrite decide_True by (split; [lia|left]). done.
  - rewrite decide_False; [done|]. intros [H1 [H2|H2]%elem_of_cons]; [lia|]. by apply Hno.
Qed.

Lemma restore_ok ns t G l i p T (Q : unit → tst F → Prop) :
  frame (ks t) G l i p → satp (hrt t) = MAKE_SATP (p_pagetable p) → hart_ok (hrt t) → words_are (ks t) p T →
  Forall (λ n, 1 <= n <= 31)%nat ns →
  (∀ h', h' = set_regs (regs h') (hrt t) → hart_ok h' →
     (∀ n, reg n h' = if decide (n ∈ ns) then T (4 + Z.of_nat n) else reg n (hrt t)) →
     Q tt (mk_tst (ks t) h' (ticks t) (tlog t))) →
  wp (for_each ns (λ n, v ← ld (TRAPFRAME + slot n); on_cpu (put_reg n v))) t Q.
Proof.
  revert t. induction ns as [|n ns IH]; intros t Hf Hs Hh HT Hns HQ; cbn [for_each].
  { apply wp_ret. destruct t as [s h tk lg]. apply HQ; [by destruct h|done|]. intros n. rewrite decide_False; [done|].
    intros Hin. by apply elem_of_nil in Hin. }
  apply list.Forall_cons in Hns as [Hn Hns]. apply wp_bind, wp_bind.
  replace (TRAPFRAME + slot n) with (TRAPFRAME + 8 * (4 + Z.of_nat n)) by (unfold slot; lia).
  eapply ld_ok; [done|done|lia|]. apply wp_on_cpu. set (t1 := mk_tst _ _ _ _).
  assert (Hw : tfw (ks t) p (4 + Z.of_nat n) = T (4 + Z.of_nat n)) by (apply HT; lia).
  assert (Hh1 : hart_ok (hrt t1)) by (apply hart_ok_put; [done|lia|apply load64_range]).
  apply (IH t1); try done. intros h' He Hh' Hr. apply HQ; [|done|].
  - rewrite He. by destruct (hrt t).
  - intros m. rewrite Hr. destruct (decide (m ∈ ns)); [by rewrite decide_True by (by right)|].
    unfold t1. cbn [hrt]. rewrite reg_put by (destruct Hh; lia). destruct (decide (m = n)) as [->|].
    + rewrite decide_True by left. done.
    + rewrite decide_False; [done|]. by intros [?|?]%elem_of_cons.
Qed.

Lemma others_range : Forall (λ n, 1 <= n <= 31)%nat others.
Proof. apply Forall_app_2; apply Forall_seq; lia. Qed.

Lemma others_spec n : n ∈ others ↔ (1 <= n <= 31)%nat ∧ n ≠ 10%nat.
Proof. unfold others. rewrite elem_of_app, !elem_of_seq. lia. Qed.

(** What [h'] shares with [h] but for registers, [satp] and [sscratch]. *)
Definition same_csrs (h h' : hart) : Prop :=
  sstatus h' = sstatus h ∧ sepc h' = sepc h ∧ scause h' = scause h ∧ stvec h' = stvec h ∧ umode h' = umode h.

Lemma TRAPFRAME_range : 0 <= TRAPFRAME < 2 ^ 64.
Proof. by split; vm_compute. Qed.

(** A word of the trapframe into a register. *)
Lemma ld_put t G l i p k n {A} (rest : Z → M (tst F) A) (Q : A → tst F → Prop) :
  frame (ks t) G l i p → satp (hrt t) = MAKE_SATP (p_pagetable p) → hart_ok (hrt t) → 0 <= k < 36 → (n < 32)%nat →
  (let h' := put_reg n (tfw (ks t) p k) (hrt t) in hart_ok h' →
     wp (rest (tfw (ks t) p k)) (mk_tst (ks t) h' (ticks t) (tlog t)) Q) →
  wp (x ← ld (TRAPFRAME + 8 * k); on_cpu (put_reg n x);; rest x) t Q.
Proof.
  intros Hf Hs Hh Hk Hn HQ. apply wp_bind. eapply ld_ok; [done..|]. apply wp_bind, wp_on_cpu.
  apply HQ, hart_ok_put; [done|done|apply load64_range].
Qed.

Lemma uservec_ok t G l i p T :
  frame (ks t) G l i p → satp (hrt t) = MAKE_SATP (p_pagetable p) → hart_ok (hrt t) → sscratch (hrt t) = TRAPFRAME →
  words_are (ks t) p T →
  wp uservec t (λ a t1, a = T 2 ∧ frame (ks t1) G l i p ∧ ticks t1 = ticks t ∧ tlog t1 = tlog t ∧
    words_are (ks t1) p (λ j, if decide (5 <= j) then reg (Z.to_nat (j - 4)) (hrt t) else T j) ∧
    satp (hrt t1) = T 0 ∧ reg 4 (hrt t1) = T 4 ∧ hart_ok (hrt t1) ∧ same_csrs (hrt t) (hrt t1)).
Proof.
  intros Hf Hs Hh Hsc HT. destruct t as [s h tk lg]. cbn [ks hrt ticks tlog] in *. unfold uservec.
  apply wp_bind, wp_on_cpu, wp_bind, wp_get_cpu. cbn [hrt ks ticks tlog]. set (h1 := swap_a0 h).
  pose proof Hh as [Hlen Hrange]. pose proof TRAPFRAME_range as Htf.
  assert (Hr1 : ∀ m, reg m h1 = if decide (m = 10%nat) then TRAPFRAME else reg m h).
  { intros m. unfold h1, swap_a0. rewrite <- Hsc. apply (reg_put 10 (sscratch h) m h). lia. }
  assert (Hh1 : hart_ok h1).
  { split; [unfold h1, swap_a0, put_reg; cbn; by rewrite length_insert|]. intros m. rewrite Hr1. by case_decide. }
  rewrite (Hr1 10%nat), decide_True by done.
  apply wp_bind. eapply (save_ok others (mk_tst s h1 tk lg) G l i p T); [done|done|done|done|apply others_range|].
  cbn [hrt ticks tlog]. intros s1 Hf1 HT1. apply wp_bind, wp_get_cpu, wp_bind, wp_on_cpu. cbn [hrt ks ticks tlog].
  change (sscratch h1) with (reg 10 h). set (h2 := put_reg 5 (reg 10 h) h1).
  assert (Hh2 : hart_ok h2) by (apply hart_ok_put; [done|lia|apply Hrange]).
  apply wp_bind. change (TRAPFRAME + 112) with (TRAPFRAME + 8 * 14).
  eapply (sd_ok (mk_tst s1 h2 tk lg) G l i p); [done|done|lia|apply Hrange|]. cbn [hrt ks ticks tlog]. intros s2 Hf2 HT2.
  assert (HT3 : words_are s2 p (λ j, if decide (5 <= j) then reg (Z.to_nat (j - 4)) h else T j)).
  { intros j Hj. rewrite HT2 by done. destruct (decide (j = 14)) as [->|Hne]; [done|]. rewrite HT1 by done.
    destruct (decide (4 <= j ∧ Z.to_nat (j - 4) ∈ others)) as [[H1 H2%others_spec]|Hno].
    - rewrite decide_True by lia. rewrite Hr1, decide_False by lia. done.
    - rewrite decide_False; [done|]. intros H5. apply Hno. split; [lia|]. apply others_spec. lia. }
  clear HT1 HT2 Hf1 s1.
  assert (Hw : ∀ k, 0 <= k < 5 → tfw s2 p k = T k) by (intros k Hk; rewrite HT3 by lia; by rewrite decide_False by lia).
  change (TRAPFRAME + 8) with (TRAPFRAME + 8 * 1). change (TRAPFRAME + 32) with (TRAPFRAME + 8 * 4).
  change (TRAPFRAME + 16) with (TRAPFRAME + 8 * 2). change (TRAPFRAME + 0) with (TRAPFRAME + 8 * 0).
  eapply (ld_put (mk_tst s2 h2 tk lg)); [done|done|done|lia|lia|]. intros h3 Hh3.
  eapply (ld_put (mk_tst s2 h3 tk lg)); [done|done|done|lia|lia|]. intros h4 Hh4.
  eapply (ld_put (mk_tst s2 h4 tk lg)); [done|done|done|lia|lia|]. intros h5 Hh5.
  eapply (ld_put (mk_tst s2 h5 tk lg)); [done|done|done|lia|lia|]. intros h6 Hh6.
  apply wp_bind, wp_on_cpu, wp_ret. cbn [hrt ks ticks tlog]. rewrite !Hw by lia.
  split_and!; [done|done|done|done|done|done| |done|done].
  change (reg 4 (set_satp (T 0) h6)) with (reg 4 h6). unfold h6, h5. cbn [hrt ks]. 
  rewrite !reg_put by (destruct Hh4 as [H4 _], Hh5 as [H5 _]; cbn [hrt ks] in *; fold h5; lia).
  cbn. unfold h4. cbn [hrt ks]. rewrite reg_put by (destruct Hh3 as [H3 _]; lia). cbn. apply Hw. lia.
Qed.

(** The registers as [userret] leaves them. *)
Definition user_regs (T : Z → Z) (h : hart) : Prop := ∀ n, (1 <= n <= 31)%nat → reg n h = T (4 + Z.of_nat n).

Lemma userret_ok t G l i p T :
  frame (ks t) G l i p → hart_ok (hrt t) → words_are (ks t) p T → 0 <= MAKE_SATP (p_pagetable p) < 2 ^ 64 →
  Z.testbit (sstatus (hrt t)) 8 = false → Z.testbit (sstatus (hrt t)) 5 = true →
  wp (userret TRAPFRAME (MAKE_SATP (p_pagetable p))) t (λ _ t1, ks t1 = ks t ∧ ticks t1 = ticks t ∧ tlog t1 = tlog t ∧
    hart_ok (hrt t1) ∧ user_regs T (hrt t1) ∧ pc (hrt t1) = sepc (hrt t) ∧ umode (hrt t1) = true ∧
    stvec (hrt t1) = stvec (hrt t) ∧ satp (hrt t1) = MAKE_SATP (p_pagetable p) ∧ sscratch (hrt t1) = TRAPFRAME ∧
    Z.testbit (sstatus (hrt t1)) 1 = true).
Proof.
  intros Hf Hh HT Hsr H8 H5. destruct t as [s h tk lg]. cbn [ks hrt ticks tlog] in *. unfold userret. pose proof TRAPFRAME_range as Htf.
  apply wp_bind, wp_on_cpu, wp_bind, wp_on_cpu. cbn [ks hrt ticks tlog]. set (a1 := MAKE_SATP (p_pagetable p)) in *.
  set (h1 := set_satp a1 (put_reg 10 TRAPFRAME (put_reg 11 a1 h))).
  assert (Hh1 : hart_ok h1) by (apply (hart_ok_put 10); [apply (hart_ok_put 11); [done|lia|done]|lia|done]).
  apply wp_bind. change (TRAPFRAME + 112) with (TRAPFRAME + 8 * 14).
  eapply (ld_ok (mk_tst s h1 tk lg)); [done|done|lia|]. apply wp_bind, wp_on_cpu. cbn [ks hrt ticks tlog].
  rewrite HT by lia. set (h2 := set_sscratch (T 14) (put_reg 5 (T 14) h1)).
  assert (Hh2 : hart_ok h2) by (apply (hart_ok_put 5); [done|lia|rewrite <- HT by lia; apply load64_range]).
  apply wp_bind. eapply (restore_ok others (mk_tst s h2 tk lg)); [done|done|done|done|apply others_range|].
  cbn [hrt ks ticks tlog]. intros h3 He Hh3 Hr3. apply wp_bind, wp_on_cpu, wp_on_cpu. cbn [ks hrt ticks tlog].
  assert (Hr10 : reg 10 h3 = TRAPFRAME).
  { rewrite Hr3, decide_False by (rewrite others_spec; lia). change (reg 10 (put_reg 5 (T 14) h1) = TRAPFRAME).
    rewrite reg_put by (destruct Hh1; lia). cbn. change (reg 10 (put_reg 10 TRAPFRAME (put_reg 11 a1 h)) = TRAPFRAME).
    rewrite reg_put; [done|]. unfold put_reg. cbn. rewrite length_insert. destruct Hh. lia. }
  assert (Hsc : sscratch h3 = T 14) by (rewrite He; done).
  split_and!; [done|done|done| | |rewrite He; done| |rewrite He; done|rewrite He; done|done|].
  - change (hart_ok (put_reg 10 (sscratch h3) h3)). apply hart_ok_put; [done|lia|]. rewrite Hsc, <- HT by lia. apply load64_range.
  - intros n Hn. change (reg n (put_reg 10 (sscratch h3) h3) = T (4 + Z.of_nat n)). rewrite reg_put by (destruct Hh3; lia).
    destruct (decide (n = 10%nat)) as [->|]; [done|]. rewrite Hr3, decide_True; [done|]. apply others_spec. lia.
  - change (negb (Z.testbit (sstatus h3) 8) = true). rewrite He. cbn. by rewrite H8.
  - change (Z.testbit (put_bit 8 false (put_bit 5 true (put_bit 1 (Z.testbit (sstatus h3) 5) (sstatus h3)))) 1 = true).
    rewrite !put_bit_spec by lia. cbn. rewrite He. done.
Qed.

(** What [usertrapret] prepares for the next trap. *)
Definition prepared (p : proc) (K hid : Z) (T : Z → Z) (j : Z) : Z :=
  if j =? 0 then K else if j =? 1 then w64 (p_kstack p + PGSIZE)
  else if j =? 2 then usertrap_addr else if j =? 4 then hid else T j.

(** A process in user mode, ready to trap: [K] is the kernel's [satp], [hid] the
    number of the hart. *)
Record user_ready t (G : gmap Z usage) (l : list Z) (i : nat) (p : proc) (K hid : Z) : Prop := {
  ur_frame : frame (ks t) G l i p;
  ur_hart : hart_ok (hrt t);
  ur_mode : umode (hrt t) = true;
  ur_satp : satp (hrt t) = MAKE_SATP (p_pagetable p);
  ur_stvec : stvec (hrt t) = TRAMPOLINE + uservec_off;
  ur_sscratch : sscratch (hrt t) = TRAPFRAME;
  ur_kernel : words_are (ks t) p (prepared p K hid (tfw (ks t) p))
}.

Lemma satp_range root : page_ok root → 0 <= MAKE_SATP root < 2 ^ 64.
Proof.
  intros Hok. pose proof (page_ok_pos _ Hok). unfold MAKE_SATP. rewrite Z.shiftr_div_pow2 by lia.
  assert (0 <= root / 2 ^ 12 < 2 ^ 44) by (split; [apply Z.div_pos; lia|apply Z.div_lt_upper_bound; lia]).
  change SATP_SV39 with (2 ^ 63). split; [apply Z.lor_nonneg; lia|].
  apply (Z.log2_lt_cancel _ (2 ^ 64)). rewrite Z.log2_lor by lia. apply Z.max_lub_lt; [done|].
  eapply Z.le_lt_trans; [apply Z.log2_le_mono, Z.lt_le_incl, H0|done].
Qed.

(** Stores of the kernel into the trapframe. *)
Lemma store_word t G l i p T k v {A} (rest : M (tst F) A) (Q : A → tst F → Prop) :
  frame (ks t) G l i p → words_are (ks t) p T → 0 <= k < 36 → 0 <= v < 2 ^ 64 →
  (∀ s', frame s' G l i p → words_are s' p (λ j, if j =? k then v else T j) →
     wp rest (mk_tst s' (hrt t) (ticks t) (tlog t)) Q) →
  wp (liftK (storeM (p_trapframe p + 8 * k) v);; rest) t Q.
Proof.
  intros Hf HT Hk Hv HQ. apply wp_bind, wp_liftK. eapply frame_store; [done..|]. intros s' Hf' HT'. apply HQ; [done|].
  intros j Hj. rewrite HT' by done. destruct (decide (j = k)) as [->|]; [by rewrite Z.eqb_refl|].
  rewrite (proj2 (Z.eqb_neq _ _)) by done. by apply HT.
Qed.

Lemma words_ext s p T T' : words_are s p T → (∀ j, 0 <= j < 36 → T j = T' j) → words_are s p T'.
Proof. intros H He j Hj. rewrite <- He by done. by apply H. Qed.

Lemma frame_myproc t G l i p {A} (rest : proc → M (tst F) A) (Q : A → tst F → Prop) :
  frame (ks t) G l i p → wp (rest p) t Q → wp (q ← liftK myproc; rest q) t Q.
Proof. intros [Hp _ _ _ _] HQ. apply wp_bind, wp_liftK. eapply wp_myproc; [exact Hp|]. by destruct t. Qed.

Lemma usertrapret_ok t G l i p T K hid :
  frame (ks t) G l i p → hart_ok (hrt t) → words_are (ks t) p T → satp (hrt t) = K → 0 <= K < 2 ^ 64 →
  reg 4 (hrt t) = hid → 0 <= usertrap_addr < 2 ^ 64 →
  wp usertrapret t (λ _ t1, user_ready t1 G l i p K hid ∧ ticks t1 = ticks t ∧ tlog t1 = tlog t ∧
    user_regs T (hrt t1) ∧ pc (hrt t1) = T 3 ∧ Z.testbit (sstatus (hrt t1)) 1 = true).
Proof.
  intros Hf Hh HT HK HKr Hid Hut. destruct t as [s h tk lg]. cbn [ks hrt ticks tlog] in *. unfold usertrapret.
  eapply frame_myproc; [done|]. apply wp_bind, wp_on_cpu, wp_bind, wp_on_cpu, wp_bind, wp_get_cpu. cbn [ks hrt ticks tlog].
  set (h1 := set_stvec _ _). assert (Hh1 : hart_ok h1) by done. change (satp h1) with (satp h). rewrite HK.
  change (p_trapframe p + 0) with (p_trapframe p + 8 * 0). change (p_trapframe p + 8) with (p_trapframe p + 8 * 1).
  change (p_trapframe p + 16) with (p_trapframe p + 8 * 2). change (p_trapframe p + 32) with (p_trapframe p + 8 * 4).
  change (p_trapframe p + TF_EPC) with (p_trapframe p + 8 * 3).
  eapply (store_word (mk_tst s h1 tk lg)); [done|done|lia|done|]. intros s1 Hf1 HT1.
  eapply (store_word (mk_tst s1 h1 tk lg)); [done|done|lia|apply Z.mod_pos_bound; lia|]. intros s2 Hf2 HT2.
  eapply (store_word (mk_tst s2 h1 tk lg)); [done|done|lia|done|]. intros s3 Hf3 HT3.
  apply wp_bind, wp_get_cpu. cbn [hrt]. replace (reg 4 h1) with hid by (rewrite <- Hid; done).
  eapply (store_word (mk_tst s3 h1 tk lg)); [done|done|lia|rewrite <- Hid; apply Hh|]. intros s4 Hf4 HT4. cbn [ks hrt ticks tlog] in *.
  apply words_ext with (T' := prepared p K hid T) in HT4.
  2: { intros j Hj. unfold prepared. repeat case_match; try done; lia. }
  clear HT1 HT2 HT3 Hf1 Hf2 Hf3 s1 s2 s3.
  apply wp_bind, wp_get_cpu, wp_bind, wp_on_cpu. cbn [ks hrt ticks tlog].
  apply wp_bind, wp_liftK. eapply frame_load; [done|lia|]. rewrite HT4 by lia. change (prepared p K hid T 3) with (T 3).
  apply wp_bind, wp_on_cpu. cbn [ks hrt ticks tlog].
  match goal with |- wp _ (mk_tst _ ?h _ _) _ => set (h2 := h) end. assert (Hh2 : hart_ok h2) by done.
  eapply wp_mono; [apply (userret_ok (mk_tst s4 h2 tk lg) G l i p (prepared p K hid T)); try done|].
  - apply satp_range. destruct Hf as [_ Hwf Hr _ _]. by eapply wf_page.
  - cbn [hrt h2 sstatus set_sepc set_sstatus]. unfold h2. cbn [sstatus set_sepc set_sstatus].
    rewrite (testbit_set _ 5), (testbit_clear _ 8) by lia. cbn. by rewrite andb_false_r.
  - unfold h2. cbn [hrt sstatus set_sepc set_sstatus]. rewrite (testbit_set _ 5) by lia. by rewrite orb_true_r.
  - cbn [ks hrt ticks tlog]. intros _ t1 (Hks & Htk & Hlg & Hht & Hur & Hpc & Hum & Hsv & Hsa & Hss & Hie).
    split_and!; [|done|done| |done|done].
    + split; rewrite ?Hks; try done. eapply words_ext; [exact HT4|]. intros j Hj. unfold prepared.
      repeat case_match; try done. by rewrite HT4 by lia; unfold prepared; repeat case_match.
    + intros n Hn. rewrite Hur by done. unfold prepared. repeat case_match; try done; lia.
Qed.

(** The state in which the kernel runs the system call of a user in state [t]. *)
Record in_call t (G : gmap Z usage) (l : list Z) (i : nat) (p : proc) t1 : Prop := {
  ic_frame : frame (ks t1) G l i p;
  ic_args : user_regs (tfw (ks t1) p) (hrt t);
  ic_epc : tfw (ks t1) p 3 = w64 (pc (hrt t) + 4);
  ic_ticks : ticks t1 = ticks t
}.

(** The call returns [v] and leaves the trapframe of the process alone. *)
Definition call_returns t G l i p (call : M (tst F) call_end) (v : Z) : Prop :=
  ∀ t1, in_call t G l i p t1 → wp call t1 (λ r t2, r = Result v ∧ hrt t2 = hrt t1 ∧
    ∃ G' l' p', frame (ks t2) G' l' i p' ∧ p_trapframe p' = p_trapframe p ∧ p_pagetable p' = p_pagetable p ∧
      p_kstack p' = p_kstack p ∧ p_killed p' = 0 ∧ ∀ j, 3 <= j < 36 → tfw (ks t2) p' j = tfw (ks t1) p j).

Lemma syscall_returns sel t G l i p t1 call v :
  in_call t G l i p t1 → 0 <= v < 2 ^ 64 → syscalls sel (i32 (reg 17 (hrt t))) = Some call → call_returns t G l i p call v →
  wp (syscall sel) t1 (λ e t2, e = Returned ∧ hrt t2 = hrt t1 ∧ ∃ G' l' p', frame (ks t2) G' l' i p' ∧ p_killed p' = 0 ∧
    ∀ j, 3 <= j < 36 → tfw (ks t2) p' j = if j =? 14 then v else tfw (ks t1) p j).
Proof.
  intros Hin Hv Hcall Hret. pose proof Hin as [Hf Hargs _ _]. unfold syscall. eapply frame_myproc; [done|].
  change (p_trapframe p + TF_A7) with (p_trapframe p + 8 * 21). apply wp_bind, wp_liftK. eapply frame_load; [done|lia|].
  replace (tfw (ks t1) p 21) with (reg 17 (hrt t)) by (apply Hargs; lia). rewrite Hcall.
  apply wp_bind. eapply wp_mono; [apply Hret; by destruct t1|]. intros r t2 (-> & Hcpu & G' & l' & p' & Hf2 & Htf & Hpt & Hks & Hk & Hw).
  unfold syscall_ret. apply wp_bind. eapply frame_myproc; [done|]. change (p_trapframe p' + TF_A0) with (p_trapframe p' + 8 * 14).
  apply wp_liftK. eapply frame_store; [done|lia|done|]. intros s3 Hf3 Hw3. apply wp_ret. split; [done|]. split; [exact Hcpu|].
  exists G', l', p'. split_and!; [done|done|]. intros j Hj. cbn [ks]. rewrite Hw3 by lia.
  destruct (decide (j = 14)) as [->|]; [done|]. rewrite (proj2 (Z.eqb_neq _ _)) by done. by apply Hw.
Qed.

(** After the trap, with the registers saved: the dispatch and the way back. *)
Lemma usertrap_syscall sel t G l i p K hid t1 call v :
  frame (ks t1) G l i p → hart_ok (hrt t1) → words_are (ks t1) p (λ j, if decide (5 <= j) then reg (Z.to_nat (j - 4)) (hrt t)
    else prepared p K hid (tfw (ks t) p) j) →
  satp (hrt t1) = K → reg 4 (hrt t1) = hid → sepc (hrt t1) = pc (hrt t) → scause (hrt t1) = 8 → ticks t1 = ticks t →
  Z.testbit (sstatus (hrt t1)) 8 = false → p_killed p = 0 → 0 <= pc (hrt t) < 2 ^ 64 → 0 <= K < 2 ^ 64 → 0 <= v < 2 ^ 64 →
  0 <= usertrap_addr < 2 ^ 64 → syscalls sel (i32 (reg 17 (hrt t))) = Some call → call_returns t G l i p call v →
  wp (usertrap sel) t1 (λ e t2, e = Returned ∧ ∃ G' l' p', user_ready t2 G' l' i p' K hid ∧
    pc (hrt t2) = w64 (pc (hrt t) + 4) ∧ Z.testbit (sstatus (hrt t2)) 1 = true ∧
    ∀ n, (1 <= n <= 31)%nat → reg n (hrt t2) = if decide (n = 10%nat) then v else reg n (hrt t)).
Proof.
  intros Hf Hh HT HK Hid Hpc Hcause Htk H8 Hkill Hpcr HKr Hv Hut Hcall Hret. destruct t1 as [s h tk lg].
  cbn [ks hrt ticks tlog] in *. unfold usertrap. apply wp_bind, wp_get_cpu. cbn [hrt].
  replace (truth (Z.land (sstatus h) SSTATUS_SPP)) with false.
  2: { symmetry. unfold truth. apply negb_false_iff, Z.eqb_eq, Z.bits_inj'. intros k Hk. unfold SSTATUS_SPP.
       rewrite Z.land_spec, testbit_flag, Z.bits_0 by lia. destruct (Z.eqb_spec k 8) as [->|]; [by rewrite H8|apply andb_false_r]. }
  apply wp_bind, wp_on_cpu. eapply frame_myproc; [done|]. apply wp_bind, wp_get_cpu. cbn [ks hrt ticks tlog sepc set_stvec].
  rewrite Hpc. change (p_trapframe p + TF_EPC) with (p_trapframe p + 8 * 3).
  eapply (store_word (mk_tst s _ tk lg)); [done|done|lia|done|]. cbn [hrt ticks tlog]. intros s1 Hf1 HT1.
  apply wp_bind, wp_get_cpu. cbn [hrt scause set_stvec]. rewrite Hcause, Hkill. cbn [Z.eqb Pos.eqb truth negb].
  apply wp_bind, wp_liftK. eapply frame_load; [done|lia|]. cbn [ks hrt ticks tlog]. rewrite HT1 by lia. cbn [Z.eqb Pos.eqb].
  eapply (store_word (mk_tst s1 _ tk lg)); [done|done|lia|apply Z.mod_pos_bound; lia|]. cbn [hrt ticks tlog]. intros s2 Hf2 HT2.
  apply wp_bind, wp_on_cpu. cbn [ks hrt ticks tlog]. set (h2 := set_sstatus _ _).
  assert (Hin : in_call t G l i p (mk_tst s2 h2 tk lg)).
  { split; [done| |rewrite HT2 by lia; done|done]. intros n Hn. cbn [ks]. rewrite HT2 by lia.
    rewrite !(proj2 (Z.eqb_neq _ _)) by lia. rewrite decide_True by lia. f_equal. lia. }
  apply wp_bind. eapply wp_mono; [by apply (syscall_returns sel t G l i p _ call v)|].
  intros e t3 (-> & Hcpu & G' & l' & p' & Hf3 & Hk3 & Hw3). cbn [hrt ks] in Hcpu, Hw3. unfold usertrap_end.
  eapply frame_myproc; [done|]. rewrite Hk3. cbn [truth Z.eqb Pos.eqb negb].
  apply wp_bind. eapply wp_mono; [apply (usertrapret_ok t3 G' l' i p' (tfw (ks t3) p') K hid); try done; rewrite Hcpu; done|].
  intros _ t4 (Hr & _ & _ & Hregs & Hpc4 & Hie). apply wp_ret. split; [done|]. exists G', l', p'. split_and!; [done| |done|].
  - rewrite Hpc4, Hw3 by lia. apply Hin.
  - intros n Hn. rewrite Hregs, Hw3 by lia. destruct (decide (n = 10%nat)) as [->|]; [done|].
    rewrite (proj2 (Z.eqb_neq _ _)) by lia. symmetry. by apply (ic_args _ _ _ _ _ _ Hin).
Qed.


(** [getpid] is such a call. *)
Lemma getpid_returns t G l i p : p_killed p = 0 → call_returns t G l i p (liftK (total sys_getpid)) (w64 (p_pid p)).
Proof.
  intros Hk t1 [Hf _ _ _]. apply wp_liftK. unfold total, sys_getpid. apply wp_bind, wp_bind.
  eapply wp_myproc; [apply Hf|]. do 2 apply wp_ret. split_and!; [done|done|]. by exists G, l, p.
Qed.

End Trap.
