(* ===== verification/Unmap.v ===== *)
(** [uvmunmap], [uvmdealloc]: what unmapping a range frees, what it forgets, and
    two ways it goes wrong. *)

From S2P Require Import Prelude Riscv Memory State Kalloc PageTable Paging PagingInv Swap Fault Uvm UserCopy.

Section Unmap.
Context {F : Type} {KI : KImage} {KOK : KImageOk KI} {SW : SwapStore F}.
Implicit Types (s : kst F) (p : proc).

(** A page [uvmunmap] can take: in RAM and owned by this address, or in the
    swap file. *)
Definition resident (m : memory) (root va : Z) : bool := negb (Z.testbit (pte_of m root va) 9).

Record unmappable (m : memory) (G : gmap Z usage) (root va : Z) : Prop := {
  um_mapped : Z.testbit (pte_of m root va) 0 = true ∨ Z.testbit (pte_of m root va) 9 = true;
  um_leaf : PTE_FLAGS (pte_of m root va) ≠ PTE_V;
  um_own : resident m root va = true →
    G !! PTE2PA (pte_of m root va) = Some (UData root (PGROUNDDOWN va))
}.

(** The effect of one round of the loop under a paging policy. *)
Record unmap_step (i : nat) (root a : Z) s (G : gmap Z usage) (l : list Z) p s' (G' : gmap Z usage) (l' : list Z) : Prop := {
  us_wf : vm_wf s' G' l';
  us_proc : proc_at s' i (if 2 <? p_pid p then forget_va a p else p);
  us_out : outside i s s';
  us_fs : fs s' = fs s;
  us_view : ∀ r va, is_root G r → 0 <= va < MAXVA →
    pte_of (mem s') r va =
    if decide (r = root ∧ va / PGSIZE = a / PGSIZE) then 0 else pte_of (mem s) r va;
  us_free : let PA := PTE2PA (pte_of (mem s) root a) in
    if resident (mem s) root a then G' = <[PA := UFree]> G ∧ l' = PA :: l else G' = G ∧ l' = l;
  us_data : ∀ q u, G !! q = Some u → is_data u → G' !! q = Some u → agree_on q (mem s) (mem s')
}.

Lemma unmap_body_ok s G l i p root a last (Q : Z + unit → kst F → Prop) :
  vm_wf s G l → proc_at s i p → is_root G root → 0 <= a < MAXVA → a mod PGSIZE = 0 → a < last →
  unmappable (mem s) G root a →
  (∀ s' G' l', unmap_step i root a s G l p s' G' l' → Q (inl (a + PGSIZE)) s') →
  wp (uvmunmap_not_NONE_body root last true a) s Q.
Proof.
  intros Hwf Hp Hroot Ha Hal Hlast [Hmap Hleaf Hown] HQ. unfold uvmunmap_not_NONE_body.
  rewrite (proj2 (Z.ltb_lt _ _)) by done.
  rewrite PGROUNDDOWN_aligned in Hown by done.
  destruct (pte_of_nonzero (mem s) root a) as [slot Hslot].
  { destruct Hmap as [H|H]; by eapply testbit_nonzero. }
  destruct (walk_slot_range _ _ _ _ _ _ Hwf Hroot Ha Hslot) as (_ & _ & Hnz).
  apply wp_bind. eapply walk_noalloc_ok; [done..|]. rewrite Hslot. simpl.
  rewrite (proj2 (Z.eqb_neq slot 0)) by done.
  apply wp_bind. eapply wp_load_slot; [done..|]. set (v := pte_of (mem s) root a) in *.
  rewrite truth_V, truth_PG.
  assert (Hg : negb (Z.testbit v 0) && negb (Z.testbit v 9) = false) by (destruct Hmap as [->| ->]; [done|apply andb_false_r]).
  rewrite Hg, (proj2 (Z.eqb_neq (PTE_FLAGS v) PTE_V)) by done. clear Hg Hmap Hleaf.
  assert (Hw : w64 (a + PGSIZE) = a + PGSIZE).
  { apply Z.mod_small. rewrite MAXVA_eq in Ha. unfold PGSIZE. lia. }
  rewrite Hw. clear Hw.
  (* the entry is cleared and the records forgotten, from the state after the free *)
  assert (Hrest : ∀ s1 G1 l1, vm_wf s1 G1 l1 → same_but_mem s s1 → pt_agree G (mem s) (mem s1) →
    (∀ r, is_root G r → is_root G1 r) →
    (if resident (mem s) root a then G1 = <[PTE2PA v := UFree]> G ∧ l1 = PTE2PA v :: l
     else G1 = G ∧ l1 = l) →
    (∀ q u, G !! q = Some u → is_data u → G1 !! q = Some u → agree_on q (mem s) (mem s1)) →
    wp (storeM slot 0;; p ← myproc; (if 2 <? p_pid p then upd_myproc (forget_va a) else mret tt);;
        mret (inl (a + PGSIZE))) s1 Q).
  { intros s1 G1 l1 Hwf1 Hsm1 Hpt1 Hr1 HG1 Hd1.
    assert (Hslot1 : walk_slot (mem s1) root a = Some slot) by (by rewrite (walk_slot_agree s G l)).
    apply wp_bind. eapply (leaf_store s1 G1 l1 root a); [done|by apply Hr1|done|done|lia|].
    intros s2 Hs2. pose proof (leaf_same _ _ _ _ _ _ _ Hs2) as Hsm2.
    assert (Hp2 : proc_at s2 i p) by (do 2 (eapply proc_at_same; [eassumption|]); done).
    assert (Hout2 : outside i s s2) by (etrans; by apply outside_same).
    assert (Hview : ∀ r va, is_root G r → 0 <= va < MAXVA → pte_of (mem s2) r va =
      if decide (r = root ∧ va / PGSIZE = a / PGSIZE) then 0 else pte_of (mem s) r va).
    { intros r va Hr Hva. rewrite (leaf_view _ _ _ _ _ _ _ Hs2) by (done || by apply Hr1).
      case_decide; [done|]. by eapply pte_of_agree. }
    assert (Hdata : ∀ q u, G !! q = Some u → is_data u → G1 !! q = Some u → agree_on q (mem s) (mem s2)).
    { intros q u Hq Hu Hq1. eapply agree_on_trans; [by eapply Hd1|]. by eapply (leaf_data _ _ _ _ _ _ _ Hs2). }
    assert (Hf2 : fs s2 = fs s).
    { rewrite (proj2 (proj2 (proj2 (proj2 (proj2 (proj2 (same_but_mem_fields _ _ Hsm2))))))).
      apply (same_but_mem_fields _ _ Hsm1). }
    pose proof (leaf_wf _ _ _ _ _ _ _ Hs2) as Hwf2.
    apply wp_bind. eapply wp_myproc; [done|]. apply wp_bind.
    destruct (2 <? p_pid p) eqn:Epid.
    - eapply wp_upd_myproc; [done|]. intros s3 Hm3 Hfl3 Hf3 _ Hp3 Hout3. apply wp_ret.
      apply (HQ s3 G1 l1). split; rewrite ?Epid, ?Hm3; try done.
      + by eapply vm_wf_ext.
      + by etrans.
      + congruence.
    - apply wp_ret, wp_ret. apply (HQ s2 G1 l1). split; rewrite ?Epid; done. }
  apply wp_bind. destruct (Z.testbit v 9) eqn:EPG; simpl.
  - apply wp_ret. apply (Hrest s G l); try done.
    + apply same_but_mem_refl.
    + unfold resident. fold v. by rewrite EPG.
  - assert (Hres : resident (mem s) root a = true) by (unfold resident; fold v; by rewrite EPG).
    specialize (Hown Hres). eapply vm_kfree_ok; [done|exact Hown|done|].
    intros s1 Hsm1 Hwf1 Hbut Hpt1. apply (Hrest s1 (<[PTE2PA v := UFree]> G) (PTE2PA v :: l)); try done.
    + intros r Hr. unfold is_root in *. rewrite lookup_insert_ne; [done|]. congruence.
    + by rewrite Hres.
    + intros q u Hq Hu Hq1. eapply Hbut; [done|]. intros ->. rewrite lookup_insert_eq in Hq1.
      by injection Hq1 as <-.
Qed.

(** ** The whole range *)

(** The record after the pages from [va] to [va + k * PGSIZE] are forgotten. *)
Definition forget_range (va k : Z) (d : page_data) : page_data :=
  if decide (w64 (pd_va d) mod PGSIZE = 0 ∧ va <= w64 (pd_va d) < va + k * PGSIZE)
  then remove_page d else d.

Definition forgotten (va k : Z) p : proc :=
  if 2 <? p_pid p
  then set_p_swap (forget_range va k <$> p_swap p) (set_p_ram (forget_range va k <$> p_ram p) p)
  else p.

Lemma forget_range_0 va d : forget_range va 0 d = d.
Proof. unfold forget_range. rewrite decide_False by lia. done. Qed.

Lemma forget_range_S va k d :
  0 <= va → va mod PGSIZE = 0 → 0 <= k → va + (k + 1) * PGSIZE <= MAXVA →
  forget_page (va + k * PGSIZE) (forget_range va k d) = forget_range va (k + 1) d.
Proof.
  intros Hva Hal Hk Hmax. rewrite MAXVA_eq in Hmax. unfold forget_page, forget_range.
  case_decide as H1.
  - rewrite (decide_True (P := _ ∧ va <= _ < va + (k + 1) * PGSIZE)) by (unfold PGSIZE in *; lia).
    change (w64 (pd_va (remove_page d))) with (2 ^ 64 - 1).
    rewrite (proj2 (Z.eqb_neq _ _)) by (unfold PGSIZE in *; lia). done.
  - destruct (Z.eqb_spec (w64 (pd_va d)) (va + k * PGSIZE)) as [Heq|Hne].
    + rewrite decide_True; [done|]. rewrite Heq. unfold PGSIZE in *. rewrite Z_mod_plus_full. lia.
    + rewrite decide_False; [done|]. intros [H2 H3]. apply Hne. unfold PGSIZE in *.
      Z.div_mod_to_equations. lia.
Qed.

Lemma forgotten_S va k p :
  0 <= va → va mod PGSIZE = 0 → 0 <= k → va + (k + 1) * PGSIZE <= MAXVA →
  (if 2 <? p_pid (forgotten va k p) then forget_va (va + k * PGSIZE) (forgotten va k p)
   else forgotten va k p) = forgotten va (k + 1) p.
Proof.
  intros Hva Hal Hk Hmax. unfold forgotten. destruct (2 <? p_pid p) eqn:E; simpl; rewrite E; [|done].
  unfold forget_va. simpl. rewrite <- !list_fmap_compose.
  rewrite (list_fmap_ext (forget_page (va + k * PGSIZE) ∘ forget_range va k) (forget_range va (k + 1)) (p_swap p)),
    (list_fmap_ext (forget_page (va + k * PGSIZE) ∘ forget_range va k) (forget_range va (k + 1)) (p_ram p));
    [by destruct p|..]; intros j d _; by apply forget_range_S.
Qed.

Lemma forgotten_0 va p : forgotten va 0 p = p.
Proof.
  unfold forgotten. destruct (2 <? p_pid p); [|done].
  assert (H : ∀ l : list page_data, forget_range va 0 <$> l = l).
  { intros l. rewrite <- (list_fmap_id l) at 2. apply list_fmap_ext. intros. apply forget_range_0. }
  rewrite !H. by destruct p.
Qed.

(** The state after the first [k] pages from [va] on are unmapped. *)
Record unmapped_to (i : nat) (root va k : Z) s (G : gmap Z usage) (l : list Z) p
    s' (G' : gmap Z usage) (l' : list Z) : Prop := {
  ut_wf : vm_wf s' G' l';
  ut_proc : proc_at s' i (forgotten va k p);
  ut_out : outside i s s';
  ut_fs : fs s' = fs s;
  ut_view : ∀ r va', is_root G r → 0 <= va' < MAXVA →
    pte_of (mem s') r va' =
    if decide (r = root ∧ va <= PGROUNDDOWN va' < va + k * PGSIZE) then 0 else pte_of (mem s) r va';
  ut_keep : ∀ q u, G !! q = Some u →
    (G' !! q = Some u ∧ (is_data u → agree_on q (mem s) (mem s'))) ∨
    (G' !! q = Some UFree ∧ ∃ j, 0 <= j < k ∧ u = UData root (va + j * PGSIZE));
  ut_freed : ∀ j, 0 <= j < k → resident (mem s) root (va + j * PGSIZE) = true →
    PTE2PA (pte_of (mem s) root (va + j * PGSIZE)) ∈ l';
  ut_suffix : l `suffix_of` l'
}.

Lemma unmap_next i root va k s G l p s1 G1 l1 s2 G2 l2 :
  0 <= va → va mod PGSIZE = 0 → 0 <= k → va + (k + 1) * PGSIZE <= MAXVA → is_root G root →
  unmapped_to i root va k s G l p s1 G1 l1 →
  unmappable (mem s) G root (va + k * PGSIZE) →
  pte_of (mem s1) root (va + k * PGSIZE) = pte_of (mem s) root (va + k * PGSIZE) →
  unmap_step i root (va + k * PGSIZE) s1 G1 l1 (forgotten va k p) s2 G2 l2 →
  unmapped_to i root va (k + 1) s G l p s2 G2 l2.
Proof.
  intros Hva Hal Hk Hmax Hroot [U1 U2 U3 U4 U5 U6 U7 U8] [_ _ Hown] Hpte [V1 V2 V3 V4 V5 V6 V7].
  set (a := va + k * PGSIZE) in *.
  assert (Haal : a mod PGSIZE = 0) by (unfold a, PGSIZE in *; rewrite Z_mod_plus_full; done).
  rewrite PGROUNDDOWN_aligned in Hown by done.
  assert (Hroots : ∀ r, is_root G r → is_root G1 r).
  { intros r Hr. destruct (U6 _ _ Hr) as [[? _]|(_ & j & _ & [=])]. done. }
  assert (Hres1 : resident (mem s1) root a = resident (mem s) root a) by (unfold resident; by rewrite Hpte).
  cbv zeta in V6. rewrite Hres1, Hpte in V6.
  split.
  - done.
  - rewrite <- forgotten_S by done. exact V2.
  - by etrans.
  - congruence.
  - intros r va' Hr Hva'. rewrite V5, U5 by (done || by apply Hroots).
    rewrite PGROUNDDOWN_eq. assert (Hdiv : a / PGSIZE = va / PGSIZE + k).
    { unfold a, PGSIZE. rewrite Z.div_add by lia. done. }
    assert (Hv : va = PGSIZE * (va / PGSIZE)) by (unfold PGSIZE in *; Z.div_mod_to_equations; lia).
    rewrite Hdiv. unfold PGSIZE in *.
    repeat case_decide; try done; exfalso; intuition lia.
  - intros q u Hq. destruct (U6 q u Hq) as [[Hq1 Ha1]|(Hq1 & j & Hj & Hu)].
    + destruct (resident (mem s) root a) eqn:Er.
      * destruct V6 as [-> _]. destruct (decide (q = PTE2PA (pte_of (mem s) root a))) as [->|Hne].
        -- right. split; [apply lookup_insert_eq|]. exists k. split; [lia|].
           rewrite Hown in Hq by done. by injection Hq as <-.
        -- left. assert (G2q : <[PTE2PA (pte_of (mem s) root a) := UFree]> G1 !! q = Some u) by (by rewrite lookup_insert_ne).
           split; [done|]. intros Hu. eapply agree_on_trans; [by apply Ha1|by eapply V7].
      * destruct V6 as [-> _]. left. split; [done|]. intros Hu.
        eapply agree_on_trans; [by apply Ha1|by eapply V7].
    + right. split; [|exists j; split; [lia|done]].
      destruct (resident (mem s) root a); destruct V6 as [-> _]; [|done].
      rewrite lookup_insert. by case_decide.
  - intros j Hj Hr. destruct (decide (j = k)) as [->|].
    + fold a in Hr |- *. rewrite Hr in V6. destruct V6 as [_ ->]. apply elem_of_cons. by left.
    + assert (Hin : PTE2PA (pte_of (mem s) root (va + j * PGSIZE)) ∈ l1) by (apply U7; [lia|done]).
      destruct (resident (mem s) root a); destruct V6 as [_ ->]; [apply elem_of_cons; by right|done].
  - destruct (resident (mem s) root a); destruct V6 as [_ ->]; [|done]. by apply suffix_cons_r.
Qed.

(** Pages still mapped in the middle of the loop are as they were. *)
Lemma unmappable_later i root va k s G l p s1 G1 l1 :
  unmapped_to i root va k s G l p s1 G1 l1 → is_root G root → 0 <= va → va mod PGSIZE = 0 → 0 <= k →
  va + (k + 1) * PGSIZE <= MAXVA → unmappable (mem s) G root (va + k * PGSIZE) →
  pte_of (mem s1) root (va + k * PGSIZE) = pte_of (mem s) root (va + k * PGSIZE) ∧
  unmappable (mem s1) G1 root (va + k * PGSIZE).
Proof.
  intros [_ _ _ _ Hview Hkeep _ _] Hroot Hva Hal Hk Hmax [Hm Hl Ho].
  set (a := va + k * PGSIZE) in *.
  assert (Haal : a mod PGSIZE = 0) by (unfold a, PGSIZE in *; rewrite Z_mod_plus_full; done).
  assert (Hpte : pte_of (mem s1) root a = pte_of (mem s) root a).
  { rewrite Hview by (unfold a, PGSIZE in *; done || lia).
    rewrite decide_False; [done|]. rewrite PGROUNDDOWN_aligned by done. unfold a. lia. }
  split; [done|]. split; rewrite ?Hpte; [done|done|].
  intros Hr. unfold resident in *. rewrite Hpte in Hr. specialize (Ho Hr). destruct (Hkeep _ _ Ho) as [[? _]|(_ & j & Hj & [= Heq])]; [done|].
  rewrite PGROUNDDOWN_aligned in Heq by done. unfold a, PGSIZE in *. lia.
Qed.

Lemma uvmunmap_not_NONE_ok s G l i p root va n :
  vm_wf s G l → proc_at s i p → is_root G root → 0 <= va → va mod PGSIZE = 0 → 0 <= n →
  va + n * PGSIZE <= MAXVA →
  (∀ j, 0 <= j < n → unmappable (mem s) G root (va + j * PGSIZE)) →
  wp (uvmunmap_not_NONE root va n true) s (λ _ s', ∃ G' l', unmapped_to i root va n s G l p s' G' l').
Proof.
  intros Hwf Hp Hroot Hva Hal Hn Hmax Hum. unfold uvmunmap_not_NONE.
  rewrite (proj2 (Z.eqb_eq _ 0) Hal). cbn [negb].
  assert (Hlast : w64 (va + n * PGSIZE) = va + n * PGSIZE).
  { apply Z.mod_small. rewrite MAXVA_eq in Hmax. unfold PGSIZE in *. lia. }
  rewrite Hlast.
  eapply (wp_loop _ (λ m a s', ∃ k G' l', 0 <= k <= n ∧ a = va + k * PGSIZE ∧ Z.of_nat m = n - k ∧
    unmapped_to i root va k s G l p s' G' l')) with (n := Z.to_nat n).
  - intros m a s1 (k & G1 & l1 & Hk & -> & Hm & Hu). destruct (decide (k = n)) as [->|].
    + unfold uvmunmap_not_NONE_body. rewrite Z.ltb_irrefl. apply wp_ret. by exists G1, l1.
    + assert (Hle : va + (k + 1) * PGSIZE <= MAXVA) by (unfold PGSIZE in *; lia).
      destruct (unmappable_later i root va k s G l p s1 G1 l1) as [Hpte Hum1]; try done; [lia|apply Hum; lia|].
      eapply unmap_body_ok; [apply Hu|apply Hu| | | | |exact Hum1|].
      * destruct (ut_keep _ _ _ _ _ _ _ _ _ _ _ Hu _ _ Hroot) as [[? _]|(_ & j & _ & [=])]. done.
      * unfold PGSIZE in *. lia.
      * unfold PGSIZE in *. by rewrite Z_mod_plus_full.
      * unfold PGSIZE in *. lia.
      * intros s2 G2 l2 Hst. exists (m - 1)%nat. split; [lia|]. exists (k + 1), G2, l2.
        split; [lia|]. split; [lia|]. split; [lia|]. eapply unmap_next; try done; [lia|apply Hum; lia].
  - exists 0, G, l. split; [lia|]. split; [lia|]. split; [lia|]. split; try done.
    + by rewrite forgotten_0.
    + intros r va' Hr Hva'. by rewrite decide_False by lia.
    + intros q u Hq. left. split; [done|]. intros _. apply agree_on_refl.
    + intros j Hj. lia.
  - unfold map_fuel. rewrite MAXVA_eq in *. unfold w64, PGSIZE in *.
    replace (va + n * 4096 - va) with (n * 4096) by lia.
    rewrite (Z.mod_small (n * 4096)) by lia. rewrite Z.min_l by lia. rewrite Z.div_mul by lia. lia.
Qed.

(** C31. Under a paging policy [uvmunmap] of [n] page-aligned mapped pages
    returns; afterwards none of them is mapped, every page of them that was in
    RAM is on the free list, no other mapping of any page table and no byte of
    any other page changes, the free list only grew, and the current process
    (when it is not init or the shell) has forgotten its records of those
    addresses. *)
Theorem uvmunmap_frees_range sel s G l i p root va n :
  sel ≠ NONE → vm_wf s G l → proc_at s i p → is_root G root → 0 <= va → va mod PGSIZE = 0 → 0 <= n →
  va + n * PGSIZE <= MAXVA →
  (∀ j, 0 <= j < n → unmappable (mem s) G root (va + j * PGSIZE)) →
  wp (uvmunmap sel root va n true) s (λ _ s', ∃ G' l', unmapped_to i root va n s G l p s' G' l').
Proof. intros Hsel. destruct sel; [by destruct Hsel|..]; apply uvmunmap_not_NONE_ok. Qed.

(** C40. [uvmunmap] clears records of the running process whatever page table it
    is given: unmapping the same addresses of another address space (a child
    that is being reaped) leaves the caller's page mapped as before but without
    the record that the replacement policy needs to find it. *)
Theorem uvmunmap_forgets_caller sel s G l i p root va n k d :
  sel ≠ NONE → vm_wf s G l → proc_at s i p → is_root G root → 0 <= va → va mod PGSIZE = 0 → 0 <= n →
  va + n * PGSIZE <= MAXVA →
  (∀ j, 0 <= j < n → unmappable (mem s) G root (va + j * PGSIZE)) →
  is_root G (p_pagetable p) → p_pagetable p ≠ root → 2 < p_pid p →
  p_ram p !! k = Some d → pd_va d mod PGSIZE = 0 → va <= pd_va d < va + n * PGSIZE →
  wp (uvmunmap sel root va n true) s (λ _ s', ∃ p', proc_at s' i p' ∧
    p_ram p' !! k = Some (remove_page d) ∧
    pte_of (mem s') (p_pagetable p') (pd_va d) = pte_of (mem s) (p_pagetable p) (pd_va d)).
Proof.
  intros Hsel Hwf Hp Hroot Hva Hal Hn Hmax Hum Hr2 Hne Hpid Hk Hd1 Hd2.
  eapply wp_mono; [destruct sel; [by destruct Hsel|..]; by apply (uvmunmap_not_NONE_ok s G l i p)|].
  intros _ s' (G' & l' & Hu). exists (forgotten va n p). split; [apply Hu|].
  pose proof (ut_view _ _ _ _ _ _ _ _ _ _ _ Hu) as Hv. unfold forgotten.
  rewrite (proj2 (Z.ltb_lt 2 (p_pid p))) by done. cbn [p_ram p_pagetable set_p_swap set_p_ram].
  split.
  - rewrite list_lookup_fmap, Hk. simpl. f_equal. unfold forget_range.
    assert (Hw : w64 (pd_va d) = pd_va d) by (apply Z.mod_small; rewrite MAXVA_eq in Hmax; lia).
    rewrite Hw, decide_True; done.
  - rewrite Hv by (done || lia). rewrite decide_False; [done|]. intros [? _]. done.
Qed.

End Unmap.
