(* ===== verification/WitnessUser.v ===== *)
(** The theorems about user address spaces applied to the concrete machine of
    Machine.v. *)

From S2P Require Import Prelude Riscv Memory Str State Kalloc PageTable Paging PagingInv Swap Machine Uvm Proc WitnessProc UserCopy Exec ExecSpec ExecImage Trap TrapSpec Unmap.

(** ** Checking address spaces *)

(** The mapped pages of one page table belong to the addresses they are mapped at. *)
Definition ownedb (m : memory) (G : gmap Z usage) (root : Z) (tu : Z * usage) : bool :=
  match tu.2 with
  | UPt r 0 pre =>
      negb (r =? root) ||
      forallb (λ kv : Z * Z,
        if (tu.1 <=? kv.1) && (kv.1 <? tu.1 + PGSIZE) then
          let i := (kv.1 - tu.1) / 8 in
          let v := load64 m (tu.1 + 8 * i) in
          implb (Z.testbit v 0 && Z.testbit v 4)
            (bool_decide (G !! PTE2PA v = Some (UData root ((pre * 512 + i) * PGSIZE))))
        else true) (map_to_list m)
  | _ => true
  end.

Lemma aspaceb_sound s (G : gmap Z usage) (l : list Z) root :
  vm_wfb (F := flat) s G l = true → G !! root = Some (UPt root 2 0) →
  forallb (ownedb (mem s) G root) (map_to_list G) = true → aspace_ok s G l root.
Proof.
  intros Hwf%vm_wfb_sound Hroot Hall. split; [done|done|]. intros va Hva Hne.
  destruct (round_down va) as (Hr1 & Hr2 & Hr3). pose proof (round_down_pos va Hva) as Hpos.
  set (a := PGROUNDDOWN va) in *. unfold user_pa in *.
  destruct (Z.ltb_spec a MAXVA) as [Hlt|]; [|done].
  destruct (Z.testbit (pte_of (mem s) root a) 0) eqn:EV; [|done].
  destruct (Z.testbit (pte_of (mem s) root a) 4) eqn:EU; [|done]. simpl in Hne |- *.
  destruct (pte_of_nonzero (mem s) root a) as [slot Hslot]; [by eapply testbit_nonzero|].
  destruct (walk_slot_wf _ _ _ _ _ _ Hwf Hroot (conj Hpos Hlt) Hslot) as (t & _ & -> & Ht & _).
  rewrite forallb_forall in Hall.
  specialize (Hall (t, UPt root 0 (a / 2 ^ 21)) ltac:(by apply list_elem_of_In, elem_of_map_to_list)).
  unfold ownedb in Hall. cbn [fst snd] in Hall. rewrite Z.eqb_refl in Hall. simpl in Hall.
  rewrite forallb_forall in Hall. rewrite (pte_of_slot _ _ _ _ Hslot) in *.
  destruct (load64_byte (mem s) (t + 8 * PX 0 a)) as (k & v & Hk & Hv); [by eapply testbit_nonzero|].
  pose proof (PX_range 0 a) as HPX.
  specialize (Hall (t + 8 * PX 0 a + k, v) ltac:(by apply list_elem_of_In, elem_of_map_to_list)).
  cbn [fst snd] in Hall.
  rewrite (proj2 (Z.leb_le _ _)), (proj2 (Z.ltb_lt _ _)) in Hall by (unfold PGSIZE; lia). simpl in Hall.
  replace ((t + 8 * PX 0 a + k - t) / 8) with (PX 0 a) in Hall by (Z.div_mod_to_equations; lia).
  rewrite EV, EU in Hall. simpl in Hall. apply bool_decide_eq_true_1 in Hall. rewrite Hall.
  do 2 f_equal. rewrite PX_eq by lia. change (12 + 9 * 0) with 12. unfold a.
  rewrite PGROUNDDOWN_eq. unfold PGSIZE. Z.div_mod_to_equations. lia.
Qed.

Lemma demo_aspace : aspace_ok (demo 16) (demo_usage 16) demo_free demo_root.
Proof. apply aspaceb_sound; vm_compute; reflexivity. Qed.

(** ** Witnesses *)

(** Thirty bytes over the boundary of pages 1 and 2. *)
Lemma copyout_copyin_witness :
  let src := seqZ 1 30 in let va := 2 * PGSIZE - 10 in
  wp (r ← copyout demo_root va src;
      if r =? 0 then copyin demo_root va (Z.of_nat (length src)) else mret (r, [])) (demo 16) (λ x s',
    (x = (0, src) ∧ ∀ k, 0 <= k < Z.of_nat (length src) → umapped (mem (demo 16)) demo_root (va + k) = true) ∨
    (x.1 = -1 ∧ ∃ k, 0 <= k < Z.of_nat (length src) ∧ umapped (mem (demo 16)) demo_root (va + k) = false)).
Proof.
  intros src va. apply (copyout_copyin (demo 16) (demo_usage 16) demo_free demo_root va src).
  - apply demo_aspace.
  - unfold va, PGSIZE. lia.
  - vm_compute. congruence.
  - apply (bool_decide_eq_true_1 _). vm_compute. reflexivity.
Defined.

(** The empty string at the start of page 3. *)
Lemma copyinstr_reads_witness :
  wp (copyinstr demo_root (3 * PGSIZE) 20) (demo 16) (λ r s', s' = demo 16 ∧
    copyinstr_post (mem (demo 16)) demo_root (3 * PGSIZE) 20 r.1 r.2).
Proof.
  apply (copyinstr_reads (demo 16) (demo_usage 16) demo_free demo_root (3 * PGSIZE) 20).
  - apply demo_aspace.
  - unfold PGSIZE. lia.
  - lia.
  - vm_compute. congruence.
Defined.

(** Conditions on the pages of a short range, by evaluation. *)
Lemma few_pages (P : Z → Prop) n : Forall P (seqZ 0 n) → ∀ j, 0 <= j < n → P j.
Proof. rewrite list.Forall_forall. intros H j Hj. apply H, elem_of_seqZ. lia. Qed.

(** The last two pages of RAM and the page in the swap file. *)
Lemma uvmunmap_frees_range_witness :
  wp (uvmunmap LAPA demo_root (14 * PGSIZE) 3 true) (demo 16) (λ _ s', ∃ G' l',
    unmapped_to 0 demo_root (14 * PGSIZE) 3 (demo 16) (demo_usage 16) demo_free (demo_proc 16) s' G' l').
Proof.
  apply (uvmunmap_frees_range LAPA (demo 16) (demo_usage 16) demo_free 0 (demo_proc 16) demo_root (14 * PGSIZE) 3).
  - discriminate.
  - apply vm_wfb_sound. vm_compute. reflexivity.
  - split; reflexivity.
  - vm_compute. reflexivity.
  - unfold PGSIZE. lia.
  - reflexivity.
  - lia.
  - vm_compute. congruence.
  - apply few_pages. repeat constructor; try (left; vm_compute; reflexivity); try (vm_compute; congruence);
      right; vm_compute; reflexivity.
Defined.

(** A second address space with one page, at the address of the caller's page 1. *)
Definition other_root : Z := 0x87040000.

Definition other_mem : memory :=
  let m := store64 (demo_mem 16) other_root (mk_pte (other_root + PGSIZE) 0) in
  let m := store64 m (other_root + PGSIZE) (mk_pte (other_root + 2 * PGSIZE) 0) in
  store64 m (other_root + 2 * PGSIZE + 8) (mk_pte (other_root + 3 * PGSIZE) user_perm).

Definition other_usage : gmap Z usage :=
  list_to_map [(other_root, UPt other_root 2 0); (other_root + PGSIZE, UPt other_root 1 0);
    (other_root + 2 * PGSIZE, UPt other_root 0 0); (other_root + 3 * PGSIZE, UData other_root PGSIZE)]
  ∪ demo_usage 16.

Definition parent : proc :=
  mk_proc RUNNING 0 0 0 3 None 0 (17 * PGSIZE) demo_root 0 0 0 [] None [] (Some 0%nat)
    (p_ram (demo_proc 16)) (p_swap (demo_proc 16)) 20.

Definition parent_machine : kst flat :=
  mk_kst other_mem 0x87020000 [parent] (Some 0%nat) 4 (Some 0%nat) 0 [] {[ 0%nat := replicate 4096 7 ]}.

Lemma uvmunmap_forgets_caller_witness :
  wp (uvmunmap SCFIFO other_root PGSIZE 1 true) parent_machine (λ _ s', ∃ p', proc_at s' 0 p' ∧
    p_ram p' !! 1%nat = Some (remove_page (ram_page 1)) ∧
    pte_of (mem s') (p_pagetable p') (pd_va (ram_page 1)) =
    pte_of (mem parent_machine) (p_pagetable parent) (pd_va (ram_page 1))).
Proof.
  apply (uvmunmap_forgets_caller SCFIFO parent_machine other_usage demo_free 0 parent other_root PGSIZE 1).
  - discriminate.
  - apply vm_wfb_sound. vm_compute. reflexivity.
  - split; reflexivity.
  - vm_compute. reflexivity.
  - unfold PGSIZE. lia.
  - reflexivity.
  - lia.
  - vm_compute. congruence.
  - apply few_pages. repeat constructor; try (left; vm_compute; reflexivity); vm_compute; congruence.
  - vm_compute. reflexivity.
  - vm_compute. congruence.
  - vm_compute. reflexivity.
  - reflexivity.
  - reflexivity.
  - vm_compute. split; congruence.
Defined.

(** ** A new program

    An empty page table and nine free pages; the file has one segment of three
    bytes, with two more bytes of memory. *)

#[local] Existing Instance flat_files.

Definition file_bytes (fs : flat) (ip : nat) : option (list Z) :=
  match fs !! ip with
  | Some c => if forallb (λ b, (0 <=? b) && (b <? 256)) c then Some c else None
  | None => None
  end.

#[local] Instance flat_exec : ExecFiles flat := {
  ef_ilock _ := mret tt;
  ef_iunlockput _ := mret tt;
  ef_readi ip off n := λ fs,
    let bs := take (Z.to_nat n) (drop (Z.to_nat off) (default [] (file_bytes fs ip))) in Ok (Z.of_nat (length bs), bs, fs)
}.

#[local] Instance flat_exec_ok : ExecFilesOk flat.
Proof.
  refine {| ef_content := file_bytes |}.
  - intros f ip c. unfold file_bytes. destruct (f !! ip) as [c'|]; [|done].
    destruct (forallb _ c') eqn:E; [|done]. intros [= <-]. rewrite forallb_forall in E. apply list.Forall_forall.
    intros b Hb%list_elem_of_In%E. lia.
  - intros f ip c off n Hc _ _ _. unfold wp, ef_readi, flat_exec. by rewrite Hc.
  - done.
Defined.

Definition new_file : list Z :=
  replicate 64 0 ++ concat [le_bytes 8 1; le_bytes 8 120; le_bytes 8 0; le_bytes 8 0; le_bytes 8 3; le_bytes 8 5; le_bytes 8 4096] ++ [17; 18; 19].

Definition new_free (k : Z) : Z := demo_root + (k + 1) * PGSIZE.
Definition new_mem : memory := foldl (λ m k, store64 m (new_free k) (new_free (k + 1))) ∅ (seqZ 0 8).
Definition new_usage : gmap Z usage := list_to_map ((demo_root, UPt demo_root 2 0) :: ((λ k, (new_free k, UFree)) <$> seqZ 0 9)).
Definition new_proc : proc :=
  mk_proc RUNNING 0 0 0 3 None 0 PGSIZE 0x86000000 0 0 0 [] None [] (Some 0%nat) (replicate 16 no_page) (replicate 16 no_page) 0.
Definition new_state : kst flat := mk_kst new_mem (new_free 0) [new_proc] (Some 0%nat) 4 None 0 [] {[ 0%nat := new_file ]}.

Lemma new_unused hi : PGROUNDUP hi = 3 * PGSIZE → unused new_state demo_root hi.
Proof.
  intros Hhi va Hva. rewrite Hhi in Hva. unfold PGSIZE in Hva.
  assert (Hv : va / PGSIZE = 0 ∨ va / PGSIZE = 1 ∨ va / PGSIZE = 2) by (unfold PGSIZE; Z.div_mod_to_equations; lia).
  destruct Hv as [Hv|[Hv|Hv]].
  - rewrite (pte_of_page _ _ va 0) by (rewrite Hv; done). vm_compute. reflexivity.
  - rewrite (pte_of_page _ _ va 4096) by (rewrite Hv; done). vm_compute. reflexivity.
  - rewrite (pte_of_page _ _ va 8192) by (rewrite Hv; done). vm_compute. reflexivity.
Qed.

Definition new_elf : elfhdr := mk_elf ELF_MAGIC 0 64 1.
Definition new_argv : list (list Z) := [[101; 99; 104; 111]; [104; 105]].

(** The program [echo hi]. *)
Lemma exec_image_built_witness :
  wp (exec_image SCFIFO new_elf demo_root 0 new_argv) new_state (λ r s', ∃ oldsz,
    r = (None, 3 * PGSIZE, oldsz, Some (2, 3 * PGSIZE - 64)) ∧
    program (mem s') demo_root new_file (headers new_file 64 1) (3 * PGSIZE) (3 * PGSIZE - 64) new_argv).
Proof.
  assert (Hend : PGROUNDUP (segs_end 0 (headers new_file 64 1)) + 2 * PGSIZE = 3 * PGSIZE) by (vm_compute; reflexivity).
  eapply wp_mono; [apply (exec_image_built SCFIFO new_state new_usage (new_free <$> seqZ 0 9) demo_root 0 new_file new_elf new_argv)|].
  - done.
  - apply aspaceb_sound; vm_compute; reflexivity.
  - vm_compute. reflexivity.
  - vm_compute. reflexivity.
  - done.
  - done.
  - vm_compute. discriminate.
  - change (Z.to_nat (e_phnum new_elf)) with 1%nat. change (e_phoff new_elf) with 64. cbn [headers segs_ok].
    set (h := header_at new_file 64).
    assert (Hh : h = mk_ph 1 120 0 3 5) by (vm_compute; reflexivity). rewrite Hh. split; [|done].
    split; cbn [ph_filesz ph_memsz ph_vaddr ph_off]; [lia|done|lia|rewrite MAXVA_eq; lia|lia|].
    change (length new_file) with 123%nat. lia.
  - vm_compute. discriminate.
  - exists 0%nat, new_proc. split_and!; [done|discriminate|]. right. vm_compute. discriminate.
  - apply new_unused. vm_compute. reflexivity.
  - vm_compute. discriminate.
  - repeat constructor; lia.
  - intros r s' (oldsz & [(_ & Hr & Hp)|[Hno _]]).
    + exists oldsz. change (Z.to_nat (e_phnum new_elf)) with 1%nat in *. change (e_phoff new_elf) with 64 in *.
      rewrite Hend in Hr, Hp. assert (Hsp : stack_sp (3 * PGSIZE) new_argv = 3 * PGSIZE - 64) by (vm_compute; reflexivity).
      rewrite Hsp in Hr, Hp. by split.
    + exfalso. apply Hno. split; vm_compute; discriminate.
Defined.

(** ** A system call

    A process with pid 3 calls [getpid] (number 11); its page table only maps the
    trapframe. *)

#[local] Existing Instance demo_code.
#[local] Instance demo_trap : TrapCode :=
  {| uservec_off := 0; userret_off := 144; usertrap_addr := 0x80002000; kernelvec := 0x80003000; ticks_addr := 0x80009000 |}.
#[local] Instance no_devices : Devices flat :=
  {| dv_plic_claim := mret 0; dv_plic_complete _ := mret tt; dv_uartintr := mret tt; dv_virtio_disk_intr := mret tt |}.
#[local] Instance no_calls : FileCalls flat :=
  {| fc_pipe := mret None; fc_read := mret None; fc_fstat := mret None; fc_chdir := mret None; fc_dup := mret None;
     fc_open := mret None; fc_write := mret None; fc_mknod := mret None; fc_unlink := mret None; fc_link := mret None;
     fc_mkdir := mret None; fc_close := mret None |}.

Definition call_tf : Z := demo_root + 3 * PGSIZE.
Definition call_proc : proc :=
  mk_proc RUNNING 0 0 0 3 None 0x3fffffd000 PGSIZE demo_root call_tf 0 0 [] None [] None (replicate 16 no_page) (replicate 16 no_page) 0.
Definition call_mem : memory :=
  let m := store64 ∅ (demo_root + 8 * 255) (mk_pte (demo_root + PGSIZE) 0) in
  let m := store64 m (demo_root + PGSIZE + 8 * 511) (mk_pte (demo_root + 2 * PGSIZE) 0) in
  let m := store64 m (demo_root + 2 * PGSIZE + 8 * 510) (mk_pte call_tf 6) in
  store64 (store64 (store64 m call_tf 0x8000000000087fff) (call_tf + 8) (0x3fffffd000 + PGSIZE)) (call_tf + 16) 0x80002000.
Definition call_usage : gmap Z usage :=
  list_to_map [(demo_root, UPt demo_root 2 0); (demo_root + PGSIZE, UPt demo_root 1 255);
    (demo_root + 2 * PGSIZE, UPt demo_root 0 (255 * 512 + 511)); (call_tf, UOther)].
Definition call_hart : hart :=
  mk_hart (<[17%nat := 11]> (seqZ 100 32)) 0x1000 true 0x20 0 0 TRAMPOLINE (MAKE_SATP demo_root) TRAPFRAME 0.
Definition call_state : tst flat :=
  mk_tst (mk_kst call_mem 0 [call_proc] (Some 0%nat) 4 None 0 [] ∅) call_hart 7 [].

