(* ===== verification/Pipe.v ===== *)
(** Pipes (kernel/pipe.c) shared by any number of reading and writing processes.

    A process holds [pi->lock] from one [acquire] or wake-up to the next [sleep]
    or [release]; these stretches are the atomic steps of the system [psys], and
    processes interleave between them in any order.  The ring buffer keeps its
    [uint] counters at 32 bits, where they wrap around.  The lists [sent] and
    [taken] record, for the theorems only, which process put or took which byte. *)

From S2P Require Import Prelude.

Definition PIPESIZE : Z := 512.

(** [struct pipe] without its lock; [freed] after the [kfree] in [pipeclose]. *)
Record pipe := mk_pipe {
  pi_data : list Z;
  nread : Z;
  nwrite : Z;
  readopen : Z;
  writeopen : Z;
  freed : bool
}.

Inductive status := Ready | Asleep | Done (r : Z).

(** A process inside [pipewrite(pi, addr, n)] or [piperead(pi, addr, n)] with its
    loop counter [i].  [src i] is what [copyin] of the byte at [addr + i] gives,
    [None] for -1; [dst i] tells whether [copyout] to [addr + i] succeeds; [got]
    are the bytes copied out so far. *)
Inductive thread :=
| Writer (src : Z → option Z) (n i : Z) (st : status)
| Reader (dst : Z → bool) (n : Z) (got : list Z) (st : status).

Record psys := mk_psys {
  pi : pipe;
  threads : list thread;
  sent : list (nat * Z);
  taken : list (nat * Z)
}.

Definition set_pi (p : pipe) (s : psys) : psys := mk_psys p (threads s) (sent s) (taken s).
Definition set_threads (ts : list thread) (s : psys) : psys := mk_psys (pi s) ts (sent s) (taken s).

(** ** Waking up: the channels are [&pi->nread] for readers and [&pi->nwrite] for
    writers. *)

Definition wake_reader (t : thread) : thread :=
  match t with Reader dst n got Asleep => Reader dst n got Ready | _ => t end.

Definition wake_writer (t : thread) : thread :=
  match t with Writer src n i Asleep => Writer src n i Ready | _ => t end.

Definition wakeup_nread : M psys unit := modify (λ s, set_threads (wake_reader <$> threads s) s).
Definition wakeup_nwrite : M psys unit := modify (λ s, set_threads (wake_writer <$> threads s) s).

(** ** The ring *)

(** [pi->data[pi->nwrite++ % PIPESIZE] = ch] *)
Definition ring_put (k : nat) (ch : Z) : M psys unit := modify (λ s,
  let p := pi s in
  mk_psys (mk_pipe (<[Z.to_nat (nwrite p mod PIPESIZE) := ch]> (pi_data p)) (nread p) (w32 (nwrite p + 1))
             (readopen p) (writeopen p) (freed p))
    (threads s) (sent s ++ [(k, ch)]) (taken s)).

(** [ch = pi->data[pi->nread++ % PIPESIZE]] *)
Definition ring_take (k : nat) : M psys Z := λ s,
  let p := pi s in
  let ch := default 0 (pi_data p !! Z.to_nat (nread p mod PIPESIZE)) in
  Ok (ch, mk_psys (mk_pipe (pi_data p) (w32 (nread p + 1)) (nwrite p) (readopen p) (writeopen p) (freed p))
            (threads s) (sent s) (taken s ++ [(k, ch)])).

(** ** pipewrite

    [kill i] is the value of [pr->killed] seen by the test before byte [i]. *)

Definition pipewrite_body (k : nat) (kill : Z → bool) (src : Z → option Z) (n : Z) (i : Z) :
    M psys (Z + Z * status) :=
  if i <? n then
    p ← gets pi;
    if (readopen p =? 0) || kill i then mret (inr (i, Done (-1)))
    else if nwrite p =? w32 (nread p + PIPESIZE) then
      wakeup_nread;; mret (inr (i, Asleep))
    else
      match src i with
      | None => wakeup_nread;; mret (inr (i, Done i))
      | Some ch => ring_put k ch;; mret (inl (i + 1))
      end
  else wakeup_nread;; mret (inr (i, Done i)).

Definition pipewrite (k : nat) (kill : Z → bool) (src : Z → option Z) (n i : Z) : M psys (Z * status) :=
  loop (Z.to_nat PIPESIZE + 2) (pipewrite_body k kill src n) i.

(** ** piperead *)

Definition piperead_body (k : nat) (dst : Z → bool) (n : Z) (got : list Z) : M psys (list Z + list Z) :=
  let i := Z.of_nat (length got) in
  if i <? n then
    p ← gets pi;
    if nread p =? nwrite p then mret (inr got)
    else
      ch ← ring_take k;
      if dst i then mret (inl (got ++ [ch])) else mret (inr got)
  else mret (inr got).

Definition piperead (k : nat) (killed : bool) (dst : Z → bool) (n : Z) : M psys (list Z * status) :=
  p ← gets pi;
  if (nread p =? nwrite p) && truth (writeopen p) then
    if killed then mret ([], Done (-1)) else mret ([], Asleep)
  else
    got ← loop (Z.to_nat PIPESIZE + 2) (piperead_body k dst n) [];
    wakeup_nwrite;;
    mret (got, Done (Z.of_nat (length got))).

(** ** Processes *)

(** One stretch of process [k] with the lock held.  The memory of the pipe must
    still be there. *)
Definition run_thread (k : nat) (kill : Z → bool) : M psys unit :=
  s ← gets id;
  if freed (pi s) then wild 0
  else
    match threads s !! k with
    | Some (Writer src n i Ready) =>
        r ← pipewrite k kill src n i;
        modify (λ s, set_threads (<[k := Writer src n r.1 r.2]> (threads s)) s)
    | Some (Reader dst n got Ready) =>
        r ← piperead k (kill 0) dst n;
        modify (λ s, set_threads (<[k := Reader dst n r.1 r.2]> (threads s)) s)
    | _ => mret tt
    end.

(** [pipeclose(pi, writable)] *)
Definition pipeclose (writable : bool) : M psys unit :=
  (if writable
   then modify (λ s, let p := pi s in
          set_pi (mk_pipe (pi_data p) (nread p) (nwrite p) (readopen p) 0 (freed p)) s);; wakeup_nread
   else modify (λ s, let p := pi s in
          set_pi (mk_pipe (pi_data p) (nread p) (nwrite p) 0 (writeopen p) (freed p)) s);; wakeup_nwrite);;
  p ← gets pi;
  if (readopen p =? 0) && (writeopen p =? 0)
  then modify (set_pi (mk_pipe (pi_data p) (nread p) (nwrite p) (readopen p) (writeopen p) true))
  else mret tt.

(** [pipealloc]: the page from [kalloc] holds whatever it held. *)
Definition new_pipe (page : list Z) : psys := mk_psys (mk_pipe page 0 0 1 1 false) [] [] [].

Definition finished (t : thread) : bool :=
  match t with Writer _ _ _ (Done _) | Reader _ _ _ (Done _) => true | _ => false end.
Definition is_writer (t : thread) : bool := match t with Writer _ _ _ _ => true | _ => false end.

(** [kill] makes a sleeping process runnable. *)
Definition interrupt (t : thread) : thread := wake_reader (wake_writer t).

(** The system: processes enter [pipewrite] and [piperead] through an open end,
    run, are killed, and close an end that nobody uses any more (the reference
    counts of the file table see to that).  [K] restricts how [pr->killed] may
    change while the lock is held. *)
Inductive psys_step (K : (Z → bool) → Prop) : psys → psys → Prop :=
| step_write (s : psys) (src : Z → option Z) (n : Z) :
    writeopen (pi s) ≠ 0 → psys_step K s (set_threads (threads s ++ [Writer src n 0 Ready]) s)
| step_read (s : psys) (dst : Z → bool) (n : Z) :
    readopen (pi s) ≠ 0 → psys_step K s (set_threads (threads s ++ [Reader dst n [] Ready]) s)
| step_run (s : psys) k kill t s' :
    threads s !! k = Some t → finished t = false → K kill → run_thread k kill s = Ok (tt, s') →
    psys_step K s s'
| step_kill (s : psys) k t :
    threads s !! k = Some t → psys_step K s (set_threads (<[k := interrupt t]> (threads s)) s)
| step_close (s : psys) (w : bool) s' :
    (if w then writeopen (pi s) else readopen (pi s)) ≠ 0 →
    Forall (λ t, is_writer t = w → finished t = true) (threads s) →
    pipeclose w s = Ok (tt, s') → psys_step K s s'.

Inductive reachable (K : (Z → bool) → Prop) : psys → Prop :=
| reach_new page : length page = Z.to_nat PIPESIZE → reachable K (new_pipe page)
| reach_step s s' : reachable K s → psys_step K s s' → reachable K s'.

(** [pr->killed] may change at any time; or only while the lock is not held. *)
Definition any_time (kill : Z → bool) : Prop := True.
Definition steady (kill : Z → bool) : Prop := ∀ i, kill i = kill 0.

(** ** The ring as a queue *)

Definition used (p : pipe) : Z := w32 (nwrite p - nread p).

Definition contents (p : pipe) : list Z :=
  (λ j, default 0 (pi_data p !! Z.to_nat (w32 (nread p + j) mod PIPESIZE))) <$> seqZ 0 (used p).

Record ring_ok (p : pipe) : Prop := {
  ring_len : length (pi_data p) = Z.to_nat PIPESIZE;
  ring_r : 0 <= nread p < 2 ^ 32;
  ring_w : 0 <= nwrite p < 2 ^ 32;
  ring_used : used p <= PIPESIZE
}.

Lemma w32_mod_ring z : w32 z mod PIPESIZE = z mod PIPESIZE.
Proof.
  unfold w32, PIPESIZE. change (2 ^ 32) with (512 * 2 ^ 23).
  rewrite Z.rem_mul_r by lia. rewrite Z.mul_comm, Z_mod_plus_full, Z.mod_mod by lia. done.
Qed.

Lemma used_nonneg p : 0 <= used p.
Proof. unfold used, w32. apply Z.mod_pos_bound. lia. Qed.

Lemma length_contents p : Z.of_nat (length (contents p)) = used p.
Proof. unfold contents. rewrite length_fmap, length_seqZ. pose proof (used_nonneg p). lia. Qed.

Lemma contents_full p : ring_ok p → nwrite p = w32 (nread p + PIPESIZE) ↔ used p = PIPESIZE.
Proof. intros [_ Hr Hw _]. unfold used, w32, PIPESIZE. Z.div_mod_to_equations. lia. Qed.

Lemma contents_empty p : ring_ok p → nread p = nwrite p ↔ contents p = [].
Proof.
  intros [_ Hr Hw _]. rewrite <- (length_zero_iff_nil (contents p)).
  assert (length (contents p) = 0%nat ↔ used p = 0) as -> by (rewrite <- length_contents; lia).
  unfold used, w32. Z.div_mod_to_equations. lia.
Qed.

Definition pipe_put (ch : Z) (p : pipe) : pipe :=
  mk_pipe (<[Z.to_nat (nwrite p mod PIPESIZE) := ch]> (pi_data p)) (nread p) (w32 (nwrite p + 1))
    (readopen p) (writeopen p) (freed p).

Definition pipe_take (p : pipe) : pipe :=
  mk_pipe (pi_data p) (w32 (nread p + 1)) (nwrite p) (readopen p) (writeopen p) (freed p).

Lemma put_used p ch : ring_ok p → used p < PIPESIZE → used (pipe_put ch p) = used p + 1.
Proof.
  intros [_ Hr Hw _] Hu. unfold used, w32, PIPESIZE in *. simpl. unfold w32. Z.div_mod_to_equations. lia.
Qed.

Lemma put_ok p ch : ring_ok p → used p < PIPESIZE →
  ring_ok (pipe_put ch p) ∧ contents (pipe_put ch p) = contents p ++ [ch].
Proof.
  intros Hok Hu. pose proof (put_used p ch Hok Hu) as Hu'. pose proof (used_nonneg p) as Hn.
  assert (Hlast : w32 (nread p + used p) mod PIPESIZE = nwrite p mod PIPESIZE).
  { rewrite w32_mod_ring. destruct Hok as [_ Hr Hw _].
    assert (nwrite p = w32 (nread p + used p)) as -> by (unfold used, w32; Z.div_mod_to_equations; lia).
    by rewrite w32_mod_ring. }
  assert (Hb : 0 <= nwrite p mod PIPESIZE < PIPESIZE) by (apply Z.mod_pos_bound; unfold PIPESIZE; lia).
  split.
  - destruct Hok as [Hl Hr Hw _]. split; simpl.
    + by rewrite length_insert.
    + done.
    + unfold w32. apply Z.mod_pos_bound. lia.
    + lia.
  - unfold contents. rewrite Hu', seqZ_app, fmap_app by lia. change (nread (pipe_put ch p)) with (nread p).
    cbn [pi_data pipe_put]. f_equal.
    + apply list_fmap_ext. intros j x Hx%lookup_seqZ. rewrite list_lookup_insert_ne; [done|].
      rewrite <- Hlast, !w32_mod_ring. unfold PIPESIZE in *. Z.div_mod_to_equations. lia.
    + change (seqZ (0 + used p) 1) with [used p]. cbn [fmap list_fmap].
      rewrite Hlast, list_lookup_insert_eq; [done|]. rewrite (ring_len _ Hok). lia.
Qed.

Lemma take_ok p : ring_ok p → nread p ≠ nwrite p →
  ring_ok (pipe_take p) ∧
  contents p = default 0 (pi_data p !! Z.to_nat (nread p mod PIPESIZE)) :: contents (pipe_take p).
Proof.
  intros [Hl Hr Hw Hu] Hne.
  assert (Hu' : used (pipe_take p) = used p - 1 ∧ 0 < used p).
  { unfold used, w32 in *. simpl. unfold w32. Z.div_mod_to_equations. lia. }
  split.
  - split; simpl; [done|unfold w32; apply Z.mod_pos_bound; lia|done|]. lia.
  - unfold contents. rewrite (proj1 Hu'). change (nread (pipe_take p)) with (w32 (nread p + 1)).
    change (pi_data (pipe_take p)) with (pi_data p).
    rewrite (seqZ_cons 0 (used p)) by lia. cbn [fmap list_fmap]. f_equal.
    + rewrite Z.add_0_r, w32_mod_ring. done.
    + rewrite <- Z.sub_1_r. rewrite <- (fmap_add_seqZ 1 0), <- list_fmap_compose.
      apply list_fmap_ext. intros j x Hx. unfold compose.
      assert (w32 (w32 (nread p + 1) + x) mod PIPESIZE = w32 (nread p + (1 + x)) mod PIPESIZE) as ->; [|done].
      rewrite !w32_mod_ring, Zplus_mod, w32_mod_ring, <- Zplus_mod. f_equal. lia.
Qed.

(** ** One stretch of a process *)

(** The ends and the memory of the pipe are as they were. *)
Definition same_ends (p p' : pipe) : Prop :=
  readopen p' = readopen p ∧ writeopen p' = writeopen p ∧ freed p' = freed p.

Record wrote (k : nat) (src : Z → option Z) (i i' : Z) (s s' : psys) (bs : list Z) : Prop := {
  wr_ring : ring_ok (pi s');
  wr_contents : contents (pi s') = contents (pi s) ++ bs;
  wr_sent : sent s' = sent s ++ (pair k <$> bs);
  wr_taken : taken s' = taken s;
  wr_ends : same_ends (pi s) (pi s');
  wr_le : i <= i';
  wr_open : i < i' → readopen (pi s) ≠ 0;
  wr_bytes : Some <$> bs = src <$> seqZ i (i' - i)
}.

Lemma pipewrite_ok k kill src n i s :
  ring_ok (pi s) → 0 <= i →
  wp (pipewrite k kill src n i) s (λ r s', ∃ bs, wrote k src i r.1 s s' bs ∧ r.1 <= Z.max i n ∧
    (∀ j, i <= j < r.1 → kill j = false) ∧
    match r.2 with
    | Ready => False
    | Asleep => r.1 < n ∧ used (pi s') = PIPESIZE ∧ readopen (pi s) ≠ 0 ∧
        threads s' = wake_reader <$> threads s
    | Done z =>
        (z = r.1 ∧ (n <= r.1 ∨ src r.1 = None) ∧ threads s' = wake_reader <$> threads s) ∨
        (z = -1 ∧ r.1 < n ∧ (readopen (pi s) = 0 ∨ kill r.1 = true) ∧ threads s' = threads s)
    end).
Proof.
  intros Hring Hi. unfold pipewrite.
  eapply (wp_loop _ (λ m j s', ∃ bs, wrote k src i j s s' bs ∧ j <= Z.max i n ∧
    (∀ j', i <= j' < j → kill j' = false) ∧ threads s' = threads s ∧
    Z.of_nat m = PIPESIZE - used (pi s'))) with (n := Z.to_nat (PIPESIZE - used (pi s))).
  - intros m j s1 (bs & Hw & Hle & Hkill & Hth & Hm). unfold pipewrite_body.
    assert (Hend : wrote k src i j s (set_threads (wake_reader <$> threads s1) s1) bs).
    { destruct Hw. by split. }
    destruct (Z.ltb_spec j n) as [Hlt|Hge].
    + apply wp_bind, wp_gets. destruct (Z.eqb_spec (readopen (pi s1)) 0) as [Hz|Hz]; simpl.
      { apply wp_ret. exists bs. simpl. split; [done|]. split; [lia|]. split; [done|]. right.
        destruct (wr_ends _ _ _ _ _ _ _ Hw) as [He _]. split_and!; [done|done|left; congruence|done]. }
      destruct (kill j) eqn:Ekill.
      { apply wp_ret. exists bs. simpl. split; [done|]. split; [lia|]. split; [done|]. right. split_and!; auto. }
      destruct (Z.eqb_spec (nwrite (pi s1)) (w32 (nread (pi s1) + PIPESIZE))) as [Hf|Hf].
      * apply wp_bind, wp_modify, wp_ret. exists bs. simpl. split; [exact Hend|].
        split; [lia|]. split; [done|]. apply contents_full in Hf; [|apply Hw].
        destruct (wr_ends _ _ _ _ _ _ _ Hw) as [He _]. split_and!; [done|done|congruence|by rewrite Hth].
      * destruct (src j) as [ch|] eqn:Esrc.
        -- apply wp_bind, wp_modify, wp_ret.
           pose proof (ring_used _ (wr_ring _ _ _ _ _ _ _ Hw)) as Hu.
           assert (used (pi s1) ≠ PIPESIZE).
           { intros Hu'. apply Hf, contents_full; [apply Hw|done]. }
           destruct (put_ok (pi s1) ch) as [Hr1 Hc1]; [apply Hw|lia|].
           pose proof (put_used (pi s1) ch (wr_ring _ _ _ _ _ _ _ Hw)) as Hu1.
           destruct Hw as [W1 W2 W3 W4 W5 W6 Wo W7].
           exists (m - 1)%nat. split; [lia|]. exists (bs ++ [ch]). split; [|simpl; split_and!; [lia| |done|]].
           ++ split; cbn [pi sent taken]; try done.
              ** change (contents (pipe_put ch (pi s1)) = contents (pi s) ++ bs ++ [ch]).
                 by rewrite Hc1, W2, app_assoc.
              ** by rewrite W3, fmap_app, app_assoc.
              ** lia.
              ** intros _. destruct W5 as [He _]. congruence.
              ** replace (j + 1 - i) with (j - i + 1) by lia.
                 rewrite fmap_app, W7, seqZ_app, fmap_app by lia. f_equal.
                 replace (i + (j - i)) with j by lia. change (seqZ j 1) with [j].
                 cbn [fmap list_fmap]. by rewrite Esrc.
           ++ intros j' Hj'. destruct (decide (j' = j)) as [->|]; [done|apply Hkill; lia].
           ++ change (Z.of_nat (m - 1) = PIPESIZE - used (pipe_put ch (pi s1))). lia.
        -- apply wp_bind, wp_modify, wp_ret. exists bs. simpl.
           split; [exact Hend|]. split; [lia|]. split; [done|]. left. rewrite Hth. auto.
    + apply wp_bind, wp_modify, wp_ret. exists bs. simpl.
      split; [exact Hend|]. split; [lia|]. split; [done|]. left. rewrite Hth. auto.
  - exists []. split; [|split_and!; [lia|lia|done|]].
    + split; rewrite ?app_nil_r; done || lia || by rewrite Z.sub_diag.
    + pose proof (ring_used _ Hring). lia.
  - pose proof (used_nonneg (pi s)). unfold PIPESIZE. lia.
Qed.

(** [bs] are the bytes a reader took and [got] those it copied out: a byte whose
    [copyout] fails is taken all the same. *)
Definition delivered (dst : Z → bool) (got bs : list Z) : Prop :=
  (∀ j, 0 <= j < Z.of_nat (length got) → dst j = true) ∧
  (bs = got ∨ ∃ c, bs = got ++ [c] ∧ dst (Z.of_nat (length got)) = false).

Record read_out (k : nat) (s s' : psys) (bs : list Z) : Prop := {
  ro_ring : ring_ok (pi s');
  ro_contents : contents (pi s) = bs ++ contents (pi s');
  ro_sent : sent s' = sent s;
  ro_taken : taken s' = taken s ++ (pair k <$> bs);
  ro_ends : same_ends (pi s) (pi s')
}.

Lemma read_out_take k s s1 bs :
  read_out k s s1 bs → nread (pi s1) ≠ nwrite (pi s1) →
  wp (ring_take k) s1 (λ ch s', read_out k s s' (bs ++ [ch]) ∧ threads s' = threads s1 ∧
    S (length (contents (pi s'))) = length (contents (pi s1))).
Proof.
  intros [R1 R2 R3 R4 R5] Hne. destruct (take_ok (pi s1) R1 Hne) as [Hr Hc]. unfold ring_take, wp.
  set (ch := default 0 (pi_data (pi s1) !! Z.to_nat (nread (pi s1) mod PIPESIZE))) in *.
  fold (pipe_take (pi s1)). split_and!; [|done|cbn [pi]; by rewrite Hc].
  split; cbn [pi sent taken]; try done.
  - by rewrite R2, Hc, <- app_assoc.
  - by rewrite R4, fmap_app, app_assoc.
Qed.

(** What the copying loop leaves. *)
Definition drained (k : nat) (dst : Z → bool) (n : Z) (s s' : psys) (got : list Z) : Prop :=
  let z := Z.of_nat (length got) in
  z <= Z.max 0 n ∧ (n <= z ∨ contents (pi s') = [] ∨ dst z = false) ∧
  ∃ bs, read_out k s s' bs ∧ delivered dst got bs.

Lemma drain_ok k dst n s :
  ring_ok (pi s) →
  wp (loop (Z.to_nat PIPESIZE + 2) (piperead_body k dst n) []) s (λ got s',
    drained k dst n s s' got ∧ threads s' = threads s).
Proof.
  intros Hring.
  eapply (wp_loop _ (λ m got s', read_out k s s' got ∧ threads s' = threads s ∧
    delivered dst got got ∧ Z.of_nat (length got) <= Z.max 0 n ∧ m = length (contents (pi s'))))
    with (n := length (contents (pi s))).
  - intros m got s1 (Hro & Hth & Hdel & Hle & ->). unfold piperead_body.
    destruct (Z.ltb_spec (Z.of_nat (length got)) n) as [Hlt|Hge].
    + apply wp_bind, wp_gets. destruct (Z.eqb_spec (nread (pi s1)) (nwrite (pi s1))) as [Heq|Hne].
      { apply wp_ret. split; [|done]. split; [lia|]. split; [|by exists got].
        right. left. apply contents_empty; [apply Hro|done]. }
      apply wp_bind. eapply wp_mono; [by apply read_out_take|]. intros ch s2 (Hro2 & Hth2 & Hlen).
      destruct (dst (Z.of_nat (length got))) eqn:Ed; apply wp_ret.
      * exists (length (contents (pi s2))). split; [lia|].
        split_and!; [done|congruence| |rewrite length_app; simpl; lia|done].
        split; [|by left]. intros j Hj. rewrite length_app in Hj. simpl in Hj.
        destruct (decide (j = Z.of_nat (length got))) as [->|]; [done|apply Hdel; lia].
      * split; [|congruence]. split; [lia|]. split; [by right; right|].
        exists (got ++ [ch]). split; [done|]. split; [apply Hdel|right; by exists ch].
    + apply wp_ret. split; [|done]. split; [lia|]. split; [by left|by exists got].
  - split_and!; [split; rewrite ?app_nil_r; done|done| |simpl; lia|done]. split; [simpl; lia|by left].
  - pose proof (length_contents (pi s)). pose proof (ring_used _ Hring). unfold PIPESIZE in *. lia.
Qed.

Lemma piperead_ok k killed dst n s :
  ring_ok (pi s) →
  wp (piperead k killed dst n) s (λ r s',
    match r.2 with
    | Ready => False
    | Asleep => s' = s ∧ r.1 = [] ∧ contents (pi s) = [] ∧ writeopen (pi s) ≠ 0
    | Done z =>
        (z = -1 ∧ killed = true ∧ r.1 = [] ∧ s' = s) ∨
        (z = Z.of_nat (length r.1) ∧ drained k dst n s s' r.1 ∧ threads s' = wake_writer <$> threads s)
    end).
Proof.
  intros Hring. unfold piperead. apply wp_bind, wp_gets.
  destruct ((nread (pi s) =? nwrite (pi s)) && truth (writeopen (pi s))) eqn:E.
  - apply andb_true_iff in E as [E1%Z.eqb_eq E2]. destruct killed; apply wp_ret; cbn [fst snd]; [left; auto|].
    split_and!; try done; [by apply contents_empty|].
    unfold truth in E2. destruct (Z.eqb_spec (writeopen (pi s)) 0); done.
  - apply wp_bind. eapply wp_mono; [by apply drain_ok|]. intros got s1 [(D1 & D2 & bs & Hro & Hdel) Hth].
    apply wp_bind, wp_modify, wp_ret. right. cbn [fst snd set_threads threads]. rewrite Hth.
    split; [done|]. split; [|done]. split; [done|]. split; [done|]. exists bs. split; [|done].
    destruct Hro. by split.
Qed.

(** ** The invariant *)

(** The bytes process [k] put or took. *)
Definition bytes_of (k : nat) (h : list (nat * Z)) : list Z := (filter (λ x, x.1 = k) h).*2.

Lemma bytes_of_app k h h' : bytes_of k (h ++ h') = bytes_of k h ++ bytes_of k h'.
Proof. unfold bytes_of. by rewrite list.filter_app, fmap_app. Qed.

Lemma bytes_of_pair k k' bs : bytes_of k (pair k' <$> bs) = if decide (k = k') then bs else [].
Proof.
  unfold bytes_of. induction bs as [|b bs IH]; [by case_decide|]. cbn [fmap list_fmap].
  rewrite list.filter_cons. cbn [fst]. unfold fmap in *. repeat case_decide; subst; try done.
  simpl. f_equal. done.
Qed.

Lemma snd_pair (k : nat) (bs : list Z) : (pair k <$> bs).*2 = bs.
Proof. rewrite <- list_fmap_compose. apply list_fmap_id. Qed.

(** The state of one process against the bytes it moved. *)
Definition thread_ok (h h' : list Z) (t : thread) : Prop :=
  match t with
  | Writer src n i st =>
      0 <= i ∧ i <= Z.max 0 n ∧ Some <$> h = src <$> seqZ 0 i ∧ h' = [] ∧
      match st with
      | Done r => (r = i ∧ (n <= i ∨ src i = None)) ∨ (r = -1 ∧ i < n)
      | _ => True
      end
  | Reader dst n got st =>
      h = [] ∧ Z.of_nat (length got) <= Z.max 0 n ∧ delivered dst got h' ∧
      match st with
      | Done r => r = Z.of_nat (length got) ∨ (r = -1 ∧ h' = [])
      | _ => h' = []
      end
  end.

Record pipe_inv (s : psys) : Prop := {
  pv_ring : ring_ok (pi s);
  pv_queue : (sent s).*2 = (taken s).*2 ++ contents (pi s);
  pv_threads : ∀ k t, threads s !! k = Some t → thread_ok (bytes_of k (sent s)) (bytes_of k (taken s)) t;
  pv_new : ∀ k, (length (threads s) <= k)%nat → bytes_of k (sent s) = [] ∧ bytes_of k (taken s) = [];
  pv_closed : ∀ k t, threads s !! k = Some t → finished t = false →
    (if is_writer t then writeopen (pi s) else readopen (pi s)) ≠ 0;
  pv_freed : freed (pi s) = true → readopen (pi s) = 0 ∧ writeopen (pi s) = 0
}.

Lemma thread_ok_wake_reader h h' t : thread_ok h h' t → thread_ok h h' (wake_reader t).
Proof. by destruct t as [|? ? ? []]. Qed.

Lemma thread_ok_wake_writer h h' t : thread_ok h h' t → thread_ok h h' (wake_writer t).
Proof. by destruct t as [? ? ? []|]. Qed.

Lemma wake_reader_class t : finished (wake_reader t) = finished t ∧ is_writer (wake_reader t) = is_writer t.
Proof. by destruct t as [|? ? ? []]. Qed.

Lemma wake_writer_class t : finished (wake_writer t) = finished t ∧ is_writer (wake_writer t) = is_writer t.
Proof. by destruct t as [? ? ? []|]. Qed.

(** A change of process [k] alone, with the others at most woken up. *)
Lemma inv_advance s s' k t t' (wake : thread → thread) bs bt :
  pipe_inv s → threads s !! k = Some t → finished t = false →
  (∀ h h' u, thread_ok h h' u → thread_ok h h' (wake u)) →
  (∀ u, finished (wake u) = finished u ∧ is_writer (wake u) = is_writer u) →
  threads s' = <[k := t']> (wake <$> threads s) → is_writer t' = is_writer t →
  ring_ok (pi s') → same_ends (pi s) (pi s') →
  sent s' = sent s ++ (pair k <$> bs) → taken s' = taken s ++ (pair k <$> bt) →
  contents (pi s) ++ bs = bt ++ contents (pi s') →
  thread_ok (bytes_of k (sent s) ++ bs) (bytes_of k (taken s) ++ bt) t' →
  pipe_inv s'.
Proof.
  intros [I1 I2 I3 I4 I5 I6] Hk Hfin Hwake Hcls Hth Hw Hring (He1 & He2 & He3) Hs Ht Hq Hok.
  assert (Hsk : ∀ k', bytes_of k' (sent s') = bytes_of k' (sent s) ++ if decide (k' = k) then bs else []).
  { intros k'. by rewrite Hs, bytes_of_app, bytes_of_pair. }
  assert (Htk : ∀ k', bytes_of k' (taken s') = bytes_of k' (taken s) ++ if decide (k' = k) then bt else []).
  { intros k'. by rewrite Ht, bytes_of_app, bytes_of_pair. }
  pose proof (lookup_lt_Some _ _ _ Hk) as Hlt.
  split.
  - done.
  - rewrite Hs, Ht, !fmap_app, !snd_pair, I2, <- !app_assoc. by f_equal.
  - intros k' u Hu. rewrite Hsk, Htk. rewrite Hth in Hu.
    apply list_lookup_insert_Some in Hu as [(-> & -> & _)|[Hne Hu]].
    + by rewrite !decide_True by done.
    + rewrite !decide_False, !app_nil_r by done. rewrite list_lookup_fmap in Hu.
      destruct (threads s !! k') as [u0|] eqn:E; [|done]. injection Hu as <-. auto.
  - intros k' Hlen. rewrite Hth, length_insert, length_fmap in Hlen. rewrite Hsk, Htk.
    rewrite !decide_False, !app_nil_r by lia. auto.
  - intros k' u Hu Hf. rewrite Hth in Hu. rewrite He1, He2.
    apply list_lookup_insert_Some in Hu as [(-> & -> & _)|[Hne Hu]].
    + rewrite Hw. by eapply I5.
    + rewrite list_lookup_fmap in Hu. destruct (threads s !! k') as [u0|] eqn:E; [|done]. injection Hu as <-.
      destruct (Hcls u0) as [Hc1 Hc2]. rewrite Hc2. eapply I5; [done|congruence].
  - rewrite He1, He2, He3. done.
Qed.

(** Nobody sleeps on a condition that has come true. *)
Definition awake_inv (s : psys) : Prop := ∀ k t, threads s !! k = Some t →
  match t with
  | Writer _ _ _ Asleep => used (pi s) = PIPESIZE ∧ readopen (pi s) ≠ 0
  | Reader _ _ _ Asleep => contents (pi s) = [] ∧ writeopen (pi s) ≠ 0
  | _ => True
  end.

Lemma used_same p p' : contents p' = contents p → used p' = used p.
Proof. intros Hc. by rewrite <- !length_contents, Hc. Qed.

Lemma run_writer_ok s k kill src n i :
  pipe_inv s → threads s !! k = Some (Writer src n i Ready) →
  wp (r ← pipewrite k kill src n i;
      modify (λ s, set_threads (<[k := Writer src n r.1 r.2]> (threads s)) s)) s (λ _ s',
    pipe_inv s' ∧ (steady kill → awake_inv s → awake_inv s')).
Proof.
  intros HI Hk. pose proof (pv_threads _ HI _ _ Hk) as (Hi & Hin & Hh & Hh' & _).
  apply wp_bind. eapply wp_mono; [apply pipewrite_ok; [apply HI|done]|].
  intros [i' st] s1 (bs & Hw & Hle & Hkill & Hst). cbn [fst snd] in *. apply wp_modify.
  pose proof Hw as [W1 W2 W3 W4 W5 W6 W7 W8].
  assert (Hbytes : Some <$> (bytes_of k (sent s) ++ bs) = src <$> seqZ 0 i').
  { rewrite fmap_app, Hh, W8, <- fmap_app. f_equal.
    replace i' with (i + (i' - i)) at 2 by lia. rewrite seqZ_app by lia. by rewrite Z.add_0_l. }
  assert (Hadv : ∀ wake, (∀ h h' u, thread_ok h h' u → thread_ok h h' (wake u)) →
    (∀ u, finished (wake u) = finished u ∧ is_writer (wake u) = is_writer u) →
    threads s1 = wake <$> threads s →
    thread_ok (bytes_of k (sent s) ++ bs) [] (Writer src n i' st) →
    pipe_inv (set_threads (<[k := Writer src n i' st]> (threads s1)) s1)).
  { intros wake Hwk Hcl Hth Hok. eapply (inv_advance s _ k _ (Writer src n i' st) wake bs []); try done.
    - cbn [threads set_threads]. by rewrite Hth.
    - cbn [taken set_threads]. by rewrite app_nil_r.
    - rewrite Hh'. done. }
  assert (Hreaders : threads s1 = wake_reader <$> threads s → awake_inv s →
    (st = Asleep → used (pi s1) = PIPESIZE ∧ readopen (pi s1) ≠ 0) →
    awake_inv (set_threads (<[k := Writer src n i' st]> (threads s1)) s1)).
  { intros Hth Haw Hsl k' t Ht. cbn [threads set_threads pi] in *.
    apply list_lookup_insert_Some in Ht as [(-> & <- & _)|[Hne Ht]]; [by destruct st; auto|].
    rewrite Hth, list_lookup_fmap in Ht. destruct (threads s !! k') as [u|] eqn:Eu; [|done].
    injection Ht as <-. specialize (Haw k' u Eu).
    destruct u as [? ? ? []|? ? ? []]; simpl in *; try done. destruct Haw as [Hf Ho].
    pose proof (length_contents (pi s1)) as Hl. rewrite W2, length_app in Hl.
    pose proof (length_contents (pi s)). pose proof (ring_used _ W1).
    destruct W5 as [-> _]. split; [lia|done]. }
  destruct st as [| |z]; [done| |].
  - destruct Hst as (Hlt & Hfull & Hro & Hth). split.
    + apply (Hadv wake_reader); [apply thread_ok_wake_reader|apply wake_reader_class|done|]. split_and!; done || lia.
    + intros _ Haw. apply Hreaders; [done|done|]. intros _. destruct W5 as [-> _]. done.
  - destruct Hst as [(-> & Hend & Hth)|(-> & Hlt & Hwhy & Hth)].
    + split; [|intros _ Haw; by apply Hreaders].
      apply (Hadv wake_reader); [apply thread_ok_wake_reader|apply wake_reader_class|done|].
      split_and!; try done; [lia|lia|]. by left.
    + split.
      * apply (Hadv id); [done|done|by rewrite list_fmap_id|]. split_and!; try done; [lia|lia|]. by right.
      * intros Hsteady Haw. assert (bs = []) as ->.
        { assert (i' = i) as ->.
          { destruct (decide (i = i')) as [|Hne]; [done|]. destruct Hwhy as [Hz|Ht].
            - destruct (W7 ltac:(lia)). done.
            - rewrite Hsteady, <- (Hsteady i), Hkill in Ht by lia. done. }
          rewrite Z.sub_diag in W8. by destruct bs. }
        rewrite app_nil_r in W2. intros k' t Ht. cbn [threads set_threads pi] in *.
        apply list_lookup_insert_Some in Ht as [(-> & <- & _)|[Hne Ht]]; [done|].
        rewrite Hth in Ht. specialize (Haw k' t Ht). destruct W5 as (He1 & He2 & _).
        rewrite He1, He2, W2, (used_same _ _ W2). done.
Qed.

Lemma run_reader_ok s k kill dst n got :
  pipe_inv s → threads s !! k = Some (Reader dst n got Ready) →
  wp (r ← piperead k (kill 0) dst n;
      modify (λ s, set_threads (<[k := Reader dst n r.1 r.2]> (threads s)) s)) s (λ _ s',
    pipe_inv s' ∧ (awake_inv s → awake_inv s')).
Proof.
  intros HI Hk. pose proof (pv_threads _ HI _ _ Hk) as (Hh & Hlen & Hdel & Hh').
  apply wp_bind. eapply wp_mono; [apply piperead_ok, HI|].
  intros [got' st] s1 Hst. cbn [fst snd] in *. apply wp_modify.
  assert (Hstay : s1 = s → got' = [] → (st = Asleep → contents (pi s) = [] ∧ writeopen (pi s) ≠ 0) →
    match st with Done r => r = -1 | _ => True end →
    pipe_inv (set_threads (<[k := Reader dst n got' st]> (threads s1)) s1) ∧
    (awake_inv s → awake_inv (set_threads (<[k := Reader dst n got' st]> (threads s1)) s1))).
  { intros -> -> Hsl Hr. split.
    - eapply (inv_advance s _ k _ (Reader dst n [] st) id [] []); try done.
      + cbn [threads set_threads]. by rewrite list_fmap_id.
      + apply HI.
      + by rewrite app_nil_r.
      + by rewrite app_nil_r.
      + by rewrite app_nil_r.
      + rewrite Hh, Hh'. split_and!; [done|simpl; lia| |destruct st; auto].
        split; [simpl; lia|by left].
    - intros Haw k' t Ht. cbn [threads set_threads pi] in *.
      apply list_lookup_insert_Some in Ht as [(-> & <- & _)|[Hne Ht]]; [by destruct st; auto|].
      by apply (Haw k'). }
  destruct st as [| |z]; [done|by apply Hstay; naive_solver|].
  destruct Hst as [(-> & _ & -> & ->)|(-> & (D1 & D2 & bs & [R1 R2 R3 R4 R5] & Hd) & Hth)]; [by apply Hstay|].
  split.
  - eapply (inv_advance s _ k _ (Reader dst n got' (Done (Z.of_nat (length got')))) wake_writer [] bs); try done.
    + apply thread_ok_wake_writer.
    + apply wake_writer_class.
    + cbn [threads set_threads]. by rewrite Hth.
    + cbn [sent set_threads]. by rewrite app_nil_r.
    + by rewrite app_nil_r.
    + rewrite Hh, Hh', app_nil_l. split_and!; try done. by left.
  - intros Haw k' t Ht. cbn [threads set_threads pi] in *.
    apply list_lookup_insert_Some in Ht as [(-> & <- & _)|[Hne Ht]]; [done|].
    rewrite Hth, list_lookup_fmap in Ht. destruct (threads s !! k') as [u|] eqn:Eu; [|done].
    injection Ht as <-. specialize (Haw k' u Eu).
    destruct u as [? ? ? []|? ? ? []]; simpl in *; try done. destruct Haw as [Hc Ho].
    rewrite R2 in Hc. apply app_eq_nil in Hc as [_ ->]. destruct R5 as (_ & -> & _). done.
Qed.

(** A process that has not finished can run: its stretch ends, touches no freed
    memory and keeps the invariants. *)
Lemma run_thread_ok s k kill t :
  pipe_inv s → threads s !! k = Some t → finished t = false →
  wp (run_thread k kill) s (λ _ s', pipe_inv s' ∧ (steady kill → awake_inv s → awake_inv s')).
Proof.
  intros HI Hk Hfin. unfold run_thread. apply wp_bind, wp_gets. simpl.
  destruct (freed (pi s)) eqn:Ef.
  { exfalso. destruct (pv_freed _ HI Ef). by destruct (pv_closed _ HI _ _ Hk Hfin); destruct (is_writer t). }
  rewrite Hk. destruct t as [src n i []|dst n got []]; try done.
  - by apply run_writer_ok.
  - eapply wp_mono; [by eapply run_reader_ok|]. intros _ s' [? ?]. auto.
Qed.

Lemma interrupt_ok h h' t : thread_ok h h' t → thread_ok h h' (interrupt t).
Proof. intros. by apply thread_ok_wake_reader, thread_ok_wake_writer. Qed.

Lemma interrupt_class t : finished (interrupt t) = finished t ∧ is_writer (interrupt t) = is_writer t.
Proof. by destruct t as [? ? ? []|? ? ? []]. Qed.

(** Changes of the processes that move no byte. *)
Lemma inv_threads s ts :
  pipe_inv s → (∀ k t, ts !! k = Some t →
    (∃ u, threads s !! k = Some u ∧ (finished t = false → finished u = false) ∧ is_writer t = is_writer u ∧
      (∀ h h', thread_ok h h' u → thread_ok h h' t)) ∨
    (threads s !! k = None ∧ thread_ok [] [] t ∧ (if is_writer t then writeopen (pi s) else readopen (pi s)) ≠ 0)) →
  (length (threads s) <= length ts)%nat → pipe_inv (set_threads ts s).
Proof.
  intros [I1 I2 I3 I4 I5 I6] Hts Hlen. split; try done.
  - intros k t Hk. cbn [sent taken set_threads].
    destruct (Hts k t Hk) as [(u & Hu & _ & _ & Hok)|(Hu & Hok & _)]; [by eapply Hok, I3|].
    apply lookup_ge_None in Hu. destruct (I4 k Hu) as [-> ->]. done.
  - intros k Hk. apply I4. simpl in Hk. lia.
  - intros k t Hk Hf. cbn [pi set_threads].
    destruct (Hts k t Hk) as [(u & Hu & Hfu & -> & _)|(_ & _ & Ho)]; [|done]. eapply I5; eauto.
Qed.

Lemma close_inv (s : psys) (w : bool) :
  pipe_inv s → (if w then writeopen (pi s) else readopen (pi s)) ≠ 0 →
  Forall (λ t, is_writer t = w → finished t = true) (threads s) →
  wp (pipeclose w) s (λ _ s', pipe_inv s' ∧ (awake_inv s → awake_inv s')).
Proof.
  intros HI Hopen Hfin. rewrite list.Forall_lookup in Hfin.
  set (wake := if w then wake_reader else wake_writer).
  set (p := pi s).
  set (p' := mk_pipe (pi_data p) (nread p) (nwrite p) (if w then readopen p else 0) (if w then 0 else writeopen p)
    ((readopen p =? 0) && w || (writeopen p =? 0) && negb w || freed p)).
  assert (Hrun : pipeclose w s = Ok (tt, mk_psys p' (wake <$> threads s) (sent s) (taken s))).
  { unfold pipeclose, p', wake, p. destruct s as [[d r wr ro wo fr] ts se ta]. simpl in *.
    destruct w; unfold mbind, M_bind, modify, wakeup_nread, wakeup_nwrite, gets, mret, M_ret, set_pi, set_threads; simpl;
      rewrite ?andb_true_r, ?andb_false_r, ?orb_false_l, ?orb_false_r.
    - destruct (ro =? 0) eqn:E; simpl; [|done]. done.
    - destruct (wo =? 0) eqn:E; simpl; [|done]. done. }
  unfold wp. rewrite Hrun.
  assert (Hwake : ∀ u, finished (wake u) = finished u ∧ is_writer (wake u) = is_writer u).
  { intros u. unfold wake. destruct w; [apply wake_reader_class|apply wake_writer_class]. }
  assert (Hwok : ∀ h h' u, thread_ok h h' u → thread_ok h h' (wake u)).
  { intros h h' u. unfold wake. destruct w; [apply thread_ok_wake_reader|apply thread_ok_wake_writer]. }
  destruct HI as [I1 I2 I3 I4 I5 I6]. split.
  - split; cbn [pi threads sent taken].
    + destruct I1. by split.
    + done.
    + intros k t Ht. rewrite list_lookup_fmap in Ht. destruct (threads s !! k) as [u|] eqn:Eu; [|done].
      injection Ht as <-. auto.
    + intros k Hk. rewrite length_fmap in Hk. auto.
    + intros k t Ht Hf. rewrite list_lookup_fmap in Ht. destruct (threads s !! k) as [u|] eqn:Eu; [|done].
      injection Ht as <-. destruct (Hwake u) as [Hc1 Hc2]. rewrite Hc1 in Hf. rewrite Hc2.
      pose proof (I5 _ _ Eu Hf) as Ho. specialize (Hfin _ _ Eu).
      unfold p'. destruct w, (is_writer u); simpl; try done; rewrite Hfin in Hf; done.
    + unfold p'. simpl. intros Hfr. fold p in I6, Hopen.
      destruct w; simpl in *; rewrite ?andb_true_r, ?andb_false_r, ?orb_false_l, ?orb_false_r in Hfr;
        apply orb_true_iff in Hfr as [Hz%Z.eqb_eq|Hfr]; auto; destruct (I6 Hfr); done.
  - intros Haw k t Ht. cbn [pi threads] in *. rewrite list_lookup_fmap in Ht.
    destruct (threads s !! k) as [u|] eqn:Eu; [|done]. injection Ht as <-.
    specialize (Haw k u Eu). specialize (Hfin _ _ Eu). fold p in Haw.
    unfold wake, p'. destruct w, u as [? ? ? []|? ? ? []]; simpl in *; try done; by specialize (Hfin eq_refl).
Qed.

Lemma step_inv K s s' :
  psys_step K s s' → pipe_inv s →
  pipe_inv s' ∧ ((∀ kill, K kill → steady kill) → awake_inv s → awake_inv s').
Proof.
  intros Hstep HI. destruct Hstep as [s src n Ho|s dst n Ho|s k kill t s' Hk Hfin HK Hrun|s k t Hk|s w s' Ho Hfin Hrun].
  - split.
    + apply inv_threads; [done| |rewrite length_app; lia]. intros k t Ht.
      apply lookup_app_Some in Ht as [Ht|[Hge [Hz <-]%list_lookup_singleton_Some]].
      * left. exists t. auto.
      * right. split; [by apply lookup_ge_None|]. split; [|done]. simpl. split_and!; done || lia.
    + intros _ Haw k t Ht. cbn [threads set_threads] in Ht.
      apply lookup_app_Some in Ht as [Ht|[Hge [Hz <-]%list_lookup_singleton_Some]]; [by apply (Haw k)|done].
  - split.
    + apply inv_threads; [done| |rewrite length_app; lia]. intros k t Ht.
      apply lookup_app_Some in Ht as [Ht|[Hge [Hz <-]%list_lookup_singleton_Some]].
      * left. exists t. auto.
      * right. split; [by apply lookup_ge_None|]. split; [|done]. simpl.
        split_and!; try done; [lia|]. split; [simpl; lia|by left].
    + intros _ Haw k t Ht. cbn [threads set_threads] in Ht.
      apply lookup_app_Some in Ht as [Ht|[Hge [Hz <-]%list_lookup_singleton_Some]]; [by apply (Haw k)|done].
  - pose proof (run_thread_ok s k kill t HI Hk Hfin) as Hwp. unfold wp in Hwp. rewrite Hrun in Hwp.
    destruct Hwp as [? Haw]. auto.
  - split.
    + apply inv_threads; [done| |by rewrite length_insert]. intros k' t' Ht.
      apply list_lookup_insert_Some in Ht as [(-> & <- & _)|[Hne Ht]].
      * left. exists t. destruct (interrupt_class t). split_and!; [done|congruence|done|intros h h'; apply interrupt_ok].
      * left. exists t'. auto.
    + intros _ Haw k' t' Ht. cbn [threads set_threads] in Ht.
      apply list_lookup_insert_Some in Ht as [(-> & <- & _)|[Hne Ht]]; [|by apply (Haw k')].
      by destruct t as [? ? ? []|? ? ? []].
  - pose proof (close_inv s w HI Ho Hfin) as Hwp. unfold wp in Hwp. rewrite Hrun in Hwp.
    destruct Hwp as [? Haw]. auto.
Qed.

Lemma reachable_inv K s : reachable K s → pipe_inv s.
Proof.
  induction 1 as [page Hlen|s s' _ IH Hstep]; [|by eapply step_inv].
  by repeat split.
Qed.

(** C18. A pipe is a first-in first-out channel.  However readers and writers
    interleave, and across the wrap-around of the 32-bit counters: the bytes put
    in, in order, are the bytes taken out followed by what is in the ring; the
    ring never holds more than PIPESIZE bytes; each writer has put exactly the
    first [i] bytes of its buffer, in order; and each reader has delivered the
    bytes it took, except at most one last byte whose copyout failed. *)
Theorem pipe_fifo s :
  reachable any_time s →
  (sent s).*2 = (taken s).*2 ++ contents (pi s) ∧
  Z.of_nat (length (contents (pi s))) <= PIPESIZE ∧
  (∀ k src n i st, threads s !! k = Some (Writer src n i st) →
    Some <$> bytes_of k (sent s) = src <$> seqZ 0 i ∧ bytes_of k (taken s) = []) ∧
  (∀ k dst n got st, threads s !! k = Some (Reader dst n got st) →
    bytes_of k (sent s) = [] ∧ delivered dst got (bytes_of k (taken s))).
Proof.
  intros HI%reachable_inv. split; [apply HI|]. split; [rewrite length_contents; apply HI|]. split.
  - intros k src n i st Hk. by destruct (pv_threads _ HI _ _ Hk) as (_ & _ & ? & ? & _).
  - intros k dst n got st Hk. by destruct (pv_threads _ HI _ _ Hk) as (? & _ & ? & _).
Qed.

(** Whenever a process inside pipewrite or piperead has the lock, its stretch
    ends after finitely many rounds (the fuel of the loops suffices), without a
    panic and without touching a pipe that was freed; what pipewrite returns is
    -1 or the number of bytes it put, which is less than [n] only if a copyin
    failed, and what piperead returns is -1 or the number of bytes delivered. *)
Lemma pipe_returns s k kill t :
  reachable any_time s → threads s !! k = Some t → finished t = false →
  wp (run_thread k kill) s (λ _ s', reachable any_time s' ∧
    (∀ src n i r, threads s' !! k = Some (Writer src n i (Done r)) →
      r = -1 ∨ (r = Z.of_nat (length (bytes_of k (sent s'))) ∧ (Z.max 0 n <= r ∨ src r = None))) ∧
    (∀ dst n got r, threads s' !! k = Some (Reader dst n got (Done r)) →
      r = -1 ∨ (r = Z.of_nat (length got) ∧ r <= Z.max 0 n))).
Proof.
  intros Hr Hk Hfin. pose proof (reachable_inv _ _ Hr) as HI.
  pose proof (run_thread_ok s k kill t HI Hk Hfin) as Hwp. apply wp_ok in Hwp as ([] & s' & Hrun & HI' & _).
  eapply wp_eq; [done|]. split; [by eapply reach_step; [|eapply step_run]|]. split.
  - intros src n i r Ht. destruct (pv_threads _ HI' _ _ Ht) as (Hi & Hin & Hb & _ & [[-> Hend]|[-> _]]); [|by left].
    right. apply (f_equal length) in Hb. rewrite !length_fmap, length_seqZ in Hb. split; [lia|].
    destruct Hend; [left; lia|by right].
  - intros dst n got r Ht. destruct (pv_threads _ HI' _ _ Ht) as (_ & Hle & _ & [->|[-> _]]); [|by left].
    by right.
Qed.

(** C19. No wake-up is lost, provided no writer is killed while it holds the
    lock: a process that sleeps in pipewrite does so while the ring is full and
    the read end open, and one that sleeps in piperead while the ring is empty
    and the write end open. *)
Theorem pipe_no_lost_wakeup s :
  reachable steady s → ∀ k t, threads s !! k = Some t →
  match t with
  | Writer _ _ _ Asleep => used (pi s) = PIPESIZE ∧ readopen (pi s) ≠ 0
  | Reader _ _ _ Asleep => contents (pi s) = [] ∧ writeopen (pi s) ≠ 0
  | _ => True
  end.
Proof.
  change (reachable steady s → awake_inv s). induction 1 as [page Hlen|s s' Hr IH Hstep].
  - intros k t Hk. simpl in Hk. by destruct k.
  - apply (step_inv _ _ _ Hstep); [by eapply reachable_inv|auto|done].
Qed.

(** ** A run: three bytes written, then a read of two *)

Definition run_of {A} (m : M psys A) (s : psys) : psys := match m s with Ok (_, s') => s' | _ => s end.

Definition never (i : Z) : bool := false.
Definition demo_src (i : Z) : option Z := Some (i + 65).
Definition demo_dst (i : Z) : bool := true.

Definition demo_s1 : psys :=
  let s := new_pipe (replicate 512 0) in set_threads (threads s ++ [Writer demo_src 3 0 Ready]) s.
Definition demo_s2 : psys := run_of (run_thread 0 never) demo_s1.
Definition demo_s3 : psys := set_threads (threads demo_s2 ++ [Reader demo_dst 2 [] Ready]) demo_s2.
Definition demo_s4 : psys := run_of (run_thread 1 never) demo_s3.

Lemma demo_s3_reachable (K : (Z → bool) → Prop) : K never → reachable K demo_s3.
Proof.
  intros HK. apply reach_step with demo_s2; [|apply step_read; vm_compute; discriminate].
  apply reach_step with demo_s1; [|eapply step_run with (k := 0%nat); [reflexivity|reflexivity|exact HK|vm_compute; reflexivity]].
  eapply reach_step; [apply (reach_new _ (replicate 512 0)); reflexivity|by apply step_write].
Qed.

Lemma demo_s4_reachable (K : (Z → bool) → Prop) : K never → reachable K demo_s4.
Proof.
  intros HK. apply reach_step with demo_s3; [by apply demo_s3_reachable|].
  eapply step_run with (k := 1%nat); [vm_compute; reflexivity|reflexivity|exact HK|vm_compute; reflexivity].
Qed.

Lemma pipe_fifo_witness :
  ((sent demo_s4).*2 = [65; 66; 67] ∧ (taken demo_s4).*2 = [65; 66]) ∧
  (sent demo_s4).*2 = (taken demo_s4).*2 ++ contents (pi demo_s4).
Proof.
  split; [split; vm_compute; reflexivity|].
  exact (proj1 (pipe_fifo demo_s4 (demo_s4_reachable any_time I))).
Defined.

(** A reader that found the pipe empty. *)
Lemma pipe_no_lost_wakeup_witness :
  let s := run_of (run_thread 0 never)
    (set_threads [Reader demo_dst 2 [] Ready] (new_pipe (replicate 512 0))) in
  threads s !! 0%nat = Some (Reader demo_dst 2 [] Asleep) ∧ contents (pi s) = [] ∧ writeopen (pi s) ≠ 0.
Proof.
  intros s. split; [vm_compute; reflexivity|].
  refine (pipe_no_lost_wakeup s _ 0%nat (Reader demo_dst 2 [] Asleep) _).
  - eapply reach_step; [|eapply (step_run _ (set_threads [Reader demo_dst 2 [] Ready] (new_pipe (replicate 512 0))) 0 never)].
    + eapply reach_step; [apply (reach_new _ (replicate 512 0)); reflexivity|by apply (step_read _ (new_pipe (replicate 512 0)))].
    + reflexivity.
    + reflexivity.
    + by intros i.
    + vm_compute. reflexivity.
  - vm_compute. reflexivity.
Defined.
