(* ===== verification/Cache.v ===== *)
(** The interface between the buffer cache and the file system above it.

    [BlockCache] lists the operations of kernel/bio.c with the accesses to a
    buffer's [data] and [blockno]; [BlockCacheOk] states what they promise, in
    terms of an abstract cache [bcv] that knows blocks by their number.  The log
    and the file system are verified against these classes; Bio.v implements
    them. *)

From S2P Require Import Prelude Riscv Memory.

Definition BSIZE : Z := 1024.
Definition NBUF : nat := 30.
Definition ROOTDEV : Z := 1.

(** The [BSIZE] bytes of a block, from offset 0. *)
Abbreviation block := memory.

(** Where the code would sleep: the functions run alone, so it does not return. *)
Definition blocked {S A} : M S A := λ _, OutOfFuel.

Class BlockCache (S : Type) := {
  bc_read : Z → Z → M S nat;
  bc_write : nat → M S unit;
  bc_release : nat → M S unit;
  bc_pin : nat → M S unit;
  bc_unpin : nat → M S unit;
  bc_data : nat → M S block;
  bc_set : nat → block → M S unit;
  bc_blockno : nat → M S Z
}.

(** ** Abstract cache

    [v_disk] and [v_view] are the contents of the blocks on disk and as the users
    of the cache see them, [v_writes] the blocks written to disk in order,
    [v_refs] and [v_held] the reference counts and locks, and [v_busy] the number
    of buffers in use. *)
Record bcv := mk_bcv {
  v_disk : Z → block;
  v_writes : list (Z * block);
  v_view : Z → block;
  v_refs : Z → Z;
  v_held : Z → bool;
  v_busy : nat
}.

Definition fset {A} (f : Z → A) (bn : Z) (x : A) : Z → A := λ k, if decide (k = bn) then x else f k.

Lemma fset_eq {A} (f : Z → A) bn x : fset f bn x bn = x.
Proof. unfold fset. by rewrite decide_True. Qed.

Lemma fset_ne {A} (f : Z → A) bn x k : k ≠ bn → fset f bn x k = f k.
Proof. intros. unfold fset. by rewrite decide_False. Qed.

Definition v_get (bn : Z) (v : bcv) : bcv :=
  mk_bcv (v_disk v) (v_writes v) (v_view v) (fset (v_refs v) bn (v_refs v bn + 1)) (fset (v_held v) bn true)
    (v_busy v + if decide (v_refs v bn = 0%Z) then 1 else 0).
Definition v_set (bn : Z) (d : block) (v : bcv) : bcv :=
  mk_bcv (v_disk v) (v_writes v) (fset (v_view v) bn d) (v_refs v) (v_held v) (v_busy v).
Definition v_put (bn : Z) (v : bcv) : bcv :=
  mk_bcv (fset (v_disk v) bn (v_view v bn)) (v_writes v ++ [(bn, v_view v bn)]) (v_view v) (v_refs v) (v_held v)
    (v_busy v).
Definition v_rel (bn : Z) (v : bcv) : bcv :=
  mk_bcv (v_disk v) (v_writes v) (v_view v) (fset (v_refs v) bn (v_refs v bn - 1)) (fset (v_held v) bn false)
    (v_busy v - if decide (v_refs v bn = 1%Z) then 1 else 0).
Definition v_pin (bn : Z) (v : bcv) : bcv :=
  mk_bcv (v_disk v) (v_writes v) (v_view v) (fset (v_refs v) bn (v_refs v bn + 1)) (v_held v) (v_busy v).
Definition v_unpin (bn : Z) (v : bcv) : bcv :=
  mk_bcv (v_disk v) (v_writes v) (v_view v) (fset (v_refs v) bn (v_refs v bn - 1)) (v_held v) (v_busy v).

(** [bn] fetched, overwritten with [d], written to disk and released. *)
Definition v_wr (bn : Z) (d : block) (v : bcv) : bcv :=
  mk_bcv (fset (v_disk v) bn d) (v_writes v ++ [(bn, d)]) (fset (v_view v) bn d) (v_refs v) (v_held v) (v_busy v).

(** One reference given up. *)
Definition v_drop (bn : Z) (v : bcv) : bcv :=
  mk_bcv (v_disk v) (v_writes v) (v_view v) (fset (v_refs v) bn (v_refs v bn - 1)) (v_held v)
    (v_busy v - if decide (v_refs v bn = 1%Z) then 1 else 0).

(** Abstract caches are compared point by point. *)
#[global] Instance bcv_equiv : Equiv bcv := λ v v',
  (∀ bn, v_disk v bn = v_disk v' bn) ∧ v_writes v = v_writes v' ∧ (∀ bn, v_view v bn = v_view v' bn) ∧
  (∀ bn, v_refs v bn = v_refs v' bn) ∧ (∀ bn, v_held v bn = v_held v' bn) ∧ v_busy v = v_busy v'.

#[global] Instance bcv_equivalence : Equivalence (≡@{bcv}).
Proof.
  split.
  - intros v. by split_and!.
  - intros v v' (H1 & H2 & H3 & H4 & H5 & H6). by split_and!.
  - intros v1 v2 v3 (H1 & H2 & H3 & H4 & H5 & H6) (K1 & K2 & K3 & K4 & K5 & K6).
    split_and!; try (intros bn; etrans; eauto); congruence.
Qed.

(** A block is free to be fetched: not locked, and cached or with room for it. *)
Definition fetchable (v : bcv) (bn : Z) : Prop :=
  0 <= bn < 2 ^ 32 ∧ v_held v bn = false ∧ v_refs v bn < 2 ^ 32 - 1 ∧ (v_refs v bn ≠ 0 ∨ (v_busy v < NBUF)%nat).

(** [bc_at s h bn]: the buffer [h] is that of block [bn]. *)
Class BlockCacheOk (S : Type) `{BlockCache S} := {
  bc_abs : S → bcv → Prop;
  bc_at : S → nat → Z → Prop;
  bc_abs_proper s v v' : v ≡ v' → bc_abs s v → bc_abs s v';
  bc_writes_det s v v' : bc_abs s v → bc_abs s v' → v_writes v = v_writes v';
  bc_clean s v bn : bc_abs s v → v_refs v bn = 0 → v_view v bn = v_disk v bn;
  bc_refs_nonneg s v bn : bc_abs s v → 0 <= v_refs v bn;
  bc_idle s v : bc_abs s v → (∀ bn, v_refs v bn = 0) → v_busy v = 0%nat;
  bc_read_ok s v bn :
    bc_abs s v → fetchable v bn →
    wp (bc_read ROOTDEV bn) s (λ h s', bc_abs s' (v_get bn v) ∧ bc_at s' h bn ∧
      ∀ h' bn', bc_at s h' bn' → v_refs v bn' ≠ 0 → bc_at s' h' bn');
  bc_data_ok s v h bn :
    bc_abs s v → bc_at s h bn → wp (bc_data h) s (λ d s', s' = s ∧ d = v_view v bn);
  bc_blockno_ok s h bn : bc_at s h bn → wp (bc_blockno h) s (λ n s', s' = s ∧ n = bn);
  bc_set_ok s v h bn d :
    bc_abs s v → bc_at s h bn → v_refs v bn ≠ 0 →
    wp (bc_set h d) s (λ _ s', bc_abs s' (v_set bn d v) ∧ ∀ h' bn', bc_at s h' bn' → bc_at s' h' bn');
  bc_write_ok s v h bn :
    bc_abs s v → bc_at s h bn → v_held v bn = true →
    wp (bc_write h) s (λ _ s', bc_abs s' (v_put bn v) ∧ ∀ h' bn', bc_at s h' bn' → bc_at s' h' bn');
  bc_release_ok s v h bn :
    bc_abs s v → bc_at s h bn → v_held v bn = true → (v_refs v bn = 1 → v_view v bn = v_disk v bn) →
    wp (bc_release h) s (λ _ s', bc_abs s' (v_rel bn v) ∧ ∀ h' bn', bc_at s h' bn' → bc_at s' h' bn');
  bc_pin_ok s v h bn :
    bc_abs s v → bc_at s h bn → 0 < v_refs v bn < 2 ^ 32 - 1 →
    wp (bc_pin h) s (λ _ s', bc_abs s' (v_pin bn v) ∧ ∀ h' bn', bc_at s h' bn' → bc_at s' h' bn');
  bc_unpin_ok s v h bn :
    bc_abs s v → bc_at s h bn → 1 < v_refs v bn →
    wp (bc_unpin h) s (λ _ s', bc_abs s' (v_unpin bn v) ∧ ∀ h' bn', bc_at s h' bn' → bc_at s' h' bn')
}.

(** Projections of an abstract cache, and updates at known block numbers. *)
Ltac bcv_simpl := cbn [v_disk v_writes v_view v_refs v_held v_busy v_get v_set v_put v_rel v_pin v_unpin v_wr v_drop].
Ltac fset_simpl := repeat first [rewrite fset_eq | rewrite fset_ne by (assumption || congruence || lia)].
Ltac fset_cases :=
  let k := fresh "k" in intros k; unfold fset; repeat case_decide; subst; done || congruence || lia.
