(* ===== verification/Bio.v ===== *)
(** The buffer cache (kernel/bio.c) over the disk.

    [bst] is the disk, the array [bcache.buf] followed by [bcache.head] (index
    [NBUF]) with its [prev]/[next] pointers, and the process that runs.  The disk
    is a map from block numbers to contents; [virtio_disk_rw] is modelled by what
    a finished request has done, and [writes] records the write requests in order,
    so that the disk after a crash can be described.  A process that would sleep
    for a buffer's sleep-lock never returns here, since the functions run alone. *)

From S2P Require Import Prelude Riscv Memory Cache.

(** [struct buf]; [b_locked] and [b_pid] are its sleep-lock. *)
Record buf := mk_buf {
  b_valid : Z;
  b_disk : Z;
  b_dev : Z;
  b_blockno : Z;
  b_locked : Z;
  b_pid : Z;
  b_refcnt : Z;
  b_prev : nat;
  b_next : nat;
  b_data : block
}.

Definition buf0 : buf := mk_buf 0 0 0 0 0 0 0 0 0 ∅.

Record bst := mk_bst {
  bufs : list buf;
  disk : gmap Z block;
  writes : list (Z * block);
  mypid : Z
}.

Definition set_bufs (l : list buf) (s : bst) : bst := mk_bst l (disk s) (writes s) (mypid s).

Definition set_b_valid (v : Z) (b : buf) : buf :=
  mk_buf v (b_disk b) (b_dev b) (b_blockno b) (b_locked b) (b_pid b) (b_refcnt b) (b_prev b) (b_next b) (b_data b).
Definition set_b_lock (lk pid : Z) (b : buf) : buf :=
  mk_buf (b_valid b) (b_disk b) (b_dev b) (b_blockno b) lk pid (b_refcnt b) (b_prev b) (b_next b) (b_data b).
Definition set_b_refcnt (r : Z) (b : buf) : buf :=
  mk_buf (b_valid b) (b_disk b) (b_dev b) (b_blockno b) (b_locked b) (b_pid b) r (b_prev b) (b_next b) (b_data b).
Definition set_b_prev (p : nat) (b : buf) : buf :=
  mk_buf (b_valid b) (b_disk b) (b_dev b) (b_blockno b) (b_locked b) (b_pid b) (b_refcnt b) p (b_next b) (b_data b).
Definition set_b_next (n : nat) (b : buf) : buf :=
  mk_buf (b_valid b) (b_disk b) (b_dev b) (b_blockno b) (b_locked b) (b_pid b) (b_refcnt b) (b_prev b) n (b_data b).
Definition set_b_data (d : block) (b : buf) : buf :=
  mk_buf (b_valid b) (b_disk b) (b_dev b) (b_blockno b) (b_locked b) (b_pid b) (b_refcnt b) (b_prev b) (b_next b) d.
Definition recycle (dev blockno : Z) (b : buf) : buf :=
  mk_buf 0 (b_disk b) dev blockno (b_locked b) (b_pid b) 1 (b_prev b) (b_next b) (b_data b).

Definition bufat (s : bst) (i : nat) : buf := default buf0 (bufs s !! i).
Definition getbuf (i : nat) : M bst buf := gets (λ s, bufat s i).
Definition updbuf (i : nat) (f : buf → buf) : M bst unit :=
  modify (λ s, set_bufs (alter f i (bufs s)) s).

(** ** Sleep-locks of the buffers (kernel/sleeplock.c) *)

Definition acquiresleep (i : nat) : M bst unit :=
  b ← getbuf i;
  if truth (b_locked b) then blocked
  else pid ← gets mypid; updbuf i (set_b_lock 1 pid).

Definition releasesleep (i : nat) : M bst unit := updbuf i (set_b_lock 0 0).

Definition holdingsleep (i : nat) : M bst bool :=
  b ← getbuf i; pid ← gets mypid; mret (truth (b_locked b) && (b_pid b =? pid)).

(** ** The disk *)

Definition dblock (d : gmap Z block) (bn : Z) : block := default ∅ (d !! bn).

(** A request of [virtio_disk_rw] that has finished. *)
Definition virtio_disk_rw (i : nat) (write : bool) : M bst unit :=
  b ← getbuf i;
  if write
  then modify (λ s, mk_bst (bufs s) (<[b_blockno b := b_data b]> (disk s))
                      (writes s ++ [(b_blockno b, b_data b)]) (mypid s))
  else d ← gets disk; updbuf i (set_b_data (dblock d (b_blockno b))).

(** ** bio.c *)

(** The two searches of [bget]: forwards for the block, backwards for a buffer
    that nobody uses. *)
Definition find_cached (dev blockno : Z) (b : nat) : M bst (nat + option nat) :=
  if (b =? NBUF)%nat then mret (inr None)
  else
    x ← getbuf b;
    if (b_dev x =? dev) && (b_blockno x =? blockno) then mret (inr (Some b))
    else mret (inl (b_next x)).

Definition find_unused (b : nat) : M bst (nat + option nat) :=
  if (b =? NBUF)%nat then mret (inr None)
  else
    x ← getbuf b;
    if b_refcnt x =? 0 then mret (inr (Some b)) else mret (inl (b_prev x)).

Definition bget (dev blockno : Z) : M bst nat :=
  h ← getbuf NBUF;
  r ← loop (NBUF + 2) (find_cached dev blockno) (b_next h);
  match r with
  | Some b =>
      updbuf b (λ x, set_b_refcnt (w32 (b_refcnt x + 1)) x);;
      acquiresleep b;;
      mret b
  | None =>
      h ← getbuf NBUF;
      r ← loop (NBUF + 2) find_unused (b_prev h);
      match r with
      | Some b => updbuf b (recycle dev blockno);; acquiresleep b;; mret b
      | None => panic "bget: no buffers"
      end
  end.

Definition bread (dev blockno : Z) : M bst nat :=
  b ← bget dev blockno;
  x ← getbuf b;
  (if b_valid x =? 0 then virtio_disk_rw b false;; updbuf b (set_b_valid 1) else mret tt);;
  mret b.

Definition bwrite (b : nat) : M bst unit :=
  h ← holdingsleep b;
  if negb h then panic "bwrite" else virtio_disk_rw b true.

(** The list surgery of [brelse]: take [b] out and put it behind the head. *)
Definition unlink (b : nat) : M bst unit :=
  x ← getbuf b;
  updbuf (b_next x) (set_b_prev (b_prev x));;
  x ← getbuf b;
  updbuf (b_prev x) (set_b_next (b_next x)).

Definition link_front (b : nat) : M bst unit :=
  h ← getbuf NBUF;
  updbuf b (set_b_next (b_next h));;
  updbuf b (set_b_prev NBUF);;
  h ← getbuf NBUF;
  updbuf (b_next h) (set_b_prev b);;
  updbuf NBUF (set_b_next b).

Definition to_front (b : nat) : M bst unit := unlink b;; link_front b.

Definition brelse (b : nat) : M bst unit :=
  h ← holdingsleep b;
  if negb h then panic "brelse"
  else
    releasesleep b;;
    updbuf b (λ x, set_b_refcnt (w32 (b_refcnt x - 1)) x);;
    x ← getbuf b;
    if b_refcnt x =? 0 then to_front b else mret tt.

(** [binit]; each round of its loop links one buffer. *)
Definition binit_body (b : nat) : M bst unit :=
  h ← getbuf NBUF;
  updbuf b (set_b_next (b_next h));;
  updbuf b (set_b_prev NBUF);;
  updbuf b (set_b_lock 0 0);;
  h ← getbuf NBUF;
  updbuf (b_next h) (set_b_prev b);;
  updbuf NBUF (set_b_next b).

Definition binit : M bst unit :=
  updbuf NBUF (set_b_prev NBUF);;
  updbuf NBUF (set_b_next NBUF);;
  for_each (seq 0 NBUF) binit_body.

Definition bpin (b : nat) : M bst unit := updbuf b (λ x, set_b_refcnt (w32 (b_refcnt x + 1)) x).
Definition bunpin (b : nat) : M bst unit := updbuf b (λ x, set_b_refcnt (w32 (b_refcnt x - 1)) x).

#[global] Instance bio_cache : BlockCache bst := {
  bc_read := bread;
  bc_write := bwrite;
  bc_release := brelse;
  bc_pin := bpin;
  bc_unpin := bunpin;
  bc_data h := b ← getbuf h; mret (b_data b);
  bc_set h d := updbuf h (set_b_data d);
  bc_blockno h := b ← getbuf h; mret (b_blockno b)
}.
