(* ===== verification/BioList.v ===== *)
(** The doubly linked list of the buffer cache: the pointer updates of [binit]
    and [brelse] implement a list of buffers ordered by use. *)

From S2P Require Import Prelude Riscv Memory Cache Bio.

Implicit Types (s : bst) (l c : list nat) (b x y i j : nat).

(** ** Single updates *)

Lemma bufat_upd s i f j :
  bufat (set_bufs (alter f i (bufs s)) s) j =
  if decide (j = i ∧ (i < length (bufs s))%nat) then f (bufat s i) else bufat s j.
Proof.
  unfold bufat. cbn [bufs set_bufs]. destruct (decide (j = i)) as [->|Hne].
  - rewrite list_lookup_alter_eq. destruct (bufs s !! i) as [x|] eqn:E.
    + rewrite decide_True; [done|]. split; [done|]. by eapply lookup_lt_Some.
    + rewrite decide_False; [done|]. intros [_ ?]. apply lookup_ge_None in E. lia.
  - rewrite list_lookup_alter_ne by done. rewrite decide_False by naive_solver. done.
Qed.

Lemma wp_updbuf i f s (Q : unit → bst → Prop) :
  (i < length (bufs s))%nat →
  (∀ s', length (bufs s') = length (bufs s) → disk s' = disk s → writes s' = writes s → mypid s' = mypid s →
    (∀ j, bufat s' j = if decide (j = i) then f (bufat s i) else bufat s j) → Q tt s') →
  wp (updbuf i f) s Q.
Proof.
  intros Hi HQ. apply wp_modify, HQ; try done.
  - cbn [bufs set_bufs]. apply length_alter.
  - intros j. rewrite bufat_upd. destruct (decide (j = i)); [by rewrite decide_True|].
    rewrite decide_False; [done|]. naive_solver.
Qed.

(** ** Chains *)

(** [c] can be walked along [next] forwards and along [prev] backwards. *)
Fixpoint chain s c : Prop :=
  match c with
  | x :: c' =>
      match c' with
      | y :: _ => b_next (bufat s x) = y ∧ b_prev (bufat s y) = x ∧ chain s c'
      | [] => True
      end
  | [] => True
  end.

Lemma chain_cons s x y c :
  chain s (x :: y :: c) ↔ b_next (bufat s x) = y ∧ b_prev (bufat s y) = x ∧ chain s (y :: c).
Proof. done. Qed.

Lemma chain_app s x c c' : chain s (c ++ x :: c') ↔ chain s (c ++ [x]) ∧ chain s (x :: c').
Proof.
  induction c as [|y c IH]; [simpl; tauto|].
  destruct c as [|z c]; cbn [app] in *; rewrite !chain_cons; [simpl; tauto|]. tauto.
Qed.

(** The [next] of the last and the [prev] of the first element do not matter. *)
Lemma chain_frame s s' c :
  (∀ k x, c !! k = Some x → (S k < length c)%nat → b_next (bufat s' x) = b_next (bufat s x)) →
  (∀ k x, c !! S k = Some x → b_prev (bufat s' x) = b_prev (bufat s x)) →
  chain s c → chain s' c.
Proof.
  induction c as [|x c IH]; intros Hn Hp; [done|]. destruct c as [|y c]; [done|].
  rewrite !chain_cons. intros (H1 & H2 & H3). split_and!.
  - rewrite (Hn 0%nat x); simpl; [done|done|lia].
  - rewrite (Hp 0%nat y); done.
  - apply IH; [|intros k z Hk; by apply (Hp (S k))|done].
    intros k z Hk Hlen. apply (Hn (S k)); [done|simpl in *; lia].
Qed.

(** The whole list: a cycle through the head. *)
Record dll s l : Prop := {
  dll_chain : chain s (NBUF :: l ++ [NBUF]);
  dll_nodup : NoDup (NBUF :: l);
  dll_len : Forall (λ x, x < length (bufs s))%nat (NBUF :: l)
}.

(** Taking out the element between [x] and [y]. *)
Lemma unlink_chain s s' A x b y B :
  chain s (A ++ x :: b :: y :: B) →
  (∀ z, b_next (bufat s' z) = if decide (z = x) then y else b_next (bufat s z)) →
  (∀ z, b_prev (bufat s' z) = if decide (z = y) then x else b_prev (bufat s z)) →
  (∀ k, A !! k ≠ Some x) → (∀ k, (A ++ [x]) !! S k ≠ Some y) →
  (∀ k, (S k < length (y :: B))%nat → (y :: B) !! k ≠ Some x) → (∀ k, B !! k ≠ Some y) →
  chain s' (A ++ x :: y :: B).
Proof.
  intros Hc Hn Hp N1 N2 N3 N4. rewrite chain_app in Hc. destruct Hc as [HA Hc].
  rewrite !chain_cons in Hc. destruct Hc as (_ & _ & _ & _ & HB).
  rewrite chain_app, chain_cons. split_and!.
  - revert HA. apply chain_frame.
    + intros k z Hz Hlen. rewrite length_app in Hlen. simpl in Hlen.
      rewrite Hn, decide_False; [done|]. intros ->. rewrite lookup_app_l in Hz by lia. by eapply N1.
    + intros k z Hz. rewrite Hp, decide_False; [done|]. intros ->. by eapply N2.
  - by rewrite Hn, decide_True.
  - by rewrite Hp, decide_True.
  - revert HB. apply chain_frame.
    + intros k z Hz Hlen. rewrite Hn, decide_False; [done|]. intros ->. by eapply N3.
    + intros k z Hz. rewrite Hp, decide_False; [done|]. intros ->. by eapply N4.
Qed.

(** Putting [b] behind the first element. *)
Lemma link_chain s s' h z b B :
  chain s (h :: z :: B) →
  (∀ w, b_next (bufat s' w) = if decide (w = h) then b else if decide (w = b) then z else b_next (bufat s w)) →
  (∀ w, b_prev (bufat s' w) = if decide (w = z) then b else if decide (w = b) then h else b_prev (bufat s w)) →
  b ≠ h → b ≠ z → (∀ k, (S k < length (z :: B))%nat → (z :: B) !! k ≠ Some h) →
  (∀ k, (z :: B) !! k ≠ Some b) → (∀ k, B !! k ≠ Some z) →
  chain s' (h :: b :: z :: B).
Proof.
  intros Hc Hn Hp N1 N2 N3 N4 N5. rewrite !chain_cons in *. destruct Hc as (_ & _ & HB). split_and!.
  - by rewrite Hn, decide_True.
  - by rewrite Hp, decide_False, decide_True.
  - by rewrite Hn, decide_False, decide_True.
  - by rewrite Hp, decide_True.
  - revert HB. apply chain_frame.
    + intros k w Hw Hlen. rewrite Hn, !decide_False; [done| |]; intros ->; [by eapply N4|by eapply N3].
    + intros k w Hw. rewrite Hp, !decide_False; [done| |]; intros ->; [by eapply (N4 (S k))|by eapply N5].
Qed.

(** [s'] is [s] but for the pointers. *)
Record relinked s s' : Prop := {
  rl_len : length (bufs s') = length (bufs s);
  rl_disk : disk s' = disk s;
  rl_writes : writes s' = writes s;
  rl_pid : mypid s' = mypid s;
  rl_buf : ∀ j, ∃ p n, bufat s' j = set_b_prev p (set_b_next n (bufat s j))
}.

Lemma relinked_refl s : relinked s s.
Proof. split; try done. intros j. exists (b_prev (bufat s j)), (b_next (bufat s j)). by destruct (bufat s j). Qed.

Lemma relinked_trans s1 s2 s3 : relinked s1 s2 → relinked s2 s3 → relinked s1 s3.
Proof.
  intros [? ? ? ? H1] [? ? ? ? H2]. split; try congruence. intros j.
  destruct (H1 j) as (p & n & E1), (H2 j) as (p' & n' & E2). exists p', n'. by rewrite E2, E1.
Qed.

Lemma relinked_upd s s' i f :
  length (bufs s') = length (bufs s) → disk s' = disk s → writes s' = writes s → mypid s' = mypid s →
  (∀ j, bufat s' j = if decide (j = i) then f (bufat s i) else bufat s j) →
  (∃ p n, f (bufat s i) = set_b_prev p (set_b_next n (bufat s i))) → relinked s s'.
Proof.
  intros ? ? ? ? Hb (p & n & Hf). split; try done. intros j. rewrite Hb. case_decide as Hj; [subst; eauto|].
  exists (b_prev (bufat s j)), (b_next (bufat s j)). by destruct (bufat s j).
Qed.

(** Setting one pointer. *)
Lemma wp_set_next i n s (Q : unit → bst → Prop) :
  (i < length (bufs s))%nat →
  (∀ s', relinked s s' → (∀ j, b_next (bufat s' j) = if decide (j = i) then n else b_next (bufat s j)) →
    (∀ j, b_prev (bufat s' j) = b_prev (bufat s j)) → Q tt s') →
  wp (updbuf i (set_b_next n)) s Q.
Proof.
  intros Hi HQ. apply wp_updbuf; [done|]. intros s' H1 H2 H3 H4 H5. apply HQ.
  - eapply relinked_upd; [done..|]. exists (b_prev (bufat s i)), n. by destruct (bufat s i).
  - intros j. rewrite H5. by case_decide; subst.
  - intros j. rewrite H5. by case_decide; subst.
Qed.

Lemma wp_set_prev i p s (Q : unit → bst → Prop) :
  (i < length (bufs s))%nat →
  (∀ s', relinked s s' → (∀ j, b_prev (bufat s' j) = if decide (j = i) then p else b_prev (bufat s j)) →
    (∀ j, b_next (bufat s' j) = b_next (bufat s j)) → Q tt s') →
  wp (updbuf i (set_b_prev p)) s Q.
Proof.
  intros Hi HQ. apply wp_updbuf; [done|]. intros s' H1 H2 H3 H4 H5. apply HQ.
  - eapply relinked_upd; [done..|]. exists p, (b_next (bufat s i)). by destruct (bufat s i).
  - intros j. rewrite H5. by case_decide; subst.
  - intros j. rewrite H5. by case_decide; subst.
Qed.

Lemma NoDup_app_ne (l1 l2 : list nat) k1 k2 x :
  NoDup (l1 ++ l2) → l1 !! k1 = Some x → l2 !! k2 = Some x → False.
Proof.
  intros (_ & Hd & _)%list.NoDup_app H1 H2. eapply Hd; by eapply list_elem_of_lookup_2.
Qed.

(** The neighbours of an element of the list. *)
Lemma dll_neighbours s A b B :
  dll s (A ++ b :: B) → ∃ A' x y B', NBUF :: A = A' ++ [x] ∧ B ++ [NBUF] = y :: B' ∧
    b_prev (bufat s b) = x ∧ b_next (bufat s b) = y ∧
    chain s (A' ++ x :: b :: y :: B').
Proof.
  intros [Hc _ _]. destruct (exists_last (l := NBUF :: A)) as (A' & x & HA); [done|].
  destruct (B ++ [NBUF]) as [|y B'] eqn:EB; [by destruct B|].
  exists A', x, y, B'. do 2 (split; [done|]).
  rewrite <- app_assoc in Hc. change (NBUF :: A ++ (b :: B) ++ [NBUF]) with ((NBUF :: A) ++ b :: B ++ [NBUF]) in Hc.
  rewrite HA, EB, <- app_assoc in Hc. cbn [app] in Hc. pose proof Hc as Hc'.
  rewrite chain_app, !chain_cons in Hc'. by destruct Hc' as (_ & _ & ? & ? & _ & _).
Qed.

Record apart (h b : nat) (A B : list nat) : Prop := {
  ap_hA : h ∉ A; ap_hb : b ≠ h; ap_hB : h ∉ B;
  ap_A : NoDup A; ap_B : NoDup B; ap_bA : b ∉ A; ap_bB : b ∉ B;
  ap_AB : ∀ z, z ∈ A → z ∈ B → False
}.

Lemma NoDup_apart h b A B : NoDup (h :: A ++ b :: B) ↔ apart h b A B.
Proof.
  rewrite list.NoDup_cons, list.NoDup_app, list.NoDup_cons, not_elem_of_app, not_elem_of_cons. split.
  - intros ((? & ? & ?) & ? & Hd & ? & ?). split; try done.
    + intros Hb. by eapply Hd; [|apply elem_of_cons; left].
    + intros z Hz Hz'. eapply Hd; [done|]. apply elem_of_cons. by right.
  - intros []. split_and!; try done. intros z Hz [->|?]%elem_of_cons; eauto.
Qed.

Lemma unlink_ok b A B s (Q : unit → bst → Prop) :
  dll s (A ++ b :: B) →
  (∀ s', relinked s s' → dll s' (A ++ B) → Q tt s') →
  wp (unlink b) s Q.
Proof.
  intros Hd HQ. destruct (dll_neighbours _ _ _ _ Hd) as (A' & x & y & B' & HA & HB & Hpx & Hny & Hc).
  destruct Hd as [_ Hnd Hlen]. apply NoDup_apart in Hnd as [].
  rewrite list.Forall_cons, list.Forall_app, list.Forall_cons in Hlen. destruct Hlen as (Lh & LA & Lb & LB).
  assert (Hx : x = NBUF ∨ x ∈ A).
  { apply elem_of_cons. rewrite HA. apply elem_of_app. right. by apply list_elem_of_singleton. }
  assert (Hy : y ∈ B ∨ y = NBUF).
  { rewrite <- list_elem_of_singleton, <- elem_of_app, HB. apply elem_of_cons. by left. }
  rewrite list.Forall_forall in LA, LB.
  assert (Hxl : (x < length (bufs s))%nat) by (destruct Hx as [->|?]; auto).
  assert (Hyl : (y < length (bufs s))%nat) by (destruct Hy as [?| ->]; auto).
  assert (Hby : b ≠ y) by (intros <-; destruct Hy; auto).
  apply wp_bind, wp_gets. rewrite Hpx, Hny. apply wp_bind, wp_set_prev; [done|].
  intros s1 R1 P1 N1. apply wp_bind, wp_gets. rewrite P1, N1, Hpx, Hny.
  rewrite (decide_False (P := b = y)) by done.
  apply wp_set_next; [by rewrite (rl_len _ _ R1)|]. intros s2 R2 N2 P2.
  apply HQ; [by eapply relinked_trans|]. split.
  - change (NBUF :: (A ++ B) ++ [NBUF]) with ((NBUF :: A ++ B) ++ [NBUF]).
    rewrite app_comm_cons, <- app_assoc, HA, HB, <- app_assoc. cbn [app].
    apply (unlink_chain s) with (b := b); [done|..].
    + intros z. rewrite N2, N1. done.
    + intros z. rewrite P2, P1. done.
    + intros k Hk. eapply (NoDup_app_ne A' [x] k 0%nat x); [rewrite <- HA; by apply list.NoDup_cons|done|done].
    + intros k Hk. rewrite <- HA in Hk. apply (list_elem_of_lookup_2 A k) in Hk. destruct Hy as [Hy| ->]; eauto.
    + intros k Hlt Hk. rewrite <- HB in Hk, Hlt. rewrite length_app in Hlt. simpl in Hlt.
      rewrite lookup_app_l in Hk by lia. apply list_elem_of_lookup_2 in Hk. destruct Hx as [->|Hx]; eauto.
    + intros k Hk%list_elem_of_lookup_2. destruct B as [|y' B].
      { injection HB as <- <-. by apply elem_of_nil in Hk. }
      injection HB as -> <-. apply list.NoDup_cons in ap_B0 as [HyB _].
      apply elem_of_app in Hk as [?|Hk%list_elem_of_singleton]; [done|]. subst y.
      apply ap_hB0, elem_of_cons. by left.
  - apply list.NoDup_cons. rewrite not_elem_of_app, list.NoDup_app. split_and!; done.
  - rewrite (rl_len _ _ R2), (rl_len _ _ R1), list.Forall_cons, list.Forall_app.
    split_and!; [done|by apply list.Forall_forall..].
Qed.

(** Putting an unlinked buffer behind the head. *)
Lemma link_ok b l s (Q : unit → bst → Prop) :
  dll s l → b ∉ NBUF :: l → (b < length (bufs s))%nat →
  (∀ s', relinked s s' → dll s' (b :: l) → Q tt s') →
  wp (link_front b) s Q.
Proof.
  intros [Hc Hnd Hlen] Hb Hbl HQ. apply not_elem_of_cons in Hb as [Hb0 Hbl'].
  pose proof (proj1 (list.Forall_forall _ _) Hlen) as Hlen'.
  destruct (l ++ [NBUF]) as [|z B] eqn:Ez; [by destruct l|].
  assert (Hz : z ∈ l ∨ z = NBUF).
  { rewrite <- list_elem_of_singleton, <- elem_of_app, Ez. apply elem_of_cons. by left. }
  assert (Hzl : (z < length (bufs s))%nat).
  { apply Hlen'. apply elem_of_cons. tauto. }
  assert (Hbz : b ≠ z) by (intros <-; destruct Hz; auto).
  pose proof Hc as Hc0. apply chain_cons in Hc0 as (Hnz & _ & _).
  apply wp_bind, wp_gets. rewrite Hnz. apply wp_bind, wp_set_next; [done|]. intros s1 R1 N1 P1.
  apply wp_bind, wp_set_prev; [by rewrite (rl_len _ _ R1)|]. intros s2 R2 P2 N2.
  apply wp_bind, wp_gets. rewrite N2, N1, (decide_False (P := NBUF = b)), Hnz by done.
  assert (L2 : length (bufs s2) = length (bufs s)) by (rewrite (rl_len _ _ R2); apply R1).
  apply wp_bind, wp_set_prev; [by rewrite L2|]. intros s3 R3 P3 N3.
  assert (L3 : length (bufs s3) = length (bufs s)) by (rewrite (rl_len _ _ R3); done).
  apply wp_set_next; [rewrite L3; apply Hlen', elem_of_cons; by left|]. intros s4 R4 N4 P4.
  apply HQ; [exact (relinked_trans _ _ _ R1 (relinked_trans _ _ _ R2 (relinked_trans _ _ _ R3 R4)))|].
  apply list.NoDup_cons in Hnd as Hnd'. destruct Hnd' as [Hn0 Hndl]. split.
  - cbn [app]. rewrite Ez. apply (link_chain s); [done|..]; try done.
    + intros w. rewrite N4, N3, N2, N1. done.
    + intros w. rewrite P4, P3, P2, P1. done.
    + intros k Hlt Hk. rewrite <- Ez in Hk, Hlt. rewrite length_app in Hlt. simpl in Hlt.
      rewrite lookup_app_l in Hk by lia. by apply list_elem_of_lookup_2 in Hk.
    + intros k Hk%list_elem_of_lookup_2. rewrite <- Ez in Hk.
      apply elem_of_app in Hk as [?|?%list_elem_of_singleton]; done.
    + intros k Hk%list_elem_of_lookup_2. destruct l as [|z' l].
      { injection Ez as <- <-. by apply elem_of_nil in Hk. }
      injection Ez as -> <-. apply list.NoDup_cons in Hndl as [HzB _].
      apply elem_of_app in Hk as [?|Hk%list_elem_of_singleton]; [done|]. subst z.
      apply Hn0, elem_of_cons. by left.
  - apply list.NoDup_cons. rewrite not_elem_of_cons, list.NoDup_cons. split_and!; done.
  - assert (L4 : length (bufs s4) = length (bufs s)) by (rewrite (rl_len _ _ R4); done).
    rewrite L4. apply list.Forall_cons in Hlen as [? ?]. by repeat constructor.
Qed.

Lemma to_front_ok b A B s (Q : unit → bst → Prop) :
  dll s (A ++ b :: B) →
  (∀ s', relinked s s' → dll s' (b :: A ++ B) → Q tt s') →
  wp (to_front b) s Q.
Proof.
  intros Hd HQ. pose proof Hd as [_ Hnd Hlen]. apply NoDup_apart in Hnd as [].
  unfold to_front. apply wp_bind. eapply unlink_ok; [done|]. intros s1 R1 D1.
  apply link_ok with (A ++ B); [done| | |].
  - rewrite not_elem_of_cons, not_elem_of_app. done.
  - rewrite (rl_len _ _ R1). apply list.Forall_cons in Hlen as [_ [_ [? _]%list.Forall_cons]%list.Forall_app]. done.
  - intros s2 R2 D2. apply HQ; [by eapply relinked_trans|done].
Qed.
