(* ===== verification/BioSpec.v ===== *)
(** What the buffer cache promises: a block's contents as its users see them
    ([cview]), reference counts and locks by block number, and the rules of
    [bread], [bwrite], [brelse], [bpin] and [bunpin] in those terms. *)

From S2P Require Import Prelude Riscv Memory Cache Bio BioList.

Implicit Types (s : bst) (l : list nat) (b x y i j h : nat) (bn : Z).

(** ** The searches of [bget] *)

(** [c] is walked by [step]. *)
Fixpoint path (step : nat → nat) (c : list nat) : Prop :=
  match c with
  | x :: c' => match c' with y :: _ => step x = y ∧ path step c' | [] => True end
  | [] => True
  end.

Lemma path_cons step x y c : path step (x :: y :: c) ↔ step x = y ∧ path step (y :: c).
Proof. done. Qed.

Lemma chain_forward s c : chain s c → path (λ x, b_next (bufat s x)) c.
Proof.
  induction c as [|x [|y c] IH]; [done..|]. rewrite chain_cons, path_cons. intros (? & _ & ?). auto.
Qed.

Lemma path_app step c x y : path step (c ++ [x]) → step x = y → path step ((c ++ [x]) ++ [y]).
Proof.
  induction c as [|z c IH]; [done|]. intros Hp Hy.
  specialize (IH ltac:(destruct c; [done|apply Hp]) Hy). destruct c as [|w c]; (split; [apply Hp|exact IH]).
Qed.

Lemma chain_backward s c : chain s c → path (λ x, b_prev (bufat s x)) (reverse c).
Proof.
  induction c as [|x [|y c] IH]; [done..|]. rewrite chain_cons. intros (_ & Hp & Hc).
  rewrite !reverse_cons. apply path_app; [|done]. rewrite <- reverse_cons. by apply IH.
Qed.

(** The first buffer on the way to the head with [P]. *)
Lemma search_ok (body : nat → M bst (nat + option nat)) (P : nat → bool) step s c fuel x
    (Q : option nat → bst → Prop) :
  (∀ b, body b s = if (b =? NBUF)%nat then Ok (inr None, s)
                   else if P b then Ok (inr (Some b), s) else Ok (inl (step b), s)) →
  path step (c ++ [NBUF]) → NBUF ∉ c → head (c ++ [NBUF]) = Some x → (length c < fuel)%nat →
  Q (List.find P c) s → wp (loop fuel body x) s Q.
Proof.
  intros Hbody. revert fuel x. induction c as [|y c IH]; intros fuel x Hp Hn Hx Hf HQ;
    (destruct fuel as [|fuel]; [simpl in Hf; lia|]); simpl in Hx; injection Hx as <-;
    apply wp_loop_S; unfold wp at 1; rewrite Hbody.
  - by rewrite Nat.eqb_refl.
  - apply not_elem_of_cons in Hn as [Hn1 Hn2]. rewrite (proj2 (Nat.eqb_neq y NBUF)) by done.
    simpl in HQ. destruct (P y) eqn:EP; [done|].
    destruct (c ++ [NBUF]) as [|z c'] eqn:Ec; [by destruct c|]. cbn [app] in Hp. rewrite Ec, path_cons in Hp.
    destruct Hp as [-> Hp]. apply IH; [done|done|done|simpl in Hf; lia|done].
Qed.

(** ** Blocks in the cache *)

Definition at_b s i bn : bool := (b_dev (bufat s i) =? ROOTDEV) && (b_blockno (bufat s i) =? bn).

(** Buffer [h] holds block [bn]. *)
Definition holds s h bn : Prop :=
  (h < NBUF)%nat ∧ b_dev (bufat s h) = ROOTDEV ∧ b_blockno (bufat s h) = bn.

Definition cached s bn : option nat := List.find (λ i, at_b s i bn) (seq 0 NBUF).

(** The contents of block [bn], its reference count and its lock. *)
Definition cview s bn : block :=
  match cached s bn with Some h => b_data (bufat s h) | None => dblock (disk s) bn end.
Definition refs s bn : Z := match cached s bn with Some h => b_refcnt (bufat s h) | None => 0 end.
Definition held s bn : bool := match cached s bn with Some h => truth (b_locked (bufat s h)) | None => false end.

(** The number of buffers in use. *)
Definition busy s : nat := length (filter (λ i, b_refcnt (bufat s i) ≠ 0) (seq 0 NBUF)).

Record buf_ok (d : gmap Z block) (b : buf) : Prop := {
  bk_ref : 0 <= b_refcnt b < 2 ^ 32;
  bk_lock : truth (b_locked b) = true → 0 < b_refcnt b;
  bk_dev : b_refcnt b ≠ 0 → b_dev b = ROOTDEV;
  bk_valid : b_dev b = ROOTDEV → b_valid b ≠ 0;
  bk_clean : b_refcnt b = 0 → b_dev b = ROOTDEV → b_data b = dblock d (b_blockno b)
}.

Record bio_ok s l : Prop := {
  bo_len : length (bufs s) = S NBUF;
  bo_perm : l ≡ₚ seq 0 NBUF;
  bo_dll : dll s l;
  bo_uniq : ∀ i j bn, holds s i bn → holds s j bn → i = j;
  bo_buf : ∀ i, (i < NBUF)%nat → buf_ok (disk s) (bufat s i)
}.

Lemma at_b_holds s i bn : (i < NBUF)%nat → at_b s i bn = true ↔ holds s i bn.
Proof. intros Hi. unfold at_b, holds. rewrite andb_true_iff, !Z.eqb_eq. tauto. Qed.

Lemma cached_holds s l h bn : bio_ok s l → cached s bn = Some h ↔ holds s h bn.
Proof.
  intros Hok. unfold cached. split.
  - intros Hf. apply find_some in Hf as [Hin Hat]. apply in_seq in Hin. apply at_b_holds; [lia|done].
  - intros Hh. destruct (List.find _ _) as [h'|] eqn:E.
    + f_equal. apply find_some in E as [Hin Hat]. apply in_seq in Hin.
      eapply (bo_uniq _ _ Hok); [apply at_b_holds; [lia|done]|done].
    + exfalso. pose proof (find_none _ _ E h) as Hn. cbn beta in Hn.
      rewrite (proj2 (at_b_holds s h bn (proj1 Hh)) Hh) in Hn.
      specialize (Hn ltac:(apply in_seq; destruct Hh; lia)). done.
Qed.

Lemma holds_view s l h bn : bio_ok s l → holds s h bn →
  cview s bn = b_data (bufat s h) ∧ refs s bn = b_refcnt (bufat s h) ∧ held s bn = truth (b_locked (bufat s h)).
Proof. intros Hok Hh. unfold cview, refs, held. by rewrite (proj2 (cached_holds s l h bn Hok) Hh). Qed.

Lemma not_holds_view s bn : cached s bn = None →
  cview s bn = dblock (disk s) bn ∧ refs s bn = 0 ∧ held s bn = false.
Proof. unfold cview, refs, held. by intros ->. Qed.

Lemma cached_none s bn : cached s bn = None ↔ ∀ h, ¬ holds s h bn.
Proof.
  split.
  - intros Hn h Hh. pose proof (find_none _ _ Hn h ltac:(apply in_seq; destruct Hh; lia)) as Hf. cbn beta in Hf.
    rewrite (proj2 (at_b_holds s h bn (proj1 Hh)) Hh) in Hf. done.
  - intros Hno. unfold cached. destruct (List.find _ _) as [h|] eqn:E; [|done].
    apply find_some in E as [Hin Hat]. apply in_seq in Hin. destruct (Hno h). apply at_b_holds; [lia|done].
Qed.

(** ** Updates *)

(** The parts of a buffer other than its list pointers. *)
Definition core (b : buf) : buf := set_b_prev 0 (set_b_next 0 b).

Lemma core_fields (b b' : buf) : core b = core b' →
  b_valid b = b_valid b' ∧ b_dev b = b_dev b' ∧ b_blockno b = b_blockno b' ∧ b_locked b = b_locked b' ∧
  b_pid b = b_pid b' ∧ b_refcnt b = b_refcnt b' ∧ b_data b = b_data b'.
Proof. destruct b, b'. unfold core, set_b_prev, set_b_next. simpl. intros [=]. by subst. Qed.

Lemma relinked_core s s' : relinked s s' → ∀ j, core (bufat s' j) = core (bufat s j).
Proof. intros [_ _ _ _ H] j. destruct (H j) as (p & n & ->). done. Qed.

Lemma count_one (P P' : nat → Prop) `{∀ i, Decision (P i)} `{∀ i, Decision (P' i)} (L : list nat) h :
  NoDup L → h ∈ L → (∀ i, i ≠ h → P i ↔ P' i) →
  (length (filter P' L) + (if decide (P h) then 1 else 0) =
   length (filter P L) + (if decide (P' h) then 1 else 0))%nat.
Proof.
  intros Hnd Hin Hsame.
  assert (Hout : ∀ L' : list nat, h ∉ L' → filter P' L' = filter P L').
  { intros L' Hn. apply filter_same. intros i Hi. symmetry. apply Hsame. intros ->. done. }
  apply list_elem_of_split in Hin as (L1 & L2 & ->).
  apply list.NoDup_app in Hnd as (_ & Hn1 & [Hn2 _]%list.NoDup_cons).
  rewrite !list.filter_app, !list.filter_cons, !length_app, (Hout L1), (Hout L2); [|done|].
  - repeat case_decide; simpl; lia.
  - intros Hh. eapply Hn1; [done|apply elem_of_cons; by left].
Qed.

Lemma busy_one s s' h :
  (h < NBUF)%nat → (∀ j, j ≠ h → b_refcnt (bufat s' j) = b_refcnt (bufat s j)) →
  (busy s' + (if decide (b_refcnt (bufat s h) = 0%Z) then 0 else 1) =
   busy s + (if decide (b_refcnt (bufat s' h) = 0%Z) then 0 else 1))%nat.
Proof.
  intros Hh Hsame. unfold busy.
  pose proof (count_one (λ i, b_refcnt (bufat s i) ≠ 0) (λ i, b_refcnt (bufat s' i) ≠ 0) (seq 0 NBUF) h
    (NoDup_seq _ _) ltac:(apply elem_of_seq; lia)) as Hc.
  cbn beta in Hc. specialize (Hc ltac:(intros i Hi; by rewrite Hsame)).
  repeat case_decide; try tauto; lia.
Qed.

Lemma busy_pos s h : (h < NBUF)%nat → b_refcnt (bufat s h) ≠ 0 → (0 < busy s)%nat.
Proof.
  intros Hh Hr. unfold busy.
  assert (Hin : h ∈ filter (λ i, b_refcnt (bufat s i) ≠ 0) (seq 0 NBUF)).
  { apply list_elem_of_filter. split; [done|]. apply elem_of_seq. lia. }
  destruct (filter _ _); [by apply elem_of_nil in Hin|simpl; lia].
Qed.

Lemma busy_room s : (busy s < NBUF)%nat → ∃ i, (i < NBUF)%nat ∧ b_refcnt (bufat s i) = 0.
Proof.
  intros Hb. destruct (decide (Exists (λ i, b_refcnt (bufat s i) = 0) (seq 0 NBUF))) as [He|Hn].
  - apply list.Exists_exists in He as (i & Hi%elem_of_seq & ?). exists i. split; [lia|done].
  - exfalso. unfold busy in Hb. rewrite filter_all in Hb.
    + rewrite length_seq in Hb. lia.
    + intros i Hi Hz. apply Hn, list.Exists_exists. eauto.
Qed.

(** Locks belong to the process that runs. *)
Definition mine s : Prop := ∀ i, (i < NBUF)%nat → truth (b_locked (bufat s i)) = true → b_pid (bufat s i) = mypid s.

Record bio_abs s (v : bcv) : Prop := {
  ba_ok : ∃ l, bio_ok s l;
  ba_mine : mine s;
  ba_disk : ∀ bn, v_disk v bn = dblock (disk s) bn;
  ba_writes : v_writes v = writes s;
  ba_view : ∀ bn, v_view v bn = cview s bn;
  ba_refs : ∀ bn, v_refs v bn = refs s bn;
  ba_held : ∀ bn, v_held v bn = held s bn;
  ba_busy : v_busy v = busy s
}.

Lemma holds_ext s s' : (∀ j, core (bufat s' j) = core (bufat s j)) → ∀ h bn, holds s' h bn ↔ holds s h bn.
Proof.
  intros Hc h bn. unfold holds. pose proof (core_fields _ _ (Hc h)) as (_ & -> & -> & _). done.
Qed.

Lemma cached_ext s s' bn : (∀ h, holds s' h bn ↔ holds s h bn) → cached s' bn = cached s bn.
Proof.
  intros Hh. unfold cached. apply find_same. intros i Hi%elem_of_seq.
  specialize (Hh i). rewrite <- !at_b_holds in Hh by lia. destruct (at_b s' i bn), (at_b s i bn); try done.
  - symmetry. by apply Hh.
  - by apply Hh.
Qed.

(** Relinking keeps the abstract cache. *)
Lemma relinked_abs s s' l l' v :
  bio_abs s v → bio_ok s l → relinked s s' → dll s' l' → l' ≡ₚ l → bio_abs s' v ∧ ∀ h bn, holds s' h bn ↔ holds s h bn.
Proof.
  intros [_ Hm A1 A2 A3 A4 A5 A6] Hok R Hd Hp. pose proof (relinked_core _ _ R) as Hc.
  pose proof (holds_ext _ _ Hc) as Hh. split; [|done].
  assert (Hcf : ∀ bn, cached s' bn = cached s bn) by (intros bn; apply cached_ext; auto).
  split.
  - exists l'. destruct Hok as [O1 O2 O3 O4 O5]. split.
    + rewrite (rl_len _ _ R). done.
    + by rewrite Hp.
    + done.
    + intros i j bn Hi Hj. apply Hh in Hi, Hj. by eapply O4.
    + intros i Hi. rewrite (rl_disk _ _ R).
      destruct (core_fields _ _ (Hc i)) as (E1 & E2 & E3 & E4 & E5 & E6 & E7).
      destruct (O5 i Hi). split; rewrite ?E1, ?E2, ?E3, ?E4, ?E5, ?E6, ?E7; done.
  - intros i Hi. destruct (core_fields _ _ (Hc i)) as (_ & _ & _ & -> & -> & _). rewrite (rl_pid _ _ R). auto.
  - by rewrite (rl_disk _ _ R).
  - by rewrite (rl_writes _ _ R).
  - intros bn. rewrite A3. unfold cview. rewrite Hcf, (rl_disk _ _ R).
    destruct (cached s bn) as [i|]; [|done]. by destruct (core_fields _ _ (Hc i)) as (_ & _ & _ & _ & _ & _ & ->).
  - intros bn. rewrite A4. unfold refs. rewrite Hcf.
    destruct (cached s bn) as [i|]; [|done]. by destruct (core_fields _ _ (Hc i)) as (_ & _ & _ & _ & _ & -> & _).
  - intros bn. rewrite A5. unfold held. rewrite Hcf.
    destruct (cached s bn) as [i|]; [|done]. by destruct (core_fields _ _ (Hc i)) as (_ & _ & _ & -> & _).
  - rewrite A6. unfold busy. f_equal. apply filter_same. intros i _.
    by destruct (core_fields _ _ (Hc i)) as (_ & _ & _ & _ & _ & -> & _).
Qed.

(** The list does not change when no pointer does. *)
Lemma dll_ext s s' l :
  length (bufs s') = length (bufs s) →
  (∀ j, b_next (bufat s' j) = b_next (bufat s j) ∧ b_prev (bufat s' j) = b_prev (bufat s j)) →
  dll s l → dll s' l.
Proof.
  intros Hl Hp [H1 H2 H3]. split; [|done|by rewrite Hl]. revert H1. apply chain_frame; intros; apply Hp.
Qed.

(** One buffer that holds [bn] changes to [b'], which still holds it. *)
Lemma update_abs s v h bn s' (b' : buf) dsk :
  bio_abs s v → holds s h bn → length (bufs s') = length (bufs s) → mypid s' = mypid s →
  (∀ j, bufat s' j = if decide (j = h) then b' else bufat s j) →
  b_prev b' = b_prev (bufat s h) → b_next b' = b_next (bufat s h) →
  b_dev b' = ROOTDEV → b_blockno b' = bn → buf_ok (disk s') b' →
  (truth (b_locked b') = true → b_pid b' = mypid s) →
  (∀ k, dblock (disk s') k = dsk k) → (∀ k, k ≠ bn → dsk k = v_disk v k) →
  bio_abs s' (mk_bcv dsk (writes s') (fset (v_view v) bn (b_data b')) (fset (v_refs v) bn (b_refcnt b'))
    (fset (v_held v) bn (truth (b_locked b')))
    (v_busy v - (if decide (v_refs v bn = 0%Z) then 0 else 1) + (if decide (b_refcnt b' = 0%Z) then 0 else 1))%nat) ∧
  ∀ h' k, holds s' h' k ↔ holds s h' k.
Proof.
  intros [[l Hok] Hm A1 A2 A3 A4 A5 A6] Hh Hlen Hpid Hb Hp Hn Hdev Hbno Hbok Hpid' Hdsk Hoth.
  pose proof Hh as (Hh1 & Hh2 & Hh3).
  assert (Hho : ∀ h' k, holds s' h' k ↔ holds s h' k).
  { intros h' k. unfold holds. rewrite Hb. case_decide as Hd; [|done]. subst h'. rewrite Hdev, Hbno, Hh2, Hh3. done. }
  assert (Hcf : ∀ k, cached s' k = cached s k) by (intros k; apply cached_ext; auto).
  pose proof (proj2 (cached_holds s l h bn Hok) Hh) as Hc.
  assert (Hne : ∀ k i, k ≠ bn → cached s k = Some i → i ≠ h).
  { intros k i Hk Hi ->. apply (cached_holds s l) in Hi as (_ & _ & Hi); [|done]. congruence. }
  split; [|done]. split; cbn [v_disk v_writes v_view v_refs v_held v_busy].
  - exists l. destruct Hok as [O1 O2 O3 O4 O5]. split.
    + congruence.
    + done.
    + eapply dll_ext; [done| |done]. intros j. rewrite Hb. case_decide; [subst; auto|done].
    + intros i j k Hi Hj. apply Hho in Hi, Hj. by eapply O4.
    + intros i Hi. rewrite Hb. case_decide as Hd; [done|]. destruct (O5 i Hi) as [K1 K2 K3 K4 K5]. split; try done.
      intros Hr Hdv. rewrite (K5 Hr Hdv), Hdsk. rewrite Hoth; [by rewrite A1|].
      intros Heq. apply Hd. eapply (O4 i h bn); [|done]. by split.
  - intros i Hi. rewrite Hb, Hpid. case_decide; [done|]. auto.
  - intros k. by rewrite Hdsk.
  - done.
  - intros k. unfold fset, cview. rewrite Hcf. case_decide as Hk.
    + subst k. rewrite Hc, Hb, decide_True by done. done.
    + rewrite A3. unfold cview. destruct (cached s k) as [i|] eqn:Ei.
      * rewrite Hb, decide_False by (by eapply Hne). done.
      * by rewrite Hdsk, Hoth, A1.
  - intros k. unfold fset, refs. rewrite Hcf. case_decide as Hk.
    + subst k. rewrite Hc, Hb, decide_True by done. done.
    + rewrite A4. unfold refs. destruct (cached s k) as [i|] eqn:Ei; [|done].
      rewrite Hb, decide_False by (by eapply Hne). done.
  - intros k. unfold fset, held. rewrite Hcf. case_decide as Hk.
    + subst k. rewrite Hc, Hb, decide_True by done. done.
    + rewrite A5. unfold held. destruct (cached s k) as [i|] eqn:Ei; [|done].
      rewrite Hb, decide_False by (by eapply Hne). done.
  - pose proof (busy_one s s' h Hh1) as Hbz. rewrite A4, A6. unfold refs. rewrite Hc.
    rewrite (Hb h), (decide_True (P := h = h)) in Hbz by done. pose proof (busy_pos s h Hh1).
    specialize (Hbz ltac:(intros j Hj; by rewrite Hb, decide_False)). repeat case_decide; try tauto; lia.
Qed.

(** ** The rules of the operations *)

Lemma bio_abs_proper s v v' : v ≡ v' → bio_abs s v → bio_abs s v'.
Proof.
  intros (E1 & E2 & E3 & E4 & E5 & E6) []. split; done || congruence.
Qed.

Lemma bio_clean s v bn : bio_abs s v → v_refs v bn = 0 → v_view v bn = v_disk v bn.
Proof.
  intros [[l Hok] _ A1 _ A3 A4 _ _] Hr. rewrite A3, A1. rewrite A4 in Hr.
  unfold cview, refs in *. destruct (cached s bn) as [h|] eqn:E; [|done].
  apply (cached_holds s l) in E as (Hh & Hd & Hb); [|done].
  rewrite (bk_clean _ _ (bo_buf _ _ Hok h Hh)) by done. by rewrite Hb.
Qed.

Lemma bio_refs s v bn : bio_abs s v → 0 <= v_refs v bn < 2 ^ 32.
Proof.
  intros [[l Hok] _ _ _ _ A4 _ _]. rewrite A4. unfold refs. destruct (cached s bn) as [h|] eqn:E; [|lia].
  apply (cached_holds s l) in E as (Hh & _); [|done]. apply (bk_ref _ _ (bo_buf _ _ Hok h Hh)).
Qed.

(** What the abstract cache says about the buffer of a block. *)
Lemma holds_abs s v h bn : bio_abs s v → holds s h bn →
  (h < length (bufs s))%nat ∧ v_view v bn = b_data (bufat s h) ∧ v_refs v bn = b_refcnt (bufat s h) ∧
  v_held v bn = truth (b_locked (bufat s h)) ∧ buf_ok (disk s) (bufat s h).
Proof.
  intros [[l Hok] _ _ _ A3 A4 A5 _] Hh. destruct (holds_view s l h bn Hok Hh) as (E1 & E2 & E3).
  rewrite A3, A4, A5, (bo_len _ _ Hok). destruct Hh as (Hlt & _). split_and!; [lia|done..|]. by apply (bo_buf _ _ Hok).
Qed.

(** A buffer that nobody uses is given to block [bn], which no buffer holds. *)
Lemma recycle_abs s v h bn s' (b' : buf) :
  bio_abs s v → (h < NBUF)%nat → b_refcnt (bufat s h) = 0 → cached s bn = None →
  length (bufs s') = length (bufs s) → mypid s' = mypid s → disk s' = disk s → writes s' = writes s →
  (∀ j, bufat s' j = if decide (j = h) then b' else bufat s j) →
  b_prev b' = b_prev (bufat s h) → b_next b' = b_next (bufat s h) →
  b_dev b' = ROOTDEV → b_blockno b' = bn → b_valid b' ≠ 0 → b_refcnt b' = 1 → b_locked b' = 1 →
  b_pid b' = mypid s → b_data b' = dblock (disk s) bn →
  bio_abs s' (v_get bn v) ∧ holds s' h bn ∧
  ∀ h' k, holds s h' k → v_refs v k ≠ 0 → holds s' h' k.
Proof.
  intros Hv Hh Hr Hno Hlen Hpid Hdk Hwr Hb Hp Hn Hdev Hbno Hval Hr' Hlk Hpid' Hdata.
  pose proof Hv as [[l Hok] Hm A1 A2 A3 A4 A5 A6].
  pose proof (proj1 (cached_none s bn) Hno) as Hno'.
  assert (Hnew : holds s' h bn) by (unfold holds; rewrite Hb, decide_True by done; done).
  assert (Hother : ∀ j k, j ≠ h → holds s' j k ↔ holds s j k).
  { intros j k Hj. unfold holds. by rewrite Hb, decide_False. }
  assert (Hu : ∀ i j k, holds s' i k → holds s' j k → i = j).
  { intros i j k Hi Hj. destruct (decide (i = h)) as [->|Hi'], (decide (j = h)) as [->|Hj']; try done.
    - apply Hother in Hj; [|done]. destruct Hi as (_ & _ & Hi). rewrite Hb, decide_True in Hi by done.
      destruct (Hno' j). congruence.
    - apply Hother in Hi; [|done]. destruct Hj as (_ & _ & Hj). rewrite Hb, decide_True in Hj by done.
      destruct (Hno' i). congruence.
    - apply Hother in Hi, Hj; [|done..]. by eapply (bo_uniq _ _ Hok). }
  assert (Hok' : bio_ok s' l).
  { destruct Hok as [O1 O2 O3 O4 O5]. split; try done.
    - congruence.
    - eapply dll_ext; [done| |done]. intros j. rewrite Hb. case_decide; [subst; auto|done].
    - intros i Hi. rewrite Hb, Hdk. case_decide; [|by apply O5]. split; rewrite ?Hr'; try done; lia. }
  assert (Hcf : ∀ k, k ≠ bn → cached s' k = match cached s k with
    | Some i => if decide (i = h) then None else Some i | None => None end).
  { intros k Hk. destruct (cached s k) as [i|] eqn:E.
    - apply (cached_holds s l) in E; [|done]. case_decide as Hi.
      + apply cached_none. intros j Hj. assert (j ≠ h).
        { intros ->. destruct Hj as (_ & _ & Hj). rewrite Hb, decide_True in Hj by done. congruence. }
        apply Hother in Hj; [|done]. subst i. by destruct (bo_uniq _ _ Hok _ _ _ E Hj).
      + apply (cached_holds s' l); [done|]. by apply Hother.
    - apply cached_none. intros j Hj. assert (j ≠ h).
      { intros ->. destruct Hj as (_ & _ & Hj). rewrite Hb, decide_True in Hj by done. congruence. }
      apply Hother in Hj; [|done]. by apply (proj1 (cached_none s k) E j). }
  pose proof (proj2 (cached_holds s' l h bn Hok') Hnew) as Hcn.
  assert (Hold : ∀ k i, cached s k = Some i → i = h → refs s k = 0 ∧ cview s k = dblock (disk s) k ∧ held s k = false).
  { intros k i Hc ->. apply (cached_holds s l) in Hc; [|done].
    destruct (holds_view s l h k Hok Hc) as (-> & -> & ->). destruct Hc as (_ & Hd & Hk).
    pose proof (bo_buf _ _ Hok h Hh) as [_ K2 _ _ K5]. split_and!; [done|rewrite K5 by done; by rewrite Hk|].
    destruct (truth (b_locked (bufat s h))); [|done]. specialize (K2 eq_refl). lia. }
  split_and!; [|done|].
  - split; unfold v_get; cbn [v_disk v_writes v_view v_refs v_held v_busy].
    + by exists l.
    + intros i Hi. rewrite Hb, Hpid. case_decide; [by rewrite Hpid'|auto].
    + by rewrite Hdk.
    + congruence.
    + intros k. destruct (decide (k = bn)) as [->|Hk].
      * rewrite A3. unfold cview. rewrite Hno, Hcn, Hb, decide_True by done. done.
      * rewrite A3. unfold cview at 2. rewrite (Hcf k Hk), Hdk.
        destruct (cached s k) as [i|] eqn:E; [|by apply not_holds_view].
        case_decide as Hi; [by eapply Hold|]. unfold cview. rewrite E, Hb, decide_False by done. done.
    + intros k. unfold fset. case_decide as Hk.
      * subst k. unfold refs. rewrite Hcn, Hb, decide_True by done. rewrite Hr', A4. unfold refs. by rewrite Hno.
      * rewrite A4. unfold refs at 2. rewrite (Hcf k Hk).
        destruct (cached s k) as [i|] eqn:E; [|by apply not_holds_view].
        case_decide as Hi; [by eapply Hold|]. unfold refs. rewrite E, Hb, decide_False by done. done.
    + intros k. unfold fset. case_decide as Hk.
      * subst k. unfold held. rewrite Hcn, Hb, decide_True by done. by rewrite Hlk.
      * rewrite A5. unfold held at 2. rewrite (Hcf k Hk).
        destruct (cached s k) as [i|] eqn:E; [|by apply not_holds_view].
        case_decide as Hi; [by eapply Hold|]. unfold held. rewrite E, Hb, decide_False by done. done.
    + pose proof (busy_one s s' h Hh) as Hbz.
      rewrite (Hb h), (decide_True (P := h = h)), Hr, Hr' in Hbz by done.
      specialize (Hbz ltac:(intros j Hj; by rewrite Hb, decide_False)).
      rewrite A6, A4. unfold refs. rewrite Hno. rewrite decide_True, decide_False in Hbz by done.
      rewrite decide_True by done. lia.
  - intros h' k Hk Hrk. apply Hother; [|done]. intros ->. apply Hrk. rewrite A4.
    destruct (holds_view s l h k Hok Hk) as (_ & -> & _). done.
Qed.

Lemma bo_head s l : bio_ok s l → (NBUF < length (bufs s))%nat ∧ NBUF ∉ l ∧
  (∀ x, head (l ++ [NBUF]) = Some x → b_next (bufat s NBUF) = x) ∧
  (∀ x, head (reverse l ++ [NBUF]) = Some x → b_prev (bufat s NBUF) = x) ∧
  path (λ x, b_next (bufat s x)) (l ++ [NBUF]) ∧ path (λ x, b_prev (bufat s x)) (reverse l ++ [NBUF]) ∧
  length l = NBUF ∧ ∀ i, i ∈ l ↔ (i < NBUF)%nat.
Proof.
  intros [O1 O2 [Hc Hnd _] _ _]. apply list.NoDup_cons in Hnd as [Hn _].
  pose proof (chain_forward _ _ Hc) as Hf. pose proof (chain_backward _ _ Hc) as Hb.
  rewrite reverse_cons, reverse_snoc in Hb.
  assert (Hhd : ∀ step c, path step (NBUF :: c ++ [NBUF]) →
    path step (c ++ [NBUF]) ∧ ∀ x, head (c ++ [NBUF]) = Some x → step NBUF = x).
  { intros step c. destruct (c ++ [NBUF]) as [|y c']; [done|]. rewrite path_cons. intros [? ?]. split; [done|].
    intros x [= <-]. done. }
  destruct (Hhd _ _ Hf) as [Hf1 Hf2], (Hhd _ (reverse l) Hb) as [Hb1 Hb2].
  split_and!; try done.
  - lia.
  - by rewrite O2, length_seq.
  - intros i. rewrite O2, elem_of_seq. lia.
Qed.

Lemma find_cached_ok s l bn (Q : option nat → bst → Prop) :
  bio_ok s l →
  (∀ b, holds s b bn → Q (Some b) s) → (cached s bn = None → Q None s) →
  wp (h ← getbuf NBUF; loop (NBUF + 2) (find_cached ROOTDEV bn) (b_next h)) s Q.
Proof.
  intros Hok HS HN. destruct (bo_head s l Hok) as (_ & Hn & Hx & _ & Hp & _ & Hl & Hin).
  apply wp_bind, wp_gets. eapply (search_ok _ (λ i, at_b s i bn) _ s l); [|exact Hp|done| |lia|].
  - intros b. unfold find_cached. destruct (b =? NBUF)%nat; [done|]. unfold at_b, mbind, M_bind, getbuf, gets.
    by destruct ((b_dev (bufat s b) =? ROOTDEV) && (b_blockno (bufat s b) =? bn)).
  - destruct (l ++ [NBUF]) as [|x c] eqn:E; [by destruct l|]. simpl. by rewrite (Hx x).
  - destruct (List.find _ l) as [b|] eqn:E.
    + apply find_some in E as [Hb Hat]. apply list_elem_of_In, Hin in Hb. by apply HS, at_b_holds.
    + apply HN, cached_none. intros h Hh.
      pose proof (find_none _ _ E h ltac:(apply list_elem_of_In, Hin, Hh)) as Hf. cbn beta in Hf.
      by rewrite (proj2 (at_b_holds s h bn (proj1 Hh)) Hh) in Hf.
Qed.

Lemma find_unused_ok s l (Q : option nat → bst → Prop) :
  bio_ok s l → (busy s < NBUF)%nat →
  (∀ b, (b < NBUF)%nat → b_refcnt (bufat s b) = 0 → Q (Some b) s) →
  wp (h ← getbuf NBUF; loop (NBUF + 2) find_unused (b_prev h)) s Q.
Proof.
  intros Hok Hbusy HS. destruct (bo_head s l Hok) as (_ & Hn & _ & Hx & _ & Hp & Hl & Hin).
  apply wp_bind, wp_gets. eapply (search_ok _ (λ i, b_refcnt (bufat s i) =? 0) _ s (reverse l)); [|exact Hp| | | |].
  - intros b. unfold find_unused. destruct (b =? NBUF)%nat; [done|]. unfold mbind, M_bind, getbuf, gets.
    by destruct (b_refcnt (bufat s b) =? 0).
  - by rewrite elem_of_reverse.
  - destruct (reverse l ++ [NBUF]) as [|x c] eqn:E; [by destruct (reverse l)|]. simpl. by rewrite (Hx x).
  - rewrite length_reverse. lia.
  - destruct (List.find _ (reverse l)) as [b|] eqn:E.
    + apply find_some in E as [Hb Hr%Z.eqb_eq]. apply list_elem_of_In in Hb. rewrite elem_of_reverse in Hb.
      by apply HS; [apply Hin|].
    + destruct (busy_room s Hbusy) as (i & Hi & Hr).
      pose proof (find_none _ _ E i ltac:(apply list_elem_of_In; rewrite elem_of_reverse; by apply Hin)) as Hf.
      cbn beta in Hf. by rewrite Hr in Hf.
Qed.

Lemma truth_false z : truth z = false ↔ z = 0.
Proof. unfold truth. rewrite negb_false_iff. apply Z.eqb_eq. Qed.

Lemma bread_ok s v bn :
  bio_abs s v → fetchable v bn →
  wp (bread ROOTDEV bn) s (λ h s', bio_abs s' (v_get bn v) ∧ holds s' h bn ∧
    ∀ h' bn', holds s h' bn' → v_refs v bn' ≠ 0 → holds s' h' bn').
Proof.
  intros Hv (Hbn & Hheld & Href & Hroom). pose proof Hv as [[l Hok] Hm A1 A2 A3 A4 A5 A6].
  unfold bread, bget. apply wp_bind, wp_bind_assoc, wp_bind. eapply find_cached_ok; [done| |].
  - intros b Hb. destruct (holds_abs s v b bn Hv Hb) as (Hlt & Ev & Er & Eh & Kb). rewrite Hheld in Eh.
    symmetry in Eh. apply wp_bind, wp_updbuf; [done|]. intros s1 L1 D1 W1 P1 B1.
    apply wp_bind. unfold acquiresleep. apply wp_bind, wp_gets. rewrite B1, decide_True by done.
    cbn [b_locked set_b_refcnt]. rewrite Eh. apply wp_bind, wp_gets, wp_updbuf; [by rewrite L1|].
    intros s2 L2 D2 W2 P2 B2. apply wp_ret, wp_bind, wp_gets. rewrite B2, B1, !decide_True by done.
    cbn [b_valid set_b_lock set_b_refcnt].
    destruct Hb as (Hb1 & Hb2 & Hb3).
    rewrite (proj2 (Z.eqb_neq _ 0)) by (by apply (bk_valid _ _ Kb)). apply wp_bind, wp_ret, wp_ret.
    rewrite Er in *. destruct Kb as [K1 K2 K3 K4 K5].
    assert (Hw : w32 (b_refcnt (bufat s b) + 1) = b_refcnt (bufat s b) + 1) by (apply Z.mod_small; lia).
    destruct (update_abs s v b bn s2 (set_b_lock 1 (mypid s1) (set_b_refcnt (w32 (b_refcnt (bufat s b) + 1)) (bufat s b)))
      (v_disk v)) as [Hv2 Hh2]; try done.
    + congruence.
    + congruence.
    + intros j. rewrite B2, !B1. repeat case_decide; done || by subst.
    + rewrite Hw. split; cbn; rewrite ?D2, ?D1; try done; lia.
    + by rewrite D2, D1.
    + cbn [b_data b_refcnt b_locked set_b_lock set_b_refcnt] in Hv2. rewrite Hw in Hv2. split_and!.
      * revert Hv2. apply bio_abs_proper. unfold v_get. split_and!; cbn; rewrite ?Er; try done.
        -- congruence.
        -- intros k. unfold fset. case_decide; [by subst|done].
        -- pose proof (busy_pos s b Hb1). repeat case_decide; lia.
      * by apply Hh2.
      * intros h' k Hk _. by apply Hh2.
  - intros Hno. destruct (not_holds_view s bn Hno) as (Ev & Er & _). rewrite A4, Er in Hroom.
    destruct Hroom as [?|Hroom]; [done|]. rewrite A6 in Hroom.
    apply wp_bind_assoc, wp_bind. eapply find_unused_ok; [done|done|]. intros b Hb Hr.
    pose proof (bo_buf _ _ Hok b Hb) as Kb. pose proof (bo_len _ _ Hok) as Hlen.
    apply wp_bind, wp_updbuf; [lia|]. intros s1 L1 D1 W1 P1 B1.
    apply wp_bind. unfold acquiresleep. apply wp_bind, wp_gets. rewrite B1, decide_True by done.
    assert (Hul : truth (b_locked (bufat s b)) = false).
    { destruct (truth (b_locked (bufat s b))) eqn:E; [|done]. pose proof (bk_lock _ _ Kb E). lia. }
    cbn [b_locked recycle]. rewrite Hul. apply wp_bind, wp_gets, wp_updbuf; [lia|].
    intros s2 L2 D2 W2 P2 B2. apply wp_ret, wp_bind, wp_gets. rewrite B2, B1, !decide_True by done.
    cbn [b_valid set_b_lock recycle]. rewrite Z.eqb_refl. apply wp_bind.
    unfold virtio_disk_rw. apply wp_bind, wp_bind, wp_gets. apply wp_bind, wp_gets. apply wp_updbuf; [lia|].
    intros s3 L3 D3 W3 P3 B3. apply wp_updbuf; [lia|]. intros s4 L4 D4 W4 P4 B4. apply wp_ret.
    assert (E2 : bufat s2 b = set_b_lock 1 (mypid s1) (recycle ROOTDEV bn (bufat s b))).
    { by rewrite B2, B1, !decide_True. }
    assert (E3 : bufat s3 b = set_b_data (dblock (disk s2) bn) (bufat s2 b)).
    { rewrite B3, decide_True by done. by rewrite E2. }
    rewrite E3, E2 in B4.
    apply (recycle_abs s v b bn s4 (set_b_valid 1 (set_b_data (dblock (disk s2) bn)
      (set_b_lock 1 (mypid s1) (recycle ROOTDEV bn (bufat s b)))))); try done; try congruence.
    + intros j. rewrite B4. case_decide as Hj; [done|].
      by rewrite B3, decide_False, B2, decide_False, B1, decide_False.
    + cbn. by rewrite D2, D1.
Qed.

(** The running process holds the lock of a held block. *)
Lemma held_mine s v h bn (k : bool → M bst unit) (Q : unit → bst → Prop) :
  bio_abs s v → holds s h bn → v_held v bn = true → wp (k true) s Q → wp (holdingsleep h ≫= k) s Q.
Proof.
  intros Hv Hh Hheld HQ. destruct (holds_abs s v h bn Hv Hh) as (_ & _ & _ & Eh & _). rewrite Hheld in Eh.
  apply wp_bind. unfold holdingsleep. apply wp_bind, wp_gets, wp_bind, wp_gets, wp_ret. rewrite <- Eh.
  rewrite (ba_mine _ _ Hv) by (done || apply Hh). rewrite Z.eqb_refl. done.
Qed.

(** Updates of a buffer in place: contents, pins. *)
Lemma upd_in_place s v h bn (f : buf → buf) v' :
  bio_abs s v → holds s h bn →
  let b' := f (bufat s h) in
  b_prev b' = b_prev (bufat s h) → b_next b' = b_next (bufat s h) →
  b_dev b' = ROOTDEV → b_blockno b' = bn → b_locked b' = b_locked (bufat s h) → b_pid b' = b_pid (bufat s h) →
  buf_ok (disk s) b' →
  v' ≡ mk_bcv (v_disk v) (v_writes v) (fset (v_view v) bn (b_data b')) (fset (v_refs v) bn (b_refcnt b')) (v_held v)
    (v_busy v - (if decide (v_refs v bn = 0%Z) then 0 else 1) + (if decide (b_refcnt b' = 0%Z) then 0 else 1))%nat →
  wp (updbuf h f) s (λ _ s', bio_abs s' v' ∧ ∀ h' k, holds s h' k → holds s' h' k).
Proof.
  intros Hv Hh b' Hp Hn Hd Hb Hl Hpid Hok Heq.
  destruct (holds_abs s v h bn Hv Hh) as (Hlt & Ev & Er & Eh & _).
  apply wp_updbuf; [done|]. intros s1 L1 D1 W1 P1 B1.
  destruct (update_abs s v h bn s1 b' (v_disk v)) as [Hv1 Hh1]; try done.
  - by rewrite D1.
  - rewrite Hl, Hpid. intros Hlk. apply (ba_mine _ _ Hv); [apply Hh|done].
  - intros k. rewrite D1. symmetry. apply Hv.
  - split; [|intros; by apply Hh1]. revert Hv1. apply bio_abs_proper. rewrite Heq. split_and!; bcv_simpl; try done.
    + rewrite W1. symmetry. apply Hv.
    + intros k. unfold fset. destruct (decide (k = bn)) as [->|]; [|done]. by rewrite Hl, Eh.
Qed.

Lemma bset_ok s v h bn d :
  bio_abs s v → holds s h bn → v_refs v bn ≠ 0 →
  wp (updbuf h (set_b_data d)) s (λ _ s', bio_abs s' (v_set bn d v) ∧ ∀ h' k, holds s h' k → holds s' h' k).
Proof.
  intros Hv Hh Hr. destruct (holds_abs s v h bn Hv Hh) as (Hlt & Ev & Er & Eh & [K1 K2 K3 K4 K5]).
  pose proof Hh as (? & ? & ?). eapply upd_in_place; try done.
  - split; cbn; try done. intros Hz. rewrite Er in Hr. done.
  - unfold v_set. split_and!; bcv_simpl; try done.
    + intros k. unfold fset. destruct (decide (k = bn)); [by subst|done].
    + change (b_refcnt (set_b_data d (bufat s h))) with (b_refcnt (bufat s h)).
      rewrite <- Er, !decide_False by done. rewrite (ba_busy _ _ Hv). rewrite Er in Hr.
      pose proof (busy_pos s h ltac:(done) Hr). lia.
Qed.

Lemma bpin_ok s v h bn :
  bio_abs s v → holds s h bn → 0 < v_refs v bn < 2 ^ 32 - 1 →
  wp (bpin h) s (λ _ s', bio_abs s' (v_pin bn v) ∧ ∀ h' k, holds s h' k → holds s' h' k).
Proof.
  intros Hv Hh Hr. destruct (holds_abs s v h bn Hv Hh) as (Hlt & Ev & Er & Eh & [K1 K2 K3 K4 K5]).
  pose proof Hh as (Hh1 & ? & ?). rewrite Er in Hr.
  assert (Hw : w32 (b_refcnt (bufat s h) + 1) = b_refcnt (bufat s h) + 1) by (apply Z.mod_small; lia).
  eapply upd_in_place; try done; cbn [b_refcnt b_data set_b_refcnt]; rewrite Hw.
  - split; cbn; try done; lia.
  - pose proof (busy_pos s h Hh1 ltac:(lia)). unfold v_pin. split_and!; bcv_simpl; rewrite ?Er; try done.
    + intros k. unfold fset. destruct (decide (k = bn)); [by subst|done].
    + rewrite !decide_False by lia. rewrite (ba_busy _ _ Hv). lia.
Qed.

Lemma bunpin_ok s v h bn :
  bio_abs s v → holds s h bn → 1 < v_refs v bn →
  wp (bunpin h) s (λ _ s', bio_abs s' (v_unpin bn v) ∧ ∀ h' k, holds s h' k → holds s' h' k).
Proof.
  intros Hv Hh Hr. destruct (holds_abs s v h bn Hv Hh) as (Hlt & Ev & Er & Eh & [K1 K2 K3 K4 K5]).
  pose proof Hh as (Hh1 & ? & ?). rewrite Er in Hr.
  assert (Hw : w32 (b_refcnt (bufat s h) - 1) = b_refcnt (bufat s h) - 1) by (apply Z.mod_small; lia).
  eapply upd_in_place; try done; cbn [b_refcnt b_data set_b_refcnt]; rewrite Hw.
  - split; cbn; try done; lia.
  - pose proof (busy_pos s h Hh1 ltac:(lia)). unfold v_unpin. split_and!; bcv_simpl; rewrite ?Er; try done.
    + intros k. unfold fset. destruct (decide (k = bn)); [by subst|done].
    + rewrite !decide_False by lia. rewrite (ba_busy _ _ Hv). lia.
Qed.

Lemma bwrite_ok s v h bn :
  bio_abs s v → holds s h bn → v_held v bn = true →
  wp (bwrite h) s (λ _ s', bio_abs s' (v_put bn v) ∧ ∀ h' k, holds s h' k → holds s' h' k).
Proof.
  intros Hv Hh Hheld. destruct (holds_abs s v h bn Hv Hh) as (Hlt & Ev & Er & Eh & [K1 K2 K3 K4 K5]).
  pose proof Hh as (Hh1 & Hh2 & Hh3). unfold bwrite. eapply held_mine; [done..|]. cbn [negb].
  unfold virtio_disk_rw. apply wp_bind, wp_gets, wp_modify. rewrite Hh3.
  set (s1 := mk_bst _ _ _ _).
  destruct (update_abs s v h bn s1 (bufat s h) (fset (v_disk v) bn (b_data (bufat s h)))) as [Hv1 Hho]; try done.
  - intros j. change (bufat s1 j) with (bufat s j). by case_decide; subst.
  - split; try done. cbn. intros Hr _. rewrite Hheld in Eh. symmetry in Eh. specialize (K2 Eh). lia.
  - apply (ba_mine _ _ Hv). done.
  - intros k. cbn. unfold fset, dblock. case_decide as Hk; [by subst; rewrite lookup_insert_eq|].
    rewrite lookup_insert_ne by done. symmetry. apply Hv.
  - intros k Hk. unfold fset. by rewrite decide_False.
  - split; [|intros; by apply Hho]. revert Hv1. apply bio_abs_proper. unfold v_rel, v_put. split_and!; bcv_simpl; rewrite ?Ev; try done.
    + by rewrite (ba_writes _ _ Hv).
    + intros k. unfold fset. destruct (decide (k = bn)); [by subst|done].
    + intros k. unfold fset. destruct (decide (k = bn)); [by subst|done].
    + intros k. unfold fset. destruct (decide (k = bn)); [by subst|done].
    + rewrite Er. pose proof (busy_pos s h Hh1). rewrite (ba_busy _ _ Hv). case_decide; lia.
Qed.

Lemma brelse_ok s v h bn :
  bio_abs s v → holds s h bn → v_held v bn = true → (v_refs v bn = 1 → v_view v bn = v_disk v bn) →
  wp (brelse h) s (λ _ s', bio_abs s' (v_rel bn v) ∧ ∀ h' k, holds s h' k → holds s' h' k).
Proof.
  intros Hv Hh Hheld Hclean. destruct (holds_abs s v h bn Hv Hh) as (Hlt & Ev & Er & Eh & [K1 K2 K3 K4 K5]).
  pose proof Hh as (Hh1 & Hh2 & Hh3). rewrite Hheld in Eh. symmetry in Eh. specialize (K2 Eh).
  unfold brelse. eapply held_mine; [done..|]. cbn [negb].
  apply wp_bind. unfold releasesleep. apply wp_updbuf; [done|]. intros s1 L1 D1 W1 P1 B1.
  apply wp_bind, wp_updbuf; [by rewrite L1|]. intros s2 L2 D2 W2 P2 B2.
  assert (Hw : w32 (b_refcnt (bufat s h) - 1) = b_refcnt (bufat s h) - 1) by (apply Z.mod_small; lia).
  set (b' := set_b_refcnt (b_refcnt (bufat s h) - 1) (set_b_lock 0 0 (bufat s h))).
  assert (B : ∀ j, bufat s2 j = if decide (j = h) then b' else bufat s j).
  { intros j. rewrite B2, !B1. repeat case_decide; try done. unfold b'. cbn. by rewrite Hw. }
  destruct (update_abs s v h bn s2 b' (v_disk v)) as [Hv2 Hho]; try done; try congruence.
  - split; cbn; try done; [lia|]. intros Hr _. rewrite D2, D1, Hh3, <- Ev, Hclean by (rewrite Er; lia). apply Hv.
  - intros k. rewrite D2, D1. symmetry. apply Hv.
  - assert (Hv2' : bio_abs s2 (v_rel bn v)).
    { revert Hv2. apply bio_abs_proper. unfold v_rel, v_put. split_and!; bcv_simpl; rewrite ?Er; try done.
      - rewrite W2, W1. symmetry. apply Hv.
      - intros k. unfold fset. destruct (decide (k = bn)); [by subst|done].
      - pose proof (busy_pos s h Hh1 ltac:(lia)). rewrite (ba_busy _ _ Hv). change (b_refcnt b') with (b_refcnt (bufat s h) - 1). repeat case_decide; lia. }
    apply wp_bind, wp_gets. destruct (b_refcnt (bufat s2 h) =? 0) eqn:E0.
    + destruct (ba_ok _ _ Hv2') as [l Hok2]. pose proof (bo_perm _ _ Hok2) as Hperm.
      assert (Hin : h ∈ l) by (rewrite Hperm; apply elem_of_seq; lia).
      apply list_elem_of_split in Hin as (A & B' & ->).
      eapply to_front_ok; [apply Hok2|]. intros s3 R3 D3.
      destruct (relinked_abs s2 s3 _ _ _ Hv2' Hok2 R3 D3) as [Hv3 Hh3']; [by rewrite Permutation_middle|].
      split; [done|]. intros h' k Hk. by apply Hh3', Hho.
    + apply wp_ret. split; [done|]. intros. by apply Hho.
Qed.

Lemma bdata_ok s v h bn :
  bio_abs s v → holds s h bn → wp (b ← getbuf h; mret (b_data b)) s (λ d s', s' = s ∧ d = v_view v bn).
Proof.
  intros Hv Hh. apply wp_bind, wp_gets, wp_ret. split; [done|]. by destruct (holds_abs s v h bn Hv Hh) as (_ & -> & _).
Qed.

Lemma bblockno_ok s h bn : holds s h bn → wp (b ← getbuf h; mret (b_blockno b)) s (λ n s', s' = s ∧ n = bn).
Proof. intros (_ & _ & Hh). by apply wp_bind, wp_gets, wp_ret. Qed.

Lemma bio_refs_nonneg s v bn : bio_abs s v → 0 <= v_refs v bn.
Proof. intros Hv. apply (bio_refs s v bn Hv). Qed.

Lemma bio_writes_det s v v' : bio_abs s v → bio_abs s v' → v_writes v = v_writes v'.
Proof. intros [] []. congruence. Qed.

Lemma bio_idle s v : bio_abs s v → (∀ bn, v_refs v bn = 0) → v_busy v = 0%nat.
Proof.
  intros [[l Hok] _ _ _ _ Hr _ ->] H0. unfold busy. rewrite (filter_none _ (seq 0 NBUF)); [done|].
  intros i Hi%elem_of_seq Hne. pose proof (bo_buf _ _ Hok i ltac:(lia)) as Hb. apply Hne.
  rewrite <- (H0 (b_blockno (bufat s i))), Hr. unfold refs.
  assert (cached s (b_blockno (bufat s i)) = Some i) as ->; [|done].
  apply (cached_holds _ l); [done|]. split_and!; [lia|by apply (bk_dev _ _ Hb)|done].
Qed.

(** The buffer cache of bio.c is a block cache. *)
#[global] Instance bio_cache_ok : BlockCacheOk bst := {
  bc_abs := bio_abs;
  bc_at := holds;
  bc_abs_proper := bio_abs_proper;
  bc_writes_det := bio_writes_det;
  bc_clean := bio_clean;
  bc_refs_nonneg := bio_refs_nonneg;
  bc_idle := bio_idle;
  bc_read_ok := bread_ok;
  bc_data_ok := bdata_ok;
  bc_blockno_ok := bblockno_ok;
  bc_set_ok := bset_ok;
  bc_write_ok := bwrite_ok;
  bc_release_ok := brelse_ok;
  bc_pin_ok := bpin_ok;
  bc_unpin_ok := bunpin_ok
}.
