(* ===== verification/Log.v ===== *)
(** The write-ahead log (kernel/log.c) over any block cache.

    [lgst] is the cache with [struct log]; the functions follow log.c call by
    call.  The header block holds [n] and the block numbers as little-endian
    [int]s.  Spinlocks are not modelled here: the functions run alone, and
    [begin_op] does not return where it would sleep (LogSys.v has the
    interleaved view). *)

From S2P Require Import Prelude Riscv Memory Cache.

Definition MAXOPBLOCKS : Z := 10.
Definition LOGSIZE : Z := MAXOPBLOCKS * 3.

(** [struct log]; [lh_n] and [lh_block] are its [struct logheader]. *)
Record log := mk_log {
  lg_start : Z;
  lg_size : Z;
  lg_outstanding : Z;
  lg_committing : Z;
  lg_dev : Z;
  lh_n : Z;
  lh_block : list Z
}.

Definition set_outstanding (v : Z) (l : log) : log :=
  mk_log (lg_start l) (lg_size l) v (lg_committing l) (lg_dev l) (lh_n l) (lh_block l).
Definition set_committing (v : Z) (l : log) : log :=
  mk_log (lg_start l) (lg_size l) (lg_outstanding l) v (lg_dev l) (lh_n l) (lh_block l).
Definition set_lh_n (v : Z) (l : log) : log :=
  mk_log (lg_start l) (lg_size l) (lg_outstanding l) (lg_committing l) (lg_dev l) v (lh_block l).
Definition set_lh_block (i v : Z) (l : log) : log :=
  mk_log (lg_start l) (lg_size l) (lg_outstanding l) (lg_committing l) (lg_dev l) (lh_n l)
    (<[Z.to_nat i := v]> (lh_block l)).

Record lgst {S : Type} := mk_lgst { lcache : S; lg : log }.
Arguments lgst S : clear implicits.
Arguments mk_lgst {S} _ _.

Section Code.
Context {S : Type} {BC : BlockCache S}.

(** An operation of the cache. *)
Definition onc {A} (m : M S A) : M (lgst S) A := λ s,
  match m (lcache s) with
  | Ok (a, c) => Ok (a, mk_lgst c (lg s))
  | Panic msg => Panic msg
  | Wild a => Wild a
  | Exit st => Exit st
  | OutOfFuel => OutOfFuel
  end.

Definition getlog : M (lgst S) log := gets lg.
Definition updlog (f : log → log) : M (lgst S) unit := modify (λ s, mk_lgst (lcache s) (f (lg s))).

(** [log.lh.block[i]]: an index outside the array is a wild access. *)
Definition get_block (i : Z) : M (lgst S) Z :=
  l ← getlog;
  match lh_block l !! Z.to_nat i with Some b => mret b | None => wild i end.
Definition put_block (i v : Z) : M (lgst S) unit :=
  l ← getlog;
  if i <? Z.of_nat (length (lh_block l)) then updlog (set_lh_block i v) else wild i.

(** Fields of the [struct logheader] in a block: [hb->n], [hb->block[i]]. *)
Definition hdr_n (b : block) : Z := i32 (le_load 4 b 0).
Definition hdr_block (b : block) (i : Z) : Z := i32 (le_load 4 b (4 + 4 * i)).
Definition set_hdr_n (v : Z) (b : block) : block := le_store 4 b 0 v.
Definition set_hdr_block (i v : Z) (b : block) : block := le_store 4 b (4 + 4 * i) v.

(** One round of [install_trans]. *)
Definition install_one (recovering : bool) (tail : Z) : M (lgst S) unit :=
  l ← getlog;
  lbuf ← onc (bc_read (lg_dev l) (w32 (lg_start l + tail + 1)));
  b ← get_block tail;
  dbuf ← onc (bc_read (lg_dev l) (w32 b));
  d ← onc (bc_data lbuf);
  onc (bc_set dbuf d);;
  onc (bc_write dbuf);;
  (if recovering then mret tt else onc (bc_unpin dbuf));;
  onc (bc_release lbuf);;
  onc (bc_release dbuf).

Definition install_trans (recovering : bool) : M (lgst S) unit :=
  l ← getlog; for_each (seqZ 0 (lh_n l)) (install_one recovering).

Definition read_head_one (hb : block) (i : Z) : M (lgst S) unit := put_block i (hdr_block hb i).

Definition read_head : M (lgst S) unit :=
  l ← getlog;
  buf ← onc (bc_read (lg_dev l) (w32 (lg_start l)));
  hb ← onc (bc_data buf);
  updlog (set_lh_n (hdr_n hb));;
  for_each (seqZ 0 (hdr_n hb)) (read_head_one hb);;
  onc (bc_release buf).

(** The stores through [hb] go to the buffer's data. *)
Definition write_head_one (buf : nat) (i : Z) : M (lgst S) unit :=
  b ← get_block i;
  hb ← onc (bc_data buf);
  onc (bc_set buf (set_hdr_block i b hb)).

Definition write_head : M (lgst S) unit :=
  l ← getlog;
  buf ← onc (bc_read (lg_dev l) (w32 (lg_start l)));
  hb ← onc (bc_data buf);
  onc (bc_set buf (set_hdr_n (lh_n l) hb));;
  for_each (seqZ 0 (lh_n l)) (write_head_one buf);;
  onc (bc_write buf);;
  onc (bc_release buf).

Definition recover_from_log : M (lgst S) unit :=
  read_head;;
  install_trans true;;
  updlog (set_lh_n 0);;
  write_head.

(** [sizeof(struct logheader)] is 4 + 4 * LOGSIZE. *)
Definition initlog (dev logstart nlog : Z) : M (lgst S) unit :=
  if BSIZE <=? 4 + 4 * LOGSIZE then panic "initlog: too big logheader"
  else
    updlog (λ l, mk_log (i32 logstart) (i32 nlog) (lg_outstanding l) (lg_committing l) dev (lh_n l) (lh_block l));;
    recover_from_log.

(** One round of [write_log]. *)
Definition write_log_one (tail : Z) : M (lgst S) unit :=
  l ← getlog;
  to ← onc (bc_read (lg_dev l) (w32 (lg_start l + tail + 1)));
  b ← get_block tail;
  from ← onc (bc_read (lg_dev l) (w32 b));
  d ← onc (bc_data from);
  onc (bc_set to d);;
  onc (bc_write to);;
  onc (bc_release from);;
  onc (bc_release to).

Definition write_log : M (lgst S) unit :=
  l ← getlog; for_each (seqZ 0 (lh_n l)) write_log_one.

Definition commit : M (lgst S) unit :=
  l ← getlog;
  if 0 <? lh_n l then
    write_log;;
    write_head;;
    install_trans false;;
    updlog (set_lh_n 0);;
    write_head
  else mret tt.

Definition begin_op : M (lgst S) unit :=
  l ← getlog;
  if truth (lg_committing l) then blocked
  else if LOGSIZE <? lh_n l + (lg_outstanding l + 1) * MAXOPBLOCKS then blocked
  else updlog (λ l, set_outstanding (lg_outstanding l + 1) l).

Definition end_op : M (lgst S) unit :=
  updlog (λ l, set_outstanding (lg_outstanding l - 1) l);;
  l ← getlog;
  if truth (lg_committing l) then panic "log.committing"
  else if lg_outstanding l =? 0 then
    updlog (set_committing 1);;
    commit;;
    updlog (set_committing 0)
  else mret tt.

(** The search of [log_write] for a block that is logged already. *)
Definition find_logged (l : log) (bn : Z) : Z :=
  match List.find (λ i, w32 (default 0 (lh_block l !! Z.to_nat i)) =? bn) (seqZ 0 (lh_n l)) with
  | Some i => i
  | None => lh_n l
  end.

Definition log_write (b : nat) : M (lgst S) unit :=
  l ← getlog;
  if (LOGSIZE <=? lh_n l) || (lg_size l - 1 <=? lh_n l) then panic "too big a transaction"
  else if lg_outstanding l <? 1 then panic "log_write outside of trans"
  else
    bn ← onc (bc_blockno b);
    let i := find_logged l bn in
    put_block i (i32 bn);;
    if i =? lh_n l then
      onc (bc_pin b);;
      updlog (λ l, set_lh_n (lh_n l + 1) l)
    else mret tt.

End Code.
