(* ===== verification/LogSpec.v ===== *)
(** What each function of the log does to the abstract cache, and which blocks
    it writes to disk in which order. *)

From S2P Require Import Prelude Riscv Memory Cache Log.

(** ** Header blocks *)

Lemma i32_id z : - 2 ^ 31 <= z < 2 ^ 31 → i32 z = z.
Proof. intros Hz. unfold i32. rewrite Z.mod_small by lia. lia. Qed.

Lemma i32_mod z : i32 (z mod 256 ^ 4) = i32 z.
Proof. unfold i32. change (256 ^ 4) with (2 ^ 32). rewrite Zplus_mod_idemp_l. done. Qed.

Lemma hdr_n_set v b : - 2 ^ 31 <= v < 2 ^ 31 → hdr_n (set_hdr_n v b) = v.
Proof.
  intros Hv. unfold hdr_n, set_hdr_n. rewrite le_load_store_eq. change (Z.of_nat 4) with 4.
  rewrite i32_mod. by apply i32_id.
Qed.

Lemma hdr_n_set_block i v b : 0 <= i → hdr_n (set_hdr_block i v b) = hdr_n b.
Proof. intros Hi. unfold hdr_n, set_hdr_block. rewrite le_load_store_ne; [done|]. lia. Qed.

Lemma hdr_block_set_n i v b : 0 <= i → hdr_block (set_hdr_n v b) i = hdr_block b i.
Proof. intros Hi. unfold hdr_block, set_hdr_n. rewrite le_load_store_ne; [done|]. lia. Qed.

Lemma hdr_block_set_block i j v b :
  0 <= i → 0 <= j → - 2 ^ 31 <= v < 2 ^ 31 →
  hdr_block (set_hdr_block i v b) j = if decide (j = i) then v else hdr_block b j.
Proof.
  intros Hi Hj Hv. unfold hdr_block, set_hdr_block. case_decide as Heq.
  - subst j. rewrite le_load_store_eq. change (Z.of_nat 4) with 4. rewrite i32_mod. by apply i32_id.
  - rewrite le_load_store_ne; [done|]. lia.
Qed.

(** The header block that [write_head] makes of [hb]. *)
Definition header (bs : list Z) (hb : block) : block :=
  foldl (λ b ix, set_hdr_block ix.1 ix.2 b) (set_hdr_n (Z.of_nat (length bs)) hb) (zip (seqZ 0 (Z.of_nat (length bs))) bs).

Lemma header_snoc bs b hb :
  ∀ n, n = length bs →
  foldl (λ b ix, set_hdr_block ix.1 ix.2 b) hb (zip (seqZ 0 (Z.of_nat (S n))) (bs ++ [b])) =
  set_hdr_block (Z.of_nat n) b (foldl (λ b ix, set_hdr_block ix.1 ix.2 b) hb (zip (seqZ 0 (Z.of_nat n)) bs)).
Proof.
  intros n ->. rewrite Nat2Z.inj_succ, <- Z.add_1_r, seqZ_app by lia.
  rewrite zip_with_app by (rewrite length_seqZ; lia). rewrite foldl_app. done.
Qed.

Lemma header_fold bs h0 :
  Z.of_nat (length bs) < 2 ^ 31 → Forall (λ b, 0 <= b < 2 ^ 31) bs →
  let h := foldl (λ b ix, set_hdr_block ix.1 ix.2 b) h0 (zip (seqZ 0 (Z.of_nat (length bs))) bs) in
  hdr_n h = hdr_n h0 ∧ ∀ i b, bs !! i = Some b → hdr_block h (Z.of_nat i) = b.
Proof.
  induction bs as [|b bs IH] using rev_ind; intros Hlen Hbs; [done|]. cbv zeta.
  rewrite length_app in Hlen |- *. simpl in Hlen. rewrite Nat.add_1_r.
  rewrite (header_snoc bs b h0 _ eq_refl). apply list.Forall_app in Hbs as [Hbs Hb].
  apply list.Forall_cons in Hb as [Hb _]. destruct (IH ltac:(lia) Hbs) as [IH1 IH2]. split.
  - rewrite hdr_n_set_block by lia. done.
  - intros i c Hi. rewrite hdr_block_set_block by lia. case_decide as Heq.
    + apply Nat2Z.inj in Heq. subst i. rewrite lookup_app_r, Nat.sub_diag in Hi by lia. by injection Hi.
    + apply IH2. rewrite lookup_app_l in Hi; [done|]. apply lookup_lt_Some in Hi. rewrite length_app in Hi. simpl in Hi.
      lia.
Qed.

Lemma header_fields bs hb :
  Z.of_nat (length bs) < 2 ^ 31 → Forall (λ b, 0 <= b < 2 ^ 31) bs →
  hdr_n (header bs hb) = Z.of_nat (length bs) ∧
  ∀ i b, bs !! i = Some b → hdr_block (header bs hb) (Z.of_nat i) = b.
Proof.
  intros Hlen Hbs. destruct (header_fold bs (set_hdr_n (Z.of_nat (length bs)) hb) Hlen Hbs) as [H1 H2].
  split; [|done]. unfold header. rewrite H1. apply hdr_n_set. lia.
Qed.

Section Spec.
Context {S : Type} {BC : BlockCache S} {BOK : BlockCacheOk S}.
Implicit Types (s : lgst S) (c : S) (v : bcv) (l : log) (bn : Z).

Lemma wp_onc {A} (m : M S A) s (Q : A → lgst S → Prop) :
  wp m (lcache s) (λ a c, Q a (mk_lgst c (lg s))) → wp (onc m) s Q.
Proof. unfold wp, onc. by destruct (m (lcache s)) as [[a c]| | | |]. Qed.

(** Where the log lies on disk. *)
Record geometry l : Prop := {
  ge_dev : lg_dev l = ROOTDEV;
  ge_start : 0 <= lg_start l;
  ge_size : 1 <= lg_size l;
  ge_end : lg_start l + lg_size l < 2 ^ 31;
  ge_len : length (lh_block l) = Z.to_nat LOGSIZE
}.

Definition in_log l bn : Prop := lg_start l <= bn < lg_start l + lg_size l.

(** The blocks of the transaction that [l] collects. *)
Record logged l (bs : list Z) : Prop := {
  lo_n : lh_n l = Z.of_nat (length bs);
  lo_block : ∀ i b, bs !! i = Some b → lh_block l !! i = Some b;
  lo_max : Z.of_nat (length bs) <= LOGSIZE;
  lo_fit : Z.of_nat (length bs) + 1 <= lg_size l;
  lo_home : ∀ b, b ∈ bs → 0 <= b < 2 ^ 31 ∧ ¬ in_log l b;
  lo_nodup : NoDup bs
}.

Lemma w32_small z : 0 <= z < 2 ^ 32 → w32 z = z.
Proof. apply Z.mod_small. Qed.

Lemma wp_get_block l bs i b s (Q : Z → lgst S → Prop) :
  lg s = l → logged l bs → bs !! i = Some b → Q b s → wp (get_block (Z.of_nat i)) s Q.
Proof.
  intros <- Hl Hi HQ. unfold get_block. apply wp_bind, wp_gets. rewrite Nat2Z.id, (lo_block _ _ Hl _ _ Hi). done.
Qed.

(** One block from the cache to the log. *)
Lemma write_log_one_ok s v l bs i b :
  bc_abs (lcache s) v → lg s = l → geometry l → logged l bs → bs !! i = Some b →
  let a := lg_start l + Z.of_nat i + 1 in
  v_refs v a = 0 → v_held v a = false → v_held v b = false → 0 < v_refs v b < 2 ^ 32 - 2 → (v_busy v < NBUF)%nat →
  wp (write_log_one (Z.of_nat i)) s (λ _ s', ∃ c, s' = mk_lgst c l ∧ bc_abs c (v_wr a (v_view v b) v)).
Proof.
  intros Hv Hl [G1 G2 G3 G4 G5] Hlo Hi a Hra Hha Hhb Hrb Hbusy. unfold write_log_one.
  pose proof (lookup_lt_Some _ _ _ Hi) as Hlt. pose proof (lo_fit _ _ Hlo) as Hfit.
  destruct (lo_home _ _ Hlo b) as [Hb Hhome]; [by eapply list_elem_of_lookup_2|].
  assert (Hab : a ≠ b) by (unfold in_log in Hhome; lia).
  apply wp_bind, wp_gets. rewrite Hl. rewrite G1, !w32_small by (unfold a in *; lia). fold a.
  apply wp_bind, wp_onc. eapply wp_mono; [apply (bc_read_ok (lcache s) v); [done|]|].
  { split_and!; try done; unfold a in *; lia || (right; done). }
  intros to c1 (Hv1 & Hat1 & _). apply wp_bind. eapply (wp_get_block l); [done..|].
  rewrite w32_small by lia. apply wp_bind, wp_onc. cbn [lcache lg].
  eapply wp_mono; [apply (bc_read_ok c1 (v_get a v)); [done|]|].
  { split_and!; bcv_simpl; fset_simpl; try done; lia || (left; lia). }
  intros from c2 (Hv2 & Hat2 & Hst2). apply wp_bind, wp_onc. cbn [lcache lg].
  eapply wp_mono; [by apply (bc_data_ok c2 _ from b Hv2)|]. intros d c2' [-> ->].
  assert (Hto2 : bc_at c2 to a) by (apply Hst2; [done|bcv_simpl; fset_simpl; lia]).
  apply wp_bind, wp_onc. cbn [lcache lg].
  eapply wp_mono; [apply (bc_set_ok c2 _ to a _ Hv2 Hto2); bcv_simpl; fset_simpl; lia|].
  intros _ c3 [Hv3 Hst3]. apply wp_bind, wp_onc. cbn [lcache lg].
  eapply wp_mono; [apply (bc_write_ok c3 _ to a Hv3); [by apply Hst3|bcv_simpl; by fset_simpl]|].
  intros _ c4 [Hv4 Hst4]. apply wp_bind, wp_onc. cbn [lcache lg].
  eapply wp_mono; [apply (bc_release_ok c4 _ from b Hv4); [by apply Hst4, Hst3|bcv_simpl; by fset_simpl|]|].
  { bcv_simpl. fset_simpl. lia. }
  intros _ c5 [Hv5 Hst5]. apply wp_onc. cbn [lcache lg].
  eapply wp_mono; [apply (bc_release_ok c5 _ to a Hv5); [by apply Hst5, Hst4, Hst3|bcv_simpl; by fset_simpl|]|].
  { bcv_simpl. by fset_simpl. }
  intros _ c6 [Hv6 _]. exists c6. split; [by rewrite <- Hl|]. revert Hv6. apply bc_abs_proper.
  split_and!; bcv_simpl; fset_simpl; try done.
  - fset_cases.
  - fset_cases.
  - rewrite (decide_True (P := v_refs v a = 0)) by done.
    rewrite (decide_False (P := v_refs v b = 0)) by lia.
    rewrite (decide_False (P := v_refs v b + 1 = 1)) by lia.
    rewrite (decide_True (P := v_refs v a + 1 = 1)) by lia. lia.
Qed.

(** ** The header *)

Lemma zip_take_S {A} (bs : list A) k b :
  bs !! k = Some b →
  zip (seqZ 0 (Z.of_nat (Datatypes.S k))) (take (Datatypes.S k) bs) =
  zip (seqZ 0 (Z.of_nat k)) (take k bs) ++ [(Z.of_nat k, b)].
Proof.
  intros Hk. rewrite (take_S_r _ _ _ Hk), Nat2Z.inj_succ, <- Z.add_1_r, seqZ_app by lia.
  rewrite zip_with_app; [done|]. rewrite length_seqZ, length_take. apply lookup_lt_Some in Hk. lia.
Qed.

Lemma write_head_ok s v l bs :
  bc_abs (lcache s) v → lg s = l → geometry l → logged l bs →
  v_refs v (lg_start l) = 0 → v_held v (lg_start l) = false → (v_busy v < NBUF)%nat →
  wp write_head s (λ _ s', ∃ c, s' = mk_lgst c l ∧
    bc_abs c (v_wr (lg_start l) (header bs (v_view v (lg_start l))) v)).
Proof.
  intros Hv Hl [G1 G2 G3 G4 G5] Hlo. set (a := lg_start l). intros Hra Hha Hbusy. unfold write_head.
  assert (Ha : 0 <= a < 2 ^ 31) by (unfold a; lia).
  apply wp_bind, wp_gets. rewrite Hl. rewrite G1, w32_small by lia. fold a.
  apply wp_bind, wp_onc. eapply wp_mono; [apply (bc_read_ok (lcache s) v); [done|]|].
  { split_and!; try done; lia || (right; done). }
  intros buf c1 (Hv1 & Hat1 & _). apply wp_bind, wp_onc. cbn [lcache lg].
  eapply wp_mono; [by apply (bc_data_ok c1 _ buf a Hv1)|]. intros hb c1' [-> ->].
  apply wp_bind, wp_onc. cbn [lcache lg].
  eapply wp_mono; [apply (bc_set_ok c1 _ buf a _ Hv1 Hat1); bcv_simpl; fset_simpl; lia|].
  intros _ c2 [Hv2 Hst2]. rewrite (lo_n _ _ Hlo) in *. apply wp_bind. cbn [lcache lg].
  set (h0 := set_hdr_n (Z.of_nat (length bs)) (v_view (v_get a v) a)) in *.
  eapply (wp_for_seq _ (λ k s', ∃ c, s' = mk_lgst c l ∧ bc_at c buf a ∧
    bc_abs c (v_set a (foldl (λ b ix, set_hdr_block ix.1 ix.2 b) h0
      (zip (seqZ 0 (Z.of_nat k)) (take k bs))) (v_get a v)))).
  - exists c2. split; [by rewrite Hl|]. split; [by apply Hst2|]. exact Hv2.
  - intros k s1 Hk (c & -> & Hat & Hvk). destruct (lookup_lt_is_Some_2 bs k Hk) as [b Hb].
    unfold write_head_one. apply wp_bind. eapply (wp_get_block l bs); [done|done|exact Hb|].
    apply wp_bind, wp_onc. cbn [lcache lg]. eapply wp_mono; [by apply (bc_data_ok c _ buf a Hvk)|].
    intros hb c' [-> ->]. apply wp_onc. cbn [lcache lg].
    eapply wp_mono; [apply (bc_set_ok c _ buf a _ Hvk Hat); bcv_simpl; fset_simpl; lia|].
    intros _ c3 [Hv3 Hst3]. exists c3. split; [done|]. split; [by apply Hst3|]. revert Hv3. apply bc_abs_proper.
    rewrite (zip_take_S _ _ _ Hb), foldl_app. split_and!; bcv_simpl; fset_simpl; try done. fset_cases.
  - intros s1 (c & -> & Hat & Hvn). rewrite take_ge in Hvn by lia.
    apply wp_bind, wp_onc. cbn [lcache lg].
    eapply wp_mono; [apply (bc_write_ok c _ buf a Hvn Hat); bcv_simpl; by fset_simpl|].
    intros _ c3 [Hv3 Hst3]. apply wp_onc. cbn [lcache lg].
    eapply wp_mono; [apply (bc_release_ok c3 _ buf a Hv3); [by apply Hst3|bcv_simpl; by fset_simpl|]|].
    { bcv_simpl. by fset_simpl. }
    intros _ c4 [Hv4 _]. exists c4. split; [done|]. revert Hv4. apply bc_abs_proper.
    split_and!; bcv_simpl; fset_simpl; try done.
    + fset_cases.
    + fset_cases.
    + rewrite Hra. rewrite !decide_True by done. lia.
Qed.

(** ** Sequences of writes *)

Definition v_wrs (ws : list (Z * block)) v : bcv := foldl (λ v x, v_wr x.1 x.2 v) v ws.
Definition v_drops (bs : list Z) v : bcv := foldl (λ v b, v_drop b v) v bs.

Definition apply_writes (ws : list (Z * block)) (d : Z → block) : Z → block := foldl (λ d x, fset d x.1 x.2) d ws.

Lemma apply_writes_out ws d bn : bn ∉ ws.*1 → apply_writes ws d bn = d bn.
Proof.
  revert d. induction ws as [|[b x] ws IH]; intros d Hn; [done|]. cbn [fmap list_fmap] in Hn.
  apply not_elem_of_cons in Hn as [Hn1 Hn2]. simpl. rewrite IH by done. by apply fset_ne.
Qed.

Lemma apply_writes_in ws d i bn x :
  NoDup ws.*1 → ws !! i = Some (bn, x) → apply_writes ws d bn = x.
Proof.
  revert d i. induction ws as [|[b y] ws IH]; intros d i Hnd Hi; [by rewrite lookup_nil in Hi|].
  apply list.NoDup_cons in Hnd as [Hn Hnd]. destruct i as [|i]; simpl in Hi.
  - injection Hi as -> ->. simpl. rewrite apply_writes_out by done. apply fset_eq.
  - simpl. by eapply IH.
Qed.

Lemma apply_writes_app ws ws' d : apply_writes (ws ++ ws') d = apply_writes ws' (apply_writes ws d).
Proof. apply foldl_app. Qed.

Lemma v_wrs_fields ws v :
  v_disk (v_wrs ws v) = apply_writes ws (v_disk v) ∧ v_writes (v_wrs ws v) = v_writes v ++ ws ∧
  v_view (v_wrs ws v) = apply_writes ws (v_view v) ∧ v_refs (v_wrs ws v) = v_refs v ∧
  v_held (v_wrs ws v) = v_held v ∧ v_busy (v_wrs ws v) = v_busy v.
Proof.
  revert v. induction ws as [|[b x] ws IH]; intros v; simpl; [by rewrite app_nil_r|].
  destruct (IH (v_wr b x v)) as (-> & -> & -> & -> & -> & ->). bcv_simpl. by rewrite <- app_assoc.
Qed.

Lemma v_drops_fields bs v :
  v_disk (v_drops bs v) = v_disk v ∧ v_writes (v_drops bs v) = v_writes v ∧ v_view (v_drops bs v) = v_view v ∧
  v_held (v_drops bs v) = v_held v ∧ (v_busy (v_drops bs v) <= v_busy v)%nat.
Proof.
  revert v. induction bs as [|b bs IH]; intros v; simpl; [done|].
  destruct (IH (v_drop b v)) as (-> & -> & -> & -> & Hb). bcv_simpl. split_and!; try done.
  revert Hb. bcv_simpl. lia.
Qed.

Lemma v_drops_refs bs v bn :
  NoDup bs → v_refs (v_drops bs v) bn = v_refs v bn - if decide (bn ∈ bs) then 1 else 0.
Proof.
  revert v. induction bs as [|b bs IH]; intros v Hnd.
  { rewrite decide_False; [rewrite Z.sub_0_r; done|apply not_elem_of_nil]. }
  change (v_drops (b :: bs) v) with (v_drops bs (v_drop b v)).
  apply list.NoDup_cons in Hnd as [Hn Hnd]. rewrite IH by done. bcv_simpl. unfold fset.
  destruct (decide (bn = b)) as [->|Hne].
  - rewrite (decide_False (P := b ∈ bs)) by done. rewrite decide_True; [lia|]. apply elem_of_cons. by left.
  - destruct (decide (bn ∈ bs)) as [Hin|Hout].
    + rewrite (decide_True (P := bn ∈ b :: bs)); [done|]. apply elem_of_cons. by right.
    + rewrite (decide_False (P := bn ∈ b :: bs)); [done|]. by rewrite not_elem_of_cons.
Qed.

(** Updates that follow a list one element longer. *)
Lemma v_wrs_snoc ws bn x v : v_wrs (ws ++ [(bn, x)]) v = v_wr bn x (v_wrs ws v).
Proof. unfold v_wrs. by rewrite foldl_app. Qed.

Lemma v_drops_snoc bs b v : v_drops (bs ++ [b]) v = v_drop b (v_drops bs v).
Proof. unfold v_drops. by rewrite foldl_app. Qed.

(** The blocks of the log area are not in use; the blocks of the transaction
    are pinned and not locked. *)
Definition quiet l v : Prop := ∀ bn, in_log l bn → v_refs v bn = 0 ∧ v_held v bn = false.
Definition pinned (bs : list Z) v : Prop := ∀ b, b ∈ bs → 0 < v_refs v b < 2 ^ 32 - 2 ∧ v_held v b = false.

(** The writes of [write_log] and of [install_trans]. *)
Definition log_writes l v (bs : list Z) : list (Z * block) :=
  imap (λ i b, (lg_start l + Z.of_nat i + 1, v_view v b)) bs.
Definition home_writes l v (bs : list Z) : list (Z * block) :=
  imap (λ i b, (b, v_view v (lg_start l + Z.of_nat i + 1))) bs.

Lemma log_writes_lookup l v bs i bn x :
  log_writes l v bs !! i = Some (bn, x) ↔ ∃ b, bs !! i = Some b ∧ bn = lg_start l + Z.of_nat i + 1 ∧ x = v_view v b.
Proof. unfold log_writes. rewrite list_lookup_imap, fmap_Some. naive_solver. Qed.

Lemma home_writes_lookup l v bs i bn x :
  home_writes l v bs !! i = Some (bn, x) ↔ bs !! i = Some bn ∧ x = v_view v (lg_start l + Z.of_nat i + 1).
Proof. unfold home_writes. rewrite list_lookup_imap, fmap_Some. naive_solver. Qed.

Lemma home_writes_fst l v bs : (home_writes l v bs).*1 = bs.
Proof.
  unfold home_writes. rewrite fmap_imap. apply list_eq. intros i. rewrite list_lookup_imap.
  by destruct (bs !! i).
Qed.

Lemma log_writes_fst l v bs : (log_writes l v bs).*1 = (λ i, lg_start l + Z.of_nat i + 1) <$> seq 0 (length bs).
Proof.
  unfold log_writes. rewrite fmap_imap. apply list_eq. intros i. rewrite list_lookup_imap, list_lookup_fmap.
  destruct (bs !! i) eqn:E.
  - apply lookup_lt_Some in E. by rewrite lookup_seq_lt.
  - apply lookup_ge_None in E. by rewrite lookup_seq_ge.
Qed.

Lemma write_log_ok s v l bs :
  bc_abs (lcache s) v → lg s = l → geometry l → logged l bs → quiet l v → pinned bs v → (v_busy v < NBUF)%nat →
  wp write_log s (λ _ s', ∃ c, s' = mk_lgst c l ∧ bc_abs c (v_wrs (log_writes l v bs) v)).
Proof.
  intros Hv Hl Hg Hlo Hq Hp Hbusy. unfold write_log. apply wp_bind, wp_gets. rewrite Hl, (lo_n _ _ Hlo).
  eapply (wp_for_seq _ (λ k s', ∃ c, s' = mk_lgst c l ∧ bc_abs c (v_wrs (take k (log_writes l v bs)) v))).
  - exists (lcache s). split; [|done]. by destruct s; simpl in *; subst.
  - intros k s1 Hk (c & -> & Hvk). destruct (lookup_lt_is_Some_2 bs k Hk) as [b Hb].
    destruct (v_wrs_fields (take k (log_writes l v bs)) v) as (_ & _ & Ev & Er & Eh & Eb).
    destruct (Hp b) as [Hp1 Hp2]; [by eapply list_elem_of_lookup_2|].
    pose proof (lo_fit _ _ Hlo). pose proof (lookup_lt_Some _ _ _ Hb).
    destruct (Hq (lg_start l + Z.of_nat k + 1)) as [Hq1 Hq2]; [unfold in_log; lia|].
    eapply wp_mono; [eapply (write_log_one_ok _ _ l bs k b); try done; rewrite ?Er, ?Eh, ?Eb; done|].
    intros _ s2 (c2 & -> & Hv2). exists c2. split; [done|]. revert Hv2. apply bc_abs_proper.
    rewrite (take_S_r _ _ (lg_start l + Z.of_nat k + 1, v_view v b)) by (apply log_writes_lookup; eauto).
    rewrite v_wrs_snoc, Ev, apply_writes_out; [done|].
    intros Hin. apply list_elem_of_fmap in Hin as ([b' x] & -> & Hin). apply list_elem_of_lookup_1 in Hin as [j Hj].
    apply lookup_take_Some in Hj as [Hj _]. apply log_writes_lookup in Hj as (b'' & Hj & Hb' & _). cbn [fst] in Hb.
    apply lookup_lt_Some in Hj. destruct (lo_home _ _ Hlo b') as [_ Hh]; [by eapply list_elem_of_lookup_2|].
    apply Hh. unfold in_log. lia.
  - intros s1 (c & -> & Hvn). exists c. split; [done|]. rewrite take_ge in Hvn; [done|].
    unfold log_writes. by rewrite length_imap.
Qed.

(** ** Installing *)

Lemma install_one_ok rec s v l bs i b :
  bc_abs (lcache s) v → lg s = l → geometry l → logged l bs → bs !! i = Some b →
  let a := lg_start l + Z.of_nat i + 1 in
  v_refs v a = 0 → v_held v a = false → v_held v b = false → 0 <= v_refs v b < 2 ^ 32 - 2 →
  (if rec : bool then v_refs v b = 0 ∧ (v_busy v + 2 <= NBUF)%nat else 0 < v_refs v b ∧ (v_busy v < NBUF)%nat) →
  wp (install_one rec (Z.of_nat i)) s (λ _ s', ∃ c, s' = mk_lgst c l ∧
    bc_abs c (let v' := v_wr b (v_view v a) v in if rec then v' else v_drop b v')).
Proof.
  intros Hv Hl [G1 G2 G3 G4 G5] Hlo Hi a Hra Hha Hhb Hrb Hmode. unfold install_one.
  pose proof (lookup_lt_Some _ _ _ Hi) as Hlt. pose proof (lo_fit _ _ Hlo) as Hfit.
  destruct (lo_home _ _ Hlo b) as [Hb Hhome]; [by eapply list_elem_of_lookup_2|].
  assert (Hab : a ≠ b) by (unfold in_log in Hhome; lia). assert (Ha : 0 <= a < 2 ^ 31) by lia.
  pose proof (bc_clean _ _ _ Hv Hra) as Hclean.
  apply wp_bind, wp_gets. rewrite Hl. rewrite G1, w32_small by lia. fold a.
  apply wp_bind, wp_onc. eapply wp_mono; [apply (bc_read_ok (lcache s) v); [done|]|].
  { split_and!; try done; try lia. right. destruct rec; lia. }
  intros lb c1 (Hv1 & Hat1 & _). apply wp_bind. eapply (wp_get_block l bs); [exact Hl|exact Hlo|exact Hi|].
  rewrite w32_small by lia. apply wp_bind, wp_onc. cbn [lcache lg].
  eapply wp_mono; [apply (bc_read_ok c1 (v_get a v)); [done|]|].
  { split_and!; bcv_simpl; fset_simpl; try done; try lia. rewrite Hra, decide_True by done. destruct rec; [right|left]; lia. }
  intros db c2 (Hv2 & Hat2 & Hst2). apply wp_bind, wp_onc. cbn [lcache lg].
  assert (Hlb2 : bc_at c2 lb a) by (apply Hst2; [done|bcv_simpl; fset_simpl; lia]).
  eapply wp_mono; [by apply (bc_data_ok c2 _ lb a Hv2)|]. intros d c2' [-> ->].
  apply wp_bind, wp_onc. cbn [lcache lg].
  eapply wp_mono; [apply (bc_set_ok c2 _ db b _ Hv2 Hat2); bcv_simpl; fset_simpl; lia|].
  intros _ c3 [Hv3 Hst3]. apply wp_bind, wp_onc. cbn [lcache lg].
  eapply wp_mono; [apply (bc_write_ok c3 _ db b Hv3); [by apply Hst3|bcv_simpl; by fset_simpl]|].
  intros _ c4 [Hv4 Hst4]. cbn [lcache lg].
  set (v4 := v_put b (v_set b (v_view (v_get b (v_get a v)) a) (v_get b (v_get a v)))) in *.
  assert (Hun : wp (if rec then mret tt else onc (bc_unpin db)) (mk_lgst c4 (lg s)) (λ _ s', ∃ c,
    s' = mk_lgst c (lg s) ∧ bc_abs c (if rec then v4 else v_unpin b v4) ∧ bc_at c lb a ∧ bc_at c db b)).
  { destruct rec.
    - apply wp_ret. exists c4. split_and!; [done|done|by apply Hst4, Hst3|by apply Hst4, Hst3].
    - apply wp_onc. cbn [lcache lg]. eapply wp_mono; [apply (bc_unpin_ok c4 v4 db b Hv4)|].
      + by apply Hst4, Hst3.
      + unfold v4. bcv_simpl. fset_simpl. lia.
      + intros _ c5 [Hv5 Hst5]. exists c5. split_and!; [done|done|by apply Hst5, Hst4, Hst3|by apply Hst5, Hst4, Hst3]. }
  apply wp_bind. eapply wp_mono; [exact Hun|]. intros _ s5 (c5 & -> & Hv5 & Hlb5 & Hdb5).
  apply wp_bind, wp_onc. cbn [lcache lg].
  eapply wp_mono; [apply (bc_release_ok c5 _ lb a Hv5 Hlb5)|].
  { destruct rec; unfold v4; bcv_simpl; by fset_simpl. }
  { intros _. destruct rec; unfold v4; bcv_simpl; by fset_simpl. }
  intros _ c6 [Hv6 Hst6]. apply wp_onc. cbn [lcache lg].
  eapply wp_mono; [apply (bc_release_ok c6 _ db b Hv6); [by apply Hst6|..]|].
  { destruct rec; unfold v4; bcv_simpl; by fset_simpl. }
  { intros _. destruct rec; unfold v4; bcv_simpl; by fset_simpl. }
  intros _ c7 [Hv7 _]. exists c7. split; [by rewrite <- Hl|]. revert Hv7. apply bc_abs_proper.
  unfold v4. destruct rec, Hmode as [Hm1 Hm2]; split_and!; bcv_simpl; fset_simpl; try done; try fset_cases.
  - rewrite Hra, Hm1. rewrite !decide_True by done. lia.
  - rewrite Hra, (decide_False (P := v_refs v b = 0)) by lia. replace (v_refs v b + 1 - 1) with (v_refs v b) by lia.
    rewrite !(decide_True (P := _ = _)) by done. lia.
Qed.

Lemma v_drop_wrs b ws v : v_drop b (v_wrs ws v) = v_wrs ws (v_drop b v).
Proof. revert v. induction ws as [|[a x] ws IH]; intros v; [done|]. simpl. by rewrite IH. Qed.

Lemma install_trans_ok rec s v l bs :
  bc_abs (lcache s) v → lg s = l → geometry l → logged l bs → quiet l v →
  (if rec : bool then (∀ b, b ∈ bs → v_refs v b = 0 ∧ v_held v b = false) ∧ (v_busy v + 2 <= NBUF)%nat
   else pinned bs v ∧ (v_busy v < NBUF)%nat) →
  wp (install_trans rec) s (λ _ s', ∃ c, s' = mk_lgst c l ∧
    bc_abs c (v_wrs (home_writes l v bs) (if rec then v else v_drops bs v))).
Proof.
  intros Hv Hl Hg Hlo Hq Hmode. unfold install_trans. apply wp_bind, wp_gets. rewrite Hl, (lo_n _ _ Hlo).
  eapply (wp_for_seq _ (λ k s', ∃ c, s' = mk_lgst c l ∧
    bc_abs c (v_wrs (take k (home_writes l v bs)) (if rec then v else v_drops (take k bs) v)))).
  - exists (lcache s). split; [by destruct s; simpl in *; subst|]. by destruct rec.
  - intros k s1 Hk (c & -> & Hvk). destruct (lookup_lt_is_Some_2 bs k Hk) as [b Hb].
    pose proof (list_elem_of_lookup_2 _ _ _ Hb) as Hin.
    set (u := if rec then v else v_drops (take k bs) v) in *.
    destruct (v_wrs_fields (take k (home_writes l v bs)) u) as (_ & _ & Ev & Er & Eh & Eb).
    assert (Hu : v_view u = v_view v ∧ v_held u = v_held v ∧ (v_busy u <= v_busy v)%nat ∧
      (∀ bn, bn ∉ take k bs → v_refs u bn = v_refs v bn)).
    { unfold u. destruct rec; [done|]. destruct (v_drops_fields (take k bs) v) as (_ & _ & ? & ? & ?).
      split_and!; try done. intros bn Hn. rewrite v_drops_refs, decide_False by (done || apply NoDup_take, Hlo). lia. }
    destruct Hu as (Uv & Uh & Ub & Ur).
    assert (Hnt : b ∉ take k bs).
    { intros Hin'. apply list_elem_of_lookup_1 in Hin' as [j Hj]. apply lookup_take_Some in Hj as [Hj Hjk].
      pose proof (NoDup_lookup _ _ _ _ (lo_nodup _ _ Hlo) Hj Hb). lia. }
    pose proof (lo_fit _ _ Hlo). pose proof (lookup_lt_Some _ _ _ Hb).
    set (a := lg_start l + Z.of_nat k + 1).
    assert (Hia : in_log l a) by (unfold in_log, a; lia).
    assert (Hab : ∀ x, x ∈ bs → a ≠ x) by (intros x Hx Hax; destruct (lo_home _ _ Hlo x Hx) as [_ Hh]; apply Hh; by rewrite <- Hax).
    assert (Hat : a ∉ take k bs).
    { intros Hx. apply (Hab a); [|done]. apply list_elem_of_lookup_1 in Hx as [j Hj].
      apply lookup_take_Some in Hj as [Hj _]. by eapply list_elem_of_lookup_2. }
    destruct (Hq a Hia) as [Hq1 Hq2].
    eapply wp_mono; [eapply (install_one_ok rec _ _ l bs k b); try done; fold a; rewrite ?Er, ?Eh, ?Eb, ?Uh, ?Ur by done|].
    + done.
    + done.
    + destruct rec; by apply Hmode.
    + destruct rec; destruct Hmode as [Hm _]; specialize (Hm b Hin); lia.
    + destruct rec; destruct Hmode as [Hm Hm2]; specialize (Hm b Hin); split; lia.
    + intros _ s2 (c2 & -> & Hv2). exists c2. split; [done|].
      rewrite (take_S_r _ _ (b, v_view v a)) by (by apply home_writes_lookup). rewrite v_wrs_snoc.
      rewrite Ev, apply_writes_out, Uv in Hv2.
      * revert Hv2. cbv zeta. fold a. unfold u. destruct rec; [done|].
        change (v_drop b (v_wr b (v_view v a) (v_wrs (take k (home_writes l v bs)) (v_drops (take k bs) v))))
          with (v_wr b (v_view v a) (v_drop b (v_wrs (take k (home_writes l v bs)) (v_drops (take k bs) v)))).
        by rewrite v_drop_wrs, <- v_drops_snoc, <- (take_S_r _ _ _ Hb).
      * rewrite fmap_take, home_writes_fst. done.
  - intros s1 (c & -> & Hvn). exists c. split; [done|].
    rewrite !take_ge in Hvn; [done|done|]. unfold home_writes. by rewrite length_imap.
Qed.

(** ** Commit *)

(** The blocks as they are in the transaction. *)
Definition new_writes v (bs : list Z) : list (Z * block) := (λ b, (b, v_view v b)) <$> bs.

Lemma logged_empty l bs : logged l bs → logged (set_lh_n 0 l) [].
Proof.
  intros [L1 L2 L3 L4 L5 L6]. split; cbn; try done; try lia.
  - by intros b Hb%elem_of_nil.
  - constructor.
Qed.

Lemma geometry_n l n : geometry l → geometry (set_lh_n n l).
Proof. by intros []. Qed.

Definition commit_writes l v (bs : list Z) : list (Z * block) :=
  let h := header bs (v_view v (lg_start l)) in
  log_writes l v bs ++ [(lg_start l, h)] ++ new_writes v bs ++ [(lg_start l, header [] h)].

Lemma log_writes_in_log l v bs bn : logged l bs → bn ∈ (log_writes l v bs).*1 → in_log l bn.
Proof.
  intros Hlo Hin. rewrite log_writes_fst in Hin. apply list_elem_of_fmap in Hin as (i & -> & Hi%elem_of_seq).
  pose proof (lo_fit _ _ Hlo). unfold in_log. lia.
Qed.

(** After [write_log] the log blocks hold the blocks of the transaction. *)
Lemma log_writes_view l v bs i b h :
  logged l bs → bs !! i = Some b →
  v_view (v_wr (lg_start l) h (v_wrs (log_writes l v bs) v)) (lg_start l + Z.of_nat i + 1) = v_view v b.
Proof.
  intros Hlo Hi. bcv_simpl. rewrite fset_ne by lia.
  destruct (v_wrs_fields (log_writes l v bs) v) as (_ & _ & -> & _).
  apply (apply_writes_in _ _ i); [|by apply log_writes_lookup; eauto].
  rewrite log_writes_fst. apply NoDup_fmap_2; [|apply NoDup_seq]. intros x y. lia.
Qed.

Lemma home_writes_new l v v' bs :
  (∀ i b, bs !! i = Some b → v_view v' (lg_start l + Z.of_nat i + 1) = v_view v b) →
  home_writes l v' bs = new_writes v bs.
Proof.
  intros Hi. apply list_eq. intros i. unfold home_writes, new_writes. rewrite list_lookup_imap, list_lookup_fmap.
  destruct (bs !! i) as [b|] eqn:E; [|done]. simpl. by rewrite (Hi i b E).
Qed.

(** What a commit leaves: the writes above in their order, one reference less on
    each block of the transaction, and an empty log. *)
Record committed l v (bs : list Z) v' : Prop := {
  cm_writes : v_writes v' = v_writes v ++ commit_writes l v bs;
  cm_disk : ∀ bn, v_disk v' bn = apply_writes (commit_writes l v bs) (v_disk v) bn;
  cm_view : ∀ bn, v_view v' bn = apply_writes (commit_writes l v bs) (v_view v) bn;
  cm_refs : ∀ bn, v_refs v' bn = v_refs v bn - if decide (bn ∈ bs) then 1 else 0;
  cm_held : ∀ bn, v_held v' bn = v_held v bn;
  cm_busy : (v_busy v' <= v_busy v)%nat
}.

Lemma commit_ok s v l bs :
  bc_abs (lcache s) v → lg s = l → geometry l → logged l bs → quiet l v → pinned bs v → (v_busy v < NBUF)%nat →
  bs ≠ [] →
  wp commit s (λ _ s', ∃ c v', s' = mk_lgst c (set_lh_n 0 l) ∧ bc_abs c v' ∧ committed l v bs v').
Proof.
  intros Hv Hl Hg Hlo Hq Hp Hbusy Hne. unfold commit. apply wp_bind, wp_gets. rewrite Hl, (lo_n _ _ Hlo).
  rewrite (proj2 (Z.ltb_lt _ _)) by (destruct bs; [done|simpl; lia]).
  set (a := lg_start l).
  assert (Ha : in_log l a) by (pose proof (lo_fit _ _ Hlo); unfold in_log, a; lia).
  apply wp_bind. eapply wp_mono; [by eapply write_log_ok|]. intros _ s1 (c1 & -> & Hv1).
  destruct (v_wrs_fields (log_writes l v bs) v) as (D1 & W1 & V1 & R1 & H1 & B1).
  set (v1 := v_wrs (log_writes l v bs) v) in *.
  assert (Hv1a : v_view v1 a = v_view v a).
  { rewrite V1. apply apply_writes_out. rewrite log_writes_fst. intros Hin.
    apply list_elem_of_fmap in Hin as (i & Heq & _). unfold a in Heq. lia. }
  apply wp_bind. eapply wp_mono; [eapply (write_head_ok _ v1 l bs); try done; fold a|].
  { rewrite R1. by apply Hq. } { rewrite H1. by apply Hq. } { by rewrite B1. }
  fold a. intros _ s2 (c2 & -> & Hv2). rewrite Hv1a in Hv2.
  set (h := header bs (v_view v a)) in *. set (v2 := v_wr a h v1) in *.
  assert (B2 : v_busy v2 = v_busy v) by exact B1.
  apply wp_bind. eapply wp_mono; [eapply (install_trans_ok false _ v2 l bs); try done|].
  { intros bn Hbn. unfold v2. bcv_simpl. rewrite R1, H1. by apply Hq. }
  { split; [|unfold v2; bcv_simpl; by rewrite B1]. intros b Hb. unfold v2. bcv_simpl. rewrite R1, H1. by apply Hp. }
  intros _ s3 (c3 & -> & Hv3). rewrite (home_writes_new l v v2 bs) in Hv3.
  2:{ intros i b Hi. by apply log_writes_view. }
  apply wp_bind. apply wp_modify. cbn [lcache lg].
  destruct (v_wrs_fields (new_writes v bs) (v_drops bs v2)) as (D3 & W3 & V3 & R3 & H3 & B3).
  destruct (v_drops_fields bs v2) as (Dd & Wd & Vd & Hd & Bd).
  set (v3 := v_wrs (new_writes v bs) (v_drops bs v2)) in *.
  assert (Hnb : ∀ b, b ∈ bs → b ≠ a) by (intros b Hb ->; by destruct (lo_home _ _ Hlo a Hb)).
  assert (Hna : a ∉ bs) by (intros Hb; by apply (Hnb a)).
  assert (Hv3a : v_view v3 a = h).
  { rewrite V3, apply_writes_out, Vd; [unfold v2; bcv_simpl; by fset_simpl|].
    unfold new_writes. rewrite <- list_fmap_compose. intros Hin.
    apply list_elem_of_fmap in Hin as (b & Heq & Hb). simpl in Heq. by apply (Hnb b). }
  assert (HR3 : ∀ bn, v_refs v3 bn = v_refs v bn - if decide (bn ∈ bs) then 1 else 0).
  { intros bn. rewrite R3, v_drops_refs by apply Hlo. unfold v2. bcv_simpl. by rewrite R1. }
  eapply wp_mono; [eapply (write_head_ok _ v3 (set_lh_n 0 l) []); try done; try (by apply geometry_n)|].
  { by eapply logged_empty. }
  { change (lg_start (set_lh_n 0 l)) with a. rewrite HR3, decide_False by done. destruct (Hq a Ha) as [-> _]. done. }
  { change (lg_start (set_lh_n 0 l)) with a. rewrite H3, Hd. unfold v2. bcv_simpl. rewrite H1. by apply Hq. }
  { rewrite B3. lia. }
  change (lg_start (set_lh_n 0 l)) with a. rewrite Hv3a. intros _ s4 (c4 & -> & Hv4).
  exists c4, (v_wr a (header [] h) v3). split; [done|]. split; [done|].
  assert (Hcw : commit_writes l v bs = ((log_writes l v bs ++ [(a, h)]) ++ new_writes v bs) ++ [(a, header [] h)]).
  { unfold commit_writes. fold a. fold h. by rewrite <- !app_assoc. }
  split; bcv_simpl; rewrite ?Hcw.
  - rewrite W3, Wd. unfold v2. bcv_simpl. by rewrite W1, <- !app_assoc.
  - intros bn. rewrite D3, Dd, !apply_writes_app. unfold v2. bcv_simpl. by rewrite D1.
  - intros bn. rewrite V3, Vd, !apply_writes_app. unfold v2. bcv_simpl. by rewrite V1.
  - done.
  - intros bn. rewrite H3, Hd. unfold v2. bcv_simpl. by rewrite H1.
  - rewrite B3. lia.
Qed.

End Spec.
