(* ===== verification/LogCrash.v ===== *)
(** Recovery and crash safety of the log: whatever prefix of a commit's writes
    reached the disk, and however often recovery itself is cut short, the next
    complete recovery leaves all of the transaction's blocks or none of them. *)

From S2P Require Import Prelude Riscv Memory Cache Log LogSpec.

Section Crash.
Context {S : Type} {BC : BlockCache S} {BOK : BlockCacheOk S}.
Implicit Types (s : lgst S) (c : S) (v : bcv) (l : log) (bn : Z) (d : Z → block).

(** ** The log on disk *)

(** The header block [hb] lists the blocks [bs]. *)
Record on_disk l (hb : block) (bs : list Z) : Prop := {
  od_n : hdr_n hb = Z.of_nat (length bs);
  od_block : ∀ i b, bs !! i = Some b → hdr_block hb (Z.of_nat i) = b;
  od_max : Z.of_nat (length bs) <= LOGSIZE;
  od_fit : Z.of_nat (length bs) + 1 <= lg_size l;
  od_home : ∀ b, b ∈ bs → 0 <= b < 2 ^ 31 ∧ ¬ in_log l b;
  od_nodup : NoDup bs
}.

(** The writes of a recovery from disk [d]. *)
Definition recover_writes l d (bs : list Z) : list (Z * block) :=
  imap (λ i b, (b, d (lg_start l + Z.of_nat i + 1))) bs ++ [(lg_start l, header [] (d (lg_start l)))].

(** A cache just after boot. *)
Record fresh c d : Prop := {
  fr_abs : bc_abs c (mk_bcv d [] d (λ _, 0) (λ _, false) 0)
}.

Lemma put_block_ok s i x (Q : unit → lgst S → Prop) :
  length (lh_block (lg s)) = Z.to_nat LOGSIZE → (i < Z.to_nat LOGSIZE)%nat →
  Q tt (mk_lgst (lcache s) (set_lh_block (Z.of_nat i) x (lg s))) → wp (put_block (Z.of_nat i) x) s Q.
Proof.
  intros Hlen Hi HQ. unfold put_block. apply wp_bind, wp_gets. rewrite (proj2 (Z.ltb_lt _ _)) by lia. done.
Qed.

(** [l'] is [l] but for the transaction it collects. *)
Definition same_log l l' : Prop :=
  lg_start l' = lg_start l ∧ lg_size l' = lg_size l ∧ lg_dev l' = lg_dev l ∧
  lg_outstanding l' = lg_outstanding l ∧ lg_committing l' = lg_committing l ∧
  length (lh_block l') = length (lh_block l).

Lemma same_log_geometry l l' : same_log l l' → geometry l → geometry l'.
Proof. intros (E1 & E2 & E3 & _ & _ & E6) []. split; congruence. Qed.

Lemma read_head_ok s v l bs :
  bc_abs (lcache s) v → lg s = l → geometry l → on_disk l (v_view v (lg_start l)) bs →
  v_refs v (lg_start l) = 0 → v_held v (lg_start l) = false → (v_busy v < NBUF)%nat →
  wp read_head s (λ _ s', ∃ c l', s' = mk_lgst c l' ∧ bc_abs c v ∧ same_log l l' ∧ logged l' bs).
Proof.
  intros Hv Hl [G1 G2 G3 G4 G5] Hod. set (a := lg_start l) in *. intros Hra Hha Hbusy. unfold read_head.
  assert (Ha : 0 <= a < 2 ^ 31) by (unfold a; lia). pose proof (bc_clean _ _ _ Hv Hra) as Hclean.
  apply wp_bind, wp_gets. rewrite Hl. rewrite G1, w32_small by lia. fold a.
  apply wp_bind, wp_onc. eapply wp_mono; [apply (bc_read_ok (lcache s) v); [done|]|].
  { split_and!; try done; lia || (right; done). }
  intros buf c1 (Hv1 & Hat1 & _). apply wp_bind, wp_onc. cbn [lcache lg].
  eapply wp_mono; [by apply (bc_data_ok c1 _ buf a Hv1)|]. intros hb c1' [-> ->]. cbn [v_view v_get].
  apply wp_bind, wp_modify. cbn [lcache lg]. rewrite Hl. rewrite (od_n _ _ _ Hod).
  apply wp_bind. eapply (wp_for_seq _ (λ k s', ∃ l', s' = mk_lgst c1 l' ∧ same_log l l' ∧
    lh_n l' = Z.of_nat (length bs) ∧ ∀ i b, (i < k)%nat → bs !! i = Some b → lh_block l' !! i = Some b)).
  - exists (set_lh_n (Z.of_nat (length bs)) l). split; [done|]. split; [done|]. split; [done|]. lia.
  - intros k s1 Hk (l' & -> & Hsl & Hn & Hblk). destruct (lookup_lt_is_Some_2 bs k Hk) as [b Hb].
    pose proof (od_max _ _ _ Hod). destruct Hsl as (E1 & E2 & E3 & E4 & E5 & E6).
    unfold read_head_one. apply put_block_ok; [cbn [lg]; congruence|lia|]. cbn [lcache lg].
    rewrite (od_block _ _ _ Hod k b Hb).
    exists (set_lh_block (Z.of_nat k) b l'). split; [done|]. split.
    { split_and!; try done. cbn. by rewrite length_insert. }
    split; [done|]. intros i b' Hi Hb'. cbn. rewrite Nat2Z.id.
    destruct (decide (i = k)) as [->|Hne]; [|rewrite list_lookup_insert_ne by done; apply Hblk; [lia|done]].
    rewrite list_lookup_insert_eq by (rewrite E6, G5; lia). congruence.
  - intros s1 (l' & -> & Hsl & Hn & Hblk). apply wp_onc. cbn [lcache lg].
    eapply wp_mono; [apply (bc_release_ok c1 _ buf a Hv1 Hat1); bcv_simpl; by fset_simpl|].
    intros _ c2 [Hv2 _]. exists c2, l'. split; [done|]. split; [|split; [done|]].
    + revert Hv2. apply bc_abs_proper. split_and!; bcv_simpl; fset_simpl; try done; try fset_cases.
      rewrite Hra. rewrite !decide_True by done. lia.
    + destruct Hod as [O1 O2 O3 O4 O5 O6], Hsl as (E1 & E2 & _). split; try done.
      * intros i b Hi. apply Hblk; [by eapply lookup_lt_Some|done].
      * by rewrite E2.
      * intros b Hb. destruct (O5 b Hb) as [? Hh]. split; [done|]. unfold in_log in *. by rewrite E1, E2.
Qed.

Lemma home_writes_same l l' v bs : lg_start l' = lg_start l → home_writes l' v bs = home_writes l v bs.
Proof. unfold home_writes. by intros ->. Qed.

Lemma recover_ok s l d bs :
  fresh (lcache s) d → lg s = l → geometry l → on_disk l (d (lg_start l)) bs →
  wp recover_from_log s (λ _ s', ∃ c l' v', s' = mk_lgst c l' ∧ bc_abs c v' ∧ same_log l l' ∧ logged l' [] ∧
    v_writes v' = recover_writes l d bs ∧ (∀ bn, v_disk v' bn = apply_writes (recover_writes l d bs) d bn) ∧
    (∀ bn, v_refs v' bn = 0 ∧ v_held v' bn = false) ∧ v_busy v' = 0%nat).
Proof.
  intros [Hv] Hl Hg Hod. set (v := mk_bcv d [] d (λ _, 0) (λ _, false) 0) in *. unfold recover_from_log.
  apply wp_bind. eapply wp_mono; [eapply (read_head_ok _ v l bs); try done; unfold NBUF; simpl; lia|].
  intros _ s1 (c1 & l1 & -> & Hv1 & Hsl & Hlo). pose proof (same_log_geometry _ _ Hsl Hg) as Hg1.
  apply wp_bind. eapply wp_mono; [eapply (install_trans_ok true _ v l1 bs); try done|].
  { split; [done|]. unfold NBUF. simpl. lia. }
  intros _ s2 (c2 & -> & Hv2). apply wp_bind, wp_modify. cbn [lcache lg].
  destruct (v_wrs_fields (home_writes l1 v bs) v) as (D2 & W2 & V2 & R2 & H2 & B2).
  set (v2 := v_wrs (home_writes l1 v bs) v) in *. pose proof (proj1 Hsl) as Hst.
  eapply wp_mono; [eapply (write_head_ok _ v2 (set_lh_n 0 l1) []); try done|].
  { by apply geometry_n. } { by eapply logged_empty. } { by rewrite R2. } { by rewrite H2. }
  { rewrite B2. unfold NBUF. simpl. lia. }
  change (lg_start (set_lh_n 0 l1)) with (lg_start l1). rewrite Hst. intros _ s3 (c3 & -> & Hv3).
  assert (Hva : v_view v2 (lg_start l) = d (lg_start l)).
  { rewrite V2. apply apply_writes_out. rewrite home_writes_fst. intros Hin.
    destruct (lo_home _ _ Hlo _ Hin) as [_ Hh]. apply Hh. pose proof (lo_fit _ _ Hlo). unfold in_log. lia. }
  rewrite Hva in Hv3.
  assert (Hrw : recover_writes l d bs = home_writes l1 v bs ++ [(lg_start l, header [] (d (lg_start l)))]).
  { unfold recover_writes. by rewrite (home_writes_same l l1). }
  exists c3, (set_lh_n 0 l1), (v_wr (lg_start l) (header [] (d (lg_start l))) v2).
  split; [done|]. split; [done|]. split; [done|]. split; [by eapply logged_empty|]. rewrite Hrw.
  split_and!; bcv_simpl.
  - by rewrite W2.
  - intros bn. by rewrite D2, apply_writes_app.
  - intros bn. by rewrite R2, H2.
  - by rewrite B2.
Qed.

(** ** Disks from which recovery restores the blocks [home] *)

Definition recoverable l d (home : Z → block) (bs : list Z) : Prop :=
  on_disk l (d (lg_start l)) bs ∧
  (∀ i b, bs !! i = Some b → home b = d (lg_start l + Z.of_nat i + 1)) ∧
  (∀ bn, ¬ in_log l bn → bn ∉ bs → home bn = d bn).

Lemma prefix_app_cases {A} (w l1 l2 : list A) :
  w `prefix_of` l1 ++ l2 → w `prefix_of` l1 ∨ ∃ w', w = l1 ++ w' ∧ w' `prefix_of` l2.
Proof.
  revert w. induction l1 as [|x l1 IH]; intros w Hw; [right; by exists w|].
  destruct w as [|y w]; [left; apply prefix_nil|]. cbn [app] in Hw.
  pose proof (prefix_cons_inv_1 _ _ _ _ Hw) as ->. apply prefix_cons_inv_2 in Hw.
  destruct (IH w Hw) as [H|(w' & -> & H)]; [left; by apply prefix_cons|right; by exists w'].
Qed.

Lemma prefix_fst {A B} (w l1 : list (A * B)) x : w `prefix_of` l1 → x ∈ w.*1 → x ∈ l1.*1.
Proof. intros [k ->]. rewrite fmap_app, elem_of_app. by left. Qed.

Lemma start_in_log l bs hb : on_disk l hb bs → in_log l (lg_start l).
Proof. intros []. unfold in_log. lia. Qed.

Lemma header_empty l hb bs b : on_disk l hb bs → on_disk l (header [] b) [].
Proof.
  intros [_ _ _ O4 _ _]. destruct (header_fields [] b) as [Hn _]; [simpl; lia|done|].
  split; try done; simpl; try lia.
  - by intros ? ?%elem_of_nil.
  - constructor.
Qed.

Section Recover.
Context (l : log) (d home : Z → block) (bs : list Z) (Hrec : recoverable l d home bs).

Let Hod := proj1 Hrec.
Let hw : list (Z * block) := imap (λ i b, (b, d (lg_start l + Z.of_nat i + 1))) bs.

Lemma hw_fst : hw.*1 = bs.
Proof.
  unfold hw. rewrite fmap_imap. apply list_eq. intros i. rewrite list_lookup_imap. by destruct (bs !! i).
Qed.

Lemma hw_lookup i b : bs !! i = Some b → hw !! i = Some (b, home b).
Proof. intros Hi. unfold hw. rewrite list_lookup_imap, Hi. simpl. by rewrite (proj1 (proj2 Hrec) i b Hi). Qed.

(** In the log area the installed blocks change nothing. *)
Lemma hw_log w bn : w `prefix_of` hw → in_log l bn → apply_writes w d bn = d bn.
Proof.
  intros Hw Hbn. apply apply_writes_out. intros Hin. apply (prefix_fst _ _ _ Hw) in Hin. rewrite hw_fst in Hin.
  by destruct (od_home _ _ _ Hod bn Hin).
Qed.

Lemma hw_home bn : ¬ in_log l bn → apply_writes hw d bn = home bn.
Proof.
  intros Hbn. destruct (decide (bn ∈ bs)) as [Hin|Hout].
  - apply list_elem_of_lookup_1 in Hin as [i Hi]. apply (apply_writes_in _ _ i); [|by apply hw_lookup].
    rewrite hw_fst. apply Hod.
  - rewrite apply_writes_out by (by rewrite hw_fst). symmetry. by apply Hrec.
Qed.

(** A complete recovery restores [home]. *)
Lemma recover_final bn : ¬ in_log l bn → apply_writes (recover_writes l d bs) d bn = home bn.
Proof.
  intros Hbn. unfold recover_writes. fold hw. rewrite apply_writes_app. simpl. rewrite fset_ne; [by apply hw_home|].
  intros ->. apply Hbn. by eapply start_in_log.
Qed.

(** A recovery that was cut short can be done again. *)
Lemma recover_partial w : w `prefix_of` hw → recoverable l (apply_writes w d) home bs.
Proof.
  intros Hp. split; [|split].
  - rewrite hw_log; [done|done|by eapply start_in_log].
  - intros i b Hi. rewrite (proj1 (proj2 Hrec) i b Hi). symmetry. apply hw_log; [done|].
    pose proof (od_fit _ _ _ Hod). apply lookup_lt_Some in Hi. unfold in_log. lia.
  - intros bn Hbn Hout. rewrite apply_writes_out; [by apply Hrec|].
    intros Hin. apply (prefix_fst _ _ _ Hp) in Hin. by rewrite hw_fst in Hin.
Qed.

Lemma recover_again w : w `prefix_of` recover_writes l d bs → ∃ bs', recoverable l (apply_writes w d) home bs'.
Proof.
  intros Hw. unfold recover_writes in Hw. fold hw in Hw.
  destruct (prefix_app_cases _ _ _ Hw) as [Hp|(w' & -> & Hp)]; [exists bs; by apply recover_partial|].
  destruct w' as [|x w']; [exists bs; rewrite app_nil_r; by apply recover_partial|].
  exists []. pose proof (prefix_cons_inv_1 _ _ _ _ Hp) as ->. apply prefix_cons_inv_2, prefix_nil_inv in Hp as ->.
  rewrite apply_writes_app. split; [|split].
  - simpl. rewrite fset_eq. by eapply header_empty.
  - intros i b Hi. by rewrite lookup_nil in Hi.
  - intros bn Hbn _. simpl. rewrite fset_ne; [by rewrite hw_home|].
    intros ->. apply Hbn. by eapply start_in_log.
Qed.

End Recover.

(** ** Crashes during a commit *)

Lemma logged_on_disk l bs hb : logged l bs → on_disk l (header bs hb) bs.
Proof.
  intros [L1 L2 L3 L4 L5 L6]. destruct (header_fields bs hb) as [Hn Hb].
  - unfold LOGSIZE, MAXOPBLOCKS in L3. lia.
  - apply list.Forall_forall. intros b Hb. by apply L5.
  - by split.
Qed.

Lemma new_writes_fst v bs : (new_writes v bs).*1 = bs.
Proof. unfold new_writes. rewrite <- list_fmap_compose. apply list_fmap_id. Qed.

(** The disk while a transaction commits: the old blocks until the header is
    written, the new ones from then on. *)
Lemma commit_recoverable l v bs w :
  logged l bs → on_disk l (v_disk v (lg_start l)) [] →
  (∀ bn, ¬ in_log l bn → bn ∉ bs → v_view v bn = v_disk v bn) →
  w `prefix_of` commit_writes l v bs →
  (∃ bs', recoverable l (apply_writes w (v_disk v)) (v_disk v) bs') ∨
  (∃ bs', recoverable l (apply_writes w (v_disk v)) (v_view v) bs').
Proof.
  intros Hlo Hod Hclean Hw. unfold commit_writes in Hw. set (a := lg_start l) in *.
  set (h := header bs (v_view v a)) in *. pose proof (start_in_log _ _ _ Hod) as Ha. fold a in Ha.
  assert (Hla : a ∉ (log_writes l v bs).*1).
  { rewrite log_writes_fst. intros Hin. apply list_elem_of_fmap in Hin as (i & Heq & _). unfold a in Heq. lia. }
  assert (Hold : ∀ w, w `prefix_of` log_writes l v bs →
    recoverable l (apply_writes w (v_disk v)) (v_disk v) []).
  { intros w0 Hp. split; [|split].
    - fold a. rewrite apply_writes_out; [done|]. intros Hin. by apply (prefix_fst _ _ _ Hp) in Hin.
    - intros i b Hi. by rewrite lookup_nil in Hi.
    - intros bn Hbn _. rewrite apply_writes_out; [done|]. intros Hin. apply (prefix_fst _ _ _ Hp) in Hin.
      by apply Hbn, (log_writes_in_log l v bs). }
  destruct (prefix_app_cases _ _ _ Hw) as [Hp|(w1 & -> & Hp)]; [left; exists []; auto|].
  destruct w1 as [|x w1]; [left; exists []; rewrite app_nil_r; auto|]. right.
  cbn [app] in Hp. pose proof (prefix_cons_inv_1 _ _ _ _ Hp) as ->. apply prefix_cons_inv_2 in Hp.
  set (d1 := fset (apply_writes (log_writes l v bs) (v_disk v)) a h).
  assert (Hd1 : recoverable l d1 (v_view v) bs).
  { split; [|split].
    - unfold d1. fold a. rewrite fset_eq. by apply logged_on_disk.
    - intros i b Hi. unfold d1. rewrite fset_ne by (unfold a; lia). symmetry.
      apply (apply_writes_in _ _ i); [|by apply log_writes_lookup; eauto].
      rewrite log_writes_fst. apply NoDup_fmap_2; [|apply NoDup_seq]. intros x y. lia.
    - intros bn Hbn Hout. unfold d1. rewrite fset_ne by (intros ->; done). rewrite apply_writes_out; [by apply Hclean|].
      intros Hin. by apply Hbn, (log_writes_in_log l v bs). }
  assert (Hhw : new_writes v bs = imap (λ i b, (b, d1 (lg_start l + Z.of_nat i + 1))) bs).
  { apply list_eq. intros i. unfold new_writes. rewrite list_lookup_fmap, list_lookup_imap.
    destruct (bs !! i) as [b|] eqn:E; [|done]. simpl. by rewrite (proj1 (proj2 Hd1) i b E). }
  rewrite apply_writes_app. change (apply_writes ((a, h) :: w1) _) with (apply_writes w1 d1).
  apply (recover_again l d1 (v_view v) bs Hd1). unfold recover_writes. rewrite <- Hhw. fold a.
  assert (d1 a = h) as -> by (unfold d1; apply fset_eq). exact Hp.
Qed.

(** A commit that completes installs the transaction. *)
Lemma apply_writes_home l v bs bn :
  logged l bs → (bn ∉ bs → v_view v bn = v_disk v bn) → ¬ in_log l bn →
  apply_writes (commit_writes l v bs) (v_disk v) bn = v_view v bn.
Proof.
  intros Hlo Hclean Hbn. assert (Ha : bn ≠ lg_start l).
  { intros ->. apply Hbn. pose proof (lo_fit _ _ Hlo). unfold in_log. lia. }
  unfold commit_writes. rewrite !apply_writes_app. simpl. rewrite fset_ne by done.
  destruct (decide (bn ∈ bs)) as [Hin|Hout].
  - apply list_elem_of_lookup_1 in Hin as [i Hi].
    apply (apply_writes_in _ _ i); [rewrite new_writes_fst; apply Hlo|].
    unfold new_writes. by rewrite list_lookup_fmap, Hi.
  - rewrite apply_writes_out by (by rewrite new_writes_fst). rewrite fset_ne by done.
    rewrite apply_writes_out; [by rewrite Hclean|]. intros Hin. by apply Hbn, (log_writes_in_log l v bs).
Qed.

(** ** Reboots *)

(** [d'] is a disk left by a reboot from [d] whose recovery was cut short. *)
Definition crash_reboot l d d' : Prop := ∃ s s' v' w,
  fresh (lcache s) d ∧ length (lh_block (lg s)) = Z.to_nat LOGSIZE ∧
  initlog ROOTDEV (lg_start l) (lg_size l) s = Ok (tt, s') ∧ bc_abs (lcache s') v' ∧
  w `prefix_of` v_writes v' ∧ d' = apply_writes w d.

Lemma initlog_ok s l d home bs :
  geometry l → fresh (lcache s) d → length (lh_block (lg s)) = Z.to_nat LOGSIZE → recoverable l d home bs →
  wp (initlog ROOTDEV (lg_start l) (lg_size l)) s (λ _ s', ∃ v', bc_abs (lcache s') v' ∧ logged (lg s') [] ∧
    v_writes v' = recover_writes l d bs ∧ (∀ bn, ¬ in_log l bn → v_disk v' bn = home bn)).
Proof.
  intros [G1 G2 G3 G4 G5] Hf Hlen Hrec. unfold initlog. rewrite (proj2 (Z.leb_gt _ _)) by done.
  apply wp_bind, wp_modify. rewrite !i32_id by lia.
  set (l0 := mk_log (lg_start l) (lg_size l) _ _ _ _ _). pose proof Hrec as [[O1 O2 O3 O4 O5 O6] _].
  eapply wp_mono; [apply (recover_ok _ l0 d bs); [done|done|by split|by split]|].
  intros _ s' (c & l' & v' & -> & Hv' & Hsl & Hlo & Hw & Hd & _). exists v'. split_and!; [done|done|done|].
  intros bn Hbn. rewrite Hd. by apply (recover_final l d home bs Hrec).
Qed.

Lemma reboots_recoverable l d d' home :
  geometry l → rtc (crash_reboot l) d d' → (∃ bs, recoverable l d home bs) → ∃ bs, recoverable l d' home bs.
Proof.
  intros Hg. induction 1 as [d|d d1 d2 (s & s' & v' & w & Hf & Hlen & Hrun & Hv' & Hw & ->) _ IH]; [done|].
  intros [bs Hrec]. apply IH. pose proof (initlog_ok s l d home bs Hg Hf Hlen Hrec) as Hwp.
  unfold wp in Hwp. rewrite Hrun in Hwp. destruct Hwp as (v2 & Hv2 & _ & Hws & _).
  rewrite (bc_writes_det _ _ _ Hv' Hv2), Hws in Hw. by eapply recover_again.
Qed.

(** C2. End of a transaction, and crashes.  The last end_op of a transaction
    returns with every block outside the log on disk as the transaction made it
    and the log empty again.  If instead the machine stops after any number of
    the block writes it makes, and any number of later reboots stop in the middle
    of recovery, the first recovery that completes leaves the blocks outside the
    log either all as before the transaction or all as the transaction made
    them. *)
Theorem end_op_crash_safe s l v bs :
  bc_abs (lcache s) v → lg s = l → geometry l → logged l bs → quiet l v → pinned bs v → (v_busy v < NBUF)%nat →
  lg_outstanding l = 1 → lg_committing l = 0 → bs ≠ [] → on_disk l (v_disk v (lg_start l)) [] →
  (∀ bn, ¬ in_log l bn → bn ∉ bs → v_view v bn = v_disk v bn) →
  wp end_op s (λ _ s', ∃ v' ws, bc_abs (lcache s') v' ∧ logged (lg s') [] ∧
    lg_outstanding (lg s') = 0 ∧ lg_committing (lg s') = 0 ∧ v_writes v' = v_writes v ++ ws ∧
    (∀ bn, ¬ in_log l bn → v_disk v' bn = v_view v bn) ∧
    ∀ w d sb, w `prefix_of` ws → rtc (crash_reboot l) (apply_writes w (v_disk v)) d →
      fresh (lcache sb) d → length (lh_block (lg sb)) = Z.to_nat LOGSIZE →
      wp (initlog ROOTDEV (lg_start l) (lg_size l)) sb (λ _ sb', ∃ vb, bc_abs (lcache sb') vb ∧
        ((∀ bn, ¬ in_log l bn → v_disk vb bn = v_disk v bn) ∨
         (∀ bn, ¬ in_log l bn → v_disk vb bn = v_view v bn)))).
Proof.
  intros Hv Hl Hg Hlo Hq Hp Hbusy Hout Hcom Hne Hod Hclean. unfold end_op.
  apply wp_bind, wp_modify, wp_bind, wp_gets. cbn [lg lcache]. rewrite Hl. cbn [lg_committing set_outstanding].
  rewrite Hcom. cbn [truth negb Z.eqb]. rewrite Hout. cbn [lg_outstanding Z.sub Z.add Z.opp Z.eqb Z.pos_sub].
  apply wp_bind, wp_modify. cbn [lg lcache].
  set (l1 := set_committing 1 (set_outstanding 0 l)).
  assert (Hlo1 : logged l1 bs) by (by destruct Hlo).
  apply wp_bind. eapply wp_mono; [apply (commit_ok _ v l1 bs); try done; by destruct Hg|].
  intros _ s1 (c1 & v1 & -> & Hv1 & [C1 C2 C3 C4 C5 C6]). apply wp_modify. cbn [lg lcache].
  exists v1, (commit_writes l v bs). change (commit_writes l1 v bs) with (commit_writes l v bs) in *.
  split_and!; try done.
  - apply (logged_empty l1) in Hlo1. by destruct Hlo1.
  - intros bn Hbn. rewrite C2. apply apply_writes_home; [done|by apply Hclean|done].
  - intros w d sb Hw Hreb Hf Hlen.
    destruct (commit_recoverable l v bs w Hlo Hod Hclean Hw) as [Hr|Hr];
      destruct (reboots_recoverable _ _ _ _ Hg Hreb Hr) as [bs' Hr'];
      (eapply wp_mono; [by eapply initlog_ok|]); intros _ s2 (v2 & Hv2 & _ & _ & Hd2); exists v2; auto.
Qed.

End Crash.
