(* ===== verification/BioUse.v ===== *)
(** The buffer cache from boot on: [binit] builds an empty cache, and sequences of
    reads and writes through it behave like a plain map from block numbers to
    contents, however many blocks they touch. *)

From S2P Require Import Prelude Riscv Memory Cache Bio BioList BioSpec.

(** ** binit *)

(** The static array of bio.c before [binit]. *)
Definition boot (d : gmap Z block) (pid : Z) : bst := mk_bst (replicate (S NBUF) buf0) d [] pid.

Definition linked_bufs : list buf :=
  (λ i, mk_buf 0 0 0 0 0 0 0
    (if (i =? 29)%nat then 30 else if (i =? 30)%nat then 0 else S i)
    (if (i =? 0)%nat then 30 else pred i) ∅) <$> seq 0 (S NBUF).

Lemma binit_runs d pid : binit (boot d pid) = Ok (tt, mk_bst linked_bufs d [] pid).
Proof. vm_compute. reflexivity. Qed.

Lemma linked_buf d pid i : ∃ p n, bufat (mk_bst linked_bufs d [] pid) i = mk_buf 0 0 0 0 0 0 0 p n ∅.
Proof.
  unfold bufat. cbn [bufs]. destruct (linked_bufs !! i) as [b|] eqn:E; [|by exists 0%nat, 0%nat].
  unfold linked_bufs in E. rewrite list_lookup_fmap in E. destruct (seq 0 (S NBUF) !! i) as [j|]; [|done].
  injection E as <-. simpl. eauto.
Qed.

Definition empty_cache (d : gmap Z block) : bcv :=
  mk_bcv (dblock d) [] (dblock d) (λ _, 0) (λ _, false) 0.

Lemma linked_ok d pid : bio_abs (mk_bst linked_bufs d [] pid) (empty_cache d).
Proof.
  set (s := mk_bst linked_bufs d [] pid).
  assert (Hno : ∀ h bn, ¬ holds s h bn).
  { intros h bn (_ & Hd & _). destruct (linked_buf d pid h) as (p & n & E). unfold s in Hd. by rewrite E in Hd. }
  assert (Hc : ∀ bn, cached s bn = None) by (intros bn; apply cached_none; auto).
  split.
  - exists (reverse (seq 0 NBUF)). split.
    + reflexivity.
    + apply reverse_Permutation.
    + split.
      * vm_compute. tauto.
      * apply list.NoDup_cons. rewrite elem_of_reverse, elem_of_seq. split; [unfold NBUF; lia|].
        rewrite reverse_Permutation. apply NoDup_seq.
      * apply list.Forall_forall. intros x Hx. change (length (bufs s)) with 31%nat.
        apply elem_of_cons in Hx as [->|Hx]; [unfold NBUF; lia|]. rewrite elem_of_reverse, elem_of_seq in Hx.
        unfold NBUF in Hx. lia.
    + intros i j bn Hi. by destruct (Hno i bn).
    + intros i _. destruct (linked_buf d pid i) as (p & n & E). unfold s. rewrite E. by split.
  - intros i _. destruct (linked_buf d pid i) as (p & n & E). unfold s. by rewrite E.
  - done.
  - done.
  - intros bn. by destruct (not_holds_view s bn (Hc bn)) as (-> & _ & _).
  - intros bn. by destruct (not_holds_view s bn (Hc bn)) as (_ & -> & _).
  - intros bn. by destruct (not_holds_view s bn (Hc bn)) as (_ & _ & ->).
  - assert (busy s = 0%nat) as ->; [|done]. unfold busy.
    destruct (filter _ _) as [|i L] eqn:EF; [done|]. exfalso.
    assert (Hi : i ∈ i :: L) by (apply elem_of_cons; by left). rewrite <- EF in Hi.
    apply list_elem_of_filter in Hi as [Hi _]. destruct (linked_buf d pid i) as (p & n & E). unfold s in Hi.
    by rewrite E in Hi.
Qed.

(** ** Reads and writes through the cache *)

Inductive bop := BRead (bn : Z) | BWrite (bn : Z) (d : block).

Definition bop_block (o : bop) : Z := match o with BRead bn | BWrite bn _ => bn end.

(** [bp = bread(...); ... bp->data ...; brelse(bp)] and the same with a store to
    [bp->data] and a [bwrite]. *)
Definition run_bop (o : bop) : M bst block :=
  match o with
  | BRead bn => b ← bread ROOTDEV bn; x ← getbuf b; brelse b;; mret (b_data x)
  | BWrite bn d => b ← bread ROOTDEV bn; updbuf b (set_b_data d);; bwrite b;; brelse b;; mret d
  end.

Fixpoint run_bops (os : list bop) : M bst (list block) :=
  match os with
  | [] => mret []
  | o :: os' => r ← run_bop o; rs ← run_bops os'; mret (r :: rs)
  end.

(** The same on a map from block numbers to contents. *)
Fixpoint spec_bops (os : list bop) (d : Z → block) : list block * (Z → block) * list (Z * block) :=
  match os with
  | [] => ([], d, [])
  | BRead bn :: os' => let '(rs, d', ws) := spec_bops os' d in (d bn :: rs, d', ws)
  | BWrite bn x :: os' => let '(rs, d', ws) := spec_bops os' (fset d bn x) in (x :: rs, d', (bn, x) :: ws)
  end.

(** Between operations nothing is referenced or locked. *)
Definition idle (v : bcv) (d : Z → block) : Prop :=
  (∀ bn, v_disk v bn = d bn ∧ v_view v bn = d bn ∧ v_refs v bn = 0 ∧ v_held v bn = false) ∧ v_busy v = 0%nat.

Lemma idle_fetchable v d bn : idle v d → 0 <= bn < 2 ^ 32 → fetchable v bn.
Proof.
  intros [Hv Hb] Hbn. destruct (Hv bn) as (_ & _ & Hr & Hh). unfold fetchable. rewrite Hr, Hh, Hb. unfold NBUF.
  split_and!; try done; lia || (right; lia).
Qed.

Lemma run_bop_ok o s v d :
  bio_abs s v → idle v d → 0 <= bop_block o < 2 ^ 32 →
  wp (run_bop o) s (λ r s', ∃ v', bio_abs s' v' ∧
    match o with
    | BRead bn => r = d bn ∧ idle v' d ∧ v_writes v' = v_writes v
    | BWrite bn x => r = x ∧ idle v' (fset d bn x) ∧ v_writes v' = v_writes v ++ [(bn, x)]
    end).
Proof.
  intros Hv Hid Hbn. pose proof (idle_fetchable v d _ Hid Hbn) as Hf. destruct Hid as [Hid Hb].
  destruct o as [bn|bn x]; cbn [bop_block] in *; destruct (Hid bn) as (Ed & Ev & Er & Eh).
  - apply wp_bind. eapply wp_mono; [by apply bread_ok|]. intros h s1 (Hv1 & Hh1 & _).
    apply wp_bind, wp_gets. destruct (holds_abs _ _ _ _ Hv1 Hh1) as (_ & Ex & _). rewrite <- Ex.
    apply wp_bind. eapply wp_mono; [apply (brelse_ok _ _ _ _ Hv1 Hh1); bcv_simpl; fset_simpl; congruence|].
    intros _ s2 [Hv2 _]. apply wp_ret. exists (v_rel bn (v_get bn v)). split; [done|]. bcv_simpl.
    split; [done|]. split; [|done]. split; bcv_simpl; fset_simpl.
    + intros k. destruct (Hid k) as (? & ? & ? & ?). split_and!; try done; unfold fset; case_decide; subst; done || lia.
    + rewrite Er, Hb. done.
  - apply wp_bind. eapply wp_mono; [by apply bread_ok|]. intros h s1 (Hv1 & Hh1 & _).
    apply wp_bind. eapply wp_mono; [apply (bset_ok _ _ _ _ x Hv1 Hh1); bcv_simpl; fset_simpl; lia|].
    intros _ s2 [Hv2 Hh2]. apply wp_bind.
    eapply wp_mono; [apply (bwrite_ok _ _ _ _ Hv2 (Hh2 _ _ Hh1)); bcv_simpl; by fset_simpl|].
    intros _ s3 [Hv3 Hh3]. apply wp_bind.
    eapply wp_mono; [apply (brelse_ok _ _ _ _ Hv3 (Hh3 _ _ (Hh2 _ _ Hh1))); bcv_simpl; by fset_simpl|].
    intros _ s4 [Hv4 _]. apply wp_ret. eexists. split; [exact Hv4|]. split; [done|]. bcv_simpl. fset_simpl.
    split; [|done]. split; bcv_simpl; fset_simpl.
    + intros k. destruct (Hid k) as (? & ? & ? & ?). split_and!; unfold fset; case_decide; subst; done || lia.
    + rewrite Er, Hb. done.
Qed.

Lemma run_bops_ok os s v d :
  bio_abs s v → idle v d → Forall (λ o, 0 <= bop_block o < 2 ^ 32) os →
  wp (run_bops os) s (λ rs s', ∃ v', bio_abs s' v' ∧
    rs = (spec_bops os d).1.1 ∧ idle v' (spec_bops os d).1.2 ∧ v_writes v' = v_writes v ++ (spec_bops os d).2).
Proof.
  revert s v d. induction os as [|o os IH]; intros s v d Hv Hid Hall.
  { apply wp_ret. exists v. simpl. by rewrite app_nil_r. }
  apply list.Forall_cons in Hall as [Ho Hall]. cbn [run_bops].
  apply wp_bind. eapply wp_mono; [by apply run_bop_ok|]. intros r s1 (v1 & Hv1 & Ho1). apply wp_bind.
  destruct o as [bn|bn x]; destruct Ho1 as (-> & Hid1 & Hw1);
    (eapply wp_mono; [by apply IH|]); intros rs s2 (v2 & Hv2 & -> & Hid2 & Hw2); apply wp_ret; exists v2;
    cbn [spec_bops].
  - destruct (spec_bops os d) as [[rs d'] ws]. simpl in *. split_and!; try done; try apply Hid2. congruence.
  - destruct (spec_bops os (fset d bn x)) as [[rs d'] ws]. simpl in *. split_and!; try done; try apply Hid2.
    by rewrite Hw2, Hw1, <- app_assoc.
Qed.

(** C17. The buffer cache refines the disk: after binit, any sequence of block
    reads and writes, on any number of blocks and so with any amount of
    recycling of the NBUF buffers, returns what the same sequence on a plain map
    returns, leaves that map on disk, and issues exactly its writes to the disk
    in order.  No buffer is ever missing. *)
Theorem cache_refines_disk d pid os :
  Forall (λ o, 0 <= bop_block o < 2 ^ 32) os →
  wp (binit;; run_bops os) (boot d pid) (λ rs s',
    rs = (spec_bops os (dblock d)).1.1 ∧
    (∀ bn, dblock (disk s') bn = (spec_bops os (dblock d)).1.2 bn) ∧
    writes s' = (spec_bops os (dblock d)).2).
Proof.
  intros Hall. apply wp_bind. eapply wp_eq; [apply binit_runs|].
  eapply wp_mono; [apply (run_bops_ok os _ (empty_cache d) (dblock d)); [apply linked_ok|by split|done]|].
  intros rs s' (v' & Hv' & -> & [Hid _] & Hw). split; [done|]. split.
  - intros bn. rewrite <- (ba_disk _ _ Hv'). apply Hid.
  - rewrite <- (ba_writes _ _ Hv'), Hw. done.
Qed.

(** Forty blocks written and read back through thirty buffers. *)
Lemma cache_refines_disk_witness :
  let os := (λ k, BWrite k {[ 0 := k ]}) <$> seqZ 0 40 ++ [] in
  let os := os ++ (BRead <$> seqZ 0 40) in
  wp (binit;; run_bops os) (boot ∅ 1) (λ rs s',
    rs = (spec_bops os (dblock ∅)).1.1 ∧
    (∀ bn, dblock (disk s') bn = (spec_bops os (dblock ∅)).1.2 bn) ∧
    writes s' = (spec_bops os (dblock ∅)).2).
Proof.
  intros os1 os. apply (cache_refines_disk ∅ 1 os).
  apply (bool_decide_eq_true_1 _). vm_compute. reflexivity.
Defined.
