(* ===== verification/Txn.v ===== *)
(** Transactions: the view of the file system on the log.

    Between [begin_op] and [end_op] the file system reads blocks, changes them and
    passes them to [log_write].  [txn] describes the state inside a transaction by
    the contents of the blocks as the transaction sees them, the blocks on disk,
    the blocks logged so far and the blocks held; the rules below are all the file
    system needs of the cache and the log. *)

From S2P Require Import Prelude Riscv Memory Cache Log LogSpec LogCrash.

Record tx := mk_tx {
  t_view : Z → block;
  t_disk : Z → block;
  t_logged : list Z;
  t_held : list Z
}.

Section Txn.
Context {C : Type} {BC : BlockCache C} {BOK : BlockCacheOk C}.
Implicit Types (s : lgst C) (t : tx) (bn : Z).

Definition count (bn : Z) (l : list Z) : Z := if decide (bn ∈ l) then 1 else 0.

(** The buffers in use. *)
Definition in_use t : nat := length (t_logged t) + length (filter (λ b, b ∉ t_logged t) (t_held t)).

Record txn s t : Prop := {
  tx_geom : geometry (lg s);
  tx_com : lg_committing (lg s) = 0;
  tx_lg : logged (lg s) (t_logged t);
  tx_heldnd : NoDup (t_held t);
  tx_heldhome : ∀ bn, bn ∈ t_held t → 0 <= bn < 2 ^ 31 ∧ ¬ in_log (lg s) bn;
  tx_hdr : on_disk (lg s) (t_disk t (lg_start (lg s))) [];
  tx_cache : ∃ v, bc_abs (lcache s) v ∧
    (∀ bn, v_view v bn = t_view t bn) ∧ (∀ bn, v_disk v bn = t_disk t bn) ∧
    (∀ bn, v_refs v bn = count bn (t_logged t) + count bn (t_held t)) ∧
    (∀ bn, v_held v bn = bool_decide (bn ∈ t_held t)) ∧
    v_busy v = in_use t
}.

(** The buffer [h] is that of the held block [bn]. *)
Definition tx_at s t (h : nat) (bn : Z) : Prop := bc_at (lcache s) h bn ∧ bn ∈ t_held t.

(** Blocks that are neither logged nor held are as on disk. *)
Lemma txn_clean s t bn : txn s t → bn ∉ t_logged t → bn ∉ t_held t → t_view t bn = t_disk t bn.
Proof.
  intros [] Hl Hh. destruct tx_cache0 as (v & Hv & Ev & Ed & Er & _). rewrite <- Ev, <- Ed.
  apply (bc_clean _ _ _ Hv). rewrite Er. unfold count. by rewrite !decide_False.
Qed.

(** Inside an operation, with room for [k] more logged blocks. *)
Definition room s t (k : Z) : Prop :=
  1 <= lg_outstanding (lg s) ∧
  Z.of_nat (length (t_logged t)) + k <= Z.min LOGSIZE (lg_size (lg s) - 1).

Definition t_hold bn t : tx := mk_tx (t_view t) (t_disk t) (t_logged t) (bn :: t_held t).
Definition t_drop bn t : tx := mk_tx (t_view t) (t_disk t) (t_logged t) (filter (λ b, b ≠ bn) (t_held t)).
Definition t_put bn (d : block) t : tx := mk_tx (fset (t_view t) bn d) (t_disk t) (t_logged t) (t_held t).
Definition t_log bn t : tx :=
  mk_tx (t_view t) (t_disk t) (if decide (bn ∈ t_logged t) then t_logged t else t_logged t ++ [bn]) (t_held t).

(** The buffers of held blocks stay where they are. *)
Definition keeps s t s' : Prop := ∀ h bn, tx_at s t h bn → bc_at (lcache s') h bn.

Lemma count_cons bn b l : b ∉ l → count bn (b :: l) = count bn l + if decide (bn = b) then 1 else 0.
Proof.
  intros Hb. unfold count. destruct (decide (bn = b)) as [->|Hne].
  - rewrite decide_True by (apply elem_of_cons; by left). by rewrite decide_False.
  - destruct (decide (bn ∈ l)) as [Hin|Hout].
    + rewrite decide_True by (apply elem_of_cons; by right). done.
    + rewrite decide_False by (rewrite not_elem_of_cons; done). done.
Qed.

Lemma tx_read_ok s t bn :
  txn s t → bn ∉ t_held t → 0 <= bn < 2 ^ 31 → ¬ in_log (lg s) bn →
  (bn ∈ t_logged t ∨ (in_use t < NBUF)%nat) →
  wp (onc (bc_read ROOTDEV bn)) s (λ h s', lg s' = lg s ∧ txn s' (t_hold bn t) ∧ tx_at s' (t_hold bn t) h bn ∧
    keeps s t s').
Proof.
  intros [] Hnh Hbn Hlog Hroom. destruct tx_cache0 as (v & Hv & Ev & Ed & Er & Eh & Eb).
  apply wp_onc. eapply wp_mono; [apply (bc_read_ok _ v); [done|]|].
  { unfold fetchable. rewrite Er, Eh. unfold count. rewrite (decide_False (P := bn ∈ t_held t)) by done.
    split_and!; [lia|lia|by apply bool_decide_eq_false_2|case_decide; lia|].
    destruct Hroom as [Hin|Hr]; [left; rewrite decide_True by done; lia|right; by rewrite Eb]. }
  intros h c (Hv1 & Hat & Hkeep). cbn [lg lcache]. split; [done|]. split; [|split].
  - split; cbn [lg lcache t_hold t_view t_disk t_logged t_held]; try done.
    + by apply list.NoDup_cons.
    + intros b [->|Hb]%elem_of_cons; [done|]. by apply tx_heldhome0.
    + exists (v_get bn v). split; [done|]. bcv_simpl. split_and!; try done.
      * intros b. rewrite count_cons by done. unfold fset. rewrite !Er. case_decide; [subst; lia|lia].
      * intros b. unfold fset. case_decide as Hb.
        -- subst b. symmetry. apply bool_decide_eq_true_2, elem_of_cons. by left.
        -- rewrite Eh. apply bool_decide_ext. rewrite elem_of_cons. naive_solver.
      * rewrite Eb, Er. unfold in_use, count. cbn [t_logged t_held t_hold]. rewrite list.filter_cons.
        rewrite (decide_False (P := bn ∈ t_held t)) by done.
        destruct (decide (bn ∈ t_logged t)) as [Hin|Hout].
        -- rewrite !decide_False by (tauto || lia). lia.
        -- rewrite !decide_True by (tauto || lia). simpl. lia.
  - split; [done|]. apply elem_of_cons. by left.
  - intros h' b [Hb Hin]. cbn [lcache]. apply Hkeep; [done|]. rewrite Er. unfold count.
    rewrite (decide_True (P := b ∈ t_held t)) by done. case_decide; lia.
Qed.

Lemma tx_data_ok s t h bn :
  txn s t → tx_at s t h bn → wp (onc (bc_data h)) s (λ d s', s' = s ∧ d = t_view t bn).
Proof.
  intros [] [Hat Hin]. destruct tx_cache0 as (v & Hv & Ev & _). apply wp_onc.
  eapply wp_mono; [by apply (bc_data_ok _ _ _ _ Hv Hat)|]. intros d c [-> ->]. split; [by destruct s|apply Ev].
Qed.

Lemma tx_set_ok s t h bn d :
  txn s t → tx_at s t h bn →
  wp (onc (bc_set h d)) s (λ _ s', lg s' = lg s ∧ txn s' (t_put bn d t) ∧ keeps s t s').
Proof.
  intros [] [Hat Hin]. destruct tx_cache0 as (v & Hv & Ev & Ed & Er & Eh & Eb). apply wp_onc.
  eapply wp_mono; [apply (bc_set_ok _ _ _ _ d Hv Hat)|].
  { rewrite Er. unfold count. rewrite (decide_True (P := bn ∈ t_held t)) by done. case_decide; lia. }
  intros _ c [Hv1 Hkeep]. cbn [lg lcache]. split; [done|]. split.
  - split; cbn [lg lcache t_put t_view t_disk t_logged t_held]; try done.
    exists (v_set bn d v). bcv_simpl. split_and!; try done. fset_cases.
  - intros h' b [Hb _]. by apply Hkeep.
Qed.

Lemma count_filter bn b l : count b (filter (λ x, x ≠ bn) l) = if decide (b = bn) then 0 else count b l.
Proof.
  unfold count. destruct (decide (b = bn)) as [->|Hne].
  - rewrite decide_False; [done|]. by intros [? _]%list_elem_of_filter.
  - destruct (decide (b ∈ l)) as [Hin|Hout].
    + rewrite decide_True; [done|]. by apply list_elem_of_filter.
    + rewrite decide_False; [done|]. by intros [_ ?]%list_elem_of_filter.
Qed.

Lemma length_filter_out (P : Z → Prop) `{∀ x, Decision (P x)} bn (l : list Z) :
  NoDup l → bn ∈ l →
  (length (filter P (filter (λ x, x ≠ bn) l)) + (if decide (P bn) then 1 else 0) = length (filter P l))%nat.
Proof.
  intros Hnd Hin. apply list_elem_of_split in Hin as (l1 & l2 & ->).
  apply list.NoDup_app in Hnd as (_ & H1 & [H2 _]%list.NoDup_cons).
  rewrite !list.filter_app, !list.filter_cons. rewrite (decide_False (P := bn ≠ bn)) by tauto.
  rewrite (filter_all _ l1), (filter_all _ l2), !length_app; [case_decide; simpl; lia|..].
  - intros x Hx ->. done.
  - intros x Hx ->. eapply H1; [done|]. apply elem_of_cons. by left.
Qed.

Lemma tx_release_ok s t h bn :
  txn s t → tx_at s t h bn → (bn ∈ t_logged t ∨ t_view t bn = t_disk t bn) →
  wp (onc (bc_release h)) s (λ _ s', lg s' = lg s ∧ txn s' (t_drop bn t) ∧ keeps s t s').
Proof.
  intros [] [Hat Hin] Hcl. destruct tx_cache0 as (v & Hv & Ev & Ed & Er & Eh & Eb). apply wp_onc.
  eapply wp_mono; [apply (bc_release_ok _ _ _ _ Hv Hat)|].
  { rewrite Eh. by apply bool_decide_eq_true_2. }
  { rewrite Er, Ev, Ed. unfold count. rewrite (decide_True (P := bn ∈ t_held t)) by done.
    destruct Hcl as [Hl|]; [|done]. rewrite decide_True by done. lia. }
  intros _ c [Hv1 Hkeep]. cbn [lg lcache]. split; [done|]. split.
  - pose proof (length_filter_out (λ b, b ∉ t_logged t) bn _ tx_heldnd0 Hin) as Hlen. cbn beta in Hlen.
    split; cbn [lg lcache t_drop t_view t_disk t_logged t_held]; try done.
    + by apply list.NoDup_filter.
    + intros b [_ Hb]%list_elem_of_filter. by apply tx_heldhome0.
    + exists (v_rel bn v). split; [done|]. bcv_simpl. split_and!; try done.
      * intros b. unfold fset. rewrite count_filter. rewrite !Er. destruct (decide (b = bn)) as [->|]; [|done].
        unfold count. rewrite (decide_True (P := bn ∈ t_held t)) by done. lia.
      * intros b. unfold fset. destruct (decide (b = bn)) as [->|].
        -- symmetry. apply bool_decide_eq_false_2. by intros [? _]%list_elem_of_filter.
        -- rewrite Eh. apply bool_decide_ext. rewrite list_elem_of_filter. naive_solver.
      * rewrite Er. unfold count. rewrite (decide_True (P := bn ∈ t_held t)) by done.
        rewrite Eb. unfold in_use. cbn [t_logged t_held t_drop].
        destruct (decide (bn ∈ t_logged t)) as [Hl|Hl].
        -- rewrite (decide_False (P := 1 + 1 = 1)) by lia. rewrite (decide_False (P := bn ∉ t_logged t)) in Hlen by tauto. lia.
        -- rewrite (decide_True (P := 0 + 1 = 1)) by lia. rewrite (decide_True (P := bn ∉ t_logged t)) in Hlen by done. lia.
  - intros h' b [Hb _]. by apply Hkeep.
Qed.

(** ** log_write *)

Lemma find_logged_in l bs bn :
  logged l bs → bn ∈ bs → ∃ i, find_logged l bn = Z.of_nat i ∧ bs !! i = Some bn.
Proof.
  intros Hlo Hin. unfold find_logged. rewrite (lo_n _ _ Hlo).
  destruct (List.find _ _) as [z|] eqn:E.
  - apply find_some in E as [Hz Heq%Z.eqb_eq]. apply list_elem_of_In, elem_of_seqZ in Hz.
    destruct (lookup_lt_is_Some_2 bs (Z.to_nat z)) as [b Hb]; [lia|].
    rewrite (lo_block _ _ Hlo _ _ Hb) in Heq. simpl in Heq. exists (Z.to_nat z). split; [lia|].
    destruct (lo_home _ _ Hlo b) as [Hbr _]; [by eapply list_elem_of_lookup_2|].
    rewrite w32_small in Heq by lia. congruence.
  - exfalso. apply list_elem_of_lookup_1 in Hin as [i Hi].
    pose proof (find_none _ _ E (Z.of_nat i)) as Hn. cbn beta in Hn. rewrite Nat2Z.id, (lo_block _ _ Hlo _ _ Hi) in Hn.
    simpl in Hn. destruct (lo_home _ _ Hlo bn) as [Hbr _]; [by eapply list_elem_of_lookup_2|].
    rewrite w32_small, Z.eqb_refl in Hn by lia. apply lookup_lt_Some in Hi.
    specialize (Hn ltac:(apply list_elem_of_In, elem_of_seqZ; lia)). done.
Qed.

Lemma find_logged_out l bs bn : logged l bs → bn ∉ bs → find_logged l bn = lh_n l.
Proof.
  intros Hlo Hout. unfold find_logged. destruct (List.find _ _) as [z|] eqn:E; [|done]. exfalso.
  apply find_some in E as [Hz Heq%Z.eqb_eq]. apply list_elem_of_In, elem_of_seqZ in Hz. rewrite (lo_n _ _ Hlo) in Hz.
  destruct (lookup_lt_is_Some_2 bs (Z.to_nat z)) as [b Hb]; [lia|].
  rewrite (lo_block _ _ Hlo _ _ Hb) in Heq. simpl in Heq. apply list_elem_of_lookup_2 in Hb.
  destruct (lo_home _ _ Hlo b Hb) as [Hbr _]. rewrite w32_small in Heq by lia. congruence.
Qed.

Lemma same_log_logged l l' bs : same_log l l' → lh_n l' = lh_n l →
  (∀ i b, bs !! i = Some b → lh_block l' !! i = Some b) → logged l bs → logged l' bs.
Proof.
  intros (E1 & E2 & _) En Hb [L1 L2 L3 L4 L5 L6]. split; try done.
  - by rewrite En.
  - by rewrite E2.
  - intros b Hin. destruct (L5 b Hin) as [? Hh]. split; [done|]. unfold in_log in *. by rewrite E1, E2.
Qed.

Lemma tx_log_ok s t h bn :
  txn s t → tx_at s t h bn → room s t 1 →
  wp (log_write h) s (λ _ s', same_log (lg s) (lg s') ∧ txn s' (t_log bn t) ∧ keeps s t s').
Proof.
  intros Ht [Hat Hin] Hroom. pose proof Ht as []. destruct tx_cache0 as (v & Hv & Ev & Ed & Er & Eh & Eb).
  destruct (tx_heldhome0 bn Hin) as [Hbn Hhome]. destruct Hroom as [Hout Hroom].
  unfold log_write. apply wp_bind, wp_gets. rewrite (lo_n _ _ tx_lg0).
  rewrite (proj2 (Z.leb_gt LOGSIZE _)), (proj2 (Z.leb_gt (lg_size (lg s) - 1) _)), (proj2 (Z.ltb_ge _ 1)) by lia.
  cbn [orb]. apply wp_bind, wp_onc. eapply wp_mono; [by apply (bc_blockno_ok _ _ _ Hat)|]. intros n c [-> ->].
  cbn [lg lcache]. pose proof (ge_len _ tx_geom0) as Hlen. rewrite i32_id by lia.
  destruct (decide (bn ∈ t_logged t)) as [Hl|Hl].
  - destruct (find_logged_in _ _ _ tx_lg0 Hl) as (i & -> & Hi). pose proof (lookup_lt_Some _ _ _ Hi).
    apply wp_bind. apply put_block_ok; [done|unfold LOGSIZE, MAXOPBLOCKS in *; lia|]. cbn [lg lcache].
    rewrite (proj2 (Z.eqb_neq _ _)) by lia. apply wp_ret. cbn [lg lcache].
    set (l' := set_lh_block (Z.of_nat i) bn (lg s)).
    assert (Hsl : same_log (lg s) l') by (split_and!; try done; unfold l'; cbn; by rewrite length_insert).
    split; [done|]. split; [|by intros ? ? [? _]].
    destruct Ht. split; cbn [lg lcache t_log t_view t_disk t_logged t_held]; rewrite ?decide_True by done; try done.
    + by eapply same_log_geometry.
    + eapply same_log_logged; [done|done| |done]. intros j b Hj. unfold l'. cbn. rewrite Nat2Z.id.
      destruct (decide (j = i)) as [->|]; [|rewrite list_lookup_insert_ne by done; by apply (lo_block _ _ tx_lg0)].
      rewrite list_lookup_insert_eq; [congruence|]. rewrite Hlen. unfold LOGSIZE, MAXOPBLOCKS in *. lia.
    + destruct tx_hdr1. by split.
    + exists v. unfold in_use, count, t_log in *. cbn [t_logged t_held]. rewrite ?decide_True by done. done.
  - rewrite (find_logged_out _ _ _ tx_lg0 Hl), (lo_n _ _ tx_lg0).
    apply wp_bind. apply put_block_ok; [done|unfold LOGSIZE, MAXOPBLOCKS in *; lia|]. cbn [lg lcache].
    rewrite Z.eqb_refl. apply wp_bind, wp_onc. cbn [lg lcache].
    eapply wp_mono; [apply (bc_pin_ok _ _ _ _ Hv Hat)|].
    { rewrite Er. unfold count. rewrite decide_False, decide_True by done. lia. }
    intros _ c [Hv1 Hkeep]. apply wp_modify. cbn [lg lcache].
    set (l' := set_lh_n _ _).
    assert (Hsl : same_log (lg s) l') by (split_and!; try done; unfold l'; cbn; by rewrite length_insert).
    split; [done|]. split; [|intros h' b [Hb _]; by apply Hkeep].
    split; cbn [lg lcache t_log t_view t_disk t_logged t_held]; rewrite ?(decide_False (P := bn ∈ t_logged t)) by done; try done.
    + by eapply same_log_geometry.
    + destruct tx_lg0 as [L1 L2 L3 L4 L5 L6]. split.
      * unfold l'. cbn. rewrite L1, length_app. simpl. lia.
      * intros i b Hi. unfold l'. cbn. rewrite Nat2Z.id.
        apply lookup_app_Some in Hi as [Hi|[Hge [Hz <-]%list_lookup_singleton_Some]].
        -- rewrite list_lookup_insert_ne; [by apply L2|]. apply lookup_lt_Some in Hi. lia.
        -- replace i with (length (t_logged t)) by lia. rewrite list_lookup_insert_eq; [done|].
           rewrite Hlen. unfold LOGSIZE, MAXOPBLOCKS in *. lia.
      * rewrite length_app. simpl. lia.
      * rewrite length_app. unfold l'. cbn. lia.
      * intros b [Hb|Hb%list_elem_of_singleton]%elem_of_app; [by apply L5|by subst].
      * apply list.NoDup_app. split_and!; [done| |apply NoDup_singleton]. intros b Hb ->%list_elem_of_singleton. done.
    + destruct tx_hdr0. by split.
    + exists (v_pin bn v). split; [done|]. bcv_simpl. unfold in_use, count, t_log in *. cbn [t_logged t_held].
      rewrite ?(decide_False (P := bn ∈ t_logged t)) by done. split_and!; try done.
      * intros b. unfold fset. rewrite !Er. destruct (decide (b = bn)) as [->|Hne].
        -- rewrite (decide_False (P := bn ∈ t_logged t)) by done.
           rewrite (decide_True (P := bn ∈ t_logged t ++ [bn])) by (apply elem_of_app; right; by apply list_elem_of_singleton).
           lia.
        -- f_equal. apply decide_ext. rewrite elem_of_app, list_elem_of_singleton. naive_solver.
      * rewrite Eb, length_app. simpl.
        pose proof (length_filter_out (λ b, b ∉ t_logged t) bn _ tx_heldnd0 Hin) as Hf. cbn beta in Hf.
        rewrite (decide_True (P := bn ∉ t_logged t)) in Hf by done. rewrite <- Hf, list_filter_filter.
        rewrite (list_filter_iff (λ b, b ∉ t_logged t ++ [bn]) (λ b, b ∉ t_logged t ∧ b ≠ bn)); [lia|].
        intros b. rewrite elem_of_app, list_elem_of_singleton. naive_solver.
Qed.

(** ** The ends of a transaction *)

(** Outside of transactions: nothing is logged or held, the cache agrees with the
    disk, which is [d]. *)
Record settled s (d : Z → block) : Prop := {
  id_geom : geometry (lg s);
  id_out : lg_outstanding (lg s) = 0;
  id_com : lg_committing (lg s) = 0;
  id_lg : logged (lg s) [];
  id_hdr : on_disk (lg s) (d (lg_start (lg s))) [];
  id_cache : ∃ v, bc_abs (lcache s) v ∧
    (∀ bn, v_view v bn = d bn) ∧ (∀ bn, v_disk v bn = d bn) ∧
    (∀ bn, v_refs v bn = 0) ∧ (∀ bn, v_held v bn = false) ∧ v_busy v = 0%nat
}.

Lemma begin_op_ok s d :
  settled s d →
  wp begin_op s (λ _ s', lcache s' = lcache s ∧ lg s' = set_outstanding 1 (lg s) ∧ txn s' (mk_tx d d [] [])).
Proof.
  intros []. unfold begin_op. apply wp_bind, wp_gets. rewrite id_com0, id_out0, (lo_n _ _ id_lg0). cbn [truth Z.eqb negb].
  rewrite (proj2 (Z.ltb_ge _ _)) by (unfold LOGSIZE, MAXOPBLOCKS; simpl; lia).
  apply wp_modify. cbn [lg lcache]. rewrite id_out0. split; [done|]. split; [done|].
  destruct id_cache0 as (v & Hv & Ev & Ed & Er & Eh & Eb).
  split; cbn [lg lcache t_view t_disk t_logged t_held]; try done.
  - by destruct id_geom0.
  - by destruct id_lg0.
  - constructor.
  - by intros bn ?%elem_of_nil.
  - by destruct id_hdr0.
  - exists v. split_and!; done.
Qed.

(** The last block written is the empty header; the other log blocks and the home
    blocks are not the header. *)
Lemma commit_header l v bs d : apply_writes (commit_writes l v bs) d (lg_start l) =
  header [] (header bs (v_view v (lg_start l))).
Proof. unfold commit_writes. rewrite !app_assoc, apply_writes_app. simpl. by rewrite fset_eq. Qed.

Lemma end_op_ok s t :
  txn s t → t_held t = [] → (in_use t < NBUF)%nat → lg_outstanding (lg s) = 1 →
  wp end_op s (λ _ s', ∃ d, settled s' d ∧ lg_start (lg s') = lg_start (lg s) ∧ lg_size (lg s') = lg_size (lg s) ∧
    ∀ bn, ¬ in_log (lg s) bn → d bn = t_view t bn).
Proof.
  intros Ht Hheld Huse Hout. pose proof Ht as []. destruct tx_cache0 as (v & Hv & Ev & Ed & Er & Eh & Eb).
  assert (Hclean : ∀ bn, bn ∉ t_logged t → v_view v bn = v_disk v bn).
  { intros bn Hbn. rewrite Ev, Ed. apply (txn_clean s); [done|done|]. rewrite Hheld. apply not_elem_of_nil. }
  assert (Er' : ∀ bn, v_refs v bn = count bn (t_logged t)).
  { intros bn. rewrite Er, Hheld. unfold count at 2. rewrite decide_False by apply not_elem_of_nil. lia. }
  assert (Eh' : ∀ bn, v_held v bn = false).
  { intros bn. rewrite Eh, Hheld. apply bool_decide_eq_false_2, not_elem_of_nil. }
  unfold end_op. apply wp_bind, wp_modify, wp_bind, wp_gets. cbn [lg lcache lg_committing set_outstanding].
  rewrite tx_com0. cbn [truth negb Z.eqb]. rewrite Hout. cbn [lg_outstanding Z.sub Z.add Z.opp Z.eqb Z.pos_sub].
  apply wp_bind, wp_modify. cbn [lg lcache].
  set (l1 := set_committing 1 (set_outstanding 0 (lg s))).
  assert (Hlo1 : logged l1 (t_logged t)) by (by destruct tx_lg0).
  assert (Hg1 : geometry l1) by (by destruct tx_geom0).
  destruct (decide (t_logged t = [])) as [He|Hne].
  - apply wp_bind. unfold commit. apply wp_bind, wp_gets. cbn [lg].
    assert (lh_n (lg s) = 0) as E0 by (rewrite (lo_n _ _ tx_lg0), He; done). cbn [lh_n set_committing set_outstanding]. rewrite E0.
    cbn [Z.ltb Z.compare]. apply wp_ret, wp_modify. cbn [lg lcache]. exists (t_disk t). split_and!; [|done|done|].
    + split; cbn [lg lcache]; try done; [by destruct tx_geom0|rewrite He in tx_lg0; by destruct tx_lg0|by destruct tx_hdr0|].
      exists v. split_and!; try done.
      * intros bn. rewrite <- Ed. apply Hclean. rewrite He. apply not_elem_of_nil.
      * intros bn. rewrite Er', He. unfold count. by rewrite decide_False by apply not_elem_of_nil.
      * rewrite Eb. unfold in_use. by rewrite He, Hheld.
    + intros bn _. rewrite <- Ed, <- Ev. symmetry. apply Hclean. rewrite He. apply not_elem_of_nil.
  - apply wp_bind. eapply wp_mono; [apply (commit_ok _ v l1 (t_logged t)); try done|].
    + intros bn Hbn. rewrite Er'. split; [|done]. unfold count. rewrite decide_False; [done|].
      intros Hin. by apply (lo_home _ _ Hlo1 _ Hin).
    + intros bn Hbn. rewrite Er'. split; [|done]. unfold count. rewrite decide_True by done. lia.
    + lia.
    + intros _ s1 (c1 & v1 & -> & Hv1 & [C1 C2 C3 C4 C5 C6]). apply wp_modify. cbn [lg lcache].
      assert (R0 : ∀ bn, v_refs v1 bn = 0).
      { intros bn. rewrite C4, Er'. unfold count. case_decide; lia. }
      exists (v_disk v1). split_and!; [|done|done|].
      * split; cbn [lg lcache]; try done.
        -- by destruct Hg1.
        -- apply logged_empty in Hlo1. by destruct Hlo1.
        -- rewrite C2. change (lg_start (set_committing 0 (set_lh_n 0 l1))) with (lg_start l1). rewrite commit_header.
           apply (header_empty _ (t_disk t (lg_start (lg s))) []). by destruct tx_hdr0.
        -- exists v1. split_and!; try done.
           ++ intros bn. by apply (bc_clean _ _ _ Hv1).
           ++ intros bn. by rewrite C5.
           ++ by apply (bc_idle _ _ Hv1).
      * intros bn Hbn. rewrite C2, <- Ev. by apply apply_writes_home; [|apply Hclean|].
Qed.

End Txn.
