(* ===== verification/WitnessFs.v ===== *)
(** Concrete runs of the buffer cache and the log that meet the hypotheses of their
    theorems. *)

From S2P Require Import Prelude Riscv Memory Cache Bio BioList BioSpec Log LogSpec LogCrash BioUse Txn.

(** The cache after [binit] over an empty disk, with a log of 30 blocks at block
    2, inside an operation that has changed block 40. *)
Definition log0 : log := mk_log 2 30 0 0 ROOTDEV 0 (replicate (Z.to_nat LOGSIZE) 0).
Definition lgst0 : lgst bst := mk_lgst (mk_bst linked_bufs ∅ [] 1) log0.

Definition one_write : M (lgst bst) unit :=
  begin_op;; h ← onc (bc_read ROOTDEV 40); onc (bc_set h {[ 0 := 7 ]});; log_write h;; onc (bc_release h).

Lemma lgst0_settled : settled lgst0 (dblock ∅).
Proof.
  split; try done.
  - split; try done; [intros b ?%elem_of_nil; done|constructor].
  - split; try done; [intros b ?%elem_of_nil; done|constructor].
  - exists (empty_cache ∅). split_and!; try done. apply linked_ok.
Qed.

Lemma one_write_ok : wp one_write lgst0 (λ _ s', same_log (set_outstanding 1 log0) (lg s') ∧ 
  txn s' (mk_tx (fset (dblock ∅) 40 {[ 0 := 7 ]}) (dblock ∅) [40] [])).
Proof.
  apply wp_bind. eapply wp_mono; [apply begin_op_ok, lgst0_settled|]. intros _ s1 (Hc1 & Hl1 & Ht1). change (lg lgst0) with log0 in Hl1.
  apply wp_bind. eapply wp_mono; [apply (tx_read_ok _ _ 40 Ht1)|].
  - apply not_elem_of_nil.
  - lia.
  - rewrite Hl1. unfold in_log. cbn. lia.
  - right. unfold in_use, NBUF. cbn. lia.
  - intros h s2 (Hl2 & Ht2 & Ha2 & _). rewrite Hl1 in Hl2. apply wp_bind.
    eapply wp_mono; [apply (tx_set_ok _ _ _ _ {[ 0 := 7 ]} Ht2 Ha2)|]. intros _ s3 (Hl3 & Ht3 & Hk3).
    assert (Ha3 : tx_at s3 (t_put 40 {[ 0 := 7 ]} (t_hold 40 (mk_tx (dblock ∅) (dblock ∅) [] []))) h 40).
    { split; [by apply Hk3|]. cbn. apply list_elem_of_singleton. done. }
    apply wp_bind. eapply wp_mono; [apply (tx_log_ok _ _ _ _ Ht3 Ha3)|].
    { unfold room. rewrite Hl3, Hl2. split; vm_compute; discriminate. }
    intros _ s4 (Hl4 & Ht4 & Hk4).
    eapply wp_mono; [apply (tx_release_ok _ _ h 40 Ht4)|].
    + split; [by apply Hk4|]. cbn. by apply list_elem_of_singleton.
    + left. cbn. by apply list_elem_of_singleton.
    + intros _ s5 (Hl5 & Ht5 & _). rewrite Hl5. split; [congruence|]. done.
Qed.

(** An operation that changed block 40 ends, or is cut short. *)
Lemma end_op_crash_safe_witness : ∃ (s : lgst bst) v, bc_abs (lcache s) v ∧ v_view v 40 = {[ 0 := 7 ]} ∧
  wp end_op s (λ _ s', ∃ v' ws, bc_abs (lcache s') v' ∧ logged (lg s') [] ∧
    lg_outstanding (lg s') = 0 ∧ lg_committing (lg s') = 0 ∧ v_writes v' = v_writes v ++ ws ∧
    (∀ bn, ¬ in_log (lg s) bn → v_disk v' bn = v_view v bn) ∧
    ∀ w d (sb : lgst bst), w `prefix_of` ws → rtc (crash_reboot (S := bst) (lg s)) (apply_writes w (v_disk v)) d →
      fresh (lcache sb) d → length (lh_block (lg sb)) = Z.to_nat LOGSIZE →
      wp (initlog ROOTDEV (lg_start (lg s)) (lg_size (lg s))) sb (λ _ sb', ∃ vb, bc_abs (lcache sb') vb ∧
        ((∀ bn, ¬ in_log (lg s) bn → v_disk vb bn = v_disk v bn) ∨
         (∀ bn, ¬ in_log (lg s) bn → v_disk vb bn = v_view v bn)))).
Proof.
  destruct (proj1 (wp_ok _ _ _) one_write_ok) as ([] & s & _ & (E1 & E2 & E3 & E4 & E5 & E6) & Ht). pose proof Ht as [? ? ? ? ? ? (v & Hv & Ev & Ed & Er & Eh & Eb)].
  cbn [t_view t_disk t_logged t_held] in *. exists s, v. split; [done|]. split; [rewrite Ev; apply fset_eq|].
  assert (H40 : ∀ bn, v_refs v bn = if decide (bn = 40) then 1 else 0).
  { intros bn. rewrite Er. unfold count. rewrite (decide_False (P := bn ∈ [])) by apply not_elem_of_nil.
    destruct (decide (bn = 40)) as [->|]; [by rewrite decide_True by (by apply list_elem_of_singleton)|].
    rewrite decide_False; [done|]. by intros ?%list_elem_of_singleton. }
  apply (end_op_crash_safe s (lg s) v [40]); try done.
  - intros bn Hbn. rewrite Eh, H40. split; [|done]. rewrite decide_False; [done|]. intros ->. unfold in_log in Hbn.
    rewrite E1, E2 in Hbn. cbn in Hbn. lia.
  - intros bn ->%list_elem_of_singleton. rewrite Eh, H40, decide_True by done. done.
  - rewrite Eb. unfold in_use, NBUF. cbn. lia.
  - by rewrite Ed.
  - intros bn _ Hbn. rewrite Ev, Ed. apply fset_ne. intros ->. apply Hbn. by apply list_elem_of_singleton.
Defined.
