(* ===== verification/LogSys.v ===== *)
(** The log shared by several operations: [begin_op] reserves room for the blocks an
    operation may log, so that [log_write] finds it.

    The steps are those of any number of processes: each is one call of a function
    of kernel/log.c, which holds [log.lock] throughout; while a commit runs without
    it [log.committing] keeps the other functions out.  A process whose
    [begin_op] has to sleep takes no step. *)

From S2P Require Import Prelude Riscv Memory Cache Bio BioList BioSpec Log LogSpec WitnessFs.

Section Sys.
Context {S : Type} {BC : BlockCache S}.

(** The log and, for every operation in progress, the blocks it has logged. *)
Record lsys := mk_lsys { ls_st : lgst S; ls_ops : list (list Z) }.

Definition log_add (bn : Z) (bs : list Z) : list Z := if decide (bn ∈ bs) then bs else bn :: bs.

(** The buffer [b] holds block [bn]. *)
Definition buf_of (s : lgst S) (b : nat) (bn : Z) : Prop :=
  bc_blockno b (lcache s) = Ok (bn, lcache s) ∧ 0 <= bn < 2 ^ 32.

Inductive lstep : lsys → lsys → Prop :=
| l_begin s s' ops : begin_op s = Ok (tt, s') → lstep (mk_lsys s ops) (mk_lsys s' ([] :: ops))
| l_cache s c ops : lstep (mk_lsys s ops) (mk_lsys (mk_lgst c (lg s)) ops)
| l_write s s' ops k bs b bn :
    ops !! k = Some bs → buf_of s b bn → Z.of_nat (length (log_add bn bs)) <= MAXOPBLOCKS →
    log_write b s = Ok (tt, s') → lstep (mk_lsys s ops) (mk_lsys s' (<[k := log_add bn bs]> ops))
| l_end s s' ops k bs :
    ops !! k = Some bs → end_op s = Ok (tt, s') → lstep (mk_lsys s ops) (mk_lsys s' (delete k ops)).

(** No operation in progress and nothing logged, as [initlog] leaves it. *)
Definition log_idle (n : Z) (s : lsys) : Prop :=
  lg_committing (lg (ls_st s)) = 0 ∧ lg_outstanding (lg (ls_st s)) = 0 ∧ lh_n (lg (ls_st s)) = 0 ∧
  lg_size (lg (ls_st s)) = n ∧ length (lh_block (lg (ls_st s))) = Z.to_nat LOGSIZE ∧ ls_ops s = [].

(** ** The invariant *)

Definition is_logged (l : log) (bn : Z) : Prop :=
  ∃ i, 0 <= i < lh_n l ∧ w32 (default 0 (lh_block l !! Z.to_nat i)) = bn.

(** Blocks that the operations in progress may still log. *)
Fixpoint unused (ops : list (list Z)) : Z :=
  match ops with [] => 0 | bs :: ops' => MAXOPBLOCKS - Z.of_nat (length bs) + unused ops' end.

Record lsys_ok (n : Z) (s : lsys) : Prop := {
  lo_com : lg_committing (lg (ls_st s)) = 0;
  lo_size : lg_size (lg (ls_st s)) = n;
  lo_out : lg_outstanding (lg (ls_st s)) = Z.of_nat (length (ls_ops s));
  lo_len : length (lh_block (lg (ls_st s))) = Z.to_nat LOGSIZE;
  lo_n : 0 <= lh_n (lg (ls_st s));
  lo_idle : ls_ops s = [] → lh_n (lg (ls_st s)) = 0;
  lo_room : lh_n (lg (ls_st s)) + unused (ls_ops s) <= LOGSIZE;
  lo_few : Forall (λ bs, Z.of_nat (length bs) <= MAXOPBLOCKS) (ls_ops s);
  lo_logged : ∀ bs bn, bs ∈ ls_ops s → bn ∈ bs → is_logged (lg (ls_st s)) bn
}.

Lemma unused_le ops : unused ops <= Z.of_nat (length ops) * MAXOPBLOCKS.
Proof. induction ops as [|bs ops IH]; simpl; lia. Qed.

Lemma unused_nonneg ops : Forall (λ bs, Z.of_nat (length bs) <= MAXOPBLOCKS) ops → 0 <= unused ops.
Proof. induction 1; cbn [unused]; lia. Qed.

Lemma unused_insert ops k bs bs' :
  ops !! k = Some bs → unused (<[k := bs']> ops) = unused ops + Z.of_nat (length bs) - Z.of_nat (length bs').
Proof.
  revert k. induction ops as [|x ops IH]; intros [|k] Hk; try done; cbn [unused].
  - simpl in Hk. simplify_eq. change (<[0%nat:=bs']> (bs :: ops)) with (bs' :: ops). cbn [unused]. lia.
  - change (<[Datatypes.S k:=bs']> (x :: ops)) with (x :: <[k:=bs']> ops). cbn [unused]. rewrite IH by done. lia.
Qed.

Lemma unused_delete ops k bs : ops !! k = Some bs → unused (delete k ops) = unused ops + Z.of_nat (length bs) - MAXOPBLOCKS.
Proof.
  revert k. induction ops as [|x ops IH]; intros [|k] Hk; try done; cbn [unused].
  - simpl in Hk. simplify_eq. change (delete 0%nat (bs :: ops)) with ops. lia.
  - change (delete (Datatypes.S k) (x :: ops)) with (x :: delete k ops). cbn [unused]. rewrite IH by done. lia.
Qed.

(** ** Functions that leave the log in memory alone *)

Lemma keeps_onc {A} (m : M S A) : keeps lg (onc m).
Proof. intros s a s'. unfold onc. destruct (m (lcache s)) as [[? ?]| | | |]; try done. by intros [= _ <-]. Qed.
#[local] Hint Resolve keeps_onc : keeps.

Lemma keeps_getlog : keeps lg (@getlog S).
Proof. apply keeps_gets. Qed.
#[local] Hint Resolve keeps_getlog : keeps.

Lemma keeps_get_block i : keeps lg (@get_block S i).
Proof. unfold get_block. keeps_tac. Qed.
#[local] Hint Resolve keeps_get_block : keeps.

Lemma keeps_write_log : keeps lg write_log.
Proof. unfold write_log, write_log_one. keeps_tac. Qed.

Lemma keeps_write_head : keeps lg write_head.
Proof. unfold write_head, write_head_one. keeps_tac. Qed.

Lemma keeps_install r : keeps lg (install_trans r).
Proof. unfold install_trans, install_one. keeps_tac. Qed.

Lemma commit_lg s s' : commit s = Ok (tt, s') → 0 <= lh_n (lg s) → lg s' = set_lh_n 0 (lg s).
Proof.
  unfold commit. intros (l & s0 & [= <- <-] & H)%bind_Ok Hn. destruct (Z.ltb_spec 0 (lh_n (lg s))) as [H0|H0].
  - apply bind_Ok in H as ([] & s1 & H1 & H). apply bind_Ok in H as ([] & s2 & H2 & H).
    apply bind_Ok in H as ([] & s3 & H3 & H). apply bind_Ok in H as ([] & s4 & H4 & H5).
    rewrite (keeps_write_head _ _ _ H5). unfold updlog, modify in H4. injection H4 as <-. cbn [lg].
    by rewrite (keeps_install _ _ _ _ H3), (keeps_write_head _ _ _ H2), (keeps_write_log _ _ _ H1).
  - injection H as <-. assert (E : lh_n (lg s) = 0) by lia. destruct s as [c [? ? ? ? ? n ?]]. simpl in E. by subst n.
Qed.

(** What [end_op] leaves of the log in memory. *)
Lemma end_op_lg s s' : end_op s = Ok (tt, s') → 0 <= lh_n (lg s) → lg_committing (lg s) = 0 →
  lg s' = if lg_outstanding (lg s) =? 1 then set_committing 0 (set_lh_n 0 (set_outstanding 0 (lg s)))
    else set_outstanding (lg_outstanding (lg s) - 1) (lg s).
Proof.
  unfold end_op. intros (u & s0 & H0 & H)%bind_Ok Hn Hc. injection H0 as <- <-. apply bind_Ok in H as (l & s1 & [= <- <-] & H).
  cbn [lg set_outstanding lg_committing lg_outstanding] in H. rewrite Hc in H. cbn [truth Z.eqb negb] in H.
  destruct (Z.eqb_spec (lg_outstanding (lg s)) 1) as [E|E].
  - rewrite (proj2 (Z.eqb_eq _ _)) in H by lia. apply bind_Ok in H as (? & s2 & H2 & H). injection H2 as <- <-.
    apply bind_Ok in H as ([] & s3 & H3 & H). injection H as <-. cbn [lg]. apply commit_lg in H3; [|done]. rewrite H3, E. done.
  - rewrite (proj2 (Z.eqb_neq _ _)) in H by lia. injection H as <-. done.
Qed.

(** ** The invariant holds *)

Lemma begin_ok_lg (s s' : lgst S) : begin_op s = Ok (tt, s') →
  lg_committing (lg s) = 0 ∧ lh_n (lg s) + (lg_outstanding (lg s) + 1) * MAXOPBLOCKS <= LOGSIZE ∧
  lg s' = set_outstanding (lg_outstanding (lg s) + 1) (lg s).
Proof.
  unfold begin_op. intros (l & s0 & [= <- <-] & H)%bind_Ok. destruct (truth (lg_committing (lg s))) eqn:E; [done|].
  unfold truth in E. destruct (Z.ltb_spec LOGSIZE (lh_n (lg s) + (lg_outstanding (lg s) + 1) * MAXOPBLOCKS)); [done|].
  injection H as <-. split_and!; [|done|done]. destruct (Z.eqb_spec (lg_committing (lg s)) 0); done.
Qed.

Lemma w32_i32 bn : 0 <= bn < 2 ^ 32 → w32 (i32 bn) = bn.
Proof.
  intros Hb. unfold w32, i32. rewrite Zminus_mod_idemp_l. replace (bn + 2 ^ 31 - 2 ^ 31) with bn by lia. by apply Z.mod_small.
Qed.

Lemma find_logged_range l bn : 0 <= lh_n l → 0 <= find_logged l bn <= lh_n l.
Proof.
  intros Hn. unfold find_logged. destruct (List.find _ _) as [i|] eqn:E; [|lia]. apply List.find_some in E as [E _].
  apply list_elem_of_In, elem_of_seqZ in E. lia.
Qed.

Lemma find_logged_lt l bn : is_logged l bn → find_logged l bn < lh_n l.
Proof.
  intros (i & Hi & Hb). unfold find_logged. destruct (List.find _ _) as [j|] eqn:E.
  - apply List.find_some in E as [E _]. apply list_elem_of_In, elem_of_seqZ in E. lia.
  - eapply (List.find_none _ _) in E; [|apply list_elem_of_In, elem_of_seqZ; split; [apply Hi|lia]].
    by rewrite Hb, Z.eqb_refl in E.
Qed.

(** The log after [log_write]: block [bn] is in it, and it grew only if it was not
    there. *)
Lemma log_write_lg (s : lgst S) b bn s' :
  log_write b s = Ok (tt, s') → buf_of s b bn → 0 <= lh_n (lg s) → length (lh_block (lg s)) = Z.to_nat LOGSIZE →
  let i := find_logged (lg s) bn in
  lg s' = set_lh_n (if i =? lh_n (lg s) then lh_n (lg s) + 1 else lh_n (lg s)) (set_lh_block i (i32 bn) (lg s)).
Proof.
  intros H [Hb Hbn] Hn Hl i. unfold log_write in H. apply bind_Ok in H as (l & s0 & H0 & H). injection H0 as <- <-.
  destruct ((LOGSIZE <=? lh_n (lg s)) || (lg_size (lg s) - 1 <=? lh_n (lg s))); [done|]. destruct (lg_outstanding (lg s) <? 1); [done|].
  apply bind_Ok in H as (n & s1 & H1 & H). unfold onc in H1. rewrite Hb in H1. injection H1 as <- <-. fold i in H.
  apply bind_Ok in H as ([] & s2 & H2 & H). unfold put_block in H2. apply bind_Ok in H2 as (l & s3 & [= <- <-] & H2).
  cbn [lg lcache] in H2. destruct (i <? _) eqn:Ei; [|done]. injection H2 as <-.
  destruct (i =? lh_n (lg s)) eqn:E.
  - apply bind_Ok in H as ([] & s3 & H3 & H). injection H as <-. cbn [lg]. rewrite (keeps_onc _ _ _ _ H3). done.
  - injection H as <-. cbn [lg]. by destruct (lg s).
Qed.

Lemma is_logged_write l bn n : 0 <= bn < 2 ^ 32 → 0 <= lh_n l <= n → (find_logged l bn < n) → n <= Z.of_nat (length (lh_block l)) →
  let l' := set_lh_n n (set_lh_block (find_logged l bn) (i32 bn) l) in
  is_logged l' bn ∧ ∀ b, is_logged l b → is_logged l' b.
Proof.
  intros Hb Hn Hi Hlen l'. pose proof (find_logged_range l bn ltac:(lia)) as Hr. split.
  - exists (find_logged l bn). split; [cbn; lia|]. cbn [l' lh_block set_lh_n set_lh_block].
    rewrite list_lookup_insert_eq by lia. cbn. by apply w32_i32.
  - intros b (i & Hi' & Hbi). exists i. split; [cbn; lia|]. cbn [l' lh_block set_lh_n set_lh_block].
    destruct (decide (i = find_logged l bn)) as [->|Hne]; [|by rewrite list_lookup_insert_ne by lia].
    rewrite list_lookup_insert_eq by lia. cbn. rewrite w32_i32 by done. unfold find_logged in Hbi, Hi'.
    destruct (List.find _ _) as [j|] eqn:E in Hbi, Hi'; [|lia]. apply List.find_some in E as [_ E]. apply Z.eqb_eq in E. congruence.
Qed.

Lemma length_log_add bn bs : length (log_add bn bs) = (length bs + if decide (bn ∈ bs) then 0 else 1)%nat.
Proof. unfold log_add. case_decide; simpl; lia. Qed.

Lemma elem_of_log_add b bn bs : b ∈ log_add bn bs ↔ b = bn ∨ b ∈ bs.
Proof. unfold log_add. case_decide; [naive_solver|apply elem_of_cons]. Qed.

(** Logging a block keeps to what the operation reserved. *)
Lemma lsys_ok_write n s s' ops k bs b bn :
  lsys_ok n (mk_lsys s ops) → ops !! k = Some bs → buf_of s b bn → Z.of_nat (length (log_add bn bs)) <= MAXOPBLOCKS →
  log_write b s = Ok (tt, s') → lsys_ok n (mk_lsys s' (<[k := log_add bn bs]> ops)).
Proof.
  intros [] Hk Hb Hfew Hw. cbn [ls_st ls_ops] in *. pose proof (log_write_lg _ _ _ _ Hw Hb lo_n0 lo_len0) as Hl. cbv zeta in Hl.
  pose proof (find_logged_range (lg s) bn lo_n0) as Hr. rewrite length_log_add in Hfew.
  pose proof (unused_nonneg ops lo_few0) as Hun. pose proof (unused_insert ops k bs (log_add bn bs) Hk) as Hui. rewrite length_log_add in Hui.
  assert (Hbs : bn ∈ bs → find_logged (lg s) bn < lh_n (lg s)).
  { intros Hin. apply find_logged_lt. apply (lo_logged0 bs); [by eapply list_elem_of_lookup_2|done]. }
  assert (Hfew' : Forall (λ bs, Z.of_nat (length bs) <= MAXOPBLOCKS) (<[k := log_add bn bs]> ops)).
  { apply Forall_insert; [done|]. rewrite length_log_add. done. }
  pose proof (unused_nonneg _ Hfew') as Hun'.
  set (n' := if find_logged (lg s) bn =? lh_n (lg s) then lh_n (lg s) + 1 else lh_n (lg s)) in *.
  assert (Hn' : lh_n (lg s) <= n' ∧ find_logged (lg s) bn < n' ∧ n' + unused (<[k := log_add bn bs]> ops) <= LOGSIZE).
  { unfold n'. destruct (Z.eqb_spec (find_logged (lg s) bn) (lh_n (lg s))) as [E|E].
    - destruct (decide (bn ∈ bs)) as [Hin|Hout]; [specialize (Hbs Hin); lia|]. lia.
    - destruct (decide (bn ∈ bs)); lia. }
  assert (HL : LOGSIZE = 30) by done.
  destruct (is_logged_write (lg s) bn n' (proj2 Hb) ltac:(lia) ltac:(lia)) as [Hnew Hold]; [lia|]. rewrite <- Hl in Hnew, Hold.
  split; cbn [ls_st ls_ops]; try done; rewrite ?Hl; try done; cbn [set_lh_n set_lh_block lg_outstanding lh_n lh_block].
  - by rewrite length_insert.
  - by rewrite length_insert.
  - lia.
  - intros E. apply (f_equal length) in E. rewrite length_insert in E. apply lookup_lt_Some in Hk. simpl in E. lia.
  - lia.
  - intros bs' b' Hbs' Hb'. rewrite <- Hl. apply list_elem_of_lookup_1 in Hbs' as [j Hj].
    destruct (decide (j = k)) as [->|Hne].
    + rewrite list_lookup_insert_eq in Hj by (by eapply lookup_lt_Some). simplify_eq.
      apply elem_of_log_add in Hb' as [->|Hb']; [done|]. apply Hold, (lo_logged0 bs); [by eapply list_elem_of_lookup_2|done].
    + rewrite list_lookup_insert_ne in Hj by done. apply Hold, (lo_logged0 bs'); [by eapply list_elem_of_lookup_2|done].
Qed.

Lemma lsys_ok_end n s s' ops k bs :
  lsys_ok n (mk_lsys s ops) → ops !! k = Some bs → end_op s = Ok (tt, s') → lsys_ok n (mk_lsys s' (delete k ops)).
Proof.
  intros [] Hk He. cbn [ls_st ls_ops] in *. pose proof (end_op_lg _ _ He lo_n0 lo_com0) as Hl.
  pose proof (unused_delete ops k bs Hk) as Hud. pose proof (lookup_lt_Some _ _ _ Hk) as Hlt.
  pose proof (length_delete ops k (ltac:(by eexists))) as Hdl.
  assert (Hbs : Z.of_nat (length bs) <= MAXOPBLOCKS) by (by eapply (Forall_lookup_1 _ _ _ _ lo_few0)).
  assert (Hsub : ∀ x, x ∈ delete k ops → x ∈ ops).
  { intros x [j Hj]%list_elem_of_lookup_1. destruct (decide (j < k)%nat).
    - rewrite list_lookup_delete_lt in Hj by done. by eapply list_elem_of_lookup_2.
    - rewrite list_lookup_delete_ge in Hj by lia. by eapply list_elem_of_lookup_2. }
  destruct (Z.eqb_spec (lg_outstanding (lg s)) 1) as [E|E].
  - assert (delete k ops = []) as Hnil by (apply nil_length_inv; lia). rewrite Hnil.
    split; cbn [ls_st ls_ops]; rewrite ?Hl; try done. intros x b Hx%elem_of_nil. done.
  - split; cbn [ls_st ls_ops]; rewrite ?Hl; try done; cbn [set_outstanding lg_outstanding lh_n].
    + lia.
    + intros Hn. rewrite Hn in Hdl. simpl in Hdl. lia.
    + lia.
    + apply list.Forall_forall. intros x Hx%Hsub. by eapply (proj1 (list.Forall_forall _ _) lo_few0).
    + intros x b Hx%Hsub Hb. by apply (lo_logged0 x).
Qed.

Lemma lsys_ok_step n s s' : lsys_ok n s → lstep s s' → lsys_ok n s'.
Proof.
  intros Hok Hs. destruct Hs as [s s' ops Hb|s c ops|s s' ops k bs b bn Hk Hb Hf Hw|s s' ops k bs Hk He].
  - destruct Hok. cbn [ls_st ls_ops] in *. destruct (begin_ok_lg _ _ Hb) as (_ & Hroom & Hl). pose proof (unused_le ops).
    split; cbn [ls_st ls_ops]; rewrite ?Hl; try done; cbn [set_outstanding lg_outstanding lh_n length unused].
    + lia.
    + rewrite lo_out0 in Hroom. lia.
    + by constructor.
    + intros bs bn [->|Hin]%elem_of_cons Hbn; [by apply elem_of_nil in Hbn|]. by apply (lo_logged0 bs).
  - by destruct Hok.
  - by eapply lsys_ok_write.
  - by eapply lsys_ok_end.
Qed.

Lemma lsys_ok_reach n s s' : log_idle n s → rtc lstep s s' → lsys_ok n s'.
Proof.
  intros (H1 & H2 & H3 & H4 & H5 & H6) Hr.
  assert (Hok : lsys_ok n s).
  { split; try done; rewrite ?H6; try done; [lia|rewrite H3; simpl; done|]. intros bs bn Hbs%elem_of_nil. done. }
  clear -Hok Hr. induction Hr as [|s s1 s2 Hs _ IH]; [done|]. by apply IH, (lsys_ok_step n s).
Qed.


End Sys.

(** Three operations, each logging ten blocks of its own. *)
Definition log_one (bn : Z) : M (lgst bst) unit :=
  b ← onc (bc_read ROOTDEV bn); log_write b;; onc (bc_release b).
Definition three_ops : M (lgst bst) unit :=
  begin_op;; begin_op;; begin_op;; for_each (seqZ 100 30) log_one.


(** A log of 31 blocks; one operation, holding block 40. *)
Definition log31 : log := mk_log 2 31 0 0 ROOTDEV 0 (replicate (Z.to_nat LOGSIZE) 0).
Definition cache40 : nat * bst :=
  match bc_read ROOTDEV 40 (lcache lgst0) with Ok r => r | _ => (0%nat, lcache lgst0) end.
Definition pinned40 : bst := match bc_pin (fst cache40) (snd cache40) with Ok (_, c) => c | _ => snd cache40 end.

