(* ===== verification/Fs.v ===== *)
(** The file system (kernel/fs.c): block allocator, inodes, file contents,
    directories and path names, over the log and the buffer cache.

    [fsst] is the log with the cache, the superblock, the inode table, the memory
    of the running process and of the kernel (an interface, [UserMem]), the
    directory entry a function keeps in its frame, the current directory and the
    process number.  An inode is referred to by its index in the table. *)

From S2P Require Import Prelude Riscv Memory Str Cache Log.

Definition ROOTINO : Z := 1.
Definition NINODE : nat := 50.
Definition FSMAGIC : Z := 0x10203040.
Definition NDIRECT : Z := 12.
Definition NINDIRECT : Z := BSIZE / 4.
Definition MAXFILE : Z := NDIRECT + NINDIRECT.
Definition IPB : Z := BSIZE / 64.
Definition BPB : Z := BSIZE * 8.
Definition DIRSIZ : Z := 14.
Definition T_DIR : Z := 1.
Definition T_FILE : Z := 2.
Definition T_DEVICE : Z := 3.

Record superblock := mk_sb {
  sb_magic : Z;
  sb_size : Z;
  sb_nblocks : Z;
  sb_ninodes : Z;
  sb_nlog : Z;
  sb_logstart : Z;
  sb_inodestart : Z;
  sb_bmapstart : Z
}.

Definition IBLOCK (i : Z) (sb : superblock) : Z := w32 (i / IPB + sb_inodestart sb).
Definition BBLOCK (b : Z) (sb : superblock) : Z := w32 (b / BPB + sb_bmapstart sb).

(** [short]: two's complement on 16 bits. *)
Definition i16 (z : Z) : Z := (z + 2 ^ 15) mod 2 ^ 16 - 2 ^ 15.

(** [struct dinode]: the part of an inode that lives on disk, 64 bytes. *)
Record dinode := mk_dinode {
  d_type : Z;
  d_major : Z;
  d_minor : Z;
  d_nlink : Z;
  d_size : Z;
  d_addrs : list Z
}.

(** [struct inode]; [i_locked] and [i_pid] are its sleep-lock, [i_d] the copy of
    the disk inode. *)
Record inode := mk_inode {
  i_dev : Z;
  i_inum : Z;
  i_ref : Z;
  i_locked : Z;
  i_pid : Z;
  i_valid : Z;
  i_d : dinode
}.

Definition dinode0 : dinode := mk_dinode 0 0 0 0 0 (replicate 13 0).
Definition inode0 : inode := mk_inode 0 0 0 0 0 0 dinode0.

Definition set_ref (r : Z) (ip : inode) : inode :=
  mk_inode (i_dev ip) (i_inum ip) r (i_locked ip) (i_pid ip) (i_valid ip) (i_d ip).
Definition set_ilock (l p : Z) (ip : inode) : inode :=
  mk_inode (i_dev ip) (i_inum ip) (i_ref ip) l p (i_valid ip) (i_d ip).
Definition set_valid (v : Z) (ip : inode) : inode :=
  mk_inode (i_dev ip) (i_inum ip) (i_ref ip) (i_locked ip) (i_pid ip) v (i_d ip).
Definition set_d (d : dinode) (ip : inode) : inode :=
  mk_inode (i_dev ip) (i_inum ip) (i_ref ip) (i_locked ip) (i_pid ip) (i_valid ip) d.

Definition set_type (v : Z) (d : dinode) : dinode :=
  mk_dinode v (d_major d) (d_minor d) (d_nlink d) (d_size d) (d_addrs d).
Definition set_major (v : Z) (d : dinode) : dinode :=
  mk_dinode (d_type d) v (d_minor d) (d_nlink d) (d_size d) (d_addrs d).
Definition set_minor (v : Z) (d : dinode) : dinode :=
  mk_dinode (d_type d) (d_major d) v (d_nlink d) (d_size d) (d_addrs d).
Definition set_nlink (v : Z) (d : dinode) : dinode :=
  mk_dinode (d_type d) (d_major d) (d_minor d) v (d_size d) (d_addrs d).
Definition set_size (v : Z) (d : dinode) : dinode :=
  mk_dinode (d_type d) (d_major d) (d_minor d) (d_nlink d) v (d_addrs d).
Definition set_addr (k : Z) (v : Z) (d : dinode) : dinode :=
  mk_dinode (d_type d) (d_major d) (d_minor d) (d_nlink d) (d_size d) (<[Z.to_nat k := v]> (d_addrs d)).

(** [addrs[k]]. *)
Definition addr_of (d : dinode) (k : Z) : Z := default 0 (d_addrs d !! Z.to_nat k).

(** A disk inode at byte [o] of a block. *)
Definition get_dinode (b : block) (o : Z) : dinode :=
  mk_dinode (i16 (le_load 2 b o)) (i16 (le_load 2 b (o + 2))) (i16 (le_load 2 b (o + 4))) (i16 (le_load 2 b (o + 6)))
    (le_load 4 b (o + 8)) ((λ k, le_load 4 b (o + 12 + 4 * k)) <$> seqZ 0 13).

Fixpoint put_addrs (b : block) (o : Z) (l : list Z) : block :=
  match l with
  | [] => b
  | a :: l' => put_addrs (le_store 4 b o a) (o + 4) l'
  end.

Definition put_dinode (b : block) (o : Z) (d : dinode) : block :=
  let b := le_store 2 b o (d_type d) in
  let b := le_store 2 b (o + 2) (d_major d) in
  let b := le_store 2 b (o + 4) (d_minor d) in
  let b := le_store 2 b (o + 6) (d_nlink d) in
  let b := le_store 4 b (o + 8) (d_size d) in
  put_addrs b (o + 12) (d_addrs d).

(** Memory as the file system uses it: [copyout] and [copyin] with the page table
    of the running process, and [memmove] from and to kernel addresses.
    [um_copyin a n] gives the bytes stored before the call returned. *)
Class UserMem (U : Type) := {
  um_copyout : Z → list Z → M U Z;
  um_copyin : Z → Z → M U (list Z * Z);
  um_kwrite : Z → list Z → M U unit;
  um_kread : Z → Z → M U (list Z)
}.

Record fsst {C U : Type} := mk_fsst {
  f_lg : lgst C;
  f_sb : superblock;
  f_inodes : list inode;
  f_um : U;
  f_frame : memory;
  f_cwd : nat;
  f_pid : Z
}.
Arguments fsst C U : clear implicits.

(** Where file data goes to and comes from. *)
Inductive place := User (a : Z) | Kernel (a : Z) | Frame (a : Z).

Definition pl_add (p : place) (n : Z) : place :=
  match p with User a => User (w64 (a + n)) | Kernel a => Kernel (w64 (a + n)) | Frame a => Frame (a + n) end.

Section Code.
Context {C U : Type} {BC : BlockCache C} {UM : UserMem U}.
Abbreviation fs := (fsst C U).

Definition set_lg (l : lgst C) (s : fs) : fs :=
  mk_fsst _ _ l (f_sb s) (f_inodes s) (f_um s) (f_frame s) (f_cwd s) (f_pid s).
Definition set_fsb (b : superblock) (s : fs) : fs :=
  mk_fsst _ _ (f_lg s) b (f_inodes s) (f_um s) (f_frame s) (f_cwd s) (f_pid s).
Definition set_inodes (l : list inode) (s : fs) : fs :=
  mk_fsst _ _ (f_lg s) (f_sb s) l (f_um s) (f_frame s) (f_cwd s) (f_pid s).
Definition set_um (u : U) (s : fs) : fs :=
  mk_fsst _ _ (f_lg s) (f_sb s) (f_inodes s) u (f_frame s) (f_cwd s) (f_pid s).
Definition set_frame (m : memory) (s : fs) : fs :=
  mk_fsst _ _ (f_lg s) (f_sb s) (f_inodes s) (f_um s) m (f_cwd s) (f_pid s).

(** Operations of the log and of the cache, and of memory. *)
Definition onl {A} (m : M (lgst C) A) : M fs A := λ s,
  match m (f_lg s) with
  | Ok (a, l) => Ok (a, set_lg l s)
  | Panic msg => Panic msg
  | Wild a => Wild a
  | Exit st => Exit st
  | OutOfFuel => OutOfFuel
  end.
Definition onu {A} (m : M U A) : M fs A := λ s,
  match m (f_um s) with
  | Ok (a, u) => Ok (a, set_um u s)
  | Panic msg => Panic msg
  | Wild a => Wild a
  | Exit st => Exit st
  | OutOfFuel => OutOfFuel
  end.

Definition bread (dev bn : Z) : M fs nat := onl (onc (bc_read dev bn)).
Definition brelse (b : nat) : M fs unit := onl (onc (bc_release b)).
Definition bdata (b : nat) : M fs block := onl (onc (bc_data b)).
Definition bset (b : nat) (d : block) : M fs unit := onl (onc (bc_set b d)).
Definition lwrite (b : nat) : M fs unit := onl (log_write b).

Definition getsb : M fs superblock := gets f_sb.
Definition geti (ip : nat) : M fs inode := gets (λ s, default inode0 (f_inodes s !! ip)).
Definition updi (ip : nat) (f : inode → inode) : M fs unit :=
  modify (λ s, set_inodes (alter f ip (f_inodes s)) s).
Definition updd (ip : nat) (f : dinode → dinode) : M fs unit := updi ip (λ i, set_d (f (i_d i)) i).

(** ** Superblock *)

Definition readsb (dev : Z) : M fs unit :=
  bp ← bread dev 1;
  d ← bdata bp;
  modify (set_fsb (mk_sb (le_load 4 d 0) (le_load 4 d 4) (le_load 4 d 8) (le_load 4 d 12)
    (le_load 4 d 16) (le_load 4 d 20) (le_load 4 d 24) (le_load 4 d 28)));;
  brelse bp.

Definition fsinit (dev : Z) : M fs unit :=
  readsb dev;;
  sb ← getsb;
  if negb (sb_magic sb =? FSMAGIC) then panic "invalid file system"
  else onl (initlog dev (sb_logstart sb) (sb_nlog sb)).

(** ** Blocks *)

Definition bzero (dev bno : Z) : M fs unit :=
  bp ← bread dev (w32 bno);
  d ← bdata bp;
  bset bp (memset d 0 0 BSIZE);;
  lwrite bp;;
  brelse bp.

(** One round of the inner loop of [balloc]. *)
Definition balloc_bit (dev : Z) (bp : nat) (b bi : Z) : M fs (Z + option Z) :=
  sb ← getsb;
  if (bi <? BPB) && (w32 (b + bi) <? sb_size sb) then
    let m := Z.shiftl 1 (bi mod 8) in
    d ← bdata bp;
    if Z.land (mget d (bi / 8)) m =? 0 then
      bset bp (mput d (bi / 8) (Z.lor (mget d (bi / 8)) m));;
      lwrite bp;;
      brelse bp;;
      bzero dev (b + bi);;
      mret (inr (Some (b + bi)))
    else mret (inl (bi + 1))
  else mret (inr None).

Definition balloc_block (dev b : Z) : M fs (Z + Z) :=
  sb ← getsb;
  if w32 b <? sb_size sb then
    bp ← bread dev (BBLOCK b sb);
    r ← loop (Z.to_nat (BPB + 1)) (balloc_bit dev bp b) 0;
    match r with
    | Some a => mret (inr a)
    | None => brelse bp;; mret (inl (b + BPB))
    end
  else panic "balloc: out of blocks".

Definition balloc (dev : Z) : M fs Z :=
  sb ← getsb;
  loop (Z.to_nat (sb_size sb / BPB + 2)) (balloc_block dev) 0.

Definition bfree (dev b : Z) : M fs unit :=
  sb ← getsb;
  bp ← bread dev (BBLOCK b sb);
  let bi := b mod BPB in
  let m := Z.shiftl 1 (bi mod 8) in
  d ← bdata bp;
  if Z.land (mget d (bi / 8)) m =? 0 then panic "freeing free block"
  else
    bset bp (mput d (bi / 8) (Z.land (mget d (bi / 8)) (Z.lnot m)));;
    lwrite bp;;
    brelse bp.

(** ** Inodes *)

(** Sleep-locks of inodes (kernel/sleeplock.c). *)
Definition acquiresleep (ip : nat) : M fs unit :=
  i ← geti ip;
  if truth (i_locked i) then blocked
  else pid ← gets f_pid; updi ip (set_ilock 1 pid).

Definition releasesleep (ip : nat) : M fs unit := updi ip (set_ilock 0 0).

Definition holdingsleep (ip : nat) : M fs bool :=
  i ← geti ip; pid ← gets f_pid; mret (truth (i_locked i) && (i_pid i =? pid)).

Definition iinit : M fs unit := for_each (seq 0 NINODE) releasesleep.

(** [iget]: the table is searched from entry [k] on. *)
Fixpoint iget_scan (l : list inode) (k : nat) (empty : option nat) (dev inum : Z) : nat + option nat :=
  match l with
  | [] => inr empty
  | ip :: l' =>
    if (0 <? i_ref ip) && (i_dev ip =? dev) && (i_inum ip =? inum) then inl k
    else iget_scan l' (S k)
           (match empty with None => if i_ref ip =? 0 then Some k else None | Some e => Some e end) dev inum
  end.

Definition iget (dev inum : Z) : M fs nat :=
  t ← gets f_inodes;
  match iget_scan t 0 None dev inum with
  | inl ip => updi ip (λ i, set_ref (i32 (i_ref i + 1)) i);; mret ip
  | inr None => panic "iget: no inodes"
  | inr (Some ip) => updi ip (λ i, mk_inode dev inum 1 (i_locked i) (i_pid i) 0 (i_d i));; mret ip
  end.

Definition ialloc_body (dev type inum : Z) : M fs (Z + nat) :=
  sb ← getsb;
  if w32 inum <? sb_ninodes sb then
    bp ← bread dev (IBLOCK inum sb);
    d ← bdata bp;
    let o := 64 * (inum mod IPB) in
    if i16 (le_load 2 d o) =? 0 then
      bset bp (le_store 2 (memset d o 0 64) o type);;
      lwrite bp;;
      brelse bp;;
      ip ← iget dev inum;
      mret (inr ip)
    else
      brelse bp;;
      mret (inl (inum + 1))
  else panic "ialloc: no inodes".

Definition ialloc (dev type : Z) : M fs nat :=
  sb ← getsb;
  loop (Z.to_nat (sb_ninodes sb + 1)) (ialloc_body dev type) 1.

Definition iupdate (ip : nat) : M fs unit :=
  i ← geti ip;
  sb ← getsb;
  bp ← bread (i_dev i) (IBLOCK (i_inum i) sb);
  d ← bdata bp;
  bset bp (put_dinode d (64 * (i_inum i mod IPB)) (i_d i));;
  lwrite bp;;
  brelse bp.

Definition idup (ip : nat) : M fs nat := updi ip (λ i, set_ref (i32 (i_ref i + 1)) i);; mret ip.

Definition ilock (ip : nat) : M fs unit :=
  i ← geti ip;
  if i_ref i <? 1 then panic "ilock"
  else
    acquiresleep ip;;
    if i_valid i =? 0 then
      sb ← getsb;
      bp ← bread (i_dev i) (IBLOCK (i_inum i) sb);
      d ← bdata bp;
      updi ip (set_d (get_dinode d (64 * (i_inum i mod IPB))));;
      brelse bp;;
      updi ip (set_valid 1);;
      if d_type (get_dinode d (64 * (i_inum i mod IPB))) =? 0 then panic "ilock: no type" else mret tt
    else mret tt.

Definition iunlock (ip : nat) : M fs unit :=
  i ← geti ip;
  h ← holdingsleep ip;
  if negb h || (i_ref i <? 1) then panic "iunlock" else releasesleep ip.

(** ** Contents of inodes *)

Definition bmap (ip : nat) (bn : Z) : M fs Z :=
  i ← geti ip;
  if bn <? NDIRECT then
    if addr_of (i_d i) bn =? 0 then
      a ← balloc (i_dev i); updd ip (set_addr bn a);; mret a
    else mret (addr_of (i_d i) bn)
  else
    let bn := bn - NDIRECT in
    if bn <? NINDIRECT then
      addr ← (if addr_of (i_d i) NDIRECT =? 0 then
                a ← balloc (i_dev i); updd ip (set_addr NDIRECT a);; mret a
              else mret (addr_of (i_d i) NDIRECT));
      bp ← bread (i_dev i) addr;
      d ← bdata bp;
      addr ← (if le_load 4 d (4 * bn) =? 0 then
                a ← balloc (i_dev i);
                d ← bdata bp;
                bset bp (le_store 4 d (4 * bn) a);;
                lwrite bp;;
                mret a
              else mret (le_load 4 d (4 * bn)));
      brelse bp;;
      mret addr
    else panic "bmap: out of range".

Definition itrunc_direct (ip : nat) (k : Z) : M fs unit :=
  i ← geti ip;
  if truth (addr_of (i_d i) k) then
    bfree (i_dev i) (addr_of (i_d i) k);;
    updd ip (set_addr k 0)
  else mret tt.

Definition itrunc_indirect (dev : Z) (bp : nat) (j : Z) : M fs unit :=
  d ← bdata bp;
  if truth (le_load 4 d (4 * j)) then bfree dev (le_load 4 d (4 * j)) else mret tt.

Definition itrunc (ip : nat) : M fs unit :=
  for_each (seqZ 0 NDIRECT) (itrunc_direct ip);;
  i ← geti ip;
  (if truth (addr_of (i_d i) NDIRECT) then
     bp ← bread (i_dev i) (addr_of (i_d i) NDIRECT);
     for_each (seqZ 0 NINDIRECT) (itrunc_indirect (i_dev i) bp);;
     brelse bp;;
     bfree (i_dev i) (addr_of (i_d i) NDIRECT);;
     updd ip (set_addr NDIRECT 0)
   else mret tt);;
  updd ip (set_size 0);;
  iupdate ip.

Definition iput (ip : nat) : M fs unit :=
  i ← geti ip;
  (if (i_ref i =? 1) && truth (i_valid i) && (d_nlink (i_d i) =? 0) then
     acquiresleep ip;;
     itrunc ip;;
     updd ip (set_type 0);;
     iupdate ip;;
     updi ip (set_valid 0);;
     releasesleep ip
   else mret tt);;
  updi ip (λ i, set_ref (i_ref i - 1) i).

Definition iunlockput (ip : nat) : M fs unit := iunlock ip;; iput ip.

(** [struct stat]. *)
Record stat := mk_stat { st_dev : Z; st_ino : Z; st_type : Z; st_nlink : Z; st_size : Z }.

Definition stati (ip : nat) : M fs stat :=
  i ← geti ip; mret (mk_stat (i32 (i_dev i)) (i_inum i) (d_type (i_d i)) (d_nlink (i_d i)) (d_size (i_d i))).

(** [either_copyout] and [either_copyin] (kernel/proc.c); the second gives the
    bytes it stored and its result. *)
Definition either_copyout (dst : place) (bs : list Z) : M fs Z :=
  match dst with
  | User a => onu (um_copyout a bs)
  | Kernel a => onu (um_kwrite a bs);; mret 0
  | Frame a => modify (λ s, set_frame (write_bytes (f_frame s) a bs) s);; mret 0
  end.

Definition either_copyin (src : place) (n : Z) : M fs (list Z * Z) :=
  match src with
  | User a => onu (um_copyin a n)
  | Kernel a => bs ← onu (um_kread a n); mret (bs, 0)
  | Frame a => m ← gets f_frame; mret (read_bytes m a (Z.to_nat n), 0)
  end.

(** One round of [readi]: the loop variables are [tot], [off] and [dst]. *)
Definition readi_body (ip : nat) (n : Z) (v : Z * Z * place) : M fs (Z * Z * place + Z) :=
  let '(tot, off, dst) := v in
  if tot <? n then
    i ← geti ip;
    a ← bmap ip (off / BSIZE);
    bp ← bread (i_dev i) a;
    let m := Z.min (n - tot) (BSIZE - off mod BSIZE) in
    d ← bdata bp;
    r ← either_copyout dst (read_bytes d (off mod BSIZE) (Z.to_nat m));
    brelse bp;;
    if r =? -1 then mret (inr (w32 (-1)))
    else mret (inl (w32 (tot + m), w32 (off + m), pl_add dst m))
  else mret (inr tot).

Definition readi (ip : nat) (dst : place) (off n : Z) : M fs Z :=
  i ← geti ip;
  if (d_size (i_d i) <? off) || (w32 (off + n) <? off) then mret 0
  else
    let n := if d_size (i_d i) <? w32 (off + n) then w32 (d_size (i_d i) - off) else n in
    r ← loop (Z.to_nat (n / BSIZE + 3)) (readi_body ip n) (0, off, dst);
    mret (i32 r).

(** One round of [writei]; the loop is left with [tot] and [off]. *)
Definition writei_body (ip : nat) (n : Z) (v : Z * Z * place) : M fs (Z * Z * place + Z * Z) :=
  let '(tot, off, src) := v in
  if tot <? n then
    i ← geti ip;
    a ← bmap ip (off / BSIZE);
    bp ← bread (i_dev i) a;
    let m := Z.min (n - tot) (BSIZE - off mod BSIZE) in
    '(bs, r) ← either_copyin src m;
    d ← bdata bp;
    bset bp (write_bytes d (off mod BSIZE) bs);;
    if r =? -1 then brelse bp;; mret (inr (tot, off))
    else
      lwrite bp;;
      brelse bp;;
      mret (inl (w32 (tot + m), w32 (off + m), pl_add src m))
  else mret (inr (tot, off)).

Definition writei (ip : nat) (src : place) (off n : Z) : M fs Z :=
  i ← geti ip;
  if (d_size (i_d i) <? off) || (w32 (off + n) <? off) then mret (-1)
  else if MAXFILE * BSIZE <? w32 (off + n) then mret (-1)
  else
    '(tot, off) ← loop (Z.to_nat (n / BSIZE + 3)) (writei_body ip n) (0, off, src);
    i ← geti ip;
    (if d_size (i_d i) <? off then updd ip (set_size off) else mret tt);;
    iupdate ip;;
    mret (i32 tot).

End Code.
