(* ===== verification/FsSpec.v ===== *)
(** Rules for the file system inside an operation: the layout of the disk, the
    space an operation may use of the log, and the rules for reading, changing and
    logging a block. *)

From S2P Require Import Prelude Riscv Memory Str Cache Log LogSpec LogCrash Txn Fs.

(** First block after the bitmap. *)
Definition dstart (sb : superblock) : Z := sb_bmapstart sb + sb_size sb / BPB + 1.
Definition is_bm (sb : superblock) (bn : Z) : Prop := sb_bmapstart sb <= bn < dstart sb.

#[global] Instance is_bm_dec sb bn : Decision (is_bm sb bn).
Proof. unfold is_bm. apply _. Defined.

(** The disk is laid out as mkfs does: log, inodes, bitmap, data. *)
Record layout (sb : superblock) (l : log) : Prop := {
  ly_start : lg_start l = sb_logstart sb;
  ly_nlog : lg_size l = sb_nlog sb;
  ly_pos : 1 <= sb_nlog sb;
  ly_boot : 2 <= sb_logstart sb;
  ly_log : sb_logstart sb + sb_nlog sb <= sb_inodestart sb;
  ly_ninodes : 0 <= sb_ninodes sb;
  ly_inodes : sb_inodestart sb + sb_ninodes sb / IPB + 1 <= sb_bmapstart sb;
  ly_data : dstart sb <= sb_size sb;
  ly_size : sb_size sb < 2 ^ 31
}.

(** Block [b] is marked in the bitmap. *)
Definition used (sb : superblock) (V : Z → block) (b : Z) : bool :=
  Z.testbit (mget (V (BBLOCK b sb)) (b mod BPB / 8)) (b mod BPB mod 8).

Section Spec.
Context {C U : Type} {BC : BlockCache C} {BOK : BlockCacheOk C} {UM : UserMem U}.
Abbreviation fs := (fsst C U).
Implicit Types (s : fs) (t : tx) (bn : Z).

Lemma wp_onl {A} (m : M (lgst C) A) s (Q : A → fs → Prop) :
  wp m (f_lg s) (λ a l, Q a (set_lg l s)) → wp (onl m) s Q.
Proof. unfold wp, onl. by destruct (m (f_lg s)) as [[a l]| | | |]. Qed.

Lemma wp_onu {A} (m : M U A) s (Q : A → fs → Prop) :
  wp m (f_um s) (λ a u, Q a (set_um u s)) → wp (onu m) s Q.
Proof. unfold wp, onu. by destruct (m (f_um s)) as [[a u]| | | |]. Qed.

(** The blocks of a transaction that are not of the bitmap. *)
Definition cost (sb : superblock) t : Z := Z.of_nat (length (filter (λ b, ¬ is_bm sb b) (t_logged t))).
Definition nbm (sb : superblock) : Z := sb_size sb / BPB + 1.

(** The system inside a transaction [t].  Three buffers are kept for blocks that
    are held without being logged. *)
Record ftx s t : Prop := {
  ft_txn : txn (f_lg s) t;
  ft_layout : layout (f_sb s) (lg (f_lg s));
  ft_few : (length (t_logged t) + 3 <= NBUF)%nat;
  ft_meta : ∀ b, 0 <= b < dstart (f_sb s) → used (f_sb s) (t_view t) b = true
}.

(** [k] more blocks can be logged, and the whole bitmap. *)
Record budget s t (k : Z) : Prop := {
  bu_out : 1 <= lg_outstanding (lg (f_lg s));
  bu_room : cost (f_sb s) t + k + nbm (f_sb s) + 1 <= Z.min (Z.min LOGSIZE (lg_size (lg (f_lg s)) - 1)) (Z.of_nat NBUF - 3)
}.

(** Everything but blocks, the log's list and the inode table is kept, and
    buffers of held blocks stay where they are. *)
Record fstep s t s' t' : Prop := {
  fp_sb : f_sb s' = f_sb s;
  fp_log : same_log (lg (f_lg s)) (lg (f_lg s'));
  fp_disk : t_disk t' = t_disk t;
  fp_um : f_um s' = f_um s;
  fp_frame : f_frame s' = f_frame s;
  fp_cwd : f_cwd s' = f_cwd s;
  fp_pid : f_pid s' = f_pid s;
  fp_logged : ∀ b, b ∈ t_logged t → b ∈ t_logged t';
  fp_keeps : keeps (f_lg s) t (f_lg s')
}.

Definition fat s t h bn : Prop := tx_at (f_lg s) t h bn.

Lemma same_log_refl l : same_log l l.
Proof. by split_and!. Qed.

Lemma same_log_trans l1 l2 l3 : same_log l1 l2 → same_log l2 l3 → same_log l1 l3.
Proof. intros (?&?&?&?&?&?) (?&?&?&?&?&?). split_and!; congruence. Qed.

Lemma fstep_refl s t : fstep s t s t.
Proof. split; try done. by intros h bn [? _]. Qed.

(** Blocks held at first are still held in the middle. *)
Lemma fstep_trans s1 t1 s2 t2 s3 t3 :
  (∀ b, b ∈ t_held t1 → b ∈ t_held t2) → fstep s1 t1 s2 t2 → fstep s2 t2 s3 t3 → fstep s1 t1 s3 t3.
Proof.
  intros Hh [] []. split; try congruence.
  - by eapply same_log_trans.
  - auto.
  - intros h bn [Hat Hin]. apply fp_keeps1. split; [by apply fp_keeps0|auto].
Qed.

Lemma fat_step s t s' t' h bn : fstep s t s' t' → bn ∈ t_held t' → fat s t h bn → fat s' t' h bn.
Proof. intros [] Hin Hat. split; [by apply fp_keeps0|done]. Qed.

Lemma fstep_layout s t s' t' : fstep s t s' t' → layout (f_sb s) (lg (f_lg s)) → layout (f_sb s') (lg (f_lg s')).
Proof. intros [-> (E1 & E2 & _)] []. split; congruence. Qed.

(** ** One block *)

(** A block outside the log that can be read. *)
Definition home (sb : superblock) (bn : Z) : Prop :=
  0 <= bn < sb_size sb ∧ (bn < sb_logstart sb ∨ sb_logstart sb + sb_nlog sb <= bn).

Lemma home_range sb l bn : layout sb l → home sb bn → 0 <= bn < 2 ^ 31 ∧ ¬ in_log l bn.
Proof. intros [] [H1 H2]. unfold in_log. lia. Qed.

Lemma fbread_ok s t bn :
  ftx s t → home (f_sb s) bn → bn ∉ t_held t → (length (t_held t) <= 2)%nat →
  wp (bread ROOTDEV bn) s (λ h s', fstep s t s' (t_hold bn t) ∧ ftx s' (t_hold bn t) ∧ fat s' (t_hold bn t) h bn ∧
    f_inodes s' = f_inodes s).
Proof.
  intros [] Hhome Hnh Hlen. apply wp_onl. destruct (home_range _ _ _ ft_layout0 Hhome) as [H1 H2].
  eapply wp_mono; [apply (tx_read_ok _ t bn); try done|].
  - right. unfold in_use. pose proof (length_filter (λ b, b ∉ t_logged t) (t_held t)). lia.
  - intros h l (Hl & Ht & Hat & Hk). split_and!; try done.
    + split; try done. cbn [f_lg set_lg]. rewrite Hl. apply same_log_refl.
    + split; try done. cbn [f_lg f_sb set_lg]. by rewrite Hl.
Qed.

Lemma fbdata_ok s t h bn :
  ftx s t → fat s t h bn → wp (bdata h) s (λ d s', s' = s ∧ d = t_view t bn).
Proof.
  intros [] Hat. apply wp_onl. eapply wp_mono; [by apply (tx_data_ok _ t h bn)|].
  intros d l [-> ->]. split; [by destruct s|done].
Qed.

(** The bitmap part of a block's new contents still marks the blocks before the
    data. *)
Lemma fbset_ok s t h bn d :
  ftx s t → fat s t h bn →
  (∀ b, 0 <= b < dstart (f_sb s) → used (f_sb s) (fset (t_view t) bn d) b = true) →
  wp (bset h d) s (λ _ s', fstep s t s' (t_put bn d t) ∧ ftx s' (t_put bn d t) ∧ f_inodes s' = f_inodes s).
Proof.
  intros [] Hat Hm. apply wp_onl. eapply wp_mono; [by apply (tx_set_ok _ t h bn d)|].
  intros _ l (Hl & Ht & Hk). split_and!; try done.
  - split; try done. cbn [f_lg set_lg]. rewrite Hl. apply same_log_refl.
  - split; try done. cbn [f_lg f_sb set_lg]. by rewrite Hl.
Qed.

Lemma fbrelse_ok s t h bn :
  ftx s t → fat s t h bn → (bn ∈ t_logged t ∨ t_view t bn = t_disk t bn) →
  wp (brelse h) s (λ _ s', fstep s t s' (t_drop bn t) ∧ ftx s' (t_drop bn t) ∧ f_inodes s' = f_inodes s).
Proof.
  intros [] Hat Hc. apply wp_onl. eapply wp_mono; [by apply (tx_release_ok _ t h bn)|].
  intros _ l (Hl & Ht & Hk). split_and!; try done.
  - split; try done. cbn [f_lg set_lg]. rewrite Hl. apply same_log_refl.
  - split; try done. cbn [f_lg f_sb set_lg]. by rewrite Hl.
Qed.

(** ** The log's space *)

Lemma bm_count sb l : NoDup l → Z.of_nat (length (filter (is_bm sb) l)) <= Z.max 0 (nbm sb).
Proof.
  intros Hnd. unfold nbm.
  assert (Hsub : filter (is_bm sb) l ⊆ seqZ (sb_bmapstart sb) (sb_size sb / BPB + 1)).
  { intros b [Hb _]%list_elem_of_filter. apply elem_of_seqZ. unfold is_bm, dstart in Hb. lia. }
  assert (Hlen := submseteq_length _ _ (NoDup_submseteq _ _ (list.NoDup_filter _ _ Hnd) Hsub)).
  rewrite length_seqZ in Hlen. lia.
Qed.

(** A block of the bitmap or one that is logged already costs nothing. *)
Definition charge (sb : superblock) t bn : Z := if decide (is_bm sb bn ∨ bn ∈ t_logged t) then 0 else 1.

Lemma logged_cost sb t : NoDup (t_logged t) → 0 <= nbm sb → Z.of_nat (length (t_logged t)) <= cost sb t + nbm sb.
Proof.
  intros Hnd H0. pose proof (bm_count sb _ Hnd). unfold cost.
  rewrite <- (length_filter_split (is_bm sb) (t_logged t)). lia.
Qed.

Lemma cost_log sb t bn : cost sb (t_log bn t) = cost sb t + charge sb t bn.
Proof.
  unfold cost, charge, t_log. cbn [t_logged]. destruct (decide (bn ∈ t_logged t)) as [Hl|Hl].
  { rewrite decide_True by tauto. lia. }
  rewrite list.filter_app, length_app, list.filter_cons, list.filter_nil.
  destruct (decide (is_bm sb bn)) as [Hb|Hb].
  - rewrite decide_False, decide_True by tauto. simpl. lia.
  - rewrite decide_True, decide_False by tauto. simpl. lia.
Qed.

Lemma layout_pos sb l : layout sb l → 0 < sb_bmapstart sb ∧ 1 <= nbm sb ∧ dstart sb = sb_bmapstart sb + nbm sb.
Proof.
  intros []. unfold nbm, dstart in *.
  assert (0 <= sb_ninodes sb / IPB) by (apply Z.div_pos; [lia|done]).
  assert (0 <= sb_size sb); [|assert (0 <= sb_size sb / BPB) by (apply Z.div_pos; [lia|done]); lia].
  destruct (Z.le_gt_cases 0 (sb_size sb)) as [|Hneg]; [done|]. exfalso.
  assert (sb_size sb <= sb_size sb / BPB); [|lia]. apply Z.div_le_lower_bound; unfold BPB, BSIZE; lia.
Qed.

Lemma lwrite_ok s t h bn k :
  ftx s t → fat s t h bn → budget s t k → charge (f_sb s) t bn <= k →
  wp (lwrite h) s (λ _ s', fstep s t s' (t_log bn t) ∧ ftx s' (t_log bn t) ∧
    budget s' (t_log bn t) (k - charge (f_sb s) t bn) ∧ f_inodes s' = f_inodes s).
Proof.
  intros [] Hat [Hout Hroom] Hk. apply wp_onl.
  destruct (layout_pos _ _ ft_layout0) as (_ & Hnbm & _).
  pose proof (logged_cost (f_sb s) t (lo_nodup _ _ (tx_lg _ _ ft_txn0)) ltac:(lia)) as Hlc.
  pose proof (cost_log (f_sb s) t bn) as Hc.
  assert (0 <= charge (f_sb s) t bn) by (unfold charge; case_decide; lia).
  eapply wp_mono; [apply (tx_log_ok _ t h bn); [done|done|split; [done|lia]]|].
  intros _ l (Hl & Ht & Hkp). pose proof Hl as (E1 & E2 & E3 & E4 & E5 & E6). split_and!; try done.
  - split; try done. intros b Hb. unfold t_log. cbn [t_logged]. case_decide; [done|]. apply elem_of_app. by left.
  - split; try done; cbn [f_lg f_sb set_lg].
    + destruct ft_layout0. split; congruence.
    + pose proof (logged_cost (f_sb s) _ (lo_nodup _ _ (tx_lg _ _ Ht)) ltac:(lia)). lia.
  - split; cbn [f_lg f_sb set_lg]; [congruence|]. rewrite E2, Hc. lia.
Qed.

(** A budget lasts while the log's list stays. *)
Lemma budget_step s t s' t' k :
  f_sb s' = f_sb s → same_log (lg (f_lg s)) (lg (f_lg s')) → t_logged t' = t_logged t → budget s t k → budget s' t' k.
Proof. intros E1 (_ & E2 & _ & E3 & _) E4 []. split; [congruence|]. unfold cost in *. rewrite E1, E2, E4. done. Qed.

Lemma budget_le s t k k' : k' <= k → budget s t k → budget s t k'.
Proof. intros Hk []. split; [done|]. lia. Qed.

(** ** Changing a block *)

(** Block [bn] set to [d] and logged. *)
Definition t_write bn (d : block) t : tx := t_log bn (t_put bn d t).

Lemma view_write bn d t : t_view (t_write bn d t) = fset (t_view t) bn d.
Proof. done. Qed.

Lemma logged_write bn d t b : b ∈ t_logged (t_write bn d t) ↔ b = bn ∨ b ∈ t_logged t.
Proof.
  unfold t_write, t_log, t_put. cbn [t_logged]. case_decide; [naive_solver|].
  rewrite elem_of_app, list_elem_of_singleton. tauto.
Qed.

Lemma drop_hold bn t : bn ∉ t_held t → t_drop bn (t_hold bn t) = t.
Proof.
  intros Hn. unfold t_drop, t_hold. cbn [t_view t_disk t_logged t_held]. rewrite list.filter_cons, decide_False by tauto.
  rewrite filter_all; [by destruct t|]. intros b Hb ->. done.
Qed.

Lemma drop_write_hold bn d t : bn ∉ t_held t → t_drop bn (t_write bn d (t_hold bn t)) = t_write bn d t.
Proof.
  intros Hn. unfold t_write, t_log, t_put, t_drop, t_hold. cbn [t_view t_disk t_logged t_held].
  rewrite list.filter_cons, (decide_False (P := bn ≠ bn)) by tauto. rewrite filter_all; [done|]. intros b Hb ->. done.
Qed.

(** [bset], [log_write] and [brelse] on a block that was read in [t]. *)
Lemma write_back_ok s t h bn d k :
  let t1 := t_hold bn t in
  ftx s t1 → fat s t1 h bn → bn ∉ t_held t → budget s t1 k → charge (f_sb s) t bn <= k →
  (∀ b, 0 <= b < dstart (f_sb s) → used (f_sb s) (fset (t_view t) bn d) b = true) →
  wp (bset h d;; lwrite h;; brelse h) s (λ _ s', fstep s t1 s' (t_write bn d t) ∧ ftx s' (t_write bn d t) ∧
    budget s' (t_write bn d t) (k - charge (f_sb s) t bn) ∧ f_inodes s' = f_inodes s).
Proof.
  intros t1 Hf Hat Hnh Hbu Hk Hm. apply wp_bind. eapply wp_mono; [by apply (fbset_ok s t1 h bn d)|].
  intros _ s1 (P1 & Hf1 & I1). pose proof (fp_sb _ _ _ _ P1) as S1.
  apply wp_bind. eapply wp_mono; [apply (lwrite_ok s1 _ h bn k Hf1)|].
  - eapply fat_step; [done| |done]. apply Hat.
  - apply (budget_step s t1); [done|apply P1|done|done].
  - by rewrite S1.
  - intros _ s2 (P2 & Hf2 & B2 & I2). pose proof (fp_sb _ _ _ _ P2) as S2. rewrite S1 in B2.
    eapply wp_mono; [apply (fbrelse_ok s2 _ h bn Hf2)|].
    + eapply fat_step; [done|apply Hat|]. eapply fat_step; [done|apply Hat|done].
    + left. cbn [t_log t_logged]. case_decide; [done|]. apply elem_of_app. right. by apply list_elem_of_singleton.
    + intros _ s3 (P3 & Hf3 & I3). unfold t1 in *. change (t_log bn (t_put bn d (t_hold bn t))) with (t_write bn d (t_hold bn t)) in *.
      rewrite (drop_write_hold bn d t Hnh) in *. split_and!; [|done| |congruence].
      * eapply fstep_trans; [|exact P1|]; [done|]. by eapply fstep_trans; [|exact P2|exact P3].
      * exact (budget_step s2 (t_write bn d (t_hold bn t)) s3 (t_write bn d t) _ (fp_sb _ _ _ _ P3) (fp_log _ _ _ _ P3) eq_refl B2).
Qed.

(** The same from the [bread] on. *)
Lemma update_block_ok s t bn (f : block → block) k :
  ftx s t → home (f_sb s) bn → bn ∉ t_held t → (length (t_held t) <= 2)%nat →
  budget s t k → charge (f_sb s) t bn <= k →
  (∀ b, 0 <= b < dstart (f_sb s) → used (f_sb s) (fset (t_view t) bn (f (t_view t bn))) b = true) →
  wp (bp ← bread ROOTDEV bn; d ← bdata bp; bset bp (f d);; lwrite bp;; brelse bp) s (λ _ s',
    let t' := t_write bn (f (t_view t bn)) t in
    fstep s t s' t' ∧ ftx s' t' ∧ budget s' t' (k - charge (f_sb s) t bn) ∧ f_inodes s' = f_inodes s).
Proof.
  intros Hf Hh Hnh Hlen Hbu Hk Hm. apply wp_bind. eapply wp_mono; [by apply (fbread_ok s t bn)|].
  intros h s1 (P1 & Hf1 & Hat1 & I1). pose proof (fp_sb _ _ _ _ P1) as S1.
  apply wp_bind. eapply wp_mono; [exact (fbdata_ok s1 (t_hold bn t) h bn Hf1 Hat1)|]. intros d s1' [-> ->]. cbn [t_hold t_view].
  eapply wp_mono; [apply (write_back_ok s1 t h bn _ k); try done|].
  - apply (budget_step s t); [done|apply P1|done|done].
  - by rewrite S1.
  - by rewrite S1.
  - intros _ s2 (P2 & Hf2 & B2 & I2). rewrite S1 in B2. split_and!; [|done|done|congruence].
    eapply fstep_trans; [|exact P1|exact P2]. intros b Hb. cbn. apply elem_of_cons. by right.
Qed.

(** ** Reading a block *)

Lemma ftx_clean s t bn : ftx s t → bn ∉ t_held t → bn ∈ t_logged t ∨ t_view t bn = t_disk t bn.
Proof.
  intros Hf Hnh. destruct (decide (bn ∈ t_logged t)) as [|Hl]; [by left|]. right. by apply (txn_clean (f_lg s)); [apply Hf| |].
Qed.

(** A block read in [t] and released unchanged. *)
Lemma release_ok s t h bn :
  ftx s (t_hold bn t) → fat s (t_hold bn t) h bn → bn ∉ t_held t → (bn ∈ t_logged t ∨ t_view t bn = t_disk t bn) →
  wp (brelse h) s (λ _ s', fstep s (t_hold bn t) s' t ∧ ftx s' t ∧ f_inodes s' = f_inodes s).
Proof.
  intros Hf Hat Hnh Hc. eapply wp_mono; [by apply (fbrelse_ok s _ h bn Hf Hat)|]. by rewrite (drop_hold bn t Hnh).
Qed.

(** From before the [bread] to after the [brelse]. *)
Lemma fstep_through s t bn s1 s2 t2 : fstep s t s1 (t_hold bn t) → fstep s1 (t_hold bn t) s2 t2 → fstep s t s2 t2.
Proof. intros P1 P2. eapply fstep_trans; [|exact P1|exact P2]. intros b Hb. cbn. apply elem_of_cons. by right. Qed.

Lemma budget_read s t bn s1 k : fstep s t s1 (t_hold bn t) → budget s t k → budget s1 (t_hold bn t) k.
Proof. intros P. apply budget_step; [apply P|apply P|done]. Qed.

Lemma budget_same s t s1 k : fstep s t s1 t → budget s t k → budget s1 t k.
Proof. intros P. apply budget_step; [apply P|apply P|done]. Qed.

End Spec.
