(* ===== verification/FsBlocks.v ===== *)
(** The block allocator: [balloc] and [bfree] and the bitmap. *)

From S2P Require Import Prelude Riscv Memory Str Cache Log LogSpec LogCrash Txn Fs FsSpec.

(** ** Bits *)

Lemma land_bit x k : 0 <= k → (Z.land x (Z.shiftl 1 k) =? 0) = negb (Z.testbit x k).
Proof.
  intros Hk. rewrite Z.shiftl_1_l. destruct (Z.testbit x k) eqn:E; simpl.
  - apply Z.eqb_neq. intros H0. assert (Z.testbit (Z.land x (2 ^ k)) k = true) as H1.
    { rewrite Z.land_spec, E, Z.pow2_bits_true by done. done. }
    by rewrite H0, Z.bits_0 in H1.
  - apply Z.eqb_eq. apply Z.bits_inj'. intros n Hn. rewrite Z.land_spec, Z.bits_0, Z.pow2_bits_eqb by done.
    destruct (Z.eqb_spec k n) as [->|]; [by rewrite E|apply andb_false_r].
Qed.

Lemma w8_testbit z j : 0 <= j < 8 → Z.testbit (w8 z) j = Z.testbit z j.
Proof. intros. unfold w8. apply Z.mod_pow2_bits_low; lia. Qed.

Lemma set_bit_testbit x k j :
  0 <= k → 0 <= j < 8 → Z.testbit (w8 (Z.lor x (Z.shiftl 1 k))) j = if decide (j = k) then true else Z.testbit x j.
Proof.
  intros Hk Hj. rewrite w8_testbit, Z.lor_spec, Z.shiftl_1_l, Z.pow2_bits_eqb by done.
  case_decide as E; [subst; by rewrite Z.eqb_refl, orb_true_r|]. rewrite (proj2 (Z.eqb_neq k j)) by done. apply orb_false_r.
Qed.

Lemma clear_bit_testbit x k j :
  0 <= k → 0 <= j < 8 →
  Z.testbit (w8 (Z.land x (Z.lnot (Z.shiftl 1 k)))) j = if decide (j = k) then false else Z.testbit x j.
Proof.
  intros Hk Hj. rewrite w8_testbit, Z.land_spec, Z.lnot_spec, Z.shiftl_1_l, Z.pow2_bits_eqb by lia.
  case_decide as E; [subst; by rewrite Z.eqb_refl, andb_false_r|]. rewrite (proj2 (Z.eqb_neq k j)) by done. apply andb_true_r.
Qed.

(** ** The bitmap *)

Lemma BPB_eq : BPB = 8192.
Proof. done. Qed.

Lemma BBLOCK_eq sb l b : layout sb l → 0 <= b < sb_size sb → BBLOCK b sb = b / BPB + sb_bmapstart sb ∧ is_bm sb (BBLOCK b sb).
Proof.
  intros Hl Hb. destruct (layout_pos _ _ Hl) as (H1 & H2 & H3). destruct Hl. unfold nbm, is_bm in *.
  assert (0 <= b / BPB) by (apply Z.div_pos; [lia|done]).
  assert (b / BPB <= sb_size sb / BPB) by (apply Z.div_le_mono; [done|lia]).
  unfold BBLOCK. rewrite w32_small by lia. split; [done|]. lia.
Qed.

Lemma bm_home sb l b : layout sb l → is_bm sb b → home sb b.
Proof.
  intros Hl Hb. destruct (layout_pos _ _ Hl) as (H1 & H2 & H3). destruct Hl. unfold is_bm in Hb.
  assert (0 <= sb_ninodes sb / IPB) by (apply Z.div_pos; [lia|done]). split; lia.
Qed.

Lemma data_home sb l b : layout sb l → dstart sb <= b < sb_size sb → home sb b ∧ ¬ is_bm sb b.
Proof.
  intros Hl Hb. destruct (layout_pos _ _ Hl) as (H1 & H2 & H3). destruct Hl.
  assert (0 <= sb_ninodes sb / IPB) by (apply Z.div_pos; [lia|done]). unfold is_bm. split; [split; lia|lia].
Qed.

(** The byte and the bit of the bitmap for block [b]. *)
Definition bm_byte (b : Z) : Z := b mod BPB / 8.
Definition bm_bit (b : Z) : Z := b mod BPB mod 8.

Lemma bm_same b b' : b / BPB = b' / BPB → bm_byte b = bm_byte b' → bm_bit b = bm_bit b' → b = b'.
Proof.
  unfold bm_byte, bm_bit. intros H1 H2 H3. pose proof (Z.div_mod b BPB ltac:(done)). pose proof (Z.div_mod b' BPB ltac:(done)).
  pose proof (Z.div_mod (b mod BPB) 8 ltac:(done)). pose proof (Z.div_mod (b' mod BPB) 8 ltac:(done)). lia.
Qed.

Lemma bm_bit_range b : 0 <= bm_bit b < 8.
Proof. apply Z.mod_pos_bound. lia. Qed.

(** Changing the bit of [b] changes nothing else in the bitmap. *)
Lemma used_update sb l V b c v b' :
  layout sb l → 0 <= b < sb_size sb → 0 <= b' < sb_size sb →
  (∀ j, 0 <= j < 8 → Z.testbit (w8 c) j = if decide (j = bm_bit b) then v else Z.testbit (mget (V (BBLOCK b sb)) (bm_byte b)) j) →
  used sb (fset V (BBLOCK b sb) (mput (V (BBLOCK b sb)) (bm_byte b) c)) b' = if decide (b' = b) then v else used sb V b'.
Proof.
  intros Hl Hb Hb' Hc. unfold used. fold (bm_byte b') (bm_bit b').
  destruct (BBLOCK_eq _ _ _ Hl Hb) as [E _], (BBLOCK_eq _ _ _ Hl Hb') as [E' _].
  destruct (decide (BBLOCK b' sb = BBLOCK b sb)) as [Heq|Hne].
  - rewrite Heq, fset_eq, mget_mput. destruct (decide (bm_byte b = bm_byte b')) as [Hby|Hby].
    + rewrite Hc by apply bm_bit_range. destruct (decide (bm_bit b' = bm_bit b)) as [Hbi|Hbi].
      * rewrite decide_True; [done|]. apply bm_same; [lia|done|done].
      * rewrite decide_False by (intros ->; done). by rewrite Hby.
    + by rewrite decide_False by (intros ->; done).
  - rewrite fset_ne by done. by rewrite decide_False by (intros ->; done).
Qed.

(** A block that is not of the bitmap does not matter to it. *)
Lemma used_other sb l V bn d b :
  layout sb l → 0 <= b < sb_size sb → ¬ is_bm sb bn → used sb (fset V bn d) b = used sb V b.
Proof.
  intros Hl Hb Hn. unfold used. rewrite fset_ne; [done|]. intros E. apply Hn. rewrite <- E. by eapply BBLOCK_eq.
Qed.

Section Blocks.
Context {C U : Type} {BC : BlockCache C} {BOK : BlockCacheOk C} {UM : UserMem U}.
Abbreviation fs := (fsst C U).
Implicit Types (s : fs) (t : tx) (bn : Z).

(** Block [a] was free; it is zeroed, marked and logged, and other blocks are as
    before. *)
Record allocd (s : fs) t (k : Z) (a : Z) (s' : fs) t' : Prop := {
  al_step : fstep s t s' t';
  al_ftx : ftx s' t';
  al_budget : budget s' t' (k - 1);
  al_inodes : f_inodes s' = f_inodes s;
  al_held : t_held t' = t_held t;
  al_data : dstart (f_sb s) <= a < sb_size (f_sb s);
  al_free : used (f_sb s) (t_view t) a = false;
  al_first : ∀ b, 0 <= b < a → used (f_sb s) (t_view t) b = true;
  al_used : ∀ b, 0 <= b < sb_size (f_sb s) →
    used (f_sb s) (t_view t') b = if decide (b = a) then true else used (f_sb s) (t_view t) b;
  al_view : ∀ b, ¬ is_bm (f_sb s) b → b ≠ a → t_view t' b = t_view t b;
  al_zero : ∀ o, 0 <= o < BSIZE → mget (t_view t' a) o = 0;
  al_logged : a ∈ t_logged t'
}.

Lemma bzero_ok s t a k :
  ftx s t → budget s t k → 1 <= k → a ∉ t_held t → (length (t_held t) <= 2)%nat →
  dstart (f_sb s) <= a < sb_size (f_sb s) →
  wp (bzero ROOTDEV a) s (λ _ s', ∃ t', fstep s t s' t' ∧ ftx s' t' ∧ budget s' t' (k - 1) ∧
    f_inodes s' = f_inodes s ∧ t' = t_write a (memset (t_view t a) 0 0 BSIZE) t).
Proof.
  intros Hf Hbu Hk Hnh Hlen Ha. pose proof (ft_layout _ _ Hf) as Hly. destruct (data_home _ _ _ Hly Ha) as [Hh Hnb].
  unfold bzero. rewrite w32_small by (destruct Hly; unfold home in Hh; lia).
  assert (charge (f_sb s) t a <= 1) as Hc by (unfold charge; case_decide; lia).
  eapply wp_mono; [apply (update_block_ok s t a (λ d, memset d 0 0 BSIZE) k); try done; [lia|]|].
  - intros b Hb. rewrite (used_other _ _ _ _ _ _ Hly); [by apply Hf|destruct Hly; lia|done].
  - intros _ s1 (P1 & Hf1 & B1 & I1). eexists. split_and!; [done|done| |done|done]. eapply budget_le; [|done]. lia.
Qed.

(** Held blocks are marked and not of the bitmap. *)
Definition held_ok (s : fs) t : Prop :=
  ∀ b, b ∈ t_held t → ¬ is_bm (f_sb s) b ∧ used (f_sb s) (t_view t) b = true.

(** The end of [balloc], once a free bit is found in the block of the bitmap that
    was read in [t]. *)
Lemma balloc_take_ok s0 s t h b bi k :
  let a := b + bi in let BB := BBLOCK a (f_sb s) in let d := t_view t BB in
  fstep s0 t s (t_hold BB t) → f_inodes s = f_inodes s0 →
  ftx s (t_hold BB t) → fat s (t_hold BB t) h BB → budget s (t_hold BB t) k → 1 <= k →
  held_ok s t → (length (t_held t) <= 2)%nat → bi = a mod BPB →
  0 <= a < sb_size (f_sb s) → used (f_sb s) (t_view t) a = false → (∀ c, 0 <= c < a → used (f_sb s) (t_view t) c = true) →
  wp (bset h (mput d (bi / 8) (Z.lor (mget d (bi / 8)) (Z.shiftl 1 (bi mod 8))));;
      lwrite h;; brelse h;; bzero ROOTDEV (b + bi);; mret (inr (Some (b + bi)) : Z + option Z)) s
    (λ r s', ∃ t', r = inr (Some a) ∧ allocd s0 t k a s' t').
Proof.
  intros a BB d P0 I0 Hf Hat Hbu Hk Hho Hlen Hbi Ha Hfree Hfirst. pose proof (fp_sb _ _ _ _ P0) as S0.
  pose proof (ft_layout _ _ Hf) as Hly.
  assert (Hd : dstart (f_sb s) <= a).
  { destruct (Z.le_gt_cases (dstart (f_sb s)) a) as [|Hlt]; [done|].
    pose proof (ft_meta _ _ Hf a ltac:(lia)) as Hm. cbn in Hm. congruence. }
  destruct (BBLOCK_eq _ _ _ Hly Ha) as [_ HBB]. fold BB in HBB.
  assert (Hnh : BB ∉ t_held t) by (intros Hin; by apply (Hho _ Hin)).
  assert (Hna : a ∉ t_held t) by (intros Hin; destruct (Hho _ Hin) as [_ Hu]; congruence).
  destruct (data_home _ _ a Hly ltac:(lia)) as [_ Hnb].
  assert (Hus : ∀ b', 0 <= b' < sb_size (f_sb s) →
    used (f_sb s) (fset (t_view t) BB (mput d (bi / 8) (Z.lor (mget d (bi / 8)) (Z.shiftl 1 (bi mod 8))))) b' =
    if decide (b' = a) then true else used (f_sb s) (t_view t) b').
  { intros b' Hb'. rewrite Hbi. fold (bm_byte a) (bm_bit a). unfold d, BB.
    apply (used_update _ _ _ _ _ _ _ Hly Ha Hb'). intros j Hj. apply set_bit_testbit; [apply bm_bit_range|done]. }
  set (d' := mput d (bi / 8) _) in *.
  assert (Hch : charge (f_sb s) t BB = 0) by (unfold charge; by rewrite decide_True by tauto).
  apply wp_seq3. eapply wp_mono; [apply (write_back_ok s t h BB d' k); try done; [lia|]|].
  { intros b' Hb'. rewrite Hus by (destruct Hly; lia). case_decide; [done|]. by apply (ft_meta _ _ Hf). }
  intros _ s1 (P1 & Hf1 & B1 & I1). rewrite Hch, Z.sub_0_r in B1. pose proof (fp_sb _ _ _ _ P1) as S1.
  apply wp_bind. eapply wp_mono; [apply (bzero_ok s1 _ a k Hf1 B1); try done|].
  { rewrite S1. lia. }
  intros _ s2 (t2 & P2 & Hf2 & B2 & I2 & ->). apply wp_ret. eexists. split; [done|].
  split; cbn [t_write t_log t_put t_view t_held]; try done; rewrite <- ?S0; try done.
  - assert (Hsub : ∀ x, x ∈ t_held t → x ∈ t_held (t_hold BB t)) by (intros x; cbn; rewrite elem_of_cons; tauto).
    eapply fstep_trans; [|eapply fstep_trans; [exact Hsub|exact P0|exact P1]|exact P2]. done.
  - congruence.
  - lia.
  - intros b' Hb'. etrans; [apply (used_other _ _ _ a _ _ Hly Hb' Hnb)|]. by apply Hus.
  - intros b' Hb' Hne. rewrite !view_write, !fset_ne; [done| |done]. intros ->. done.
  - intros o Ho. rewrite view_write, fset_eq, mget_memset. rewrite decide_True; [done|lia].
  - apply logged_write. by left.
Qed.

Lemma BBLOCK_within sb b bi : b mod BPB = 0 → 0 <= bi < BPB → BBLOCK (b + bi) sb = BBLOCK b sb ∧ (b + bi) mod BPB = bi.
Proof.
  intros Hb Hbi. apply Z.mod_divide in Hb as [q ->]; [|done]. unfold BBLOCK.
  rewrite (Z.add_comm (q * BPB) bi), Z.mod_add, Z.div_add, Z.div_mul, Z.div_small, Z.mod_small by done. done.
Qed.

(** The bits of one block of the bitmap, from [b] on. *)
Lemma balloc_scan_ok s0 s t h b k :
  let BB := BBLOCK b (f_sb s) in
  fstep s0 t s (t_hold BB t) → f_inodes s = f_inodes s0 →
  ftx s (t_hold BB t) → fat s (t_hold BB t) h BB → budget s (t_hold BB t) k → 1 <= k →
  held_ok s t → (length (t_held t) <= 2)%nat → b mod BPB = 0 → 0 <= b < sb_size (f_sb s) →
  (∀ c, 0 <= c < b → used (f_sb s) (t_view t) c = true) →
  wp (loop (Z.to_nat (BPB + 1)) (balloc_bit ROOTDEV h b) 0) s (λ r s', match r with
    | Some a => ∃ t', allocd s0 t k a s' t'
    | None => s' = s ∧ ∀ c, 0 <= c < sb_size (f_sb s) → c < b + BPB → used (f_sb s) (t_view t) c = true
    end).
Proof.
  intros BB P0 I0 Hf Hat Hbu Hk Hho Hlen Hbm Hb Hbelow. pose proof (ft_layout _ _ Hf) as Hly.
  apply (wp_loop _ (λ n bi s', s' = s ∧ 0 <= bi <= BPB ∧ Z.of_nat n = BPB - bi ∧
    ∀ c, 0 <= c < sb_size (f_sb s) → c < b + bi → used (f_sb s) (t_view t) c = true) _) with (n := Z.to_nat BPB).
  2: { split_and!; [done|done|done|done|]. intros c Hc Hlt. apply Hbelow. lia. }
  2: { rewrite BPB_eq. lia. }
  intros n bi s' (-> & Hbi & Hn & Hall). unfold balloc_bit. apply wp_bind, wp_gets.
  assert (Hsmall : 0 <= b + bi < 2 ^ 32) by (destruct Hly; rewrite BPB_eq in *; lia). rewrite (w32_small _ Hsmall).
  destruct (Z.ltb_spec bi BPB) as [Hlt|Hge]; cbn [andb].
  2: { apply wp_ret. split; [done|]. intros c Hc Hlt. apply Hall; lia. }
  destruct (Z.ltb_spec (b + bi) (sb_size (f_sb s))) as [Hlt'|Hge'].
  2: { apply wp_ret. split; [done|]. intros c Hc Hlt'. apply Hall; lia. }
  destruct (BBLOCK_within (f_sb s) b bi Hbm ltac:(lia)) as [EB Emod].
  apply wp_bind. eapply wp_mono; [exact (fbdata_ok s _ h BB Hf Hat)|]. intros d s' [-> ->]. cbn [t_view t_hold].
  rewrite land_bit by (apply Z.mod_pos_bound; lia).
  assert (Eu : Z.testbit (mget (t_view t BB) (bi / 8)) (bi mod 8) = used (f_sb s) (t_view t) (b + bi)).
  { unfold used. by rewrite EB, Emod. }
  rewrite Eu. destruct (used (f_sb s) (t_view t) (b + bi)) eqn:E; cbn [negb].
  - apply wp_ret. exists (Nat.pred n). split; [lia|]. split_and!; [done|lia|lia|lia|].
    intros c Hc Hc2. destruct (decide (c = b + bi)) as [->|]; [done|]. apply Hall; lia.
  - unfold BB in *. rewrite <- EB in *.
    eapply wp_mono; [apply (balloc_take_ok s0 s t h b bi k); try done; [lia|]|].
    + intros c Hc. apply Hall; lia.
    + intros r s' (t' & -> & Hal). by exists t'.
Qed.

Lemma balloc_ok s t k :
  ftx s t → budget s t k → 1 <= k → held_ok s t → (length (t_held t) <= 2)%nat →
  (∃ b, 0 <= b < sb_size (f_sb s) ∧ used (f_sb s) (t_view t) b = false) →
  wp (balloc ROOTDEV) s (λ a s', ∃ t', allocd s t k a s' t').
Proof.
  intros Hf Hbu Hk Hho Hlen (b0 & Hb0 & Hfree). pose proof (ft_layout _ _ Hf) as Hly.
  unfold balloc. apply wp_bind, wp_gets.
  apply (wp_loop _ (λ n b s1, fstep s t s1 t ∧ ftx s1 t ∧ f_inodes s1 = f_inodes s ∧ b mod BPB = 0 ∧ 0 <= b ∧
    Z.of_nat n = sb_size (f_sb s) / BPB + 1 - b / BPB ∧
    ∀ c, 0 <= c < sb_size (f_sb s) → c < b → used (f_sb s) (t_view t) c = true) _)
    with (n := Z.to_nat (sb_size (f_sb s) / BPB + 1)).
  2: { destruct (layout_pos _ _ Hly) as (_ & H2 & _). unfold nbm in H2.
       split_and!; [apply fstep_refl|done|done|done|done| |lia]. rewrite Zdiv_0_l. lia. }
  2: { destruct (layout_pos _ _ Hly) as (_ & H2 & _). unfold nbm in H2. lia. }
  intros n b s1 (P1 & Hf1 & I1 & Hbm & Hb & Hn & Hall). pose proof (fp_sb _ _ _ _ P1) as S1.
  assert (Hlt : b < sb_size (f_sb s)).
  { destruct (Z.lt_ge_cases b (sb_size (f_sb s))) as [|Hge]; [done|]. rewrite Hall in Hfree by lia. done. }
  unfold balloc_block. apply wp_bind, wp_gets. rewrite S1.
  rewrite w32_small by (destruct Hly; lia). rewrite (proj2 (Z.ltb_lt _ _)) by done.
  destruct (BBLOCK_eq _ _ _ Hly (conj Hb Hlt)) as [_ HBB]. set (BB := BBLOCK b (f_sb s)) in *.
  assert (Hnh : BB ∉ t_held t) by (intros Hin; by apply (Hho _ Hin)).
  apply wp_bind. eapply wp_mono; [apply (fbread_ok s1 t BB Hf1); [|done|done]|].
  { rewrite S1. by eapply bm_home. }
  intros h s2 (P2 & Hf2 & Hat2 & I2). pose proof (fp_sb _ _ _ _ P2) as S2. rewrite S1 in S2.
  assert (Eq : BB = BBLOCK b (f_sb s2)) by (by rewrite S2).
  apply wp_bind. eapply wp_mono; [apply (balloc_scan_ok s s2 t h b k); rewrite <- ?Eq; try done|].
  - eapply fstep_trans; [|exact P1|exact P2]. done.
  - congruence.
  - eapply budget_read; [exact P2|]. by eapply budget_same.
  - unfold held_ok. by rewrite S2.
  - by rewrite S2.
  - intros c Hc. rewrite S2. apply Hall; lia.
  - intros [a|] s3; [intros (t' & Hal); apply wp_ret; by exists t'|]. intros [-> Hall3]. rewrite S2 in Hall3.
    apply wp_bind. eapply wp_mono; [apply (release_ok s2 t h BB Hf2 Hat2 Hnh)|].
    + by apply (ftx_clean s t).
    + intros _ s4 (P4 & Hf4 & I4). apply wp_ret. exists (Nat.pred n).
      pose proof (fstep_through _ _ _ _ _ _ P2 P4) as P24.
      assert (Hdiv : (b + BPB) / BPB = b / BPB + 1) by (rewrite <- (Z.mul_1_l BPB) at 1; by rewrite Z.div_add).
      assert (b / BPB <= sb_size (f_sb s) / BPB) by (apply Z.div_le_mono; [done|lia]).
      split; [lia|]. split_and!; try done.
      * eapply fstep_trans; [|exact P1|exact P24]. done.
      * congruence.
      * rewrite <- (Z.mul_1_l BPB) at 1. by rewrite Z.mod_add.
      * rewrite BPB_eq. lia.
      * rewrite Hdiv. lia.
Qed.

(** ** bfree *)

Record freed (s : fs) t (k : Z) (a : Z) (s' : fs) t' : Prop := {
  fr_step : fstep s t s' t';
  fr_ftx : ftx s' t';
  fr_budget : budget s' t' k;
  fr_inodes : f_inodes s' = f_inodes s;
  fr_held : t_held t' = t_held t;
  fr_used : ∀ b, 0 <= b < sb_size (f_sb s) →
    used (f_sb s) (t_view t') b = if decide (b = a) then false else used (f_sb s) (t_view t) b;
  fr_view : ∀ b, ¬ is_bm (f_sb s) b → t_view t' b = t_view t b
}.

Lemma bfree_ok s t a k :
  ftx s t → budget s t k → 0 <= k → (∀ b, b ∈ t_held t → ¬ is_bm (f_sb s) b) → (length (t_held t) <= 2)%nat →
  dstart (f_sb s) <= a < sb_size (f_sb s) → used (f_sb s) (t_view t) a = true →
  wp (bfree ROOTDEV a) s (λ _ s', ∃ t', freed s t k a s' t').
Proof.
  intros Hf Hbu Hk Hho Hlen Ha Hus. pose proof (ft_layout _ _ Hf) as Hly.
  assert (Ha0 : 0 <= a < sb_size (f_sb s)) by (destruct (layout_pos _ _ Hly) as (? & ? & ?); lia).
  destruct (BBLOCK_eq _ _ _ Hly Ha0) as [_ HBB]. unfold bfree. apply wp_bind, wp_gets. set (BB := BBLOCK a (f_sb s)) in *.
  assert (Hnh : BB ∉ t_held t) by (intros Hin; by apply (Hho _ Hin)).
  apply wp_bind. eapply wp_mono; [apply (fbread_ok s t BB Hf); [by eapply bm_home|done|done]|].
  intros h s1 (P1 & Hf1 & Hat1 & I1). pose proof (fp_sb _ _ _ _ P1) as S1.
  apply wp_bind. eapply wp_mono; [exact (fbdata_ok s1 _ h BB Hf1 Hat1)|]. intros d s1' [-> ->]. cbn [t_view t_hold].
  rewrite land_bit by apply bm_bit_range. fold (bm_bit a) (bm_byte a).
  assert (Eu : Z.testbit (mget (t_view t BB) (bm_byte a)) (bm_bit a) = true) by exact Hus. rewrite Eu. cbn [negb].
  set (d' := mput _ _ _).
  assert (Hus' : ∀ b', 0 <= b' < sb_size (f_sb s) →
    used (f_sb s) (fset (t_view t) BB d') b' = if decide (b' = a) then false else used (f_sb s) (t_view t) b').
  { intros b' Hb'. apply (used_update _ _ _ _ _ _ _ Hly Ha0 Hb'). intros j Hj. apply clear_bit_testbit; [apply bm_bit_range|done]. }
  assert (Hch : charge (f_sb s1) t BB = 0) by (unfold charge; rewrite S1; by rewrite decide_True by tauto).
  eapply wp_mono; [apply (write_back_ok s1 t h BB d' k Hf1 Hat1 Hnh)|].
  - by eapply budget_read.
  - lia.
  - rewrite S1. intros b' Hb'. rewrite Hus' by (destruct Hly; lia). rewrite decide_False by lia. by apply Hf.
  - intros _ s2 (P2 & Hf2 & B2 & I2). rewrite Hch, Z.sub_0_r in B2. eexists. split; try done.
    + by eapply fstep_through.
    + congruence.
    + intros b Hb. rewrite view_write. apply fset_ne. by intros ->.
Qed.

End Blocks.
