(* ===== verification/FsInode.v ===== *)
(** Inodes on disk: encoding, [iupdate] and [ilock].

    The table of in-memory inodes: [iget] gives every inode of the disk at most one
    entry, which its users share. *)

From S2P Require Import Prelude Riscv Memory Str Cache Log LogSpec LogCrash Txn Fs FsSpec FsBlocks.

(** Fields within the ranges of their C types. *)
Record dinode_wf (d : dinode) : Prop := {
  dw_type : - 2 ^ 15 <= d_type d < 2 ^ 15;
  dw_major : - 2 ^ 15 <= d_major d < 2 ^ 15;
  dw_minor : - 2 ^ 15 <= d_minor d < 2 ^ 15;
  dw_nlink : - 2 ^ 15 <= d_nlink d < 2 ^ 15;
  dw_size : 0 <= d_size d < 2 ^ 32;
  dw_len : length (d_addrs d) = 13%nat;
  dw_addrs : Forall (λ a, 0 <= a < 2 ^ 32) (d_addrs d)
}.

Lemma i16_id z : - 2 ^ 15 <= z < 2 ^ 15 → i16 (z mod 2 ^ 16) = z.
Proof.
  intros Hz. unfold i16. rewrite Zplus_mod_idemp_l. rewrite Z.mod_small by lia. lia.
Qed.

Lemma i16_range z : - 2 ^ 15 <= i16 z < 2 ^ 15.
Proof. unfold i16. pose proof (Z.mod_pos_bound (z + 2 ^ 15) (2 ^ 16) ltac:(lia)). lia. Qed.

Lemma mget_put_addrs l : ∀ b o x, x < o ∨ o + 4 * Z.of_nat (length l) <= x → mget (put_addrs b o l) x = mget b x.
Proof.
  induction l as [|a l IH]; intros b o x Hx; [done|]. cbn [put_addrs length] in *. rewrite IH by lia.
  rewrite mget_le_store, decide_False; [done|lia].
Qed.

Lemma load_put_addrs l : ∀ b o i a, Forall (λ a, 0 <= a < 2 ^ 32) l → l !! i = Some a →
  le_load 4 (put_addrs b o l) (o + 4 * Z.of_nat i) = a.
Proof.
  induction l as [|a' l IH]; intros b o i a Hall Hi; [done|]. apply list.Forall_cons in Hall as [Ha' Hall].
  destruct i as [|i]; cbn [lookup list_lookup put_addrs] in *.
  - injection Hi as ->. rewrite Z.mul_0_r, Z.add_0_r.
    rewrite (le_load_ext 4 _ (le_store 4 b o a)), le_load_store_eq.
    + by apply Z.mod_small.
    + intros k Hk. apply mget_put_addrs. lia.
  - rewrite <- (IH (le_store 4 b o a') (o + 4) i a Hall Hi). f_equal. lia.
Qed.

Lemma mget_put_dinode b o d x :
  length (d_addrs d) = 13%nat → x < o ∨ o + 64 <= x → mget (put_dinode b o d) x = mget b x.
Proof.
  intros Hlen Hx. unfold put_dinode. rewrite mget_put_addrs by lia.
  rewrite !mget_le_store, !decide_False by lia. done.
Qed.

Lemma load_put_dinode n b o d k :
  length (d_addrs d) = 13%nat → 0 <= k → k + Z.of_nat n <= 12 →
  le_load n (put_dinode b o d) (o + k) =
  le_load n (le_store 4 (le_store 2 (le_store 2 (le_store 2 (le_store 2 b o (d_type d)) (o + 2) (d_major d)) (o + 4) (d_minor d))
    (o + 6) (d_nlink d)) (o + 8) (d_size d)) (o + k).
Proof. intros Hlen Hk Hn. apply le_load_ext. intros j Hj. unfold put_dinode. apply mget_put_addrs. lia. Qed.

Lemma get_put_dinode b o d : dinode_wf d → get_dinode (put_dinode b o d) o = d.
Proof.
  intros []. unfold get_dinode. destruct d as [ty ma mi nl sz ad]. cbn [d_type d_major d_minor d_nlink d_size d_addrs] in *.
  assert (H0 : ∀ n, (n <= 12)%nat → le_load n (put_dinode b o (mk_dinode ty ma mi nl sz ad)) o = _)
    by (intros n Hn; rewrite <- (Z.add_0_r o) at 2; apply load_put_dinode; done || lia).
  rewrite H0 by lia. rewrite !load_put_dinode by (done || lia). rewrite Z.add_0_r.
  cbn [d_type d_major d_minor d_nlink d_size d_addrs].
  f_equal; try (repeat first [rewrite le_load_store_eq | rewrite le_load_store_ne by lia];
    try by apply i16_id).
  - by apply Z.mod_small.
  - apply list_eq. intros i. rewrite list_lookup_fmap. destruct (decide (i < 13)%nat) as [Hi|Hi].
    + rewrite lookup_seqZ_lt by lia. destruct (lookup_lt_is_Some_2 ad i) as [a Ha]; [lia|]. rewrite Ha.
      cbn [fmap option_fmap option_map]. f_equal. rewrite Z.add_0_l.
      unfold put_dinode. cbn [d_type d_major d_minor d_nlink d_size d_addrs]. by apply load_put_addrs.
    + rewrite lookup_seqZ_ge by lia. symmetry. apply lookup_ge_None. lia.
Qed.

Lemma get_dinode_ext b b' o :
  (∀ x, o <= x < o + 64 → mget b x = mget b' x) → get_dinode b o = get_dinode b' o.
Proof.
  intros Hx. assert (He : ∀ n k, 0 <= k → k + Z.of_nat n <= 64 → le_load n b (o + k) = le_load n b' (o + k)).
  { intros n k Hk Hn. apply le_load_ext. intros j Hj. apply Hx. lia. }
  unfold get_dinode. rewrite <- (Z.add_0_r o) at 1 6. rewrite !He by lia. f_equal.
  apply list_fmap_ext. intros i x Hi. apply lookup_seqZ in Hi. rewrite <- !Z.add_assoc. apply He; lia.
Qed.

Lemma get_dinode_wf b o : dinode_wf (get_dinode b o).
Proof.
  split; unfold get_dinode; cbn [d_type d_major d_minor d_nlink d_size d_addrs]; try apply i16_range; try done.
  - apply (le_load_range 4).
  - apply list.Forall_fmap, list.Forall_forall. intros k _. apply (le_load_range 4).
Qed.

(** Disk inode [inum]. *)
Definition dinode_on (sb : superblock) (V : Z → block) (inum : Z) : dinode :=
  get_dinode (V (IBLOCK inum sb)) (64 * (inum mod IPB)).

Lemma IPB_eq : IPB = 16.
Proof. done. Qed.

Lemma IBLOCK_eq sb l i : layout sb l → 0 <= i < sb_ninodes sb →
  IBLOCK i sb = i / IPB + sb_inodestart sb ∧ home sb (IBLOCK i sb) ∧ ¬ is_bm sb (IBLOCK i sb) ∧
  0 <= IBLOCK i sb < sb_bmapstart sb.
Proof.
  intros Hl Hi. destruct (layout_pos _ _ Hl) as (H1 & H2 & H3). destruct Hl. unfold is_bm, home.
  assert (0 <= i / IPB) by (apply Z.div_pos; [lia|done]).
  assert (i / IPB <= sb_ninodes sb / IPB) by (apply Z.div_le_mono; [done|lia]).
  unfold IBLOCK. rewrite w32_small by lia. split_and!; lia.
Qed.

(** Writing one disk inode leaves the others alone. *)
Lemma dinode_on_update sb l V i j d :
  layout sb l → 0 <= i < sb_ninodes sb → 0 <= j < sb_ninodes sb → dinode_wf d →
  dinode_on sb (fset V (IBLOCK i sb) (put_dinode (V (IBLOCK i sb)) (64 * (i mod IPB)) d)) j =
  if decide (j = i) then d else dinode_on sb V j.
Proof.
  intros Hl Hi Hj Hd. unfold dinode_on.
  destruct (IBLOCK_eq _ _ _ Hl Hi) as [Ei _], (IBLOCK_eq _ _ _ Hl Hj) as [Ej _].
  destruct (decide (j = i)) as [->|Hne]; [rewrite fset_eq; by apply get_put_dinode|].
  destruct (decide (IBLOCK j sb = IBLOCK i sb)) as [Heq|]; [|by rewrite fset_ne].
  rewrite Heq, fset_eq. apply get_dinode_ext. intros x Hx. apply mget_put_dinode; [apply Hd|].
  pose proof (Z.div_mod i IPB ltac:(done)). pose proof (Z.div_mod j IPB ltac:(done)).
  pose proof (Z.mod_pos_bound i IPB ltac:(done)). pose proof (Z.mod_pos_bound j IPB ltac:(done)). rewrite IPB_eq in *. lia.
Qed.

Section Inode.
Context {C U : Type} {BC : BlockCache C} {BOK : BlockCacheOk C} {UM : UserMem U}.
Abbreviation fs := (fsst C U).
Implicit Types (s : fs) (t : tx) (bn : Z) (ip : nat) (i : inode).

(** Entry [ip] of the inode table. *)
Definition iat s ip i : Prop := f_inodes s !! ip = Some i.

Lemma wp_geti s ip i (Q : inode → fs → Prop) : iat s ip i → Q i s → wp (geti ip) s Q.
Proof. intros Hi HQ. apply wp_gets. rewrite Hi. done. Qed.

Lemma wp_updi s ip i f (Q : unit → fs → Prop) :
  iat s ip i → Q tt (set_inodes (<[ip := f i]> (f_inodes s)) s) → wp (updi ip f) s Q.
Proof.
  intros Hi HQ. apply wp_modify. by rewrite (alter_insert _ _ _ _ Hi).
Qed.

(** The inode and the blocks outside the bitmap but [bn] are kept. *)
Record wrote_inode s t (k : Z) i s' t' : Prop := {
  wi_step : fstep s t s' t';
  wi_ftx : ftx s' t';
  wi_budget : budget s' t' (k - 1);
  wi_inodes : f_inodes s' = f_inodes s;
  wi_held : t_held t' = t_held t;
  wi_view : ∀ b, b ≠ IBLOCK (i_inum i) (f_sb s) → t_view t' b = t_view t b;
  wi_inode : ∀ j, 0 <= j < sb_ninodes (f_sb s) →
    dinode_on (f_sb s) (t_view t') j = if decide (j = i_inum i) then i_d i else dinode_on (f_sb s) (t_view t) j;
  wi_used : ∀ b, 0 <= b < sb_size (f_sb s) → used (f_sb s) (t_view t') b = used (f_sb s) (t_view t) b
}.

Lemma iupdate_ok s t ip i k :
  ftx s t → budget s t k → 1 <= k → t_held t = [] → iat s ip i → i_dev i = ROOTDEV →
  0 <= i_inum i < sb_ninodes (f_sb s) → dinode_wf (i_d i) →
  wp (iupdate ip) s (λ _ s', ∃ t', wrote_inode s t k i s' t').
Proof.
  intros Hf Hbu Hk Hh Hi Hdev Hin Hwf. pose proof (ft_layout _ _ Hf) as Hly.
  destruct (IBLOCK_eq _ _ _ Hly Hin) as (_ & Hhome & Hnb & _).
  unfold iupdate. apply wp_bind. eapply wp_geti; [done|]. apply wp_bind, wp_gets. rewrite Hdev.
  assert (charge (f_sb s) t (IBLOCK (i_inum i) (f_sb s)) <= 1) as Hc by (unfold charge; case_decide; lia).
  eapply wp_mono; [apply (update_block_ok s t _ (λ d, put_dinode d (64 * (i_inum i mod IPB)) (i_d i)) k); try done|].
  - rewrite Hh. apply not_elem_of_nil.
  - rewrite Hh. simpl. lia.
  - lia.
  - intros b Hb. rewrite (used_other _ _ _ _ _ _ Hly); [by apply Hf|destruct Hly; lia|done].
  - intros _ s1 (P1 & Hf1 & B1 & I1). eexists. split; try done.
    + eapply budget_le; [|done]. lia.
    + intros b Hb. rewrite view_write. by apply fset_ne.
    + intros j Hj. rewrite view_write. by eapply dinode_on_update.
    + intros b Hb. rewrite view_write. by eapply used_other.
Qed.

End Inode.

(** An entry in use for inode [inum] of [dev]. *)
Definition caches (i : inode) (dev inum : Z) : bool := (0 <? i_ref i) && (i_dev i =? dev) && (i_inum i =? inum).

(** No inode has two entries in use; reference counts stay below the largest int. *)
Record itable_ok (l : list inode) : Prop := {
  it_unique : ∀ j k i i' dev inum, l !! j = Some i → l !! k = Some i' →
    caches i dev inum = true → caches i' dev inum = true → j = k;
  it_refs : ∀ k i, l !! k = Some i → 0 <= i_ref i < 2 ^ 31 - 1
}.

Definition uncached (l : list inode) (dev inum : Z) : Prop := ∀ k i, l !! k = Some i → caches i dev inum = false.
Definition full (l : list inode) : Prop := ∀ k i, l !! k = Some i → i_ref i ≠ 0.

Lemma caches_iff i dev inum : caches i dev inum = true ↔ 0 < i_ref i ∧ i_dev i = dev ∧ i_inum i = inum.
Proof. unfold caches. rewrite !andb_true_iff, Z.ltb_lt, !Z.eqb_eq. tauto. Qed.

(** The first entry that caches the inode, else the first free one after [empty]. *)
Lemma iget_scan_ok l k empty dev inum :
  match iget_scan l k empty dev inum with
  | inl j => ∃ n i, j = (k + n)%nat ∧ l !! n = Some i ∧ caches i dev inum = true
  | inr o => uncached l dev inum ∧
      match empty with
      | Some e => o = Some e
      | None =>
        match o with
        | Some j => ∃ n i, j = (k + n)%nat ∧ l !! n = Some i ∧ i_ref i = 0
        | None => full l
        end
      end
  end.
Proof.
  revert k empty. induction l as [|i l IH]; intros k empty; cbn [iget_scan].
  { split; [intros n i H; done|]. destruct empty; [done|]. intros n i H. done. }
  change ((0 <? i_ref i) && (i_dev i =? dev) && (i_inum i =? inum)) with (caches i dev inum).
  destruct (caches i dev inum) eqn:E. { exists 0%nat, i. split_and!; [lia|done|done]. }
  specialize (IH (S k) (match empty with None => if i_ref i =? 0 then Some k else None | Some e => Some e end)).
  destruct (iget_scan l (S k) _ dev inum) as [j|o].
  - destruct IH as (n & i' & -> & Hn & Hc). exists (S n), i'. split_and!; [lia|done|done].
  - destruct IH as [Hu He]. split; [intros [|n] i' Hn; simpl in Hn; [by simplify_eq|by eapply Hu]|].
    destruct empty as [e|]; [done|]. destruct (Z.eqb_spec (i_ref i) 0) as [H0|H0].
    + subst o. exists 0%nat, i. split_and!; [lia|done|done].
    + destruct o as [j|].
      * destruct He as (n & i' & -> & Hn & Hr). exists (S n), i'. split_and!; [lia|done|done].
      * intros [|n] i' Hn; simpl in Hn; [by simplify_eq|by eapply He].
Qed.

(** Entry [ip] was taken for inode [inum] of [dev]: one more reference to the entry
    that caches it, or a free entry set up with one. *)
Definition igot (l : list inode) (dev inum : Z) (ip : nat) (l' : list inode) : Prop :=
  ∃ i, l !! ip = Some i ∧
    (caches i dev inum = true ∧ l' = <[ip := set_ref (i_ref i + 1) i]> l ∨
     uncached l dev inum ∧ i_ref i = 0 ∧ l' = <[ip := mk_inode dev inum 1 (i_locked i) (i_pid i) 0 (i_d i)]> l).

Lemma iget_room l dev inum : iget_scan l 0 None dev inum ≠ inr None → ¬ (uncached l dev inum ∧ full l).
Proof.
  intros Hne [Hu Hf]. pose proof (iget_scan_ok l 0 None dev inum) as H. destruct (iget_scan _ _ _ _ _) as [j|[j|]]; [| |done].
  - destruct H as (n & i & _ & Hn & Hc). by rewrite (Hu _ _ Hn) in Hc.
  - destruct H as [_ (n & i & _ & Hn & Hr)]. by apply (Hf _ _ Hn).
Qed.

Lemma igot_caches l dev inum ip l' : igot l dev inum ip l' → ∃ i, l' !! ip = Some i ∧ caches i dev inum = true.
Proof.
  intros (i & Hi & Hg). pose proof (lookup_lt_Some _ _ _ Hi) as Hlt.
  destruct Hg as [[Hc ->]|(_ & _ & ->)]; rewrite list_lookup_insert_eq by done; eexists; (split; [done|]).
  - apply caches_iff in Hc. apply caches_iff. cbn. split_and!; try tauto. lia.
  - by apply caches_iff.
Qed.

Section Table.
Context {C U : Type} {BC : BlockCache C} {UM : UserMem U}.
Abbreviation fs := (fsst C U).
Implicit Types (s : fs).

Lemma iget_ok s dev inum :
  itable_ok (f_inodes s) → ¬ (uncached (f_inodes s) dev inum ∧ full (f_inodes s)) →
  wp (iget dev inum) s (λ ip s', ∃ l', s' = set_inodes l' s ∧ igot (f_inodes s) dev inum ip l').
Proof.
  intros Hok Hroom. unfold iget. apply wp_bind, wp_gets.
  pose proof (iget_scan_ok (f_inodes s) 0 None dev inum) as H. destruct (iget_scan _ _ _ _ _) as [j|[j|]].
  - destruct H as (n & i & -> & Hn & Hc). cbn [Nat.add]. apply wp_bind. eapply wp_updi; [exact Hn|]. apply wp_ret.
    eexists. split; [done|]. exists i. split; [done|]. left. split; [done|].
    pose proof (it_refs _ Hok _ _ Hn). rewrite i32_id by lia. done.
  - destruct H as [Hu (n & i & -> & Hn & Hr)]. cbn [Nat.add]. apply wp_bind. eapply wp_updi; [exact Hn|]. apply wp_ret.
    eexists. split; [done|]. exists i. split; [done|]. right. done.
  - destruct Hroom. done.
Qed.

Lemma igot_table l dev inum ip l' :
  itable_ok l → (∀ k i, l !! k = Some i → i_ref i < 2 ^ 31 - 2) → igot l dev inum ip l' → itable_ok l'.
Proof.
  intros [Hu Hr] Hb (i & Hi & Hc).
  assert (∃ i', l' = <[ip := i']> l ∧ 0 <= i_ref i' < 2 ^ 31 - 1 ∧ i_dev i' = dev ∧ i_inum i' = inum ∧
    ∀ k j, l !! k = Some j → caches j dev inum = true → k = ip) as (i' & -> & Hr' & Hd & Hn & Hone).
  { destruct Hc as [[Hc ->]|(Hun & H0 & ->)].
    - pose proof Hc as (? & ? & ?)%caches_iff. pose proof (Hb _ _ Hi). eexists. split; [done|]. cbn. split_and!; try done; try lia.
      intros k j Hk Hj. by eapply Hu.
    - eexists. split; [done|]. cbn. split_and!; try done; try lia. intros k j Hk Hj. by rewrite (Hun k j) in Hj. }
  assert (Hlt : (ip < length l)%nat) by (by eapply lookup_lt_Some).
  split.
  - intros j k a b dev' inum' Hj Hk Ha Hcb. destruct (decide (j = ip)) as [->|Hjp], (decide (k = ip)) as [->|Hkp]; [done| | |].
    + rewrite list_lookup_insert_eq in Hj by done. rewrite list_lookup_insert_ne in Hk by done. simplify_eq.
      apply caches_iff in Ha as (_ & <- & <-). symmetry. by eapply Hone.
    + rewrite list_lookup_insert_eq in Hk by done. rewrite list_lookup_insert_ne in Hj by done. simplify_eq.
      apply caches_iff in Hcb as (_ & <- & <-). by eapply Hone.
    + rewrite list_lookup_insert_ne in Hj, Hk by done. by eapply Hu.
  - intros k j Hk. destruct (decide (k = ip)) as [->|Hkp]; [rewrite list_lookup_insert_eq in Hk by done; by simplify_eq|].
    rewrite list_lookup_insert_ne in Hk by done. by eapply Hr.
Qed.

(** C23. iget on a well-formed table.  If the inode has an entry in use, that one is
    returned with one more reference; if not, a free entry is taken for it, with one
    reference and its contents marked as not yet read; if there is none, the kernel
    panics.  No other entry and nothing else changes, and no inode gets a second
    entry. *)
Theorem iget_unique_entry s dev inum :
  itable_ok (f_inodes s) → (∀ k i, f_inodes s !! k = Some i → i_ref i < 2 ^ 31 - 2) →
  (uncached (f_inodes s) dev inum ∧ full (f_inodes s) ∧ iget dev inum s = Panic "iget: no inodes") ∨
  ∃ ip l', iget dev inum s = Ok (ip, set_inodes l' s) ∧ igot (f_inodes s) dev inum ip l' ∧ itable_ok l' ∧
    ∀ k i, l' !! k = Some i → caches i dev inum = true → k = ip.
Proof.
  intros Hok Hb. destruct (decide (iget_scan (f_inodes s) 0 None dev inum = inr None)) as [E|E].
  - left. pose proof (iget_scan_ok (f_inodes s) 0 None dev inum) as H. rewrite E in H. destruct H.
    split_and!; [done|done|]. unfold iget, mbind, M_bind, gets. by rewrite E.
  - right. destruct (proj1 (wp_ok _ _ _) (iget_ok s dev inum Hok (iget_room _ _ _ E))) as (ip & s' & Hrun & l' & -> & Hg).
    exists ip, l'. pose proof (igot_table _ _ _ _ _ Hok Hb Hg) as Hok'. split_and!; try done.
    intros k i Hk Hc. destruct (igot_caches _ _ _ _ _ Hg) as (i' & Hi' & Hc'). by eapply (it_unique _ Hok').
Qed.

End Table.
