(* ===== verification/FsFile.v ===== *)
(** Contents of files: the map from the blocks of a file to disk blocks, and
    [bmap]. *)

From S2P Require Import Prelude Riscv Memory Str Cache Log LogSpec LogCrash Txn Fs FsSpec FsBlocks FsInode.

(** ** The block map of a file *)

(** Disk block of block [n] of the file, 0 if there is none. *)
Definition fblock (d : dinode) (V : Z → block) (n : Z) : Z :=
  if n <? NDIRECT then addr_of d n
  else if addr_of d NDIRECT =? 0 then 0
  else le_load 4 (V (addr_of d NDIRECT)) (4 * (n - NDIRECT)).

(** Byte [off] of the file; holes read as zero. *)
Definition fbyte (d : dinode) (V : Z → block) (off : Z) : Z :=
  let a := fblock d V (off / BSIZE) in if a =? 0 then 0 else mget (V a) (off mod BSIZE).

Definition is_data_block (sb : superblock) (V : Z → block) (b : Z) : Prop :=
  dstart sb <= b < sb_size sb ∧ used sb V b = true.

Record file_ok (sb : superblock) (V : Z → block) (d : dinode) : Prop := {
  fo_wf : dinode_wf d;
  fo_ind : addr_of d NDIRECT ≠ 0 → is_data_block sb V (addr_of d NDIRECT);
  fo_blk : ∀ n, 0 <= n < MAXFILE → fblock d V n ≠ 0 → is_data_block sb V (fblock d V n);
  fo_inj : ∀ n m, 0 <= n < MAXFILE → 0 <= m < MAXFILE → fblock d V n ≠ 0 → fblock d V n = fblock d V m → n = m;
  fo_ne : ∀ n, 0 <= n < MAXFILE → fblock d V n ≠ 0 → fblock d V n ≠ addr_of d NDIRECT
}.

(** The blocks a file owns. *)
Definition owns (d : dinode) (V : Z → block) (b : Z) : Prop :=
  b ≠ 0 ∧ (b = addr_of d NDIRECT ∨ ∃ n, 0 <= n < MAXFILE ∧ fblock d V n = b).

Lemma owns_data sb V d b : file_ok sb V d → owns d V b → is_data_block sb V b.
Proof. intros [] [Hb [->|(n & Hn & <-)]]; auto. Qed.

Lemma owns_fblock d V n : 0 <= n < MAXFILE → fblock d V n ≠ 0 → owns d V (fblock d V n).
Proof. intros Hn H0. split; [done|]. right. eauto. Qed.

(** A file whose blocks are kept is the same file. *)
Lemma file_frame sb V d V' :
  file_ok sb V d → (∀ b, owns d V b → V' b = V b) → (∀ b, is_data_block sb V b → is_data_block sb V' b) →
  file_ok sb V' d ∧ (∀ n, 0 <= n < MAXFILE → fblock d V' n = fblock d V n) ∧
  ∀ o, 0 <= o < MAXFILE * BSIZE → fbyte d V' o = fbyte d V o.
Proof.
  intros [Hwf Hind Hblk Hinj Hne] HV Hd.
  assert (Hb : ∀ n, 0 <= n < MAXFILE → fblock d V' n = fblock d V n).
  { intros n Hn. unfold fblock. destruct (n <? NDIRECT); [done|]. destruct (Z.eqb_spec (addr_of d NDIRECT) 0); [done|].
    rewrite HV; [done|]. split; [done|]. by left. }
  split_and!; [|done|].
  - split; [done|auto| | |].
    + intros n Hn. rewrite Hb by done. auto.
    + intros n m Hn Hm. rewrite !Hb by done. auto.
    + intros n Hn. rewrite Hb by done. auto.
  - intros o Ho. assert (Hr : 0 <= o / BSIZE < MAXFILE).
    { split; [apply Z.div_pos; [lia|done]|]. apply Z.div_lt_upper_bound; [done|lia]. }
    unfold fbyte. rewrite Hb by done. destruct (Z.eqb_spec (fblock d V (o / BSIZE)) 0); [done|].
    rewrite HV; [done|]. by apply owns_fblock.
Qed.

(** What a change of the file leaves alone: blocks that were in use and not the
    file's; new blocks of the file were free. *)
Record file_step (sb : superblock) (V : Z → block) (d : dinode) (V' : Z → block) (d' : dinode) : Prop := {
  st_owns : ∀ b, owns d' V' b → owns d V b ∨ used sb V b = false;
  st_frame : ∀ b, 0 <= b < sb_size sb → ¬ is_bm sb b → used sb V b = true → ¬ owns d V b → V' b = V b;
  st_used : ∀ b, 0 <= b < sb_size sb → used sb V b = true → used sb V' b = true
}.

Lemma file_step_refl sb V d : file_step sb V d V d.
Proof. split; auto. Qed.

Lemma file_step_trans sb V1 d1 V2 d2 V3 d3 :
  0 <= dstart sb → file_ok sb V3 d3 →
  file_step sb V1 d1 V2 d2 → file_step sb V2 d2 V3 d3 → file_step sb V1 d1 V3 d3.
Proof.
  intros Hd Hok3 [] []. split.
  - intros b Hb. destruct (st_owns1 b Hb) as [Ho|Hu]; [auto|]. right.
    destruct (used sb V1 b) eqn:E; [|done]. destruct (owns_data _ _ _ _ Hok3 Hb) as [Hr _].
    rewrite st_used0 in Hu by (done || lia). done.
  - intros b Hr Hn Hu Ho. rewrite st_frame1; [by apply st_frame0|done|done|by apply st_used0|].
    intros Ho2. destruct (st_owns0 b Ho2) as [|E]; [done|congruence].
  - auto.
Qed.

(** ** Adding a block to a file *)

(** The blocks after [balloc] returned [a]. *)
Record alloc_view (sb : superblock) (V : Z → block) (a : Z) (V' : Z → block) : Prop := {
  av_data : dstart sb <= a < sb_size sb;
  av_free : used sb V a = false;
  av_used : ∀ b, 0 <= b < sb_size sb → used sb V' b = if decide (b = a) then true else used sb V b;
  av_view : ∀ b, ¬ is_bm sb b → b ≠ a → V' b = V b;
  av_zero : ∀ o, 0 <= o < BSIZE → mget (V' a) o = 0
}.

Section Grow.
Context (sb : superblock) (l : log) (Hly : layout sb l).

Lemma dstart_pos : 0 < dstart sb.
Proof. destruct (layout_pos _ _ Hly) as (? & ? & ?). lia. Qed.

Lemma data_not_bm V b : is_data_block sb V b → ¬ is_bm sb b.
Proof. intros [Hb _]. by apply (data_home _ _ _ Hly Hb). Qed.

Lemma alloc_mono V a V' b : alloc_view sb V a V' → is_data_block sb V b → is_data_block sb V' b ∧ b ≠ a ∧ V' b = V b.
Proof.
  intros Ha Hb. pose proof (data_not_bm _ _ Hb) as Hnb. destruct Ha, Hb as [Hr Hu]. pose proof dstart_pos.
  assert (Hne : b ≠ a) by (intros ->; congruence).
  split_and!; [|done|by apply av_view0]. split; [done|]. rewrite av_used0, decide_False by (done || lia). done.
Qed.

Lemma alloc_new V a V' : alloc_view sb V a V' → is_data_block sb V' a.
Proof. intros []. pose proof dstart_pos. split; [done|]. rewrite av_used0, decide_True by (done || lia). done. Qed.

(** Blocks and bytes are found through data blocks only. *)
Lemma fblock_frame V d V' n :
  file_ok sb V d → (∀ b, is_data_block sb V b → V' b = V b) → fblock d V' n = fblock d V n.
Proof.
  intros [] HV. unfold fblock. destruct (Z.ltb_spec n NDIRECT); [done|].
  destruct (Z.eqb_spec (addr_of d NDIRECT) 0); [done|]. rewrite HV; auto.
Qed.

Lemma addr_of_set k v d j :
  length (d_addrs d) = 13%nat → 0 <= k < 13 → 0 <= j → addr_of (set_addr k v d) j = if decide (j = k) then v else addr_of d j.
Proof.
  intros Hlen Hk Hj. unfold addr_of, set_addr. cbn [d_addrs]. destruct (decide (j = k)) as [->|Hne].
  - rewrite list_lookup_insert_eq by lia. done.
  - rewrite list_lookup_insert_ne by lia. done.
Qed.

Lemma set_addr_wf k v d : dinode_wf d → 0 <= v < 2 ^ 32 → dinode_wf (set_addr k v d).
Proof.
  intros [] Hv. split; try done; unfold set_addr; cbn [d_addrs].
  - by rewrite length_insert.
  - by apply Forall_insert.
Qed.

(** A file whose block [n] is new. *)
Lemma file_ok_add V d a V' d' n :
  file_ok sb V d → dinode_wf d' → used sb V a = false → is_data_block sb V' a →
  (∀ b, is_data_block sb V b → is_data_block sb V' b) →
  addr_of d' NDIRECT = addr_of d NDIRECT → 0 <= n < MAXFILE → fblock d V n = 0 →
  (∀ m, 0 <= m < MAXFILE → fblock d' V' m = if decide (m = n) then a else fblock d V m) →
  file_ok sb V' d'.
Proof.
  intros [] Hwf Hfree Hnew Hmono Hind Hn Hn0 Hblk.
  assert (Hne : ∀ b, is_data_block sb V b → b ≠ a) by (intros b [_ Hb] ->; congruence).
  split; [done|rewrite Hind; auto|..].
  - intros m Hm. rewrite Hblk by done. case_decide; auto.
  - intros m m' Hm Hm'. rewrite !Hblk by done. case_decide as E1; case_decide as E2; subst; auto.
    + intros _ Heq. destruct (Hne a); [|done]. rewrite Heq. apply fo_blk0; [done|]. rewrite <- Heq.
      destruct Hnew. pose proof dstart_pos. lia.
    + intros H0 Heq. destruct (Hne a); [|done]. rewrite <- Heq. by apply fo_blk0.
  - intros m Hm. rewrite Hblk, Hind by done. case_decide as E1; [|auto]. intros _ Heq.
    destruct (Hne a); [|done]. rewrite Heq. apply fo_ind0. rewrite <- Heq. destruct Hnew. pose proof dstart_pos. lia.
Qed.

(** Its bytes are as before. *)
Lemma fbyte_add V d a V' d' n off :
  file_ok sb V d → (∀ m, 0 <= m < MAXFILE → fblock d V m ≠ 0 → V' (fblock d V m) = V (fblock d V m)) →
  (∀ o, 0 <= o < BSIZE → mget (V' a) o = 0) → 0 <= n < MAXFILE → fblock d V n = 0 →
  (∀ m, 0 <= m < MAXFILE → fblock d' V' m = if decide (m = n) then a else fblock d V m) →
  0 <= off < MAXFILE * BSIZE → fbyte d' V' off = fbyte d V off.
Proof.
  intros Hok HV Hz Hn Hn0 Hblk Hoff. unfold fbyte.
  assert (Hr : 0 <= off / BSIZE < MAXFILE).
  { split; [apply Z.div_pos; [lia|done]|]. apply Z.div_lt_upper_bound; [done|]. lia. }
  rewrite Hblk by done. case_decide as E.
  - rewrite E, Hn0. cbn [Z.eqb]. destruct (a =? 0); [done|]. apply Hz, Z.mod_pos_bound. done.
  - destruct (Z.eqb_spec (fblock d V (off / BSIZE)) 0); [done|]. by rewrite HV.
Qed.

(** The fields that block allocation leaves alone. *)
Definition same_meta (d d' : dinode) : Prop :=
  d_type d' = d_type d ∧ d_major d' = d_major d ∧ d_minor d' = d_minor d ∧ d_nlink d' = d_nlink d ∧ d_size d' = d_size d.

(** The file with [V'], [d'] is that with [V], [d], its block map now [blk]. *)
Record grown V d V' d' (blk : Z → Z) : Prop := {
  gw_ok : file_ok sb V' d';
  gw_step : file_step sb V d V' d';
  gw_blk : ∀ m, 0 <= m < MAXFILE → fblock d' V' m = blk m;
  gw_byte : ∀ off, 0 <= off < MAXFILE * BSIZE → fbyte d' V' off = fbyte d V off;
  gw_meta : same_meta d d'
}.

Definition with_block (blk : Z → Z) (n a : Z) : Z → Z := λ m, if decide (m = n) then a else blk m.

Lemma NDIRECT_eq : NDIRECT = 12. Proof. done. Qed.
Lemma MAXFILE_eq : MAXFILE = 268. Proof. done. Qed.
Lemma NINDIRECT_eq : NINDIRECT = 256. Proof. done. Qed.
Lemma BSIZE_eq : BSIZE = 1024. Proof. done. Qed.

Lemma alloc_range V a V' : alloc_view sb V a V' → 0 < a < 2 ^ 31.
Proof. intros []. pose proof dstart_pos. destruct Hly. lia. Qed.

Lemma add_direct V d a V' n :
  file_ok sb V d → alloc_view sb V a V' → 0 <= n < NDIRECT → addr_of d n = 0 →
  grown V d V' (set_addr n a d) (with_block (fblock d V) n a).
Proof.
  intros Hok Ha Hn Hn0. pose proof (alloc_range _ _ _ Ha) as Har. pose proof (fo_wf _ _ _ Hok) as Hwf.
  pose proof (dw_len _ Hwf) as Hlen. rewrite NDIRECT_eq in Hn.
  assert (HV : ∀ b, is_data_block sb V b → V' b = V b) by (intros b Hb; by apply (alloc_mono _ _ _ _ Ha)).
  assert (Hi : addr_of (set_addr n a d) NDIRECT = addr_of d NDIRECT).
  { rewrite addr_of_set by (done || lia). rewrite NDIRECT_eq, decide_False by lia. done. }
  assert (Hold : fblock d V n = 0).
  { unfold fblock. rewrite NDIRECT_eq. rewrite (proj2 (Z.ltb_lt n 12)) by lia. done. }
  assert (Hnr : 0 <= n < MAXFILE) by (rewrite MAXFILE_eq; lia).
  assert (Hblk : ∀ m, 0 <= m < MAXFILE → fblock (set_addr n a d) V' m = if decide (m = n) then a else fblock d V m).
  { intros m Hm. unfold fblock at 1. rewrite Hi. destruct (Z.ltb_spec m NDIRECT) as [Hlt|Hge].
    - rewrite addr_of_set by (done || lia). case_decide; [done|]. unfold fblock. by rewrite (proj2 (Z.ltb_lt _ _)).
    - rewrite NDIRECT_eq in Hge. rewrite decide_False by lia. rewrite <- (fblock_frame V d V' m Hok HV).
      unfold fblock. by rewrite (proj2 (Z.ltb_ge _ _)). }
  assert (Hok' : file_ok sb V' (set_addr n a d)).
  { apply (file_ok_add V d a V' _ n); try done.
    - apply set_addr_wf; [done|lia].
    - apply Ha.
    - by eapply alloc_new.
    - intros b Hb. by apply (alloc_mono _ _ _ _ Ha). }
  split; try done.
  - split.
    + intros b [Hb0 [Hb|(m & Hm & Hb)]].
      * left. split; [done|]. left. congruence.
      * rewrite Hblk in Hb by done. case_decide; [right; subst b; apply Ha|left; split; [done|]; right; by exists m].
    + intros b Hr Hnb Hu Ho. apply Ha; [done|]. intros ->. rewrite (av_free _ _ _ _ Ha) in Hu. done.
    + intros b Hr Hu. rewrite (av_used _ _ _ _ Ha) by done. by case_decide.
  - intros off Hoff. eapply (fbyte_add V d a V' _ n); try done; [|apply Ha]. intros m Hm H0. by apply HV, Hok.
Qed.

Lemma zero_load (V : Z → block) a k : (∀ o, 0 <= o < BSIZE → mget (V a) o = 0) → 0 <= k → k + 4 <= BSIZE → le_load 4 (V a) k = 0.
Proof.
  intros Hz Hk Hk4. rewrite (le_load_ext 4 _ ∅); [done|]. intros j Hj. rewrite Hz by lia. done.
Qed.

Lemma add_ind V d a V' :
  file_ok sb V d → alloc_view sb V a V' → addr_of d NDIRECT = 0 →
  grown V d V' (set_addr NDIRECT a d) (fblock d V).
Proof.
  intros Hok Ha H0. pose proof (alloc_range _ _ _ Ha) as Har. pose proof (fo_wf _ _ _ Hok) as Hwf.
  pose proof (dw_len _ Hwf) as Hlen.
  assert (HV : ∀ b, is_data_block sb V b → V' b = V b) by (intros b Hb; by apply (alloc_mono _ _ _ _ Ha)).
  assert (Hi : addr_of (set_addr NDIRECT a d) NDIRECT = a).
  { rewrite addr_of_set by (done || rewrite ?NDIRECT_eq; lia). by rewrite decide_True. }
  assert (Hblk : ∀ m, 0 <= m < MAXFILE → fblock (set_addr NDIRECT a d) V' m = fblock d V m).
  { intros m Hm. unfold fblock. rewrite Hi, H0. cbn [Z.eqb]. destruct (Z.ltb_spec m NDIRECT) as [Hlt|Hge].
    - rewrite addr_of_set by (done || rewrite ?NDIRECT_eq; lia). rewrite decide_False by lia. done.
    - rewrite (proj2 (Z.eqb_neq a 0)) by lia. apply zero_load; [apply Ha|lia|]. rewrite MAXFILE_eq, NDIRECT_eq, BSIZE_eq in *. lia. }
  assert (Hmono : ∀ b, is_data_block sb V b → is_data_block sb V' b ∧ b ≠ a) by (intros b Hb; split; by apply (alloc_mono _ _ _ _ Ha)).
  pose proof Hok as [].
  assert (Hok' : file_ok sb V' (set_addr NDIRECT a d)).
  { split.
    - apply set_addr_wf; [done|lia].
    - rewrite Hi. intros _. by eapply alloc_new.
    - intros n Hn. rewrite Hblk by done. intros Hn0. by apply Hmono, fo_blk0.
    - intros n m Hn Hm. rewrite !Hblk by done. by apply fo_inj0.
    - intros n Hn. rewrite Hblk, Hi by done. intros Hn0. by apply Hmono, fo_blk0. }
  split; try done.
  - split.
    + intros b [Hb0 [Hb|(m & Hm & Hb)]].
      * right. rewrite Hi in Hb. subst b. apply Ha.
      * left. rewrite Hblk in Hb by done. split; [done|]. right. by exists m.
    + intros b Hr Hnb Hu Ho. apply Ha; [done|]. intros ->. rewrite (av_free _ _ _ _ Ha) in Hu. done.
    + intros b Hr Hu. rewrite (av_used _ _ _ _ Ha) by done. by case_decide.
  - intros off Hoff. unfold fbyte.
    assert (Hr : 0 <= off / BSIZE < MAXFILE).
    { split; [apply Z.div_pos; [lia|done]|]. apply Z.div_lt_upper_bound; [done|]. lia. }
    rewrite Hblk by done. destruct (Z.eqb_spec (fblock d V (off / BSIZE)) 0); [done|]. rewrite HV; auto.
Qed.

(** An entry of the indirect block. *)
Lemma add_entry V d a V1 n :
  let ind := addr_of d NDIRECT in
  let V' := fset V1 ind (le_store 4 (V1 ind) (4 * (n - NDIRECT)) a) in
  file_ok sb V d → alloc_view sb V a V1 → NDIRECT <= n < MAXFILE → ind ≠ 0 → fblock d V n = 0 →
  grown V d V' d (with_block (fblock d V) n a).
Proof.
  intros ind V' Hok Ha Hn Hi0 Hn0. pose proof (alloc_range _ _ _ Ha) as Har. pose proof Hok as [].
  pose proof (fo_ind0 Hi0) as Hind. fold ind in Hind.
  destruct (alloc_mono _ _ _ _ Ha Hind) as (Hind1 & Hia & HVi). pose proof (data_not_bm _ _ Hind) as Hib.
  assert (HV : ∀ b, is_data_block sb V b → b ≠ ind → V' b = V b).
  { intros b Hb Hne. unfold V'. rewrite fset_ne by done. by apply (alloc_mono _ _ _ _ Ha). }
  assert (Hus : ∀ b, 0 <= b < sb_size sb → used sb V' b = used sb V1 b) by (intros b Hb; by eapply used_other).
  assert (Hdata : ∀ b, is_data_block sb V1 b → is_data_block sb V' b).
  { intros b [Hr Hu]. split; [done|]. pose proof dstart_pos. rewrite Hus by lia. done. }
  assert (Hnr : 0 <= n < MAXFILE) by (rewrite NDIRECT_eq in Hn; lia).
  assert (Hblk : ∀ m, 0 <= m < MAXFILE → fblock d V' m = if decide (m = n) then a else fblock d V m).
  { intros m Hm. unfold fblock. fold ind. destruct (Z.ltb_spec m NDIRECT) as [Hlt|Hge].
    - rewrite decide_False by lia. done.
    - rewrite (proj2 (Z.eqb_neq ind 0)) by done. unfold V'. rewrite fset_eq. case_decide as E.
      + subst m. rewrite le_load_store_eq. apply Z.mod_small. change (256 ^ Z.of_nat 4) with (2 ^ 32). lia.
      + rewrite le_load_store_ne by lia. by rewrite HVi. }
  assert (Hza : ∀ o, 0 <= o < BSIZE → mget (V' a) o = 0).
  { intros o Ho. unfold V'. rewrite fset_ne by done. by apply Ha. }
  split; try done.
  - apply (file_ok_add V d a V' _ n); try done.
    + apply Ha.
    + by eapply Hdata, alloc_new.
    + intros b Hb. by eapply Hdata, alloc_mono.
  - split.
    + intros b [Hb0 [Hb|(m & Hm & Hb)]].
      * left. split; [done|]. by left.
      * rewrite Hblk in Hb by done. case_decide; [right; subst b; apply Ha|left; split; [done|]; right; by exists m].
    + intros b Hr Hnb Hu Ho. unfold V'. rewrite fset_ne.
      * apply Ha; [done|]. intros ->. rewrite (av_free _ _ _ _ Ha) in Hu. done.
      * intros ->. apply Ho. split; [done|]. by left.
    + intros b Hr Hu. rewrite Hus, (av_used _ _ _ _ Ha) by done. by case_decide.
  - intros off Hoff. eapply (fbyte_add V d a V' _ n); try done. intros m Hm H0. apply HV; [by apply fo_blk0|]. by apply fo_ne0.
Qed.

Lemma grown_trans V1 d1 V2 d2 V3 d3 blk2 blk3 :
  grown V1 d1 V2 d2 blk2 → grown V2 d2 V3 d3 blk3 → grown V1 d1 V3 d3 blk3.
Proof.
  intros [] []. pose proof dstart_pos. split; try done.
  - eapply file_step_trans; [lia|..]; done.
  - intros off Hoff. rewrite gw_byte1, gw_byte0; done.
  - destruct gw_meta0 as (?&?&?&?&?), gw_meta1 as (?&?&?&?&?). split_and!; congruence.
Qed.

Lemma grown_refl V d : file_ok sb V d → grown V d V d (fblock d V).
Proof. intros Hok. split; try done. apply file_step_refl. Qed.

Lemma grown_ext V d V' d' blk blk' :
  (∀ m, 0 <= m < MAXFILE → blk m = blk' m) → grown V d V' d' blk → grown V d V' d' blk'.
Proof. intros Hb []. split; try done. intros m Hm. rewrite <- Hb by done. auto. Qed.

End Grow.

(** ** Free blocks *)

Definition nfree (sb : superblock) (V : Z → block) : Z :=
  Z.of_nat (length (filter (λ b, used sb V b = false) (seqZ 0 (sb_size sb)))).

Lemma nfree_pos sb V : 1 <= nfree sb V → ∃ b, 0 <= b < sb_size sb ∧ used sb V b = false.
Proof.
  unfold nfree. intros Hn. destruct (filter _ _) as [|b L] eqn:E; [simpl in Hn; lia|].
  assert (Hb : b ∈ b :: L) by (apply elem_of_cons; by left). rewrite <- E in Hb.
  apply list_elem_of_filter in Hb as [Hu Hb%elem_of_seqZ]. exists b. split; [lia|done].
Qed.

Lemma nfree_ext sb V V' : (∀ b, 0 <= b < sb_size sb → used sb V' b = used sb V b) → nfree sb V' = nfree sb V.
Proof.
  intros Hu. unfold nfree. do 2 f_equal. apply filter_same. intros b Hb%elem_of_seqZ. rewrite Hu by lia. done.
Qed.

Lemma nfree_alloc sb l V a V' : layout sb l → alloc_view sb V a V' → nfree sb V' = nfree sb V - 1.
Proof.
  intros Hl Ha. pose proof (dstart_pos _ _ Hl) as Hd. destruct Ha. unfold nfree.
  assert (Hin : a ∈ seqZ 0 (sb_size sb)) by (apply elem_of_seqZ; lia).
  pose proof (length_filter_out (λ b, used sb V b = false) a _ (NoDup_seqZ _ _) Hin) as Hlen. cbn beta in Hlen.
  rewrite (decide_True (P := used sb V a = false)) in Hlen by done.
  rewrite list_filter_filter in Hlen.
  rewrite (filter_same (λ b, used sb V' b = false) (λ b, used sb V b = false ∧ b ≠ a)); [lia|].
  intros b Hb%elem_of_seqZ. rewrite av_used0 by lia. case_decide; [|naive_solver]. split; [done|naive_solver].
Qed.

Section File.
Context {C U : Type} {BC : BlockCache C} {BOK : BlockCacheOk C} {UM : UserMem U}.
Abbreviation fs := (fsst C U).
Implicit Types (s : fs) (t : tx) (bn : Z) (ip : nat) (i : inode).

Lemma allocd_view s t k a s' t' : allocd s t k a s' t' → alloc_view (f_sb s) (t_view t) a (t_view t').
Proof. intros []. by split. Qed.

(** ** bmap *)

(** A block that exists. *)
Lemma bmap_present s t ip i n :
  ftx s t → t_held t = [] → iat s ip i → i_dev i = ROOTDEV → file_ok (f_sb s) (t_view t) (i_d i) →
  0 <= n < MAXFILE → fblock (i_d i) (t_view t) n ≠ 0 →
  wp (bmap ip n) s (λ a s', a = fblock (i_d i) (t_view t) n ∧ fstep s t s' t ∧ ftx s' t ∧ f_inodes s' = f_inodes s).
Proof.
  intros Hf Hh Hi Hdev Hok Hn H0. pose proof (ft_layout _ _ Hf) as Hly. unfold bmap. apply wp_bind. eapply wp_geti; [done|].
  unfold fblock in *. destruct (Z.ltb_spec n NDIRECT) as [Hlt|Hge].
  - rewrite (proj2 (Z.eqb_neq _ _)) by done. apply wp_ret. split_and!; try done. apply fstep_refl.
  - rewrite (proj2 (Z.ltb_lt _ _)) by (rewrite NINDIRECT_eq, MAXFILE_eq, NDIRECT_eq in *; lia).
    destruct (Z.eqb_spec (addr_of (i_d i) NDIRECT) 0) as [|Hi0]; [done|].
    destruct (fo_ind _ _ _ Hok Hi0) as [Hr _]. destruct (data_home _ _ _ Hly Hr) as [Hhome _].
    apply wp_bind, wp_ret. rewrite Hdev. set (ind := addr_of (i_d i) NDIRECT) in *.
    assert (Hnh : ind ∉ t_held t) by (rewrite Hh; apply not_elem_of_nil).
    apply wp_bind. eapply wp_mono; [apply (fbread_ok s t ind Hf Hhome Hnh); rewrite Hh; simpl; lia|].
    intros h s1 (P1 & Hf1 & Hat1 & I1).
    apply wp_bind. eapply wp_mono; [exact (fbdata_ok s1 _ h ind Hf1 Hat1)|]. intros d s1' [-> ->]. cbn [t_view t_hold].
    rewrite (proj2 (Z.eqb_neq _ _)) by done. apply wp_bind, wp_ret.
    apply wp_bind. eapply wp_mono; [apply (release_ok s1 t h ind Hf1 Hat1 Hnh); by apply (ftx_clean s t)|].
    intros _ s2 (P2 & Hf2 & I2). apply wp_ret. split_and!; [done| |done|congruence]. by eapply fstep_through.
Qed.

(** A block that [bmap] adds to the file. *)
Record mapped s t (k : Z) ip i (n a : Z) s' t' (d' : dinode) : Prop := {
  mp_step : fstep s t s' t';
  mp_ftx : ftx s' t';
  mp_budget : budget s' t' (k - 2);
  mp_inodes : f_inodes s' = <[ip := set_d d' i]> (f_inodes s);
  mp_held : t_held t' = [];
  mp_grown : grown (f_sb s) (t_view t) (i_d i) (t_view t') d' (with_block (fblock (i_d i) (t_view t)) n a);
  mp_new : a ≠ 0 ∧ a ∈ t_logged t';
  mp_free : nfree (f_sb s) (t_view t) - 2 <= nfree (f_sb s) (t_view t')
}.

(** The indirect block is there, or made. *)
Lemma bmap_ind_ok s t ip i k :
  ftx s t → budget s t k → 1 <= k → t_held t = [] → iat s ip i → i_dev i = ROOTDEV →
  file_ok (f_sb s) (t_view t) (i_d i) → 1 <= nfree (f_sb s) (t_view t) →
  wp (if addr_of (i_d i) NDIRECT =? 0 then
        a ← balloc (i_dev i); updd ip (set_addr NDIRECT a);; mret a
      else mret (addr_of (i_d i) NDIRECT)) s (λ a s', ∃ t' d' k',
    fstep s t s' t' ∧ ftx s' t' ∧ budget s' t' k' ∧ f_inodes s' = <[ip := set_d d' i]> (f_inodes s) ∧
    t_held t' = [] ∧ a = addr_of d' NDIRECT ∧ a ≠ 0 ∧
    grown (f_sb s) (t_view t) (i_d i) (t_view t') d' (fblock (i_d i) (t_view t)) ∧
    nfree (f_sb s) (t_view t) - (k - k') <= nfree (f_sb s) (t_view t') ∧
    (k' = k ∨ k' = k - 1 ∧ a ∈ t_logged t')).
Proof.
  intros Hf Hbu Hk Hh Hi Hdev Hok Hfree. pose proof (ft_layout _ _ Hf) as Hly.
  destruct (Z.eqb_spec (addr_of (i_d i) NDIRECT) 0) as [H0|H0].
  - rewrite Hdev. apply wp_bind. eapply wp_mono; [apply (balloc_ok s t k Hf Hbu Hk)|].
    + intros b. rewrite Hh. by intros ?%elem_of_nil.
    + rewrite Hh. simpl. lia.
    + by apply nfree_pos.
    + intros a s1 (t1 & Hal). pose proof (allocd_view _ _ _ _ _ _ Hal) as Hav. destruct Hal.
      apply wp_bind. eapply wp_updi; [unfold iat; by rewrite al_inodes|]. apply wp_ret.
      pose proof (add_ind _ _ Hly _ _ _ _ Hok Hav H0) as Hgw. pose proof (alloc_range _ _ Hly _ _ _ Hav) as Har.
      exists t1, (set_addr NDIRECT a (i_d i)), (k - 1). split_and!; try done.
      * destruct al_step. by split.
      * destruct al_ftx. by split.
      * destruct al_budget. by split.
      * cbn [f_inodes set_inodes]. by rewrite al_inodes.
      * congruence.
      * rewrite addr_of_set; [by rewrite decide_True|apply Hok|rewrite NDIRECT_eq; lia|rewrite NDIRECT_eq; lia].
      * lia.
      * rewrite (nfree_alloc _ _ _ _ _ Hly Hav). lia.
      * right. by split.
  - apply wp_ret. exists t, (i_d i), k. split_and!; try done.
    + apply fstep_refl.
    + rewrite list_insert_id; [done|]. unfold iat in Hi. rewrite Hi. by destruct i.
    + by apply (grown_refl (f_sb s)).
    + lia.
    + by left.
Qed.

Lemma held_data s t b : ftx s t → is_data_block (f_sb s) (t_view t) b → held_ok s (t_hold b (mk_tx (t_view t) (t_disk t) (t_logged t) [])).
Proof.
  intros Hf Hb b' [->|?%elem_of_nil]%elem_of_cons; [|done]. split; [|apply Hb].
  by eapply data_not_bm; [apply Hf|].
Qed.

(** The second half of [bmap] on the indirect block: a new entry. *)
Lemma bmap_entry_ok s t ip i n k :
  let ind := addr_of (i_d i) NDIRECT in
  ftx s t → budget s t k → (1 <= k ∧ ind ∈ t_logged t ∨ 2 <= k) → t_held t = [] → iat s ip i → i_dev i = ROOTDEV →
  file_ok (f_sb s) (t_view t) (i_d i) → 1 <= nfree (f_sb s) (t_view t) → NDIRECT <= n < MAXFILE → ind ≠ 0 →
  fblock (i_d i) (t_view t) n = 0 →
  wp (bp ← bread (i_dev i) ind;
      d ← bdata bp;
      addr ← (if le_load 4 d (4 * (n - NDIRECT)) =? 0 then
                a ← balloc (i_dev i);
                d ← bdata bp;
                bset bp (le_store 4 d (4 * (n - NDIRECT)) a);;
                lwrite bp;;
                mret a
              else mret (le_load 4 d (4 * (n - NDIRECT))));
      brelse bp;;
      mret addr) s (λ a s', ∃ t', fstep s t s' t' ∧ ftx s' t' ∧
        budget s' t' (k - 1 - charge (f_sb s) t ind) ∧ f_inodes s' = f_inodes s ∧ t_held t' = [] ∧ a ≠ 0 ∧ a ∈ t_logged t' ∧
        grown (f_sb s) (t_view t) (i_d i) (t_view t') (i_d i) (with_block (fblock (i_d i) (t_view t)) n a) ∧
        nfree (f_sb s) (t_view t') = nfree (f_sb s) (t_view t) - 1).
Proof.
  intros ind Hf Hbu Hk Hh Hi Hdev Hok Hfree Hn Hi0 Hn0. pose proof (ft_layout _ _ Hf) as Hly. rewrite Hdev.
  pose proof (fo_ind _ _ _ Hok Hi0) as Hdata. fold ind in Hdata. destruct (data_home _ _ _ Hly (proj1 Hdata)) as [Hhome Hnb].
  assert (Hnh : ind ∉ t_held t) by (rewrite Hh; apply not_elem_of_nil).
  assert (Hcl : ind ∈ t_logged t ∨ t_view t ind = t_disk t ind) by (by apply (ftx_clean s t)).
  apply wp_bind. eapply wp_mono; [apply (fbread_ok s t ind Hf Hhome Hnh); rewrite Hh; simpl; lia|].
  intros h s1 (P1 & Hf1 & Hat1 & I1). pose proof (fp_sb _ _ _ _ P1) as S1.
  apply wp_bind. eapply wp_mono; [exact (fbdata_ok s1 _ h ind Hf1 Hat1)|]. intros d s1' [-> ->]. cbn [t_view t_hold].
  assert (le_load 4 (t_view t ind) (4 * (n - NDIRECT)) = 0) as E0.
  { unfold fblock in Hn0. fold ind in Hn0. rewrite (proj2 (Z.ltb_ge _ _)) in Hn0 by lia. by rewrite (proj2 (Z.eqb_neq _ _)) in Hn0. }
  rewrite E0. cbn [Z.eqb]. apply wp_bind, wp_bind.
  eapply wp_mono; [apply (balloc_ok s1 (t_hold ind t) k Hf1)|].
  - by eapply budget_read.
  - lia.
  - unfold held_ok. rewrite S1. cbn [t_held t_hold]. rewrite Hh. intros b [->|?%elem_of_nil]%elem_of_cons; [|done].
    split; [done|apply Hdata].
  - cbn. rewrite Hh. simpl. lia.
  - rewrite S1. by apply nfree_pos.
  - intros a s2 (t2 & Hal). pose proof (allocd_view _ _ _ _ _ _ Hal) as Hav. destruct Hal. rewrite S1 in Hav. cbn [t_view t_hold] in Hav.
    cbn [t_held t_hold] in al_held. rewrite Hh in al_held. pose proof (fp_sb _ _ _ _ al_step) as S2. rewrite S1 in S2.
    destruct t2 as [V2 D2 L2 H2]. cbn [t_view t_held t_logged] in *. subst H2.
    set (t2 := mk_tx V2 D2 L2 []). change (mk_tx V2 D2 L2 [ind]) with (t_hold ind t2) in *.
    assert (Hat2 : fat s2 (t_hold ind t2) h ind) by (eapply fat_step; [done|by apply elem_of_cons; left|done]).
    apply wp_bind. eapply wp_mono; [exact (fbdata_ok s2 _ h ind al_ftx Hat2)|]. intros d s2' [-> ->]. cbn [t_view t_hold t2].
    set (d' := le_store 4 (V2 ind) (4 * (n - NDIRECT)) a).
    pose proof (add_entry _ _ Hly _ _ _ _ _ Hok Hav Hn Hi0 Hn0) as Hgw. cbv zeta in Hgw. fold ind in Hgw. fold d' in Hgw.
    assert (Hch : charge (f_sb s2) t2 ind <= charge (f_sb s) t ind).
    { unfold charge. rewrite S2. destruct (decide (is_bm (f_sb s) ind ∨ ind ∈ t_logged t)) as [Hd|Hd]; [|case_decide; lia].
      rewrite decide_True; [done|]. destruct Hd as [|Hl]; [by left|]. right. by apply (fp_logged _ _ _ _ al_step). }
    assert (Hch1 : charge (f_sb s) t ind <= k - 1).
    { unfold charge. case_decide as Hd; [lia|]. destruct Hk as [[? ?]|]; [tauto|lia]. }
    apply wp_seq_ret. eapply wp_mono; [apply (write_back_ok s2 t2 h ind d' (k - 1) al_ftx Hat2)|].
    + apply not_elem_of_nil.
    + done.
    + lia.
    + rewrite S2. intros b Hb. cbn [t_view t2]. rewrite (used_other _ _ _ _ _ _ Hly); [|destruct Hly; lia|done].
      pose proof (ft_meta _ _ al_ftx b) as Hm. rewrite S2 in Hm. by apply Hm.
    + intros _ s3 (P3 & Hf3 & B3 & I3). pose proof (alloc_range _ _ Hly _ _ _ Hav) as Har.
      exists (t_write ind d' t2). split_and!; try done.
      * eapply fstep_through; [exact P1|]. eapply fstep_trans; [|exact al_step|exact P3]. intros b. cbn. by rewrite Hh.
      * eapply budget_le; [|exact B3]. lia.
      * congruence.
      * lia.
      * apply logged_write. by right.
      * rewrite (nfree_ext _ V2); [by eapply nfree_alloc|]. intros b Hb. by eapply used_other.
Qed.

Lemma bmap_absent s t ip i n k :
  ftx s t → budget s t k → 2 <= k → t_held t = [] → iat s ip i → i_dev i = ROOTDEV →
  file_ok (f_sb s) (t_view t) (i_d i) → 2 <= nfree (f_sb s) (t_view t) → 0 <= n < MAXFILE →
  fblock (i_d i) (t_view t) n = 0 →
  wp (bmap ip n) s (λ a s', ∃ t' d', mapped s t k ip i n a s' t' d').
Proof.
  intros Hf Hbu Hk Hh Hi Hdev Hok Hfree Hn Hn0. pose proof (ft_layout _ _ Hf) as Hly.
  unfold bmap. apply wp_bind. eapply wp_geti; [done|]. destruct (Z.ltb_spec n NDIRECT) as [Hlt|Hge].
  - assert (Ha0 : addr_of (i_d i) n = 0) by (unfold fblock in Hn0; by rewrite (proj2 (Z.ltb_lt _ _)) in Hn0).
    rewrite Ha0, Hdev. cbn [Z.eqb]. apply wp_bind. eapply wp_mono; [apply (balloc_ok s t k Hf Hbu)|].
    + lia.
    + intros b. rewrite Hh. by intros ?%elem_of_nil.
    + rewrite Hh. simpl. lia.
    + apply nfree_pos. lia.
    + intros a s1 (t1 & Hal). pose proof (allocd_view _ _ _ _ _ _ Hal) as Hav. destruct Hal.
      apply wp_bind. eapply wp_updi; [unfold iat; by rewrite al_inodes|]. apply wp_ret.
      pose proof (add_direct _ _ Hly _ _ _ _ n Hok Hav ltac:(lia) Ha0) as Hgw. pose proof (alloc_range _ _ Hly _ _ _ Hav) as Har.
      exists t1, (set_addr n a (i_d i)). split; try done.
      * destruct al_step. by split.
      * destruct al_ftx. by split.
      * apply (budget_le _ _ (k - 1)); [lia|]. destruct al_budget. by split.
      * cbn [f_inodes set_inodes]. by rewrite al_inodes.
      * congruence.
      * split; [lia|done].
      * rewrite (nfree_alloc _ _ _ _ _ Hly Hav). lia.
  - rewrite (proj2 (Z.ltb_lt _ _)) by (rewrite NINDIRECT_eq, MAXFILE_eq, NDIRECT_eq in *; lia).
    apply wp_bind. eapply wp_mono; [apply (bmap_ind_ok s t ip i k); try done; lia|].
    intros ind s1 (t1 & d1 & k1 & P1 & Hf1 & B1 & I1 & H1 & -> & Hi0 & G1 & F1 & Hk1).
    pose proof (fp_sb _ _ _ _ P1) as S1. set (i1 := set_d d1 i).
    assert (Hi1 : iat s1 ip i1).
    { unfold iat. rewrite I1, list_lookup_insert_eq; [done|]. by eapply lookup_lt_Some. }
    assert (Hn1 : fblock d1 (t_view t1) n = 0) by (by rewrite (gw_blk _ _ _ _ _ _ G1)).
    eapply wp_mono; [apply (bmap_entry_ok s1 t1 ip i1 n k1); try done|].
    + destruct Hk1 as [->|[-> ?]]; [right; lia|left; split; [lia|done]].
    + rewrite S1. apply G1.
    + rewrite S1. destruct Hk1 as [->|[-> ?]]; lia.
    + lia.
    + intros a s2 (t2 & P2 & Hf2 & B2 & I2 & H2 & Ha0 & Hal & G2 & F2). rewrite S1 in G2, F2, B2. cbn [i_d i1 set_d] in *.
      exists t2, d1. split; try done.
      * eapply fstep_trans; [|exact P1|exact P2]. rewrite Hh. by intros b ?%elem_of_nil.
      * apply (budget_le _ _ (k1 - 1 - charge (f_sb s) t1 (addr_of d1 NDIRECT))); [|exact B2].
        unfold charge. case_decide as Hd; [destruct Hk1; lia|]. destruct Hk1 as [->|[-> ?]]; [lia|tauto].
      * congruence.
      * apply (grown_ext _ _ _ _ _ (with_block (fblock d1 (t_view t1)) n a)); [|by eapply grown_trans].
        intros m Hm. unfold with_block. case_decide; [done|]. by apply (gw_blk _ _ _ _ _ _ G1).
      * rewrite F2. destruct Hk1 as [->|[-> ?]]; lia.
Qed.

(** Both cases: what is left of the budget pays for logging the block. *)
Lemma bmap_ok s t ip i n k :
  ftx s t → budget s t k → 2 <= k → t_held t = [] → iat s ip i → i_dev i = ROOTDEV →
  file_ok (f_sb s) (t_view t) (i_d i) → 2 <= nfree (f_sb s) (t_view t) → 0 <= n < MAXFILE →
  wp (bmap ip n) s (λ a s', ∃ t' d' k', fstep s t s' t' ∧ ftx s' t' ∧ f_inodes s' = <[ip := set_d d' i]> (f_inodes s) ∧
    t_held t' = [] ∧ grown (f_sb s) (t_view t) (i_d i) (t_view t') d' (with_block (fblock (i_d i) (t_view t)) n a) ∧
    a ≠ 0 ∧ nfree (f_sb s) (t_view t) - 2 <= nfree (f_sb s) (t_view t') ∧
    budget s' t' k' ∧ k - 2 <= k' - charge (f_sb s) t' a).
Proof.
  intros Hf Hbu Hk Hh Hi Hdev Hok Hfree Hn. destruct (decide (fblock (i_d i) (t_view t) n = 0)) as [H0|H0].
  - eapply wp_mono; [by apply bmap_absent|]. intros a s' (t' & d' & []). destruct mp_new0 as [Ha Hl].
    exists t', d', (k - 2). split_and!; try done. unfold charge. rewrite decide_True by tauto. lia.
  - eapply wp_mono; [by apply (bmap_present s t ip i n)|]. intros a s' (-> & P & Hf' & I).
    exists t, (i_d i), k. split_and!; try done.
    + rewrite list_insert_id; [done|]. unfold iat in Hi. rewrite Hi. by destruct i.
    + apply (grown_ext _ _ _ _ _ (fblock (i_d i) (t_view t))); [|by apply grown_refl].
      intros m Hm. unfold with_block. by case_decide; subst.
    + lia.
    + by eapply budget_same.
    + unfold charge. case_decide; lia.
Qed.

End File.
