(* ===== verification/FsCopy.v ===== *)
(** What the file system expects of memory: [copyin], [copyout] and kernel
    copies.  The laws say which bytes are read and written; a copy to or from
    user memory may fail.

    A reference implementation of the memory interface of the file system: one
    flat memory whose first [fm_sz] bytes the user may access. *)

From S2P Require Import Prelude Riscv Memory Str Cache Log LogSpec LogCrash Txn Fs FsSpec.

Class UserMemOk (U : Type) `{UserMem U} := {
  um_ok : U → Prop;
  um_byte : U → Z → option Z;
  um_kok : U → Z → Z → Prop;
  um_kbyte : U → Z → Z;
  um_wrote : U → Z → list Z → U → Prop;
  um_kwrote : U → Z → list Z → U → Prop;
  um_wrote_nil u a : um_wrote u a [] u;
  um_wrote_app u u1 u2 a bs1 bs2 :
    um_wrote u a bs1 u1 → um_wrote u1 (w64 (a + Z.of_nat (length bs1))) bs2 u2 → um_wrote u a (bs1 ++ bs2) u2;
  um_kwrote_nil u a : um_kwrote u a [] u;
  um_kwrote_app u u1 u2 a bs1 bs2 :
    um_kwrote u a bs1 u1 → um_kwrote u1 (w64 (a + Z.of_nat (length bs1))) bs2 u2 → um_kwrote u a (bs1 ++ bs2) u2;
  um_kwrote_kok u u' a bs b n : um_kwrote u a bs u' → um_kok u b n → um_kok u' b n;
  um_kok_sub u a n k m : um_kok u a n → 0 <= k → 0 <= m → k + m <= n → um_kok u (w64 (a + k)) m;
  um_copyout_ok u a bs :
    um_ok u → wp (um_copyout a bs) u (λ r u', um_ok u' ∧ (r = 0 ∧ um_wrote u a bs u' ∨ r = -1));
  um_copyin_ok u a n :
    um_ok u → 0 <= n → wp (um_copyin a n) u (λ br u', u' = u ∧
      (br.2 = 0 ∧ Some <$> br.1 = (λ k, um_byte u (w64 (a + k))) <$> seqZ 0 n ∨
       br.2 = -1 ∧ ∃ k, 0 <= k < n ∧ um_byte u (w64 (a + k)) = None));
  um_kwrite_ok u a bs :
    um_ok u → um_kok u a (Z.of_nat (length bs)) → wp (um_kwrite a bs) u (λ _ u', um_ok u' ∧ um_kwrote u a bs u');
  um_kread_ok u a n :
    um_ok u → um_kok u a n → 0 <= n →
    wp (um_kread a n) u (λ bs u', u' = u ∧ bs = (λ k, um_kbyte u (w64 (a + k))) <$> seqZ 0 n)
}.

Section Copy.
Context {C U : Type} {UM : UserMem U} {UOK : UserMemOk U}.
Abbreviation fs := (fsst C U).
Implicit Types (s : fs) (p : place).

(** Addresses at their width. *)
Definition pl_wf p : Prop := match p with User a | Kernel a => 0 <= a < 2 ^ 64 | Frame _ => True end.

(** [n] bytes at [p] can be accessed by the kernel. *)
Definition pl_ok s p (n : Z) : Prop := match p with Kernel a => um_kok (f_um s) a n | _ => True end.

(** Copies to user memory only may fail. *)
Definition pl_user p : Prop := match p with User _ => True | _ => False end.

(** Byte [k] at [p]. *)
Definition pl_byte s p (k : Z) : option Z :=
  match p with
  | User a => um_byte (f_um s) (w64 (a + k))
  | Kernel a => Some (um_kbyte (f_um s) (w64 (a + k)))
  | Frame a => Some (mget (f_frame s) (a + k))
  end.

(** [bs] was written at [p]; no other memory changed. *)
Definition pl_wrote s p (bs : list Z) s' : Prop :=
  match p with
  | User a => um_wrote (f_um s) a bs (f_um s') ∧ f_frame s' = f_frame s
  | Kernel a => um_kwrote (f_um s) a bs (f_um s') ∧ f_frame s' = f_frame s
  | Frame a => f_frame s' = write_bytes (f_frame s) a bs ∧ f_um s' = f_um s
  end.

Lemma pl_add_add p a b : 0 <= a → 0 <= b → pl_add (pl_add p a) b = pl_add p (a + b).
Proof.
  intros Ha Hb. destruct p; simpl; f_equal; [unfold w64; rewrite Zplus_mod_idemp_l; f_equal; lia| |lia].
  unfold w64. rewrite Zplus_mod_idemp_l. f_equal. lia.
Qed.

Lemma pl_user_add p k : pl_user (pl_add p k) → pl_user p.
Proof. by destruct p. Qed.

Lemma pl_add_0 p : pl_wf p → pl_add p 0 = p.
Proof. destruct p; simpl; intros Hw; f_equal; rewrite ?Z.add_0_r; unfold w64; rewrite ?Z.mod_small by lia; done. Qed.

Lemma pl_byte_add s p a k : 0 <= a → 0 <= k → pl_byte s (pl_add p a) k = pl_byte s p (a + k).
Proof.
  intros Ha Hk. destruct p; simpl; unfold w64; rewrite ?Zplus_mod_idemp_l, <- ?Z.add_assoc; done.
Qed.

Lemma pl_wrote_nil s p s' : f_um s' = f_um s → f_frame s' = f_frame s → pl_wrote s p [] s'.
Proof. intros E1 E2. destruct p; simpl; rewrite E1, E2; split; try done; [apply um_wrote_nil|apply um_kwrote_nil]. Qed.

Lemma write_bytes_app m a bs1 bs2 :
  write_bytes m a (bs1 ++ bs2) = write_bytes (write_bytes m a bs1) (a + Z.of_nat (length bs1)) bs2.
Proof.
  revert m a. induction bs1 as [|b bs1 IH]; intros m a; [simpl; f_equal; lia|]. cbn [app write_bytes length].
  rewrite IH. f_equal. lia.
Qed.

Lemma pl_wrote_app s s1 s2 p bs1 bs2 :
  pl_wrote s p bs1 s1 → pl_wrote s1 (pl_add p (Z.of_nat (length bs1))) bs2 s2 → pl_wrote s p (bs1 ++ bs2) s2.
Proof.
  destruct p; simpl; intros [H1 E1] [H2 E2]; (split; [|congruence]).
  - by eapply um_wrote_app.
  - by eapply um_kwrote_app.
  - by rewrite H2, H1, write_bytes_app.
Qed.

Lemma pl_wrote_same s s1 s2 p bs : f_um s2 = f_um s1 → f_frame s2 = f_frame s1 → pl_wrote s p bs s1 → pl_wrote s p bs s2.
Proof. intros E1 E2. destruct p; simpl; rewrite E1, E2; done. Qed.

Lemma pl_ok_sub s p n k m : pl_ok s p n → 0 <= k → 0 <= m → k + m <= n → pl_ok s (pl_add p k) m.
Proof. destruct p; simpl; [done| |done]. intros. by eapply um_kok_sub. Qed.

Lemma pl_ok_wrote s s' p bs n : pl_wrote s p bs s' → pl_ok s p n → pl_ok s' p n.
Proof. destruct p; simpl; [done| |done]. intros [? _] ?. by eapply um_kwrote_kok. Qed.

(** Only memory changes. *)
Definition mem_only s s' : Prop :=
  f_lg s' = f_lg s ∧ f_sb s' = f_sb s ∧ f_inodes s' = f_inodes s ∧ f_cwd s' = f_cwd s ∧ f_pid s' = f_pid s.

Lemma either_copyout_ok s p bs :
  um_ok (f_um s) → pl_ok s p (Z.of_nat (length bs)) →
  wp (either_copyout p bs) s (λ r s', mem_only s s' ∧ um_ok (f_um s') ∧ (r = 0 ∧ pl_wrote s p bs s' ∨ r = -1 ∧ pl_user p)).
Proof.
  intros Hu Hp. destruct p as [a|a|a]; cbn [either_copyout].
  - apply wp_onu. eapply wp_mono; [by apply um_copyout_ok|]. intros r u [Hu' Hr]. split_and!; [done|done|].
    destruct Hr as [[-> Hw]| -> ]; [left|right]; by split_and!.
  - apply wp_bind, wp_onu. eapply wp_mono; [by apply um_kwrite_ok|]. intros _ u [Hu' Hw]. apply wp_ret.
    split_and!; [done|done|]. left. by split_and!.
  - apply wp_bind, wp_modify, wp_ret. split_and!; [done|done|]. left. by split_and!.
Qed.

Lemma either_copyin_ok s p n :
  um_ok (f_um s) → pl_ok s p n → 0 <= n →
  wp (either_copyin p n) s (λ br s', s' = s ∧
    (br.2 = 0 ∧ Some <$> br.1 = pl_byte s p <$> seqZ 0 n ∨ br.2 = -1 ∧ ∃ k, 0 <= k < n ∧ pl_byte s p k = None)).
Proof.
  intros Hu Hp Hn. destruct p as [a|a|a]; cbn [either_copyin].
  - apply wp_onu. eapply wp_mono; [by apply um_copyin_ok|]. intros [bs r] u [-> Hr]. split; [by destruct s|done].
  - apply wp_bind, wp_onu. eapply wp_mono; [by apply um_kread_ok|]. intros bs u [-> ->]. apply wp_ret.
    split; [by destruct s|]. left. split; [done|]. cbn [fst]. by rewrite <- list_fmap_compose.
  - apply wp_bind, wp_gets, wp_ret. split; [done|]. left. split; [done|]. cbn [fst].
    apply list_eq. intros i. rewrite !list_lookup_fmap.
    destruct (decide (i < Z.to_nat n)%nat) as [Hi|Hi].
    + rewrite lookup_seqZ_lt, lookup_read_bytes by lia. done.
    + rewrite lookup_seqZ_ge by lia. rewrite (lookup_ge_None_2 (read_bytes _ _ _)); [done|]. rewrite length_read_bytes. lia.
Qed.

End Copy.

Record flatmem := mk_flat { fm_mem : memory; fm_sz : Z }.

(** Bytes stored at addresses modulo 2^64. *)
Fixpoint wwrite (m : memory) (a : Z) (bs : list Z) : memory :=
  match bs with
  | [] => m
  | b :: bs' => wwrite (mput m (w64 a) b) (a + 1) bs'
  end.

Definition wread (m : memory) (a n : Z) : list Z := (λ k, mget m (w64 (a + k))) <$> seqZ 0 n.

Definition fm_user (u : flatmem) (a n : Z) : bool :=
  forallb (λ k, w64 (a + k) <? fm_sz u) (seqZ 0 n).

Definition fm_put (a : Z) (bs : list Z) (u : flatmem) : flatmem := mk_flat (wwrite (fm_mem u) a bs) (fm_sz u).

#[global] Instance flat_mem : UserMem flatmem := {
  um_copyout a bs := λ u, if fm_user u a (Z.of_nat (length bs)) then Ok (0, fm_put a bs u) else Ok (-1, u);
  um_copyin a n := λ u, if fm_user u a n then Ok ((wread (fm_mem u) a n, 0), u) else Ok (([], -1), u);
  um_kwrite a bs := modify (fm_put a bs);
  um_kread a n := gets (λ u, wread (fm_mem u) a n)
}.

Lemma wwrite_w64 bs : ∀ m a, wwrite m (w64 a) bs = wwrite m a bs.
Proof.
  induction bs as [|b bs IH]; intros m a; [done|]. cbn [wwrite].
  rewrite <- (IH _ (w64 a + 1)), <- (IH _ (a + 1)). unfold w64. by rewrite Zplus_mod_idemp_l, Zmod_mod.
Qed.

Lemma wwrite_app bs1 bs2 : ∀ m a, wwrite m a (bs1 ++ bs2) = wwrite (wwrite m a bs1) (a + Z.of_nat (length bs1)) bs2.
Proof.
  induction bs1 as [|b bs1 IH]; intros m a; [simpl; f_equal; lia|]. cbn [app wwrite length]. rewrite IH. f_equal. lia.
Qed.

Lemma flat_wrote_app u u1 u2 a bs1 bs2 :
  u1 = fm_put a bs1 u → u2 = fm_put (w64 (a + Z.of_nat (length bs1))) bs2 u1 → u2 = fm_put a (bs1 ++ bs2) u.
Proof. intros -> ->. unfold fm_put. cbn [fm_mem fm_sz]. by rewrite wwrite_w64, wwrite_app. Qed.

(** User byte [a], if the user may read it. *)
Definition fm_byte (u : flatmem) (a : Z) : option Z := if a <? fm_sz u then Some (mget (fm_mem u) a) else None.

Lemma fm_user_bytes u a n :
  fm_user u a n = true → Some <$> wread (fm_mem u) a n = (λ k, fm_byte u (w64 (a + k))) <$> seqZ 0 n.
Proof.
  intros Hu. unfold wread. rewrite <- list_fmap_compose. apply list_fmap_ext. intros i k Hk. unfold compose, fm_byte.
  unfold fm_user in Hu. rewrite forallb_forall in Hu. rewrite Hu; [done|]. apply list_elem_of_In. by eapply list_elem_of_lookup_2.
Qed.

Lemma fm_user_none u a n : fm_user u a n = false → ∃ k, 0 <= k < n ∧ fm_byte u (w64 (a + k)) = None.
Proof.
  unfold fm_user. intros Hu. destruct (List.forallb _ _) eqn:E in Hu; [done|].
  assert (∃ k, k ∈ seqZ 0 n ∧ (w64 (a + k) <? fm_sz u) = false) as (k & Hk & Hb).
  { clear Hu. induction (seqZ 0 n) as [|k l IH]; [done|]. simpl in E. apply andb_false_iff in E as [E|E].
    - exists k. split; [apply elem_of_cons; by left|done].
    - destruct (IH E) as (k' & Hk' & Hb). exists k'. split; [apply elem_of_cons; by right|done]. }
  exists k. apply elem_of_seqZ in Hk. split; [lia|]. unfold fm_byte. by rewrite Hb.
Qed.

#[global] Program Instance flat_mem_ok : UserMemOk flatmem := {
  um_ok u := True;
  um_byte := fm_byte;
  um_kok u a n := True;
  um_kbyte u a := mget (fm_mem u) a;
  um_wrote u a bs u' := u' = fm_put a bs u;
  um_kwrote u a bs u' := u' = fm_put a bs u
}.
Next Obligation. by intros []. Qed.
Next Obligation. intros u u1 u2 a bs1 bs2 H1 H2. exact (flat_wrote_app u u1 u2 a bs1 bs2 H1 H2). Qed.
Next Obligation. by intros []. Qed.
Next Obligation. intros u u1 u2 a bs1 bs2 H1 H2. exact (flat_wrote_app u u1 u2 a bs1 bs2 H1 H2). Qed.
Next Obligation. done. Qed.
Next Obligation. done. Qed.
Next Obligation.
  intros u a bs _. unfold wp. cbn. destruct (fm_user u a _); (split; [done|]); [by left|by right].
Qed.
Next Obligation.
  intros u a n _ Hn. unfold wp. cbn. destruct (fm_user u a n) eqn:E; (split; [done|]); [left|right].
  - split; [done|]. by apply fm_user_bytes.
  - split; [done|]. by apply fm_user_none.
Qed.
Next Obligation. done. Qed.
Next Obligation. done. Qed.
