(* ===== verification/FsIo.v ===== *)
(** Reading and writing files: [readi] and [writei]. *)

From S2P Require Import Prelude Riscv Memory Str Cache Log LogSpec LogCrash Txn Fs FsSpec FsBlocks FsInode FsFile FsCopy.

(** ** Rounds of the loops *)

(** Number of blocks that [n] bytes at [off] touch. *)
Definition rounds (off n : Z) : Z := if n <=? 0 then 0 else (off mod BSIZE + n + BSIZE - 1) / BSIZE.

Lemma rounds_nonneg off n : 0 <= rounds off n.
Proof.
  unfold rounds. destruct (Z.leb_spec n 0); [done|]. pose proof (Z.mod_pos_bound off BSIZE ltac:(done)).
  apply Z.div_pos; [|done]. rewrite BSIZE_eq in *. lia.
Qed.

Lemma rounds_le off n : 0 <= n → rounds off n <= n / BSIZE + 2.
Proof.
  intros Hn. unfold rounds. pose proof (Z.mod_pos_bound off BSIZE ltac:(done)).
  assert (0 <= n / BSIZE) by (apply Z.div_pos; done).
  destruct (Z.leb_spec n 0); [lia|]. pose proof (Z.div_mod n BSIZE ltac:(done)). pose proof (Z.mod_pos_bound n BSIZE ltac:(done)).
  apply Z.lt_succ_r. apply Z.div_lt_upper_bound; [done|]. rewrite BSIZE_eq in *. lia.
Qed.

Lemma rounds_step off n :
  0 <= off → 0 < n → let m := Z.min n (BSIZE - off mod BSIZE) in
  0 < m <= n ∧ off mod BSIZE + m <= BSIZE ∧ rounds (off + m) (n - m) + 1 <= rounds off n.
Proof.
  intros Ho Hn m. pose proof (Z.mod_pos_bound off BSIZE ltac:(done)) as Hx. pose proof (Z.div_mod off BSIZE ltac:(done)) as Hd.
  split; [unfold m; lia|]. split; [unfold m; lia|]. unfold rounds at 2. rewrite (proj2 (Z.leb_gt n 0)) by done.
  unfold rounds. destruct (Z.leb_spec (n - m) 0) as [Hz|Hz].
  - rewrite Z.add_0_l. apply Z.div_le_lower_bound; [done|]. lia.
  - assert (Em : m = BSIZE - off mod BSIZE) by (unfold m in *; lia).
    assert ((off + m) mod BSIZE = 0) as ->.
    { rewrite Em. replace (off + (BSIZE - off mod BSIZE)) with ((off / BSIZE + 1) * BSIZE) by lia. by apply Z.mod_mul. }
    replace (off mod BSIZE + n + BSIZE - 1) with (0 + (n - m) + BSIZE - 1 + 1 * BSIZE) by lia.
    rewrite Z.div_add by done. lia.
Qed.

(** ** Bytes of a block of a file *)

Lemma fbyte_in_block d V off k :
  0 <= off → 0 <= k → off mod BSIZE + k < BSIZE → fblock d V (off / BSIZE) ≠ 0 →
  fbyte d V (off + k) = mget (V (fblock d V (off / BSIZE))) (off mod BSIZE + k).
Proof.
  intros Ho Hk Hlt H0. pose proof (Z.div_mod off BSIZE ltac:(done)). pose proof (Z.mod_pos_bound off BSIZE ltac:(done)).
  assert ((off + k) / BSIZE = off / BSIZE) as E1.
  { symmetry. apply (Z.div_unique_pos _ _ _ (off mod BSIZE + k)); lia. }
  assert ((off + k) mod BSIZE = off mod BSIZE + k) as E2.
  { symmetry. apply (Z.mod_unique_pos _ _ (off / BSIZE)); lia. }
  unfold fbyte. rewrite E1, E2. by rewrite (proj2 (Z.eqb_neq _ _)).
Qed.

Lemma read_block_bytes d V off m :
  0 <= off → 0 <= m → off mod BSIZE + m <= BSIZE → fblock d V (off / BSIZE) ≠ 0 →
  read_bytes (V (fblock d V (off / BSIZE))) (off mod BSIZE) (Z.to_nat m) = fbyte d V <$> seqZ off m.
Proof.
  intros Ho Hm Hlt H0. apply list_eq. intros i. rewrite list_lookup_fmap. destruct (decide (i < Z.to_nat m)%nat) as [Hi|Hi].
  - rewrite lookup_read_bytes, lookup_seqZ_lt by lia. simpl. f_equal. symmetry. apply fbyte_in_block; lia || done.
  - rewrite lookup_seqZ_ge by lia. apply lookup_ge_None. rewrite length_read_bytes. lia.
Qed.

(** Every block below the size is there. *)
Definition dense (d : dinode) (V : Z → block) : Prop :=
  d_size d <= MAXFILE * BSIZE ∧ ∀ n, 0 <= n → n * BSIZE < d_size d → fblock d V n ≠ 0.

Lemma dense_block d V off : dense d V → 0 <= off < d_size d → 0 <= off / BSIZE < MAXFILE ∧ fblock d V (off / BSIZE) ≠ 0.
Proof.
  intros [Hs Hd] Ho. pose proof (Z.div_mod off BSIZE ltac:(done)). pose proof (Z.mod_pos_bound off BSIZE ltac:(done)).
  assert (0 <= off / BSIZE) by (apply Z.div_pos; [lia|done]).
  split; [split; [done|]; apply Z.div_lt_upper_bound; [done|lia]|]. apply Hd; lia.
Qed.

(** Changing a block of a file. *)
Lemma file_write sb l V d n x :
  let a := fblock d V n in let V' := fset V a x in
  layout sb l → file_ok sb V d → 0 <= n < MAXFILE → a ≠ 0 →
  file_ok sb V' d ∧ file_step sb V d V' d ∧ (∀ m, fblock d V' m = fblock d V m) ∧
  (∀ o, 0 <= o < MAXFILE * BSIZE → fbyte d V' o = if decide (o / BSIZE = n) then mget x (o mod BSIZE) else fbyte d V o) ∧
  ∀ b, 0 <= b < sb_size sb → used sb V' b = used sb V b.
Proof.
  intros a V' Hly Hok Hn Ha. pose proof Hok as [fo_wf0 fo_ind0 fo_blk0 fo_inj0 fo_ne0]. pose proof (fo_blk0 n Hn Ha) as Hd. fold a in Hd.
  pose proof (data_not_bm _ _ Hly _ _ Hd) as Hnb. pose proof (fo_ne0 n Hn Ha) as Hne. fold a in Hne.
  assert (Hus : ∀ b, 0 <= b < sb_size sb → used sb V' b = used sb V b) by (intros b Hb; by eapply used_other).
  assert (Hblk : ∀ m, fblock d V' m = fblock d V m).
  { intros m. unfold fblock, V'. rewrite fset_ne by done. done. }
  assert (Hdat : ∀ b, is_data_block sb V b → is_data_block sb V' b).
  { intros b [Hr Hu]. split; [done|]. pose proof (dstart_pos _ _ Hly). rewrite Hus by lia. done. }
  split_and!; try done.
  - split; auto; intros m; rewrite Hblk; auto. intros m' Hm Hm'. rewrite Hblk. auto.
  - split.
    + intros b [Hb0 Hb]. left. split; [done|]. destruct Hb as [|(m & Hm & Hb)]; [by left|right]. rewrite Hblk in Hb. by exists m.
    + intros b Hr Hb Hu Ho. unfold V'. apply fset_ne. intros ->. apply Ho. by apply owns_fblock.
    + intros b Hr Hu. by rewrite Hus.
  - intros o Ho. unfold fbyte. rewrite Hblk. destruct (decide (o / BSIZE = n)) as [E|E].
    + rewrite E. fold a. rewrite (proj2 (Z.eqb_neq a 0)) by done. unfold V'. by rewrite fset_eq.
    + destruct (Z.eqb_spec (fblock d V (o / BSIZE)) 0) as [|H0]; [done|]. unfold V'. rewrite fset_ne; [done|].
      intros Heq. apply E. symmetry. apply fo_inj0; [done| |done|done].
      split; [apply Z.div_pos; [lia|done]|]. apply Z.div_lt_upper_bound; [done|lia].
Qed.

Section Io.
Context {C U : Type} {BC : BlockCache C} {BOK : BlockCacheOk C} {UM : UserMem U} {UOK : UserMemOk U}.
Abbreviation fs := (fsst C U).
Implicit Types (s : fs) (t : tx) (ip : nat) (i : inode).

(** ** readi *)

(** Only caches and memory may have changed. *)
Record rstep s t s' : Prop := {
  rs_sb : f_sb s' = f_sb s;
  rs_log : same_log (lg (f_lg s)) (lg (f_lg s'));
  rs_inodes : f_inodes s' = f_inodes s;
  rs_cwd : f_cwd s' = f_cwd s;
  rs_pid : f_pid s' = f_pid s;
  rs_ftx : ftx s' t
}.

Lemma rstep_trans s1 t s2 s3 : rstep s1 t s2 → rstep s2 t s3 → rstep s1 t s3.
Proof. intros [] []. split; try congruence. by eapply same_log_trans. Qed.

Lemma rstep_fstep s t s' : fstep s t s' t → ftx s' t → f_inodes s' = f_inodes s → rstep s t s'.
Proof. intros []. by split. Qed.

(** The number of bytes [readi] returns if no copy fails. *)
Definition read_count (d : dinode) (off n : Z) : Z :=
  if (d_size d <? off) || (2 ^ 32 <=? off + n) then 0 else Z.min n (d_size d - off).

Definition read_result s t s' (d : dinode) (dst : place) (off cnt r : Z) : Prop :=
  rstep s t s' ∧ um_ok (f_um s') ∧
  (r = -1 ∧ pl_user dst ∨ r = cnt ∧ pl_wrote s dst (fbyte d (t_view t) <$> seqZ off cnt) s').

Lemma mem_only_rstep s t s' : ftx s t → mem_only s s' → rstep s t s'.
Proof.
  intros [] (E1 & E2 & E3 & E4 & E5). split; try done; [rewrite E1; apply same_log_refl|].
  split; rewrite ?E1, ?E2; done.
Qed.

(** One block. *)
Lemma readi_block_ok s t ip i dst off m :
  ftx s t → t_held t = [] → iat s ip i → i_dev i = ROOTDEV → file_ok (f_sb s) (t_view t) (i_d i) →
  0 <= off → 0 < m → off mod BSIZE + m <= BSIZE →
  0 <= off / BSIZE < MAXFILE → fblock (i_d i) (t_view t) (off / BSIZE) ≠ 0 → um_ok (f_um s) → pl_ok s dst m →
  ∀ A (f : Z → M fs A) Q,
  (∀ r s', rstep s t s' → um_ok (f_um s') →
    (r = -1 ∧ pl_user dst ∨ r = 0 ∧ pl_wrote s dst (fbyte (i_d i) (t_view t) <$> seqZ off m) s') → wp (f r) s' Q) →
  wp (a ← bmap ip (off / BSIZE); bp ← bread (i_dev i) a; d ← bdata bp;
      r ← either_copyout dst (read_bytes d (off mod BSIZE) (Z.to_nat m)); brelse bp;; f r) s Q.
Proof.
  intros Hf Hh Hi Hdev Hok Ho Hm Hlt Hn H0 Hu Hp A f Q HQ. pose proof (ft_layout _ _ Hf) as Hly.
  apply wp_bind. eapply wp_mono; [by apply (bmap_present s t ip i)|]. intros a s1 (-> & P1 & Hf1 & I1).
  pose proof (fp_sb _ _ _ _ P1) as S1. set (a := fblock (i_d i) (t_view t) (off / BSIZE)) in *. rewrite Hdev.
  destruct (data_home _ _ _ Hly (proj1 (fo_blk _ _ _ Hok _ Hn H0))) as [Hhome _].
  assert (Hnh : a ∉ t_held t) by (rewrite Hh; apply not_elem_of_nil).
  apply wp_bind. eapply wp_mono; [apply (fbread_ok s1 t a Hf1); rewrite ?S1; try done; rewrite Hh; simpl; lia|].
  intros h s2 (P2 & Hf2 & Hat2 & I2).
  apply wp_bind. eapply wp_mono; [exact (fbdata_ok s2 _ h a Hf2 Hat2)|]. intros d s2' [-> ->]. cbn [t_view t_hold].
  unfold a. rewrite read_block_bytes by (done || lia). fold a.
  assert (EU : f_um s2 = f_um s) by (rewrite (fp_um _ _ _ _ P2); apply P1).
  assert (EF : f_frame s2 = f_frame s) by (rewrite (fp_frame _ _ _ _ P2); apply P1).
  assert (Hp2 : pl_ok s2 dst (Z.of_nat (length (fbyte (i_d i) (t_view t) <$> seqZ off m)))).
  { rewrite length_fmap, length_seqZ, Z2Nat.id by lia. destruct dst; simpl in *; [done|by rewrite EU|done]. }
  apply wp_bind. eapply wp_mono; [apply either_copyout_ok; [by rewrite EU|done]|].
  intros r s3 (Hmo & Hu3 & Hr). pose proof Hmo as (E1 & E2 & E3 & E4 & E5).
  assert (Hf3 : ftx s3 (t_hold a t)) by (by apply (mem_only_rstep s2)).
  apply wp_bind. eapply wp_mono; [apply (release_ok s3 t h a Hf3); [|done|by apply (ftx_clean s1 t)]|].
  { unfold fat in *. by rewrite E1. }
  intros _ s4 (P4 & Hf4 & I4). apply HQ.
  - split; try done.
    + rewrite (fp_sb _ _ _ _ P4), E2, (fp_sb _ _ _ _ P2). done.
    + eapply same_log_trans; [apply P1|]. eapply same_log_trans; [apply P2|]. rewrite <- E1. apply P4.
    + congruence.
    + rewrite (fp_cwd _ _ _ _ P4), E4, (fp_cwd _ _ _ _ P2). apply P1.
    + rewrite (fp_pid _ _ _ _ P4), E5, (fp_pid _ _ _ _ P2). apply P1.
  - by rewrite (fp_um _ _ _ _ P4).
  - destruct Hr as [[-> Hw]|[-> ?] ]; [right|by left]. split; [done|].
    eapply pl_wrote_same; [apply P4|apply P4|]. destruct dst; simpl in *; rewrite <- ?EU, <- ?EF; done.
Qed.

Lemma seqZ_split off a b : 0 <= a → 0 <= b → seqZ off (a + b) = seqZ off a ++ seqZ (off + a) b.
Proof. intros Ha Hb. by rewrite seqZ_app. Qed.

Lemma readi_ok s t ip i dst off n :
  ftx s t → t_held t = [] → iat s ip i → i_dev i = ROOTDEV →
  file_ok (f_sb s) (t_view t) (i_d i) → dense (i_d i) (t_view t) →
  0 <= off < 2 ^ 32 → 0 <= n < 2 ^ 32 → um_ok (f_um s) → pl_wf dst → pl_ok s dst n →
  wp (readi ip dst off n) s (λ r s', read_result s t s' (i_d i) dst off (read_count (i_d i) off n) r).
Proof.
  intros Hf Hh Hi Hdev Hok Hde Ho Hn Hu Hw Hp. unfold readi. apply wp_bind. eapply wp_geti; [done|].
  pose proof (dw_size _ (fo_wf _ _ _ Hok)) as Hsz.
  assert (R0 : rstep s t s) by (apply rstep_fstep; [apply fstep_refl|done|done]).
  set (cnt := read_count (i_d i) off n).
  destruct (Z.ltb_spec (d_size (i_d i)) off) as [Hgt|Hle]; cbn [orb].
  { apply wp_ret. unfold cnt, read_count. rewrite (proj2 (Z.ltb_lt _ _)) by done. cbn [orb].
    split_and!; [done|done|]. right. split; [done|]. by apply pl_wrote_nil. }
  destruct (Z.le_gt_cases (2 ^ 32) (off + n)) as [Hov|Hno].
  { assert (w32 (off + n) = off + n - 2 ^ 32) as ->.
    { unfold w32. symmetry. apply (Z.mod_unique_pos _ _ 1); lia. }
    rewrite (proj2 (Z.ltb_lt (off + n - 2 ^ 32) off)) by lia. apply wp_ret.
    unfold cnt, read_count. rewrite (proj2 (Z.leb_le _ _)) by lia. rewrite orb_true_r.
    split_and!; [done|done|]. right. split; [done|]. by apply pl_wrote_nil. }
  rewrite (w32_small (off + n)) by lia. rewrite (proj2 (Z.ltb_ge (off + n) off)) by lia.
  assert (Hcnt : cnt = Z.min n (d_size (i_d i) - off)).
  { unfold cnt, read_count. rewrite (proj2 (Z.ltb_ge _ _)), (proj2 (Z.leb_gt _ _)) by lia. done. }
  assert ((if d_size (i_d i) <? off + n then w32 (d_size (i_d i) - off) else n) = cnt) as ->.
  { destruct (Z.ltb_spec (d_size (i_d i)) (off + n)); [rewrite w32_small by lia|]; lia. }
  assert (Hmax : cnt < 2 ^ 31) by (destruct Hde as [Hd _]; rewrite MAXFILE_eq, BSIZE_eq in Hd; lia).
  apply wp_bind.
  apply (wp_loop _ (λ k v s1, ∃ tot, v = (tot, off + tot, pl_add dst tot) ∧ 0 <= tot <= cnt ∧ rstep s t s1 ∧
    um_ok (f_um s1) ∧ pl_wrote s dst (fbyte (i_d i) (t_view t) <$> seqZ off tot) s1 ∧
    Z.of_nat k = rounds (off + tot) (cnt - tot)) _) with (n := Z.to_nat (rounds off cnt)).
  2: { exists 0. rewrite Z.add_0_r, Z.sub_0_r, pl_add_0 by done. split_and!; try done; [lia|by apply pl_wrote_nil|].
       rewrite Z2Nat.id; [done|apply rounds_nonneg]. }
  2: { pose proof (rounds_le off cnt ltac:(lia)). pose proof (rounds_nonneg off cnt). lia. }
  intros k v s1 (tot & -> & Htot & R1 & Hu1 & Hw1 & Hk). unfold readi_body.
  destruct (Z.ltb_spec tot cnt) as [Hlt|Hge].
  2: { apply wp_ret, wp_ret. assert (tot = cnt) as -> by lia. rewrite i32_id by lia. split_and!; [done|done|]. right. by split. }
  apply wp_bind. eapply wp_geti; [unfold iat; by rewrite (rs_inodes _ _ _ R1)|].
  destruct (rounds_step (off + tot) (cnt - tot) ltac:(lia) ltac:(lia)) as (Hm & Hmb & Hrd). cbv zeta in *.
  set (m := Z.min (cnt - tot) (BSIZE - (off + tot) mod BSIZE)) in *.
  destruct (dense_block _ _ (off + tot) Hde ltac:(lia)) as [Hn1 H1].
  eapply (readi_block_ok s1 t ip i (pl_add dst tot) (off + tot) m); try done; try lia.
  - apply R1.
  - unfold iat. by rewrite (rs_inodes _ _ _ R1).
  - by rewrite (rs_sb _ _ _ R1).
  - eapply pl_ok_wrote in Hp; [|exact Hw1]. eapply pl_ok_sub; [exact Hp|lia|lia|lia].
  - intros r s2 R2 Hu2 [[-> Hus%pl_user_add]|[-> Hw2]]; cbn [Z.eqb Pos.eqb].
    + apply wp_ret, wp_ret. split_and!; [by eapply rstep_trans|done|]. by left.
    + apply wp_ret. rewrite !w32_small by lia. rewrite pl_add_add by lia.
      exists (Z.to_nat (rounds (off + (tot + m)) (cnt - (tot + m)))).
      replace (off + tot + m) with (off + (tot + m)) in * by lia. replace (cnt - tot - m) with (cnt - (tot + m)) in Hrd by lia.
      split; [pose proof (rounds_nonneg (off + (tot + m)) (cnt - (tot + m))); lia|].
      exists (tot + m). split_and!; [done|lia|lia|by eapply rstep_trans|done| |rewrite Z2Nat.id; [done|apply rounds_nonneg]].
      rewrite seqZ_split, fmap_app by lia. eapply pl_wrote_app; [exact Hw1|].
      rewrite length_fmap, length_seqZ, Z2Nat.id by lia. exact Hw2.
Qed.

(** ** writei *)

(** [m] bytes [bs] written at [off], using at most [c] log entries and [c] free
    blocks. *)
Record wrote s t (k : Z) ip i (off : Z) (bs : list Z) (c : Z) s' t' (d' : dinode) : Prop := {
  wr_step : fstep s t s' t';
  wr_ftx : ftx s' t';
  wr_budget : budget s' t' (k - c);
  wr_inodes : f_inodes s' = <[ip := set_d d' i]> (f_inodes s);
  wr_held : t_held t' = [];
  wr_ok : file_ok (f_sb s) (t_view t') d';
  wr_file : file_step (f_sb s) (t_view t) (i_d i) (t_view t') d';
  wr_meta : same_meta (i_d i) d';
  wr_byte : ∀ o, 0 <= o < MAXFILE * BSIZE → fbyte d' (t_view t') o =
    if decide (off <= o < off + Z.of_nat (length bs)) then w8 (default 0 (bs !! Z.to_nat (o - off)))
    else fbyte (i_d i) (t_view t) o;
  wr_keep : ∀ j, 0 <= j < MAXFILE → fblock (i_d i) (t_view t) j ≠ 0 → fblock d' (t_view t') j ≠ 0;
  wr_new : ∀ o, off <= o < off + Z.of_nat (length bs) → fblock d' (t_view t') (o / BSIZE) ≠ 0;
  wr_free : nfree (f_sb s) (t_view t) - c <= nfree (f_sb s) (t_view t')
}.

Lemma wrote_nil s t k ip i off :
  ftx s t → budget s t k → iat s ip i → t_held t = [] → file_ok (f_sb s) (t_view t) (i_d i) →
  wrote s t k ip i off [] 0 s t (i_d i).
Proof.
  intros Hf Hbu Hi Hh Hok. split; try done.
  - apply fstep_refl.
  - by rewrite Z.sub_0_r.
  - rewrite list_insert_id; [done|]. unfold iat in Hi. rewrite Hi. by destruct i.
  - apply file_step_refl.
  - intros o Ho. rewrite decide_False; [done|]. simpl. lia.
  - simpl. lia.
  - lia.
Qed.

Lemma wrote_app s t k ip i off bs1 c1 s1 t1 d1 bs2 c2 s2 t2 d2 :
  0 <= off → off + Z.of_nat (length bs1) <= MAXFILE * BSIZE → t_held t = [] → iat s ip i →
  wrote s t k ip i off bs1 c1 s1 t1 d1 →
  wrote s1 t1 (k - c1) ip (set_d d1 i) (off + Z.of_nat (length bs1)) bs2 c2 s2 t2 d2 →
  wrote s t k ip i off (bs1 ++ bs2) (c1 + c2) s2 t2 d2.
Proof.
  intros Hoff Hmax Hh Hi W1 W2. pose proof (fp_sb _ _ _ _ (wr_step _ _ _ _ _ _ _ _ _ _ _ W1)) as S1.
  pose proof (ft_layout _ _ (wr_ftx _ _ _ _ _ _ _ _ _ _ _ W1)) as Hly. rewrite S1 in Hly.
  destruct W1, W2. rewrite S1 in *. cbn [i_d set_d] in *. split; try done.
  - eapply fstep_trans; [|exact wr_step0|exact wr_step1]. rewrite Hh. by intros b ?%elem_of_nil.
  - by rewrite Z.sub_add_distr.
  - rewrite wr_inodes1, wr_inodes0, list_insert_insert_eq. done.
  - eapply file_step_trans; [|exact wr_ok1|exact wr_file0|exact wr_file1]. pose proof (dstart_pos _ _ Hly). lia.
  - destruct wr_meta0 as (?&?&?&?&?), wr_meta1 as (?&?&?&?&?). split_and!; congruence.
  - intros o Ho. rewrite wr_byte1, wr_byte0 by done. rewrite length_app, Nat2Z.inj_add.
    destruct (decide (off + Z.of_nat (length bs1) <= o < off + Z.of_nat (length bs1) + Z.of_nat (length bs2))) as [H2|H2].
    + rewrite decide_True by lia. rewrite lookup_app_r by lia. do 3 f_equal. lia.
    + destruct (decide (off <= o < off + Z.of_nat (length bs1))) as [H1|H1].
      * rewrite decide_True by lia. rewrite lookup_app_l by lia. done.
      * rewrite decide_False by lia. done.
  - intros j Hj H0. auto.
  - intros o Ho. rewrite length_app, Nat2Z.inj_add in Ho.
    destruct (decide (off + Z.of_nat (length bs1) <= o)) as [H2|H2]; [apply wr_new1; lia|].
    apply wr_keep1; [|apply wr_new0; lia]. split; [apply Z.div_pos; [lia|done]|]. apply Z.div_lt_upper_bound; [done|]. lia.
  - lia.
Qed.

Lemma pl_byte_same s s' p k : f_um s' = f_um s → f_frame s' = f_frame s → pl_byte s' p k = pl_byte s p k.
Proof. intros E1 E2. destruct p; simpl; by rewrite ?E1, ?E2. Qed.

Lemma pl_ok_same s s' p n : f_um s' = f_um s → pl_ok s p n → pl_ok s' p n.
Proof. intros E. destruct p; simpl; by rewrite ?E. Qed.

(** One round. *)
Lemma writei_round_ok s t k ip i src tot n off bs :
  let m := Z.min (n - tot) (BSIZE - off mod BSIZE) in
  ftx s t → budget s t k → 2 <= k → t_held t = [] → iat s ip i → i_dev i = ROOTDEV →
  file_ok (f_sb s) (t_view t) (i_d i) → 2 <= nfree (f_sb s) (t_view t) →
  0 <= tot < n → 0 <= off → off + m <= MAXFILE * BSIZE → um_ok (f_um s) → pl_ok s src m →
  Some <$> bs = pl_byte s src <$> seqZ 0 m →
  wp (writei_body ip n (tot, off, src)) s (λ r s', r = inl (w32 (tot + m), w32 (off + m), pl_add src m) ∧
    ∃ t' d', wrote s t k ip i off bs 2 s' t' d').
Proof.
  intros m Hf Hbu Hk Hh Hi Hdev Hok Hfree Htot Hoff Hmax Hu Hp Hbs. pose proof (ft_layout _ _ Hf) as Hly.
  destruct (rounds_step off (n - tot) Hoff ltac:(lia)) as (Hm & Hmb & _). fold m in Hm, Hmb.
  assert (Hlen : Z.of_nat (length bs) = m).
  { apply (f_equal length) in Hbs. rewrite !length_fmap, length_seqZ in Hbs. lia. }
  assert (Hn : 0 <= off / BSIZE < MAXFILE).
  { split; [apply Z.div_pos; [lia|done]|]. apply Z.div_lt_upper_bound; [done|lia]. }
  unfold writei_body. rewrite (proj2 (Z.ltb_lt tot n)) by lia. fold m.
  apply wp_bind. eapply wp_geti; [done|]. apply wp_bind.
  eapply wp_mono; [by apply (bmap_ok s t ip i (off / BSIZE) k)|].
  intros a s1 (t1 & d1 & k1 & P1 & Hf1 & I1 & H1 & G1 & Ha & F1 & B1 & K1). pose proof (fp_sb _ _ _ _ P1) as S1.
  assert (Ea : fblock d1 (t_view t1) (off / BSIZE) = a).
  { rewrite (gw_blk _ _ _ _ _ _ G1) by done. unfold with_block. by rewrite decide_True. }
  assert (Hd1 : fblock d1 (t_view t1) (off / BSIZE) ≠ 0) by (by rewrite Ea).
  pose proof (fo_blk _ _ _ (gw_ok _ _ _ _ _ _ G1) _ Hn Hd1) as Hdat. rewrite Ea in Hdat.
  destruct (data_home _ _ _ Hly (proj1 Hdat)) as [Hhome Hnb].
  assert (Hnh : a ∉ t_held t1) by (rewrite H1; apply not_elem_of_nil). rewrite Hdev.
  apply wp_bind. eapply wp_mono; [apply (fbread_ok s1 t1 a Hf1); rewrite ?S1; try done; rewrite H1; simpl; lia|].
  intros h s2 (P2 & Hf2 & Hat2 & I2). pose proof (fp_sb _ _ _ _ P2) as S2. rewrite S1 in S2.
  assert (EU : f_um s2 = f_um s) by (rewrite (fp_um _ _ _ _ P2); apply P1).
  assert (EF : f_frame s2 = f_frame s) by (rewrite (fp_frame _ _ _ _ P2); apply P1).
  apply wp_bind. eapply wp_mono; [apply (either_copyin_ok s2 src m); [by rewrite EU|by eapply pl_ok_same|lia]|].
  intros [bs' r] s2' [-> Hr]. cbn [fst snd] in Hr.
  assert (Hsame : ∀ j, pl_byte s2 src j = pl_byte s src j) by (intros j; by apply pl_byte_same).
  destruct Hr as [[-> Hb]|[_ (j & Hj & Hnone)]].
  2: { exfalso. assert (Hx : (pl_byte s src <$> seqZ 0 m) !! Z.to_nat j = Some None).
       { rewrite list_lookup_fmap, lookup_seqZ_lt by lia. cbn [fmap option_fmap option_map].
         rewrite Z2Nat.id, Z.add_0_l, <- Hsame, Hnone by lia. done. }
       rewrite <- Hbs, list_lookup_fmap in Hx. by destruct (bs !! Z.to_nat j). }
  assert (bs' = bs) as ->.
  { apply (list_fmap_eq_inj Some); [congruence|]. rewrite Hb, Hbs. apply list_fmap_ext. intros. apply Hsame. }
  apply wp_bind. eapply wp_mono; [exact (fbdata_ok s2 _ h a Hf2 Hat2)|]. intros d s2' [-> ->]. cbn [t_view t_hold].
  cbn [Z.eqb]. set (x := write_bytes (t_view t1 a) (off mod BSIZE) bs).
  destruct (file_write _ _ (t_view t1) d1 (off / BSIZE) x Hly (gw_ok _ _ _ _ _ _ G1) Hn Hd1) as (W1 & W2 & W3 & W4 & W5).
  rewrite Ea in *.
  apply wp_seq3. eapply wp_mono; [apply (write_back_ok s2 t1 h a x k1 Hf2 Hat2 Hnh)|].
  - by eapply budget_read.
  - rewrite S2. lia.
  - rewrite S2. intros b Hb'. rewrite W5 by (destruct Hly; lia). pose proof (ft_meta _ _ Hf1 b) as Hmt. rewrite S1 in Hmt. by apply Hmt.
  - intros _ s3 (P3 & Hf3 & B3 & I3). apply wp_ret. split; [done|]. rewrite S2 in B3.
    exists (t_write a x t1), d1. rewrite <- view_write in W1, W2, W3, W4, W5.
    split; try done.
    + eapply fstep_trans; [|exact P1|]; [rewrite Hh; by intros b ?%elem_of_nil|]. by eapply fstep_through.
    + eapply budget_le; [|exact B3]. lia.
    + congruence.
    + eapply file_step_trans; [|exact W1|apply G1|exact W2]. pose proof (dstart_pos _ _ Hly). lia.
    + apply G1.
    + intros o Ho. rewrite W4, (gw_byte _ _ _ _ _ _ G1) by done. rewrite Hlen.
      pose proof (Z.div_mod o BSIZE ltac:(done)). pose proof (Z.mod_pos_bound o BSIZE ltac:(done)).
      pose proof (Z.div_mod off BSIZE ltac:(done)). pose proof (Z.mod_pos_bound off BSIZE ltac:(done)).
      destruct (decide (o / BSIZE = off / BSIZE)) as [E|E].
      * unfold x. rewrite mget_write_bytes, Hlen. destruct (decide (off <= o < off + m)) as [Hin|Hout].
        -- rewrite decide_True by lia. do 3 f_equal. lia.
        -- rewrite decide_False by lia. rewrite <- (gw_byte _ _ _ _ _ _ G1) by done. unfold fbyte.
           rewrite E, Ea. by rewrite (proj2 (Z.eqb_neq a 0)).
      * rewrite decide_False; [done|]. intros Hin. apply E.
        symmetry. apply (Z.div_unique_pos _ _ _ (off mod BSIZE + (o - off))); lia.
    + intros j Hj H0. rewrite W3, (gw_blk _ _ _ _ _ _ G1) by done. unfold with_block. by case_decide.
    + intros o Ho. rewrite W3. rewrite Hlen in Ho.
      assert (o / BSIZE = off / BSIZE) as ->; [|by rewrite Ea].
      pose proof (Z.div_mod off BSIZE ltac:(done)). pose proof (Z.mod_pos_bound off BSIZE ltac:(done)).
      symmetry. apply (Z.div_unique_pos _ _ _ (off mod BSIZE + (o - off))); lia.
    + rewrite (nfree_ext _ _ _ W5). lia.
Qed.

Lemma wrote_le s t k ip i off bs c c' s' t' d' :
  c <= c' → wrote s t k ip i off bs c s' t' d' → wrote s t k ip i off bs c' s' t' d'.
Proof. intros Hc []. split; try done; [|lia]. eapply budget_le; [|done]. lia. Qed.

Lemma wrote_iat s t k ip i off bs c s' t' d' :
  iat s ip i → wrote s t k ip i off bs c s' t' d' → iat s' ip (set_d d' i).
Proof. intros Hi []. unfold iat in *. rewrite wr_inodes0, list_lookup_insert_eq; [done|]. by eapply lookup_lt_Some. Qed.

(** The bytes of one round. *)
Lemma chunk_bytes s s1 src bs tot m :
  0 <= tot → 0 <= m → tot + m <= Z.of_nat (length bs) → f_um s1 = f_um s → f_frame s1 = f_frame s →
  Some <$> bs = pl_byte s src <$> seqZ 0 (Z.of_nat (length bs)) →
  Some <$> take (Z.to_nat m) (drop (Z.to_nat tot) bs) = pl_byte s1 (pl_add src tot) <$> seqZ 0 m.
Proof.
  intros Htot Hm Hle E1 E2 Hbs. apply list_eq. intros j. rewrite !list_lookup_fmap.
  destruct (decide (j < Z.to_nat m)%nat) as [Hj|Hj].
  - rewrite lookup_take_lt, lookup_drop, lookup_seqZ_lt by lia. cbn [fmap option_fmap option_map].
    rewrite (pl_byte_same s s1), pl_byte_add by (done || lia).
    apply (f_equal (.!! (Z.to_nat tot + j)%nat)) in Hbs. rewrite !list_lookup_fmap, lookup_seqZ_lt in Hbs by lia.
    rewrite Hbs. cbn [fmap option_fmap option_map]. do 2 f_equal. lia.
  - rewrite lookup_take_ge, lookup_seqZ_ge by lia. done.
Qed.

Lemma writei_loop_ok s t k ip i src off bs :
  let n := Z.of_nat (length bs) in
  ftx s t → budget s t k → 2 * rounds off n <= k → t_held t = [] → iat s ip i → i_dev i = ROOTDEV →
  file_ok (f_sb s) (t_view t) (i_d i) → 2 * rounds off n <= nfree (f_sb s) (t_view t) →
  0 <= off → off + n <= MAXFILE * BSIZE → um_ok (f_um s) → pl_wf src → pl_ok s src n →
  Some <$> bs = pl_byte s src <$> seqZ 0 n →
  wp (loop (Z.to_nat (n / BSIZE + 3)) (writei_body ip n) (0, off, src)) s (λ r s', r = (n, off + n) ∧
    ∃ t' d', wrote s t k ip i off bs (2 * rounds off n) s' t' d').
Proof.
  intros n Hf Hbu Hk Hh Hi Hdev Hok Hfree Hoff Hmax Hu Hw Hp Hbs.
  assert (Hbig : MAXFILE * BSIZE < 2 ^ 31) by (rewrite MAXFILE_eq, BSIZE_eq; lia).
  apply (wp_loop _ (λ j v s1, ∃ tot t1 d1, v = (tot, off + tot, pl_add src tot) ∧ 0 <= tot <= n ∧
    wrote s t k ip i off (take (Z.to_nat tot) bs) (2 * (rounds off n - rounds (off + tot) (n - tot))) s1 t1 d1 ∧
    Z.of_nat j = rounds (off + tot) (n - tot)) _) with (n := Z.to_nat (rounds off n)).
  2: { exists 0, t, (i_d i). rewrite Z.add_0_r, Z.sub_0_r, pl_add_0 by done. split_and!; try done; try lia.
       - rewrite Z.sub_diag. by apply wrote_nil.
       - rewrite Z2Nat.id; [done|apply rounds_nonneg]. }
  2: { pose proof (rounds_le off n ltac:(lia)). pose proof (rounds_nonneg off n). lia. }
  intros j v s1 (tot & t1 & d1 & -> & Htot & W1 & Hj).
  destruct (decide (tot = n)) as [->|Hlt].
  { unfold writei_body. rewrite Z.ltb_irrefl. apply wp_ret. split; [done|]. exists t1, d1.
    rewrite take_ge in W1 by lia. eapply wrote_le; [|exact W1]. pose proof (rounds_nonneg (off + n) (n - n)). lia. }
  destruct (rounds_step (off + tot) (n - tot) ltac:(lia) ltac:(lia)) as (Hm & Hmb & Hrd). cbv zeta in *.
  set (m := Z.min (n - tot) (BSIZE - (off + tot) mod BSIZE)) in *.
  pose proof (rounds_nonneg (off + tot + m) (n - tot - m)) as Hrn.
  pose proof (wr_step _ _ _ _ _ _ _ _ _ _ _ W1) as P1. pose proof (fp_sb _ _ _ _ P1) as S1.
  set (bs1 := take (Z.to_nat m) (drop (Z.to_nat tot) bs)).
  assert (Hb1 : Some <$> bs1 = pl_byte s1 (pl_add src tot) <$> seqZ 0 m) by (apply (chunk_bytes s); try done; try lia; apply P1).
  assert (Hl1 : Z.of_nat (length bs1) = m) by (unfold bs1; rewrite length_take, length_drop; lia).
  assert (Hlt1 : Z.of_nat (length (take (Z.to_nat tot) bs)) = tot) by (rewrite length_take; lia).
  pose proof (wr_free _ _ _ _ _ _ _ _ _ _ _ W1) as F1.
  eapply wp_mono; [apply (writei_round_ok s1 t1 (k - 2 * (rounds off n - rounds (off + tot) (n - tot))) ip (set_d d1 i)
    (pl_add src tot) tot n (off + tot) bs1)|]; fold m; try done; try lia; try (by apply W1).
  - by eapply wrote_iat.
  - rewrite S1. apply W1.
  - rewrite S1. lia.
  - by rewrite (fp_um _ _ _ _ P1).
  - eapply pl_ok_sub; [eapply pl_ok_same; [|exact Hp]; apply P1|lia|lia|lia].
  - intros r s2 (-> & t2 & d2 & W2).
    exists (Z.to_nat (rounds (off + tot + m) (n - tot - m))). split; [lia|].
    exists (tot + m), t2, d2. rewrite !w32_small, pl_add_add by lia.
    replace (off + (tot + m)) with (off + tot + m) by lia. replace (n - (tot + m)) with (n - tot - m) by lia.
    split_and!; [done|lia|lia| |rewrite Z2Nat.id; lia].
    replace (take (Z.to_nat (tot + m)) bs) with (take (Z.to_nat tot) bs ++ bs1)
      by (unfold bs1; rewrite Z2Nat.inj_add by lia; apply take_take_drop).
    eapply wrote_le; [|eapply wrote_app; [exact Hoff| |exact Hh|exact Hi|exact W1|rewrite Hlt1; exact W2]]; lia.
Qed.

(** What [writei] of [bs] at [off] does. *)
Record written s t (k : Z) ip i (off : Z) (bs : list Z) s' t' (d' : dinode) : Prop := {
  wn_step : fstep s t s' t';
  wn_ftx : ftx s' t';
  wn_budget : budget s' t' k;
  wn_inodes : f_inodes s' = <[ip := set_d d' i]> (f_inodes s);
  wn_held : t_held t' = [];
  wn_ok : file_ok (f_sb s) (t_view t') d';
  wn_meta : d' = mk_dinode (d_type (i_d i)) (d_major (i_d i)) (d_minor (i_d i)) (d_nlink (i_d i))
    (Z.max (d_size (i_d i)) (off + Z.of_nat (length bs))) (d_addrs d');
  wn_byte : ∀ o, 0 <= o < MAXFILE * BSIZE → fbyte d' (t_view t') o =
    if decide (off <= o < off + Z.of_nat (length bs)) then w8 (default 0 (bs !! Z.to_nat (o - off)))
    else fbyte (i_d i) (t_view t) o;
  wn_dense : dense (i_d i) (t_view t) → dense d' (t_view t');
  wn_inode : ∀ j, 0 <= j < sb_ninodes (f_sb s) →
    dinode_on (f_sb s) (t_view t') j = if decide (j = i_inum i) then d' else dinode_on (f_sb s) (t_view t) j;
  wn_owns : ∀ b, owns d' (t_view t') b → owns (i_d i) (t_view t) b ∨ used (f_sb s) (t_view t) b = false;
  wn_frame : ∀ b, 0 <= b < sb_size (f_sb s) → ¬ is_bm (f_sb s) b → used (f_sb s) (t_view t) b = true →
    ¬ owns (i_d i) (t_view t) b → b ≠ IBLOCK (i_inum i) (f_sb s) → t_view t' b = t_view t b;
  wn_used : ∀ b, 0 <= b < sb_size (f_sb s) → used (f_sb s) (t_view t) b = true → used (f_sb s) (t_view t') b = true;
  wn_free : nfree (f_sb s) (t_view t) - 2 * rounds off (Z.of_nat (length bs)) <= nfree (f_sb s) (t_view t')
}.

(** Block maps and bytes depend on the data blocks of the file only. *)
Lemma file_view sb V V' d :
  file_ok sb V d → (∀ b, is_data_block sb V b → V' b = V b) → (∀ b, 0 <= b < sb_size sb → used sb V' b = used sb V b) →
  0 <= dstart sb →
  file_ok sb V' d ∧ (∀ n, fblock d V' n = fblock d V n) ∧ ∀ o, 0 <= o < MAXFILE * BSIZE → fbyte d V' o = fbyte d V o.
Proof.
  intros Hok HV Hus Hd. assert (Hblk : ∀ n, fblock d V' n = fblock d V n) by (intros n; by apply (fblock_frame sb)).
  assert (Hdat : ∀ b, is_data_block sb V b → is_data_block sb V' b).
  { intros b [Hr Hu]. split; [done|]. rewrite Hus by lia. done. }
  pose proof Hok as [fo_wf0 fo_ind0 fo_blk0 fo_inj0 fo_ne0]. split_and!; [|done|].
  - split; auto; intros m; rewrite Hblk; auto. intros m' Hm Hm'. rewrite Hblk. auto.
  - intros o Ho. unfold fbyte. rewrite Hblk. destruct (Z.eqb_spec (fblock d V (o / BSIZE)) 0); [done|].
    rewrite HV; [done|]. apply fo_blk0; [|done]. split; [apply Z.div_pos; [lia|done]|]. apply Z.div_lt_upper_bound; [done|lia].
Qed.

Lemma file_ok_meta sb V d d' :
  dinode_wf d' → d_addrs d' = d_addrs d → file_ok sb V d →
  file_ok sb V d' ∧ (∀ n, fblock d' V n = fblock d V n) ∧ ∀ o, fbyte d' V o = fbyte d V o.
Proof.
  intros Hwf Ha [fo_wf0 fo_ind0 fo_blk0 fo_inj0 fo_ne0].
  assert (Hadr : ∀ j, addr_of d' j = addr_of d j) by (intros j; unfold addr_of; by rewrite Ha).
  assert (Hblk : ∀ n, fblock d' V n = fblock d V n) by (intros n; unfold fblock; by rewrite !Hadr).
  split_and!; [|done|intros o; unfold fbyte; by rewrite Hblk].
  split; [done|rewrite Hadr; auto|..]; intros m; rewrite Hblk; rewrite ?Hadr; auto. intros m' Hm Hm'. rewrite Hblk. auto.
Qed.

(** The end of [writei]: the inode is written back. *)
Lemma written_ok s t k ip i off bs s1 t1 d1 c s2 s3 t3 :
  let d2 := set_size (Z.max (d_size d1) (off + Z.of_nat (length bs))) d1 in
  ftx s t → file_ok (f_sb s) (t_view t) (i_d i) → iat s ip i → 0 <= off →
  off + Z.of_nat (length bs) <= MAXFILE * BSIZE → off <= d_size (i_d i) →
  0 <= i_inum i < sb_ninodes (f_sb s) → t_held t = [] →
  wrote s t k ip i off bs (2 * rounds off (Z.of_nat (length bs))) s1 t1 d1 →
  s2 = set_inodes (<[ip := set_d d2 i]> (f_inodes s1)) s1 → wrote_inode s2 t1 c (set_d d2 i) s3 t3 →
  written s t (c - 1) ip i off bs s3 t3 d2.
Proof.
  intros d2 Hf Hok Hi Hoff Hmax Hsz Hin Hh W -> WI. pose proof (ft_layout _ _ Hf) as Hly.
  pose proof (fp_sb _ _ _ _ (wr_step _ _ _ _ _ _ _ _ _ _ _ W)) as S1. pose proof (dstart_pos _ _ Hly) as Hdp.
  destruct W, WI. cbn [f_sb set_inodes i_d i_inum set_d f_inodes] in *. rewrite S1 in *.
  destruct (IBLOCK_eq _ _ _ Hly Hin) as (_ & _ & Hib & HIr). destruct (layout_pos _ _ Hly) as (_ & Hnb & Hds).
  assert (Hbig : MAXFILE * BSIZE < 2 ^ 31) by (rewrite MAXFILE_eq, BSIZE_eq; lia).
  destruct (file_ok_meta (f_sb s) (t_view t1) d1 d2) as (Hok2 & Hblk2 & Hby2); [|done|done|].
  { destruct (fo_wf _ _ _ wr_ok0). split; try done. unfold d2. cbn [d_size set_size]. lia. }
  destruct (file_view (f_sb s) (t_view t1) (t_view t3) d2) as (Hok3 & Hblk3 & Hby3); [done| |done|lia|].
  { intros b [Hr _]. apply wi_view. lia. }
  assert (Howns : ∀ b, owns d2 (t_view t3) b → owns d1 (t_view t1) b).
  { intros b [Hb0 [Hb|(n & Hn & Hb)]]; (split; [done|]); [by left|right]. exists n. split; [done|]. by rewrite <- Hblk2, <- Hblk3. }
  split; try done.
  - destruct wr_step0, wi_step. cbn [f_lg f_um f_frame f_cwd f_pid f_sb set_inodes] in *. split; try congruence.
    + by eapply same_log_trans.
    + auto.
    + intros h bn [_ Hin']. rewrite Hh in Hin'. by apply elem_of_nil in Hin'.
  - rewrite wi_inodes, wr_inodes0, list_insert_insert_eq. done.
  - rewrite wi_held. done.
  - unfold d2. destruct wr_meta0 as (E1 & E2 & E3 & E4 & E5). unfold set_size. cbn [d_addrs]. congruence.
  - intros o Ho. rewrite Hby3, Hby2 by done. by apply wr_byte0.
  - intros [Hs Hd]. destruct wr_meta0 as (_ & _ & _ & _ & E5). split.
    + unfold d2. cbn [d_size set_size]. lia.
    + intros n Hn Hlt. unfold d2 in Hlt. cbn [d_size set_size] in Hlt. rewrite Hblk3, Hblk2.
      destruct (decide (n * BSIZE < d_size (i_d i))) as [Hin'|Hout].
      * apply wr_keep0; [|by apply Hd]. rewrite BSIZE_eq, MAXFILE_eq in *. lia.
      * rewrite <- (Z.div_mul n BSIZE) by done. apply wr_new0. lia.
  - intros j Hj. rewrite wi_inode by done. case_decide; [done|]. unfold dinode_on. f_equal.
    destruct (IBLOCK_eq _ _ _ Hly Hj) as (_ & _ & Hjb & HJr).
    apply wr_file0; [destruct Hly; lia|done|by apply Hf; lia|]. intros Ho.
    destruct (owns_data _ _ _ _ Hok Ho) as [Hr _]. lia.
  - intros b Hb. apply wr_file0, Howns, Hb.
  - intros b Hr Hnbm Hu Ho Hne. rewrite wi_view by done. by apply wr_file0.
  - intros b Hr Hu. rewrite wi_used by done. by apply wr_file0.
  - rewrite (nfree_ext _ (t_view t1) (t_view t3)); done.
Qed.

Lemma set_inodes_id s : set_inodes (f_inodes s) s = s.
Proof. by destruct s. Qed.

Lemma writei_ok s t k ip i src off bs :
  let n := Z.of_nat (length bs) in
  ftx s t → budget s t k → 2 * rounds off n + 1 <= k → t_held t = [] → iat s ip i → i_dev i = ROOTDEV →
  0 <= i_inum i < sb_ninodes (f_sb s) → file_ok (f_sb s) (t_view t) (i_d i) →
  2 * rounds off n <= nfree (f_sb s) (t_view t) →
  0 <= off <= d_size (i_d i) → off + n <= MAXFILE * BSIZE → um_ok (f_um s) → pl_wf src → pl_ok s src n →
  Some <$> bs = pl_byte s src <$> seqZ 0 n →
  wp (writei ip src off n) s (λ r s', r = n ∧ ∃ t' d', written s t (k - 2 * rounds off n - 1) ip i off bs s' t' d').
Proof.
  intros n Hf Hbu Hk Hh Hi Hdev Hin Hok Hfree Hoff Hmax Hu Hw Hp Hbs.
  assert (Hbig : MAXFILE * BSIZE < 2 ^ 31) by (rewrite MAXFILE_eq, BSIZE_eq; lia).
  unfold writei. apply wp_bind. eapply wp_geti; [done|].
  rewrite (w32_small (off + n)) by lia.
  rewrite (proj2 (Z.ltb_ge (d_size (i_d i)) off)), (proj2 (Z.ltb_ge (off + n) off)) by lia. cbn [orb].
  rewrite (proj2 (Z.ltb_ge _ _)) by lia.
  apply wp_bind. eapply wp_mono; [apply (writei_loop_ok s t k ip i src off bs); fold n; try done; lia|].
  intros r s1 (-> & t1 & d1 & W1). fold n in W1 |- *. pose proof (wrote_iat _ _ _ _ _ _ _ _ _ _ _ Hi W1) as Hi1.
  pose proof (fp_sb _ _ _ _ (wr_step _ _ _ _ _ _ _ _ _ _ _ W1)) as S1.
  apply wp_bind. eapply wp_geti; [done|]. cbn [i_d set_d].
  set (d2 := set_size (Z.max (d_size d1) (off + n)) d1).
  set (s2 := set_inodes (<[ip := set_d d2 i]> (f_inodes s1)) s1).
  apply wp_bind. apply (wp_mono _ _ (λ _ s', s' = s2)).
  { destruct (Z.ltb_spec (d_size d1) (off + n)) as [Hlt|Hge].
    - eapply wp_updi; [done|]. unfold s2, d2. by rewrite Z.max_r by lia.
    - apply wp_ret. unfold s2, d2. rewrite Z.max_l by lia. rewrite list_insert_id; [by rewrite set_inodes_id|].
      unfold iat in Hi1. rewrite Hi1. by destruct d1. }
  intros _ s2' ->. pose proof (wr_meta _ _ _ _ _ _ _ _ _ _ _ W1) as (_ & _ & _ & _ & E5).
  apply wp_bind. eapply wp_mono; [apply (iupdate_ok s2 t1 ip (set_d d2 i) (k - 2 * rounds off n)); try done|].
  - destruct (wr_ftx _ _ _ _ _ _ _ _ _ _ _ W1). by split.
  - destruct (wr_budget _ _ _ _ _ _ _ _ _ _ _ W1). by split.
  - lia.
  - apply W1.
  - unfold iat, s2. cbn [f_inodes set_inodes]. rewrite list_lookup_insert_eq; [done|]. by eapply lookup_lt_Some.
  - cbn. by rewrite S1.
  - destruct (fo_wf _ _ _ (wr_ok _ _ _ _ _ _ _ _ _ _ _ W1)). cbn [i_d set_d]. unfold d2. split; try done. cbn [d_size set_size]. lia.
  - intros _ s3 (t3 & WI). apply wp_ret. split; [rewrite i32_id; [done|lia]|]. exists t3, d2.
    eapply written_ok; try done; lia.
Qed.

(** The calls that [writei] refuses change nothing. *)
Lemma writei_refuses s ip i src off n :
  iat s ip i → 0 <= off < 2 ^ 32 → 0 <= n < 2 ^ 32 →
  d_size (i_d i) < off ∨ 2 ^ 32 <= off + n ∨ MAXFILE * BSIZE < off + n →
  wp (writei ip src off n) s (λ r s', r = -1 ∧ s' = s).
Proof.
  intros Hi Ho Hn Hbad. unfold writei. apply wp_bind. eapply wp_geti; [done|].
  destruct (Z.ltb_spec (d_size (i_d i)) off) as [|Hle]; [by apply wp_ret|]. cbn [orb].
  destruct (Z.le_gt_cases (2 ^ 32) (off + n)) as [Hov|Hno].
  - assert (w32 (off + n) = off + n - 2 ^ 32) as ->.
    { unfold w32. symmetry. apply (Z.mod_unique_pos _ _ 1); lia. }
    rewrite (proj2 (Z.ltb_lt (off + n - 2 ^ 32) off)) by lia. by apply wp_ret.
  - rewrite (w32_small (off + n)) by lia. rewrite (proj2 (Z.ltb_ge (off + n) off)) by lia.
    rewrite (proj2 (Z.ltb_lt (MAXFILE * BSIZE) _)) by lia. by apply wp_ret.
Qed.

End Io.
