(* ===== verification/FsUse.v ===== *)
(** File contents: what [writei] and [readi] do for their callers. *)

From S2P Require Import Prelude Riscv Memory Str Cache Log LogSpec LogCrash Txn Fs FsSpec FsBlocks FsInode FsFile FsCopy FsIo.

Section Use.
Context {C U : Type} {BC : BlockCache C} {BOK : BlockCacheOk C} {UM : UserMem U} {UOK : UserMemOk U}.
Abbreviation fs := (fsst C U).
Implicit Types (s : fs) (t : tx) (ip : nat) (i : inode).

(** The file of the locked inode [ip], inside the transaction [t]. *)
Record open_file_ok s t ip i : Prop := {
  op_ftx : ftx s t;
  op_held : t_held t = [];
  op_at : iat s ip i;
  op_dev : i_dev i = ROOTDEV;
  op_inum : 0 <= i_inum i < sb_ninodes (f_sb s);
  op_file : file_ok (f_sb s) (t_view t) (i_d i);
  op_dense : dense (i_d i) (t_view t);
  op_mem : um_ok (f_um s)
}.

(** Room in the log, on the disk and in the file for [bs] at [off]; the source
    holds [bs]. *)
Record can_write s t k i (src : place) (off : Z) (bs : list Z) : Prop := {
  cw_budget : budget s t k;
  cw_log : 2 * rounds off (Z.of_nat (length bs)) + 1 <= k;
  cw_free : 2 * rounds off (Z.of_nat (length bs)) <= nfree (f_sb s) (t_view t);
  cw_off : 0 <= off <= d_size (i_d i);
  cw_max : off + Z.of_nat (length bs) <= MAXFILE * BSIZE;
  cw_wf : pl_wf src;
  cw_ok : pl_ok s src (Z.of_nat (length bs));
  cw_bytes : Some <$> bs = pl_byte s src <$> seqZ 0 (Z.of_nat (length bs))
}.

(** [d] is a file with no block in common with that of [i]. *)
Definition other_file s t i (d : dinode) : Prop :=
  file_ok (f_sb s) (t_view t) d ∧ ∀ b, owns d (t_view t) b → ¬ owns (i_d i) (t_view t) b.

Lemma other_file_kept s t k ip i off bs s' t' d' d :
  ftx s t → 0 <= i_inum i < sb_ninodes (f_sb s) → written s t k ip i off bs s' t' d' → other_file s t i d →
  file_ok (f_sb s) (t_view t') d ∧ (∀ n, 0 <= n < MAXFILE → fblock d (t_view t') n = fblock d (t_view t) n) ∧
  ∀ o, 0 <= o < MAXFILE * BSIZE → fbyte d (t_view t') o = fbyte d (t_view t) o.
Proof.
  intros Hf Hin W [Hok Hdis]. pose proof (ft_layout _ _ Hf) as Hly.
  destruct (IBLOCK_eq _ _ _ Hly Hin) as (_ & _ & _ & Hib). destruct (layout_pos _ _ Hly) as (_ & Hnb & Hds).
  assert (HV : ∀ b, owns d (t_view t) b → t_view t' b = t_view t b).
  { intros b Hb. pose proof (owns_data _ _ _ _ Hok Hb) as [Hr Hu].
    apply (wn_frame _ _ _ _ _ _ _ _ _ _ W); [lia|by apply (data_not_bm _ _ Hly (t_view t))|done|by apply Hdis|lia]. }
  apply file_frame; [done|done|]. intros b [Hr Hu]. split; [done|]. apply (wn_used _ _ _ _ _ _ _ _ _ _ W); [lia|done].
Qed.

Lemma written_open s t k ip i off bs s' t' d' :
  open_file_ok s t ip i → written s t k ip i off bs s' t' d' → open_file_ok s' t' ip (set_d d' i).
Proof.
  intros [] W. pose proof (fp_sb _ _ _ _ (wn_step _ _ _ _ _ _ _ _ _ _ W)) as S. pose proof W as [].
  split; try done; try rewrite S; try done; [|by apply wn_dense|by rewrite (fp_um _ _ _ _ wn_step)].
  unfold iat. rewrite wn_inodes, list_lookup_insert_eq; [done|]. by eapply lookup_lt_Some.
Qed.


Lemma pl_wrote_from s s1 p bs s' : f_um s1 = f_um s → f_frame s1 = f_frame s → pl_wrote s1 p bs s' → pl_wrote s p bs s'.
Proof. intros E1 E2. destruct p; simpl; rewrite ?E1, ?E2; done. Qed.

(** C16. What writei stored readi reads back: a read of the same range after the
    write copies exactly the bytes written to its destination and returns their
    number, unless the destination is user memory that cannot be written, when it
    returns -1. *)
Theorem writei_readi s t k ip i src off bs dst :
  open_file_ok s t ip i → can_write s t k i src off bs → pl_wf dst → pl_ok s dst (Z.of_nat (length bs)) →
  wp (r1 ← writei ip src off (Z.of_nat (length bs)); r2 ← readi ip dst off (Z.of_nat (length bs)); mret (r1, r2)) s
    (λ r s', fst r = Z.of_nat (length bs) ∧
      (snd r = -1 ∧ pl_user dst ∨ snd r = Z.of_nat (length bs) ∧ pl_wrote s dst (w8 <$> bs) s')).
Proof.
  intros Hop [] Hwf Hp. pose proof Hop as []. set (n := Z.of_nat (length bs)) in *.
  apply wp_bind. eapply wp_mono; [by apply (writei_ok s t k ip i src off bs)|]. intros r s1 (-> & t1 & d1 & W).
  pose proof (wn_step _ _ _ _ _ _ _ _ _ _ W) as P. pose proof (fp_sb _ _ _ _ P) as S.
  assert (Hbig : MAXFILE * BSIZE < 2 ^ 31) by (rewrite MAXFILE_eq, BSIZE_eq; lia).
  assert (Hsz : d_size d1 = Z.max (d_size (i_d i)) (off + n)) by (rewrite (wn_meta _ _ _ _ _ _ _ _ _ _ W); done).
  pose proof W as []. apply wp_bind.
  eapply wp_mono; [apply (readi_ok s1 t1 ip (set_d d1 i) dst off n); try done|].
  - unfold iat. rewrite wn_inodes, list_lookup_insert_eq; [done|]. by eapply lookup_lt_Some.
  - by rewrite S.
  - by apply wn_dense.
  - lia.
  - lia.
  - by rewrite (fp_um _ _ _ _ P).
  - eapply pl_ok_same; [apply P|done].
  - intros r s2 (R2 & Hu2 & Hr). apply wp_ret. split; [done|]. cbn [snd].
    assert (read_count d1 off n = n) as Hc.
    { unfold read_count. rewrite Hsz, (proj2 (Z.ltb_ge _ _)), (proj2 (Z.leb_gt _ _)) by lia. cbn [orb]. lia. }
    cbn [i_d set_d] in Hr. rewrite Hc in Hr. destruct Hr as [[-> ?]|[-> Hw]]; [by left|right]. split; [done|].
    apply (pl_wrote_from s s1); [apply P|apply P|].
    replace (w8 <$> bs) with (fbyte d1 (t_view t1) <$> seqZ off n); [done|].
    apply list_eq. intros j. rewrite !list_lookup_fmap. destruct (decide (j < length bs)%nat) as [Hj|Hj].
    + rewrite lookup_seqZ_lt by lia. cbn [fmap option_fmap option_map]. rewrite wn_byte by lia. rewrite decide_True by lia.
      replace (Z.to_nat (off + Z.of_nat j - off)) with j by lia. destruct (lookup_lt_is_Some_2 bs j Hj) as [x ->]. done.
    + rewrite lookup_seqZ_ge by lia. rewrite lookup_ge_None_2 by lia. done.
Qed.

End Use.
