(* ===== verification/Dir.v ===== *)
(** Directories and path names (kernel/fs.c), and the decimal names of the swap
    files.

    The directory entry [de] of a function is at address 0 of its frame: the
    inode number in two bytes, then the name.  A path is the list of its
    characters; a [char name[DIRSIZ]] is a list of 14 characters. *)

From S2P Require Import Prelude Riscv Memory Str Cache Log Fs.

Definition DE : Z := 0.
Definition sizeof_dirent : Z := 16.

Definition namecmp (s t : list Z) : Z := strncmp (Z.to_nat DIRSIZ) s t.

Definition slash : Z := 47.

(** The loops of [skipelem] over slashes and over the characters of a name. *)
Fixpoint skip_slashes (path : list Z) : list Z :=
  match path with
  | c :: path' => if c =? slash then skip_slashes path' else path
  | [] => []
  end.
Fixpoint skip_name (path : list Z) : list Z :=
  match path with
  | c :: path' => if negb (c =? slash) && truth c then skip_name path' else path
  | [] => []
  end.

(** The rest of the path and the new contents of [name]. *)
Definition skipelem (path name : list Z) : option (list Z * list Z) :=
  let s := skip_slashes path in
  if negb (truth (chr s)) then None
  else
    let path := skip_name s in
    let len := Z.of_nat (length s) - Z.of_nat (length path) in
    let name :=
      if DIRSIZ <=? len then take (Z.to_nat DIRSIZ) s ++ drop (Z.to_nat DIRSIZ) name
      else take (Z.to_nat len) s ++ 0 :: drop (Z.to_nat (len + 1)) name in
    Some (skip_slashes path, name).

(** [itoa] on the array [b].  The first loop finds where the representation ends,
    the second stores the digits from there back.  [None] for an access out of the
    bounds of [b] or of [digit]. *)
Definition put_char (b : list Z) (p : nat) (c : Z) : option (list Z) :=
  if decide (p < length b)%nat then Some (<[p := c]> b) else None.

Fixpoint itoa_end (fuel : nat) (p : nat) (shifter : Z) : nat :=
  match fuel with
  | O => p
  | S k => let shifter := Z.quot shifter 10 in if truth shifter then itoa_end k (S p) shifter else S p
  end.

Fixpoint itoa_digits (fuel : nat) (b : list Z) (p : nat) (i : Z) : option (list Z) :=
  match fuel, p with
  | S k, S p =>
    if Z.rem i 10 <? 0 then None
    else
      b ← put_char b p (48 + Z.rem i 10);
      let i := Z.quot i 10 in
      if truth i then itoa_digits k b p i else Some b
  | _, _ => None
  end.

(** An int has at most ten digits. *)
Definition itoa (i : Z) (b : list Z) : option (list Z) :=
  '(b, p, i) ← (if i <? 0 then b ← put_char b 0 45; Some (b, 1%nat, i32 (i * -1)) else Some (b, 0%nat, i));
  let p := itoa_end 10 p i in
  b ← put_char b p 0;
  itoa_digits 10 b p i.

Section Code.
Context {C U : Type} {BC : BlockCache C} {UM : UserMem U}.
Abbreviation fs := (fsst C U).

Definition de_inum : M fs Z := gets (λ s, le_load 2 (f_frame s) DE).
Definition de_name : M fs (list Z) := gets (λ s, read_bytes (f_frame s) (DE + 2) (Z.to_nat DIRSIZ)).

(** [dirlookup]: the inode and, for [*poff], the offset of the entry. *)
Definition dirlookup_body (dp : nat) (name : list Z) (off : Z) : M fs (Z + option (nat * Z)) :=
  d ← geti dp;
  if off <? d_size (i_d d) then
    r ← readi dp (Frame DE) off sizeof_dirent;
    if negb (r =? sizeof_dirent) then panic "dirlookup read"
    else
      inum ← de_inum;
      nm ← de_name;
      if inum =? 0 then mret (inl (w32 (off + sizeof_dirent)))
      else if namecmp name nm =? 0 then
        ip ← iget (i_dev d) inum; mret (inr (Some (ip, off)))
      else mret (inl (w32 (off + sizeof_dirent)))
  else mret (inr None).

Definition dirlookup (dp : nat) (name : list Z) : M fs (option (nat * Z)) :=
  d ← geti dp;
  if negb (d_type (i_d d) =? T_DIR) then panic "dirlookup not DIR"
  else loop (Z.to_nat (d_size (i_d d) / sizeof_dirent + 2)) (dirlookup_body dp name) 0.

(** The search of [dirlink] for an empty entry. *)
Definition dirlink_body (dp : nat) (off : Z) : M fs (Z + Z) :=
  d ← geti dp;
  if w32 off <? d_size (i_d d) then
    r ← readi dp (Frame DE) off sizeof_dirent;
    if negb (r =? sizeof_dirent) then panic "dirlink read"
    else
      inum ← de_inum;
      if inum =? 0 then mret (inr off) else mret (inl (off + sizeof_dirent))
  else mret (inr off).

Definition dirlink (dp : nat) (name : list Z) (inum : Z) : M fs Z :=
  o ← dirlookup dp name;
  match o with
  | Some (ip, _) => iput ip;; mret (-1)
  | None =>
    d ← geti dp;
    off ← loop (Z.to_nat (d_size (i_d d) / sizeof_dirent + 2)) (dirlink_body dp) 0;
    modify (λ s, set_frame (write_bytes (f_frame s) (DE + 2) (strncpy (Z.to_nat DIRSIZ) name)) s);;
    modify (λ s, set_frame (le_store 2 (f_frame s) DE inum) s);;
    r ← writei dp (Frame DE) off sizeof_dirent;
    if negb (r =? sizeof_dirent) then panic "dirlink" else mret 0
  end.

(** [namex]: the loop variables are the inode, the path and the buffer [name];
    the result is the inode, if any, and the buffer. *)
Definition namex_body (nameiparent : bool) (v : nat * list Z * list Z) :
    M fs (nat * list Z * list Z + option nat * list Z) :=
  let '(ip, path, name) := v in
  match skipelem path name with
  | None =>
    if nameiparent then iput ip;; mret (inr (None, name)) else mret (inr (Some ip, name))
  | Some (path, name) =>
    ilock ip;;
    i ← geti ip;
    if negb (d_type (i_d i) =? T_DIR) then
      iunlockput ip;; mret (inr (None, name))
    else if nameiparent && negb (truth (chr path)) then
      iunlock ip;; mret (inr (Some ip, name))
    else
      next ← dirlookup ip name;
      match next with
      | None => iunlockput ip;; mret (inr (None, name))
      | Some (next, _) => iunlockput ip;; mret (inl (next, path, name))
      end
  end.

Definition namex (path : list Z) (nameiparent : bool) (name : list Z) : M fs (option nat * list Z) :=
  ip ← (if chr path =? slash then iget ROOTDEV ROOTINO else cwd ← gets f_cwd; idup cwd);
  loop (length path + 2) (namex_body nameiparent) (ip, path, name).

(** The buffer of [namei] is local; its first contents are never read. *)
Definition namei (path : list Z) : M fs (option nat) :=
  r ← namex path false (replicate (Z.to_nat DIRSIZ) 0); mret (fst r).

Definition nameiparent (path name : list Z) : M fs (option nat * list Z) := namex path true name.

End Code.
