(* ===== verification/DirSpec.v ===== *)
(** Directories: [dirlookup] finds the first entry of a name and [dirlink] adds one. *)

From S2P Require Import Prelude Riscv Memory Str Cache Log LogSpec LogCrash Txn Fs FsSpec FsBlocks FsInode FsFile FsCopy FsIo FsUse Dir.

(** Entry [k] of a directory: its inode number and its name. *)
Definition dent (d : dinode) (V : Z → block) (k : Z) : Z * list Z :=
  (fbyte d V (16 * k) + 256 * fbyte d V (16 * k + 1), fbyte d V <$> seqZ (16 * k + 2) DIRSIZ).
Definition nents (d : dinode) : Z := d_size d / sizeof_dirent.

(** Names are strings of at most [DIRSIZ] characters. *)
Definition dname (name : list Z) : list Z := take (Z.to_nat DIRSIZ) (cstr name).

(** Entry [k] is in use and has name [name]. *)
Definition is_entry (d : dinode) (V : Z → block) (name : list Z) (k : Z) : bool :=
  negb (fst (dent d V k) =? 0) && bool_decide (dname name = dname (snd (dent d V k))).

Definition no_entry (d : dinode) (V : Z → block) (name : list Z) (n : Z) : Prop :=
  ∀ k, 0 <= k < n → is_entry d V name k = false.
Definition first_entry (d : dinode) (V : Z → block) (name : list Z) (k : Z) : Prop :=
  0 <= k < nents d ∧ is_entry d V name k = true ∧ no_entry d V name k.

Lemma namecmp_eq a b : (namecmp a b =? 0) = bool_decide (dname a = dname b).
Proof.
  unfold namecmp, dname. destruct (Z.eqb_spec (strncmp (Z.to_nat DIRSIZ) a b) 0) as [E|E]; rewrite strncmp_0 in E; symmetry.
  - by apply bool_decide_eq_true_2.
  - by apply bool_decide_eq_false_2.
Qed.

Lemma fbyte_range d V o : 0 <= fbyte d V o < 256.
Proof. unfold fbyte. destruct (_ =? 0); [lia|apply mget_range]. Qed.

(** The bytes of an entry as they lie in memory. *)
Lemma dent_frame m d V k :
  let m' := write_bytes m DE (fbyte d V <$> seqZ (16 * k) sizeof_dirent) in
  le_load 2 m' DE = fst (dent d V k) ∧ read_bytes m' (DE + 2) (Z.to_nat DIRSIZ) = snd (dent d V k).
Proof.
  intros m'.
  assert (Hb : ∀ j, 0 <= j < 16 → mget m' (DE + j) = fbyte d V (16 * k + j)).
  { intros j Hj. unfold m'. rewrite mget_write_bytes, length_fmap, length_seqZ. rewrite decide_True by (unfold DE, sizeof_dirent; lia).
    rewrite list_lookup_fmap, lookup_seqZ_lt by (unfold DE, sizeof_dirent; lia). simpl.
    unfold w8, DE. rewrite Z.mod_small by apply fbyte_range. f_equal. lia. }
  split.
  - cbn [le_load dent fst]. rewrite <- (Z.add_0_r DE) at 1. rewrite !Hb by lia. rewrite Z.add_0_r. lia.
  - unfold dent, snd. apply list_eq. intros j. rewrite list_lookup_fmap. destruct (decide (j < 14)%nat) as [Hj|Hj].
    + rewrite lookup_read_bytes by (change (Z.to_nat DIRSIZ) with 14%nat; lia). rewrite lookup_seqZ_lt by (unfold DIRSIZ; lia). simpl. f_equal.
      rewrite <- Z.add_assoc, Hb by lia. f_equal. lia.
    + rewrite lookup_seqZ_ge by (unfold DIRSIZ; lia). rewrite lookup_ge_None_2; [done|]. rewrite length_read_bytes.
      change (Z.to_nat DIRSIZ) with 14%nat. lia.
Qed.

(** The directory as a map from names to inode numbers. *)
Definition dir_find (d : dinode) (V : Z → block) (name : list Z) : option Z :=
  List.find (is_entry d V name) (seqZ 0 (nents d)).
Definition dir_lookup (d : dinode) (V : Z → block) (name : list Z) : option Z :=
  (λ k, fst (dent d V k)) <$> dir_find d V name.

(** Entry [k], free or just behind the last one, was set to [name] and [inum]. *)
Record dir_put (d : dinode) (V : Z → block) (name : list Z) (inum k : Z) (d' : dinode) (V' : Z → block) : Prop := {
  dp_at : 0 <= k <= nents d;
  dp_free : k < nents d → fst (dent d V k) = 0;
  dp_size : nents d' = Z.max (nents d) (k + 1);
  dp_new : fst (dent d' V' k) = inum ∧ dname (snd (dent d' V' k)) = dname name;
  dp_other : ∀ j, 0 <= j < nents d → j ≠ k → dent d' V' j = dent d V j
}.

Lemma is_entry_same d V d' V' name name' k :
  dent d V k = dent d' V' k → dname name = dname name' → is_entry d V name k = is_entry d' V' name' k.
Proof. intros E1 E2. unfold is_entry. by rewrite E1, E2. Qed.

(** A directory with such an entry maps [name] to [inum] and all other names as
    before. *)
Lemma dir_put_lookup d V name inum k d' V' :
  dir_put d V name inum k d' V' → inum ≠ 0 → no_entry d V name (nents d) →
  ∀ name', dir_lookup d' V' name' = if decide (dname name' = dname name) then Some inum else dir_lookup d V name'.
Proof.
  intros [Hk Hfree Hsz [Hi Hn] Hoth] Hne Hno name'. unfold dir_lookup, dir_find.
  assert (Hdk : is_entry d' V' name' k = bool_decide (dname name' = dname name)).
  { unfold is_entry. rewrite Hi, Hn, (proj2 (Z.eqb_neq _ _)) by done. done. }
  assert (Hold : ∀ j, 0 <= j < nents d → j ≠ k → is_entry d' V' name' j = is_entry d V name' j).
  { intros j Hj Hjk. apply is_entry_same; [by apply Hoth|done]. }
  destruct (decide (dname name' = dname name)) as [He|He].
  - rewrite (proj2 (find_seqZ_Some _ _ k)); [exact (f_equal Some Hi)|]. split_and!; [lia|lia|by rewrite Hdk, bool_decide_eq_true_2|].
    intros j Hj. rewrite Hold by lia. rewrite (is_entry_same d V d V name' name j); [apply Hno; lia|done|done].
  - rewrite bool_decide_eq_false_2 in Hdk by done.
    assert (Hfk : k < nents d → is_entry d V name' k = false) by (intros Hlt; unfold is_entry; by rewrite Hfree by done).
    destruct (List.find (is_entry d V name') (seqZ 0 (nents d))) as [j|] eqn:E.
    + apply find_seqZ_Some in E as (Hj & Hjt & Hjn).
      assert (Hjk : j ≠ k) by (intros ->; rewrite Hfk in Hjt; [done|lia]).
      rewrite (proj2 (find_seqZ_Some _ _ j)); [apply (f_equal Some); by rewrite Hoth|]. split_and!; [lia|lia|by rewrite Hold|].
      intros m Hm. destruct (decide (m = k)) as [->|]; [done|]. rewrite Hold by lia. by apply Hjn.
    + rewrite find_seqZ_None in E. rewrite (proj2 (find_seqZ_None _ _)); [done|]. intros m Hm.
      destruct (decide (m = k)) as [->|]; [done|]. rewrite Hold by lia. apply E. lia.
Qed.

Section Spec.
Context {C U : Type} {BC : BlockCache C} {BOK : BlockCacheOk C} {UM : UserMem U} {UOK : UserMemOk U}.
Abbreviation fs := (fsst C U).
Implicit Types (s : fs) (t : tx) (ip dp : nat) (i : inode).

(** A locked directory whose size is a whole number of entries. *)
Record open_dir_ok s t dp i : Prop := {
  od_file : open_file_ok s t dp i;
  od_type : d_type (i_d i) = T_DIR;
  od_size : d_size (i_d i) = 16 * nents (i_d i)
}.

Lemma open_file_step s t s' ip i :
  open_file_ok s t ip i → rstep s t s' → um_ok (f_um s') → open_file_ok s' t ip i.
Proof.
  intros [] [] Hu. split; try done; rewrite ?rs_sb; try done. unfold iat. by rewrite rs_inodes.
Qed.

(** State after reading entries of a directory: only buffers, the frame and
    nothing else changed. *)
Record dir_read s t s' : Prop := {
  dr_step : rstep s t s';
  dr_um : f_um s' = f_um s
}.

(** Reading entry [k] into the frame. *)
Lemma read_dent_ok {B} s t dp i k (f : Z → M fs B) (Q : B → fs → Prop) :
  open_dir_ok s t dp i → 0 <= k < nents (i_d i) →
  (∀ s', dir_read s t s' → open_dir_ok s' t dp i →
    le_load 2 (f_frame s') DE = fst (dent (i_d i) (t_view t) k) →
    read_bytes (f_frame s') (DE + 2) (Z.to_nat DIRSIZ) = snd (dent (i_d i) (t_view t) k) → wp (f 16) s' Q) →
  wp (r ← readi dp (Frame DE) (16 * k) sizeof_dirent; f r) s Q.
Proof.
  intros [Ho Hty Hsz] Hk HQ. pose proof Ho as []. destruct op_dense as [Hmax Hd]. rewrite MAXFILE_eq, BSIZE_eq in Hmax.
  apply wp_bind. eapply wp_mono; [apply (readi_ok s t dp i (Frame DE) (16 * k) sizeof_dirent); try done; unfold sizeof_dirent; lia|].
  intros r s' (R & Hu & [[_ []]|[-> [Hw Hm]]]).
  assert (Hc : read_count (i_d i) (16 * k) sizeof_dirent = 16).
  { unfold read_count, sizeof_dirent. rewrite (proj2 (Z.ltb_ge _ _)), (proj2 (Z.leb_gt _ _)) by lia. cbn [orb]. lia. }
  rewrite Hc in *. destruct (dent_frame (f_frame s) (i_d i) (t_view t) k) as [E1 E2].
  apply HQ; [by split| |by rewrite Hw|by rewrite Hw]. split; [|done|done]. by eapply open_file_step.
Qed.

Lemma dir_read_trans s1 t s2 s3 : dir_read s1 t s2 → dir_read s2 t s3 → dir_read s1 t s3.
Proof. intros [R1 E1] [R2 E2]. split; [by eapply rstep_trans|congruence]. Qed.

Lemma nents_pos s t dp i : open_dir_ok s t dp i → 0 <= nents (i_d i) ∧ d_size (i_d i) < 2 ^ 32.
Proof. intros [[] _ Hsz]. pose proof (dw_size _ (fo_wf _ _ _ op_file)). lia. Qed.

Lemma dir_read_refl s t dp i : open_dir_ok s t dp i → dir_read s t s.
Proof. intros [[] _ _]. split; [|done]. apply rstep_fstep; [apply fstep_refl|done|done]. Qed.

(** [dirlookup] returns the first entry of the name, with a reference to its inode. *)
Lemma dirlookup_ok s t dp i name :
  open_dir_ok s t dp i → itable_ok (f_inodes s) →
  (∀ inum, uncached (f_inodes s) ROOTDEV inum → ¬ full (f_inodes s)) →
  wp (dirlookup dp name) s (λ r s',
    match r with
    | None => no_entry (i_d i) (t_view t) name (nents (i_d i)) ∧ dir_read s t s' ∧ open_dir_ok s' t dp i
    | Some (ip, off) => ∃ k s1 l', off = 16 * k ∧ first_entry (i_d i) (t_view t) name k ∧ dir_read s t s1 ∧
        s' = set_inodes l' s1 ∧ igot (f_inodes s) ROOTDEV (fst (dent (i_d i) (t_view t) k)) ip l'
    end).
Proof.
  intros Hd Hit Hroom. pose proof Hd as [Ho Hty Hsz]. pose proof Ho as []. destruct (nents_pos _ _ _ _ Hd) as [Hn Hlt].
  unfold dirlookup. apply wp_bind. eapply wp_geti; [done|]. rewrite Hty. cbn [Z.eqb negb Pos.eqb T_DIR].
  apply (wp_loop _ (λ n off s1, ∃ k, off = 16 * k ∧ 0 <= k <= nents (i_d i) ∧ Z.of_nat n = nents (i_d i) - k ∧
    dir_read s t s1 ∧ open_dir_ok s1 t dp i ∧ no_entry (i_d i) (t_view t) name k) _) with (n := Z.to_nat (nents (i_d i))).
  2: { exists 0. split_and!; try done; try lia. all: try (by eapply dir_read_refl). intros k Hk. lia. }
  2: { unfold nents in *. lia. }
  intros n off s1 (k & -> & Hk & Hkn & R1 & Hd1 & Hno). unfold dirlookup_body. apply wp_bind.
  eapply wp_geti; [apply (FsUse.op_at _ _ _ _ (od_file _ _ _ _ Hd1))|]. rewrite Hsz.
  destruct (Z.ltb_spec (16 * k) (16 * nents (i_d i))) as [Hlk|Hge].
  2: { apply wp_ret. assert (k = nents (i_d i)) as <- by lia. by split_and!. }
  apply (read_dent_ok s1 t dp i k); [done|lia|]. intros s2 R2 Hd2 E1 E2. cbn [Z.eqb negb Pos.eqb sizeof_dirent].
  apply wp_bind, wp_gets. rewrite E1. apply wp_bind, wp_gets. rewrite E2.
  pose proof (dir_read_trans _ _ _ _ R1 R2) as R.
  assert (Hnext : is_entry (i_d i) (t_view t) name k = false → ∃ n', (n' < n)%nat ∧ ∃ k', w32 (16 * k + 16) = 16 * k' ∧
    0 <= k' <= nents (i_d i) ∧ Z.of_nat n' = nents (i_d i) - k' ∧ dir_read s t s2 ∧ open_dir_ok s2 t dp i ∧ no_entry (i_d i) (t_view t) name k').
  { intros Hf. exists (Z.to_nat (nents (i_d i) - (k + 1))). split; [lia|]. exists (k + 1).
    assert (Hoff : 16 * k + 16 < 2 ^ 32) by (destruct op_dense as [Hmax _]; rewrite MAXFILE_eq, BSIZE_eq in Hmax; lia).
    rewrite w32_small by lia. split_and!; try done; try lia.
    intros k' Hk'. destruct (decide (k' = k)) as [->|]; [done|]. apply Hno. lia. }
  destruct (Z.eqb_spec (fst (dent (i_d i) (t_view t) k)) 0) as [H0|H0].
  { apply wp_ret, Hnext. unfold is_entry. by rewrite H0. }
  rewrite namecmp_eq. destruct (bool_decide (dname name = _)) eqn:En.
  2: { apply wp_ret, Hnext. unfold is_entry. by rewrite En, andb_false_r. }
  rewrite op_dev. destruct R as [R Eu]. apply wp_bind. eapply wp_mono; [apply iget_ok|].
  - by rewrite (rs_inodes _ _ _ R).
  - rewrite (rs_inodes _ _ _ R). intros [Hu Hfull]. by eapply Hroom.
  - intros ip s3 (l' & -> & Hg). apply wp_ret. rewrite (rs_inodes _ _ _ R) in Hg. exists k, s2, l'. split_and!; try done.
    split_and!; [lia|lia| |done]. unfold is_entry. rewrite En, (proj2 (Z.eqb_neq _ _)) by done. done.
Qed.

(** The search of [dirlink] ends at a free entry or behind the last one. *)
Lemma dirlink_search_ok s t dp i :
  open_dir_ok s t dp i →
  wp (loop (Z.to_nat (d_size (i_d i) / sizeof_dirent + 2)) (dirlink_body dp) 0) s (λ off s', ∃ k, off = 16 * k ∧
    0 <= k <= nents (i_d i) ∧ (k < nents (i_d i) → fst (dent (i_d i) (t_view t) k) = 0) ∧
    dir_read s t s' ∧ open_dir_ok s' t dp i).
Proof.
  intros Hd. destruct (nents_pos _ _ _ _ Hd) as [Hn Hlt]. pose proof (od_size _ _ _ _ Hd) as Hsz.
  apply (wp_loop _ (λ n off s1, ∃ k, off = 16 * k ∧ 0 <= k <= nents (i_d i) ∧ Z.of_nat n = nents (i_d i) - k ∧
    dir_read s t s1 ∧ open_dir_ok s1 t dp i) _) with (n := Z.to_nat (nents (i_d i))).
  2: { exists 0. split_and!; try done; try lia. by eapply dir_read_refl. }
  2: { unfold nents in *. lia. }
  intros n off s1 (k & -> & Hk & Hkn & R1 & Hd1). unfold dirlink_body. apply wp_bind.
  eapply wp_geti; [apply (FsUse.op_at _ _ _ _ (od_file _ _ _ _ Hd1))|]. rewrite w32_small, Hsz by lia.
  destruct (Z.ltb_spec (16 * k) (16 * nents (i_d i))) as [Hlk|Hge].
  2: { apply wp_ret. exists k. split_and!; try done; lia. }
  apply (read_dent_ok s1 t dp i k); [done|lia|]. intros s2 R2 Hd2 E1 E2. cbn [Z.eqb negb Pos.eqb sizeof_dirent].
  apply wp_bind, wp_gets. rewrite E1. pose proof (dir_read_trans _ _ _ _ R1 R2) as R.
  destruct (Z.eqb_spec (fst (dent (i_d i) (t_view t) k)) 0) as [H0|H0]; apply wp_ret.
  - exists k. split_and!; try done; lia.
  - exists (Z.to_nat (nents (i_d i) - (k + 1))). split; [lia|]. exists (k + 1). change sizeof_dirent with 16. split_and!; try done; lia.
Qed.

Lemma frame_bytes (m : memory) n : 0 <= n →
  Some <$> read_bytes m DE (Z.to_nat n) = (λ k, Some (mget m (DE + k))) <$> seqZ 0 n.
Proof.
  intros Hn. apply list_eq. intros j. rewrite !list_lookup_fmap. destruct (decide (j < Z.to_nat n)%nat) as [Hj|Hj].
  - rewrite lookup_read_bytes, lookup_seqZ_lt by lia. done.
  - rewrite lookup_seqZ_ge by lia. rewrite lookup_ge_None_2; [done|]. rewrite length_read_bytes. lia.
Qed.

Lemma rounds_dent k : 0 <= k → rounds (16 * k) 16 = 1.
Proof.
  intros Hk. unfold rounds. cbn [Z.leb Z.compare]. rewrite BSIZE_eq.
  pose proof (Z.mod_pos_bound (16 * k) 1024 ltac:(done)). symmetry. apply (Z.div_unique_pos _ _ _ ((16 * k) mod 1024 + 15)); [|lia].
  assert ((16 * k) mod 1024 = 16 * (k mod 64)) as -> by (change 1024 with (16 * 64); by rewrite Zmult_mod_distr_l).
  pose proof (Z.mod_pos_bound k 64 ltac:(done)). lia.
Qed.

(** Entries and bytes. *)
Lemma dent_ext d V d' V' j :
  (∀ o, 16 * j <= o < 16 * j + 16 → fbyte d' V' o = fbyte d V o) → dent d' V' j = dent d V j.
Proof.
  intros H. unfold dent. rewrite !H by lia. f_equal. apply list_fmap_ext. intros x o Ho.
  apply lookup_seqZ in Ho as [-> Hx]. apply H. change DIRSIZ with 14 in Hx. lia.
Qed.

Lemma strncpy_bytes n : ∀ name, Forall (λ c, 0 <= c < 256) name → Forall (λ c, 0 <= c < 256) (strncpy n name).
Proof.
  induction n as [|n IH]; intros name Hb; cbn [strncpy]; [constructor|].
  destruct name as [|c name]; cbn [chr head tail default truth].
  - constructor; [lia|]. by apply Forall_replicate.
  - inversion Hb; subst. change (id c) with c. destruct (truth c); constructor; [done|by apply IH|lia|]. by apply Forall_replicate.
Qed.

(** The entry that [dirlink] builds in its frame. *)
Definition new_dent (m : memory) (name : list Z) (inum : Z) : memory :=
  le_store 2 (write_bytes m (DE + 2) (strncpy (Z.to_nat DIRSIZ) name)) DE inum.

Lemma dent_new m name inum d V k :
  Forall (λ c, 0 <= c < 256) name → 0 <= inum < 65536 →
  (∀ j, 0 <= j < 16 → fbyte d V (16 * k + j) = mget (new_dent m name inum) (DE + j)) →
  dent d V k = (inum, strncpy (Z.to_nat DIRSIZ) name).
Proof.
  intros Hb Hi H. unfold dent. f_equal.
  - rewrite <- (Z.add_0_r (16 * k)) at 1. rewrite !H by lia. pose proof (le_load_store_eq 2 (write_bytes m (DE + 2) (strncpy (Z.to_nat DIRSIZ) name)) DE inum) as E.
    fold (new_dent m name inum) in E. cbn [le_load] in E. rewrite Z.add_0_r. rewrite Z.mod_small in E by (simpl; lia). lia.
  - apply list_eq. intros j. rewrite list_lookup_fmap. destruct (decide (j < 14)%nat) as [Hj|Hj].
    + rewrite lookup_seqZ_lt by (change DIRSIZ with 14; lia). cbn [fmap option_fmap option_map].
      replace (16 * k + 2 + Z.of_nat j) with (16 * k + (2 + Z.of_nat j)) by lia. rewrite H by lia. unfold new_dent.
      rewrite mget_le_store, decide_False by lia. rewrite mget_write_bytes, strncpy_length, decide_True by (change (Z.to_nat DIRSIZ) with 14%nat; lia).
      replace (Z.to_nat (DE + (2 + Z.of_nat j) - (DE + 2))) with j by lia.
      destruct (lookup_lt_is_Some_2 (strncpy (Z.to_nat DIRSIZ) name) j) as [c Hc]; [by rewrite strncpy_length|].
      rewrite Hc. cbn [default]. f_equal. unfold w8. apply Z.mod_small.
      exact (proj1 (list.Forall_forall _ _) (strncpy_bytes _ _ Hb) c (list_elem_of_lookup_2 _ _ _ Hc)).
    + rewrite lookup_seqZ_ge by (change DIRSIZ with 14; lia). symmetry. apply lookup_ge_None_2. rewrite strncpy_length.
      change (Z.to_nat DIRSIZ) with 14%nat. lia.
Qed.

Lemma first_entry_find d V name k : first_entry d V name k ↔ dir_find d V name = Some k.
Proof. unfold first_entry, no_entry, dir_find. rewrite find_seqZ_Some. tauto. Qed.

Lemma no_entry_find d V name : no_entry d V name (nents d) ↔ dir_lookup d V name = None.
Proof. unfold no_entry, dir_lookup, dir_find. rewrite fmap_None, find_seqZ_None. done. Qed.

(** Room for one more inode in the table. *)
Definition itable_room (l : list inode) : Prop := ∀ inum, uncached l ROOTDEV inum → ¬ full l.

(** C22. dirlookup in a locked directory: it returns null, and changes nothing but
    buffers, exactly when the directory has no entry of that name; otherwise a
    reference to the inode whose number the first such entry holds, and the
    offset of that entry. *)
Theorem dirlookup_finds s t dp i name :
  open_dir_ok s t dp i → itable_ok (f_inodes s) → itable_room (f_inodes s) →
  wp (dirlookup dp name) s (λ r s',
    match dir_find (i_d i) (t_view t) name with
    | None => r = None ∧ dir_read s t s' ∧ open_dir_ok s' t dp i
    | Some k => ∃ ip s1 l', r = Some (ip, 16 * k) ∧ dir_read s t s1 ∧ s' = set_inodes l' s1 ∧
        igot (f_inodes s) ROOTDEV (fst (dent (i_d i) (t_view t) k)) ip l'
    end).
Proof.
  intros Hd Hit Hroom. eapply wp_mono; [by apply (dirlookup_ok s t dp i name)|]. intros [[ip off]|] s'.
  - intros (k & s1 & l' & -> & Hk%first_entry_find & R & -> & Hg). rewrite Hk. by exists ip, s1, l'.
  - intros (Hno%no_entry_find & R & Hd'). unfold dir_lookup in Hno. apply fmap_None in Hno. by rewrite Hno.
Qed.

(** [iput] of an inode just found gives its reference back. *)
Lemma iput_igot s1 l dev inum ip l' :
  itable_ok l → igot l dev inum ip l' →
  wp (iput ip) (set_inodes l' s1) (λ _ s', ∃ l'', s' = set_inodes l'' s1 ∧
    ∀ j i, l !! j = Some i → i_ref i ≠ 0 → l'' !! j = Some i).
Proof.
  intros Hok (i & Hi & Hg). pose proof (lookup_lt_Some _ _ _ Hi) as Hlt.
  assert (∃ i', l' = <[ip := i']> l ∧ ((i_ref i' =? 1) && truth (i_valid i') && (d_nlink (i_d i') =? 0)) = false ∧
    (i_ref i ≠ 0 → set_ref (i_ref i' - 1) i' = i)) as (i' & -> & Hc & Hback).
  { destruct Hg as [[Hc ->]|(_ & H0 & ->)]; eexists; (split; [done|]).
    - apply caches_iff in Hc as (Hr & _). cbn [set_ref i_ref i_valid i_d]. rewrite (proj2 (Z.eqb_neq _ _)) by lia.
      split; [done|]. intros _. rewrite Z.add_simpl_r. by destruct i.
    - cbn [i_ref i_valid truth Z.eqb negb andb]. by split. }
  assert (Hat : iat (set_inodes (<[ip:=i']> l) s1) ip i') by (unfold iat; cbn; by apply list_lookup_insert_eq).
  unfold iput. apply wp_bind. eapply wp_geti; [exact Hat|]. rewrite Hc. apply wp_bind, wp_ret.
  eapply wp_updi; [exact Hat|]. eexists. split; [done|]. cbn [f_inodes set_inodes]. rewrite list_insert_insert_eq.
  intros j a Hj Ha. destruct (decide (j = ip)) as [->|Hne].
  - rewrite list_lookup_insert_eq by done. simplify_eq. by rewrite Hback.
  - by rewrite list_lookup_insert_ne.
Qed.

(** dirlink with a name the directory already has returns -1: the directory is
    unchanged, and so is every inode in use. *)
Lemma dirlink_refuses s t dp i name inum k :
  open_dir_ok s t dp i → itable_ok (f_inodes s) → itable_room (f_inodes s) →
  dir_lookup (i_d i) (t_view t) name = Some k →
  wp (dirlink dp name inum) s (λ r s', r = -1 ∧ ∃ s1 l', dir_read s t s1 ∧ s' = set_inodes l' s1 ∧
    ∀ j ij, f_inodes s !! j = Some ij → i_ref ij ≠ 0 → l' !! j = Some ij).
Proof.
  intros Hd Hit Hroom Hl. unfold dirlink. apply wp_bind. eapply wp_mono; [by apply (dirlookup_ok s t dp i name)|].
  intros [[ip off]|] s'.
  - intros (j & s1 & l' & -> & _ & R & -> & Hg). apply wp_bind. eapply wp_mono; [by eapply (iput_igot s1 (f_inodes s))|].
    intros _ s2 (l'' & -> & Hk). apply wp_ret. split; [done|]. by exists s1, l''.
  - intros (Hno%no_entry_find & _). congruence.
Qed.

Lemma open_dir_frame s t dp i m : open_dir_ok s t dp i → open_dir_ok (set_frame m s) t dp i.
Proof. intros [[] ? ?]. split; [|done|done]. split; try done. by destruct op_ftx. Qed.

(** The entry written at [16 * k]. *)
Lemma written_dir_put s t c dp i k m name inum (s' : fs) t' d' :
  open_dir_ok s t dp i → Forall (λ c, 0 <= c < 256) name → 0 <= inum < 65536 →
  0 <= k <= nents (i_d i) → (k < nents (i_d i) → fst (dent (i_d i) (t_view t) k) = 0) →
  d_size (i_d i) + 16 <= MAXFILE * BSIZE →
  written s t c dp i (16 * k) (read_bytes (new_dent m name inum) DE 16) s' t' d' →
  dir_put (i_d i) (t_view t) name inum k d' (t_view t') ∧ d_type d' = T_DIR ∧ d_size d' = 16 * nents d'.
Proof.
  intros [Ho Hty Hsz] Hb Hi Hk Hfree Hmax W. pose proof (wn_meta _ _ _ _ _ _ _ _ _ _ W) as Hm.
  assert (Hl : length (read_bytes (new_dent m name inum) DE 16) = 16%nat) by apply length_read_bytes.
  assert (Hd' : d_size d' = 16 * Z.max (nents (i_d i)) (k + 1)) by (rewrite Hm, Hl; cbn; lia).
  assert (Hn' : nents d' = Z.max (nents (i_d i)) (k + 1)).
  { unfold nents at 1, sizeof_dirent. rewrite Hd', Z.mul_comm, Z.div_mul by done. done. }
  assert (Hby := wn_byte _ _ _ _ _ _ _ _ _ _ W). rewrite Hl in Hby.
  split_and!; [|rewrite Hm; done|lia]. split; try done.
  - rewrite (dent_new m name inum); [|done|done|].
    + split; [done|]. cbn [snd]. unfold dname. rewrite strncpy_cstr, take_take, Nat.min_id. done.
    + intros j Hj. rewrite Hby by lia. rewrite decide_True by lia. rewrite lookup_read_bytes by lia. cbn [default].
      unfold id. rewrite w8_mget. f_equal. lia.
  - intros j Hj Hjk. apply dent_ext. intros o Ho'. rewrite Hby by lia. by rewrite decide_False by lia.
Qed.

(** C21. dirlink of a new name in a locked directory returns 0.  As a map from names
    to inode numbers the directory is then updated at that name and nowhere else;
    it is still well formed, other disk inodes keep their fields and other
    files their blocks and bytes, and at most three blocks were logged. *)
Theorem dirlink_adds s t c dp i name inum :
  open_dir_ok s t dp i → itable_ok (f_inodes s) → itable_room (f_inodes s) →
  budget s t c → 3 <= c → 2 <= nfree (f_sb s) (t_view t) → d_size (i_d i) + 16 <= MAXFILE * BSIZE →
  Forall (λ c, 0 <= c < 256) name → 0 < inum < 65536 → dir_lookup (i_d i) (t_view t) name = None →
  wp (dirlink dp name inum) s (λ r s', r = 0 ∧ ∃ t' d', open_dir_ok s' t' dp (set_d d' i) ∧ budget s' t' (c - 3) ∧
    (∀ name', dir_lookup d' (t_view t') name' =
      if decide (dname name' = dname name) then Some inum else dir_lookup (i_d i) (t_view t) name') ∧
    (∀ j, 0 <= j < sb_ninodes (f_sb s) → dinode_on (f_sb s) (t_view t') j =
      if decide (j = i_inum i) then d' else dinode_on (f_sb s) (t_view t) j) ∧
    ∀ d, other_file s t i d → file_ok (f_sb s) (t_view t') d ∧
      ∀ o, 0 <= o < MAXFILE * BSIZE → fbyte d (t_view t') o = fbyte d (t_view t) o).
Proof.
  intros Hd Hit Hroom Hbu Hc Hfree Hmax Hb Hi Hl. pose proof Hl as Hno%no_entry_find.
  unfold dirlink. apply wp_bind. eapply wp_mono; [by apply (dirlookup_ok s t dp i name)|]. intros [[ip off]|] s1.
  { intros (j & ? & ? & _ & Hj%first_entry_find & _). unfold dir_lookup in Hl. by rewrite Hj in Hl. }
  intros (_ & R1 & Hd1). apply wp_bind. eapply wp_geti; [apply Hd1|].
  apply wp_bind. eapply wp_mono; [by apply (dirlink_search_ok s1 t)|]. intros off s2 (k & -> & Hk & Hfk & R2 & Hd2).
  pose proof (dir_read_trans _ _ _ _ R1 R2) as [R Eu]. pose proof (rs_sb _ _ _ R) as S.
  apply wp_bind, wp_modify. apply wp_bind, wp_modify. cbn [set_frame f_frame].
  fold (new_dent (f_frame s2) name inum). set (s3 := set_frame _ (set_frame _ s2)).
  assert (Hd3 : open_dir_ok s3 t dp i) by (by apply open_dir_frame, open_dir_frame).
  assert (Hb3 : budget s3 t c) by (apply (budget_step s t s3 t c); [exact S|apply R|done|done]).
  pose proof (od_file _ _ _ _ Hd3) as []. pose proof (od_size _ _ _ _ Hd) as Hsz.
  set (bs := read_bytes (new_dent (f_frame s2) name inum) DE 16).
  assert (Hlb : Z.of_nat (length bs) = 16) by (unfold bs; by rewrite length_read_bytes).
  assert (Hr : rounds (16 * k) (Z.of_nat (length bs)) = 1) by (rewrite Hlb; apply rounds_dent; lia).
  change sizeof_dirent with (Z.of_nat (length bs)). apply wp_bind.
  eapply wp_mono; [apply (writei_ok s3 t c dp i (Frame DE) (16 * k) bs)|]; try done; try lia.
  - change (f_sb s3) with (f_sb s2). rewrite S. lia.
  - rewrite Hr. intros r s4 (-> & t' & d' & W). rewrite Z.eqb_refl. cbn [negb]. apply wp_ret. split; [done|].
    destruct (written_dir_put s3 t _ dp i k (f_frame s2) name inum s4 t' d' Hd3 Hb ltac:(lia) Hk Hfk Hmax W) as (Hput & Hty & Hsz').
    exists t', d'. split_and!.
    + split; [|done|done]. eapply (written_open s3 t); [apply Hd3|exact W].
    + replace (c - 3) with (c - 2 * 1 - 1) by lia. apply W.
    + apply (dir_put_lookup _ _ _ _ _ _ _ Hput); [lia|done].
    + intros j Hj. rewrite <- S in Hj |- *. by apply (wn_inode _ _ _ _ _ _ _ _ _ _ W).
    + intros d Hdis. rewrite <- S. destruct (other_file_kept s3 t _ dp i (16 * k) bs s4 t' d' d op_ftx op_inum W) as (? & _ & ?); [|done].
      destruct Hdis. split; [|done]. change (f_sb s3) with (f_sb s2). by rewrite S.
Qed.

End Spec.
