(* ===== verification/Mkfs.v ===== *)
(** The program that builds the first file system (mkfs/mkfs.c).

    [mst] is the image, a file of sectors that [wsect] extends, and the global
    variables.  The names on the command line come with what the host gives for
    them: [None] when the file cannot be opened, else the pieces that [read]
    returns.  A failed [assert] is a panic; messages are left out.  The host stores
    integers with the low byte first. *)

From S2P Require Import Prelude Riscv Memory Str Cache Log Fs Dir.

Definition NINODES : Z := 200.

Definition nbitmap : Z := FSSIZE / (BSIZE * 8) + 1.
Definition ninodeblocks : Z := NINODES / IPB + 1.
Definition nlog : Z := LOGSIZE.

Record mst := mk_mst {
  m_img : gmap Z block;
  m_len : Z;
  m_sb : superblock;
  m_freeinode : Z;
  m_freeblock : Z
}.

Definition set_img (f : gmap Z block) (n : Z) (m : mst) : mst := mk_mst f n (m_sb m) (m_freeinode m) (m_freeblock m).
Definition set_msb (b : superblock) (m : mst) : mst := mk_mst (m_img m) (m_len m) b (m_freeinode m) (m_freeblock m).
Definition set_freeinode (n : Z) (m : mst) : mst := mk_mst (m_img m) (m_len m) (m_sb m) n (m_freeblock m).
Definition set_freeblock (n : Z) (m : mst) : mst := mk_mst (m_img m) (m_len m) (m_sb m) (m_freeinode m) n.

(** The integer whose bytes are those assigned through [a]. *)
Definition xshort (x : Z) : Z := le_load 2 (write_bytes ∅ 0 [x; Z.shiftr x 8]) 0.
Definition xint (x : Z) : Z := le_load 4 (write_bytes ∅ 0 [x; Z.shiftr x 8; Z.shiftr x 16; Z.shiftr x 24]) 0.

(** The sector at offset [sec * BSIZE], a [uint]. *)
Definition sector (sec : Z) : Z := w32 (sec * BSIZE) / BSIZE.

Definition wsect (sec : Z) (buf : block) : M mst unit :=
  modify (λ m, set_img (<[sector sec := buf]> (m_img m)) (Z.max (m_len m) (sector sec + 1)) m).

Definition rsect (sec : Z) : M mst block :=
  m ← gets id;
  if sector sec <? m_len m then mret (default ∅ (m_img m !! sector sec)) else exits 1.

Definition winode (inum : Z) (ip : dinode) : M mst unit :=
  sb ← gets m_sb;
  let bn := IBLOCK inum sb in
  buf ← rsect bn;
  wsect bn (put_dinode buf (64 * (inum mod IPB)) ip).

Definition rinode (inum : Z) : M mst dinode :=
  sb ← gets m_sb;
  let bn := IBLOCK inum sb in
  buf ← rsect bn;
  mret (get_dinode buf (64 * (inum mod IPB))).

Definition ialloc (type : Z) : M mst Z :=
  inum ← gets m_freeinode;
  modify (set_freeinode (w32 (inum + 1)));;
  winode inum (set_size (xint 0) (set_nlink (i16 (xshort 1)) (set_type (i16 (xshort type)) dinode0)));;
  mret inum.

(** The bitmap: [buf[i/8] = buf[i/8] | (0x1 << (i%8))]. *)
Definition set_bit (buf : block) (i : Z) : block :=
  mput buf (i / 8) (Z.lor (mget buf (i / 8)) (Z.shiftl 1 (i mod 8))).

Definition balloc (used : Z) : M mst unit :=
  if used <? BSIZE * 8 then
    sb ← gets m_sb;
    wsect (sb_bmapstart sb) (fold_left set_bit (seqZ 0 used) ∅)
  else panic "assert".

(** [freeblock++] *)
Definition next_block : M mst Z :=
  b ← gets m_freeblock; modify (set_freeblock (w32 (b + 1)));; mret b.

(** The block [x] of block [fbn] of the file, allocated if need be. *)
Definition iappend_block (din : dinode) (fbn : Z) : M mst (dinode * Z) :=
  if fbn <? NDIRECT then
    din ← (if xint (addr_of din fbn) =? 0 then b ← next_block; mret (set_addr fbn (xint b) din) else mret din);
    mret (din, xint (addr_of din fbn))
  else
    din ← (if xint (addr_of din NDIRECT) =? 0 then b ← next_block; mret (set_addr NDIRECT (xint b) din) else mret din);
    indirect ← rsect (xint (addr_of din NDIRECT));
    indirect ← (if le_load 4 indirect (4 * (fbn - NDIRECT)) =? 0 then
                  b ← next_block;
                  let indirect := le_store 4 indirect (4 * (fbn - NDIRECT)) (xint b) in
                  wsect (xint (addr_of din NDIRECT)) indirect;;
                  mret indirect
                else mret indirect);
    mret (din, xint (le_load 4 indirect (4 * (fbn - NDIRECT)))).

(** [p] holds the [n] bytes that are left. *)
Definition iappend_body (v : dinode * Z * list Z) : M mst (dinode * Z * list Z + dinode * Z) :=
  let '(din, off, p) := v in
  let n := Z.of_nat (length p) in
  if 0 <? n then
    let fbn := off / BSIZE in
    if fbn <? MAXFILE then
      r ← iappend_block din fbn;
      let '(din, x) := r in
      let n1 := Z.min n (w32 ((fbn + 1) * BSIZE - off)) in
      buf ← rsect x;
      wsect x (write_bytes buf (off - fbn * BSIZE) (take (Z.to_nat n1) p));;
      mret (inl (din, w32 (off + n1), drop (Z.to_nat n1) p))
    else panic "assert"
  else mret (inr (din, off)).

Definition iappend (inum : Z) (p : list Z) : M mst unit :=
  din ← rinode inum;
  r ← loop (S (length p)) iappend_body (din, xint (d_size din), p);
  let '(din, off) := r in
  winode inum (set_size (xint off) din).

(** [struct dirent] with inode number [inum] and the 14 characters [name]. *)
Definition dirent (inum : Z) (name : list Z) : list Z := read_bytes (le_store 2 ∅ 0 (xshort inum)) 0 2 ++ name.

(** ".": [strcpy] into the cleared array. *)
Definition dot_name (s : list Z) : list Z := s ++ replicate (Z.to_nat DIRSIZ - length s) 0.

Definition user_prefix : list Z := [117; 115; 101; 114; 47].

(** The name in the file system, or [None] when the assertion fails. *)
Definition short_name (argv : list Z) : option (list Z) :=
  let shortname := if strncmp 5 argv user_prefix =? 0 then drop 5 argv else argv in
  if existsb (λ c, c =? 47) (cstr shortname) then None
  else Some (if chr shortname =? 95 then tail shortname else shortname).

Definition add_file (rootino : Z) (f : list Z * option (list (list Z))) : M mst unit :=
  let '(argv, contents) := f in
  match short_name argv, contents with
  | None, _ => panic "assert"
  | Some _, None => exits 1
  | Some shortname, Some pieces =>
    inum ← ialloc T_FILE;
    iappend rootino (dirent inum (strncpy (Z.to_nat DIRSIZ) shortname));;
    for_each pieces (iappend inum)
  end.

(** The superblock as its bytes lie in [buf]. *)
Definition put_sb (sb : superblock) : block :=
  put_addrs ∅ 0 [sb_magic sb; sb_size sb; sb_nblocks sb; sb_ninodes sb; sb_nlog sb; sb_logstart sb; sb_inodestart sb; sb_bmapstart sb].

Definition nmeta : Z := 2 + nlog + ninodeblocks + nbitmap.
Definition nblocks : Z := FSSIZE - nmeta.

Definition mkfs_sb : superblock :=
  mk_sb FSMAGIC (xint FSSIZE) (xint nblocks) (xint NINODES) (xint nlog) (xint 2) (xint (2 + nlog)) (xint (2 + nlog + ninodeblocks)).

(** Before [main]: the globals; [main] truncates the image. *)
Definition mst0 : mst := mk_mst ∅ 0 (mk_sb 0 0 0 0 0 0 0 0) 1 0.

(** Up to the last [exit(0)]; [files] are [argv[2]] and up. *)
Definition main (files : list (list Z * option (list (list Z)))) : M mst unit :=
  modify (set_img ∅ 0);;
  modify (set_msb mkfs_sb);;
  modify (set_freeblock nmeta);;
  for_each (seqZ 0 FSSIZE) (λ i, wsect i ∅);;
  sb ← gets m_sb;
  wsect 1 (put_sb sb);;
  rootino ← ialloc T_DIR;
  (if rootino =? ROOTINO then mret tt else panic "assert");;
  iappend rootino (dirent rootino (dot_name [46]));;
  iappend rootino (dirent rootino (dot_name [46; 46]));;
  for_each files (add_file rootino);;
  din ← rinode rootino;
  let off := xint (d_size din) in
  let off := w32 ((off / BSIZE + 1) * BSIZE) in
  winode rootino (set_size (xint off) din);;
  fb ← gets m_freeblock;
  balloc (i32 fb).
