(* ===== verification/MkfsSpec.v ===== *)
(** What mkfs builds: a disk laid out as the kernel expects it, with the files it
    was given and nothing else. *)

From S2P Require Import Prelude Riscv Memory Str Cache Log LogSpec LogCrash Txn Fs FsSpec FsBlocks FsInode FsFile FsCopy FsIo FsUse Dir DirSpec Mkfs.

Implicit Types (m : mst) (V : Z → block) (d : dinode).

(** ** Integers and the layout *)

Lemma xint_id x : 0 <= x < 2 ^ 32 → xint x = x.
Proof.
  intros Hx. unfold xint. cbn [write_bytes le_load]. unfold mput.
  rewrite <- !Z.add_assoc. cbn [Z.add Pos.add Pos.succ]. unfold mget. simplify_map_eq. unfold w8. rewrite !Z.shiftr_div_pow2 by lia.
  Z.to_euclidean_division_equations. lia.
Qed.

Lemma xshort_id x : 0 <= x < 2 ^ 16 → xshort x = x.
Proof.
  intros Hx. unfold xshort. cbn [write_bytes le_load]. unfold mput.
  rewrite <- ?Z.add_assoc. cbn [Z.add Pos.add Pos.succ]. unfold mget. simplify_map_eq. unfold w8. rewrite !Z.shiftr_div_pow2 by lia.
  Z.to_euclidean_division_equations. lia.
Qed.

Lemma sector_id x : 0 <= x < 2 ^ 22 → sector x = x.
Proof. intros Hx. unfold sector. rewrite w32_small; [by apply Z.div_mul|]. unfold BSIZE. lia. Qed.

(** The log as mkfs lays it out. *)
Definition mkfs_log : log := mk_log 2 nlog 0 0 ROOTDEV 0 (replicate (Z.to_nat LOGSIZE) 0).

Lemma mkfs_layout : layout mkfs_sb mkfs_log.
Proof. split; vm_compute; (done || (intros ?; discriminate)). Qed.

Lemma mkfs_sb_eq : mkfs_sb = mk_sb FSMAGIC 1000 954 200 30 2 32 45.
Proof. vm_compute. done. Qed.

Lemma mkfs_dstart : dstart mkfs_sb = nmeta.
Proof. vm_compute. done. Qed.

(** ** The bitmap *)

Definition bitmap (n : Z) : block := fold_left set_bit (seqZ 0 n) ∅.

Lemma bitmap_S n : 0 <= n → bitmap (n + 1) = set_bit (bitmap n) n.
Proof. intros Hn. unfold bitmap. rewrite seqZ_app by lia. rewrite fold_left_app. done. Qed.

Lemma used_bit V b : 0 <= b < FSSIZE → used mkfs_sb V b = Z.testbit (mget (V (sb_bmapstart mkfs_sb)) (b / 8)) (b mod 8).
Proof.
  unfold FSSIZE. intros Hb. unfold used, BBLOCK. rewrite (Z.mod_small b), (Z.div_small b) by (rewrite BPB_eq; lia). done.
Qed.

Lemma bitmap_bit n b : 0 <= n → 0 <= b → Z.testbit (mget (bitmap n) (b / 8)) (b mod 8) = (b <? n).
Proof.
  intros Hn Hb. pattern n. apply natlike_ind; [| |done]; clear n Hn.
  - change (bitmap 0) with (∅ : block). unfold mget. rewrite lookup_empty. cbn [default]. change (w8 0) with 0. rewrite Z.testbit_0_l. symmetry. apply Z.ltb_ge. lia.
  - intros n Hn IH. rewrite <- Z.add_1_r, bitmap_S by done. unfold set_bit. rewrite mget_mput.
    pose proof (Z.mod_pos_bound b 8 ltac:(lia)). pose proof (Z.mod_pos_bound n 8 ltac:(lia)).
    pose proof (Z.div_mod b 8 ltac:(lia)). pose proof (Z.div_mod n 8 ltac:(lia)).
    destruct (decide (n / 8 = b / 8)) as [E|E].
    + rewrite set_bit_testbit by lia. rewrite E, IH. case_decide; destruct (Z.ltb_spec b (n + 1)), (Z.ltb_spec b n); lia || done.
    + rewrite IH. assert (n ≠ b) by (intros ->; done). destruct (Z.ltb_spec b (n + 1)), (Z.ltb_spec b n); lia || done.
Qed.

(** ** The image *)

Definition view m (b : Z) : block := default ∅ (m_img m !! b).

(** [V] is the image with the bitmap that [balloc] would write now. *)
Record shows m V : Prop := {
  sh_sb : m_sb m = mkfs_sb;
  sh_len : m_len m = FSSIZE;
  sh_free : nmeta <= m_freeblock m <= FSSIZE;
  sh_view : ∀ b, b ≠ sb_bmapstart mkfs_sb → view m b = V b;
  sh_used : ∀ b, 0 <= b < FSSIZE → used mkfs_sb V b = (b <? m_freeblock m);
  sh_zero : ∀ b o, m_freeblock m <= b < FSSIZE → mget (V b) o = 0
}.

Ltac consts := change nmeta with 46 in *; change FSSIZE with 1000 in *; change (sb_bmapstart mkfs_sb) with 45 in *;
  change (sb_size mkfs_sb) with 1000 in *; change (dstart mkfs_sb) with 46 in *; change (sb_ninodes mkfs_sb) with 200 in *.

Lemma wp_rsect m V x (Q : block → mst → Prop) :
  shows m V → 0 <= x < FSSIZE → x ≠ sb_bmapstart mkfs_sb → Q (V x) m → wp (rsect x) m Q.
Proof.
  intros [] Hx Hb HQ. unfold rsect. apply wp_bind, wp_gets. rewrite sector_id by (consts; lia). unfold id.
  rewrite sh_len0, (proj2 (Z.ltb_lt _ _)) by lia. apply wp_ret. rewrite <- sh_view0 in HQ by done. exact HQ.
Qed.

(** Writing a block that is not free. *)
Lemma wp_wsect m V x b (Q : unit → mst → Prop) :
  shows m V → 0 <= x < m_freeblock m → x ≠ sb_bmapstart mkfs_sb →
  (∀ m', shows m' (fset V x b) → m_freeinode m' = m_freeinode m → m_freeblock m' = m_freeblock m → Q tt m') →
  wp (wsect x b) m Q.
Proof.
  intros Hsh Hx Hb HQ. pose proof Hsh as []. apply wp_modify, HQ; [|done|done]. rewrite sector_id by (consts; lia).
  split; try done; cbn [m_len m_freeblock set_img].
  - consts. lia.
  - intros c Hc. unfold view, set_img. cbn [m_img]. unfold fset. case_decide as E.
    + subst c. by rewrite lookup_insert_eq.
    + rewrite lookup_insert_ne by done. by apply sh_view0.
  - intros c Hc. rewrite used_bit by done. rewrite fset_ne by done. rewrite <- used_bit by done. auto.
  - intros c o Hc. rewrite fset_ne by lia. auto.
Qed.

(** [freeblock++] allocates a block of zeros. *)
Lemma next_block_ok m V :
  shows m V → m_freeblock m < FSSIZE → let n := m_freeblock m in
  wp next_block m (λ x m', x = n ∧ ∃ V', alloc_view mkfs_sb V n V' ∧ shows m' V' ∧
    m_freeinode m' = m_freeinode m ∧ m_freeblock m' = n + 1).
Proof.
  intros Hsh Hlt n. pose proof Hsh as []. apply wp_bind, wp_gets, wp_bind, wp_modify, wp_ret. split; [done|].
  assert (E : w32 (n + 1) = n + 1) by (apply w32_small; unfold n; consts; lia).
  set (V' := fset V (sb_bmapstart mkfs_sb) (bitmap (n + 1))).
  assert (Hu : ∀ b, 0 <= b < FSSIZE → used mkfs_sb V' b = (b <? n + 1)).
  { intros b Hb. rewrite used_bit by done. unfold V'. rewrite fset_eq. apply bitmap_bit; unfold n; consts; lia. }
  assert (Hv : ∀ b, b ≠ sb_bmapstart mkfs_sb → V' b = V b) by (intros b; apply fset_ne).
  exists V'. split_and!; [|split; cbn [m_freeblock set_freeblock]; fold n; rewrite ?E; try done|done|done].
  - split.
    + unfold n. consts. lia.
    + rewrite sh_used0 by (unfold n; consts; lia). apply Z.ltb_irrefl.
    + intros b Hb. change (sb_size mkfs_sb) with FSSIZE in Hb. rewrite Hu, sh_used0 by done. fold n.
      case_decide; destruct (Z.ltb_spec b (n + 1)), (Z.ltb_spec b n); lia || done.
    + intros b Hb _. apply Hv. intros ->. apply Hb. split; vm_compute; done.
    + intros o _. rewrite Hv by (unfold n; consts; lia). apply sh_zero0. lia.
  - unfold n. lia.
  - intros b Hb. rewrite Hv by done. by apply sh_view0.
  - intros b o Hb. rewrite Hv by (unfold n in *; consts; lia). apply sh_zero0. unfold n in *. lia.
Qed.

(** ** Files in the image *)

(** Number of blocks of [n] bytes, and with the block of addresses. *)
Definition nblk (n : Z) : Z := (n + BSIZE - 1) / BSIZE.
Definition fcost (n : Z) : Z := n + (if NDIRECT <? n then 1 else 0).

(** Exactly the first [n] blocks of the file are there. *)
Definition has_blocks d V (n : Z) : Prop :=
  (∀ j, 0 <= j < MAXFILE → fblock d V j ≠ 0 ↔ j < n) ∧ (addr_of d NDIRECT ≠ 0 ↔ NDIRECT < n).

(** [d] is a file that holds [bs]; what follows in its blocks is zero. *)
Record holds V d (bs : list Z) : Prop := {
  ho_ok : file_ok mkfs_sb V d;
  ho_size : Z.of_nat (length bs) <= MAXFILE * BSIZE;
  ho_blocks : has_blocks d V (nblk (Z.of_nat (length bs)));
  ho_byte : ∀ o, 0 <= o < MAXFILE * BSIZE → fbyte d V o = default 0 (bs !! Z.to_nat o)
}.

(** ** Adding a block to a file *)

Lemma addr_range V d k : file_ok mkfs_sb V d → 0 <= addr_of d k < 2 ^ 32.
Proof.
  intros [[] _ _ _ _]. unfold addr_of. destruct (d_addrs d !! Z.to_nat k) as [a|] eqn:E; [|simpl; lia].
  exact (proj1 (list.Forall_forall _ _) dw_addrs a (list_elem_of_lookup_2 _ _ _ E)).
Qed.

(** The outcome of [iappend_block] for block [fbn] of a file of [n] blocks. *)
Record appended m V d (n fbn : Z) m' V' d' (x : Z) : Prop := {
  ap_shows : shows m' V';
  ap_inode : m_freeinode m' = m_freeinode m;
  ap_free : m_freeblock m' = m_freeblock m + fcost (Z.max n (fbn + 1)) - fcost n;
  ap_grown : grown mkfs_sb V d V' d' (with_block (fblock d V) fbn x);
  ap_blocks : has_blocks d' V' (Z.max n (fbn + 1));
  ap_block : x ≠ 0 ∧ fblock d' V' fbn = x
}.

Lemma has_blocks_same d V d' V' n :
  (∀ j, 0 <= j < MAXFILE → fblock d' V' j = fblock d V j) → addr_of d' NDIRECT = addr_of d NDIRECT →
  has_blocks d V n → has_blocks d' V' n.
Proof. intros Hb Ha [H1 H2]. split; [intros j Hj; rewrite Hb by done; auto|by rewrite Ha]. Qed.

Lemma has_blocks_next d V d' V' n x :
  (∀ j, 0 <= j < MAXFILE → fblock d' V' j = with_block (fblock d V) n x j) → x ≠ 0 →
  (addr_of d' NDIRECT ≠ 0 ↔ NDIRECT < n + 1) → has_blocks d V n → has_blocks d' V' (n + 1).
Proof.
  intros Hb Hx Ha [H1 H2]. split; [|done]. intros j Hj. rewrite Hb by done. unfold with_block.
  case_decide as E; [split; [lia|done]|]. rewrite H1 by done. lia.
Qed.

(** The block is there. *)
Lemma appended_same m V d n fbn :
  shows m V → file_ok mkfs_sb V d → has_blocks d V n → 0 <= fbn < n → fbn < MAXFILE →
  appended m V d n fbn m V d (fblock d V fbn).
Proof.
  intros Hsh Hok Hb Hn Hm. rewrite <- (Z.max_l n (fbn + 1)) in Hb by lia. split; try done.
  - rewrite Z.max_l by lia. lia.
  - eapply grown_ext; [|by apply grown_refl]. intros j Hj. unfold with_block. by case_decide; subst.
  - split; [|done]. apply Hb; lia.
Qed.

Lemma direct_ok m V d n fbn :
  shows m V → file_ok mkfs_sb V d → has_blocks d V n → 0 <= fbn <= n → fbn < NDIRECT →
  m_freeblock m + fcost (Z.max n (fbn + 1)) - fcost n <= FSSIZE →
  wp (iappend_block d fbn) m (λ r m', ∃ V', appended m V d n fbn m' V' (fst r) (snd r)).
Proof.
  intros Hsh Hok Hb Hn Hlt Hfit. unfold iappend_block. rewrite (proj2 (Z.ltb_lt _ _)) by done.
  pose proof (addr_range V d fbn Hok) as Hr. rewrite (xint_id (addr_of d fbn)) by lia.
  assert (Ef : ∀ V' d', fblock d' V' fbn = addr_of d' fbn) by (intros; unfold fblock; by rewrite (proj2 (Z.ltb_lt _ _))).
  assert (Hm : 0 <= fbn < MAXFILE) by (rewrite MAXFILE_eq, NDIRECT_eq in *; lia).
  destruct (Z.eqb_spec (addr_of d fbn) 0) as [E|E].
  - assert (fbn = n) as ->.
    { destruct (decide (fbn < n)) as [Hl|]; [|lia]. apply (proj1 Hb) in Hl; [|done]. by rewrite Ef in Hl. }
    rewrite Z.max_r in * by lia. assert (Ec : fcost (n + 1) - fcost n = 1).
    { unfold fcost. rewrite !(proj2 (Z.ltb_ge NDIRECT _)) by lia. lia. }
    apply wp_bind, wp_bind. eapply wp_mono; [apply (next_block_ok m V Hsh); lia|].
    intros x m1 (-> & V1 & Hav & Hsh1 & I1 & F1). apply wp_ret, wp_ret. exists V1. cbn [fst snd].
    set (x := m_freeblock m) in *. pose proof (alloc_range _ _ mkfs_layout _ _ _ Hav) as Hx.
    rewrite (xint_id x) by lia. pose proof (add_direct _ _ mkfs_layout _ _ _ _ n Hok Hav ltac:(lia) E) as G.
    assert (Ea : ∀ k, 0 <= k → addr_of (set_addr n x d) k = if decide (k = n) then x else addr_of d k).
    { intros k Hk. apply addr_of_set; [apply Hok|rewrite NDIRECT_eq in Hlt; lia|done]. }
    rewrite Ea, decide_True by (done || lia). rewrite (xint_id x) by lia.
    split; try done; rewrite ?Z.max_r by lia.
    + lia.
    + eapply has_blocks_next; [apply G|lia| |done]. rewrite Ea, decide_False by (rewrite NDIRECT_eq in *; lia).
      rewrite (proj2 Hb). rewrite NDIRECT_eq in *. lia.
    + split; [lia|]. rewrite Ef, Ea by lia. by rewrite decide_True.
  - apply wp_bind, wp_ret, wp_ret. exists V. cbn [fst snd]. rewrite xint_id by lia. rewrite <- (Ef V d).
    apply appended_same; try done; [|lia]. split; [lia|]. apply (proj1 Hb); [done|]. by rewrite Ef.
Qed.

(** The block of addresses, made if need be. *)
Lemma ind_ok m V d n :
  shows m V → file_ok mkfs_sb V d → has_blocks d V n → NDIRECT <= n → m_freeblock m + (if n =? NDIRECT then 1 else 0) <= FSSIZE →
  wp (if xint (addr_of d NDIRECT) =? 0 then b ← next_block; mret (set_addr NDIRECT (xint b) d) else mret d) m (λ d' m', ∃ V',
    shows m' V' ∧ m_freeinode m' = m_freeinode m ∧ m_freeblock m' = m_freeblock m + (if n =? NDIRECT then 1 else 0) ∧
    grown mkfs_sb V d V' d' (fblock d V) ∧ addr_of d' NDIRECT ≠ 0 ∧ (∀ j, 0 <= j < MAXFILE → fblock d' V' j ≠ 0 ↔ j < n)).
Proof.
  intros Hsh Hok Hb Hn Hfit. pose proof (addr_range V d NDIRECT Hok) as Hr. rewrite xint_id by lia.
  destruct (Z.eqb_spec (addr_of d NDIRECT) 0) as [E|E].
  - assert (n = NDIRECT) as ->. { destruct (decide (NDIRECT < n)) as [Hl|]; [|lia]. by apply (proj2 Hb) in Hl. }
    rewrite Z.eqb_refl in *. apply wp_bind. eapply wp_mono; [apply (next_block_ok m V Hsh); lia|].
    intros x m1 (-> & V1 & Hav & Hsh1 & I1 & F1). apply wp_ret. exists V1. set (x := m_freeblock m) in *.
    pose proof (alloc_range _ _ mkfs_layout _ _ _ Hav) as Hx. rewrite (xint_id x) by lia.
    pose proof (add_ind _ _ mkfs_layout _ _ _ _ Hok Hav E) as G. split_and!; try done.
    + rewrite addr_of_set; [rewrite decide_True by done; lia|apply Hok|rewrite NDIRECT_eq; lia|rewrite NDIRECT_eq; lia].
    + intros j Hj. rewrite (gw_blk _ _ _ _ _ _ G) by done. by apply Hb.
  - assert (NDIRECT < n) by (by apply Hb). apply wp_ret. exists V. rewrite (proj2 (Z.eqb_neq _ _)) by lia.
    split_and!; try done; [lia|by apply grown_refl|apply Hb].
Qed.

Lemma indirect_ok m V d n fbn :
  shows m V → file_ok mkfs_sb V d → has_blocks d V n → 0 <= fbn <= n → NDIRECT <= fbn < MAXFILE →
  m_freeblock m + fcost (Z.max n (fbn + 1)) - fcost n <= FSSIZE →
  wp (iappend_block d fbn) m (λ r m', ∃ V', appended m V d n fbn m' V' (fst r) (snd r)).
Proof.
  intros Hsh Hok Hb Hn Hge Hfit. unfold iappend_block. rewrite (proj2 (Z.ltb_ge _ _)) by lia.
  assert (Ec : fcost (Z.max n (fbn + 1)) - fcost n = (if n =? NDIRECT then 1 else 0) + (if fbn =? n then 1 else 0)).
  { unfold fcost. rewrite NDIRECT_eq in *. destruct (Z.eqb_spec n 12), (Z.eqb_spec fbn n), (Z.ltb_spec 12 (Z.max n (fbn + 1))), (Z.ltb_spec 12 n); lia. }
  pose proof (sh_free _ _ Hsh) as Hfr.
  apply wp_bind. eapply wp_mono; [apply (ind_ok m V d n); try done; [lia|destruct (fbn =? n); lia]|].
  intros d1 m1 (V1 & Hsh1 & I1 & F1 & G1 & Hi & Hb1). pose proof (gw_ok _ _ _ _ _ _ G1) as Hok1.
  pose proof (addr_range V1 d1 NDIRECT Hok1) as Hr. rewrite (xint_id (addr_of d1 NDIRECT)) by lia. set (ind := addr_of d1 NDIRECT) in *.
  pose proof (fo_ind _ _ _ Hok1 Hi) as [Hir Hiu]. fold ind in Hir, Hiu. consts.
  rewrite (sh_used _ _ Hsh1), Z.ltb_lt in Hiu by (consts; lia).
  apply wp_bind. eapply (wp_rsect m1 V1); [done|consts; lia|consts; lia|].
  assert (Ef : le_load 4 (V1 ind) (4 * (fbn - NDIRECT)) = fblock d1 V1 fbn).
  { unfold fblock. rewrite (proj2 (Z.ltb_ge _ _)) by lia. fold ind. by rewrite (proj2 (Z.eqb_neq _ _)). }
  assert (Hm : 0 <= fbn < MAXFILE) by lia. rewrite Ef. destruct (Z.eqb_spec (fblock d1 V1 fbn) 0) as [E|E].
  - assert (fbn = n) as ->. { destruct (decide (fbn < n)) as [Hl|]; [|lia]. by apply Hb1 in Hl. }
    rewrite Z.eqb_refl in Ec. rewrite Z.max_r in * by lia.
    apply wp_bind, wp_bind. eapply wp_mono; [apply (next_block_ok m1 V1 Hsh1); consts; lia|].
    intros x m2 (-> & V2 & Hav & Hsh2 & I2 & F2). set (x := m_freeblock m1) in *.
    pose proof (alloc_range _ _ mkfs_layout _ _ _ Hav) as Hx. rewrite (xint_id x) by lia. cbv zeta.
    assert (EV : V2 ind = V1 ind).
    { apply (alloc_mono _ _ mkfs_layout _ _ _ _ Hav). by apply Hok1. }
    pose proof (add_entry _ _ mkfs_layout _ _ _ _ n Hok1 Hav ltac:(lia) Hi E) as G2. cbv zeta in G2. fold ind in G2. rewrite EV in G2.
    apply wp_bind. eapply (wp_wsect m2 V2); [done|lia|consts; lia|]. intros m3 Hsh3 I3 F3. apply wp_ret, wp_ret.
    rewrite le_load_store_eq. change (256 ^ Z.of_nat 4) with (2 ^ 32). rewrite Z.mod_small, xint_id by lia.
    eexists. cbn [fst snd]. split; [exact Hsh3|congruence|rewrite Z.max_r by lia; lia| | |split; [lia|]].
    + apply (grown_ext _ _ _ _ _ (with_block (fblock d1 V1) n x)); [|by apply (grown_trans _ _ mkfs_layout _ _ _ _ _ _ _ _ G1 G2)]. intros j Hj. unfold with_block. case_decide; [done|]. by apply (gw_blk _ _ _ _ _ _ G1).
    + rewrite Z.max_r by lia. split.
      * intros j Hj. rewrite (gw_blk _ _ _ _ _ _ G2) by done. unfold with_block. case_decide; [split; lia|]. rewrite Hb1 by done. lia.
      * split; [lia|done].
    + rewrite (gw_blk _ _ _ _ _ _ G2) by done. unfold with_block. by rewrite decide_True.
  - assert (Hl : fbn < n) by (by apply Hb1). apply wp_bind, wp_ret, wp_ret. exists V1. cbn [fst snd].
    rewrite Ef, xint_id by (apply (fo_blk _ _ _ Hok1) in E as [? _]; [consts; lia|done]).
    rewrite (proj2 (Z.eqb_neq fbn n)) in Ec by lia. split; try done.
    + lia.
    + eapply grown_ext; [|exact G1]. intros j Hj. unfold with_block. case_decide; subst; [|done]. symmetry. by apply (gw_blk _ _ _ _ _ _ G1).
    + rewrite Z.max_l by lia. split; [done|]. split; [lia|done].
Qed.

Lemma iappend_block_ok m V d n fbn :
  shows m V → file_ok mkfs_sb V d → has_blocks d V n → 0 <= fbn <= n → fbn < MAXFILE →
  m_freeblock m + fcost (Z.max n (fbn + 1)) - fcost n <= FSSIZE →
  wp (iappend_block d fbn) m (λ r m', ∃ V', appended m V d n fbn m' V' (fst r) (snd r)).
Proof.
  intros Hsh Hok Hb Hn Hm Hfit. destruct (Z.lt_ge_cases fbn NDIRECT); [by apply direct_ok|by apply indirect_ok].
Qed.

(** ** Appending to a file *)

Definition byte (c : Z) : Prop := 0 <= c < 256.

Lemma nblk_step off n1 :
  0 <= off → 0 < n1 → off mod BSIZE + n1 <= BSIZE → nblk (off + n1) = Z.max (nblk off) (off / BSIZE + 1) ∧ 0 <= off / BSIZE <= nblk off.
Proof. intros Ho Hn Hm. unfold nblk. rewrite BSIZE_eq in *. Z.to_euclidean_division_equations. lia. Qed.

(** A piece [p1] written behind [bs], in the block that [iappend_block] gave. *)
Lemma holds_append m V d bs m1 V1 d1 x p1 :
  let off := Z.of_nat (length bs) in let n1 := Z.of_nat (length p1) in
  let V2 := fset V1 x (write_bytes (V1 x) (off mod BSIZE) p1) in
  holds V d bs → appended m V d (nblk off) (off / BSIZE) m1 V1 d1 x → Forall byte p1 → 0 < n1 → off mod BSIZE + n1 <= BSIZE →
  off + n1 <= MAXFILE * BSIZE → holds V2 d1 (bs ++ p1) ∧ file_step mkfs_sb V d V2 d1.
Proof.
  intros off n1 V2 [Hok Hs Hb Hby] [Hsh I F G Hb1 [Hx Ex]] Hp Hn Hm Hmax.
  assert (Ho : 0 <= off) by (unfold off; lia). destruct (nblk_step off n1 Ho Hn Hm) as [En _].
  assert (Hf : 0 <= off / BSIZE < MAXFILE).
  { split; [by apply Z.div_pos|]. apply Z.div_lt_upper_bound; [done|]. lia. }
  pose proof (file_write mkfs_sb mkfs_log V1 d1 (off / BSIZE) (write_bytes (V1 x) (off mod BSIZE) p1) mkfs_layout (gw_ok _ _ _ _ _ _ G) Hf ltac:(by rewrite Ex)) as W.
  cbv zeta in W. rewrite Ex in W. fold V2 in W. destruct W as (W1 & W2 & W3 & W4 & _).
  split; [split; try done|].
  - rewrite length_app. lia.
  - rewrite length_app, Nat2Z.inj_add. fold off n1. rewrite En. eapply has_blocks_same; [|done|exact Hb1]. intros j _. apply W3.
  - intros o Hoo. rewrite W4 by done. pose proof (Z.div_mod o BSIZE ltac:(done)). pose proof (Z.div_mod off BSIZE ltac:(done)).
    pose proof (Z.mod_pos_bound o BSIZE ltac:(done)). pose proof (Z.mod_pos_bound off BSIZE ltac:(done)).
    assert (Hold : fbyte d1 V1 o = default 0 (bs !! Z.to_nat o)) by (rewrite (gw_byte _ _ _ _ _ _ G) by done; auto).
    destruct (decide (o / BSIZE = off / BSIZE)) as [E|E].
    + rewrite mget_write_bytes. case_decide as Hin.
      * rewrite lookup_app_r by (unfold off in *; lia). replace (Z.to_nat (o mod BSIZE - off mod BSIZE)) with (Z.to_nat o - length bs)%nat by (unfold off in *; lia).
        destruct (lookup_lt_is_Some_2 p1 (Z.to_nat o - length bs)) as [c Hc]; [unfold n1, off in *; lia|]. rewrite Hc. cbn [default].
        pose proof (proj1 (list.Forall_forall _ _) Hp c (list_elem_of_lookup_2 _ _ _ Hc)) as Hc8. apply Z.mod_small. exact Hc8.
      * unfold fbyte in Hold. rewrite E, Ex, (proj2 (Z.eqb_neq x 0)) in Hold by done. rewrite Hold.
        destruct (decide (o < off)) as [Hlt|]; [by rewrite lookup_app_l by (unfold off in *; lia)|].
        rewrite (lookup_ge_None_2 (bs ++ p1)) by (rewrite length_app; unfold off, n1 in *; lia). by rewrite lookup_ge_None_2 by (unfold off in *; lia).
    + rewrite Hold. destruct (decide (o < off)) as [Hlt|]; [by rewrite lookup_app_l by (unfold off in *; lia)|].
      assert (off + n1 <= o). { rewrite BSIZE_eq in *. Z.to_euclidean_division_equations. lia. }
      rewrite (lookup_ge_None_2 (bs ++ p1)) by (rewrite length_app; unfold off, n1 in *; lia). by rewrite lookup_ge_None_2 by (unfold off in *; lia).
  - eapply file_step_trans; [|exact W1|apply G|exact W2]. consts. lia.
Qed.

(** ** All files of the image *)

(** Blocks for files of these types and contents. *)
Definition room (fl : list (Z * list Z)) : Z := foldr (λ f n, fcost (nblk (Z.of_nat (length (snd f)))) + n) 0 fl.

Record files m V (ds : list dinode) (fl : list (Z * list Z)) : Prop := {
  fi_shows : shows m V;
  fi_len : length ds = length fl;
  fi_free : m_freeblock m = nmeta + room fl;
  fi_holds : ∀ k d f, ds !! k = Some d → fl !! k = Some f → holds V d (snd f);
  fi_disj : ∀ j k d d' b, ds !! j = Some d → ds !! k = Some d' → j ≠ k → owns d V b → ¬ owns d' V b
}.

Lemma room_insert fl k f f' : fl !! k = Some f →
  room (<[k := f']> fl) = room fl + fcost (nblk (Z.of_nat (length (snd f')))) - fcost (nblk (Z.of_nat (length (snd f)))).
Proof.
  revert k. induction fl as [|g fl IH]; intros [|k] Hk; try done.
  - injection Hk as ->. cbn. lia.
  - cbn [room foldr list_insert insert]. fold (room fl). change (list_insert k f' fl) with (<[k := f']> fl). fold (room (<[k := f']> fl)). rewrite IH by done. lia.
Qed.

Lemma room_app fl fl' : room (fl ++ fl') = room fl + room fl'.
Proof. induction fl as [|f fl IH]; [done|]. cbn [room foldr app]. fold (room (fl ++ fl')) (room fl). rewrite IH. lia. Qed.

Lemma holds_frame m m' V V' d bs :
  shows m V → shows m' V' → m_freeblock m <= m_freeblock m' → (∀ b, owns d V b → V' b = V b) → holds V d bs →
  holds V' d bs ∧ ∀ b, owns d V' b ↔ owns d V b.
Proof.
  intros Hs Hs' Hf HV [Hok Hsz Hb Hby]. destruct (file_frame mkfs_sb V d V' Hok HV) as (Hok' & Hb' & Hby').
  { intros b [Hr Hu]. split; [done|]. consts. rewrite (sh_used _ _ Hs), (sh_used _ _ Hs') in * by (consts; lia). rewrite Z.ltb_lt in *. lia. }
  split; [split; try done|].
  - by eapply has_blocks_same.
  - intros o Ho. rewrite Hby' by done. auto.
  - intros b. unfold owns. split; intros [H0 [Hi|(n & Hn & Hbn)]]; (split; [done|]); (by left) || right; exists n; (split; [done|]).
    + by rewrite <- Hb'.
    + by rewrite Hb'.
Qed.

(** Changes outside the data blocks. *)
Lemma files_frame m V ds fl m' V' :
  files m V ds fl → shows m' V' → m_freeblock m' = m_freeblock m → (∀ b, nmeta <= b → V' b = V b) → files m' V' ds fl.
Proof.
  intros [Hs Hl Hf Hh Hd] Hs' Hfb HV.
  assert (Hk : ∀ k d f, ds !! k = Some d → fl !! k = Some f → holds V' d (snd f) ∧ ∀ b, owns d V' b ↔ owns d V b).
  { intros k d f Hk1 Hk2. pose proof (Hh k d f Hk1 Hk2) as Ho. apply (holds_frame m m' V V'); try done; [lia|].
    intros b Hb. apply HV. apply (owns_data _ _ _ _ (ho_ok _ _ _ Ho)) in Hb as [Hr _]. consts. lia. }
  assert (Hl' : ∀ k d, ds !! k = Some d → ∀ b, owns d V' b ↔ owns d V b).
  { intros k d Hkd. destruct (lookup_lt_is_Some_2 fl k) as [f Hf']; [rewrite <- Hl; by eapply lookup_lt_Some|]. by apply (Hk k d f). }
  split; try done; [congruence| |].
  - intros k d f Hk1 Hk2. by apply (Hk k d f).
  - intros j k d d' b Hj Hk' Hne. rewrite (Hl' j), (Hl' k) by done. by apply (Hd j k).
Qed.

(** File [k] has changed. *)
Lemma files_step m V ds fl m' V' k d ty bs d' bs' :
  files m V ds fl → ds !! k = Some d → fl !! k = Some (ty, bs) → shows m' V' → m_freeblock m <= m_freeblock m' →
  m_freeblock m' = m_freeblock m + fcost (nblk (Z.of_nat (length bs'))) - fcost (nblk (Z.of_nat (length bs))) →
  holds V' d' bs' → file_step mkfs_sb V d V' d' → files m' V' (<[k := d']> ds) (<[k := (ty, bs')]> fl).
Proof.
  intros [Hs Hl Hf Hh Hd] Hkd Hkf Hs' Hle Hfb Hh' [St1 St2 St3].
  assert (Hdata : ∀ j d f b, ds !! j = Some d → fl !! j = Some f → owns d V b → is_data_block mkfs_sb V b).
  { intros j e f b Hj Hjf. apply owns_data. by eapply ho_ok, Hh. }
  assert (Hk : ∀ j e f, j ≠ k → ds !! j = Some e → fl !! j = Some f → holds V' e (snd f) ∧ ∀ b, owns e V' b ↔ owns e V b).
  { intros j e f Hne Hj Hjf. apply (holds_frame m m' V V'); try done; [|by eapply Hh]. intros b Hb.
    destruct (Hdata j e f b Hj Hjf Hb) as [Hr Hu]. apply St2; [consts; lia| |done|by apply (Hd j k e d)].
    by apply (data_not_bm _ _ mkfs_layout V). }
  assert (Hfl : ∀ j e, ds !! j = Some e → ∃ f, fl !! j = Some f).
  { intros j e Hj. apply lookup_lt_is_Some_2. rewrite <- Hl. by eapply lookup_lt_Some. }
  assert (Hnew : ∀ j e b, j ≠ k → ds !! j = Some e → owns e V' b → ¬ owns d' V' b).
  { intros j e b Hne Hj Ho Hd'. destruct (Hfl j e Hj) as [f Hjf]. apply (Hk j e f) in Ho; try done.
    destruct (St1 b Hd') as [|Hu]; [by apply (Hd j k e d b)|]. destruct (Hdata j e f b Hj Hjf Ho) as [_ Hu']. congruence. }
  split; try done.
  - by rewrite !length_insert.
  - rewrite (room_insert _ _ _ _ Hkf). cbn [snd]. lia.
  - intros j e f. destruct (decide (j = k)) as [->|Hne].
    + rewrite !list_lookup_insert_eq by (eapply lookup_lt_Some; done). by intros [= <-] [= <-].
    + rewrite !list_lookup_insert_ne by done. intros. by apply (Hk j e f).
  - intros i j e e' b Hi Hj Hne. destruct (decide (i = k)) as [->|Hi'], (decide (j = k)) as [->|Hj']; [done| | |].
    + rewrite list_lookup_insert_eq in Hi by (eapply lookup_lt_Some; done). rewrite list_lookup_insert_ne in Hj by done.
      injection Hi as <-. intros Ho He. by apply (Hnew j e' b).
    + rewrite list_lookup_insert_eq in Hj by (eapply lookup_lt_Some; done). rewrite list_lookup_insert_ne in Hi by done.
      injection Hj as <-. by apply Hnew with i.
    + rewrite list_lookup_insert_ne in Hi, Hj by done. destruct (Hfl i e Hi) as [f Hf'], (Hfl j e' Hj) as [f' Hf''].
      rewrite (proj2 (Hk i e f Hi' Hi Hf')), (proj2 (Hk j e' f' Hj' Hj Hf'')). by apply (Hd i j).
Qed.

(** ** Inodes *)

(** A file of type [ty] with [n] bytes, linked once. *)
Definition meta d (ty n : Z) : Prop := d_type d = ty ∧ d_major d = 0 ∧ d_minor d = 0 ∧ d_nlink d = 1 ∧ d_size d = n.

(** The inodes from 1 on are [ds]; the others are free. *)
Definition inodes_are V (ds : list dinode) : Prop :=
  ∀ j, 0 <= j < NINODES → dinode_on mkfs_sb V j = if j =? 0 then dinode0 else default dinode0 (ds !! Z.to_nat (j - 1)).

(** The blocks before the inodes. *)
Definition boot_ok V : Prop := ∀ b, 0 <= b < sb_inodestart mkfs_sb → V b = if decide (b = 1) then put_sb mkfs_sb else ∅.

Record image m V (ds : list dinode) (fl : list (Z * list Z)) : Prop := {
  ia_files : files m V ds fl;
  ia_next : m_freeinode m = 1 + Z.of_nat (length ds);
  ia_count : Z.of_nat (length ds) < NINODES;
  ia_meta : ∀ k d f, ds !! k = Some d → fl !! k = Some f → meta d (fst f) (Z.of_nat (length (snd f)));
  ia_inodes : inodes_are V ds;
  ia_boot : boot_ok V
}.

Lemma iblock_range j : 0 <= j < NINODES → sb_inodestart mkfs_sb <= IBLOCK j mkfs_sb < sb_bmapstart mkfs_sb.
Proof.
  intros Hj. change NINODES with 200 in Hj. unfold IBLOCK. change (sb_inodestart mkfs_sb) with 32. consts.
  rewrite IPB_eq, w32_small; Z.to_euclidean_division_equations; lia.
Qed.

Lemma winode_ok m V inum d :
  shows m V → 0 <= inum < NINODES → dinode_wf d →
  wp (winode inum d) m (λ _ m', ∃ V', shows m' V' ∧ m_freeinode m' = m_freeinode m ∧ m_freeblock m' = m_freeblock m ∧
    (∀ j, 0 <= j < NINODES → dinode_on mkfs_sb V' j = if decide (j = inum) then d else dinode_on mkfs_sb V j) ∧
    ∀ b, b < sb_inodestart mkfs_sb ∨ sb_bmapstart mkfs_sb <= b → V' b = V b).
Proof.
  intros Hsh Hi Hwf. pose proof (iblock_range inum Hi) as Hr. change (sb_inodestart mkfs_sb) with 32 in *. consts.
  pose proof (sh_free _ _ Hsh) as Hfr. consts.
  unfold winode. apply wp_bind, wp_gets. rewrite (sh_sb _ _ Hsh). apply wp_bind.
  eapply (wp_rsect m V); [done|consts; lia|consts; lia|].
  eapply (wp_wsect m V); [done|lia|consts; lia|]. intros m' Hsh' I F. eexists. split_and!; [exact Hsh'|done|done| |].
  - intros j Hj. by apply (dinode_on_update _ _ _ _ _ _ mkfs_layout).
  - intros b Hb. apply fset_ne. consts. lia.
Qed.

Lemma rinode_ok m V inum (Q : dinode → mst → Prop) :
  shows m V → 0 <= inum < NINODES → Q (dinode_on mkfs_sb V inum) m → wp (rinode inum) m Q.
Proof.
  intros Hsh Hi HQ. pose proof (iblock_range inum Hi) as Hr. change (sb_inodestart mkfs_sb) with 32 in *. consts.
  unfold rinode. apply wp_bind, wp_gets. rewrite (sh_sb _ _ Hsh). apply wp_bind.
  eapply (wp_rsect m V); [done|consts; lia|consts; lia|]. by apply wp_ret.
Qed.

(** Inode [k + 1] is rewritten and its file grows. *)
Lemma image_winode m V ds ds0 fl m0 V0 k d :
  files m0 V0 ds fl → inodes_are V0 ds0 → boot_ok V0 → length ds0 = length ds → shows m V →
  (∀ j, j ≠ k → ds0 !! j = ds !! j) → ds !! k = Some d → m_freeinode m = 1 + Z.of_nat (length ds) → Z.of_nat (length ds) < NINODES →
  (∀ k d f, ds !! k = Some d → fl !! k = Some f → meta d (fst f) (Z.of_nat (length (snd f)))) →
  m_freeblock m = m_freeblock m0 →
  (∀ j, 0 <= j < NINODES → dinode_on mkfs_sb V j = if decide (j = Z.of_nat k + 1) then d else dinode_on mkfs_sb V0 j) →
  (∀ b, b < sb_inodestart mkfs_sb ∨ sb_bmapstart mkfs_sb <= b → V b = V0 b) → image m V ds fl.
Proof.
  intros Hfi Hin Hbo Hlen Hsh Hds Hk Hnext Hcnt Hmeta Hfb Hdin HV. split; try done.
  - apply (files_frame m0 V0); try done. intros b Hb. apply HV. consts. lia.
  - intros j Hj. rewrite Hdin by done. case_decide as E.
    + subst j. rewrite (proj2 (Z.eqb_neq _ _)) by lia. replace (Z.to_nat (Z.of_nat k + 1 - 1)) with k by lia. by rewrite Hk.
    + rewrite Hin by done. destruct (Z.eqb_spec j 0); [done|]. rewrite Hds by lia. done.
  - intros b Hb. rewrite HV by lia. auto.
Qed.

Lemma holds_size V d bs n : 0 <= n < 2 ^ 32 → holds V d bs → holds V (set_size n d) bs.
Proof.
  intros Hn [Hok Hs Hb Hby]. split; [|done|exact Hb|exact Hby]. destruct Hok as [[] H1 H2 H3 H4]. split; [by split|exact H1|exact H2|exact H3|exact H4].
Qed.

Lemma files_size m V ds fl k d f n :
  files m V ds fl → ds !! k = Some d → fl !! k = Some f → 0 <= n < 2 ^ 32 → files m V (<[k := set_size n d]> ds) fl.
Proof.
  intros Hfi Hd Hf Hn. destruct f as [ty bs]. rewrite <- (list_insert_id fl k (ty, bs)) by done.
  apply (files_step m V ds fl m V k d ty bs (set_size n d) bs); try done; [apply Hfi|lia| |split; [intros b Hb; left; exact Hb|auto|auto] ].
  apply holds_size; [done|]. by apply (fi_holds _ _ _ _ Hfi k d (ty, bs)).
Qed.

(** The loop of [iappend] on inode [k + 1], with [p1] written. *)
Record appending m V (ds : list dinode) fl (k : nat) (ty : Z) (bs : list Z) m1 V1 d1 (p1 : list Z) : Prop := {
  pg_files : files m1 V1 (<[k := d1]> ds) (<[k := (ty, bs ++ p1)]> fl);
  pg_meta : meta d1 ty (Z.of_nat (length bs));
  pg_next : m_freeinode m1 = m_freeinode m;
  pg_free : m_freeblock m1 = m_freeblock m + fcost (nblk (Z.of_nat (length (bs ++ p1)))) - fcost (nblk (Z.of_nat (length bs)));
  pg_low : ∀ b, 0 <= b < sb_bmapstart mkfs_sb → V1 b = V b
}.

Lemma fcost_le n n' : n <= n' → fcost n <= fcost n'.
Proof. intros Hn. unfold fcost. destruct (Z.ltb_spec NDIRECT n), (Z.ltb_spec NDIRECT n'); lia. Qed.

Lemma nblk_le n n' : n <= n' → nblk n <= nblk n'.
Proof. intros Hn. unfold nblk. apply Z.div_le_mono; [done|lia]. Qed.

Lemma appending_round m V ds fl k ty bs m1 V1 d1 p1 p :
  appending m V ds fl k ty bs m1 V1 d1 p1 → (k < length ds)%nat → (k < length fl)%nat → Forall byte p → p ≠ [] →
  Z.of_nat (length (bs ++ p1 ++ p)) <= MAXFILE * BSIZE →
  m_freeblock m + fcost (nblk (Z.of_nat (length (bs ++ p1 ++ p)))) - fcost (nblk (Z.of_nat (length bs))) <= FSSIZE →
  wp (iappend_body (d1, Z.of_nat (length (bs ++ p1)), p)) m1 (λ r m2, ∃ d2 V2 n,
    (0 < n <= length p)%nat ∧ r = inl (d2, Z.of_nat (length (bs ++ p1 ++ take n p)), drop n p) ∧
    appending m V ds fl k ty bs m2 V2 d2 (p1 ++ take n p)).
Proof.
  intros [Hfi Hme Hne Hfr Hlow] Hkd Hkf Hp Hp0 Hmax Hfit. set (off := Z.of_nat (length (bs ++ p1))).
  assert (Hlen : Z.of_nat (length (bs ++ p1 ++ p)) = off + Z.of_nat (length p)) by (unfold off; rewrite !length_app; lia).
  assert (Hpl : 0 < Z.of_nat (length p)) by (destruct p; [done|simpl; lia]).
  assert (Ed : <[k:=d1]> ds !! k = Some d1) by (by apply list_lookup_insert_eq).
  assert (Ef : <[k:=(ty, bs ++ p1)]> fl !! k = Some (ty, bs ++ p1)) by (by apply list_lookup_insert_eq).
  pose proof (fi_holds _ _ _ _ Hfi k _ _ Ed Ef) as Hho. cbn [snd] in Hho.
  assert (Hfb : 0 <= off / BSIZE < MAXFILE).
  { split; [apply Z.div_pos; [unfold off; lia|done]|]. apply Z.div_lt_upper_bound; [done|]. lia. }
  pose proof (Z.div_mod off BSIZE ltac:(done)) as Hdm. pose proof (Z.mod_pos_bound off BSIZE ltac:(done)) as Hmb.
  unfold iappend_body. rewrite (proj2 (Z.ltb_lt 0 _)), (proj2 (Z.ltb_lt _ MAXFILE)) by lia.
  set (n1 := Z.min (Z.of_nat (length p)) (BSIZE - off mod BSIZE)).
  assert (Hn1 : 0 < n1) by (unfold n1; lia). assert (Hn2 : off mod BSIZE + n1 <= BSIZE) by (unfold n1; lia).
  destruct (nblk_step off n1 ltac:(unfold off; lia) Hn1 Hn2) as [En Hnb].
  assert (Hstep : m_freeblock m1 + fcost (nblk (off + n1)) - fcost (nblk off) <= FSSIZE).
  { rewrite Hfr. fold off. assert (fcost (nblk (off + n1)) <= fcost (nblk (Z.of_nat (length (bs ++ p1 ++ p))))); [|lia].
    apply fcost_le, nblk_le. unfold n1. lia. }
  apply wp_bind. eapply wp_mono; [apply (iappend_block_ok m1 V1 d1 (nblk off) (off / BSIZE)); [apply Hfi|apply Hho|apply Hho|done|lia|by rewrite <- En]|].
  intros [d2 x] m2 (V2 & Hap). cbn [fst snd] in Hap. pose proof Hap as [Hsh2 I2 F2 G2 Hb2 [Hx0 Ex]].
  pose proof (fo_blk _ _ _ (gw_ok _ _ _ _ _ _ G2) (off / BSIZE) ltac:(lia) ltac:(by rewrite Ex)) as [Hxr Hxu]. rewrite Ex in Hxr, Hxu.
  rewrite (sh_used _ _ Hsh2), Z.ltb_lt in Hxu by (consts; lia).
  assert (E1 : w32 ((off / BSIZE + 1) * BSIZE - off) = BSIZE - off mod BSIZE) by (rewrite w32_small; rewrite ?BSIZE_eq in *; lia).
  rewrite E1. fold n1. apply wp_bind. eapply (wp_rsect m2 V2); [done|consts; lia|consts; lia|].
  apply wp_bind. eapply (wp_wsect m2 V2); [done|consts; lia|consts; lia|]. intros m3 Hsh3 I3 F3. apply wp_ret.
  replace (off - off / BSIZE * BSIZE) with (off mod BSIZE) in Hsh3 by lia.
  assert (Hlt : Z.of_nat (length (take (Z.to_nat n1) p)) = n1) by (rewrite length_take; unfold n1; lia).
  destruct (holds_append m1 V1 d1 (bs ++ p1) m2 V2 d2 x (take (Z.to_nat n1) p)) as [Hh3 Hst3]; try done.
  { by apply Forall_take. }
  { by rewrite Hlt. }
  { by rewrite Hlt. }
  { rewrite Hlt. fold off. unfold n1. lia. }
  fold off in Hh3, Hst3. eexists d2, _, (Z.to_nat n1). split; [unfold n1; lia|]. split.
  { do 3 f_equal. rewrite w32_small; [rewrite !length_app, length_take in *; unfold off; rewrite length_app; unfold n1; lia|].
    rewrite MAXFILE_eq, BSIZE_eq in Hmax. unfold n1, off in *. lia. }
  assert (Hlen3 : Z.of_nat (length (bs ++ p1 ++ take (Z.to_nat n1) p)) = off + n1) by (unfold off; rewrite !length_app in *; lia).
  split.
  - rewrite app_assoc. rewrite <- (list_insert_insert_eq ds k d2 d1), <- (list_insert_insert_eq fl k _ (ty, bs ++ p1)).
    apply (files_step m1 V1 _ _ m3 _ k d1 ty (bs ++ p1) d2 ((bs ++ p1) ++ take (Z.to_nat n1) p)); try done.
    + rewrite F3, F2. pose proof (fcost_le (nblk off) (Z.max (nblk off) (off / BSIZE + 1)) ltac:(lia)). lia.
    + rewrite <- app_assoc, Hlen3. fold off. rewrite F3, F2, En. done.
  - destruct Hme as (?&?&?&?&?), (gw_meta _ _ _ _ _ _ G2) as (?&?&?&?&?). split_and!; congruence.
  - congruence.
  - rewrite Hlen3, F3, F2, <- En, Hfr. fold off. lia.
  - intros b Hb. rewrite <- Hlow by done. apply (st_frame _ _ _ _ _ Hst3); [consts; lia| | |].
    + unfold is_bm. consts. lia.
    + rewrite (sh_used _ _ (fi_shows _ _ _ _ Hfi)) by (consts; lia). apply Z.ltb_lt. pose proof (sh_free _ _ (fi_shows _ _ _ _ Hfi)). consts. lia.
    + intros Ho. apply (owns_data _ _ _ _ (ho_ok _ _ _ Hho)) in Ho as [Hr _]. consts. lia.
Qed.

Lemma image_inode m V ds fl k d : image m V ds fl → ds !! k = Some d → dinode_on mkfs_sb V (Z.of_nat k + 1) = d ∧ Z.of_nat k + 1 < NINODES.
Proof.
  intros [] Hk. pose proof (lookup_lt_Some _ _ _ Hk). rewrite ia_inodes0 by lia. rewrite (proj2 (Z.eqb_neq _ _)) by lia.
  replace (Z.to_nat (Z.of_nat k + 1 - 1)) with k by lia. rewrite Hk. split; [done|lia].
Qed.

Lemma inodes_low V V' ds : (∀ b, 0 <= b < sb_bmapstart mkfs_sb → V' b = V b) → inodes_are V ds → inodes_are V' ds.
Proof.
  intros HV Hi j Hj. rewrite <- Hi by done. unfold dinode_on. pose proof (iblock_range j Hj). rewrite HV; [done|].
  change (sb_inodestart mkfs_sb) with 32 in *. lia.
Qed.

(** The inode is written at the end. *)
Lemma appending_done m V ds fl k ty bs m1 V1 d1 p :
  let n := Z.of_nat (length (bs ++ p)) in
  image m V ds fl → (k < length ds)%nat → (k < length fl)%nat → appending m V ds fl k ty bs m1 V1 d1 p → n < 2 ^ 32 →
  wp (winode (Z.of_nat k + 1) (set_size n d1)) m1 (λ _ m', ∃ V' ds', image m' V' ds' (<[k := (ty, bs ++ p)]> fl) ∧ length ds' = length ds).
Proof.
  intros n [Hfi Hnext Hcnt Hmeta Hino Hboot] Hkd Hkf [Hfi1 Hme1 Hne1 Hfr1 Hlow1] Hn.
  assert (E1 : <[k:=d1]> ds !! k = Some d1) by (by apply list_lookup_insert_eq).
  assert (E2 : <[k:=(ty, bs ++ p)]> fl !! k = Some (ty, bs ++ p)) by (by apply list_lookup_insert_eq).
  assert (E3 : <[k:=set_size n d1]> ds !! k = Some (set_size n d1)) by (by apply list_lookup_insert_eq).
  assert (Hfi2 : files m1 V1 (<[k := set_size n d1]> ds) (<[k := (ty, bs ++ p)]> fl)).
  { rewrite <- (list_insert_insert_eq ds k _ d1). eapply files_size; [done|done|done|unfold n in *; lia]. }
  eapply wp_mono; [apply (winode_ok m1 V1); [apply Hfi1|lia|apply (ho_ok _ _ _ (fi_holds _ _ _ _ Hfi2 k _ _ E3 E2))]|].
  intros _ m2 (V2 & Hsh2 & I2 & F2 & Hd2 & HV2). exists V2, (<[k := set_size n d1]> ds). split; [|by rewrite length_insert].
  eapply (image_winode m2 V2 _ ds _ m1 V1 k); try done.
  - by eapply inodes_low.
  - intros b Hb. rewrite Hlow1; [auto|]. change (sb_inodestart mkfs_sb) with 32 in *. consts. lia.
  - by rewrite length_insert.
  - intros j Hj. by rewrite list_lookup_insert_ne.
  - rewrite length_insert. congruence.
  - by rewrite length_insert.
  - intros j e f. destruct (decide (j = k)) as [->|Hne]; [|rewrite !list_lookup_insert_ne by done; apply Hmeta].
    rewrite E3, E2. intros [= <-] [= <-]. destruct Hme1 as (?&?&?&?&?). by split_and!.
Qed.

(** [iappend] adds [p] to the end of the file of inode [k + 1]. *)
Lemma iappend_ok m V ds fl k ty bs p :
  image m V ds fl → fl !! k = Some (ty, bs) → Forall byte p → Z.of_nat (length (bs ++ p)) <= MAXFILE * BSIZE →
  m_freeblock m + fcost (nblk (Z.of_nat (length (bs ++ p)))) - fcost (nblk (Z.of_nat (length bs))) <= FSSIZE →
  wp (iappend (Z.of_nat k + 1) p) m (λ _ m', ∃ V' ds', image m' V' ds' (<[k := (ty, bs ++ p)]> fl) ∧ length ds' = length ds).
Proof.
  intros Him Hf Hp Hmax Hfit. pose proof Him as [Hfi Hnext Hcnt Hmeta Hino Hboot]. pose proof (fi_len _ _ _ _ Hfi) as Hlen.
  pose proof (lookup_lt_Some _ _ _ Hf) as Hkf. destruct (lookup_lt_is_Some_2 ds k ltac:(lia)) as [d Hd]. pose proof (lookup_lt_Some _ _ _ Hd) as Hkd.
  destruct (image_inode _ _ _ _ _ _ Him Hd) as [Ed Hk]. pose proof (Hmeta k d _ Hd Hf) as Hm. cbn [fst snd] in Hm.
  unfold iappend. apply wp_bind. eapply (rinode_ok m V); [apply Hfi|lia|]. rewrite Ed.
  assert (Hsz : d_size d = Z.of_nat (length bs)) by apply Hm. rewrite Hsz.
  assert (Hsmall : Z.of_nat (length (bs ++ p)) < 2 ^ 32) by (rewrite MAXFILE_eq, BSIZE_eq in Hmax; lia).
  rewrite xint_id by (rewrite length_app in Hsmall; lia). apply wp_bind.
  apply (wp_loop _ (λ n v m1, ∃ p1 p2 d1 V1, p = p1 ++ p2 ∧ n = length p2 ∧ v = (d1, Z.of_nat (length (bs ++ p1)), p2) ∧
    appending m V ds fl k ty bs m1 V1 d1 p1) _) with (n := length p).
  - intros n v m1 (p1 & p2 & d1 & V1 & -> & -> & -> & Hpg). apply Forall_app in Hp as [_ Hp2]. destruct p2 as [|c p2].
    { rewrite app_nil_r in *. unfold iappend_body. cbn [length]. change (0 <? Z.of_nat 0) with false. apply wp_ret.
      rewrite xint_id by lia. by apply (appending_done m V ds fl k ty bs m1 V1 d1 p1). }
    eapply wp_mono; [by apply (appending_round m V ds fl k ty bs m1 V1 d1 p1 (c :: p2))|].
    intros r m2 (d2 & V2 & n & Hn & -> & Hpg2). exists (length (drop n (c :: p2))). split; [rewrite length_drop; lia|].
    exists (p1 ++ take n (c :: p2)), (drop n (c :: p2)), d2, V2. rewrite <- app_assoc, take_drop. split_and!; done.
  - exists [], p, d, V. rewrite app_nil_r. split_and!; try done. split; try done.
    + rewrite app_nil_r. by rewrite !list_insert_id.
    + rewrite app_nil_r. lia.
  - lia.
Qed.

(** ** New inodes *)

Definition new_dinode (ty : Z) : dinode := mk_dinode ty 0 0 1 0 (replicate 13 0).

Lemma new_addr ty k : addr_of (new_dinode ty) k = 0.
Proof.
  unfold addr_of, new_dinode. cbn [d_addrs]. destruct (decide (Z.to_nat k < 13)%nat) as [Hk|Hk].
  - by rewrite lookup_replicate_2.
  - by rewrite lookup_ge_None_2 by (rewrite length_replicate; lia).
Qed.

Lemma new_fblock ty V n : fblock (new_dinode ty) V n = 0.
Proof. unfold fblock. rewrite !new_addr. by destruct (n <? NDIRECT). Qed.

Lemma new_holds ty V : 0 <= ty < 2 ^ 15 → holds V (new_dinode ty) [].
Proof.
  intros Hty. split.
  - split.
    + split; cbn [new_dinode d_type d_major d_minor d_nlink d_size d_addrs]; try lia; [done|]. by apply Forall_replicate.
    + by rewrite new_addr.
    + intros n _. by rewrite new_fblock.
    + intros n n' _ _. by rewrite new_fblock.
    + intros n _. by rewrite new_fblock.
  - cbn. rewrite MAXFILE_eq, BSIZE_eq. lia.
  - change (nblk (Z.of_nat (length []))) with 0. split; [intros j Hj; rewrite new_fblock|rewrite new_addr, NDIRECT_eq]; split; lia || done.
  - intros o _. unfold fbyte. by rewrite new_fblock.
Qed.

Lemma files_new m V ds fl ty : 0 <= ty < 2 ^ 15 → files m V ds fl → files m V (ds ++ [new_dinode ty]) (fl ++ [(ty, [])]).
Proof.
  intros Hty [Hs Hl Hf Hh Hd].
  assert (Hno : ∀ b, ¬ owns (new_dinode ty) V b).
  { intros b [H0 [Hb|(n & _ & Hb)]]; [by rewrite new_addr in Hb|by rewrite new_fblock in Hb]. }
  split; try done.
  - rewrite !length_app. simpl. lia.
  - rewrite room_app, Hf. cbn. change (fcost (nblk (Z.of_nat 0))) with 0. lia.
  - intros k d f. destruct (decide (k < length ds)%nat) as [Hk|Hk].
    + rewrite !lookup_app_l by lia. apply Hh.
    + rewrite !lookup_app_r by lia. rewrite Hl. destruct (k - length fl)%nat; [|done]. intros [= <-] [= <-]. by apply new_holds.
  - intros j k d d' b Hj Hk Hne. destruct (decide (j < length ds)%nat) as [Hj'|Hj'], (decide (k < length ds)%nat) as [Hk'|Hk'].
    + rewrite lookup_app_l in Hj, Hk by done. by apply (Hd j k).
    + rewrite lookup_app_r in Hk by lia. destruct (k - length ds)%nat eqn:E; [|done]. injection Hk as <-. intros _. apply Hno.
    + rewrite lookup_app_r in Hj by lia. destruct (j - length ds)%nat eqn:E; [|done]. injection Hj as <-. intros Ho. by apply Hno in Ho.
    + rewrite lookup_app_r in Hj, Hk by lia. destruct (j - length ds)%nat eqn:E1, (k - length ds)%nat eqn:E2; try done. lia.
Qed.

Lemma ialloc_ok m V ds fl ty :
  image m V ds fl → Z.of_nat (length ds) + 1 < NINODES → 0 <= ty < 2 ^ 15 →
  wp (Mkfs.ialloc ty) m (λ inum m', inum = Z.of_nat (length ds) + 1 ∧ ∃ V', image m' V' (ds ++ [new_dinode ty]) (fl ++ [(ty, [])]) ∧
    m_freeblock m' = m_freeblock m).
Proof.
  intros [Hfi Hnext Hcnt Hmeta Hino Hboot] Hlt Hty. unfold Mkfs.ialloc. apply wp_bind, wp_gets, wp_bind, wp_modify. rewrite Hnext.
  rewrite w32_small by (change NINODES with 200 in *; lia). rewrite !xshort_id by lia. rewrite (xint_id 0) by lia.
  set (m1 := set_freeinode _ m). assert (Hsh1 : shows m1 V) by (destruct (fi_shows _ _ _ _ Hfi); by split).
  assert (E : set_size 0 (set_nlink (i16 1) (set_type (i16 ty) dinode0)) = new_dinode ty).
  { unfold set_size, set_nlink, set_type, new_dinode, dinode0. cbn [d_type d_major d_minor d_nlink d_size d_addrs]. f_equal. unfold i16. rewrite Z.mod_small by lia. lia. }
  rewrite E. apply wp_bind. eapply wp_mono; [apply (winode_ok m1 V); [done|lia|apply (new_holds ty V Hty)]|].
  intros _ m2 (V2 & Hsh2 & I2 & F2 & Hd2 & HV2). apply wp_ret. split; [lia|]. exists V2. split; [|done].
  pose proof (fi_len _ _ _ _ Hfi) as Hlen.
  assert (Hlk : ∀ j, (ds ++ [new_dinode ty]) !! j = if decide (j = length ds) then Some (new_dinode ty) else ds !! j).
  { intros j. case_decide as Ej; [subst j; by rewrite lookup_app_r, Nat.sub_diag by lia|].
    destruct (decide (j < length ds)%nat) as [Hj|Hj]; [by rewrite lookup_app_l|].
    rewrite lookup_app_r, (lookup_ge_None_2 ds) by lia. destruct (j - length ds)%nat eqn:E'; [lia|done]. }
  eapply (image_winode m2 V2 _ (ds ++ [dinode0]) _ m1 V (length ds) (new_dinode ty)); try done.
  - apply (files_new _ _ _ _ _ Hty). by destruct Hfi.
  - intros j Hj. rewrite Hino by done. destruct (Z.eqb_spec j 0); [done|]. destruct (decide (Z.to_nat (j - 1) < length ds)%nat) as [Hlt'|Hge].
    + by rewrite lookup_app_l.
    + rewrite lookup_app_r, (lookup_ge_None_2 ds) by lia. by destruct (Z.to_nat (j - 1) - length ds)%nat.
  - by rewrite !length_app.
  - intros j Hj. rewrite Hlk, decide_False by done. destruct (decide (j < length ds)%nat); [by rewrite lookup_app_l|].
    rewrite lookup_app_r, (lookup_ge_None_2 ds) by lia. destruct (j - length ds)%nat eqn:E'; [lia|done].
  - by rewrite Hlk, decide_True.
  - rewrite I2, length_app. cbn [m1 set_freeinode m_freeinode length]. lia.
  - rewrite length_app. simpl. lia.
  - intros k d f Hd Hf. rewrite Hlk in Hd. case_decide as Ek.
    + injection Hd as <-. subst k. rewrite Hlen, lookup_app_r, Nat.sub_diag in Hf by lia. injection Hf as <-. done.
    + rewrite lookup_app_l in Hf; [by apply (Hmeta k)|]. rewrite <- Hlen. by eapply lookup_lt_Some.
  - intros j Hj. rewrite Hd2 by done. replace (1 + Z.of_nat (length ds)) with (Z.of_nat (length ds) + 1) by lia. done.
Qed.

(** ** The files of the command line *)

(** Smaller contents need less room. *)
Definition below (fl fl' : list (Z * list Z)) : Prop :=
  ∀ k f, fl !! k = Some f → ∃ g, fl' !! k = Some g ∧ (length (snd f) <= length (snd g))%nat.

Lemma fcost_nonneg n : 0 <= n → 0 <= fcost (nblk n).
Proof. intros Hn. assert (0 <= nblk n) by (apply Z.div_pos; [rewrite BSIZE_eq; lia|done]). unfold fcost. case_match; lia. Qed.

Lemma room_nonneg fl : 0 <= room fl.
Proof. induction fl as [|f fl IH]; [done|]. cbn [room foldr]. fold (room fl). pose proof (fcost_nonneg (Z.of_nat (length (snd f))) ltac:(lia)). lia. Qed.

Lemma room_below fl fl' : below fl fl' → room fl <= room fl'.
Proof.
  revert fl'. induction fl as [|f fl IH]; intros fl' Hb; [apply room_nonneg|]. destruct (Hb 0%nat f eq_refl) as (g & Hg & Hlen).
  destruct fl' as [|g' fl']; [done|]. injection Hg as ->. cbn [room foldr]. fold (room fl) (room fl').
  assert (room fl <= room fl') by (apply IH; intros k h Hk; exact (Hb (S k) h Hk)).
  pose proof (fcost_le _ _ (nblk_le (Z.of_nat (length (snd f))) (Z.of_nat (length (snd g))) ltac:(lia))). lia.
Qed.

(** There is room for the files, and none is too long. *)
Record fits (fl : list (Z * list Z)) : Prop := {
  ft_room : nmeta + room fl <= FSSIZE;
  ft_size : Forall (λ f, Z.of_nat (length (snd f)) <= MAXFILE * BSIZE) fl
}.

Lemma iappend_fits m V ds fl k ty bs p fl' :
  image m V ds fl → fl !! k = Some (ty, bs) → Forall byte p → fits fl' → below (<[k := (ty, bs ++ p)]> fl) fl' →
  wp (iappend (Z.of_nat k + 1) p) m (λ _ m', ∃ V' ds', image m' V' ds' (<[k := (ty, bs ++ p)]> fl) ∧ length ds' = length ds).
Proof.
  intros Him Hf Hp [Hroom Hsz] Hb. apply (iappend_ok m V); try done.
  - destruct (Hb k (ty, bs ++ p)) as (g & Hg & Hlen); [apply list_lookup_insert_eq; by eapply lookup_lt_Some|].
    pose proof (proj1 (list.Forall_forall _ _) Hsz g (list_elem_of_lookup_2 _ _ _ Hg)) as Hg'. cbn [snd] in *. lia.
  - pose proof (room_below _ _ Hb) as Hr. rewrite (room_insert _ _ _ _ Hf) in Hr. cbn [snd] in Hr.
    pose proof (fi_free _ _ _ _ (ia_files _ _ _ _ Him)). lia.
Qed.

Lemma below_insert fl fl' k f f' : (length (snd f) <= length (snd f'))%nat → below (<[k := f']> fl) fl' → below (<[k := f]> fl) fl'.
Proof.
  intros Hle Hb j g Hj. destruct (decide (j = k)) as [->|Hne].
  - assert (k < length fl)%nat by (apply lookup_lt_Some in Hj; by rewrite length_insert in Hj).
    rewrite list_lookup_insert_eq in Hj by done. injection Hj as <-.
    destruct (Hb k f') as (h & Hh & Hlen); [by apply list_lookup_insert_eq|]. exists h. split; [done|lia].
  - rewrite list_lookup_insert_ne in Hj by done. apply (Hb j). by rewrite list_lookup_insert_ne.
Qed.

Lemma pieces_ok ps : ∀ m V ds fl k ty bs fl',
  image m V ds fl → fl !! k = Some (ty, bs) → Forall (Forall byte) ps → fits fl' → below (<[k := (ty, bs ++ concat ps)]> fl) fl' →
  wp (for_each ps (iappend (Z.of_nat k + 1))) m (λ _ m', ∃ V' ds', image m' V' ds' (<[k := (ty, bs ++ concat ps)]> fl) ∧ length ds' = length ds).
Proof.
  induction ps as [|p ps IH]; intros m V ds fl k ty bs fl' Him Hf Hp Hfit Hb.
  - cbn [concat for_each] in *. rewrite app_nil_r in *. apply wp_ret. exists V, ds. rewrite list_insert_id by done. done.
  - cbn [concat for_each] in *. apply list.Forall_cons in Hp as [Hp Hps]. apply wp_bind.
    eapply wp_mono; [apply (iappend_fits m V ds fl k ty bs p fl'); try done|].
    + eapply below_insert; [|exact Hb]. cbn [snd]. rewrite !length_app. lia.
    + intros _ m1 (V1 & ds1 & Him1 & Hl1). pose proof (lookup_lt_Some _ _ _ Hf) as Hk. rewrite app_assoc in *.
      eapply wp_mono; [apply (IH m1 V1 ds1 (<[k:=(ty, bs ++ p)]> fl) k ty (bs ++ p) fl'); try done|].
      * by apply list_lookup_insert_eq.
      * by rewrite list_insert_insert_eq.
      * rewrite list_insert_insert_eq. intros _ m2 (V2 & ds2 & Him2 & Hl2). exists V2, ds2. split; [done|congruence].
Qed.

(** A file of the command line is taken under name [fst c] with contents [snd c]. *)
Definition accepted (f : list Z * option (list (list Z))) (c : list Z * list Z) : Prop :=
  short_name (fst f) = Some (fst c) ∧ Forall byte (fst c) ∧ ∃ ps, snd f = Some ps ∧ Forall (Forall byte) ps ∧ concat ps = snd c.

(** The bytes of the root directory, and all files. *)
Definition file_entries (i : nat) (cs : list (list Z * list Z)) : list Z :=
  concat (imap (λ k c, dirent (Z.of_nat (k + i)) (strncpy (Z.to_nat DIRSIZ) (fst c))) cs).
Definition root_bytes (cs : list (list Z * list Z)) : list Z :=
  dirent ROOTINO (dot_name [46]) ++ dirent ROOTINO (dot_name [46; 46]) ++ file_entries 2 cs.
Definition all_files (cs : list (list Z * list Z)) : list (Z * list Z) :=
  (T_DIR, root_bytes cs) :: ((λ c, (T_FILE, snd c)) <$> cs).

Lemma dirent_length i name : length (dirent i name) = (2 + length name)%nat.
Proof. unfold dirent. by rewrite length_app, length_read_bytes. Qed.

Lemma dirent_bytes i name : Forall byte name → Forall byte (dirent i name).
Proof. intros Hn. unfold dirent. apply Forall_app. split; [apply read_bytes_bytes|done]. Qed.

Lemma root_bytes_snoc cs c :
  root_bytes (cs ++ [c]) = root_bytes cs ++ dirent (Z.of_nat (length cs) + 2) (strncpy (Z.to_nat DIRSIZ) (fst c)).
Proof.
  unfold root_bytes, file_entries. rewrite imap_app. cbn [imap]. rewrite concat_app. cbn [concat]. rewrite app_nil_r, <- !app_assoc.
  do 4 f_equal. cbn. lia.
Qed.

Lemma all_files_snoc cs c : all_files (cs ++ [c]) = <[0%nat := (T_DIR, root_bytes (cs ++ [c]))]> (all_files cs) ++ [(T_FILE, snd c)].
Proof. unfold all_files. by rewrite fmap_app. Qed.

Lemma below_all cs cs2 : below (all_files cs) (all_files (cs ++ cs2)).
Proof.
  unfold all_files. intros [|k] f Hk.
  - injection Hk as <-. eexists. split; [done|]. cbn [snd]. unfold root_bytes, file_entries. rewrite imap_app, concat_app, !length_app. lia.
  - simpl in Hk. exists f. split; [|done]. simpl. rewrite fmap_app, lookup_app_l; [done|]. by eapply lookup_lt_Some.
Qed.

Lemma below_app fl x y fl' : (length (snd x) <= length (snd y))%nat → below (fl ++ [y]) fl' → below (fl ++ [x]) fl'.
Proof.
  intros Hle Hb k f Hk. destruct (decide (k < length fl)%nat) as [Hlt|Hge].
  - rewrite lookup_app_l in Hk by done. apply (Hb k). by rewrite lookup_app_l.
  - rewrite lookup_app_r in Hk by lia. destruct (k - length fl)%nat eqn:E; [|done]. injection Hk as <-.
    destruct (Hb k y) as (g & Hg & Hlen); [rewrite lookup_app_r by lia; by rewrite E|]. exists g. split; [done|lia].
Qed.

(** One file. *)
Lemma add_file_ok m V ds cs c cs2 f :
  image m V ds (all_files cs) → accepted f c → fits (all_files ((cs ++ [c]) ++ cs2)) → Z.of_nat (length cs) + 2 < NINODES →
  wp (add_file ROOTINO f) m (λ _ m', ∃ V' ds', image m' V' ds' (all_files (cs ++ [c]))).
Proof.
  intros Him (Hnm & Hbn & ps & Hps & Hby & Hcat) Hfit Hcnt. destruct f as [argv contents]. cbn [fst snd] in *. subst contents.
  unfold add_file. rewrite Hnm.
  assert (Hlen : length ds = S (length cs)).
  { rewrite (fi_len _ _ _ _ (ia_files _ _ _ _ Him)). unfold all_files. simpl. by rewrite length_fmap. }
  pose proof (below_all (cs ++ [c]) cs2) as Hbelow. rewrite all_files_snoc in Hbelow.
  apply wp_bind. eapply wp_mono; [apply (ialloc_ok m V ds (all_files cs) T_FILE Him); [lia|done]|].
  intros inum m1 (-> & V1 & Him1 & F1). set (k := length ds) in *.
  assert (Hroot : (all_files cs ++ [(T_FILE, [])]) !! 0%nat = Some (T_DIR, root_bytes cs)) by done.
  set (e := dirent (Z.of_nat k + 1) (strncpy (Z.to_nat DIRSIZ) (fst c))).
  assert (He : Forall byte e) by (by apply dirent_bytes, strncpy_bytes).
  assert (Ee : root_bytes cs ++ e = root_bytes (cs ++ [c])).
  { rewrite root_bytes_snoc. unfold e. do 2 f_equal. lia. }
  apply wp_bind. change (iappend ROOTINO e) with (iappend (Z.of_nat 0 + 1) e).
  eapply wp_mono; [apply (iappend_fits m1 V1 _ _ 0 T_DIR (root_bytes cs) e _ Him1 Hroot He Hfit); rewrite Ee|].
  { rewrite insert_app_l by (simpl; lia). by apply (below_app _ (T_FILE, []) (T_FILE, snd c)); [simpl; lia|]. }
  rewrite Ee. intros _ m2 (V2 & ds2 & Him2 & Hl2).
  set (fl2 := <[0%nat:=(T_DIR, root_bytes (cs ++ [c]))]> (all_files cs ++ [(T_FILE, [])])) in *.
  assert (Hk : fl2 !! k = Some (T_FILE, [])).
  { unfold fl2. rewrite list_lookup_insert_ne by lia. rewrite Hlen. simpl. rewrite lookup_app_r; rewrite length_fmap; [|done]. by rewrite Nat.sub_diag. }
  assert (Ef : ∀ x, <[k := (T_FILE, x)]> fl2 = <[0%nat:=(T_DIR, root_bytes (cs ++ [c]))]> (all_files cs) ++ [(T_FILE, x)]).
  { intros x. unfold fl2. rewrite Hlen. unfold all_files. simpl. f_equal. rewrite insert_app_r_alt; rewrite length_fmap; [|done]. by rewrite Nat.sub_diag. }
  eapply wp_mono; [apply (pieces_ok ps m2 V2 ds2 fl2 k T_FILE [] _ Him2 Hk Hby Hfit)|].
  - rewrite app_nil_l, Hcat, Ef. exact Hbelow.
  - rewrite app_nil_l, Hcat, Ef, <- all_files_snoc. intros _ m3 (V3 & ds3 & Him3 & _). by exists V3, ds3.
Qed.

Lemma add_files_ok fs : ∀ m V ds cs cs2,
  image m V ds (all_files cs) → Forall2 accepted fs cs2 → fits (all_files (cs ++ cs2)) → Z.of_nat (length (cs ++ cs2)) + 1 < NINODES →
  wp (for_each fs (add_file ROOTINO)) m (λ _ m', ∃ V' ds', image m' V' ds' (all_files (cs ++ cs2))).
Proof.
  induction fs as [|f fs IH]; intros m V ds cs cs2 Him Hacc Hfit Hcnt; inversion Hacc as [|? c ? cs3 Hf Hfs]; subst; cbn [for_each].
  - rewrite app_nil_r in *. apply wp_ret. by exists V, ds.
  - assert (E : cs ++ c :: cs3 = (cs ++ [c]) ++ cs3) by (by rewrite <- app_assoc). rewrite E in *.
    apply wp_bind. eapply wp_mono; [apply (add_file_ok m V ds cs c cs3 f); try done|].
    + rewrite !length_app in Hcnt. simpl in Hcnt. lia.
    + intros _ m1 (V1 & ds1 & Him1). by apply (IH m1 V1 ds1).
Qed.

(** ** The whole program *)

Lemma le_load_empty n a : le_load n ∅ a = 0.
Proof. revert a. induction n as [|n IH]; intros a; [done|]. cbn [le_load]. rewrite IH. done. Qed.

Lemma get_dinode_empty o : get_dinode ∅ o = dinode0.
Proof.
  unfold get_dinode. rewrite !le_load_empty. unfold dinode0. by f_equal.
Qed.

(** All sectors are written as zeros. *)
Lemma zero_sectors m (Q : unit → mst → Prop) :
  m_img m = ∅ → m_len m = 0 →
  (∀ m', (∀ b, view m' b = ∅) → m_len m' = FSSIZE → m_sb m' = m_sb m → m_freeinode m' = m_freeinode m → m_freeblock m' = m_freeblock m → Q tt m') →
  wp (for_each (seqZ 0 FSSIZE) (λ i, wsect i ∅)) m Q.
Proof.
  intros Hi Hl HQ.
  apply (wp_for_each _ (λ l m1, ∃ a, 0 <= a <= FSSIZE ∧ l = seqZ a (FSSIZE - a) ∧ (∀ b, view m1 b = ∅) ∧ m_len m1 = a ∧
    m_sb m1 = m_sb m ∧ m_freeinode m1 = m_freeinode m ∧ m_freeblock m1 = m_freeblock m)).
  - intros x l m1 (a & Ha & Hxl & Hv & Hlen & E1 & E2 & E3). destruct (decide (a = FSSIZE)) as [->|Hne]; [rewrite Z.sub_diag in Hxl; done|].
    rewrite seqZ_cons in Hxl by lia. injection Hxl as -> ->. apply wp_modify. exists (a + 1). rewrite sector_id by (consts; lia).
    split_and!; try done; try lia.
    + unfold Z.succ. f_equal. lia.
    + intros b. unfold view, set_img. cbn [m_img]. destruct (decide (b = a)) as [->|Hb]; [by rewrite lookup_insert_eq|].
      rewrite lookup_insert_ne by done. apply Hv.
    + cbn [set_img m_len]. lia.
  - intros m1 (a & Ha & Hnil & Hv & Hlen & E1 & E2 & E3). apply HQ; try done. apply (f_equal length) in Hnil. rewrite length_seqZ in Hnil. simpl in Hnil. lia.
  - exists 0. rewrite Z.sub_0_r. split_and!; try done. intros b. unfold view. by rewrite Hi.
Qed.

(** After the superblock is written there are no files yet. *)
Lemma empty_image m :
  (∀ b, view m b = if decide (b = 1) then put_sb mkfs_sb else ∅) → m_len m = FSSIZE → m_sb m = mkfs_sb → m_freeinode m = 1 →
  m_freeblock m = nmeta → image m (fset (view m) (sb_bmapstart mkfs_sb) (bitmap nmeta)) [] [].
Proof.
  intros Hv Hl Hs Hi Hf. set (V := fset _ _ _).
  assert (HV : ∀ b, b ≠ sb_bmapstart mkfs_sb → V b = if decide (b = 1) then put_sb mkfs_sb else ∅) by (intros b Hb; unfold V; by rewrite fset_ne).
  split; try done.
  - split; try done. split; try done.
    + rewrite Hf. split; vm_compute; done.
    + intros b Hb. unfold V. by rewrite fset_ne.
    + intros b Hb. rewrite used_bit by done. unfold V. rewrite fset_eq, Hf. apply bitmap_bit; [done|lia].
    + intros b o Hb. rewrite Hf in Hb. consts. rewrite HV by (consts; lia). rewrite decide_False by lia. done.
  - intros j Hj. unfold dinode_on. pose proof (iblock_range j Hj) as Hr. change (sb_inodestart mkfs_sb) with 32 in Hr. consts.
    rewrite HV by (consts; lia). rewrite decide_False by lia. rewrite get_dinode_empty. by destruct (j =? 0).
  - intros b Hb. apply HV. change (sb_inodestart mkfs_sb) with 32 in Hb. consts. lia.
Qed.

(** The size the root directory gets at the end. *)
Definition root_size (cs : list (list Z * list Z)) : Z := (Z.of_nat (length (root_bytes cs)) / BSIZE + 1) * BSIZE.

(** The image at the end; [ds] are the inodes from 1 on. *)
Record finished m (ds : list dinode) (cs : list (list Z * list Z)) : Prop := {
  fn_files : files m (view m) ds (all_files cs);
  fn_inodes : inodes_are (view m) ds;
  fn_boot : boot_ok (view m);
  fn_meta : ∀ k d f, ds !! k = Some d → all_files cs !! k = Some f →
    meta d (fst f) (if decide (k = 0)%nat then root_size cs else Z.of_nat (length (snd f)))
}.

(** [balloc] writes the bitmap that was assumed. *)
Lemma mark_ok m V ds fl :
  files m V ds fl → wp (Mkfs.balloc (m_freeblock m)) m (λ _ m', files m' (view m') ds fl ∧
    (∀ b, b ≠ sb_bmapstart mkfs_sb → view m' b = V b)).
Proof.
  intros Hfi. pose proof (fi_shows _ _ _ _ Hfi) as [Hsb Hlen Hfr Hview Hus Hz]. unfold Mkfs.balloc.
  rewrite (proj2 (Z.ltb_lt _ _)) by (rewrite BSIZE_eq; consts; lia). apply wp_bind, wp_gets. rewrite Hsb. apply wp_modify.
  rewrite sector_id by (consts; lia). set (m' := set_img _ _ m).
  assert (Hv : ∀ b, b ≠ sb_bmapstart mkfs_sb → view m' b = V b).
  { intros b Hb. rewrite <- Hview by done. unfold view, m', set_img. cbn [m_img]. by rewrite lookup_insert_ne. }
  split; [|done]. apply (files_frame m V); try done; [|intros b Hb; apply Hv; consts; lia]. split; try done; cbn [m' set_img m_len m_freeblock].
  - consts. lia.
  - intros b Hb. rewrite used_bit by done. unfold view at 1. cbn [m' set_img m_img]. rewrite lookup_insert_eq. cbn [default].
    apply bitmap_bit; consts; lia.
  - intros b o Hb. rewrite Hv by (consts; lia). auto.
Qed.

Lemma root_length cs : length (root_bytes cs) = (16 * (length cs + 2))%nat.
Proof.
  unfold root_bytes, file_entries. rewrite !length_app, !dirent_length. change (length (dot_name [46])) with 14%nat.
  change (length (dot_name [46; 46])) with 14%nat. cut (∀ i, length (concat (imap (λ k c, dirent (Z.of_nat (k + i)) (strncpy (Z.to_nat DIRSIZ) (fst c))) cs)) = (16 * length cs)%nat).
  { intros ->. lia. }
  induction cs as [|c cs IH]; intros i; [done|]. cbn [imap concat length]. rewrite length_app, dirent_length, strncpy_length.
  change (Z.to_nat DIRSIZ) with 14%nat. rewrite (imap_ext _ (λ k c, dirent (Z.of_nat (k + S i)) (strncpy 14 (fst c)))).
  - rewrite IH. lia.
  - intros k x _. simpl. do 2 f_equal. lia.
Qed.

(** The root's size is rounded up, then the bitmap is written. *)
Lemma finish_ok m V ds cs :
  image m V ds (all_files cs) →
  wp (din ← rinode ROOTINO;
      let off := xint (d_size din) in
      let off := w32 ((off / BSIZE + 1) * BSIZE) in
      winode ROOTINO (set_size (xint off) din);;
      fb ← gets m_freeblock;
      Mkfs.balloc (i32 fb)) m (λ _ m', ∃ ds', finished m' ds' cs).
Proof.
  intros Him. pose proof Him as [Hfi Hnext Hcnt Hmeta Hino Hboot].
  destruct ds as [|d ds]; [by apply fi_len in Hfi|]. destruct (image_inode _ _ _ _ 0 d Him eq_refl) as [Ed _]. change (Z.of_nat 0 + 1) with 1 in Ed.
  apply wp_bind. eapply (rinode_ok m V); [apply Hfi|done|]. change ROOTINO with 1. rewrite Ed.
  destruct (Hmeta 0%nat d _ eq_refl eq_refl) as (T1 & T2 & T3 & T4 & T5). cbn [snd fst] in T1, T5. rewrite T5.
  assert (Hlen : Z.of_nat (length (root_bytes cs)) < 2 ^ 16).
  { rewrite root_length. apply fi_len in Hfi. unfold all_files in Hfi. simpl in Hfi, Hcnt. rewrite length_fmap in Hfi. change NINODES with 200 in Hcnt. lia. }
  cbv zeta. rewrite (xint_id (Z.of_nat _)) by lia. fold (root_size cs).
  assert (HR : 0 <= root_size cs < 2 ^ 20) by (unfold root_size; rewrite BSIZE_eq; Z.to_euclidean_division_equations; lia).
  rewrite w32_small, xint_id by lia.
  pose proof (files_size m V _ _ 0 d _ (root_size cs) Hfi eq_refl eq_refl ltac:(lia)) as Hfi1. cbn [insert list_insert] in Hfi1.
  apply wp_bind. eapply wp_mono; [apply (winode_ok m V 1); [apply Hfi|done|apply (ho_ok _ _ _ (fi_holds _ _ _ _ Hfi1 0 _ _ eq_refl eq_refl))]|].
  intros _ m1 (V1 & Hsh1 & I1 & F1 & Hd1 & HV1).
  assert (Hfi2 : files m1 V1 (set_size (root_size cs) d :: ds) (all_files cs)).
  { apply (files_frame m V); try done. intros b Hb. apply HV1. consts. lia. }
  apply wp_bind, wp_gets. rewrite i32_id by (pose proof (sh_free _ _ Hsh1); consts; lia).
  eapply wp_mono; [apply (mark_ok m1 V1 _ _ Hfi2)|]. intros _ m2 [Hfi3 HV2]. eexists. split; [exact Hfi3| | |].
  - apply (inodes_low V1); [intros b Hb; apply HV2; consts; lia|]. intros j Hj. rewrite Hd1 by done. case_decide as E; [by subst j|].
    rewrite Hino by done. destruct (Z.eqb_spec j 0); [done|]. destruct (Z.to_nat (j - 1)) eqn:E'; [lia|done].
  - intros b Hb. change (sb_inodestart mkfs_sb) with 32 in *. rewrite HV2, HV1 by (consts; lia). auto.
  - intros [|k] e f Hk Hf; [injection Hk as <-; injection Hf as <-; by split_and!|]. rewrite decide_False by done. by apply (Hmeta (S k)).
Qed.

Lemma main_ok fs cs :
  Forall2 accepted fs cs → fits (all_files cs) → Z.of_nat (length cs) + 1 < NINODES →
  wp (main fs) mst0 (λ _ m, ∃ ds, finished m ds cs).
Proof.
  intros Hacc Hfit Hcnt. unfold main. do 3 (apply wp_bind, wp_modify).
  apply wp_bind, zero_sectors; [done|done|]. intros m Hv Hlen Hsb Hi Hfb. apply wp_bind, wp_gets, wp_bind, wp_modify. rewrite Hsb.
  change (sector 1) with 1. set (m1 := set_img _ _ m).
  assert (Him : image m1 (fset (view m1) (sb_bmapstart mkfs_sb) (bitmap nmeta)) [] []).
  { apply empty_image; try done.
    - intros b. unfold view, m1, set_img. cbn [m_img]. case_decide as E; [subst b; by rewrite lookup_insert_eq|]. rewrite lookup_insert_ne by done. apply Hv.
    - cbn [m1 set_img m_len]. rewrite Hlen. done. }
  set (V1 := fset _ _ _) in Him. apply wp_bind. eapply wp_mono; [by apply (ialloc_ok m1 V1 [] [] T_DIR Him)|].
  intros root m2 (-> & V2 & Him2 & F2). change (Z.of_nat (length []) + 1) with ROOTINO. rewrite Z.eqb_refl. apply wp_bind, wp_ret.
  pose proof (below_all [] cs) as Hbelow. cbn [app] in Him2, Hbelow.
  set (e1 := dirent ROOTINO (dot_name [46])). set (e2 := dirent ROOTINO (dot_name [46; 46])).
  assert (He : Forall byte e1 ∧ Forall byte e2).
  { split; apply dirent_bytes; repeat constructor; unfold byte; lia. }
  assert (E : [] ++ e1 ++ e2 = root_bytes []) by (unfold root_bytes, e1, e2; cbn; by rewrite ?app_nil_r).
  assert (Hb2 : below [(T_DIR, e1 ++ e2)] (all_files cs)) by (by rewrite app_nil_l in E; rewrite E).
  apply wp_bind. eapply wp_mono; [apply (iappend_fits m2 V2 _ _ 0 T_DIR [] e1 (all_files cs) Him2 eq_refl (proj1 He) Hfit)|].
  { apply (below_insert [(T_DIR, [])] _ 0 (T_DIR, [] ++ e1) (T_DIR, e1 ++ e2)); [cbn [snd app]; rewrite length_app; lia|exact Hb2]. }
  intros _ m3 (V3 & ds3 & Him3 & _). cbn [insert list_insert app] in Him3.
  apply wp_bind. eapply wp_mono; [apply (iappend_fits m3 V3 _ _ 0 T_DIR e1 e2 (all_files cs) Him3 eq_refl (proj2 He) Hfit); exact Hb2|].
  intros _ m4 (V4 & ds4 & Him4 & _). cbn [insert list_insert] in Him4. change (e1 ++ e2) with ([] ++ e1 ++ e2) in Him4. rewrite E in Him4.
  apply wp_bind. eapply wp_mono; [apply (add_files_ok fs m4 V4 ds4 [] cs Him4 Hacc); done|].
  intros _ m5 (V5 & ds5 & Him5). by apply (finish_ok m5 V5 ds5).
Qed.
