(* ===== verification/MkfsUse.v ===== *)
(** The disk that mkfs makes, as the kernel finds it when it boots. *)

From S2P Require Import Prelude Riscv Memory Str Cache Bio BioList BioSpec Log LogSpec LogCrash BioUse Txn Fs FsSpec FsBlocks FsInode FsFile FsCopy FsIo FsUse Dir DirSpec Mkfs MkfsSpec.

Implicit Types (m : mst) (V : Z → block) (d : dinode).

(** ** What mkfs promises *)

(** Names of the root directory and their inodes. *)
Definition entries (cs : list (list Z * list Z)) : list (list Z * Z) :=
  ([46], ROOTINO) :: ([46; 46], ROOTINO) :: imap (λ k c, (fst c, Z.of_nat k + 2)) cs.
Definition lookup_entry (es : list (list Z * Z)) (name : list Z) : option Z :=
  snd <$> List.find (λ e, bool_decide (dname name = dname (fst e))) es.

(** The disk [V] holds the root directory and the files [cs], from inode 2 on. *)
Record built V (cs : list (list Z * list Z)) : Prop := {
  bt_used : ∀ b, 0 <= b < FSSIZE → used mkfs_sb V b = (b <? nmeta + room (all_files cs));
  bt_root : let d := dinode_on mkfs_sb V ROOTINO in
    meta d T_DIR (root_size cs) ∧ file_ok mkfs_sb V d ∧ ∀ name, dir_lookup d V name = lookup_entry (entries cs) name;
  bt_dense : dense (dinode_on mkfs_sb V ROOTINO) V ↔ Z.of_nat (length cs + 2) mod 64 ≠ 0;
  bt_file : ∀ k c, cs !! k = Some c → let d := dinode_on mkfs_sb V (Z.of_nat k + 2) in
    meta d T_FILE (Z.of_nat (length (snd c))) ∧ file_ok mkfs_sb V d ∧ dense d V ∧
    fbyte d V <$> seqZ 0 (Z.of_nat (length (snd c))) = snd c;
  bt_free : ∀ j, Z.of_nat (length cs) + 2 <= j < NINODES → dinode_on mkfs_sb V j = dinode0;
  bt_disj : ∀ i j b, 1 <= i < NINODES → 1 <= j < NINODES → i ≠ j →
    owns (dinode_on mkfs_sb V i) V b → ¬ owns (dinode_on mkfs_sb V j) V b
}.

(** ** The entries of the root directory *)

(** The entries as they are stored. *)
Definition stored (cs : list (list Z * list Z)) : list (Z * list Z) :=
  (ROOTINO, dot_name [46]) :: (ROOTINO, dot_name [46; 46]) :: imap (λ k c, (Z.of_nat k + 2, strncpy (Z.to_nat DIRSIZ) (fst c))) cs.

Lemma root_stored cs : root_bytes cs = concat ((λ e, dirent (fst e) (snd e)) <$> stored cs).
Proof.
  unfold root_bytes, stored, file_entries. cbn [fmap list_fmap concat fst snd]. do 3 f_equal. rewrite fmap_imap. apply imap_ext.
  intros k c _. cbn. f_equal. lia.
Qed.

Lemma lookup_concat {A} (n : nat) (L : list (list A)) k j :
  Forall (λ l, length l = n) L → (j < n)%nat → concat L !! (n * k + j)%nat = l ← L !! k; l !! j.
Proof.
  intros HL Hj. revert k. induction HL as [|l L Hl HL IH]; intros k; [done|]. cbn [concat]. destruct k as [|k].
  - rewrite Nat.mul_0_r, Nat.add_0_l, lookup_app_l by lia. done.
  - rewrite lookup_app_r by lia. replace (n * S k + j - length l)%nat with (n * k + j)%nat by lia. apply IH.
Qed.

Lemma stored_wf cs k e : Z.of_nat (length cs) + 1 < NINODES → stored cs !! k = Some e → 0 < fst e < 2 ^ 16 ∧ length (snd e) = 14%nat.
Proof.
  change NINODES with 200. intros Hc. unfold stored. destruct k as [|[|k]]; [intros [= <-]; done..|]. intros He.
  assert (He' : imap (λ k c, (Z.of_nat k + 2, strncpy (Z.to_nat DIRSIZ) (fst c))) cs !! k = Some e) by exact He.
  rewrite list_lookup_imap in He'. destruct (cs !! k) as [c|] eqn:E; [|done]. 
  change (Some (Z.of_nat k + 2, strncpy (Z.to_nat DIRSIZ) (fst c)) = Some e) in He'. apply (inj Some) in He'. subst e. cbn [fst snd]. apply lookup_lt_Some in E.
  rewrite strncpy_length. split; [lia|done].
Qed.

Lemma dirent_lookup i name : 0 <= i < 2 ^ 16 → dirent i name = [i mod 256; i / 256] ++ name.
Proof.
  intros Hi. unfold dirent. f_equal. rewrite xshort_id by done. cbn [read_bytes le_store]. rewrite !mget_mput. cbn. unfold w8.
  repeat (case_decide; [|try lia]); try lia. f_equal. f_equal. Z.to_euclidean_division_equations. lia.
Qed.

Lemma stored_length cs : length (stored cs) = S (S (length cs)).
Proof. unfold stored. cbn [length]. by rewrite length_imap. Qed.

Lemma dname_strncpy nm : dname (strncpy (Z.to_nat DIRSIZ) nm) = dname nm.
Proof. unfold dname. by rewrite strncpy_cstr, take_take, Nat.min_id. Qed.

Lemma stored_entry cs k e : entries cs !! k = Some e → ∃ nm, stored cs !! k = Some (snd e, nm) ∧ dname nm = dname (fst e).
Proof.
  destruct k as [|[|k]]; [intros [= <-]; by eexists..|]. intros He.
  assert (He' : imap (λ k c, (fst c, Z.of_nat k + 2)) cs !! k = Some e) by exact He. rewrite list_lookup_imap in He'.
  destruct (cs !! k) as [c|] eqn:E; [|done]. change (Some (fst c, Z.of_nat k + 2) = Some e) in He'. apply (inj Some) in He'. subst e. cbn [fst snd].
  exists (strncpy (Z.to_nat DIRSIZ) (fst c)). split; [|apply dname_strncpy].
  assert (Hs : imap (λ k c, (Z.of_nat k + 2, strncpy (Z.to_nat DIRSIZ) (fst c))) cs !! k = Some (Z.of_nat k + 2, strncpy (Z.to_nat DIRSIZ) (fst c))).
  { by rewrite list_lookup_imap, E. }
  exact Hs.
Qed.

(** Searching the indices of a list is searching the list. *)
Lemma find_seqZ_list {A B} (f : Z → bool) (h : Z → B) (g : A → bool) (h' : A → B) (E : list A) n :
  Z.of_nat (length E) <= n → (∀ k e, E !! k = Some e → f (Z.of_nat k) = g e ∧ (g e = true → h (Z.of_nat k) = h' e)) →
  (∀ k, Z.of_nat (length E) <= k < n → f k = false) → h <$> List.find f (seqZ 0 n) = h' <$> List.find g E.
Proof.
  intros Hn Hf Hno. destruct (List.find g E) as [e|] eqn:Eg.
  - cut (∃ k, E !! k = Some e ∧ g e = true ∧ ∀ j x, (j < k)%nat → E !! j = Some x → g x = false).
    + intros (k & Hk & Hg & Hlt). destruct (Hf k e Hk) as [Hfk Hh]. pose proof (lookup_lt_Some _ _ _ Hk).
      rewrite (proj2 (find_seqZ_Some f n (Z.of_nat k))); [cbn; by rewrite Hh|]. split_and!; [lia|lia|congruence|].
      intros j Hj. destruct (lookup_lt_is_Some_2 E (Z.to_nat j) ltac:(lia)) as [x Hx]. destruct (Hf _ x Hx) as [Hfj _].
      rewrite Z2Nat.id in Hfj by lia. rewrite Hfj. apply (Hlt (Z.to_nat j)); [lia|done].
    + clear -Eg. induction E as [|x E IH]; [done|]. cbn [List.find] in Eg. destruct (g x) eqn:Ex.
      * injection Eg as <-. exists 0%nat. split_and!; [done|done|lia].
      * destruct (IH Eg) as (k & Hk & Hg & Hlt). exists (S k). split_and!; [done|done|]. intros [|j] y Hj; [by intros [= <-]|]. apply Hlt. lia.
  - rewrite (proj2 (find_seqZ_None f n)); [done|]. intros j Hj. destruct (decide (j < Z.of_nat (length E))) as [Hlt|]; [|apply Hno; lia].
    destruct (lookup_lt_is_Some_2 E (Z.to_nat j) ltac:(lia)) as [x Hx]. destruct (Hf _ x Hx) as [Hfj _]. rewrite Z2Nat.id in Hfj by lia.
    rewrite Hfj. apply (List.find_none _ _ Eg). apply list_elem_of_In. by eapply list_elem_of_lookup_2.
Qed.

Section Root.
Context (cs : list (list Z * list Z)) (Hcs : Z.of_nat (length cs) + 1 < NINODES).

(** Byte [j] of entry [k]. *)
Lemma root_lookup (k j : nat) : (j < 16)%nat →
  default 0 (root_bytes cs !! (16 * k + j)%nat) =
  match stored cs !! k with
  | Some (i, name) => default 0 (([i mod 256; i / 256] ++ name) !! j)
  | None => 0
  end.
Proof.
  intros Hj. rewrite root_stored, lookup_concat; [|apply list.Forall_fmap, list.Forall_forall|done].
  - rewrite list_lookup_fmap. destruct (stored cs !! k) as [[i name]|] eqn:E; [|done]. cbn.
    destruct (stored_wf cs k _ Hcs E) as [Hi _]. cbn [fst] in Hi. rewrite dirent_lookup by lia. done.
  - intros e [k' He]%list_elem_of_lookup. destruct (stored_wf cs k' e Hcs He) as [_ Hl]. cbn. by rewrite dirent_length, Hl.
Qed.

Lemma root_dent V d k :
  holds V d (root_bytes cs) → 0 <= k < MAXFILE * BSIZE / 16 →
  dent d V k = default (0, replicate 14 0) (stored cs !! Z.to_nat k).
Proof.
  intros Hh Hk. rewrite MAXFILE_eq, BSIZE_eq in Hk. change (268 * 1024 / 16) with 17152 in Hk.
  assert (Hb : ∀ j, 0 <= j < 16 → fbyte d V (16 * k + j) =
    match stored cs !! Z.to_nat k with Some (i, name) => default 0 (([i mod 256; i / 256] ++ name) !! Z.to_nat j) | None => 0 end).
  { intros j Hj. rewrite (ho_byte _ _ _ Hh) by (rewrite MAXFILE_eq, BSIZE_eq; lia). rewrite <- root_lookup by lia. do 2 f_equal. lia. }
  unfold dent. rewrite <- (Z.add_0_r (16 * k)) at 1. rewrite !Hb by lia.
  destruct (stored cs !! Z.to_nat k) as [[i name]|] eqn:E; cbn [default].
  - destruct (stored_wf cs _ _ Hcs E) as [Hi Hl]. cbn [fst snd] in Hi, Hl. unfold id. f_equal.
    + change (i mod 256 + 256 * (i / 256) = i). pose proof (Z.div_mod i 256 ltac:(lia)). lia.
    + apply list_eq. intros j. rewrite list_lookup_fmap. destruct (decide (j < 14)%nat) as [Hj|Hj].
      * rewrite lookup_seqZ_lt by (unfold DIRSIZ; lia). cbn [fmap option_fmap option_map]. rewrite <- Z.add_assoc, Hb by lia.
        replace (Z.to_nat (2 + Z.of_nat j)) with (S (S j)) by lia.
        change (([i mod 256; i / 256] ++ name) !! S (S j)) with (name !! j). destruct (lookup_lt_is_Some_2 name j ltac:(lia)) as [x Hx]. by rewrite Hx.
      * rewrite lookup_seqZ_ge by (unfold DIRSIZ; lia). rewrite lookup_ge_None_2; [done|lia].
  - f_equal. apply list_eq. intros j. rewrite list_lookup_fmap. destruct (decide (j < 14)%nat) as [Hj|Hj].
    + rewrite lookup_seqZ_lt by (unfold DIRSIZ; lia). cbn [fmap option_fmap option_map]. rewrite <- Z.add_assoc, Hb by lia. by rewrite lookup_replicate_2.
    + rewrite lookup_seqZ_ge by (unfold DIRSIZ; lia). rewrite lookup_ge_None_2; [done|]. rewrite length_replicate. lia.
Qed.

Lemma root_find V d name :
  holds V d (root_bytes cs) → d_size d = root_size cs → dir_lookup d V name = lookup_entry (entries cs) name.
Proof.
  intros Hh Hs. unfold dir_lookup, dir_find, lookup_entry.
  assert (Hn : nents d = (Z.of_nat (16 * (length cs + 2)) / 1024 + 1) * 64).
  { unfold nents. rewrite Hs. unfold root_size. rewrite root_length, BSIZE_eq. change sizeof_dirent with 16.
    replace (_ * 1024) with ((Z.of_nat (16 * (length cs + 2)) / 1024 + 1) * 64 * 16) by lia. by apply Z.div_mul. }
  change NINODES with 200 in Hcs.
  assert (Hle : Z.of_nat (length (entries cs)) <= nents d < MAXFILE * BSIZE / 16).
  { rewrite Hn. unfold entries. cbn [length]. rewrite length_imap, MAXFILE_eq, BSIZE_eq. change (268 * 1024 / 16) with 17152. Z.to_euclidean_division_equations. lia. }
  apply find_seqZ_list; [lia| |].
  - intros k e He. pose proof (lookup_lt_Some _ _ _ He). destruct (stored_entry cs k e He) as (nm & Hst & Hnm). unfold is_entry.
    rewrite root_dent by (done || lia). rewrite Nat2Z.id, Hst. cbn [default fst snd id]. destruct (stored_wf cs k _ Hcs Hst) as [Hi _].
    cbn [fst] in Hi. rewrite (proj2 (Z.eqb_neq _ _)) by lia. by rewrite Hnm.
  - intros k Hk. unfold is_entry. rewrite root_dent by (done || lia). rewrite lookup_ge_None_2; [done|].
    rewrite stored_length. unfold entries in Hk. cbn [length] in Hk. rewrite length_imap in Hk. lia.
Qed.

End Root.

Lemma dir_lookup_ext d V V' name :
  (∀ o, 0 <= o < d_size d → fbyte d V' o = fbyte d V o) → dir_lookup d V' name = dir_lookup d V name.
Proof.
  intros Hb. assert (Hd : ∀ k, 0 <= k < nents d → dent d V' k = dent d V k).
  { intros k Hk. unfold nents in Hk. change sizeof_dirent with 16 in Hk. assert (16 * k + 16 <= d_size d) by (Z.to_euclidean_division_equations; lia).
    unfold dent. rewrite !Hb by lia. f_equal. apply list_fmap_ext. intros i x Hi%lookup_seqZ. apply Hb. unfold DIRSIZ in Hi. lia. }
  unfold dir_lookup, dir_find. rewrite (find_same (is_entry d V' name) (is_entry d V name)).
  - destruct (List.find _ _) as [k|] eqn:E; [|done]. apply find_seqZ_Some in E as (Hk & _). cbn [fmap option_fmap option_map]. by rewrite Hd.
  - intros k Hk%elem_of_seqZ. unfold is_entry. rewrite Hd by lia. done.
Qed.

(** ** From the image to the promise *)

Lemma nblk_div n j : 0 <= n → j < nblk n ↔ j * BSIZE < n.
Proof. intros Hn. unfold nblk. rewrite BSIZE_eq. split; intros; Z.to_euclidean_division_equations; lia. Qed.

Lemma holds_dense V d bs : holds V d bs → d_size d = Z.of_nat (length bs) → dense d V.
Proof.
  intros [Hok Hs [Hb _] _] Hsz. split; [lia|]. intros n Hn Hlt. rewrite BSIZE_eq in *. apply Hb.
  - rewrite MAXFILE_eq in *. lia.
  - apply nblk_div; [lia|]. rewrite BSIZE_eq. lia.
Qed.

Lemma holds_bytes V d bs : holds V d bs → fbyte d V <$> seqZ 0 (Z.of_nat (length bs)) = bs.
Proof.
  intros [Hok Hs _ Hby]. apply list_eq. intros j. rewrite list_lookup_fmap. destruct (decide (j < length bs)%nat) as [Hj|Hj].
  - rewrite lookup_seqZ_lt by lia. cbn [fmap option_fmap option_map]. rewrite Hby by lia.
    destruct (lookup_lt_is_Some_2 bs j Hj) as [x Hx]. replace (Z.to_nat (0 + Z.of_nat j)) with j by lia. by rewrite Hx.
  - rewrite lookup_seqZ_ge by lia. rewrite lookup_ge_None_2 by lia. done.
Qed.

Lemma root_dense cs V d :
  Z.of_nat (length cs) + 1 < NINODES → holds V d (root_bytes cs) → d_size d = root_size cs → dense d V ↔ Z.of_nat (length cs + 2) mod 64 ≠ 0.
Proof.
  change NINODES with 200. intros Hc [Hok Hs [Hb _] _] Hsz. rewrite root_length in *. unfold dense. rewrite Hsz. unfold root_size. rewrite root_length.
  set (n := Z.of_nat (16 * (length cs + 2))) in *. rewrite MAXFILE_eq, BSIZE_eq in *.
  assert (Hn : 0 <= n < 2 ^ 14) by (unfold n; lia).
  transitivity (n mod 1024 ≠ 0); [|unfold n; Z.to_euclidean_division_equations; lia]. split.
  - intros [_ Hd]. specialize (Hd (n / 1024)). rewrite Hb in Hd by (Z.to_euclidean_division_equations; lia).
    rewrite nblk_div in Hd by lia. rewrite BSIZE_eq in Hd. Z.to_euclidean_division_equations. lia.
  - intros Hm. split; [Z.to_euclidean_division_equations; lia|]. intros j Hj Hlt. apply Hb; [Z.to_euclidean_division_equations; lia|].
    apply nblk_div; [lia|]. rewrite BSIZE_eq. Z.to_euclidean_division_equations. lia.
Qed.

Lemma finished_built m ds cs : finished m ds cs → Z.of_nat (length cs) + 1 < NINODES → built (view m) cs.
Proof.
  intros [Hfi Hino Hboot Hmeta] Hc. pose proof Hfi as [Hsh Hlen Hfree Hh Hdisj].
  assert (Hl : length ds = S (length cs)) by (rewrite Hlen; unfold all_files; simpl; by rewrite length_fmap).
  assert (Hon : ∀ k, (k < length ds)%nat → ds !! k = Some (dinode_on mkfs_sb (view m) (Z.of_nat k + 1))).
  { intros k Hk. rewrite Hino by lia. rewrite (proj2 (Z.eqb_neq _ _)) by lia. replace (Z.to_nat (Z.of_nat k + 1 - 1)) with k by lia.
    destruct (lookup_lt_is_Some_2 ds k Hk) as [d Hd]. by rewrite Hd. }
  assert (Hfree' : ∀ j, Z.of_nat (length cs) + 2 <= j < NINODES → dinode_on mkfs_sb (view m) j = dinode0).
  { intros j Hj. rewrite Hino by lia. rewrite (proj2 (Z.eqb_neq _ _)) by lia. by rewrite lookup_ge_None_2 by lia. }
  pose proof (Hon 0%nat ltac:(lia)) as Hr. change (Z.of_nat 0 + 1) with ROOTINO in Hr.
  pose proof (Hh 0%nat _ _ Hr eq_refl) as Hhr. pose proof (Hmeta 0%nat _ _ Hr eq_refl) as Hmr. cbn [fst snd] in Hhr, Hmr.
  rewrite decide_True in Hmr by done. assert (Hsz : d_size (dinode_on mkfs_sb (view m) ROOTINO) = root_size cs) by apply Hmr.
  split.
  - intros b Hb. rewrite (sh_used _ _ Hsh) by done. by rewrite Hfree.
  - split_and!; [done|apply Hhr|]. intros name. by apply root_find.
  - by apply root_dense.
  - intros k c Hk. pose proof (lookup_lt_Some _ _ _ Hk). pose proof (Hon (S k) ltac:(lia)) as Hd.
    replace (Z.of_nat (S k) + 1) with (Z.of_nat k + 2) in Hd by lia. cbv zeta.
    assert (Hf : all_files cs !! S k = Some (T_FILE, snd c)) by (simpl; by rewrite list_lookup_fmap, Hk).
    pose proof (Hh _ _ _ Hd Hf) as Hhf. pose proof (Hmeta _ _ _ Hd Hf) as Hmf. cbn [fst snd] in Hhf, Hmf. rewrite decide_False in Hmf by done.
    split_and!; [done|apply Hhf|eapply holds_dense; [done|apply Hmf]|by apply holds_bytes].
  - done.
  - assert (Hno : ∀ b, ¬ owns dinode0 (view m) b).
    { intros b Ho. assert (owns (new_dinode 0) (view m) b) as [H0 [Hb|(n & _ & Hb)]] by exact Ho; [by rewrite new_addr in Hb|by rewrite new_fblock in Hb]. }
    intros i j b Hi Hj Hne. destruct (decide (i < Z.of_nat (length cs) + 2)) as [Hi'|]; [|rewrite (Hfree' i) by lia; intros Ho; by apply Hno in Ho].
    destruct (decide (j < Z.of_nat (length cs) + 2)) as [Hj'|]; [|rewrite (Hfree' j) by lia; intros _; apply Hno].
    apply (Hdisj (Z.to_nat (i - 1)) (Z.to_nat (j - 1))); [| |lia].
    + rewrite Hon by lia. do 2 f_equal. lia.
    + rewrite Hon by lia. do 2 f_equal. lia.
Qed.

(** Only the blocks from the inodes on matter. *)
Lemma built_frame V V' cs :
  (∀ b, sb_inodestart mkfs_sb <= b → V' b = V b) → Z.of_nat (length cs) + 1 < NINODES → built V cs → built V' cs.
Proof.
  change (sb_inodestart mkfs_sb) with 32. intros HV Hc [Hus Hroot Hden Hfile Hfree Hdisj].
  assert (Hon : ∀ j, 0 <= j < NINODES → dinode_on mkfs_sb V' j = dinode_on mkfs_sb V j).
  { intros j Hj. unfold dinode_on. pose proof (iblock_range j Hj) as Hr. change (sb_inodestart mkfs_sb) with 32 in Hr. rewrite HV by lia. done. }
  assert (Hus' : ∀ b, 0 <= b < FSSIZE → used mkfs_sb V' b = used mkfs_sb V b).
  { intros b Hb. rewrite !used_bit by done. rewrite HV by (consts; lia). done. }
  assert (Hok : ∀ j, 1 <= j < NINODES → file_ok mkfs_sb V (dinode_on mkfs_sb V j)).
  { intros j Hj. destruct (decide (j = 1)) as [->|]; [apply Hroot|]. destruct (decide (j < Z.of_nat (length cs) + 2)) as [Hlt|].
    - destruct (lookup_lt_is_Some_2 cs (Z.to_nat (j - 2)) ltac:(lia)) as [c Hk]. destruct (Hfile _ c Hk) as (_ & Hf & _).
      replace (Z.of_nat (Z.to_nat (j - 2)) + 2) with j in Hf by lia. done.
    - rewrite Hfree by lia. change dinode0 with (mk_dinode 0 0 0 0 0 (replicate 13 0)). destruct (ho_ok _ _ _ (new_holds 0 V ltac:(lia))) as [[] H1 H2 H3 H4].
      split; [split; try done; cbn; lia|exact H1|exact H2|exact H3|exact H4]. }
  assert (Hfr : ∀ j, 1 <= j < NINODES → let d := dinode_on mkfs_sb V j in file_ok mkfs_sb V' d ∧
    (∀ n, 0 <= n < MAXFILE → fblock d V' n = fblock d V n) ∧ ∀ o, 0 <= o < MAXFILE * BSIZE → fbyte d V' o = fbyte d V o).
  { intros j Hj d. apply file_frame; [by apply Hok| |].
    - intros b Hb. apply HV. apply (owns_data _ _ _ _ (Hok j Hj)) in Hb as [Hr _]. consts. lia.
    - intros b [Hr Hu]. split; [done|]. rewrite Hus' by (consts; lia). done. }
  assert (Hden' : ∀ j, 1 <= j < NINODES → dense (dinode_on mkfs_sb V j) V' ↔ dense (dinode_on mkfs_sb V j) V).
  { intros j Hj. destruct (Hfr j Hj) as (_ & Hb & _). split; intros [H1 H2]; (split; [done|]); intros n Hn Hlt;
      specialize (H2 n Hn Hlt); rewrite ?Hb in * by (rewrite MAXFILE_eq, BSIZE_eq in *; lia); done. }
  assert (Hown : ∀ j b, 1 <= j < NINODES → owns (dinode_on mkfs_sb V j) V' b → owns (dinode_on mkfs_sb V j) V b).
  { intros j b Hj [H0 [Hb|(n & Hn & Hb)]]; (split; [done|]); [by left|]. right. exists n. split; [done|]. rewrite <- Hb. symmetry. by apply (Hfr j Hj). }
  split.
  - intros b Hb. rewrite Hus' by done. auto.
  - cbv zeta. rewrite Hon by done. destruct Hroot as (H1 & H2 & H3). destruct (Hfr ROOTINO ltac:(done)) as (F1 & F2 & F3). cbv zeta in *.
    split_and!; [done|done|]. intros name. rewrite <- H3. apply dir_lookup_ext. destruct H1 as (_ & _ & _ & _ & Hsz). rewrite Hsz.
    intros o Ho. apply F3. unfold root_size in Ho. rewrite root_length in Ho. change NINODES with 200 in Hc. rewrite MAXFILE_eq, BSIZE_eq in *.
    Z.to_euclidean_division_equations. lia.
  - rewrite Hon by done. by rewrite Hden'.
  - intros k c Hk. pose proof (lookup_lt_Some _ _ _ Hk). cbv zeta. rewrite Hon by lia. destruct (Hfile k c Hk) as (H1 & H2 & H3 & H4).
    destruct (Hfr (Z.of_nat k + 2) ltac:(lia)) as (F1 & F2 & F3). split_and!; [done|done|by apply Hden'; [lia|]|].
    etrans; [|exact H4]. apply list_fmap_ext. intros i x Hi%lookup_seqZ. apply F3. destruct H1 as (_ & _ & _ & _ & Hsz), H3 as [Hm _]. rewrite Hsz in Hm. lia.
  - intros j Hj. rewrite Hon by lia. auto.
  - intros i j b Hi Hj Hne. rewrite !Hon by lia. intros Ho Ho'. by apply (Hdisj i j b); [| | |apply Hown|apply Hown].
Qed.

(** ** Booting from the image *)

Section Boot.
Context {C U : Type} {BC : BlockCache C} {BOK : BlockCacheOk C} {UM : UserMem U}.
Implicit Types s : fsst C U.

Lemma readsb_ok s V :
  fresh (lcache (f_lg s)) V → V 1 = put_sb mkfs_sb →
  wp (readsb ROOTDEV) s (λ _ s', f_sb s' = mkfs_sb ∧ fresh (lcache (f_lg s')) V ∧ lg (f_lg s') = lg (f_lg s)).
Proof.
  intros [Hv] H1. unfold readsb. set (v := mk_bcv V [] V (λ _, 0) (λ _, false) 0) in *.
  apply wp_bind, wp_onl, wp_onc. eapply wp_mono; [apply (bc_read_ok _ v 1 Hv)|].
  { split_and!; try done. right. unfold NBUF. simpl. lia. }
  intros h c1 (Hv1 & Hat1 & _). apply wp_bind, wp_onl, wp_onc. cbn [f_lg set_lg lcache lg].
  eapply wp_mono; [by apply (bc_data_ok c1 _ h 1 Hv1)|]. intros d c1' [-> ->]. bcv_simpl. cbn [v v_view]. rewrite H1.
  apply wp_bind, wp_modify. apply wp_onl, wp_onc. cbn [f_lg set_lg set_fsb lcache lg].
  eapply wp_mono; [apply (bc_release_ok c1 _ h 1 Hv1 Hat1); bcv_simpl; by fset_simpl|].
  intros _ c2 [Hv2 _]. cbn [f_lg f_sb set_lg set_fsb lcache lg]. split; [vm_compute; done|]. split; [|done]. split. revert Hv2. apply bc_abs_proper.
  split_and!; bcv_simpl; cbn [v v_disk v_writes v_view v_refs v_held v_busy]; fset_simpl; try done; try fset_cases.
Qed.

(** The log is empty, so recovery only writes its header again. *)
Lemma initlog_settled (g : lgst C) V :
  fresh (lcache g) V → lg_outstanding (lg g) = 0 → lg_committing (lg g) = 0 → length (lh_block (lg g)) = Z.to_nat LOGSIZE → V 2 = ∅ →
  wp (initlog ROOTDEV 2 nlog) g (λ _ g', ∃ V', settled g' V' ∧ lg_start (lg g') = 2 ∧ lg_size (lg g') = nlog ∧ ∀ b, b ≠ 2 → V' b = V b).
Proof.
  intros Hf Ho Hc Hlen H2. unfold initlog. rewrite (proj2 (Z.leb_gt _ _)) by done. apply wp_bind, wp_modify.
  change (i32 2) with 2. change (i32 nlog) with nlog. set (l0 := mk_log 2 nlog _ _ ROOTDEV _ _).
  assert (Hg : geometry l0) by (by split).
  eapply wp_mono; [apply (recover_ok _ l0 V []); [done|done|done|]|].
  { change (lg_start l0) with 2. rewrite H2. split; try done; [intros b ?%elem_of_nil; done|constructor]. }
  intros _ s' (c & l' & v' & -> & Hv' & Hsl & Hlo & Hw & Hd & Hr & Hb). pose proof Hsl as (E1 & E2 & E3 & E4 & E5 & E6).
  exists (v_disk v'). cbn [lg lcache]. split_and!; [|done|done|].
  - split; cbn [lg lcache]; try congruence.
    + by apply (same_log_geometry l0).
    + rewrite E4. done.
    + rewrite E5. done.
    + rewrite E1, Hd. cbn [recover_writes imap app apply_writes foldl fold_left]. change (lg_start l0) with 2. cbn. rewrite fset_eq, H2.
      split; try done; [by rewrite E2|intros b ?%elem_of_nil; done|constructor].
    + exists v'. split_and!; try done.
      * intros bn. apply (bc_clean c v'); [done|]. apply Hr.
      * intros bn. apply Hr.
      * intros bn. apply Hr.
  - intros b Hb2. rewrite Hd. cbn. change (lg_start l0) with 2. by rewrite fset_ne.
Qed.

(** C6. mkfs, then the kernel's boot.  Given files that can be read, have no slash
    in their names and fit on the disk, mkfs ends with an image that holds exactly
    them: a root directory that maps "." and ".." to itself and every name to its
    file's inode, each file with its bytes, no block in two files, the other inodes
    free and exactly the blocks in use marked.  The root directory has a hole exactly
    when its entries fill whole blocks.  When the kernel then boots on the image,
    fsinit accepts it and the first operation starts with all of this in place and
    room for 25 blocks in the log. *)
Theorem mkfs_boots fs cs :
  Forall2 accepted fs cs → fits (all_files cs) → Z.of_nat (length cs) + 1 < NINODES →
  wp (main fs) mst0 (λ _ m, m_len m = FSSIZE ∧ built (view m) cs ∧ ∀ s,
    fresh (lcache (f_lg s)) (view m) → lg_outstanding (lg (f_lg s)) = 0 → lg_committing (lg (f_lg s)) = 0 →
    length (lh_block (lg (f_lg s))) = Z.to_nat LOGSIZE →
    wp (fsinit ROOTDEV;; onl begin_op) s (λ _ s', f_sb s' = mkfs_sb ∧ ∃ t,
      ftx s' t ∧ t_held t = [] ∧ budget s' t 25 ∧ built (t_view t) cs)).
Proof.
  intros Hacc Hfit Hc. eapply wp_mono; [by apply main_ok|]. intros _ m (ds & Hfin). pose proof (finished_built m ds cs Hfin Hc) as Hb.
  pose proof (fi_shows _ _ _ _ (fn_files _ _ _ Hfin)) as Hsh. split; [apply Hsh|]. split; [done|]. intros s Hf Ho Hcm Hlen.
  assert (H1 : view m 1 = put_sb mkfs_sb) by (by rewrite (fn_boot _ _ _ Hfin)).
  assert (H2 : view m 2 = ∅) by (by rewrite (fn_boot _ _ _ Hfin)).
  unfold fsinit. apply wp_bind, wp_bind. eapply wp_mono; [by apply (readsb_ok s (view m))|]. intros _ s1 (Sb & Hf1 & Hl1).
  apply wp_bind, wp_gets. rewrite Sb. change (negb (sb_magic mkfs_sb =? FSMAGIC)) with false. cbv iota. apply wp_onl.
  change (sb_logstart mkfs_sb) with 2. change (sb_nlog mkfs_sb) with nlog.
  eapply wp_mono; [apply (initlog_settled (f_lg s1) (view m)); rewrite ?Hl1; done|]. intros _ l2 (V2 & Hset & E1 & E2 & HV2).
  apply wp_onl. eapply wp_mono; [by apply (begin_op_ok l2 V2)|]. intros _ l3 (Hc3 & Hl3 & Ht). cbn [f_lg f_sb set_lg].
  split; [done|]. exists (mk_tx V2 V2 [] []).
  assert (Hb2 : built V2 cs).
  { apply (built_frame (view m)); [|done|done]. intros b Hb'. change (sb_inodestart mkfs_sb) with 32 in Hb'. apply HV2. lia. }
  split_and!; [|done| |done].
  - split; cbn [f_lg f_sb set_lg t_logged t_view]; [exact Ht| | |].
    + rewrite Hl3, Sb. destruct mkfs_layout. split; try done; cbn [set_outstanding lg_start lg_size]; congruence.
    + unfold NBUF. simpl. lia.
    + rewrite Sb. intros b Hb'. rewrite (bt_used _ _ Hb2) by (consts; lia). apply Z.ltb_lt. pose proof (room_nonneg (all_files cs)). consts. lia.
  - split; cbn [f_lg f_sb set_lg]; rewrite Hl3; cbn [set_outstanding lg_outstanding lg_size]; [done|]. rewrite E2, Sb. vm_compute. done.
Qed.

End Boot.

(** One file, "user/_a", which holds "Hi"; the kernel boots with an empty cache. *)
Definition files1 : list (list Z * option (list (list Z))) := [([117; 115; 101; 114; 47; 95; 97], Some [[72; 105]])].
Definition boot_state (img : gmap Z block) : fsst bst flatmem :=
  mk_fsst _ _ (mk_lgst (mk_bst linked_bufs img [] 1) (mk_log 0 0 0 0 0 0 (replicate (Z.to_nat LOGSIZE) 0))) (mk_sb 0 0 0 0 0 0 0 0)
    (replicate NINODE inode0) (mk_flat ∅ 0) ∅ 0 1.

Lemma mkfs_boots_witness :
  wp (main files1) mst0 (λ _ m, m_len m = FSSIZE ∧ built (view m) [([97], [72; 105])] ∧
    wp (fsinit ROOTDEV;; onl begin_op) (boot_state (m_img m)) (λ _ s', f_sb s' = mkfs_sb ∧ ∃ t,
      ftx s' t ∧ t_held t = [] ∧ budget s' t 25 ∧ built (t_view t) [([97], [72; 105])])).
Proof.
  eapply wp_mono; [apply (mkfs_boots (C := bst) (U := flatmem) files1 [([97], [72; 105])])|].
  - repeat constructor; cbn; try (unfold byte; lia). exists [[72; 105]]. split_and!; [done|repeat constructor; unfold byte; lia|done].
  - split; [by vm_compute|]. repeat constructor; by vm_compute.
  - done.
  - intros _ m (Hl & Hb & Hboot). split_and!; [done|done|]. apply Hboot; [|done|done|done]. split. exact (linked_ok (m_img m) 1).
Defined.
