(* ===== verification/WitnessDir.v ===== *)
(** A small concrete file system: 100 blocks, a log of 30, sixteen inodes, and the
    empty file of inode 1, open inside an operation.

    A small concrete directory, with one entry, open inside an operation. *)

From S2P Require Import Prelude Riscv Memory Str Cache Bio BioList BioSpec Log LogSpec LogCrash BioUse Txn WitnessFs Fs FsSpec FsBlocks FsInode FsFile FsCopy FsIo FsUse Dir DirSpec.

Definition sb1 : superblock := mk_sb FSMAGIC 100 65 16 30 2 32 34.
Definition file1 : dinode := mk_dinode T_FILE 0 0 1 0 (replicate 13 0).

(** Blocks 0 to 34 are in use. *)
Definition bitmap1 : block := write_bytes ∅ 0 [255; 255; 255; 255; 7].
Definition disk1 : gmap Z block := <[34 := bitmap1]> (<[32 := put_dinode ∅ 64 file1]> ∅).

Definition inode1 : inode := mk_inode ROOTDEV 1 1 1 1 1 file1.
Definition lg1 : lgst bst := mk_lgst (mk_bst linked_bufs disk1 [] 1) log0.
Definition frame1 : memory := write_bytes ∅ 0 [72; 105].
Definition fs1 : fsst bst flatmem :=
  mk_fsst _ _ (mk_lgst (lcache lg1) (set_outstanding 1 log0)) sb1 (inode1 :: replicate 49 inode0) (mk_flat ∅ 4096) frame1 0 1.
Definition tx1 : tx := mk_tx (dblock disk1) (dblock disk1) [] [].

Lemma lg1_settled : settled lg1 (dblock disk1).
Proof.
  split; try done.
  - split; try done; [intros b ?%elem_of_nil; done|constructor].
  - split; try done; [intros b ?%elem_of_nil; done|constructor].
  - exists (empty_cache disk1). split_and!; try done. apply linked_ok.
Qed.

Lemma fs1_txn : txn (f_lg fs1) tx1.
Proof.
  destruct (proj1 (wp_ok _ _ _) (begin_op_ok _ _ lg1_settled)) as ([] & s & _ & Hc & Hl & Ht).
  destruct s as [c l]. cbn [lcache lg] in Hc, Hl. subst c l. exact Ht.
Qed.

Lemma all_below (P : Z → bool) n : forallb P (seqZ 0 n) = true → ∀ b, 0 <= b < n → P b = true.
Proof. intros H b Hb. rewrite forallb_forall in H. apply H, list_elem_of_In, elem_of_seqZ. lia. Qed.

Lemma fs1_ftx : ftx fs1 tx1.
Proof.
  split.
  - apply fs1_txn.
  - split; vm_compute; done || (intros ?; discriminate).
  - vm_compute. lia.
  - intros b Hb. apply (all_below (used sb1 (dblock disk1)) 35); [by vm_compute|exact Hb].
Qed.

Lemma empty_fblock d V n : d_addrs d = replicate 13 0 → fblock d V n = 0.
Proof.
  intros Hd. assert (Ha : ∀ k, addr_of d k = 0).
  { intros k. unfold addr_of. rewrite Hd. destruct (decide (Z.to_nat k < 13)%nat) as [Hk|Hk].
    - by rewrite lookup_replicate_2.
    - rewrite lookup_ge_None_2; [done|]. rewrite length_replicate. lia. }
  unfold fblock. rewrite !Ha. by destruct (n <? NDIRECT).
Qed.

Lemma file1_ok : file_ok sb1 (dblock disk1) file1.
Proof.
  assert (H0 : ∀ n, fblock file1 (dblock disk1) n = 0) by (intros n; by apply empty_fblock).
  split; try (intros n Hn; by rewrite H0).
  - split; cbn [file1 d_type d_major d_minor d_nlink d_size d_addrs]; unfold T_FILE; try lia; [done|].
    apply list.Forall_forall. intros a Ha. apply elem_of_replicate in Ha as [-> _]. lia.
  - done.
Qed.

Lemma fs1_open : open_file_ok fs1 tx1 0 inode1.
Proof.
  split; try done.
  - apply fs1_ftx.
  - apply file1_ok.
  - split; [done|]. intros n Hn Hlt. change (d_size (i_d inode1)) with 0 in Hlt. rewrite BSIZE_eq in Hlt. lia.
Qed.

Lemma fs1_can_write : can_write fs1 tx1 20 inode1 (Frame 0) 0 [72; 105].
Proof. split; try done; try (vm_compute; intros ?; discriminate). Qed.


(** Written and read back to kernel address 4096. *)
Lemma writei_readi_witness :
  wp (r1 ← writei (C := bst) (U := flatmem) 0 (Frame 0) 0 2; r2 ← readi 0 (Kernel 4096) 0 2; mret (r1, r2)) fs1
    (λ r s', fst r = 2 ∧ (snd r = -1 ∧ False ∨ snd r = 2 ∧ pl_wrote fs1 (Kernel 4096) [72; 105] s')).
Proof.
  refine (writei_readi fs1 tx1 20 0 inode1 (Frame 0) 0 [72; 105] (Kernel 4096) fs1_open fs1_can_write _ _).
  - cbn. lia.
  - done.
Defined.

(** Inode 1 is the directory; its block is 35, which holds inode 7 as [a]. *)
Definition dir3 : dinode := mk_dinode T_DIR 0 0 1 16 (35 :: replicate 12 0).
Definition disk3 : gmap Z block :=
  <[35 := write_bytes ∅ 0 [7; 0; 97]]> (<[34 := write_bytes ∅ 0 [255; 255; 255; 255; 15]]> (<[32 := put_dinode ∅ 64 dir3]> ∅)).
Definition inode3 : inode := mk_inode ROOTDEV 1 1 1 1 1 dir3.
Definition fs3 : fsst bst flatmem :=
  mk_fsst _ _ (mk_lgst (mk_bst linked_bufs disk3 [] 1) (set_outstanding 1 log0)) sb1 (inode3 :: replicate 49 inode0) (mk_flat ∅ 4096) ∅ 0 1.
Definition tx3 : tx := mk_tx (dblock disk3) (dblock disk3) [] [].

Lemma fs3_settled : settled (mk_lgst (mk_bst linked_bufs disk3 [] 1) log0) (dblock disk3).
Proof.
  split; try done.
  - split; try done; [intros b ?%elem_of_nil; done|constructor].
  - split; try done; [intros b ?%elem_of_nil; done|constructor].
  - exists (empty_cache disk3). split_and!; try done. apply linked_ok.
Qed.

Lemma fs3_ftx : ftx fs3 tx3.
Proof.
  split.
  - destruct (proj1 (wp_ok _ _ _) (begin_op_ok _ _ fs3_settled)) as ([] & s & _ & Hc & Hl & Ht).
    destruct s as [c l]. cbn [lcache lg] in Hc, Hl. subst c l. exact Ht.
  - split; vm_compute; done || (intros ?; discriminate).
  - vm_compute. lia.
  - intros b Hb. apply (all_below (used sb1 (dblock disk3)) 35); [by vm_compute|exact Hb].
Qed.

Lemma dir3_block n : 0 <= n → fblock dir3 (dblock disk3) n = if decide (n = 0) then 35 else 0.
Proof.
  intros Hp. destruct (decide (n = 0)) as [->|Hn]; [done|].
  assert (Ha : ∀ k, k ≠ 0 → 0 <= k → addr_of dir3 k = 0).
  { intros k Hk0 Hk. unfold addr_of, dir3. cbn [d_addrs]. replace (Z.to_nat k) with (S (Z.to_nat (k - 1))) by lia.
    change (default 0 (replicate 12 0 !! Z.to_nat (k - 1)) = 0).
    destruct (decide (Z.to_nat (k - 1) < 12)%nat) as [Hl|Hl].
    - by rewrite lookup_replicate_2.
    - rewrite lookup_ge_None_2; [done|]. rewrite length_replicate. lia. }
  unfold fblock. rewrite !Ha by (try done; unfold NDIRECT; lia). by destruct (n <? NDIRECT).
Qed.

Lemma dir3_ok : file_ok sb1 (dblock disk3) dir3.
Proof.
  split.
  - split; cbn [dir3 d_type d_major d_minor d_nlink d_size d_addrs]; unfold T_DIR; try lia; [done|].
    constructor; [lia|]. apply list.Forall_forall. intros a Ha. apply elem_of_replicate in Ha as [-> _]. lia.
  - done.
  - intros n Hn. rewrite dir3_block by lia. destruct (decide (n = 0)); [|done]. intros _. split; [vm_compute; split; [intros H; discriminate H|done]|by vm_compute].
  - intros n m Hn Hm. rewrite !dir3_block by lia. destruct (decide (n = 0)), (decide (m = 0)); try done. lia.
  - intros n Hn. rewrite dir3_block by lia. destruct (decide (n = 0)); done.
Qed.

Lemma fs3_open : open_dir_ok fs3 tx3 0 inode3.
Proof.
  split; [|done|done]. split; try done.
  - apply fs3_ftx.
  - apply dir3_ok.
  - split; [done|]. intros n Hn Hlt. change (d_size (i_d inode3)) with 16 in Hlt. rewrite BSIZE_eq in Hlt.
    change (i_d inode3) with dir3. change (t_view tx3) with (dblock disk3). rewrite dir3_block by done. destruct (decide (n = 0)); [done|lia].
Qed.

Lemma fs3_entry k i : f_inodes fs3 !! k = Some i → k = 0%nat ∧ i = inode3 ∨ i = inode0.
Proof.
  change (f_inodes fs3) with (inode3 :: replicate 49 inode0). destruct k as [|k]; [simpl; intros [= <-]; by left|].
  intros Hk. change (replicate 49 inode0 !! k = Some i) in Hk. apply lookup_replicate_1 in Hk as [-> _]. by right.
Qed.

Lemma fs3_table : itable_ok (f_inodes fs3).
Proof.
  split.
  - intros j k i i' dev inum [[-> ->]| -> ]%fs3_entry [[-> ->]| -> ]%fs3_entry; done.
  - intros k i [[-> ->]| -> ]%fs3_entry; cbn; lia.
Qed.

Lemma fs3_room : itable_room (f_inodes fs3).
Proof. intros inum _ Hf. by apply (Hf 1%nat inode0). Qed.

Definition name_a : list Z := [97].
Definition name_b : list Z := [98; 99].

(** The entry [a] found. *)
Lemma dirlookup_finds_witness :
  wp (dirlookup (C := bst) (U := flatmem) 0 name_a) fs3 (λ r s', ∃ ip s1 l', r = Some (ip, 16 * 0) ∧ dir_read fs3 tx3 s1 ∧
    s' = set_inodes l' s1 ∧ igot (f_inodes fs3) ROOTDEV 7 ip l').
Proof. exact (dirlookup_finds fs3 tx3 0 inode3 name_a fs3_open fs3_table fs3_room). Defined.

(** Inode 9 linked as [bc]; [a] stays. *)
Lemma dirlink_adds_witness :
  wp (dirlink (C := bst) (U := flatmem) 0 name_b 9) fs3 (λ r s', r = 0 ∧ ∃ t' d', dir_lookup d' (t_view t') name_b = Some 9 ∧
    dir_lookup d' (t_view t') name_a = Some 7).
Proof.
  eapply wp_mono; [apply (dirlink_adds fs3 tx3 20 0 inode3 name_b 9 fs3_open fs3_table fs3_room)|].
  - split; [done|vm_compute; discriminate].
  - lia.
  - vm_compute. discriminate.
  - vm_compute. discriminate.
  - repeat constructor; lia.
  - lia.
  - by vm_compute.
  - intros r s' (-> & t' & d' & _ & _ & Hl & _). split; [done|]. exists t', d'. rewrite !Hl. by vm_compute.
Defined.

(** Inode 5 taken into the table. *)
Lemma iget_unique_entry_witness :
  (uncached (f_inodes fs3) ROOTDEV 5 ∧ full (f_inodes fs3) ∧ iget ROOTDEV 5 fs3 = Panic "iget: no inodes") ∨
  ∃ ip l', iget ROOTDEV 5 fs3 = Ok (ip, set_inodes l' fs3) ∧ igot (f_inodes fs3) ROOTDEV 5 ip l' ∧ itable_ok l' ∧
    ∀ k i, l' !! k = Some i → caches i ROOTDEV 5 = true → k = ip.
Proof.
  apply (iget_unique_entry fs3 ROOTDEV 5 fs3_table). intros k i [[-> ->]| -> ]%fs3_entry; cbn; lia.
Defined.
