(* ===== verification/File.v ===== *)
(** Open files (kernel/file.c).

    [sysst] adds to the file system the table of open files and, of the running
    process, its descriptors [ofile] and the arguments of its system call.  Pipes,
    devices and strings in user memory are reached through [FileWorld]; pipe.c is
    modelled in Pipe.v. *)

From S2P Require Import Prelude Riscv Memory Str Cache Log Fs Dir.

Definition NFILE : nat := 100.
Definition NOFILE : Z := 16.
Definition NDEV : Z := 10.

Inductive fdtype := FD_NONE | FD_PIPE | FD_INODE | FD_DEVICE.

#[global] Instance fdtype_eq_dec : EqDecision fdtype.
Proof. solve_decision. Defined.

Record file := mk_file {
  fl_type : fdtype;
  fl_ref : Z;
  fl_readable : Z;
  fl_writable : Z;
  fl_pipe : Z;
  fl_ip : nat;
  fl_off : Z;
  fl_major : Z
}.

Definition file0 : file := mk_file FD_NONE 0 0 0 0 0 0 0.

Definition set_fref (r : Z) (f : file) : file :=
  mk_file (fl_type f) r (fl_readable f) (fl_writable f) (fl_pipe f) (fl_ip f) (fl_off f) (fl_major f).
Definition set_ftype (t : fdtype) (f : file) : file :=
  mk_file t (fl_ref f) (fl_readable f) (fl_writable f) (fl_pipe f) (fl_ip f) (fl_off f) (fl_major f).
Definition set_foff (o : Z) (f : file) : file :=
  mk_file (fl_type f) (fl_ref f) (fl_readable f) (fl_writable f) (fl_pipe f) (fl_ip f) o (fl_major f).
Definition set_fmode (r w : Z) (f : file) : file :=
  mk_file (fl_type f) (fl_ref f) r w (fl_pipe f) (fl_ip f) (fl_off f) (fl_major f).
Definition set_fpipe (p : Z) (f : file) : file :=
  mk_file (fl_type f) (fl_ref f) (fl_readable f) (fl_writable f) p (fl_ip f) (fl_off f) (fl_major f).
Definition set_fip (ip : nat) (f : file) : file :=
  mk_file (fl_type f) (fl_ref f) (fl_readable f) (fl_writable f) (fl_pipe f) ip (fl_off f) (fl_major f).
Definition set_fmajor (m : Z) (f : file) : file :=
  mk_file (fl_type f) (fl_ref f) (fl_readable f) (fl_writable f) (fl_pipe f) (fl_ip f) (fl_off f) m.

(** Pipes, the device switch ([None] for a null entry) and [copyinstr]. *)
Class FileWorld (U : Type) := {
  fw_pipenew : M U (option Z);
  fw_pipeclose : Z → bool → M U unit;
  fw_piperead : Z → Z → Z → M U Z;
  fw_pipewrite : Z → Z → Z → M U Z;
  fw_devread : Z → option (Z → Z → M U Z);
  fw_devwrite : Z → option (Z → Z → M U Z);
  fw_copyinstr : Z → Z → M U (option (list Z))
}.

Record sysst {C U : Type} := mk_sys {
  y_fs : fsst C U;
  y_ft : list file;
  y_ofile : list (option nat);
  y_args : list Z
}.
Arguments sysst C U : clear implicits.

Section Code.
Context {C U : Type} {BC : BlockCache C} {UM : UserMem U} {FW : FileWorld U}.
Abbreviation sys := (sysst C U).

Definition set_yfs (f : fsst C U) (s : sys) : sys := mk_sys _ _ f (y_ft s) (y_ofile s) (y_args s).
Definition set_yft (l : list file) (s : sys) : sys := mk_sys _ _ (y_fs s) l (y_ofile s) (y_args s).
Definition set_yofile (l : list (option nat)) (s : sys) : sys := mk_sys _ _ (y_fs s) (y_ft s) l (y_args s).

(** Operations of the file system, and of the world through it. *)
Definition onf {A} (m : M (fsst C U) A) : M sys A := λ s,
  match m (y_fs s) with
  | Ok (a, f) => Ok (a, set_yfs f s)
  | Panic msg => Panic msg
  | Wild a => Wild a
  | Exit st => Exit st
  | OutOfFuel => OutOfFuel
  end.
Definition onw {A} (m : M U A) : M sys A := onf (onu m).

Definition getf (f : nat) : M sys file := gets (λ s, default file0 (y_ft s !! f)).
Definition updf (f : nat) (g : file → file) : M sys unit := modify (λ s, set_yft (alter g f (y_ft s)) s).

(** [filealloc]: the first entry without references. *)
Fixpoint file_scan (l : list file) (k : nat) : option nat :=
  match l with
  | [] => None
  | f :: l' => if fl_ref f =? 0 then Some k else file_scan l' (S k)
  end.

Definition filealloc : M sys (option nat) :=
  l ← gets y_ft;
  match file_scan l 0 with
  | Some f => updf f (set_fref 1);; mret (Some f)
  | None => mret None
  end.

Definition filedup (f : nat) : M sys nat :=
  ff ← getf f;
  if fl_ref ff <? 1 then panic "filedup"
  else updf f (λ ff, set_fref (i32 (fl_ref ff + 1)) ff);; mret f.

Definition fileclose (f : nat) : M sys unit :=
  ff ← getf f;
  if fl_ref ff <? 1 then panic "fileclose"
  else
    updf f (λ ff, set_fref (fl_ref ff - 1) ff);;
    if 0 <? fl_ref ff - 1 then mret tt
    else
      ff ← getf f;
      updf f (λ ff, set_ftype FD_NONE (set_fref 0 ff));;
      match fl_type ff with
      | FD_PIPE => onw (fw_pipeclose (fl_pipe ff) (truth (fl_writable ff)))
      | FD_INODE | FD_DEVICE =>
        onf (onl begin_op);;
        onf (iput (fl_ip ff));;
        onf (onl end_op)
      | FD_NONE => mret tt
      end.

(** [struct stat] in the frame, 24 bytes; the four bytes of padding keep what was
    there. *)
Definition put_stat (m : memory) (a : Z) (st : stat) : memory :=
  let m := le_store 4 m a (st_dev st) in
  let m := le_store 4 m (a + 4) (st_ino st) in
  let m := le_store 2 m (a + 8) (st_type st) in
  let m := le_store 2 m (a + 10) (st_nlink st) in
  le_store 8 m (a + 16) (st_size st).

Definition filestat (f : nat) (addr : Z) : M sys Z :=
  ff ← getf f;
  match fl_type ff with
  | FD_INODE | FD_DEVICE =>
    onf (ilock (fl_ip ff));;
    st ← onf (stati (fl_ip ff));
    onf (modify (λ s, set_frame (put_stat (f_frame s) 0 st) s));;
    onf (iunlock (fl_ip ff));;
    m ← onf (gets f_frame);
    r ← onw (um_copyout addr (read_bytes m 0 24));
    if r <? 0 then mret (-1) else mret 0
  | _ => mret (-1)
  end.

(** The device cases of [fileread] and [filewrite]. *)
Definition devcall (sw : Z → option (Z → Z → M U Z)) (major addr n : Z) : M sys Z :=
  if (major <? 0) || (NDEV <=? major) then mret (-1)
  else match sw major with
       | None => mret (-1)
       | Some f => onw (f addr n)
       end.

(** [fileread] and [kfileread] differ in the place of the buffer. *)
Definition fileread_at (dst : place) (addr : Z) (f : nat) (n : Z) : M sys Z :=
  ff ← getf f;
  if fl_readable ff =? 0 then mret (-1)
  else
    match fl_type ff with
    | FD_PIPE => onw (fw_piperead (fl_pipe ff) addr n)
    | FD_DEVICE => devcall fw_devread (fl_major ff) addr n
    | FD_INODE =>
      onf (ilock (fl_ip ff));;
      r ← onf (readi (fl_ip ff) dst (fl_off ff) (w32 n));
      (if 0 <? r then updf f (λ ff, set_foff (w32 (fl_off ff + r)) ff) else mret tt);;
      onf (iunlock (fl_ip ff));;
      mret r
    | FD_NONE => panic "fileread"
    end.

Definition fileread (f : nat) (addr n : Z) : M sys Z := fileread_at (User addr) addr f n.
Definition kfileread (f : nat) (addr n : Z) : M sys Z := fileread_at (Kernel addr) addr f n.

(** One operation of [filewrite]; [i] bytes are written already. *)
Definition write_max : Z := (MAXOPBLOCKS - 1 - 1 - 2) / 2 * BSIZE.

Definition filewrite_body (src : place) (f : nat) (n i : Z) : M sys (Z + Z) :=
  if i <? n then
    let n1 := if write_max <? n - i then write_max else n - i in
    onf (onl begin_op);;
    ff ← getf f;
    onf (ilock (fl_ip ff));;
    r ← onf (writei (fl_ip ff) (pl_add src i) (fl_off ff) n1);
    (if 0 <? r then updf f (λ ff, set_foff (w32 (fl_off ff + r)) ff) else mret tt);;
    onf (iunlock (fl_ip ff));;
    onf (onl end_op);;
    if negb (r =? n1) then mret (inr i) else mret (inl (i + r))
  else mret (inr i).

Definition filewrite_at (src : place) (addr : Z) (f : nat) (n : Z) : M sys Z :=
  ff ← getf f;
  if fl_writable ff =? 0 then mret (-1)
  else
    match fl_type ff with
    | FD_PIPE => onw (fw_pipewrite (fl_pipe ff) addr n)
    | FD_DEVICE => devcall fw_devwrite (fl_major ff) addr n
    | FD_INODE =>
      i ← loop (Z.to_nat (n / write_max + 2)) (filewrite_body src f n) 0;
      mret (if i =? n then n else -1)
    | FD_NONE => panic "filewrite"
    end.

Definition filewrite (f : nat) (addr n : Z) : M sys Z := filewrite_at (User addr) addr f n.
Definition kfilewrite (f : nat) (addr n : Z) : M sys Z := filewrite_at (Kernel addr) addr f n.

End Code.
