(* ===== verification/Sysfile.v ===== *)
(** The file system calls (kernel/sysfile.c), the argument fetching of
    kernel/syscall.c they use, and the swap files of kernel/fs.c. *)

From S2P Require Import Prelude Riscv Memory Str Cache Log Fs Dir File.

Definition MAXPATH : Z := 128.
Definition O_RDONLY : Z := 0.
Definition O_WRONLY : Z := 1.
Definition O_RDWR : Z := 2.
Definition O_CREATE : Z := 512.
Definition O_TRUNC : Z := 1024.

(** Names "." and "..". *)
Definition dot : list Z := [46].
Definition dotdot : list Z := [46; 46].

(** A [char name[DIRSIZ]] before it is set. *)
Definition name0 : list Z := replicate (Z.to_nat DIRSIZ) 0.

Section Code.
Context {C U : Type} {BC : BlockCache C} {UM : UserMem U} {FW : FileWorld U}.
Abbreviation sys := (sysst C U).

Definition begin_op' : M sys unit := onf (onl begin_op).
Definition end_op' : M sys unit := onf (onl end_op).
Definition inode_of (ip : nat) : M sys inode := onf (geti ip).

(** ** Arguments *)

Definition argraw (n : Z) : M sys Z :=
  l ← gets y_args;
  if (0 <=? n) && (n <=? 5) then mret (default 0 (l !! Z.to_nat n)) else panic "argraw".

Definition argint (n : Z) : M sys Z := v ← argraw n; mret (i32 v).
Definition argaddr (n : Z) : M sys Z := argraw n.

(** The string in [buf], or [None] for a negative result. *)
Definition fetchstr (addr max : Z) : M sys (option (list Z)) := onw (fw_copyinstr addr max).
Definition argstr (n max : Z) : M sys (option (list Z)) := addr ← argaddr n; fetchstr addr max.

Definition argfd (n : Z) : M sys (option (Z * nat)) :=
  fd ← argint n;
  if (fd <? 0) || (NOFILE <=? fd) then mret None
  else
    l ← gets y_ofile;
    match l !! Z.to_nat fd with
    | Some (Some f) => mret (Some (fd, f))
    | _ => mret None
    end.

(** ** Descriptors *)

Fixpoint fd_scan (l : list (option nat)) (fd : Z) : option Z :=
  match l with
  | [] => None
  | o :: l' => if o then fd_scan l' (fd + 1) else Some fd
  end.

Definition set_ofile (fd : Z) (o : option nat) : M sys unit :=
  modify (λ s, set_yofile (<[Z.to_nat fd := o]> (y_ofile s)) s).

Definition fdalloc (f : nat) : M sys Z :=
  l ← gets y_ofile;
  match fd_scan l 0 with
  | Some fd => set_ofile fd (Some f);; mret fd
  | None => mret (-1)
  end.

Definition sys_dup : M sys Z :=
  o ← argfd 0;
  match o with
  | None => mret (-1)
  | Some (_, f) =>
    fd ← fdalloc f;
    if fd <? 0 then mret (-1) else filedup f;; mret fd
  end.

Definition sys_read : M sys Z :=
  o ← argfd 0;
  match o with
  | None => mret (-1)
  | Some (_, f) => n ← argint 2; p ← argaddr 1; fileread f p n
  end.

Definition sys_write : M sys Z :=
  o ← argfd 0;
  match o with
  | None => mret (-1)
  | Some (_, f) => n ← argint 2; p ← argaddr 1; filewrite f p n
  end.

Definition sys_close : M sys Z :=
  o ← argfd 0;
  match o with
  | None => mret (-1)
  | Some (fd, f) => set_ofile fd None;; fileclose f;; mret 0
  end.

Definition sys_fstat : M sys Z :=
  o ← argfd 0;
  match o with
  | None => mret (-1)
  | Some (_, f) => st ← argaddr 1; filestat f st
  end.

(** ** Links and directories *)

(** The end of [sys_link] after a failure. *)
Definition link_bad (ip : nat) : M sys Z :=
  onf (ilock ip);;
  onf (updd ip (λ d, set_nlink (i16 (d_nlink d - 1)) d));;
  onf (iupdate ip);;
  onf (iunlockput ip);;
  end_op';;
  mret (-1).

Definition sys_link : M sys Z :=
  old ← argstr 0 MAXPATH;
  match old with
  | None => mret (-1)
  | Some old =>
    new ← argstr 1 MAXPATH;
    match new with
    | None => mret (-1)
    | Some new =>
      begin_op';;
      o ← onf (namei old);
      match o with
      | None => end_op';; mret (-1)
      | Some ip =>
        onf (ilock ip);;
        i ← inode_of ip;
        if d_type (i_d i) =? T_DIR then
          onf (iunlockput ip);; end_op';; mret (-1)
        else
          onf (updd ip (λ d, set_nlink (i16 (d_nlink d + 1)) d));;
          onf (iupdate ip);;
          onf (iunlock ip);;
          r ← onf (nameiparent new name0);
          match r with
          | (None, _) => link_bad ip
          | (Some dp, name) =>
            onf (ilock dp);;
            d ← inode_of dp;
            i ← inode_of ip;
            if negb (i_dev d =? i_dev i) then onf (iunlockput dp);; link_bad ip
            else
              r ← onf (dirlink dp name (i_inum i));
              if r <? 0 then onf (iunlockput dp);; link_bad ip
              else
                onf (iunlockput dp);;
                onf (iput ip);;
                end_op';;
                mret 0
          end
      end
    end
  end.

Definition isdirempty_body (dp : nat) (off : Z) : M (fsst C U) (Z + bool) :=
  d ← geti dp;
  if off <? d_size (i_d d) then
    r ← readi dp (Frame DE) off sizeof_dirent;
    if negb (r =? sizeof_dirent) then panic "isdirempty: readi"
    else
      inum ← de_inum;
      if negb (inum =? 0) then mret (inr false) else mret (inl (off + sizeof_dirent))
  else mret (inr true).

Definition isdirempty (dp : nat) : M (fsst C U) bool :=
  d ← geti dp;
  loop (Z.to_nat (d_size (i_d d) / sizeof_dirent + 2)) (isdirempty_body dp) (2 * sizeof_dirent).

(** [sys_unlink] and [removeSwapFile] share the code from [nameiparent] on, inside
    the transaction. *)
Definition unlink_bad (dp : nat) : M sys Z := onf (iunlockput dp);; end_op';; mret (-1).

Definition unlink_at (path : list Z) : M sys Z :=
  r ← onf (nameiparent path name0);
  match r with
  | (None, _) => end_op';; mret (-1)
  | (Some dp, name) =>
    onf (ilock dp);;
    if (namecmp name dot =? 0) || (namecmp name dotdot =? 0) then unlink_bad dp
    else
      o ← onf (dirlookup dp name);
      match o with
      | None => unlink_bad dp
      | Some (ip, off) =>
        onf (ilock ip);;
        i ← inode_of ip;
        if d_nlink (i_d i) <? 1 then panic "unlink: nlink < 1"
        else
          e ← (if d_type (i_d i) =? T_DIR then onf (isdirempty ip) else mret true);
          if negb e then onf (iunlockput ip);; unlink_bad dp
          else
            onf (modify (λ s, set_frame (memset (f_frame s) DE 0 sizeof_dirent) s));;
            r ← onf (writei dp (Frame DE) off sizeof_dirent);
            if negb (r =? sizeof_dirent) then panic "unlink: writei"
            else
              (if d_type (i_d i) =? T_DIR then
                 onf (updd dp (λ d, set_nlink (i16 (d_nlink d - 1)) d));; onf (iupdate dp)
               else mret tt);;
              onf (iunlockput dp);;
              onf (updd ip (λ d, set_nlink (i16 (d_nlink d - 1)) d));;
              onf (iupdate ip);;
              onf (iunlockput ip);;
              end_op';;
              mret 0
      end
  end.

Definition sys_unlink : M sys Z :=
  path ← argstr 0 MAXPATH;
  match path with
  | None => mret (-1)
  | Some path => begin_op';; unlink_at path
  end.

(** ** Creating files *)

Definition create (path : list Z) (type major minor : Z) : M (fsst C U) (option nat) :=
  r ← nameiparent path name0;
  match r with
  | (None, _) => mret None
  | (Some dp, name) =>
    ilock dp;;
    o ← dirlookup dp name;
    match o with
    | Some (ip, _) =>
      iunlockput dp;;
      ilock ip;;
      i ← geti ip;
      if (type =? T_FILE) && ((d_type (i_d i) =? T_FILE) || (d_type (i_d i) =? T_DEVICE)) then mret (Some ip)
      else iunlockput ip;; mret None
    | None =>
      d ← geti dp;
      ip ← ialloc (i_dev d) type;
      ilock ip;;
      updd ip (λ d, set_nlink 1 (set_minor minor (set_major major d)));;
      iupdate ip;;
      i ← geti ip;
      (if type =? T_DIR then
         updd dp (λ d, set_nlink (i16 (d_nlink d + 1)) d);;
         iupdate dp;;
         r1 ← dirlink ip dot (i_inum i);
         if r1 <? 0 then panic "create dots"
         else
           r2 ← dirlink ip dotdot (i_inum d);
           if r2 <? 0 then panic "create dots" else mret tt
       else mret tt);;
      r ← dirlink dp name (i_inum i);
      if r <? 0 then panic "create: dirlink"
      else
        iunlockput dp;;
        mret (Some ip)
    end
  end.

(** The inode that [sys_open] opens, locked. *)
Definition open_inode (path : list Z) (omode : Z) : M sys (option nat) :=
  if truth (Z.land omode O_CREATE) then onf (create path T_FILE 0 0)
  else
    o ← onf (namei path);
    match o with
    | None => mret None
    | Some ip =>
      onf (ilock ip);;
      i ← inode_of ip;
      if (d_type (i_d i) =? T_DIR) && negb (omode =? O_RDONLY) then
        onf (iunlockput ip);; mret None
      else mret (Some ip)
    end.

(** [f = filealloc()], [fd = fdalloc(f)]; on failure the file is closed. *)
Definition open_file : M sys (option (nat * Z)) :=
  o ← filealloc;
  match o with
  | None => mret None
  | Some f =>
    fd ← fdalloc f;
    if fd <? 0 then fileclose f;; mret None else mret (Some (f, fd))
  end.

Definition sys_open : M sys Z :=
  path ← argstr 0 MAXPATH;
  match path with
  | None => mret (-1)
  | Some path =>
    omode ← argint 1;
    begin_op';;
    o ← open_inode path omode;
    match o with
    | None => end_op';; mret (-1)
    | Some ip =>
      i ← inode_of ip;
      if (d_type (i_d i) =? T_DEVICE) && ((d_major (i_d i) <? 0) || (NDEV <=? d_major (i_d i))) then
        onf (iunlockput ip);; end_op';; mret (-1)
      else
        o ← open_file;
        match o with
        | None => onf (iunlockput ip);; end_op';; mret (-1)
        | Some (f, fd) =>
          (if d_type (i_d i) =? T_DEVICE then updf f (λ ff, set_fmajor (d_major (i_d i)) (set_ftype FD_DEVICE ff))
           else updf f (λ ff, set_foff 0 (set_ftype FD_INODE ff)));;
          updf f (λ ff, set_fmode
            (if truth (Z.land omode O_WRONLY) then 0 else 1)
            (if truth (Z.land omode O_WRONLY) || truth (Z.land omode O_RDWR) then 1 else 0) (set_fip ip ff));;
          (if truth (Z.land omode O_TRUNC) && (d_type (i_d i) =? T_FILE) then onf (itrunc ip) else mret tt);;
          onf (iunlock ip);;
          end_op';;
          mret fd
        end
    end
  end.

Definition sys_mkdir : M sys Z :=
  begin_op';;
  path ← argstr 0 MAXPATH;
  match path with
  | None => end_op';; mret (-1)
  | Some path =>
    o ← onf (create path T_DIR 0 0);
    match o with
    | None => end_op';; mret (-1)
    | Some ip => onf (iunlockput ip);; end_op';; mret 0
    end
  end.

Definition sys_mknod : M sys Z :=
  begin_op';;
  path ← argstr 0 MAXPATH;
  match path with
  | None => end_op';; mret (-1)
  | Some path =>
    major ← argint 1;
    minor ← argint 2;
    o ← onf (create path T_DEVICE (i16 major) (i16 minor));
    match o with
    | None => end_op';; mret (-1)
    | Some ip => onf (iunlockput ip);; end_op';; mret 0
    end
  end.

Definition set_cwd (ip : nat) (s : fsst C U) : fsst C U :=
  mk_fsst _ _ (f_lg s) (f_sb s) (f_inodes s) (f_um s) (f_frame s) ip (f_pid s).

Definition sys_chdir : M sys Z :=
  begin_op';;
  path ← argstr 0 MAXPATH;
  match path with
  | None => end_op';; mret (-1)
  | Some path =>
    o ← onf (namei path);
    match o with
    | None => end_op';; mret (-1)
    | Some ip =>
      onf (ilock ip);;
      i ← inode_of ip;
      if negb (d_type (i_d i) =? T_DIR) then
        onf (iunlockput ip);; end_op';; mret (-1)
      else
        onf (iunlock ip);;
        cwd ← onf (gets f_cwd);
        onf (iput cwd);;
        end_op';;
        onf (modify (set_cwd ip));;
        mret 0
    end
  end.

(** ** Pipes *)

(** [pipealloc] (kernel/pipe.c): both files, or neither. *)
Definition close_opt (o : option nat) : M sys unit := match o with Some f => fileclose f | None => mret tt end.

Definition pipe_file (p r w : Z) (f : file) : file := set_fpipe p (set_fmode r w (set_ftype FD_PIPE f)).

Definition pipealloc : M sys (option (nat * nat)) :=
  f0 ← filealloc;
  f1 ← match f0 with Some _ => filealloc | None => mret None end;
  match f0, f1 with
  | Some r, Some w =>
    o ← onw fw_pipenew;
    match o with
    | Some p =>
      updf r (pipe_file p 1 0);;
      updf w (pipe_file p 0 1);;
      mret (Some (r, w))
    | None => close_opt f0;; close_opt f1;; mret None
    end
  | _, _ => close_opt f0;; close_opt f1;; mret None
  end.

Definition int_bytes (v : Z) : list Z := read_bytes (le_store 4 ∅ 0 v) 0 4.

Definition sys_pipe : M sys Z :=
  fdarray ← argaddr 0;
  o ← pipealloc;
  match o with
  | None => mret (-1)
  | Some (rf, wf) =>
    fd0 ← fdalloc rf;
    if fd0 <? 0 then fileclose rf;; fileclose wf;; mret (-1)
    else
      fd1 ← fdalloc wf;
      if fd1 <? 0 then set_ofile fd0 None;; fileclose rf;; fileclose wf;; mret (-1)
      else
        r0 ← onw (um_copyout fdarray (int_bytes fd0));
        r1 ← (if r0 <? 0 then mret (-1) else onw (um_copyout (w64 (fdarray + 4)) (int_bytes fd1)));
        if r1 <? 0 then
          set_ofile fd0 None;; set_ofile fd1 None;;
          fileclose rf;; fileclose wf;; mret (-1)
        else mret 0
  end.

(** ** Swap files (kernel/fs.c) *)

(** The path "/.swap" with the process number, in a buffer of [DIGITS] bytes: a
    longer path is stored beyond its end. *)
Definition DIGITS : Z := 14.
Definition swap_prefix : list Z := [47; 46; 115; 119; 97; 112].

(** The array [path], whose last eight characters are [itoa]'s. *)
Definition swap_path (pid : Z) : M sys (list Z) :=
  match itoa pid (replicate (Z.to_nat DIGITS - length swap_prefix) 0) with
  | Some ds => mret (cstr (swap_prefix ++ ds))
  | None => wild DIGITS
  end.

(** [p->swapFile] is [None] for a null pointer. *)
Definition removeSwapFile (pid : Z) (swapFile : option nat) : M sys Z :=
  path ← swap_path pid;
  match swapFile with
  | None => mret (-1)
  | Some f =>
    fileclose f;;
    begin_op';;
    unlink_at path
  end.

(** The new [p->swapFile]; a null inode from [create] makes [iunlock] panic. *)
Definition createSwapFile (pid : Z) : M sys nat :=
  path ← swap_path pid;
  begin_op';;
  o ← onf (create path T_FILE 0 0);
  match o with
  | None => panic "iunlock"
  | Some ip =>
    onf (iunlock ip);;
    o ← filealloc;
    match o with
    | None => panic "no slot for files on /store"
    | Some f =>
      updf f (λ ff, set_fmode O_WRONLY O_RDWR (set_foff 0 (set_ftype FD_INODE (set_fip ip ff))));;
      end_op';;
      mret f
    end
  end.

End Code.
