(* ===== verification/PathSpec.v ===== *)
(** Path names: [skipelem] splits a path at its slashes, [itoa] writes decimal
    numbers, and the swap files of different processes have different names. *)

From S2P Require Import Prelude Riscv Memory Str Cache Log Fs Dir DirSpec File Sysfile.

(** ** Elements of a path *)

(** The pieces between slashes. *)
Fixpoint split_slash (cur path : list Z) : list (list Z) :=
  match path with
  | [] => [cur]
  | c :: path' => if c =? slash then cur :: split_slash [] path' else split_slash (cur ++ [c]) path'
  end.

(** The elements of a path: the pieces that are not empty. *)
Definition elems (path : list Z) : list (list Z) := filter (λ e, e ≠ []) (split_slash [] path).

Definition plain (e : list Z) : Prop := Forall (λ c, c ≠ slash ∧ c ≠ 0) e.

Lemma split_plain e : ∀ cur rest, plain e → split_slash cur (e ++ rest) = split_slash (cur ++ e) rest.
Proof.
  induction e as [|c e IH]; intros cur rest Hp; [by rewrite app_nil_r|]. inversion Hp as [|? ? [Hc _] Hp']; subst.
  cbn [app split_slash]. rewrite (proj2 (Z.eqb_neq _ _)) by done. rewrite IH by done. by rewrite <- app_assoc.
Qed.

Lemma elems_slash path : elems (slash :: path) = elems path.
Proof. done. Qed.

Lemma elems_skip path : elems (skip_slashes path) = elems path.
Proof.
  induction path as [|c path IH]; [done|]. cbn [skip_slashes]. destruct (Z.eqb_spec c slash) as [->|]; [|done].
  rewrite IH. by rewrite elems_slash.
Qed.

Lemma elems_plain e rest : e ≠ [] → plain e → (rest = [] ∨ ∃ r, rest = slash :: r) → elems (e ++ rest) = e :: elems rest.
Proof.
  intros He Hp Hr. unfold elems. rewrite split_plain by done. rewrite app_nil_l.
  destruct Hr as [->|[r ->]]; cbn [split_slash]; rewrite ?Z.eqb_refl, list.filter_cons_True by done; done.
Qed.

Lemma skip_slashes_chr path : chr (skip_slashes path) ≠ slash.
Proof. induction path as [|c path IH]; [done|]. cbn [skip_slashes]. destruct (Z.eqb_spec c slash) as [->|]; done. Qed.

(** A name and what follows it. *)
Lemma skip_name_split path : Forall (λ c, c ≠ 0) path →
  ∃ e, path = e ++ skip_name path ∧ plain e ∧ (skip_name path = [] ∨ ∃ r, skip_name path = slash :: r).
Proof.
  induction path as [|c path IH]; intros Hp; [exists []; split_and!; [done|constructor|by left]|].
  inversion Hp as [|? ? Hc Hp']; subst. cbn [skip_name]. destruct (Z.eqb_spec c slash) as [->|Hs]; cbn [negb andb].
  - exists []. split_and!; [done|constructor|]. right. by exists path.
  - rewrite (proj2 (truth_ne c)) by done. destruct (IH Hp') as (e & He & Hpl & Hr). exists (c :: e).
    split_and!; [simpl; by f_equal|by constructor|done].
Qed.

Lemma skip_slashes_zero path : Forall (λ c, c ≠ 0) path → Forall (λ c, c ≠ 0) (skip_slashes path).
Proof. induction 1 as [|c path Hc Hp IH]; [constructor|]. cbn [skip_slashes]. destruct (c =? slash); [done|by constructor]. Qed.

Lemma cstr_plain e rest : plain e → cstr (e ++ 0 :: rest) = e.
Proof.
  induction 1 as [|c e [_ Hc] He IH]; [done|]. cbn [app cstr]. rewrite (proj2 (truth_ne c)) by done. by rewrite IH.
Qed.

Lemma cstr_plain_all e : plain e → cstr e = e.
Proof.
  induction 1 as [|c e [_ Hc] He IH]; [done|]. cbn [cstr]. rewrite (proj2 (truth_ne c)) by done. by rewrite IH.
Qed.

(** The buffer [name] after [skipelem]. *)
Lemma copied_name e rest name :
  plain e → length name = Z.to_nat DIRSIZ →
  let len := Z.of_nat (length (e ++ rest)) - Z.of_nat (length rest) in
  let name' := if DIRSIZ <=? len then take (Z.to_nat DIRSIZ) (e ++ rest) ++ drop (Z.to_nat DIRSIZ) name
    else take (Z.to_nat len) (e ++ rest) ++ 0 :: drop (Z.to_nat (len + 1)) name in
  length name' = Z.to_nat DIRSIZ ∧ dname name' = take (Z.to_nat DIRSIZ) e.
Proof.
  intros Hp Hl len name'. unfold dname. change (Z.to_nat DIRSIZ) with 14%nat in *.
  assert (Hlen : len = Z.of_nat (length e)) by (unfold len; rewrite length_app; lia).
  unfold name'. rewrite Hlen. change DIRSIZ with 14. destruct (Z.leb_spec 14 (Z.of_nat (length e))) as [H|H].
  - rewrite (drop_ge name) by lia. rewrite app_nil_r, take_app_le by lia. rewrite length_take. split; [lia|].
    rewrite cstr_plain_all by (by apply Forall_take). by rewrite take_take.
  - rewrite Nat2Z.id, take_app_le, (take_ge e) by lia. rewrite cstr_plain by done. split; [|done].
    rewrite length_app. simpl. rewrite length_drop. lia.
Qed.

(** skipelem: null for a path without elements; otherwise the first element, cut
    to DIRSIZ characters, is in [name], and the path returned has the other
    elements, does not start with a slash and is empty when there are none. *)
Lemma skipelem_splits path name :
  Forall (λ c, c ≠ 0) path → length name = Z.to_nat DIRSIZ →
  match elems path with
  | [] => skipelem path name = None
  | e :: es => ∃ path' name', skipelem path name = Some (path', name') ∧ elems path' = es ∧ chr path' ≠ slash ∧
      (es = [] ↔ path' = []) ∧ length name' = Z.to_nat DIRSIZ ∧ dname name' = take (Z.to_nat DIRSIZ) e
  end.
Proof.
  intros Hz Hl. rewrite <- elems_skip. pose proof (skip_slashes_zero _ Hz) as Hz'. pose proof (skip_slashes_chr path) as Hc.
  unfold skipelem. set (p := skip_slashes path) in *. destruct (skip_name_split p Hz') as (e & He & Hp & Hr).
  destruct (decide (e = [])) as [->|Hne].
  { cbn [app] in He. rewrite <- He in Hr. destruct Hr as [H0|[r H0]]; rewrite H0 in *; [done|]. by destruct Hc. }
  assert (Hch : truth (chr p) = true).
  { rewrite He. destruct e as [|c e]; [done|]. inversion Hp as [|? ? [_ Hc0] _]. by apply truth_ne. }
  assert (Hel : elems p = e :: elems (skip_name p)).
  { transitivity (elems (e ++ skip_name p)); [by f_equal|]. by apply elems_plain. }
  rewrite Hch, Hel. cbn [negb].
  pose proof (copied_name e (skip_name p) name Hp Hl) as Hcp. cbv zeta in Hcp. rewrite <- He in Hcp.
  eexists _, _. split; [done|]. rewrite elems_skip. split_and!; [done|apply skip_slashes_chr| |apply Hcp|apply Hcp].
  split; [|by intros E; rewrite <- elems_skip, E].
  intros E. rewrite <- elems_skip in E. destruct (skip_slashes (skip_name p)) as [|c q] eqn:Eq; [done|]. exfalso.
  pose proof (skip_slashes_chr (skip_name p)) as Hc'. rewrite Eq in Hc'.
  assert (Hzq : Forall (λ c, c ≠ 0) (c :: q)).
  { rewrite <- Eq. apply skip_slashes_zero. rewrite He in Hz'. by apply Forall_app in Hz' as [_ ?]. }
  destruct (skip_name_split (c :: q) Hzq) as (e' & He' & Hp' & Hr'). destruct (decide (e' = [])) as [->|Hne'].
  - cbn [app] in He'. rewrite <- He' in Hr'. destruct Hr' as [?|[r H0]]; [done|]. by simplify_eq.
  - rewrite He', elems_plain in E by done. done.
Qed.

(** ** Decimal numbers *)

(** The digits of [i], most significant first. *)
Fixpoint decimal (fuel : nat) (i : Z) : list Z :=
  match fuel with
  | O => []
  | S k => (if i / 10 =? 0 then [] else decimal k (i / 10)) ++ [48 + i mod 10]
  end.

(** The number a string of digits stands for. *)
Definition dec_val (ds : list Z) : Z := fold_left (λ v c, 10 * v + (c - 48)) ds 0.

Lemma decimal_val n : ∀ i, 0 <= i < 10 ^ Z.of_nat n → dec_val (decimal n i) = i.
Proof.
  induction n as [|n IH]; intros i Hi; [change (0 = i); simpl in Hi; lia|]. cbn [decimal]. unfold dec_val in *.
  rewrite fold_left_app. cbn [fold_left]. rewrite Nat2Z.inj_succ, Z.pow_succ_r in Hi by lia.
  pose proof (Z.div_mod i 10 ltac:(done)). destruct (Z.eqb_spec (i / 10) 0) as [E|E]; [cbn [fold_left]; lia|].
  rewrite IH; [lia|]. split; [apply Z.div_pos; lia|]. apply Z.div_lt_upper_bound; lia.
Qed.

Lemma decimal_digits n : ∀ i, Forall (λ c, 48 <= c < 58) (decimal n i).
Proof.
  induction n as [|n IH]; intros i; cbn [decimal]; [constructor|]. apply Forall_app. split; [destruct (_ =? 0); [constructor|apply IH]|].
  constructor; [|constructor]. pose proof (Z.mod_pos_bound i 10 ltac:(done)). lia.
Qed.

(** [n] digits or fewer exactly for numbers below 10^n. *)
Lemma decimal_length n : ∀ i m, 0 <= i < 10 ^ Z.of_nat n → (0 < m)%nat → ((length (decimal n i) <= m)%nat ↔ i < 10 ^ Z.of_nat m).
Proof.
  induction n as [|n IH]; intros i m Hi Hm; [simpl in *; split; [|lia]; assert (0 < 10 ^ Z.of_nat m) by lia; lia|].
  cbn [decimal]. rewrite length_app. cbn [length]. rewrite Nat2Z.inj_succ, Z.pow_succ_r in Hi by lia.
  assert (Hq : 0 <= i / 10 < 10 ^ Z.of_nat n) by (split; [apply Z.div_pos; lia|apply Z.div_lt_upper_bound; lia]).
  destruct m as [|m]; [lia|]. rewrite (Nat2Z.inj_succ m), Z.pow_succ_r by lia.
  pose proof (Z.div_mod i 10 ltac:(done)). pose proof (Z.mod_pos_bound i 10 ltac:(done)).
  destruct (Z.eqb_spec (i / 10) 0) as [E|E].
  - cbn [length]. assert (0 < 10 ^ Z.of_nat m) by lia. split; lia.
  - destruct m as [|m].
    + destruct n; [simpl in Hq; lia|]. cbn [decimal]. rewrite length_app. simpl. lia.
    + pose proof (IH (i / 10) (S m) Hq ltac:(lia)). split; intros; [|lia].
      assert (i / 10 < 10 ^ Z.of_nat (S m)) by (apply IH; lia). lia.
Qed.

Lemma quot_rem_pos i : 0 <= i → Z.quot i 10 = i / 10 ∧ Z.rem i 10 = i mod 10.
Proof. intros Hi. split; [by apply Z.quot_div_nonneg|by apply Z.rem_mod_nonneg]. Qed.

Lemma itoa_end_ok n : ∀ p i, 0 <= i < 10 ^ Z.of_nat n → (0 < n)%nat → itoa_end n p i = (p + length (decimal n i))%nat.
Proof.
  induction n as [|n IH]; intros p i Hi Hn; [lia|]. cbn [itoa_end decimal]. rewrite length_app. cbn [length].
  destruct (quot_rem_pos i ltac:(lia)) as [-> _]. rewrite Nat2Z.inj_succ, Z.pow_succ_r in Hi by lia.
  assert (Hq : 0 <= i / 10 < 10 ^ Z.of_nat n) by (split; [apply Z.div_pos; lia|apply Z.div_lt_upper_bound; lia]).
  unfold truth. destruct (Z.eqb_spec (i / 10) 0) as [E|E]; cbn [negb length]; [lia|].
  destruct n; [simpl in Hq; lia|]. rewrite IH by (done || lia). lia.
Qed.

(** Storing a digit in front of the digits already stored. *)
Lemma itoa_digits_ok n : ∀ pre junk post i, 0 <= i < 10 ^ Z.of_nat n → (0 < n)%nat → length junk = length (decimal n i) →
  itoa_digits n (pre ++ junk ++ post) (length pre + length junk) i = Some (pre ++ decimal n i ++ post).
Proof.
  induction n as [|n IH]; intros pre junk post i Hi Hn Hj; [lia|]. cbn [decimal] in Hj |- *.
  rewrite length_app in Hj. cbn [length] in Hj. rewrite Nat2Z.inj_succ, Z.pow_succ_r in Hi by lia.
  destruct (quot_rem_pos i ltac:(lia)) as [Eq Er]. pose proof (Z.mod_pos_bound i 10 ltac:(done)).
  assert (Hq : 0 <= i / 10 < 10 ^ Z.of_nat n) by (split; [apply Z.div_pos; lia|apply Z.div_lt_upper_bound; lia]).
  destruct (exists_last (l := junk)) as (junk' & x & ->); [by destruct junk; [simpl in *; lia|]|].
  rewrite length_app in *. cbn [length] in *. replace (length pre + (length junk' + 1))%nat with (S (length pre + length junk')) by lia.
  cbn [itoa_digits]. rewrite Er, Eq. rewrite (proj2 (Z.ltb_ge _ _)) by lia. unfold put_char.
  rewrite decide_True by (rewrite !length_app; simpl; lia). cbn [mbind option_bind].
  assert (<[(length pre + length junk')%nat := 48 + i mod 10]> (pre ++ (junk' ++ [x]) ++ post) = pre ++ junk' ++ [48 + i mod 10] ++ post) as ->.
  { rewrite insert_app_r. rewrite <- app_assoc. replace (length junk') with (length junk' + 0)%nat by lia. by rewrite insert_app_r. }
  unfold truth. destruct (Z.eqb_spec (i / 10) 0) as [E|E]; cbn [negb].
  - destruct junk'; [|simpl in Hj; lia]. done.
  - destruct n; [simpl in Hq; lia|]. rewrite IH by (done || lia). by rewrite <- app_assoc.
Qed.

(** A number that is not negative, in an array with or without room for it. *)
Lemma itoa_ok i b : 0 <= i < 2 ^ 31 →
  itoa i b = if decide (length (decimal 10 i) < length b)%nat
    then Some (decimal 10 i ++ 0 :: drop (S (length (decimal 10 i))) b) else None.
Proof.
  intros Hi. assert (H10 : 0 <= i < 10 ^ Z.of_nat 10) by (simpl; lia). unfold itoa. rewrite (proj2 (Z.ltb_ge _ _)) by lia. cbn [mbind option_bind].
  rewrite itoa_end_ok by (done || lia). cbn [Nat.add]. set (n := length (decimal 10 i)). unfold put_char.
  destruct (decide (n < length b)%nat) as [Hlt|Hge]; [|done]. cbn [mbind option_bind].
  rewrite insert_take_drop by done.
  pose proof (itoa_digits_ok 10 [] (take n b) (0 :: drop (S n) b) i H10 ltac:(lia)) as H. cbn [app length Nat.add] in H.
  rewrite length_take, Nat.min_l in H by lia. by rewrite H.
Qed.

Section Swap.
Context {C U : Type} {BC : BlockCache C} {UM : UserMem U} {FW : FileWorld U}.

(** C37. The name of a swap file.  Up to process id 9999999 it is "/.swap" and the
    decimal digits of the id, so that different processes get different files;
    from there on the array in createSwapFile and removeSwapFile is too short and
    itoa writes behind its end. *)
Theorem swap_path_names pid (s : sysst C U) : 0 <= pid < 2 ^ 31 →
  if decide (pid < 10 ^ 7) then
    ∃ ds, swap_path pid s = Ok (swap_prefix ++ ds, s) ∧ dec_val ds = pid ∧ Forall (λ c, 48 <= c < 58) ds
  else swap_path pid s = Wild DIGITS.
Proof.
  intros Hp. unfold swap_path. rewrite itoa_ok by done. rewrite length_replicate.
  change (Z.to_nat DIGITS - length swap_prefix)%nat with 8%nat.
  pose proof (decimal_length 10 pid 7 ltac:(simpl; lia) ltac:(lia)) as Hl. change (10 ^ Z.of_nat 7) with (10 ^ 7) in Hl.
  destruct (decide (pid < 10 ^ 7)) as [Hs|Hs].
  - rewrite decide_True by lia. exists (decimal 10 pid). split_and!; [|apply decimal_val; simpl; lia|apply decimal_digits].
    unfold mret, M_ret. repeat f_equal.
    change (swap_prefix ++ decimal 10 pid) with (47 :: 46 :: 115 :: 119 :: 97 :: 112 :: decimal 10 pid).
    cbn [swap_prefix app cstr truth Z.eqb negb]. rewrite cstr_plain; [done|]. eapply list.Forall_impl; [apply decimal_digits|].
    intros c Hc. unfold slash. simpl in Hc. lia.
  - by rewrite decide_False by lia.
Qed.

End Swap.
