(* ===== verification/FileSpec.v ===== *)
(** Writing through an open file: each piece of a [filewrite] is one transaction,
    begun and ended with the file system at rest. *)

From S2P Require Import Prelude Riscv Memory Str Cache Log LogSpec LogCrash Txn Fs FsSpec FsBlocks FsInode FsFile FsCopy FsIo FsUse Dir File.

Section Spec.
Context {C U : Type} {BC : BlockCache C} {BOK : BlockCacheOk C} {UM : UserMem U} {UOK : UserMemOk U} {FW : FileWorld U}.
Abbreviation fs := (fsst C U).
Abbreviation sys := (sysst C U).

Lemma wp_onf {A} (m : M fs A) (s : sys) (Q : A → sys → Prop) :
  wp m (y_fs s) (λ a f, Q a (set_yfs f s)) → wp (onf m) s Q.
Proof. unfold wp, onf. by destruct (m (y_fs s)) as [[a f]| | | |]. Qed.

Lemma wp_getf (s : sys) f ff (Q : file → sys → Prop) : y_ft s !! f = Some ff → Q ff s → wp (getf f) s Q.
Proof. intros Hf HQ. apply wp_gets. by rewrite Hf. Qed.

Lemma wp_updf (s : sys) f ff g (Q : unit → sys → Prop) :
  y_ft s !! f = Some ff → Q tt (set_yft (<[f := g ff]> (y_ft s)) s) → wp (updf f g) s Q.
Proof. intros Hf HQ. apply wp_modify. by rewrite (alter_insert _ _ _ _ Hf). Qed.

(** ** At rest *)

(** No operation is under way; the disk is [V].  The log has room for the largest
    operation of [filewrite]. *)
Record at_rest (s : fs) (V : Z → block) : Prop := {
  ar_settled : settled (f_lg s) V;
  ar_layout : layout (f_sb s) (lg (f_lg s));
  ar_meta : ∀ b, 0 <= b < dstart (f_sb s) → used (f_sb s) V b = true;
  ar_room : nbm (f_sb s) + 10 <= Z.min (Z.min LOGSIZE (sb_nlog (f_sb s) - 1)) (Z.of_nat NBUF - 3);
  ar_mem : um_ok (f_um s)
}.

(** [s'] differs from [s] in the log, the cache and the inode table only. *)
Record same_rest (s s' : fs) : Prop := {
  sr_sb : f_sb s' = f_sb s;
  sr_um : f_um s' = f_um s;
  sr_frame : f_frame s' = f_frame s;
  sr_cwd : f_cwd s' = f_cwd s;
  sr_pid : f_pid s' = f_pid s
}.

Lemma same_rest_trans s1 s2 s3 : same_rest s1 s2 → same_rest s2 s3 → same_rest s1 s3.
Proof. intros [] []. split; congruence. Qed.

Lemma begin_ok s V :
  at_rest s V → wp (onl begin_op) s (λ _ s', let t := mk_tx V V [] [] in
    ftx s' t ∧ budget s' t 9 ∧ same_rest s s' ∧ f_inodes s' = f_inodes s ∧ lg_outstanding (lg (f_lg s')) = 1).
Proof.
  intros []. apply wp_onl. eapply wp_mono; [by apply begin_op_ok|]. intros _ l (Hc & Hl & Ht).
  cbv zeta. split_and!; try done.
  - split; cbn [f_lg f_sb set_lg]; [done| |unfold NBUF; simpl; lia|done]. rewrite Hl. by destruct ar_layout0.
  - split; cbn [f_lg f_sb set_lg]; rewrite Hl; cbn [lg_outstanding set_outstanding lg_size]; [done|].
    rewrite (ly_nlog _ _ ar_layout0). unfold cost. cbn [t_logged]. rewrite list.filter_nil. cbn [length]. lia.
  - cbn. by rewrite Hl.
Qed.

(** Blocks outside the log. *)
Lemma home_not_log sb l b : layout sb l → home sb b → ¬ in_log l b.
Proof. intros Hl Hh. by apply (home_range _ _ _ Hl Hh). Qed.

Lemma end_ok s t :
  ftx s t → t_held t = [] → lg_outstanding (lg (f_lg s)) = 1 → um_ok (f_um s) →
  nbm (f_sb s) + 10 <= Z.min (Z.min LOGSIZE (sb_nlog (f_sb s) - 1)) (Z.of_nat NBUF - 3) →
  wp (onl end_op) s (λ _ s', ∃ V, at_rest s' V ∧ same_rest s s' ∧ f_inodes s' = f_inodes s ∧
    ∀ b, home (f_sb s) b → V b = t_view t b).
Proof.
  intros [] Hh Hout Hu Hroom. apply wp_onl. eapply wp_mono; [apply (end_op_ok _ t); try done|].
  { unfold in_use. rewrite Hh, list.filter_nil. cbn [length]. lia. }
  intros _ l (V & Hs & E1 & E2 & HV).
  assert (HV' : ∀ b, home (f_sb s) b → V b = t_view t b) by (intros b Hb; by apply HV, (home_not_log (f_sb s))).
  exists V. split_and!; try done. split; try done; cbn [f_lg f_sb set_lg].
  - destruct ft_layout. split; congruence.
  - intros b Hb. unfold used. rewrite HV'; [by apply ft_meta|]. apply (bm_home _ _ _ ft_layout).
    apply (BBLOCK_eq _ _ _ ft_layout). pose proof (ly_data _ _ ft_layout). lia.
Qed.

(** What is stored in home blocks carries over. *)
Lemma used_home sb l V V' b :
  layout sb l → (∀ b, home sb b → V' b = V b) → 0 <= b < sb_size sb → used sb V' b = used sb V b.
Proof.
  intros Hl HV Hb. unfold used. rewrite HV; [done|]. apply (bm_home _ _ _ Hl). by apply (BBLOCK_eq _ _ _ Hl).
Qed.

Lemma dinode_home sb l V V' j :
  layout sb l → (∀ b, home sb b → V' b = V b) → 0 <= j < sb_ninodes sb → dinode_on sb V' j = dinode_on sb V j.
Proof. intros Hl HV Hj. unfold dinode_on. rewrite HV; [done|]. by apply (IBLOCK_eq _ _ _ Hl). Qed.

Lemma file_home sb l V V' d :
  layout sb l → (∀ b, home sb b → V' b = V b) → file_ok sb V d →
  file_ok sb V' d ∧ (∀ n, fblock d V' n = fblock d V n) ∧ ∀ o, 0 <= o < MAXFILE * BSIZE → fbyte d V' o = fbyte d V o.
Proof.
  intros Hl HV Hok. apply (file_view sb V V' d Hok).
  - intros b [Hb _]. apply HV. by apply (data_home _ _ _ Hl).
  - intros b Hb. by apply (used_home _ l).
  - pose proof (dstart_pos _ _ Hl). lia.
Qed.

(** ** An inode in the table *)

(** Inode [ip], valid and not locked, of the file [d]. *)
Record inode_ready (s : fs) (V : Z → block) ip i : Prop := {
  ir_at : iat s ip i;
  ir_ref : 1 <= i_ref i;
  ir_free : i_locked i = 0;
  ir_valid : i_valid i ≠ 0;
  ir_dev : i_dev i = ROOTDEV;
  ir_inum : 0 <= i_inum i < sb_ninodes (f_sb s);
  ir_file : file_ok (f_sb s) V (i_d i);
  ir_dense : dense (i_d i) V;
  ir_disk : dinode_on (f_sb s) V (i_inum i) = i_d i
}.

Lemma ilock_valid_ok (s : fs) ip i (Q : unit → fs → Prop) :
  iat s ip i → 1 <= i_ref i → i_locked i = 0 → i_valid i ≠ 0 →
  Q tt (set_inodes (<[ip := set_ilock 1 (f_pid s) i]> (f_inodes s)) s) → wp (ilock ip) s Q.
Proof.
  intros Hi Hr Hl Hv HQ. unfold ilock. apply wp_bind. eapply wp_geti; [done|].
  rewrite (proj2 (Z.ltb_ge _ _)) by lia. apply wp_bind. unfold acquiresleep. apply wp_bind. eapply wp_geti; [done|].
  rewrite Hl. cbn [truth negb Z.eqb]. apply wp_bind, wp_gets. eapply wp_updi; [done|].
  rewrite (proj2 (Z.eqb_neq _ _)) by done. by apply wp_ret.
Qed.

Lemma iunlock_ok (s : fs) ip i (Q : unit → fs → Prop) :
  iat s ip i → 1 <= i_ref i → i_locked i = 1 → i_pid i = f_pid s →
  Q tt (set_inodes (<[ip := set_ilock 0 0 i]> (f_inodes s)) s) → wp (iunlock ip) s Q.
Proof.
  intros Hi Hr Hl Hp HQ. unfold iunlock. apply wp_bind. eapply wp_geti; [done|].
  unfold holdingsleep. apply wp_bind. apply wp_bind. eapply wp_geti; [done|]. apply wp_bind, wp_gets, wp_ret.
  rewrite Hl, Hp, Z.eqb_refl. cbn [truth negb Z.eqb andb orb]. rewrite (proj2 (Z.ltb_ge _ _)) by lia.
  unfold releasesleep. eapply wp_updi; done.
Qed.

(** ** One piece *)

Definition disjoint_files (V : Z → block) (d d0 : dinode) : Prop := ∀ b, owns d V b → ¬ owns d0 V b.

(** [bs] written at [off] of the file [d] of inode [inum]: the disks [V] and [V']
    before and after. *)
Record put_bytes sb (inum : Z) V d V' d' (off : Z) (bs : list Z) : Prop := {
  pb_size : d_size d' = Z.max (d_size d) (off + Z.of_nat (length bs));
  pb_byte : ∀ o, 0 <= o < MAXFILE * BSIZE → fbyte d' V' o =
    if decide (off <= o < off + Z.of_nat (length bs)) then w8 (default 0 (bs !! Z.to_nat (o - off))) else fbyte d V o;
  pb_inode : ∀ j, 0 <= j < sb_ninodes sb → j ≠ inum → dinode_on sb V' j = dinode_on sb V j;
  pb_other : ∀ d0, file_ok sb V d0 → disjoint_files V d0 d →
    file_ok sb V' d0 ∧ disjoint_files V' d0 d' ∧ ∀ o, 0 <= o < MAXFILE * BSIZE → fbyte d0 V' o = fbyte d0 V o
}.

Lemma put_bytes_nil sb inum V d off : 0 <= off <= d_size d → put_bytes sb inum V d V d off [].
Proof.
  intros Ho. split; try done.
  - simpl. lia.
  - intros o Hr. rewrite decide_False; [done|]. simpl. lia.
Qed.

Lemma put_bytes_app sb inum V1 d1 V2 d2 V3 d3 off bs1 bs2 :
  put_bytes sb inum V1 d1 V2 d2 off bs1 → put_bytes sb inum V2 d2 V3 d3 (off + Z.of_nat (length bs1)) bs2 →
  put_bytes sb inum V1 d1 V3 d3 off (bs1 ++ bs2).
Proof.
  intros [] []. split.
  - rewrite length_app, Nat2Z.inj_add. lia.
  - intros o Ho. rewrite pb_byte1, pb_byte0 by done. rewrite length_app, Nat2Z.inj_add.
    destruct (decide (off + Z.of_nat (length bs1) <= o < off + Z.of_nat (length bs1) + Z.of_nat (length bs2))) as [H2|H2].
    + rewrite decide_True by lia. rewrite lookup_app_r by lia. do 3 f_equal. lia.
    + destruct (decide (off <= o < off + Z.of_nat (length bs1))) as [H1|H1].
      * rewrite decide_True by lia. rewrite lookup_app_l by lia. done.
      * rewrite decide_False by lia. done.
  - intros j Hj Hne. rewrite pb_inode1, pb_inode0; done.
  - intros d0 Hok Hdis. destruct (pb_other0 d0 Hok Hdis) as (H1 & H2 & H3). destruct (pb_other1 d0 H1 H2) as (K1 & K2 & K3).
    split_and!; [done|done|]. intros o Ho. rewrite K3, H3; done.
Qed.

(** The inode [i], valid but unlocked, is that of the open file [f] at [off]. *)
Record file_ready (s : sys) V f ff ip i off : Prop := {
  fy_rest : at_rest (y_fs s) V;
  fy_at : y_ft s !! f = Some ff;
  fy_type : fl_type ff = FD_INODE;
  fy_ip : fl_ip ff = ip;
  fy_off : fl_off ff = off;
  fy_inode : inode_ready (y_fs s) V ip i
}.

Definition file_after (ff : file) (off : Z) : file := set_foff off ff.
Definition inode_after (i : inode) (d' : dinode) : inode := set_ilock 0 0 (set_d d' i).

(** The state after a piece that wrote [bs]. *)
Record wrote_piece (s : sys) V f ff ip i off (bs : list Z) (s' : sys) V' d' : Prop := {
  wp_ready : file_ready s' V' f (file_after ff (off + Z.of_nat (length bs))) ip (inode_after i d') (off + Z.of_nat (length bs));
  wp_rest : same_rest (y_fs s) (y_fs s');
  wp_ft : y_ft s' = <[f := file_after ff (off + Z.of_nat (length bs))]> (y_ft s);
  wp_of : y_ofile s' = y_ofile s ∧ y_args s' = y_args s;
  wp_inodes : f_inodes (y_fs s') = <[ip := inode_after i d']> (f_inodes (y_fs s));
  wp_put : put_bytes (f_sb (y_fs s)) (i_inum i) V (i_d i) V' d' off bs
}.

Lemma written_put (s : fs) t k ip i off bs s' t' d' V' :
  ftx s t → 0 <= i_inum i < sb_ninodes (f_sb s) → written s t k ip i off bs s' t' d' →
  (∀ b, home (f_sb s) b → V' b = t_view t' b) →
  put_bytes (f_sb s) (i_inum i) (t_view t) (i_d i) V' d' off bs.
Proof.
  intros Hf Hin W HV. pose proof (ft_layout _ _ Hf) as Hly.
  destruct (file_home _ _ _ _ _ Hly HV (wn_ok _ _ _ _ _ _ _ _ _ _ W)) as (K1 & K2 & K3).
  split.
  - by rewrite (wn_meta _ _ _ _ _ _ _ _ _ _ W).
  - intros o Ho. by rewrite K3, (wn_byte _ _ _ _ _ _ _ _ _ _ W).
  - intros j Hj Hne. rewrite (dinode_home _ _ _ _ _ Hly HV) by done. rewrite (wn_inode _ _ _ _ _ _ _ _ _ _ W) by done.
    by rewrite decide_False.
  - intros d0 Hok Hdis.
    destruct (other_file_kept s t _ ip i off bs s' t' d' d0 Hf Hin W (conj Hok Hdis)) as (O1 & Ob & O2).
    destruct (file_home _ _ _ _ _ Hly HV O1) as (L1 & L2 & L3). split_and!; [done| |].
    + intros b [Hb0 Hb] [_ Hb'].
      assert (Ho : owns d0 (t_view t) b).
      { split; [done|]. destruct Hb as [|(n & Hn & Hb)]; [by left|right]. exists n. rewrite L2, Ob in Hb by done. done. }
      assert (Ho' : owns d' (t_view t') b).
      { split; [done|]. destruct Hb' as [|(n & Hn & Hb2)]; [by left|right]. exists n. rewrite K2 in Hb2. done. }
      destruct (wn_owns _ _ _ _ _ _ _ _ _ _ W b Ho') as [|Hu]; [by apply (Hdis b)|].
      destruct (owns_data _ _ _ _ Hok Ho) as [_ Hu']. congruence.
    + intros o Ho. rewrite L3, O2; done.
Qed.

(** Sizes of pieces: at most four blocks. *)
Lemma piece_rounds off n : 0 <= n <= write_max → rounds off n <= 4.
Proof.
  intros Hn. unfold rounds. destruct (Z.leb_spec n 0); [lia|]. pose proof (Z.mod_pos_bound off BSIZE ltac:(done)).
  change write_max with 3072 in Hn. rewrite BSIZE_eq in *. apply Z.lt_succ_r, Z.div_lt_upper_bound; lia.
Qed.

Lemma filewrite_body_ok (s : sys) V f ff ip i off src n i0 bs :
  let n1 := if write_max <? n - i0 then write_max else n - i0 in
  file_ready s V f ff ip i off → 0 <= i0 < n → n < 2 ^ 31 → Z.of_nat (length bs) = n1 →
  0 <= off <= d_size (i_d i) → off + n1 <= MAXFILE * BSIZE → 8 <= nfree (f_sb (y_fs s)) V →
  pl_wf src → pl_ok (y_fs s) src n → Some <$> bs = pl_byte (y_fs s) (pl_add src i0) <$> seqZ 0 n1 →
  wp (filewrite_body src f n i0) s (λ r s', r = inl (i0 + n1) ∧ ∃ V' d', wrote_piece s V f ff ip i off bs s' V' d' ∧
    nfree (f_sb (y_fs s)) V - 8 <= nfree (f_sb (y_fs s)) V').
Proof.
  intros n1 [] Hi0 Hn Hlen Hoff Hmax Hfree Hwf Hp Hbs. destruct fy_inode0.
  unfold filewrite_body. rewrite (proj2 (Z.ltb_lt _ _)) by lia. fold n1.
  assert (Hn1 : 0 < n1 <= write_max ∧ n1 <= n - i0).
  { unfold n1. change write_max with 3072. destruct (Z.ltb_spec 3072 (n - i0)); lia. }
  pose proof (piece_rounds off n1 ltac:(lia)) as Hr. pose proof (rounds_nonneg off n1) as Hr0.
  apply wp_bind, wp_onf. eapply wp_mono; [by apply begin_ok|]. cbv zeta. intros _ s1 (Hf1 & B1 & R1 & I1 & O1).
  set (t := mk_tx V V [] []) in *. pose proof (sr_sb _ _ R1) as S1.
  apply wp_bind. eapply wp_getf; [exact fy_at0|]. rewrite fy_ip0, fy_off0.
  apply wp_bind, wp_onf. cbn [y_fs set_yfs].
  apply (ilock_valid_ok _ ip i); try done.
  { unfold iat. by rewrite I1. }
  set (i2 := set_ilock 1 (f_pid s1) i). set (s2 := set_inodes (<[ip := i2]> (f_inodes s1)) s1).
  assert (Hi2 : iat s2 ip i2).
  { unfold iat, s2. cbn [f_inodes set_inodes]. rewrite list_lookup_insert_eq; [done|]. rewrite I1. by eapply lookup_lt_Some. }
  assert (Hf2 : ftx s2 t) by (by destruct Hf1). assert (B2 : budget s2 t 9) by (by destruct B1).
  apply wp_bind, wp_onf. cbn [y_fs set_yfs].
  assert (EU : f_um s2 = f_um (y_fs s)) by apply R1. assert (EF : f_frame s2 = f_frame (y_fs s)) by apply R1.
  assert (Hsb2 : f_sb s2 = f_sb (y_fs s)) by done.
  rewrite <- Hlen. eapply wp_mono; [apply (writei_ok s2 t 9 ip i2 (pl_add src i0) off bs)|]; rewrite ?Hlen, ?Hsb2; try done.
  - lia.
  - cbn. lia.
  - by rewrite EU; apply fy_rest0.
  - destruct src; simpl; [| |done]; unfold w64; apply Z.mod_pos_bound; lia.
  - eapply pl_ok_same; [exact EU|]. eapply pl_ok_sub; [exact Hp|lia|lia|lia].
  - rewrite Hbs. apply list_fmap_ext. intros j x _. symmetry. by apply pl_byte_same.
  - intros r s3 (-> & t3 & d3 & W). pose proof (wn_step _ _ _ _ _ _ _ _ _ _ W) as P3.
    assert (Hbig : MAXFILE * BSIZE < 2 ^ 31) by (rewrite MAXFILE_eq, BSIZE_eq; lia).
    assert (R3 : same_rest (y_fs s) s3).
    { eapply same_rest_trans; [exact R1|]. destruct P3. by split. }
    pose proof (sr_sb _ _ R3) as S3.
    rewrite (proj2 (Z.ltb_lt 0 n1)) by lia. apply wp_bind. eapply wp_updf; [exact fy_at0|].
    rewrite fy_off0, (w32_small (off + n1)) by lia. cbn [set_yfs set_yft y_fs y_ft y_ofile y_args].
    apply wp_bind, wp_onf. cbn [y_fs].
    apply (iunlock_ok s3 ip (set_d d3 i2)); try done.
    { unfold iat. rewrite (wn_inodes _ _ _ _ _ _ _ _ _ _ W), list_lookup_insert_eq; [done|]. by eapply lookup_lt_Some. }
    { cbn. rewrite (fp_pid _ _ _ _ P3). done. }
    set (s4 := set_inodes _ s3).
    assert (Hf4 : ftx s4 t3) by (destruct (wn_ftx _ _ _ _ _ _ _ _ _ _ W); by split).
    apply wp_bind, wp_onf. cbn [y_fs set_yfs].
    eapply wp_mono; [apply (end_ok s4 t3 Hf4)|].
    + apply W.
    + destruct (fp_log _ _ _ _ P3) as (_ & _ & _ & E & _). change (f_lg s4) with (f_lg s3). rewrite E. exact O1.
    + change (f_um s4) with (f_um s3). rewrite (sr_um _ _ R3). apply fy_rest0.
    + change (f_sb s4) with (f_sb s3). rewrite S3. apply fy_rest0.
    + intros _ s5 (V' & A5 & R5 & I5 & HV). change (f_sb s4) with (f_sb s3) in HV. rewrite S3 in HV.
      rewrite Z.eqb_refl. cbn [negb]. apply wp_ret. split; [done|]. exists V', d3.
      assert (Hb : ∀ b, home (f_sb s2) b → V' b = t_view t3 b) by (by rewrite Hsb2).
      assert (Hin2 : 0 <= i_inum i2 < sb_ninodes (f_sb s2)) by (by rewrite Hsb2).
      pose proof (written_put s2 t _ ip i2 off bs s3 t3 d3 V' Hf2 Hin2 W Hb) as Hput.
      pose proof (ft_layout _ _ Hf2) as Hly. rewrite Hsb2 in Hly, Hput. cbn [t_view t i_inum i2 set_ilock i_d] in Hput.
      pose proof (wn_ok _ _ _ _ _ _ _ _ _ _ W) as Hok3. rewrite Hsb2 in Hok3.
      destruct (file_home _ _ _ _ _ Hly HV Hok3) as (K1 & K2 & K3).
      assert (R35 : same_rest (y_fs s) s5) by (eapply same_rest_trans; [exact R3|]; destruct R5; by split).
      assert (Hin5 : f_inodes s5 = <[ip := inode_after i d3]> (f_inodes (y_fs s))).
      { rewrite I5. unfold s4. cbn [f_inodes set_inodes]. rewrite (wn_inodes _ _ _ _ _ _ _ _ _ _ W). unfold s2.
        cbn [f_inodes set_inodes]. rewrite !list_insert_insert_eq, I1. done. }
      split.
      * split; cbn [set_yfs set_yft y_fs y_ft y_ofile y_args]; try done; rewrite ?Hlen; try done.
        -- split; try done; cbn [set_yfs set_yft y_fs y_ft].
           ++ rewrite list_lookup_insert_eq; [done|]. by eapply lookup_lt_Some.
           ++ split; try done; rewrite ?(sr_sb _ _ R35); cbn [y_fs i_d inode_after set_ilock set_d i_inum]; try done.
              ** unfold iat. rewrite Hin5, list_lookup_insert_eq; [done|]. by eapply lookup_lt_Some.
              ** destruct (wn_dense _ _ _ _ _ _ _ _ _ _ W ir_dense0) as [D1 D2]. split; [done|]. intros m Hm Hlt. rewrite K2. by apply D2.
              ** rewrite (dinode_home _ _ _ _ _ Hly HV) by done. pose proof (wn_inode _ _ _ _ _ _ _ _ _ _ W (i_inum i)) as Hd.
                 rewrite Hsb2 in Hd. rewrite Hd by done. by rewrite decide_True.
      * pose proof (wn_free _ _ _ _ _ _ _ _ _ _ W) as Hfr. rewrite Hsb2 in Hfr. cbn [t_view t] in Hfr. rewrite Hlen in Hfr.
        rewrite (nfree_ext _ (t_view t3) V'); [lia|]. intros b Hb0. by apply (used_home _ _ _ _ _ Hly HV).
Qed.

Lemma wrote_piece_app (s : sys) V f ff ip i off bs1 s1 V1 d1 bs2 s2 V2 d2 :
  wrote_piece s V f ff ip i off bs1 s1 V1 d1 →
  wrote_piece s1 V1 f (file_after ff (off + Z.of_nat (length bs1))) ip (inode_after i d1) (off + Z.of_nat (length bs1)) bs2 s2 V2 d2 →
  wrote_piece s V f ff ip i off (bs1 ++ bs2) s2 V2 d2.
Proof.
  intros [] []. rewrite (sr_sb _ _ wp_rest0) in wp_put1. split.
  - rewrite length_app, Nat2Z.inj_add, Z.add_assoc. exact wp_ready1.
  - by eapply same_rest_trans.
  - rewrite wp_ft1, wp_ft0, list_insert_insert_eq, length_app, Nat2Z.inj_add, Z.add_assoc. done.
  - destruct wp_of0, wp_of1. split; congruence.
  - rewrite wp_inodes1, wp_inodes0, list_insert_insert_eq. done.
  - by eapply put_bytes_app.
Qed.

(** Pieces of [n] bytes. *)
Definition pieces (n : Z) : Z := (n + write_max - 1) / write_max.

Lemma pieces_step n : 0 < n → let n1 := if write_max <? n then write_max else n in
  0 < n1 <= n ∧ pieces (n - n1) + 1 = pieces n ∧ 0 <= pieces (n - n1).
Proof.
  intros Hn n1. unfold n1, pieces. change write_max with 3072. destruct (Z.ltb_spec 3072 n) as [H|H].
  - split; [lia|]. replace (n + 3072 - 1) with (n - 3072 + 3072 - 1 + 1 * 3072) by lia. rewrite Z.div_add by done.
    split; [done|]. apply Z.div_pos; lia.
  - split; [lia|]. rewrite Z.sub_diag. split; [|done]. change ((0 + 3072 - 1) / 3072 + 1) with 1.
    apply (Z.div_unique_pos _ _ _ (n - 1)); lia.
Qed.

Lemma pieces_le n : 0 <= n → pieces n <= n / write_max + 1.
Proof.
  intros Hn. unfold pieces. change write_max with 3072. pose proof (Z.div_mod n 3072 ltac:(done)).
  pose proof (Z.mod_pos_bound n 3072 ltac:(done)). apply Z.lt_succ_r, Z.div_lt_upper_bound; lia.
Qed.

(** Everything a write of [bs] at the offset of an open file needs. *)
Record write_ready (s : sys) V f ff ip i off (src : place) (bs : list Z) : Prop := {
  wy_file : file_ready s V f ff ip i off;
  wy_mode : fl_writable ff ≠ 0;
  wy_some : bs ≠ [];
  wy_off : 0 <= off <= d_size (i_d i);
  wy_max : off + Z.of_nat (length bs) <= MAXFILE * BSIZE;
  wy_free : 8 * pieces (Z.of_nat (length bs)) <= nfree (f_sb (y_fs s)) V;
  wy_wf : pl_wf src;
  wy_ok : pl_ok (y_fs s) src (Z.of_nat (length bs));
  wy_bytes : Some <$> bs = pl_byte (y_fs s) src <$> seqZ 0 (Z.of_nat (length bs))
}.

Lemma filewrite_at_ok (s : sys) V f ff ip i off src addr bs :
  write_ready s V f ff ip i off src bs →
  wp (filewrite_at src addr f (Z.of_nat (length bs))) s (λ r s', r = Z.of_nat (length bs) ∧
    ∃ V' d', wrote_piece s V f ff ip i off bs s' V' d').
Proof.
  intros []. set (n := Z.of_nat (length bs)) in *.
  assert (Hbig : MAXFILE * BSIZE < 2 ^ 31) by (rewrite MAXFILE_eq, BSIZE_eq; lia).
  assert (Hn0 : 0 < n) by (unfold n; destruct bs; [done|simpl; lia]).
  unfold filewrite_at. apply wp_bind. eapply wp_getf; [apply wy_file0|].
  rewrite (proj2 (Z.eqb_neq _ _)) by done. rewrite (fy_type _ _ _ _ _ _ _ wy_file0). apply wp_bind.
  apply (wp_loop _ (λ k i0 s1, 0 <= i0 <= n ∧ Z.of_nat k = pieces (n - i0) ∧
    (i0 = 0 ∧ s1 = s ∨ 0 < i0 ∧ ∃ V1 d1, wrote_piece s V f ff ip i off (take (Z.to_nat i0) bs) s1 V1 d1 ∧
      8 * pieces (n - i0) <= nfree (f_sb (y_fs s)) V1)) _) with (n := Z.to_nat (pieces n)).
  2: { split; [lia|]. rewrite Z.sub_0_r. destruct (pieces_step n Hn0) as (_ & ? & ?). split; [lia|]. by left. }
  2: { pose proof (pieces_le n ltac:(lia)). destruct (pieces_step n Hn0) as (_ & ? & ?). lia. }
  intros k i0 s1 (Hi0 & Hk & Hst). destruct (decide (i0 = n)) as [->|Hlt].
  { unfold filewrite_body. rewrite Z.ltb_irrefl. apply wp_ret, wp_ret. rewrite Z.eqb_refl. split; [done|].
    destruct Hst as [[? _]|[_ (V1 & d1 & W & _)]]; [lia|]. rewrite take_ge in W by lia. eauto. }
  destruct (pieces_step (n - i0) ltac:(lia)) as (Hn1 & Hpc & Hpn). cbv zeta in *.
  set (n1 := if write_max <? n - i0 then write_max else n - i0) in *.
  set (bs1 := take (Z.to_nat n1) (drop (Z.to_nat i0) bs)).
  assert (Hl1 : Z.of_nat (length bs1) = n1) by (unfold bs1; rewrite length_take, length_drop; lia).
  assert (Htk : take (Z.to_nat (i0 + n1)) bs = take (Z.to_nat i0) bs ++ bs1)
    by (unfold bs1; rewrite Z2Nat.inj_add by lia; symmetry; apply take_take_drop).
  assert (Hlt0 : Z.of_nat (length (take (Z.to_nat i0) bs)) = i0) by (rewrite length_take; lia).
  assert (Hpo : ∀ s', same_rest (y_fs s) s' → pl_ok s' src n) by (intros s' R; eapply pl_ok_same; [apply R|done]).
  assert (Hby : ∀ s', same_rest (y_fs s) s' → Some <$> bs1 = pl_byte s' (pl_add src i0) <$> seqZ 0 n1)
    by (intros s' R; apply (chunk_bytes (y_fs s)); try done; try lia; apply R).
  destruct Hst as [[-> ->]|[Hpos (V1 & d1 & W1 & F1)]].
  - eapply wp_mono; [apply (filewrite_body_ok s V f ff ip i off src n 0 bs1); fold n1; try done; try lia|].
    + rewrite Z.sub_0_r in *. lia.
    + apply Hby. by split.
    + fold n1. intros r s2 (-> & V2 & d2 & W2 & F2). exists (Z.to_nat (pieces (n - (0 + n1)))).
      rewrite Z.add_0_l, Z.sub_0_r in *. split; [lia|]. split; [lia|]. split; [lia|]. right. split; [lia|].
      exists V2, d2. rewrite Htk. cbn [take app]. split; [done|lia].
  - pose proof (sr_sb _ _ (wp_rest _ _ _ _ _ _ _ _ _ _ _ W1)) as S1.
    pose proof (pb_size _ _ _ _ _ _ _ _ (wp_put _ _ _ _ _ _ _ _ _ _ _ W1)) as Hsz.
    pose proof (wp_ready _ _ _ _ _ _ _ _ _ _ _ W1) as Hr1. rewrite Hlt0 in Hr1, Hsz.
    assert (S8 : 8 <= nfree (f_sb (y_fs s1)) V1) by (rewrite S1; lia).
    eapply wp_mono; [apply (filewrite_body_ok s1 V1 f _ ip _ (off + i0) src n i0 bs1 Hr1); fold n1; try done; try lia|].
    + cbn [inode_after set_ilock set_d i_d]. lia.
    + apply Hpo, W1.
    + apply Hby, W1.
    + fold n1. intros r s2 (-> & V2 & d2 & W2 & F2). rewrite S1 in F2. exists (Z.to_nat (pieces (n - (i0 + n1)))).
      replace (n - (i0 + n1)) with (n - i0 - n1) by lia. split; [lia|]. split; [lia|]. split; [lia|]. right. split; [lia|].
      exists V2, d2. rewrite Htk. split; [|lia]. eapply wrote_piece_app; [exact W1|]. rewrite Hlt0. exact W2.
Qed.


End Spec.
