(* ===== verification/WitnessSys.v ===== *)
(** The file system of WitnessDir.v at rest, with its empty file open for writing:
    a system on which the theorems about open files run. *)

From S2P Require Import Prelude Riscv Memory Str Cache Bio BioList BioSpec Log LogSpec LogCrash BioUse Txn WitnessFs Fs FsSpec FsBlocks FsInode FsFile FsCopy FsIo FsUse Dir DirSpec WitnessDir File Sysfile PathSpec FileSpec.

(** A world without pipes and devices over the flat memory. *)
#[local] Instance flat_world : FileWorld flatmem := {
  fw_pipenew := mret None;
  fw_pipeclose _ _ := mret tt;
  fw_piperead _ _ _ := mret (-1);
  fw_pipewrite _ _ _ := mret (-1);
  fw_devread _ := None;
  fw_devwrite _ := None;
  fw_copyinstr _ _ := mret None
}.

Definition inode2 : inode := mk_inode ROOTDEV 1 1 0 0 1 file1.
Definition user2 : flatmem := mk_flat (wwrite ∅ 100 [72; 105; 33]) 4096.
Definition fs2 : fsst bst flatmem := mk_fsst _ _ lg1 sb1 (inode2 :: replicate 49 inode0) user2 ∅ 0 1.
Definition open2 : file := mk_file FD_INODE 1 1 1 0 0 0 0.
Definition sys2 : sysst bst flatmem := mk_sys _ _ fs2 (open2 :: replicate 99 file0) [Some 0%nat] [].

Lemma fs2_rest : at_rest fs2 (dblock disk1).
Proof.
  split.
  - apply lg1_settled.
  - split; vm_compute; done || (intros ?; discriminate).
  - intros b Hb. exact (ft_meta _ _ fs1_ftx b Hb).
  - vm_compute. discriminate.
  - done.
Qed.

Lemma fs2_inode : inode_ready fs2 (dblock disk1) 0 inode2.
Proof.
  split; try done.
  - apply file1_ok.
  - split; [done|]. intros n Hn Hlt. change (d_size (i_d inode2)) with 0 in Hlt. rewrite BSIZE_eq in Hlt. lia.
Qed.


(** Process 42. *)
Lemma swap_path_names_witness : ∃ ds, swap_path 42 sys2 = Ok (swap_prefix ++ ds, sys2) ∧ dec_val ds = 42 ∧ Forall (λ c, 48 <= c < 58) ds.
Proof. apply (swap_path_names 42 sys2). lia. Defined.
