(* ===== verification/Grep.v ===== *)
(** grep (user/grep.c): the matcher of regular expressions and the loop over the
    lines of a file.

    A string is the list of its characters, as in Str.v. *)

From S2P Require Import Prelude Str.

(** ** The matcher *)

Definition c_star : Z := 42.
Definition c_dot : Z := 46.
Definition c_dollar : Z := 36.
Definition c_caret : Z := 94.
Definition c_nl : Z := 10.

(** [matchstar], where [here] stands for [matchhere(re, ...)]. *)
Fixpoint matchstar (here : list Z → bool) (c : Z) (text : list Z) : bool :=
  if here text then true
  else
    match text with
    | [] => false
    | t :: text' => if truth t && ((t =? c) || (c =? c_dot)) then matchstar here c text' else false
    end.

Fixpoint matchhere (re text : list Z) : bool :=
  match re with
  | [] => true
  | c :: re1 =>
    if c =? 0 then true
    else if chr re1 =? c_star then
      match re1 with _ :: re2 => matchstar (matchhere re2) c text | [] => false end
    else if (c =? c_dollar) && (chr re1 =? 0) then chr text =? 0
    else if truth (chr text) && ((c =? c_dot) || (c =? chr text)) then matchhere re1 (tail text)
    else false
  end.

(** The [do] loop of [match]. *)
Fixpoint match_from (re text : list Z) : bool :=
  if matchhere re text then true
  else
    match text with
    | [] => false
    | t :: text' => if truth t then match_from re text' else false
    end.

Definition match_re (re text : list Z) : bool :=
  if chr re =? c_caret then matchhere (tail re) text else match_from re text.

(** ** The loop over lines *)

(** [strchr(p, '\n')]: the characters before it and those behind it. *)
Fixpoint strchr_nl (p : list Z) : option (list Z * list Z) :=
  match p with
  | [] => None
  | c :: p' =>
    if c =? 0 then None
    else if c =? c_nl then Some ([], p')
    else '(l, r) ← strchr_nl p'; Some (c :: l, r)
  end.

(** The inner [while]: what is written, and the rest of the buffer from [p] on. *)
Fixpoint grep_lines (fuel : nat) (pattern p : list Z) : list Z * list Z :=
  match fuel with
  | O => ([], p)
  | S k =>
    match strchr_nl p with
    | None => ([], p)
    | Some (line, rest) =>
      let '(o, r) := grep_lines k pattern rest in
      ((if match_re pattern line then line ++ [c_nl] else []) ++ o, r)
    end
  end.

(** [read(fd, buf+m, n)] of the [input] that is left: some of it, at least one
    character if there is one and [n] is not 0; [want] is what the file has ready. *)
Definition read_some (want : nat) (n : nat) (input : list Z) : list Z * list Z :=
  let k := min (max 1 want) n in (take k input, drop k input).

Definition bufsize : nat := 1024.

(** The outer [while]; [b] is the first [m] characters of [buf]. *)
Fixpoint grep_loop (wants : list nat) (pattern b input : list Z) : list Z :=
  match wants with
  | [] => []
  | want :: wants =>
    let '(got, input) := read_some want (bufsize - length b - 1) input in
    match got with
    | [] => []
    | _ =>
      let b := b ++ got in
      let '(o, b) := grep_lines (length b) pattern b in
      o ++ grep_loop wants pattern b input
    end
  end.

Definition grep (wants : list nat) (pattern input : list Z) : list Z := grep_loop wants pattern [] input.

(** ** What the patterns mean *)

(** The single characters a pattern character stands for. *)
Definition accepts (c t : Z) : Prop := c = c_dot ∨ c = t.

(** [lang re text rest]: the pattern matches [text], if [rest] follows it. *)
Inductive lang : list Z → list Z → list Z → Prop :=
| lang_empty rest : lang [] [] rest
| lang_end : lang [c_dollar] [] []
| lang_star c re ts text rest : Forall (accepts c) ts → lang re text rest → lang (c :: c_star :: re) (ts ++ text) rest
| lang_one c re t text rest :
    chr re ≠ c_star → ¬ (c = c_dollar ∧ re = []) → accepts c t → lang re text rest → lang (c :: re) (t :: text) rest.

Definition nonzero (s : list Z) : Prop := Forall (λ c, c ≠ 0) s.

Lemma matchstar_spec here c text : nonzero text →
  matchstar here c text = true ↔ ∃ ts rest, text = ts ++ rest ∧ Forall (accepts c) ts ∧ here rest = true.
Proof.
  induction text as [|t text IH]; intros Hz; cbn [matchstar].
  - destruct (here []) eqn:E.
    + split; [|done]. intros _. by exists [], [].
    + split; [done|]. intros (ts & rest & Ht & _ & Hh). symmetry in Ht. apply app_eq_nil in Ht as [_ ->]. congruence.
  - inversion Hz as [|? ? Ht Hz']; subst. destruct (here (t :: text)) eqn:E.
    { split; [|done]. intros _. by exists [], (t :: text). }
    rewrite (proj2 (truth_ne t)) by done. cbn [andb].
    destruct ((t =? c) || (c =? c_dot)) eqn:Ec.
    + rewrite IH by done. split.
      * intros (ts & rest & -> & Hts & Hh). exists (t :: ts), rest. split_and!; [done| |done]. constructor; [|done].
        apply orb_true_iff in Ec as [?%Z.eqb_eq|?%Z.eqb_eq]; [by right|by left].
      * intros (ts & rest & Hts & Hac & Hh). destruct ts as [|t' ts]; [simpl in Hts; subst; congruence|].
        injection Hts as <- ->. inversion Hac; subst. by exists ts, rest.
    + split; [done|]. intros (ts & rest & Hts & Hac & Hh). destruct ts as [|t' ts]; [simpl in Hts; subst; congruence|].
      injection Hts as <- ->. inversion Hac as [|? ? Ha _]; subst. apply orb_false_iff in Ec as [?%Z.eqb_neq ?%Z.eqb_neq]. destruct Ha; congruence.
Qed.

Lemma matchhere_spec re : ∀ text, nonzero re → nonzero text →
  matchhere re text = true ↔ ∃ pre post, text = pre ++ post ∧ lang re pre post.
Proof.
  induction re as [re IH] using (induction_ltof1 _ (@length Z)). unfold ltof in IH. intros text Hre Ht.
  destruct re as [|c re1]; cbn [matchhere].
  { split; [|done]. intros _. exists [], text. split; [done|constructor]. }
  inversion Hre as [|? ? Hc Hre1]; subst. rewrite (proj2 (Z.eqb_neq c 0)) by done.
  destruct (Z.eqb_spec (chr re1) c_star) as [Es|Es].
  - destruct re1 as [|d re2]; [done|]. cbn in Es. subst d. inversion Hre1 as [|? ? _ Hre2]; subst.
    rewrite matchstar_spec by done. split.
    + intros (ts & rest & -> & Hts & Hh). apply Forall_app in Ht as [_ Hrest].
      apply IH in Hh as (pre & post & -> & Hl); [|simpl; lia|done|done]. exists (ts ++ pre), post.
      split; [by rewrite app_assoc|]. by constructor.
    + intros (pre & post & -> & Hl). inversion Hl as [| |c' re' ts text' rest' Hts Hl' E1 E2|c' re' t text' rest' Hn Hd Ha Hl' E1 E2]; subst; [|by destruct Hn].
      exists ts, (text' ++ post). split_and!; [by rewrite app_assoc|done|]. rewrite <- app_assoc in Ht. apply Forall_app in Ht as [_ ?].
      apply IH; [simpl; lia|done|done|]. by exists text', post.
  - destruct ((c =? c_dollar) && (chr re1 =? 0)) eqn:Ed.
    + apply andb_true_iff in Ed as [->%Z.eqb_eq E0%Z.eqb_eq].
      assert (re1 = []) as -> by (destruct re1 as [|x ?]; [done|]; cbn in E0; inversion Hre1; subst; done).
      split.
      * intros E%Z.eqb_eq. destruct text as [|t text]; [|cbn in E; inversion Ht; subst; done]. exists [], []. split; [done|constructor].
      * intros (pre & post & -> & Hl). inversion Hl as [| |c' re' ts text' rest' Hts Hl' E1 E2|c' re' t text' rest' Hn Hd Ha Hl' E1 E2]; subst; [done|]. by destruct Hd.
    + split.
      * destruct (truth (chr text) && ((c =? c_dot) || (c =? chr text))) eqn:Em; [|done]. intros Hm.
        apply andb_true_iff in Em as [Et Em]. destruct text as [|t text]; [done|]. cbn [chr head default tail] in *. inversion Ht; subst.
        apply IH in Hm as (pre & post & -> & Hl); [|simpl; lia|done|done]. exists (t :: pre), post. split; [done|].
        constructor; [done| | |done].
        -- intros [-> ->]. done.
        -- apply orb_true_iff in Em as [?%Z.eqb_eq|?%Z.eqb_eq]; [by left|by right].
      * intros (pre & post & -> & Hl). inversion Hl as [| |c' re' ts text' rest' Hts Hl' E1 E2|c' re' t text' rest' Hn Hd Ha Hl' E1 E2]; subst; [done|done|].
        change (chr ((t :: text') ++ post)) with t. change (list.tail ((t :: text') ++ post)) with (text' ++ post). inversion Ht as [|? ? Htz Htl]; subst. rewrite (proj2 (truth_ne t)) by done. cbn [andb].
        assert ((c =? c_dot) || (c =? t) = true) as ->.
        { apply orb_true_iff. destruct Ha; [left|right]; by apply Z.eqb_eq. }
        apply IH; [simpl; lia|done|done|]. by exists text', post.
Qed.

Lemma match_from_spec re text : nonzero re → nonzero text →
  match_from re text = true ↔ ∃ a pre post, text = a ++ pre ++ post ∧ lang re pre post.
Proof.
  intros Hre. induction text as [|t text IH]; intros Hz; cbn [match_from].
  - pose proof (matchhere_spec re [] Hre Hz) as Hs. destruct (matchhere re []).
    + split; [|done]. intros _. destruct (proj1 Hs eq_refl) as (pre & post & ? & ?). by exists [], pre, post.
    + split; [done|]. intros (a & pre & post & E & Hl). symmetry in E. apply app_eq_nil in E as [_ E]. apply Hs. by exists pre, post.
  - pose proof (matchhere_spec re (t :: text) Hre Hz) as Hs. inversion Hz as [|? ? Ht Hz']; subst.
    destruct (matchhere re (t :: text)).
    { split; [|done]. intros _. destruct (proj1 Hs eq_refl) as (pre & post & ? & ?). by exists [], pre, post. }
    rewrite (proj2 (truth_ne t)) by done. rewrite IH by done. split.
    + intros (a & pre & post & -> & Hl). by exists (t :: a), pre, post.
    + intros (a & pre & post & E & Hl). destruct a as [|t' a]; [by discriminate (proj2 Hs (ex_intro _ pre (ex_intro _ post (conj E Hl))))|]. injection E as <- ->. by exists a, pre, post.
Qed.

(** C32. The matcher of grep finds a match exactly when there is one: some part of
    the text, at its beginning if the pattern starts with ^, belongs to the
    language of the pattern. *)
Theorem match_re_spec re text : nonzero re → nonzero text →
  match_re re text = true ↔
    ∃ a pre post, text = a ++ pre ++ post ∧
      if chr re =? c_caret then a = [] ∧ lang (tail re) pre post else lang re pre post.
Proof.
  intros Hre Hz. unfold match_re. destruct (Z.eqb_spec (chr re) c_caret) as [E|E].
  - destruct re as [|c re]; [done|]. inversion Hre; subst. cbn [tail]. rewrite matchhere_spec by done. split.
    + intros (pre & post & -> & Hl). by exists [], pre, post.
    + intros (a & pre & post & -> & -> & Hl). by exists pre, post.
  - by apply match_from_spec.
Qed.

(** ["a.*c"] in ["xabbcd"]. *)
Lemma match_re_spec_witness :
  ∃ a pre post, [120; 97; 98; 98; 99; 100] = a ++ pre ++ post ∧
    if chr [97; 46; 42; 99] =? c_caret then a = [] ∧ lang (tail [97; 46; 42; 99]) pre post else lang [97; 46; 42; 99] pre post.
Proof.
  apply (match_re_spec [97; 46; 42; 99] [120; 97; 98; 98; 99; 100]); [repeat constructor; done|repeat constructor; done|reflexivity].
Defined.

(** ** Lines *)

(** The complete lines of a text, and what follows the last of them; [cur] is the
    beginning of the first line. *)
Fixpoint lines_of (cur text : list Z) : list (list Z) :=
  match text with
  | [] => []
  | c :: text' => if c =? c_nl then cur :: lines_of [] text' else lines_of (cur ++ [c]) text'
  end.
Fixpoint last_line (cur text : list Z) : list Z :=
  match text with
  | [] => cur
  | c :: text' => if c =? c_nl then last_line [] text' else last_line (cur ++ [c]) text'
  end.

Definition chosen (pattern : list Z) (ls : list (list Z)) : list Z :=
  concat ((λ l, l ++ [c_nl]) <$> filter (λ l, match_re pattern l = true) ls).

Lemma lines_app a : ∀ cur b, lines_of cur (a ++ b) = lines_of cur a ++ lines_of (last_line cur a) b.
Proof.
  induction a as [|c a IH]; intros cur b; [done|]. cbn [app lines_of last_line]. destruct (c =? c_nl); rewrite IH; done.
Qed.

Lemma last_app a : ∀ cur b, last_line cur (a ++ b) = last_line (last_line cur a) b.
Proof. induction a as [|c a IH]; intros cur b; [done|]. cbn [app last_line]. by destruct (c =? c_nl). Qed.

Lemma last_line_idem a : ∀ cur, c_nl ∉ cur → c_nl ∉ last_line cur a.
Proof.
  induction a as [|c a IH]; intros cur Hc; [done|]. cbn [last_line]. destruct (Z.eqb_spec c c_nl).
  - apply IH, not_elem_of_nil.
  - apply IH. rewrite elem_of_app, list_elem_of_singleton. intros [?|?]; [done|]. congruence.
Qed.

Lemma no_nl_lines l : ∀ cur, c_nl ∉ l → lines_of cur l = [] ∧ last_line cur l = cur ++ l.
Proof.
  induction l as [|c l IH]; intros cur Hl; [by rewrite app_nil_r|]. apply not_elem_of_cons in Hl as [Hc Hl].
  cbn [lines_of last_line]. rewrite (proj2 (Z.eqb_neq _ _)) by congruence. destruct (IH (cur ++ [c]) Hl) as [-> ->].
  by rewrite <- app_assoc.
Qed.

Lemma strchr_nl_spec p : nonzero p →
  match strchr_nl p with
  | None => c_nl ∉ p
  | Some (l, r) => p = l ++ c_nl :: r ∧ c_nl ∉ l
  end.
Proof.
  induction p as [|c p IH]; intros Hz; cbn [strchr_nl]; [apply not_elem_of_nil|]. inversion Hz as [|? ? Hc Hz']; subst.
  rewrite (proj2 (Z.eqb_neq c 0)) by done. destruct (Z.eqb_spec c c_nl) as [->|Hn]; [split; [done|apply not_elem_of_nil]|].
  specialize (IH Hz'). destruct (strchr_nl p) as [[l r]|]; cbn [mbind option_bind].
  - destruct IH as [-> Hl]. split; [done|]. apply not_elem_of_cons. split; [congruence|done].
  - apply not_elem_of_cons. split; [congruence|done].
Qed.

Lemma lines_step l r : c_nl ∉ l → lines_of [] (l ++ c_nl :: r) = l :: lines_of [] r ∧ last_line [] (l ++ c_nl :: r) = last_line [] r.
Proof.
  intros Hl. rewrite lines_app, last_app. destruct (no_nl_lines l [] Hl) as [-> ->]. cbn [app lines_of last_line].
  by rewrite Z.eqb_refl.
Qed.

Lemma chosen_app pattern a b : chosen pattern (a ++ b) = chosen pattern a ++ chosen pattern b.
Proof. unfold chosen. by rewrite list.filter_app, fmap_app, concat_app. Qed.

(** The inner loop prints the chosen lines of the buffer. *)
Lemma grep_lines_spec pattern n : ∀ p, nonzero p → (length p <= n)%nat →
  grep_lines n pattern p = (chosen pattern (lines_of [] p), last_line [] p).
Proof.
  induction n as [|n IH]; intros p Hz Hn.
  { destruct p; [done|simpl in Hn; lia]. }
  cbn [grep_lines]. pose proof (strchr_nl_spec p Hz) as Hs. destruct (strchr_nl p) as [[l r]|].
  - destruct Hs as [-> Hl]. apply Forall_app in Hz as [_ Hz]. inversion Hz; subst. rewrite length_app in Hn. simpl in Hn.
    rewrite IH by (done || lia). destruct (lines_step l r Hl) as [-> ->].
    change (l :: lines_of [] r) with ([l] ++ lines_of [] r). rewrite chosen_app. do 2 f_equal. unfold chosen.
    rewrite list.filter_cons. destruct (match_re pattern l); [rewrite decide_True by done|rewrite decide_False by done]; [|done].
    cbn. by rewrite app_nil_r.
  - destruct (no_nl_lines p [] Hs) as [-> ->]. done.
Qed.

(** Every line fits in the buffer with its newline. *)
Definition short_lines (cur text : list Z) : Prop :=
  Forall (λ l, (length l <= bufsize - 2)%nat) (lines_of cur text ++ [last_line cur text]).

Lemma short_app cur a b : short_lines cur (a ++ b) → short_lines (last_line cur a) b ∧ Forall (λ l, (length l <= bufsize - 2)%nat) (lines_of cur a).
Proof.
  unfold short_lines. rewrite lines_app, last_app, <- app_assoc. intros H. apply Forall_app in H as [H1 H2]. done.
Qed.

Lemma short_cur b : ∀ cur, short_lines cur b → c_nl ∉ cur → (length cur <= bufsize - 2)%nat.
Proof.
  unfold short_lines. induction b as [|c b IH]; intros cur H Hc; cbn [lines_of last_line app] in H; [by inversion H|].
  destruct (Z.eqb_spec c c_nl); [by inversion H|]. apply IH in H.
  - rewrite length_app in H. lia.
  - rewrite elem_of_app, list_elem_of_singleton. intros [?|?]; congruence.
Qed.

Lemma grep_loop_spec pattern wants : ∀ b input, nonzero b → c_nl ∉ b → nonzero input → (length input < length wants)%nat →
  short_lines b input → grep_loop wants pattern b input = chosen pattern (lines_of b input).
Proof.
  induction wants as [|want wants IH]; intros b input Hzb Hb Hz Hlen Hsh; [simpl in Hlen; lia|]. cbn [grep_loop].
  pose proof (short_cur _ _ Hsh Hb) as Hlb. unfold read_some. set (k := min (max 1 want) (bufsize - length b - 1)).
  assert (Hk : (0 < k)%nat) by (unfold k, bufsize in *; lia).
  destruct input as [|c input]; [by rewrite take_nil|].
  assert (Ei : c :: input = take k (c :: input) ++ drop k (c :: input)) by (symmetry; apply take_drop).
  assert (Hg : take k (c :: input) ≠ []) by (destruct k; [lia|done]).
  generalize dependent (take k (c :: input)). intros got. generalize (drop k (c :: input)). intros rest Ei Hg. rewrite Ei in *.
  destruct got as [|g got'] eqn:Eg; [done|]. rewrite <- Eg in *. clear Hg. apply Forall_app in Hz as [Hzg Hzr].
  rewrite grep_lines_spec by (done || by apply Forall_app).
  assert (El : ∀ x, lines_of [] (b ++ x) = lines_of b x ∧ last_line [] (b ++ x) = last_line b x).
  { intros x. rewrite lines_app, last_app. by destruct (no_nl_lines b [] Hb) as [-> ->]. }
  destruct (El got) as [-> ->]. rewrite lines_app, chosen_app. f_equal.
  assert (Hlr : (length rest < length wants)%nat).
  { rewrite length_app in Hlen. rewrite Eg in Hlen at 1. simpl in Hlen. lia. }
  apply IH; try done.
  - clear -Hzb Hzg. revert b Hzb. induction Hzg as [|x got Hx _ IHg]; intros b Hzb; [done|]. cbn [last_line].
    destruct (x =? c_nl); apply IHg; [constructor|]. apply Forall_app. split; [done|]. by constructor.
  - by apply last_line_idem.
  - by apply short_app in Hsh as [? _].
Qed.

(** C33. grep writes exactly the matching lines of its input, in order and whatever
    portions the input arrives in, if no line is longer than its buffer can hold;
    a last line without newline is not looked at. *)
Theorem grep_filters_lines wants pattern input :
  nonzero input → (length input < length wants)%nat → short_lines [] input →
  grep wants pattern input = chosen pattern (lines_of [] input).
Proof. intros. apply grep_loop_spec; try done; [constructor|apply not_elem_of_nil]. Qed.

(** Lines "ab", "c", "xa" and pattern "a", read two characters at a time. *)
Lemma grep_filters_lines_witness :
  grep (replicate 10 2%nat) [97] [97; 98; 10; 99; 10; 120; 97; 10] = chosen [97] (lines_of [] [97; 98; 10; 99; 10; 120; 97; 10]) ∧
  chosen [97] (lines_of [] [97; 98; 10; 99; 10; 120; 97; 10]) = [97; 98; 10; 120; 97; 10].
Proof.
  split; [|reflexivity]. apply (grep_filters_lines (replicate 10 2%nat) [97]); [repeat constructor; done|simpl; lia|].
  repeat constructor; vm_compute; lia.
Defined.
