(* ===== verification/Sh.v ===== *)
(** The command parser of the shell, user/sh.c.

    A command line is a zero-terminated string in a buffer; the parser walks
    over it with indices for its [char*]s, and builds a tree of commands out of
    [malloc]ed structures that point into the buffer.  [nulterminate] then
    writes a zero behind every word.  The structures are the cells of
    [sh_heap], a pointer to one its index. *)

From S2P Require Import Prelude Str Sysfile.

Definition MAXARGS : nat := 10.

(** The five structures; the [type] field is the constructor, a null pointer is [None]. *)
Inductive cmd :=
| EXEC (argv eargv : list (option nat))
| REDIR (sub : nat) (file efile : nat) (mode fd : Z)
| PIPE (left right : nat)
| LIST (left right : nat)
| BACK (sub : nat).

(** [sh_free]: how many more structures [malloc] has memory for. *)
Record sh := Sh { sh_buf : list Z; sh_heap : list cmd; sh_free : nat }.

(** [*s]. *)
Definition deref (s : nat) : M sh Z :=
  b ← gets sh_buf; match b !! s with Some c => mret c | None => wild (Z.of_nat s) end.

(** [*s = c]. *)
Definition poke (s : nat) (c : Z) : M sh unit :=
  b ← gets sh_buf;
  if decide (s < length b)%nat then modify (λ st, Sh (<[s := c]> b) (sh_heap st) (sh_free st)) else wild (Z.of_nat s).

(** [strchr(s, c) != 0]. *)
Fixpoint strchr (s : list Z) (c : Z) : bool :=
  match s with
  | [] => false
  | x :: s' => if x =? c then true else strchr s' c
  end.

(** [malloc] with the stores that fill the new structure. [malloc] returns null
    when it gets no more memory, and nothing looks at that before the stores. *)
Definition new_cmd (c : cmd) : M sh nat :=
  st ← gets id;
  match sh_free st with
  | O => wild 0
  | S k => modify (λ st, Sh (sh_buf st) (sh_heap st ++ [c]) k);; mret (length (sh_heap st))
  end.

Definition execcmd : M sh nat := new_cmd (EXEC (replicate MAXARGS None) (replicate MAXARGS None)).
Definition redircmd (sub file efile : nat) (mode fd : Z) : M sh nat := new_cmd (REDIR sub file efile mode fd).
Definition pipecmd (left right : nat) : M sh nat := new_cmd (PIPE left right).
Definition listcmd (left right : nat) : M sh nat := new_cmd (LIST left right).
Definition backcmd (sub : nat) : M sh nat := new_cmd (BACK sub).

(** " \t\r\n\v" and "<|>&;()". *)
Definition whitespace : list Z := [32; 9; 13; 10; 11].
Definition symbols : list Z := [60; 124; 62; 38; 59; 40; 41].

Definition c_bar : Z := 124.
Definition c_open : Z := 40.
Definition c_close : Z := 41.
Definition c_semi : Z := 59.
Definition c_amp : Z := 38.
Definition c_lt : Z := 60.
Definition c_gt : Z := 62.
Definition c_plus : Z := 43.
Definition c_a : Z := 97.

(** [while(s < es && p( *s )) s++]. *)
Definition skip (p : Z → bool) (s es : nat) : M sh nat :=
  loop (S (es - s)) (λ s,
    if decide (s < es)%nat then c ← deref s; mret (if p c then inl (S s) else inr s) else mret (inr s)) s.

(** The token, where it starts and ends, and the next [*ps]. *)
Definition gettoken (s es : nat) : M sh (Z * nat * nat * nat) :=
  s ← skip (strchr whitespace) s es;
  let q := s in
  c ← deref s;
  '(ret, s) ← (if c =? 0 then mret (c, s)
    else if strchr [c_bar; c_open; c_close; c_semi; c_amp; c_lt] c then mret (c, S s)
    else if c =? c_gt then
      d ← deref (S s); mret (if d =? c_gt then (c_plus, S (S s)) else (c, S s))
    else
      s ← skip (λ c, negb (strchr whitespace c) && negb (strchr symbols c)) s es; mret (c_a, s));
  let eq := s in
  s ← skip (strchr whitespace) s es;
  mret (ret, q, eq, s).

Definition peek (s es : nat) (toks : list Z) : M sh (bool * nat) :=
  s ← skip (strchr whitespace) s es;
  c ← deref s;
  mret (truth c && strchr toks c, s).

Definition parseredirs_body (es : nat) '((cmd, s) : nat * nat) : M sh (nat * nat + nat * nat) :=
  '(more, s) ← peek s es [c_lt; c_gt];
  if negb more then mret (inr (cmd, s)) else
  '(tok, _, _, s) ← gettoken s es;
  '(tok2, q, eq, s) ← gettoken s es;
  if negb (tok2 =? c_a) then panic "missing file for redirection" else
  cmd ← (if tok =? c_lt then redircmd cmd q eq O_RDONLY 0
    else if tok =? c_gt then redircmd cmd q eq (Z.lor (Z.lor O_WRONLY O_CREATE) O_TRUNC) 1
    else if tok =? c_plus then redircmd cmd q eq (Z.lor O_WRONLY O_CREATE) 1
    else mret cmd);
  mret (inl (cmd, s)).

Definition parseredirs (cmd s es : nat) : M sh (nat * nat) :=
  loop (S (es - s)) (parseredirs_body es) (cmd, s).

(** [cmd->argv[argc] = q; cmd->eargv[argc] = eq]. *)
Definition set_arg (cmd argc : nat) (q eq : option nat) : M sh unit :=
  st ← gets id;
  match sh_heap st !! cmd with
  | Some (EXEC argv eargv) =>
    if decide (argc < MAXARGS)%nat then
      modify (λ st, Sh (sh_buf st) (<[cmd := EXEC (<[argc := q]> argv) (<[argc := eq]> eargv)]> (sh_heap st)) (sh_free st))
    else wild (Z.of_nat cmd)
  | _ => wild (Z.of_nat cmd)
  end.

(** The words of a command; [ret] is [cmd] with the redirections around it. *)
Definition parseexec_body (cmd es : nat) '((ret, argc, s) : nat * nat * nat) : M sh (nat * nat * nat + nat * nat * nat) :=
  '(stop, s) ← peek s es [c_bar; c_close; c_amp; c_semi];
  if (stop : bool) then mret (inr (ret, argc, s)) else
  '(tok, q, eq, s) ← gettoken s es;
  if tok =? 0 then mret (inr (ret, argc, s)) else
  if negb (tok =? c_a) then panic "syntax" else
  set_arg cmd argc (Some q) (Some eq);;
  let argc := S argc in
  if decide (MAXARGS <= argc)%nat then panic "too many args" else
  '(ret, s) ← parseredirs ret s es;
  mret (inl (ret, argc, s)).

Definition parseline_body (es : nat) '((cmd, s) : nat * nat) : M sh (nat * nat + nat * nat) :=
  '(more, s) ← peek s es [c_amp];
  if negb more then mret (inr (cmd, s)) else
  '(_, _, _, s) ← gettoken s es;
  cmd ← backcmd cmd;
  mret (inl (cmd, s)).

Fixpoint parseline (fuel : nat) (s es : nat) : M sh (nat * nat) :=
  match fuel with
  | O => λ _, OutOfFuel
  | S fuel =>
    '(cmd, s) ← parsepipe fuel s es;
    '(cmd, s) ← loop (S (es - s)) (parseline_body es) (cmd, s);
    '(more, s) ← peek s es [c_semi];
    if negb more then mret (cmd, s) else
    '(_, _, _, s) ← gettoken s es;
    '(cmd2, s) ← parseline fuel s es;
    cmd ← listcmd cmd cmd2;
    mret (cmd, s)
  end
with parsepipe (fuel : nat) (s es : nat) : M sh (nat * nat) :=
  match fuel with
  | O => λ _, OutOfFuel
  | S fuel =>
    '(cmd, s) ← parseexec fuel s es;
    '(more, s) ← peek s es [c_bar];
    if negb more then mret (cmd, s) else
    '(_, _, _, s) ← gettoken s es;
    '(cmd2, s) ← parsepipe fuel s es;
    cmd ← pipecmd cmd cmd2;
    mret (cmd, s)
  end
with parseexec (fuel : nat) (s es : nat) : M sh (nat * nat) :=
  match fuel with
  | O => λ _, OutOfFuel
  | S fuel =>
    '(block, s) ← peek s es [c_open];
    if (block : bool) then parseblock fuel s es else
    ret ← execcmd;
    let cmd := ret in
    '(ret, s) ← parseredirs ret s es;
    '(ret, argc, s) ← loop (S (es - s)) (parseexec_body cmd es) (ret, 0%nat, s);
    set_arg cmd argc None None;;
    mret (ret, s)
  end
with parseblock (fuel : nat) (s es : nat) : M sh (nat * nat) :=
  match fuel with
  | O => λ _, OutOfFuel
  | S fuel =>
    '(ok, s) ← peek s es [c_open];
    if negb ok then panic "parseblock" else
    '(_, _, _, s) ← gettoken s es;
    '(cmd, s) ← parseline fuel s es;
    '(ok, s) ← peek s es [c_close];
    if negb ok then panic "syntax - missing )" else
    '(_, _, _, s) ← gettoken s es;
    parseredirs cmd s es
  end.

Definition nulterminate_arg (argv eargv : list (option nat)) (i : nat) : M sh (nat + unit) :=
  match argv !! i with
  | Some (Some _) =>
    match eargv !! i with
    | Some (Some e) => poke e 0;; mret (inl (S i))
    | _ => wild 0
    end
  | Some None => mret (inr tt)
  | None => wild 0
  end.

Fixpoint nulterminate (fuel : nat) (cmd : nat) : M sh unit :=
  match fuel with
  | O => λ _, OutOfFuel
  | S fuel =>
    st ← gets id;
    match sh_heap st !! cmd with
    | None => wild (Z.of_nat cmd)
    | Some (EXEC argv eargv) => loop (S MAXARGS) (nulterminate_arg argv eargv) 0%nat
    | Some (REDIR sub _ efile _ _) => nulterminate fuel sub;; poke efile 0
    | Some (PIPE l r) => nulterminate fuel l;; nulterminate fuel r
    | Some (LIST l r) => nulterminate fuel l;; nulterminate fuel r
    | Some (BACK sub) => nulterminate fuel sub
    end
  end.

(** [strlen] of the buffer: where its first zero is. *)
Definition buf_strlen : M sh nat :=
  b ← gets sh_buf;
  loop (S (length b)) (λ n, c ← deref n; mret (if truth c then inl (S n) else inr n)) 0%nat.

(** Four nested calls of the parser per character of the line are enough. *)
Definition parse_fuel (es : nat) : nat := 4 * es + 4.

Definition parsecmd : M sh nat :=
  es ← buf_strlen;
  '(cmd, s) ← parseline (parse_fuel es) 0 es;
  '(_, s) ← peek s es [];
  if negb (s =? es)%nat then panic "syntax" else
  h ← gets sh_heap;
  nulterminate (S (length h)) cmd;;
  mret cmd.
