(* ===== verification/ShLex.v ===== *)
(** The tokens of a command line, and that [peek] and [gettoken] of user/sh.c
    walk over them. *)

From S2P Require Import Prelude Str Sysfile Sh.

Definition is_ws : Z → bool := strchr whitespace.
Definition is_word (c : Z) : bool := negb (strchr whitespace c) && negb (strchr symbols c).

(** A token: what [gettoken] calls it, and the characters it is made of. *)
Record tok := Tok { t_kind : Z; t_q : nat; t_eq : nat }.

Definition flush (q : option nat) (s : nat) : list tok :=
  match q with Some q => [Tok c_a q s] | None => [] end.

(** The tokens of the characters [l] that start at index [s]; [q] is where the word
    that reaches up to [s] began. *)
Fixpoint lex (q : option nat) (s : nat) (l : list Z) : list tok :=
  match l with
  | [] => flush q s
  | c :: l' =>
    if is_word c then lex (Some (default s q)) (S s) l'
    else flush q s ++
      (if is_ws c then lex None (S s) l'
       else if c =? c_gt then
         match l' with
         | d :: l'' => if d =? c_gt then Tok c_plus s (S (S s)) :: lex None (S (S s)) l''
                       else Tok c s (S s) :: lex None (S s) l'
         | [] => [Tok c s (S s)]
         end
       else Tok c s (S s) :: lex None (S s) l')
  end.

(** The character [peek] sees in front of a token. *)
Definition sees (toks : list Z) (ts : list tok) : bool :=
  match ts with
  | t :: _ => strchr toks (if t_kind t =? c_plus then c_gt else t_kind t)
  | [] => false
  end.

Lemma strchr_In s c : strchr s c = true ↔ c ∈ s.
Proof.
  induction s as [|x s IH]; cbn [strchr]; [split; [done|by intros ?%not_elem_of_nil]|]. rewrite elem_of_cons.
  destruct (Z.eqb_spec x c) as [->|Hne]; [naive_solver|]. rewrite IH. naive_solver.
Qed.

(** How many characters at the front satisfy [p]. *)
Fixpoint span (p : Z → bool) (l : list Z) : nat :=
  match l with
  | c :: l' => if p c then S (span p l') else O
  | [] => O
  end.

Lemma span_le p l : (span p l <= length l)%nat.
Proof. induction l as [|c l IH]; simpl; [lia|]. destruct (p c); lia. Qed.

Lemma span_stop p l c : drop (span p l) l !! 0%nat = Some c → p c = false.
Proof. induction l as [|x l IH]; simpl; [done|]. destruct (p x) eqn:E; [done|]. simpl. by intros [= ->]. Qed.

Lemma span_in p l i c : (i < span p l)%nat → l !! i = Some c → p c = true.
Proof.
  revert i. induction l as [|x l IH]; intros i; simpl; [lia|]. destruct (p x) eqn:E; [|lia].
  destruct i as [|i]; simpl; [by intros _ [= ->]|]. intros Hi. apply IH. lia.
Qed.

Lemma lex_ws l : ∀ s, lex None s l = lex None (s + span is_ws l) (drop (span is_ws l) l).
Proof.
  induction l as [|c l IH]; intros s; [by rewrite Nat.add_0_r|]. cbn [span]. destruct (is_ws c) eqn:E.
  - cbn [lex drop]. unfold is_word. unfold is_ws in E. rewrite E. cbn [negb andb flush app]. unfold is_ws. rewrite E, IH.
    f_equal. unfold is_ws. lia.
  - cbn [drop]. by rewrite Nat.add_0_r.
Qed.

Lemma lex_word l : ∀ s q, lex (Some q) s l = Tok c_a q (s + span is_word l) :: lex None (s + span is_word l) (drop (span is_word l) l).
Proof.
  induction l as [|c l IH]; intros s q; cbn [lex span]; [by rewrite Nat.add_0_r|]. destruct (is_word c) eqn:E.
  - rewrite IH. cbn [default id drop]. by replace (S s + span is_word l)%nat with (s + S (span is_word l))%nat by lia.
  - cbn [drop]. rewrite Nat.add_0_r. cbn [flush app lex]. by rewrite E.
Qed.

Lemma length_lex l : ∀ q s, (length (lex q s l) <= length l + (if q then 1 else 0))%nat.
Proof.
  induction l as [l IH] using (well_founded_induction (well_founded_ltof _ (@length Z))). intros q s.
  destruct l as [|c l]; cbn [lex length]; [by destruct q|].
  assert (IH1 : ∀ q s, (length (lex q s l) <= length l + (if q then 1 else 0))%nat) by (intros; apply IH; unfold ltof; simpl; lia).
  destruct (is_word c); [specialize (IH1 (Some (default s q)) (S s)); simpl in *; destruct q; lia|].
  rewrite length_app. assert (length (flush q s) = (if q then 1 else 0))%nat as -> by by destruct q.
  specialize (IH1 None (S s)). cbv iota in IH1. destruct (is_ws c); [cbn [length]; lia|]. destruct (c =? c_gt); [|simpl; lia].
  destruct l as [|d l]; [simpl; lia|]. destruct (d =? c_gt); [|simpl in *; lia].
  assert (length (lex None (S (S s)) l) <= length l + 0)%nat by (apply (IH l); unfold ltof; simpl; lia). simpl. lia.
Qed.

(** What is known of the tokens of a line: they are the words, and the symbols. *)
Definition kinds : list Z := [c_a; c_plus; c_gt; c_bar; c_open; c_close; c_semi; c_amp; c_lt].

Lemma lex_kinds l : 0 ∉ l → ∀ q s, Forall (λ t, t_kind t ∈ kinds) (lex q s l).
Proof.
  induction l as [l IH] using (well_founded_induction (well_founded_ltof _ (@length Z))). intros H0 q s.
  assert (Hfl : Forall (λ t, t_kind t ∈ kinds) (flush q s)) by (destruct q; repeat constructor; cbn; set_solver).
  destruct l as [|c l]; cbn [lex]; [done|]. apply not_elem_of_cons in H0 as [Hc H0].
  assert (IH1 : ∀ q s, Forall (λ t, t_kind t ∈ kinds) (lex q s l)) by (intros; apply IH; [unfold ltof; simpl; lia|done]).
  destruct (is_word c) eqn:Ew; [done|]. apply Forall_app; split; [done|]. destruct (is_ws c) eqn:Es; [done|].
  assert (Hk : c ∈ kinds).
  { unfold is_word in Ew. unfold is_ws in Es. rewrite Es in Ew. cbn [negb andb] in Ew. apply negb_false_iff, strchr_In in Ew.
    unfold symbols in Ew. unfold kinds, c_gt, c_bar, c_open, c_close, c_semi, c_amp, c_lt. set_solver. }
  destruct (c =? c_gt); [|by constructor]. destruct l as [|d l]; [by apply list.Forall_singleton|].
  destruct (d =? c_gt); [|by constructor]. constructor; [cbn; set_solver|]. apply IH; [unfold ltof; simpl; lia|set_solver].
Qed.

(** The kinds of characters, as [gettoken] tells them apart. *)
Definition singles : list Z := [c_bar; c_open; c_close; c_semi; c_amp; c_lt].

Lemma symbols_iff c : strchr symbols c = true ↔ strchr singles c = true ∨ c = c_gt.
Proof. rewrite !strchr_In. unfold symbols, singles. set_solver. Qed.

Lemma single_char c : strchr singles c = true → is_word c = false ∧ is_ws c = false ∧ c ≠ c_gt ∧ c ≠ c_plus ∧ c ≠ c_a ∧ c ≠ 0.
Proof.
  rewrite strchr_In. unfold singles. rewrite !elem_of_cons. intros H.
  destruct H as [->|[->|[->|[->|[->|[->|H]]]]]]; [by vm_compute..|]. by apply not_elem_of_nil in H.
Qed.

Lemma word_char c : is_ws c = false → strchr singles c = false → c ≠ c_gt → is_word c = true.
Proof.
  intros Hw Hs Hg. unfold is_word. unfold is_ws in Hw. rewrite Hw. cbn [negb andb]. destruct (strchr symbols c) eqn:E; [|done].
  apply symbols_iff in E as [E|E]; [by rewrite E in Hs|done].
Qed.

(** ** The buffer during the parse *)

Section Line.
Context (line junk : list Z) (Hline : 0 ∉ line).

Definition has_line (st : sh) : Prop := sh_buf st = line ++ 0 :: junk.

(** [*ps = s], with the tokens [ts] to come. *)
Definition at_toks (s : nat) (ts : list tok) : Prop := (s <= length line)%nat ∧ lex None s (drop s line) = ts.

Lemma deref_ok s st : has_line st → (s <= length line)%nat → deref s st = Ok (default 0 (line !! s), st).
Proof.
  intros Hst Hs. unfold deref, mbind, M_bind, gets. rewrite Hst. destruct (decide (s = length line)) as [->|Hne].
  - by rewrite list_lookup_middle, lookup_ge_None_2 by lia.
  - rewrite lookup_app_l by lia. destruct (line !! s) eqn:E; [done|]. apply lookup_ge_None in E. lia.
Qed.

Lemma skip_ok p s st : has_line st → (s <= length line)%nat → skip p s (length line) st = Ok ((s + span p (drop s line))%nat, st).
Proof.
  intros Hst. unfold skip. remember (length line - s)%nat as n eqn:Hn. revert s Hn.
  induction n as [|n IH]; intros s Hn Hs; rewrite loop_S.
  - rewrite decide_False by lia. unfold mbind, M_bind, mret, M_ret. rewrite drop_ge by lia. simpl. by rewrite Nat.add_0_r.
  - rewrite decide_True by lia. unfold mbind, M_bind. rewrite deref_ok by done.
    destruct (line !! s) as [c|] eqn:E; [|apply lookup_ge_None in E; lia].
    rewrite (drop_S _ _ _ E). cbn [default span]. unfold id, mret, M_ret. destruct (p c); [|by rewrite Nat.add_0_r].
    rewrite IH by lia. do 2 f_equal. lia.
Qed.

(** Where the next token is, and what [*s] is there. *)
Lemma at_skip s ts : at_toks s ts → let s' := (s + span is_ws (drop s line))%nat in
  at_toks s' ts ∧ match drop s' line with
    | [] => s' = length line ∧ ts = []
    | c :: l => c ≠ 0 ∧ is_ws c = false ∧ line !! s' = Some c
    end.
Proof.
  intros [Hs Hts] s'. pose proof (span_le is_ws (drop s line)) as Hle. rewrite length_drop in Hle.
  assert (Hd : drop s' line = drop (span is_ws (drop s line)) (drop s line)) by (rewrite drop_drop; f_equal; unfold s'; lia).
  assert (Hat : at_toks s' ts).
  { split; [unfold s'; lia|]. rewrite <- Hts, (lex_ws (drop s line)), Hd. done. }
  split; [done|]. destruct (drop s' line) as [|c l] eqn:E.
  - pose proof (f_equal length E) as Hl. rewrite length_drop in Hl. simpl in Hl. destruct Hat as [H1 H2].
    rewrite E in H2. simpl in H2. split; [lia|done].
  - assert (line !! s' = Some c) as Hc by (rewrite <- (Nat.add_0_r s'), <- lookup_drop, E; done). split_and!; [|..].
    + intros ->. apply Hline. by apply list_elem_of_lookup_2 in Hc.
    + apply (span_stop is_ws (drop s line)). by rewrite <- Hd.
    + done.
Qed.

Lemma at_char s ts c l : at_toks s ts → drop s line = c :: l → ts = lex None s (c :: l) ∧ (s < length line)%nat ∧ drop (S s) line = l.
Proof.
  intros [Hs Hts] Hd. rewrite Hd in Hts. pose proof (f_equal length Hd) as Hl. rewrite length_drop in Hl. simpl in Hl.
  split_and!; [done|lia|]. rewrite <- Nat.add_1_r, <- drop_drop, Hd. done.
Qed.

Lemma peek_ok s ts toks st : has_line st → at_toks s ts → (∀ c, c ∈ toks → c ∈ symbols) →
  ∃ s', peek s (length line) toks st = Ok ((sees toks ts, s'), st) ∧ at_toks s' ts ∧ (ts = [] → s' = length line).
Proof.
  intros Hst Hat Htoks. pose proof (at_skip s ts Hat) as H. set (s' := (s + span is_ws (drop s line))%nat) in H.
  destruct H as [Hat' H]. exists s'. destruct Hat as [Hs _]. pose proof (proj1 Hat') as Hs'.
  unfold peek, mbind, M_bind. rewrite skip_ok by done. fold is_ws. fold s'. rewrite deref_ok by done.
  assert (Hno : ∀ c, strchr symbols c = false → strchr toks c = false).
  { intros c Hc. apply not_true_is_false. rewrite strchr_In. intros Hin%Htoks%strchr_In. by rewrite Hin in Hc. }
  destruct (drop s' line) as [|c l] eqn:E.
  - destruct H as [He ->]. rewrite (lookup_ge_None_2 line s') by lia. done.
  - destruct H as (Hc0 & Hcw & Hc). destruct (at_char _ _ _ _ Hat' E) as (-> & Hlt & Hdl). rewrite Hc. cbn [default].
    unfold id. rewrite (proj2 (truth_ne c)) by done. cbn [andb]. unfold mret, M_ret.
    split_and!; [|done|intros Hnil]; [do 3 f_equal|].
    + destruct (strchr singles c) eqn:Es.
      { destruct (single_char _ Es) as (Hw & _ & Hg & Hp & _). cbn [lex]. rewrite Hw, Hcw, (proj2 (Z.eqb_neq _ _) Hg).
        cbn [flush app sees t_kind]. by rewrite (proj2 (Z.eqb_neq _ _) Hp). }
      destruct (decide (c = c_gt)) as [->|Hg].
      { cbn [lex]. change (is_word c_gt) with false. change (is_ws c_gt) with false. rewrite Z.eqb_refl. cbn [flush app].
        destruct l as [|d l]; [done|]. by destruct (d =? c_gt). }
      pose proof (word_char _ Hcw Es Hg) as Hw. cbn [lex]. rewrite Hw. cbn [default]. rewrite lex_word. cbn [sees t_kind].
      change (c_a =? c_plus) with false. cbn [andb]. rewrite !Hno; [done|done|].
      unfold is_word in Hw. apply andb_prop in Hw as [_ Hw]. by apply negb_true_iff in Hw.
    + exfalso. revert Hnil. cbn [lex]. destruct (is_word c); [by rewrite lex_word|]. rewrite Hcw. cbn [flush app].
      destruct (c =? c_gt); [|done]. destruct l as [|d l]; [done|]. by destruct (d =? c_gt).
Qed.

Definition got (ts : list tok) : Z * nat * nat :=
  match ts with [] => (0, length line, length line) | t :: _ => (t_kind t, t_q t, t_eq t) end.

(** The middle part of [gettoken], from the first character of the token on. *)
Lemma token_ok s ts st : has_line st → at_toks s ts →
  match drop s line with [] => s = length line ∧ ts = [] | c :: l => c ≠ 0 ∧ is_ws c = false ∧ line !! s = Some c end →
  ∃ s', (c ← deref s;
    (if c =? 0 then mret (c, s)
     else if strchr singles c then mret (c, S s)
     else if c =? c_gt then
       d ← deref (S s); mret (if d =? c_gt then (c_plus, S (S s)) else (c, S s))
     else
       s ← skip is_word s (length line); mret (c_a, s))) st = Ok ((fst (fst (got ts)), s'), st) ∧
    s = snd (fst (got ts)) ∧ s' = snd (got ts) ∧ at_toks s' (tail ts).
Proof.
  intros Hst Hat H. pose proof (proj1 Hat) as Hs. unfold mbind, M_bind. rewrite deref_ok by done.
  destruct (drop s line) as [|c l] eqn:E.
  - destruct H as [-> ->]. rewrite lookup_ge_None_2 by lia. by exists (length line).
  - destruct H as (Hc0 & Hcw & Hc). destruct (at_char _ _ _ _ Hat E) as (-> & Hlt & Hdl). rewrite Hc. cbn [default].
    unfold id. rewrite (proj2 (Z.eqb_neq _ _) Hc0). destruct (strchr singles c) eqn:Es.
    { destruct (single_char _ Es) as (Hw & _ & Hg & Hp & _). exists (S s). cbn [lex]. rewrite Hw, Hcw, (proj2 (Z.eqb_neq _ _) Hg).
      cbn [flush app]. split_and!; [done..|]. split; [lia|]. by rewrite Hdl. }
    destruct (Z.eqb_spec c c_gt) as [->|Hg].
    { rewrite deref_ok by done || lia. cbn [lex]. change (is_word c_gt) with false. change (is_ws c_gt) with false.
      rewrite Z.eqb_refl. cbn [flush app]. rewrite <- (Nat.add_0_r (S s)), <- lookup_drop, Hdl, Nat.add_0_r.
      destruct l as [|d l]; cbn [lookup list_lookup default].
      - exists (S s). split_and!; [done..|]. split; [lia|]. by rewrite Hdl.
      - unfold id. destruct (d =? c_gt).
        + exists (S (S s)). split_and!; [done..|]. pose proof (f_equal length Hdl) as Hl. rewrite length_drop in Hl. simpl in Hl.
          split; [lia|]. rewrite <- (Nat.add_1_r (S s)), <- drop_drop, Hdl. done.
        + exists (S s). split_and!; [done..|]. split; [lia|]. by rewrite Hdl. }
    pose proof (word_char _ Hcw Es Hg) as Hw. rewrite skip_ok by done || lia. rewrite E. cbn [span]. rewrite Hw.
    cbn [lex]. rewrite Hw. cbn [default]. rewrite lex_word. pose proof (span_le is_word l) as Hle.
    assert (length l = length line - S s)%nat by (rewrite <- Hdl, length_drop; done).
    exists (s + S (span is_word l))%nat. split_and!; [done|done|cbn [got snd t_eq]; lia|]. split; [lia|]. cbn [tail].
    replace (s + S (span is_word l))%nat with (S s + span is_word l)%nat by lia. by rewrite <- drop_drop, Hdl.
Qed.

Lemma gettoken_ok s ts st : has_line st → at_toks s ts →
  ∃ s', gettoken s (length line) st = Ok ((got ts, s'), st) ∧ at_toks s' (tail ts).
Proof.
  intros Hst Hat. destruct (at_skip s ts Hat) as [Hat1 H1]. set (s1 := (s + span is_ws (drop s line))%nat) in *.
  destruct (token_ok s1 ts st Hst Hat1 H1) as (s2 & Hrun & Hq & He & Hat2).
  exists (s2 + span is_ws (drop s2 line))%nat. split; [|by apply at_skip]. unfold gettoken.
  rewrite (bind_ok _ _ _ s1 st) by (apply skip_ok; [done|apply Hat]). cbv zeta.
  revert Hrun. unfold mbind, M_bind. fold singles is_word. destruct (deref s1 st) as [[c st1]| | | |]; try done.
  intros ->. rewrite skip_ok by (done || apply Hat2). unfold mret, M_ret. do 3 f_equal.
  by destruct (got ts) as [[k q] e]; cbn [fst snd] in *; subst.
Qed.

Lemma got_kind ts : fst (fst (got ts)) = match ts with [] => 0 | t :: _ => t_kind t end.
Proof. by destruct ts. Qed.
End Line.
