(* ===== verification/ShParse.v ===== *)
(** The parser of user/sh.c on tokens, and that the code of the parser builds the
    structures for what it finds. *)

From S2P Require Import Prelude Str Sysfile Sh ShLex.

(** ** Commands and the parser on tokens *)

(** What a line means; a word is given by where it is in the line. *)
Inductive tree :=
| TExec (args : list (nat * nat))
| TRedir (sub : tree) (file : nat * nat) (mode fd : Z)
| TPipe (l r : tree)
| TList (l r : tree)
| TBack (sub : tree).

Inductive pres (X : Type) := POk (x : X) | PErr (msg : string) | PFuel.
Arguments POk {X} x.
Arguments PErr {X} msg.
Arguments PFuel {X}.

#[global] Instance pres_ret : MRet pres := λ A a, POk a.
#[global] Instance pres_bind : MBind pres := λ A B f m,
  match m with POk x => f x | PErr e => PErr e | PFuel => PFuel end.

Definition word_of (t : tok) : nat * nat := (t_q t, t_eq t).

(** The redirection that the tokens [<], [>] and [>>] stand for. *)
Definition redir (k : Z) (sub : tree) (f : nat * nat) : tree :=
  if k =? c_lt then TRedir sub f O_RDONLY 0
  else if k =? c_gt then TRedir sub f (Z.lor (Z.lor O_WRONLY O_CREATE) O_TRUNC) 1
  else TRedir sub f (Z.lor O_WRONLY O_CREATE) 1.

Fixpoint p_redirs (c : tree) (ts : list tok) : pres (tree * list tok) :=
  match ts with
  | [] => POk (c, [])
  | t :: ts1 =>
    if sees [c_lt; c_gt] ts then
      match ts1 with
      | f :: ts2 => if t_kind f =? c_a then p_redirs (redir (t_kind t) c (word_of f)) ts2
                    else PErr "missing file for redirection"
      | [] => PErr "missing file for redirection"
      end
    else POk (c, ts)
  end.

(** One more word for the command inside the redirections. *)
Fixpoint add_arg (c : tree) (w : nat * nat) : tree :=
  match c with
  | TExec args => TExec (args ++ [w])
  | TRedir sub f m d => TRedir (add_arg sub w) f m d
  | _ => c
  end.

Fixpoint p_words (fuel : nat) (c : tree) (argc : nat) (ts : list tok) : pres (tree * list tok) :=
  match fuel with
  | O => PFuel
  | S fuel =>
    if sees [c_bar; c_close; c_amp; c_semi] ts then POk (c, ts) else
    match ts with
    | [] => POk (c, [])
    | t :: ts =>
      if negb (t_kind t =? c_a) then PErr "syntax" else
      if decide (MAXARGS <= S argc)%nat then PErr "too many args" else
      '(c, ts) ← p_redirs (add_arg c (word_of t)) ts;
      p_words fuel c (S argc) ts
    end
  end.

Fixpoint p_amps (fuel : nat) (c : tree) (ts : list tok) : pres (tree * list tok) :=
  match fuel with
  | O => PFuel
  | S fuel => if sees [c_amp] ts then p_amps fuel (TBack c) (tail ts) else POk (c, ts)
  end.

Fixpoint p_line (fuel : nat) (ts : list tok) : pres (tree * list tok) :=
  match fuel with
  | O => PFuel
  | S fuel =>
    '(c, ts) ← p_pipe fuel ts;
    '(c, ts) ← p_amps (S (length ts)) c ts;
    if sees [c_semi] ts then '(r, ts) ← p_line fuel (tail ts); POk (TList c r, ts) else POk (c, ts)
  end
with p_pipe (fuel : nat) (ts : list tok) : pres (tree * list tok) :=
  match fuel with
  | O => PFuel
  | S fuel =>
    '(c, ts) ← p_exec fuel ts;
    if sees [c_bar] ts then '(r, ts) ← p_pipe fuel (tail ts); POk (TPipe c r, ts) else POk (c, ts)
  end
with p_exec (fuel : nat) (ts : list tok) : pres (tree * list tok) :=
  match fuel with
  | O => PFuel
  | S fuel =>
    if sees [c_open] ts then p_block fuel ts else
    '(c, ts) ← p_redirs (TExec []) ts;
    p_words (S (length ts)) c 0 ts
  end
with p_block (fuel : nat) (ts : list tok) : pres (tree * list tok) :=
  match fuel with
  | O => PFuel
  | S fuel =>
    if sees [c_open] ts then
      '(c, ts) ← p_line fuel (tail ts);
      if sees [c_close] ts then p_redirs c (tail ts) else PErr "syntax - missing )"
    else PErr "parseblock"
  end.

(** ** Trees in the heap

    A structure is allocated after those it points to. *)

Definition argv_of (l : list nat) : list (option nat) := (Some <$> l) ++ replicate (MAXARGS - length l) None.

Definition exec_of (args : list (nat * nat)) : cmd := EXEC (argv_of args.*1) (argv_of args.*2).

Fixpoint rep (h : list cmd) (c : tree) (p : nat) : Prop :=
  match c with
  | TExec args => h !! p = Some (exec_of args) ∧ (length args < MAXARGS)%nat
  | TRedir sub f m d => ∃ p', h !! p = Some (REDIR p' f.1 f.2 m d) ∧ (p' < p)%nat ∧ rep h sub p'
  | TPipe l r => ∃ pl pr, h !! p = Some (PIPE pl pr) ∧ (pl < p)%nat ∧ (pr < p)%nat ∧ rep h l pl ∧ rep h r pr
  | TList l r => ∃ pl pr, h !! p = Some (LIST pl pr) ∧ (pl < p)%nat ∧ (pr < p)%nat ∧ rep h l pl ∧ rep h r pr
  | TBack sub => ∃ p', h !! p = Some (BACK p') ∧ (p' < p)%nat ∧ rep h sub p'
  end.

(** [c] at [p] is the command at [e] with redirections around it, with [n] words so far. *)
Fixpoint chain (h : list cmd) (c : tree) (p e n : nat) : Prop :=
  match c with
  | TExec args => p = e ∧ h !! e = Some (exec_of args) ∧ length args = n
  | TRedir sub f m d => ∃ p', h !! p = Some (REDIR p' f.1 f.2 m d) ∧ (p' < p)%nat ∧ chain h sub p' e n
  | _ => False
  end.

Definition ext (h h' : list cmd) : Prop := ∀ i x, h !! i = Some x → h' !! i = Some x.

Lemma ext_refl h : ext h h.
Proof. by intros i x. Qed.

Lemma ext_trans h1 h2 h3 : ext h1 h2 → ext h2 h3 → ext h1 h3.
Proof. intros H1 H2 i x Hi. by apply H2, H1. Qed.

Lemma ext_app h l : ext h (h ++ l).
Proof. intros i x Hi. by apply lookup_app_l_Some. Qed.

Lemma ext_insert h h' i x : ext h h' → (length h <= i)%nat → ext h (<[i := x]> h').
Proof.
  intros He Hi j y Hj. rewrite list_lookup_insert_ne; [by apply He|]. apply lookup_lt_Some in Hj. lia.
Qed.

#[export] Hint Resolve ext_refl ext_app : core.

Lemma rep_ext h h' c : ∀ p, ext h h' → rep h c p → rep h' c p.
Proof.
  intros p He. revert p. induction c as [args|sub IH f m d|l IHl r IHr|l IHl r IHr|sub IH]; simpl; intros p.
  - intros [Hp Hn]. auto.
  - intros (p' & Hp & Hlt & Hs). exists p'. auto.
  - intros (pl & pr & Hp & Hlt1 & Hlt2 & Hl & Hr). exists pl, pr. auto 10.
  - intros (pl & pr & Hp & Hlt1 & Hlt2 & Hl & Hr). exists pl, pr. auto 10.
  - intros (p' & Hp & Hlt & Hs). exists p'. auto.
Qed.

Lemma rep_lt h c p : rep h c p → (p < length h)%nat.
Proof. destruct c; simpl; intros H; destruct_and?; try destruct H as (? & H); destruct_and?; try destruct H as (? & H); destruct_and?; by eapply lookup_lt_Some. Qed.

Lemma chain_lt h c p e n : chain h c p e n → (p < length h)%nat.
Proof. destruct c; simpl; try done; [intros (-> & H & _)|intros (p' & H & _)]; by eapply lookup_lt_Some. Qed.

Lemma chain_ext h h' c : ∀ p e n, ext h h' → chain h c p e n → chain h' c p e n.
Proof.
  intros p e n He. revert p. induction c as [args|sub IH f m d| | |]; simpl; intros p; try done.
  - intros (Hp & Hh & Hn). auto.
  - intros (p' & Hp & Hlt & Hs). exists p'. auto.
Qed.

Lemma chain_rep h c : ∀ p e n, (n < MAXARGS)%nat → chain h c p e n → rep h c p.
Proof.
  intros p e n Hn. revert p. induction c as [args|sub IH f m d| | |]; simpl; intros p; try done.
  - intros (-> & Hh & <-). done.
  - intros (p' & Hp & Hlt & Hs). exists p'. auto.
Qed.

Lemma chain_exec h c : ∀ p e n, chain h c p e n → ∃ args, h !! e = Some (exec_of args) ∧ length args = n.
Proof.
  intros p e n. revert p. induction c as [args|sub IH f m d| | |]; simpl; intros p; try done.
  - intros (-> & Hh & Hn). by exists args.
  - intros (p' & Hp & Hlt & Hs). by eapply IH.
Qed.

Lemma argv_of_insert l q : (length l < MAXARGS)%nat → <[length l := Some q]> (argv_of l) = argv_of (l ++ [q]).
Proof.
  intros Hl. unfold argv_of. rewrite insert_app_r_alt by (rewrite length_fmap; lia). rewrite length_fmap, Nat.sub_diag, fmap_app.
  replace (MAXARGS - length l)%nat with (S (MAXARGS - length (l ++ [q]))) by (rewrite length_app; simpl; lia).
  simpl. by rewrite <- app_assoc.
Qed.

Lemma argv_of_insert_None l : <[length l := None]> (argv_of l) = argv_of l.
Proof.
  unfold argv_of. rewrite insert_app_r_alt by (rewrite length_fmap; lia). rewrite length_fmap, Nat.sub_diag.
  by destruct (MAXARGS - length l)%nat.
Qed.

(** Storing a word into the command of a chain. *)
Lemma chain_add h c q eq : ∀ p e n argv eargv, chain h c p e n → (n < MAXARGS)%nat → h !! e = Some (EXEC argv eargv) →
  chain (<[e := EXEC (<[n := Some q]> argv) (<[n := Some eq]> eargv)]> h) (add_arg c (q, eq)) p e (S n).
Proof.
  intros p e n argv eargv Hc Hn He. revert p Hc. induction c as [args|sub IH f m d| | |]; simpl; intros p; try done.
  - intros (-> & Hh & Ha). rewrite Hh in He. injection He as <- <-. split_and!; [done| |rewrite length_app; simpl; lia].
    rewrite list_lookup_insert_eq by (by eapply lookup_lt_Some). unfold exec_of. rewrite !fmap_app. simpl.
    rewrite <- !argv_of_insert by (rewrite length_fmap; lia). by rewrite !length_fmap, Ha.
  - intros (p' & Hp & Hlt & Hs). exists p'. split_and!; [|done|auto]. rewrite list_lookup_insert_ne; [done|]. intros ->. by rewrite Hp in He.
Qed.

(** ** The code against the parser on tokens *)

Definition sim {A X} (r : outcome (A * sh)) (p : pres X) (R : A → sh → X → Prop) : Prop :=
  match p with
  | POk x => ∃ a st, r = Ok (a, st) ∧ R a st x
  | PErr msg => r = Panic msg
  | PFuel => r = OutOfFuel
  end.

Lemma sim_bind {A B X Y} (m : M sh A) (f : A → M sh B) st (p : pres X) (g : X → pres Y) R R' :
  sim (m st) p R → (∀ a st' x, R a st' x → sim (f a st') (g x) R') → sim ((m ≫= f) st) (p ≫= g) R'.
Proof.
  unfold sim at 1, mbind, M_bind, pres_bind. destruct p as [x|msg|]; [|by intros ->..].
  intros (a & st' & -> & HR) Hf. by apply Hf.
Qed.

Lemma sim_mono {A X} (r : outcome (A * sh)) (p : pres X) (R R' : A → sh → X → Prop) :
  sim r p R → (∀ a st x, R a st x → R' a st x) → sim r p R'.
Proof. unfold sim. destruct p; naive_solver. Qed.

Lemma sim_ret {A X} (a : A) st (x : X) (R : A → sh → X → Prop) : R a st x → sim ((mret a : M sh A) st) (POk x) R.
Proof. intros H. by exists a, st. Qed.

Lemma sim_assoc {A B C X} (m : M sh A) (f : A → M sh B) (g : B → M sh C) st (p : pres X) R :
  sim ((m ≫= λ a, f a ≫= g) st) p R → sim (((m ≫= f) ≫= g) st) p R.
Proof. unfold mbind, M_bind. by destruct (m st) as [[a st']| | | |]. Qed.

Lemma sim_new_cmd {B X} c (f : nat → M sh B) st (p : pres X) R : (0 < sh_free st)%nat →
  sim (f (length (sh_heap st)) (Sh (sh_buf st) (sh_heap st ++ [c]) (pred (sh_free st)))) p R → sim ((new_cmd c ≫= f) st) p R.
Proof. intros Hf. unfold new_cmd, mbind, M_bind, gets, modify, id. by destruct (sh_free st) as [|k] eqn:E; [lia|]. Qed.

Lemma redir_syms c : c ∈ [c_lt; c_gt] → c ∈ symbols.
Proof. unfold symbols. set_solver. Qed.


(** What [sees] says about the kind of the token. *)
Lemma sees_redir t ts : sees [c_lt; c_gt] (t :: ts) = true → t_kind t = c_lt ∨ t_kind t = c_gt ∨ t_kind t = c_plus.
Proof. unfold sees. rewrite strchr_In. destruct (Z.eqb_spec (t_kind t) c_plus); [auto|]. set_solver. Qed.


Lemma exec_syms c : c ∈ [c_bar; c_close; c_amp; c_semi] → c ∈ symbols.
Proof. unfold symbols. set_solver. Qed.


Lemma kinds_0 : 0 ∉ kinds.
Proof. unfold kinds. rewrite !not_elem_of_cons. split_and!; [done..|apply not_elem_of_nil]. Qed.


Lemma one_sym c : c ∈ symbols → ∀ x, x ∈ [c] → x ∈ symbols.
Proof. intros Hc x. rewrite list_elem_of_singleton. by intros ->. Qed.


Lemma sees_cons toks ts : sees toks ts = true → ∃ t ts', ts = t :: ts'.
Proof. destruct ts as [|t ts']; [done|]. by exists t, ts'. Qed.


Section Line.
Context (line junk : list Z) (Hline : 0 ∉ line).
Notation es := (length line).

Lemma sim_peek {B X} s ts toks (f : bool * nat → M sh B) st (p : pres X) R :
  has_line line junk st → at_toks line s ts → (∀ c, c ∈ toks → c ∈ symbols) →
  (∀ s', at_toks line s' ts → (ts = [] → s' = es) → sim (f (sees toks ts, s') st) p R) → sim ((peek s es toks ≫= f) st) p R.
Proof.
  intros Hst Hat Hto H. destruct (peek_ok line junk Hline s ts toks st Hst Hat Hto) as (s' & Hrun & Hat' & He).
  rewrite (bind_ok _ _ _ _ _ Hrun). by apply H.
Qed.

Lemma sim_gettoken {B X} s ts (f : Z * nat * nat * nat → M sh B) st (p : pres X) R :
  has_line line junk st → at_toks line s ts →
  (∀ s', at_toks line s' (tail ts) → sim (f (got line ts, s') st) p R) → sim ((gettoken s es ≫= f) st) p R.
Proof.
  intros Hst Hat H. destruct (gettoken_ok line junk Hline s ts st Hst Hat) as (s' & Hrun & Hat').
  rewrite (bind_ok _ _ _ _ _ Hrun). by apply H.
Qed.

(** What a run of a part of the parser from [st] with the tokens [ts] leaves behind:
    the tree at a pointer, the tokens to come, everything that was in the heap, and
    memory for all but two structures per token and [k] more. *)
Record parsed (Φ : list cmd → tree → nat → Prop) (k : nat) (st : sh) (ts : list tok) (a : nat * nat) (st' : sh) (x : tree * list tok) : Prop := {
  pa_tree : Φ (sh_heap st') x.1 a.1;
  pa_at : at_toks line a.2 x.2;
  pa_line : has_line line junk st';
  pa_ext : ext (sh_heap st) (sh_heap st');
  pa_len : (length x.2 <= length ts)%nat;
  pa_free : (sh_free st + 2 * length x.2 <= sh_free st' + 2 * length ts + k)%nat }.

Lemma at_len s ts : at_toks line s ts → (length ts <= es - s)%nat.
Proof. intros [Hs <-]. pose proof (length_lex (drop s line) None s) as H. rewrite length_drop in H. simpl in H. lia. Qed.

Lemma parsed_refl Φ k a st x : Φ (sh_heap st) x.1 a.1 → at_toks line a.2 x.2 → has_line line junk st → parsed Φ k st x.2 a st x.
Proof. intros. by split; [..|lia|lia]. Qed.

(** A part of the parser after some other: [n] structures and the tokens from [ts] to [ts1] in between. *)
Lemma parsed_after Φ k k' n st ts st1 ts1 a st' x :
  parsed Φ k st1 ts1 a st' x → ext (sh_heap st) (sh_heap st1) → (length ts1 <= length ts)%nat →
  (sh_free st <= sh_free st1 + n)%nat → (n + k + 2 * length ts1 <= 2 * length ts + k')%nat → parsed Φ k' st ts a st' x.
Proof. intros [H1 H2 H3 H4 H5 H6] He Hl Hf Hn. split; [done..|by eapply ext_trans|lia|lia]. Qed.

Definition closed (Φ : list cmd → tree → nat → Prop) : Prop :=
  (∀ h h' c p, ext h h' → Φ h c p → Φ h' c p) ∧
  (∀ h c p f m d p', h !! p' = Some (REDIR p f.1 f.2 m d) → (p < p')%nat → Φ h c p → Φ h (TRedir c f m d) p') ∧
  (∀ h c p, Φ h c p → (p < length h)%nat).

Lemma closed_rep : closed rep.
Proof. split_and!; [intros; by eapply rep_ext| |apply rep_lt]. intros h c p f m d p' Hp Hlt Hc. by exists p. Qed.

Lemma closed_chain e n : closed (λ h c p, chain h c p e n).
Proof. split_and!; [intros; by eapply chain_ext| |intros h c p; apply chain_lt]. intros h c p f m d p' Hp Hlt Hc. by exists p. Qed.

(** [parseredirs] allocates the structure [redir] stands for. *)
Lemma redir_new {B X} k c f p (g : nat → M sh B) st Φ (q : pres X) R : closed Φ → k = c_lt ∨ k = c_gt ∨ k = c_plus →
  (0 < sh_free st)%nat → Φ (sh_heap st) c p →
  (∀ p' st', Φ (sh_heap st') (redir k c f) p' → sh_buf st' = sh_buf st → ext (sh_heap st) (sh_heap st') →
     (sh_free st <= sh_free st' + 1)%nat → sim (g p' st') q R) →
  sim (((if k =? c_lt then redircmd p f.1 f.2 O_RDONLY 0
    else if k =? c_gt then redircmd p f.1 f.2 (Z.lor (Z.lor O_WRONLY O_CREATE) O_TRUNC) 1
    else if k =? c_plus then redircmd p f.1 f.2 (Z.lor O_WRONLY O_CREATE) 1
    else mret p) ≫= g) st) q R.
Proof.
  intros (He & Hr & Hlt) Hk Hfree Hc Hg. unfold redircmd, redir in *.
  destruct Hk as [-> | [-> | ->]]; rewrite ?Z.eqb_refl in *;
    change (c_gt =? c_lt) with false in *; change (c_plus =? c_lt) with false in *; change (c_plus =? c_gt) with false in *; cbv iota in *;
    (apply sim_new_cmd; [done|]; apply Hg; cbn [sh_heap sh_buf sh_free]; [|done|done|lia];
     eapply Hr; [by apply list_lookup_middle|by eapply Hlt|]; eapply He; [|done]; done).
Qed.

Lemma redirs_sim Φ : closed Φ → ∀ fuel ts c p s st, (length ts < fuel)%nat → has_line line junk st → at_toks line s ts →
  (2 * length ts <= sh_free st)%nat → Φ (sh_heap st) c p →
  sim (loop fuel (parseredirs_body es) (p, s) st) (p_redirs c ts) (parsed Φ 0 st ts).
Proof.
  intros HΦ fuel. induction fuel as [|fuel IH]; intros ts c p s st Hfuel Hst Hat Hfree Hc; [lia|].
  rewrite loop_S. unfold parseredirs_body at 1. apply sim_assoc. eapply sim_peek; [done|done|apply redir_syms|].
  intros s1 Hat1 _. destruct (sees [c_lt; c_gt] ts) eqn:Esee; cbn [negb].
  2: { replace (p_redirs c ts) with (POk (c, ts)) by (destruct ts; [done|]; cbn [p_redirs]; by rewrite Esee).
       apply sim_ret. by apply (parsed_refl _ 0 (p, s1) st (c, ts)). }
  destruct ts as [|t ts]; [done|]. cbn [p_redirs]. rewrite Esee. apply sim_assoc. eapply sim_gettoken; [done|done|].
  intros s2 Hat2. cbn [got tail] in *. apply sim_assoc. eapply sim_gettoken; [done|done|]. intros s3 Hat3.
  destruct ts as [|f ts]; [done|]. cbn [got tail] in *. destruct (t_kind f =? c_a) eqn:Ef; cbn [negb]; [|done].
  apply sim_assoc. cbn [length] in *. apply (redir_new (t_kind t) c (word_of f) p _ st Φ).
  - done.
  - by apply sees_redir in Esee.
  - lia.
  - done.
  - intros p' st' Hc' Hb He Hf. unfold mbind, M_bind, mret, M_ret. eapply sim_mono.
    + apply IH; [lia|unfold has_line in *; by rewrite Hb|done|lia|done].
    + intros a st2 x Hp. eapply (parsed_after _ 0 0 1); [done|done|simpl; lia|lia|simpl; lia].
Qed.

Lemma parseredirs_sim Φ ts c p s st : closed Φ → has_line line junk st → at_toks line s ts →
  (2 * length ts <= sh_free st)%nat → Φ (sh_heap st) c p →
  sim (parseredirs p s es st) (p_redirs c ts) (parsed Φ 0 st ts).
Proof. intros. pose proof (at_len s ts). apply redirs_sim; try done. naive_solver lia. Qed.

Lemma at_kind s t ts : at_toks line s (t :: ts) → t_kind t ∈ kinds.
Proof.
  intros [Hs Hl]. pose proof (lex_kinds (drop s line)) as H.
  rewrite <- (take_drop s line) in Hline. specialize (H ltac:(set_solver) None s). rewrite Hl in H.
  by apply list.Forall_cons in H as [? _].
Qed.

Lemma set_arg_ok {B} e n q eq (f : unit → M sh B) st argv eargv : sh_heap st !! e = Some (EXEC argv eargv) → (n < MAXARGS)%nat →
  (set_arg e n q eq ≫= f) st = f tt (Sh (sh_buf st) (<[e := EXEC (<[n := q]> argv) (<[n := eq]> eargv)]> (sh_heap st)) (sh_free st)).
Proof. intros He Hn. unfold set_arg, mbind, M_bind, gets, id. by rewrite He, decide_True. Qed.

(** The state with the heap [h0] of before. *)
Definition with_heap (st : sh) (h0 : list cmd) : sh := Sh (sh_buf st) h0 (sh_free st).

Definition words_done (h0 : list cmd) (e : nat) (st : sh) (ts : list tok) (a : nat * nat * nat) (st' : sh) (x : tree * list tok) : Prop :=
  (a.1.2 < MAXARGS)%nat ∧ parsed (λ h c p, chain h c p e a.1.2) 0 (with_heap st h0) ts (a.1.1, a.2) st' x.

Lemma words_sim h0 e : (length h0 <= e)%nat → ∀ fuel fuel' ts c p n s st, (length ts < fuel)%nat → (length ts < fuel')%nat →
  has_line line junk st → at_toks line s ts → (2 * length ts <= sh_free st)%nat → (n < MAXARGS)%nat →
  chain (sh_heap st) c p e n → ext h0 (sh_heap st) →
  sim (loop fuel (parseexec_body e es) (p, n, s) st) (p_words fuel' c n ts) (words_done h0 e st ts).
Proof.
  intros Hh0 fuel. induction fuel as [|fuel IH]; intros fuel' ts c p n s st Hfuel Hfuel' Hst Hat Hfree Hn Hc Hext; [lia|].
  destruct fuel' as [|fuel']; [lia|].
  rewrite loop_S. unfold parseexec_body at 1. cbn [p_words]. apply sim_assoc. eapply sim_peek; [done|done|apply exec_syms|].
  assert (Hstop : ∀ s', at_toks line s' ts → words_done h0 e st ts (p, n, s') st (c, ts)).
  { intros s' Hs'. split; [done|]. split; cbn [fst snd with_heap sh_heap sh_free]; [done..|lia|lia]. }
  intros s1 Hat1 _. destruct (sees _ ts) eqn:Esee; [by apply sim_ret, Hstop|].
  apply sim_assoc. eapply sim_gettoken; [done|done|]. intros s2 Hat2.
  destruct ts as [|t ts]; [by apply sim_ret, Hstop|]. pose proof (at_kind _ _ _ Hat) as Hk.
  cbn [got tail length] in *. destruct (Z.eqb_spec (t_kind t) 0) as [E0|_]; [rewrite E0 in Hk; by apply kinds_0 in Hk|].
  destruct (Z.eqb_spec (t_kind t) c_a) as [Ea|Ea]; cbn [negb]; [|done].
  destruct (chain_exec _ _ _ _ _ Hc) as (args & He & Hargs).
  apply sim_assoc. erewrite set_arg_ok by done. cbv zeta.
  destruct (decide (MAXARGS <= S n)%nat) as [Hm|Hm]; [done|].
  pose proof (chain_add _ _ (t_q t) (t_eq t) _ _ _ _ _ Hc Hn He) as Hc'.
  set (st1 := Sh _ _ _).
  apply sim_assoc. eapply (sim_bind _ _ _ _ _ (parsed (λ h c p, chain h c p e (S n)) 0 st1 ts)).
  { apply parseredirs_sim; [apply closed_chain|done|done|cbn; lia|done]. }
  intros [p' s3] st2 [c' ts'] Hp. pose proof (pa_len _ _ _ _ _ _ _ Hp). pose proof (pa_free _ _ _ _ _ _ _ Hp). cbn in *.
  eapply sim_mono; [apply IH; [lia|lia|by eapply pa_line|by apply (pa_at _ _ _ _ _ _ _ Hp)|lia|lia|by apply (pa_tree _ _ _ _ _ _ _ Hp)|]|].
  - eapply ext_trans; [|apply (pa_ext _ _ _ _ _ _ _ Hp)]. cbn. by apply ext_insert.
  - intros a st3 x [Hx1 Hx2]. split; [done|]. eapply (parsed_after _ 0 0 (sh_free st - sh_free st2)); [exact Hx2|done|simpl; lia|simpl; lia|simpl; lia].
Qed.

Ltac is_sym := unfold symbols, c_amp, c_semi, c_bar, c_open, c_close; set_solver.

Lemma amps_sim fuel : ∀ fuel' ts c p s st, (length ts < fuel)%nat → (length ts < fuel')%nat →
  has_line line junk st → at_toks line s ts → (2 * length ts <= sh_free st)%nat → rep (sh_heap st) c p →
  sim (loop fuel (parseline_body es) (p, s) st) (p_amps fuel' c ts) (parsed rep 0 st ts).
Proof.
  induction fuel as [|fuel IH]; intros fuel' ts c p s st Hfuel Hfuel' Hst Hat Hfree Hc; [lia|]. destruct fuel' as [|fuel']; [lia|].
  rewrite loop_S. unfold parseline_body at 1. cbn [p_amps]. apply sim_assoc.
  eapply sim_peek; [done|done|apply one_sym; is_sym|].
  intros s1 Hat1 _. destruct (sees [c_amp] ts) eqn:Esee; cbn [negb].
  2: { apply sim_ret. by apply (parsed_refl rep 0 (p, s1) st (c, ts)). }
  destruct (sees_cons _ _ Esee) as (t & ts' & ->). cbn [length tail] in *. apply sim_assoc.
  eapply sim_gettoken; [done|done|]. intros s2 Hat2. cbn [got tail] in *. apply sim_assoc. unfold backcmd. apply sim_new_cmd; [lia|].
  set (st1 := Sh _ _ _). unfold mbind, M_bind, mret, M_ret.
  assert (Hrep : rep (sh_heap st1) (TBack c) (length (sh_heap st))).
  { exists p. split_and!; [by apply list_lookup_middle|by eapply rep_lt|]. eapply rep_ext; [|done]. by apply ext_app. }
  eapply sim_mono; [apply IH; [lia|lia|done|done|cbn; lia|done]|].
  intros a st2 x Hp. eapply (parsed_after _ 0 0 1); [done|cbn; by apply ext_app|simpl; lia|cbn; lia|cbn; lia].
Qed.

Definition part_sim (code : nat → nat → M sh (nat * nat)) (pure : list tok → pres (tree * list tok)) : Prop :=
  ∀ ts s st, has_line line junk st → at_toks line s ts → (2 * length ts + 1 <= sh_free st)%nat →
  sim (code s es st) (pure ts) (parsed rep 1 st ts).

(** The second half of a command made of two: a symbol, the other command, and the structure for both. *)
Lemma pair_sim (node : nat → nat → cmd) (mk : tree → tree → tree) code pure c p st ts s sym :
  (∀ h l r p pl pr, h !! p = Some (node pl pr) → (pl < p)%nat → (pr < p)%nat → rep h l pl → rep h r pr → rep h (mk l r) p) →
  part_sim code pure → sym ∈ symbols → has_line line junk st → at_toks line s ts → (2 * length ts <= sh_free st)%nat →
  rep (sh_heap st) c p →
  sim (('(more, s) ← peek s es [sym];
        if negb more then mret (p, s) else
        '(_, _, _, s) ← gettoken s es;
        '(cmd2, s) ← code s es;
        cmd ← new_cmd (node p cmd2);
        mret (cmd, s)) st)
      (if sees [sym] ts then '(r, ts) ← pure (tail ts); POk (mk c r, ts) else POk (c, ts))
      (parsed rep 0 st ts).
Proof.
  intros Hmk Hcode Hsym Hst Hat Hfree Hc. eapply sim_peek; [done|done|by apply one_sym|]. intros s1 Hat1 _.
  destruct (sees [sym] ts) eqn:Esee; cbn [negb]; [|apply sim_ret; by apply (parsed_refl rep 0 (p, s1) st (c, ts))].
  destruct (sees_cons _ _ Esee) as (t & ts' & ->). cbn [length tail] in *. eapply sim_gettoken; [done|done|].
  intros s2 Hat2. cbn [got tail] in *. eapply sim_bind; [apply Hcode; [done|done|lia]|].
  intros [p2 s3] st2 [r ts2] [Hr Hat3 Hst2 Hext Hlen Hf]. cbn [fst snd] in *.
  apply sim_new_cmd; [lia|]. apply sim_ret. split; cbn [fst snd sh_heap sh_free length].
  - eapply Hmk; [by apply list_lookup_middle|eapply rep_lt; by eapply rep_ext|by eapply rep_lt| |].
    + eapply rep_ext; [|done]. eapply ext_trans; [done|]. by apply ext_app.
    + eapply rep_ext; [|done]. by apply ext_app.
  - done.
  - done.
  - eapply ext_trans; [done|]. by apply ext_app.
  - lia.
  - lia.
Qed.

Lemma line_sim fuel : part_sim (parsepipe fuel) (p_pipe fuel) → part_sim (parseline fuel) (p_line fuel) →
  part_sim (parseline (S fuel)) (p_line (S fuel)).
Proof.
  intros Hpipe Hline' ts s st Hst Hat Hfree. cbn [parseline p_line]. eapply sim_bind; [by apply Hpipe|].
  intros [p s1] st1 [c ts1] [Hc Hat1 Hst1 Hext Hlen Hf]. cbn in Hc, Hat1, Hlen, Hf. cbn beta iota.
  pose proof (at_len _ _ Hat1). eapply sim_bind; [apply (amps_sim _ (S (length ts1))); try done; lia|].
  intros [p2 s2] st2 [c2 ts2] [Hc2 Hat2 Hst2 Hext2 Hlen2 Hf2]. cbn in Hc2, Hat2, Hlen2, Hf2, Hext2. cbn beta iota.
  eapply sim_mono; [apply (pair_sim LIST TList); [|done|is_sym|done|done|lia|done]|].
  - intros h l r q pl pr Hq Hl Hr Hll Hrr. by exists pl, pr.
  - intros a st3 x Hp. eapply (parsed_after _ 0 1 (sh_free st - sh_free st2)); [done|by eapply ext_trans|lia|lia|lia].
Qed.

Lemma pipe_sim fuel : part_sim (parseexec fuel) (p_exec fuel) → part_sim (parsepipe fuel) (p_pipe fuel) →
  part_sim (parsepipe (S fuel)) (p_pipe (S fuel)).
Proof.
  intros Hexec Hpipe ts s st Hst Hat Hfree. cbn [parsepipe p_pipe]. eapply sim_bind; [by apply Hexec|].
  intros [p s1] st1 [c ts1] [Hc Hat1 Hst1 Hext Hlen Hf]. cbn in Hc, Hat1, Hlen, Hf. cbn beta iota.
  eapply sim_mono; [apply (pair_sim PIPE TPipe); [|done|is_sym|done|done|lia|done]|].
  - intros h l r q pl pr Hq Hl Hr Hll Hrr. by exists pl, pr.
  - intros a st3 x Hp. eapply (parsed_after _ 0 1 (sh_free st - sh_free st1)); [done|done|lia|lia|lia].
Qed.

Lemma block_sim fuel : part_sim (parseline fuel) (p_line fuel) → part_sim (parseblock (S fuel)) (p_block (S fuel)).
Proof.
  intros Hl ts s st Hst Hat Hfree. cbn [parseblock p_block]. eapply sim_peek; [done|done|apply one_sym; is_sym|].
  intros s1 Hat1 _. destruct (sees [c_open] ts) eqn:Esee; cbn [negb]; [|done].
  destruct (sees_cons _ _ Esee) as (t & ts' & ->). cbn [length tail] in *. eapply sim_gettoken; [done|done|].
  intros s2 Hat2. cbn [got tail] in *. eapply sim_bind; [apply Hl; [done|done|lia]|].
  intros [p s3] st2 [c ts2] [Hc Hat3 Hst2 Hext Hlen Hf]. cbn [fst snd] in *.
  eapply sim_peek; [done|done|apply one_sym; is_sym|]. intros s4 Hat4 _. destruct (sees [c_close] ts2) eqn:Esee2; cbn [negb]; [|done].
  destruct (sees_cons _ _ Esee2) as (t2 & ts3 & ->). cbn [length tail] in *. eapply sim_gettoken; [done|done|].
  intros s5 Hat5. cbn [got tail] in *. eapply sim_mono; [apply (parseredirs_sim rep); [apply closed_rep|done|done|lia|done]|].
  intros a st3 x Hp. eapply (parsed_after _ 0 1 (sh_free st - sh_free st2)); [done|done|cbn; lia|lia|cbn; lia].
Qed.

Lemma exec_sim fuel : part_sim (parseblock fuel) (p_block fuel) → part_sim (parseexec (S fuel)) (p_exec (S fuel)).
Proof.
  intros Hb ts s st Hst Hat Hfree. cbn [parseexec p_exec]. eapply sim_peek; [done|done|apply one_sym; is_sym|].
  intros s1 Hat1 _. destruct (sees [c_open] ts) eqn:Esee; [by apply Hb|].
  unfold execcmd. apply sim_new_cmd; [lia|]. set (e := length (sh_heap st)). set (st1 := Sh _ _ _). cbv zeta.
  assert (Hc0 : chain (sh_heap st1) (TExec []) e e 0).
  { split_and!; [done|by apply list_lookup_middle|done]. }
  eapply sim_bind; [apply (parseredirs_sim (λ h c p, chain h c p e 0)); [apply closed_chain|done|done|cbn; lia|exact Hc0]|].
  intros [p s3] st2 [c ts2] [Hc Hat3 Hst2 Hext Hlen Hf]. cbn [fst snd st1 sh_heap sh_free] in *. pose proof (at_len _ _ Hat3).
  assert (Hext0 : ext (sh_heap st) (sh_heap st2)) by (eapply ext_trans; [|exact Hext]; by apply ext_app).
  pose proof (words_sim (sh_heap st) e ltac:(done) (S (es - s3)) (S (length ts2)) ts2 c p 0 s3 st2
    ltac:(lia) ltac:(lia) Hst2 Hat3 ltac:(lia) ltac:(unfold MAXARGS; lia) Hc Hext0) as Hw.
  unfold sim in Hw |- *. destruct (p_words _ _ _ _) as [[c3 ts3]|msg|].
  2,3: by unfold mbind, M_bind; rewrite Hw.
  destruct Hw as ([[p' n] s4] & st3 & Hrun & Hn & [Hc3 Hat4 Hst3 Hext3 Hlen3 Hf3]).
  rewrite (bind_ok _ _ _ _ _ Hrun). cbn [fst snd with_heap sh_heap sh_free] in *.
  destruct (chain_exec _ _ _ _ _ Hc3) as (args & He & Ha). erewrite set_arg_ok by done.
  assert (Hsame : <[e := EXEC (<[n := None]> (argv_of args.*1)) (<[n := None]> (argv_of args.*2))]> (sh_heap st3) = sh_heap st3).
  { rewrite <- Ha at 1 2. rewrite <- (length_fmap fst args) at 1. rewrite argv_of_insert_None.
    rewrite <- (length_fmap snd args) at 1. rewrite argv_of_insert_None. by apply list_insert_id. }
  rewrite Hsame. exists (p', s4), st3. split; [by destruct st3|]. split; cbn [fst snd]; [by eapply chain_rep|done|done|done|lia|lia].
Qed.

Lemma parser_sim fuel : part_sim (parseline fuel) (p_line fuel) ∧ part_sim (parsepipe fuel) (p_pipe fuel) ∧
  part_sim (parseexec fuel) (p_exec fuel) ∧ part_sim (parseblock fuel) (p_block fuel).
Proof.
  induction fuel as [|fuel (IHl & IHp & IHe & IHb)]; [by split_and!; intros ts s st ???|].
  split_and!; [by apply line_sim|by apply pipe_sim|by apply exec_sim|by apply block_sim].
Qed.
End Line.
