(* ===== verification/ShGrammar.v ===== *)
(** The grammar of command lines, and that the parser on tokens decides it. *)

From S2P Require Import Prelude Str Sysfile Sh ShLex ShParse.

Definition wrap (rs : list (Z * (nat * nat))) (c : tree) : tree := foldl (λ c r, redir r.1 c r.2) c rs.

Definition redir_kind (t : tok) : Prop := t_kind t = c_lt ∨ t_kind t = c_gt ∨ t_kind t = c_plus.

(** Words and redirections, in any order. *)
Inductive g_items : list tok → list (nat * nat) → list (Z * (nat * nat)) → Prop :=
| gi_nil : g_items [] [] []
| gi_word t ts ws rs : t_kind t = c_a → g_items ts ws rs → g_items (t :: ts) (word_of t :: ws) rs
| gi_redir t f ts ws rs : redir_kind t → t_kind f = c_a → g_items ts ws rs → g_items (t :: f :: ts) ws ((t_kind t, word_of f) :: rs).

Inductive g_line : list tok → tree → Prop :=
| gl_one ts c : g_back ts c → g_line ts c
| gl_list ts1 t ts2 l r : g_back ts1 l → t_kind t = c_semi → g_line ts2 r → g_line (ts1 ++ t :: ts2) (TList l r)
with g_back : list tok → tree → Prop :=
| gb_pipe ts c : g_pipe ts c → g_back ts c
| gb_amp ts t c : g_back ts c → t_kind t = c_amp → g_back (ts ++ [t]) (TBack c)
with g_pipe : list tok → tree → Prop :=
| gp_one ts c : g_exec ts c → g_pipe ts c
| gp_pipe ts1 t ts2 l r : g_exec ts1 l → t_kind t = c_bar → g_pipe ts2 r → g_pipe (ts1 ++ t :: ts2) (TPipe l r)
with g_exec : list tok → tree → Prop :=
| ge_words ts ws rs : g_items ts ws rs → (length ws < MAXARGS)%nat → g_exec ts (wrap rs (TExec ws))
| ge_block o ts c cl ts2 rs : t_kind o = c_open → g_line ts c → t_kind cl = c_close → g_items ts2 [] rs →
    g_exec (o :: ts ++ cl :: ts2) (wrap rs c).

(** ** What [sees] decides *)

Lemma sees_one k t ts : k ∈ [c_amp; c_semi; c_bar; c_open; c_close] → sees [k] (t :: ts) = true ↔ t_kind t = k.
Proof.
  intros Hk. unfold sees. rewrite strchr_In, list_elem_of_singleton.
  assert (k ≠ c_gt ∧ k ≠ c_plus) as [H1 H2].
  { rewrite !elem_of_cons in Hk. destruct Hk as [-> | [-> | [-> | [-> | [-> | Hk]]]]]; [done..|]. by apply not_elem_of_nil in Hk. }
  destruct (Z.eqb_spec (t_kind t) c_plus) as [->|Hp]; split; congruence.
Qed.

Lemma sees_redir_iff t ts : sees [c_lt; c_gt] (t :: ts) = true ↔ redir_kind t.
Proof.
  unfold redir_kind. split; [apply sees_redir|]. unfold sees. rewrite strchr_In.
  intros [-> | [-> | ->]]; vm_compute; set_solver.
Qed.

Lemma sees_stop t ts : sees [c_bar; c_close; c_amp; c_semi] (t :: ts) = true ↔ t_kind t ∈ [c_bar; c_close; c_amp; c_semi].
Proof.
  unfold sees. rewrite strchr_In. destruct (Z.eqb_spec (t_kind t) c_plus) as [->|Hp]; [|done].
  unfold c_gt, c_plus, c_bar, c_close, c_amp, c_semi. split; intros H; exfalso; set_solver.
Qed.

Lemma sees_one_nil k : sees [k] [] = false.
Proof. done. Qed.

(** Decides a [sees] on a token whose kind is known. *)
Lemma sees_false toks t ts k : t_kind t = k → strchr toks (if k =? c_plus then c_gt else k) = false → sees toks (t :: ts) = false.
Proof. unfold sees. by intros ->. Qed.

(** ** Redirections and words *)

Lemma wrap_app rs rs' c : wrap (rs ++ rs') c = wrap rs' (wrap rs c).
Proof. apply foldl_app. Qed.

Lemma add_arg_redir k c f w : add_arg (redir k c f) w = redir k (add_arg c w) f.
Proof. unfold redir. by destruct (k =? c_lt), (k =? c_gt). Qed.

Lemma add_arg_wrap rs w : ∀ c, add_arg (wrap rs c) w = wrap rs (add_arg c w).
Proof. induction rs as [|[k f] rs IH]; intros c; [done|]. cbn. change (foldl _ ?c rs) with (wrap rs c). by rewrite IH, add_arg_redir. Qed.

Lemma p_redirs_sound : ∀ n ts c c' ts', (length ts <= n)%nat → p_redirs c ts = POk (c', ts') →
  ∃ pre rs, ts = pre ++ ts' ∧ g_items pre [] rs ∧ c' = wrap rs c.
Proof.
  induction n as [|n IH]; intros ts c c' ts' Hn; destruct ts as [|t ts]; cbn [p_redirs length] in *; try lia.
  1, 2: intros [= <- <-]; exists [], []; by split_and!; [|constructor|].
  destruct (sees [c_lt; c_gt] (t :: ts)) eqn:Es.
  2: { intros [= <- <-]. exists [], []. by split_and!; [|constructor|]. }
  apply sees_redir_iff in Es. destruct ts as [|f ts]; [done|]. cbn [length] in *.
  destruct (Z.eqb_spec (t_kind f) c_a) as [Ef|]; [|done]. intros Hp.
  apply IH in Hp as (pre & rs & -> & Hi & ->); [|lia]. exists (t :: f :: pre), ((t_kind t, word_of f) :: rs).
  by split_and!; [|constructor|].
Qed.

Definition not_redir (ts : list tok) : Prop := sees [c_lt; c_gt] ts = false.

Lemma p_redirs_stop c ts : not_redir ts → p_redirs c ts = POk (c, ts).
Proof. unfold not_redir. destruct ts as [|t ts]; [done|]. cbn [p_redirs]. by intros ->. Qed.

Lemma p_redirs_step c t f ts : redir_kind t → t_kind f = c_a → p_redirs c (t :: f :: ts) = p_redirs (redir (t_kind t) c (word_of f)) ts.
Proof. intros Ht Hf. cbn [p_redirs]. rewrite (proj2 (sees_redir_iff t (f :: ts)) Ht), Hf. done. Qed.

Lemma p_redirs_complete pre ws rs rest c : g_items pre ws rs → ws = [] → not_redir rest →
  p_redirs c (pre ++ rest) = POk (wrap rs c, rest).
Proof.
  intros Hi. revert c. induction Hi as [|t ts ws rs Ht Hi IH|t f ts ws rs Ht Hf Hi IH]; intros c Hws Hrest.
  - by apply p_redirs_stop.
  - done.
  - cbn [app]. rewrite p_redirs_step by done. by rewrite IH.
Qed.

Lemma g_items_app ts1 ws1 rs1 ts2 ws2 rs2 : g_items ts1 ws1 rs1 → g_items ts2 ws2 rs2 → g_items (ts1 ++ ts2) (ws1 ++ ws2) (rs1 ++ rs2).
Proof. intros H1 H2. induction H1; cbn [app]; by try constructor. Qed.

Lemma p_words_sound fuel : ∀ ts ws0 rs0 c' ts', (length ws0 < MAXARGS)%nat →
  p_words fuel (wrap rs0 (TExec ws0)) (length ws0) ts = POk (c', ts') →
  ∃ pre ws rs, ts = pre ++ ts' ∧ g_items pre ws rs ∧ (length (ws0 ++ ws) < MAXARGS)%nat ∧ c' = wrap (rs0 ++ rs) (TExec (ws0 ++ ws)).
Proof.
  induction fuel as [|fuel IH]; intros ts ws0 rs0 c' ts' Hn; [done|]. cbn [p_words].
  destruct (sees _ ts).
  { intros [= <- <-]. exists [], [], []. rewrite !app_nil_r. by split_and!; [|constructor|..]. }
  destruct ts as [|t ts].
  { intros [= <- <-]. exists [], [], []. rewrite !app_nil_r. by split_and!; [|constructor|..]. }
  destruct (Z.eqb_spec (t_kind t) c_a) as [Ea|]; cbn [negb]; [|done]. case_decide as Hm; [done|].
  rewrite add_arg_wrap. cbn [add_arg]. destruct (p_redirs _ ts) as [[c1 ts1]| |] eqn:Er; try done.
  apply (p_redirs_sound (length ts)) in Er as (pre1 & rs1 & -> & Hi1 & ->); [|done].
  unfold mbind, pres_bind. rewrite <- wrap_app. replace (S (length ws0)) with (length (ws0 ++ [word_of t])) by (rewrite length_app; simpl; lia).
  intros Hw. apply IH in Hw as (pre2 & ws2 & rs2 & -> & Hi2 & Hlen & ->); [|rewrite length_app; simpl; lia].
  exists (t :: pre1 ++ pre2), (word_of t :: ws2), (rs1 ++ rs2). split_and!.
  - simpl. by rewrite <- app_assoc.
  - constructor; [done|]. by apply (g_items_app pre1 [] rs1).
  - by rewrite <- app_assoc in Hlen.
  - by rewrite <- !app_assoc.
Qed.

(** What may follow a command: nothing, or a symbol that ends it. *)
Definition follows (ks : list Z) (ts : list tok) : Prop := match ts with [] => True | t :: _ => t_kind t ∈ ks end.

Lemma follows_mono ks ks' ts : follows ks ts → (∀ k, k ∈ ks → k ∈ ks') → follows ks' ts.
Proof. destruct ts as [|t ts]; simpl; auto. Qed.

Definition f_exec : list Z := [c_bar; c_close; c_amp; c_semi].
Definition f_pipe : list Z := [c_close; c_amp; c_semi].
Definition f_back : list Z := [c_close; c_semi].
Definition f_line : list Z := [c_close].

Lemma follows_not_redir ts : follows f_exec ts → not_redir ts.
Proof.
  unfold not_redir. destruct ts as [|t ts]; [done|]. unfold follows, f_exec. rewrite !elem_of_cons.
  intros [H | [H | [H | [H | H]]]]; [by eapply sees_false..|]. by apply not_elem_of_nil in H.
Qed.

Lemma p_words_stop fuel c n ts : (0 < fuel)%nat → follows f_exec ts → p_words fuel c n ts = POk (c, ts).
Proof.
  intros Hf Hts. destruct fuel as [|fuel]; [lia|]. cbn [p_words]. destruct ts as [|t ts]; [done|].
  by rewrite (proj2 (sees_stop t ts) Hts).
Qed.

Lemma items_complete pre ws rs rest : g_items pre ws rs → follows f_exec rest →
  ∀ fuel c n, (length ws < fuel)%nat → (n + length ws < MAXARGS)%nat →
  ('(c, ts) ← p_redirs c (pre ++ rest); p_words fuel c n ts) = POk (wrap rs (foldl add_arg c ws), rest).
Proof.
  intros Hi Hrest. induction Hi as [|t ts ws rs Ht Hi IH|t f ts ws rs Ht Hf Hi IH]; intros fuel c n Hfuel Hn; cbn [app length] in *.
  - rewrite p_redirs_stop by by apply follows_not_redir. by apply p_words_stop.
  - rewrite p_redirs_stop by by apply (sees_false _ t _ c_a). unfold mbind, pres_bind. destruct fuel as [|fuel]; [lia|]. cbn [p_words].
    rewrite (sees_false _ t _ c_a) by done. rewrite Ht. cbn [negb]. change (c_a =? c_a) with true. cbn [negb].
    rewrite decide_False by lia. specialize (IH fuel (add_arg c (word_of t)) (S n)). unfold mbind, pres_bind in IH. apply IH; lia.
  - rewrite p_redirs_step by done. rewrite IH by lia. do 2 f_equal. change (wrap rs (foldl add_arg (redir (t_kind t) c (word_of f)) ws) = wrap rs (redir (t_kind t) (foldl add_arg c ws) (word_of f))). f_equal.
    clear. revert c. induction ws as [|w ws IH]; intros c; [done|]. cbn. by rewrite add_arg_redir, IH.
Qed.

(** ** The whole parser *)

Lemma amp_sym : c_amp ∈ [c_amp; c_semi; c_bar; c_open; c_close].
Proof. set_solver. Qed.
Lemma semi_sym : c_semi ∈ [c_amp; c_semi; c_bar; c_open; c_close].
Proof. set_solver. Qed.
Lemma bar_sym : c_bar ∈ [c_amp; c_semi; c_bar; c_open; c_close].
Proof. set_solver. Qed.
Lemma open_sym : c_open ∈ [c_amp; c_semi; c_bar; c_open; c_close].
Proof. set_solver. Qed.
Lemma close_sym : c_close ∈ [c_amp; c_semi; c_bar; c_open; c_close].
Proof. set_solver. Qed.
#[local] Hint Resolve amp_sym semi_sym bar_sym open_sym close_sym : core.

Lemma sees_split k ts : k ∈ [c_amp; c_semi; c_bar; c_open; c_close] → sees [k] ts = true → ∃ t ts', ts = t :: ts' ∧ t_kind t = k.
Proof. intros Hk Hs. destruct (sees_cons _ _ Hs) as (t & ts' & ->). apply sees_one in Hs; [|done]. by exists t, ts'. Qed.

Lemma sees_head k t ts : k ∈ [c_amp; c_semi; c_bar; c_open; c_close] → t_kind t = k → sees [k] (t :: ts) = true.
Proof. intros Hk Ht. by apply sees_one. Qed.

(** [sees] on what follows a command. *)
Lemma sees_follows k ks ts : k ∈ [c_amp; c_semi; c_bar; c_open; c_close] → follows ks ts → k ∉ ks → sees [k] ts = false.
Proof.
  intros Hk Hf Hn. destruct ts as [|t ts]; [done|]. apply not_true_is_false. rewrite sees_one by done. intros E.
  unfold follows in Hf. by rewrite E in Hf.
Qed.

Lemma p_amps_sound fuel : ∀ pre c ts c' ts', g_back pre c → p_amps fuel c ts = POk (c', ts') →
  ∃ pre', ts = pre' ++ ts' ∧ g_back (pre ++ pre') c'.
Proof.
  induction fuel as [|fuel IH]; intros pre c ts c' ts' Hb; [done|]. cbn [p_amps]. destruct (sees [c_amp] ts) eqn:Es.
  - apply sees_split in Es as (t & ts1 & -> & Ht); [|done]. cbn [tail]. intros Hp.
    apply (IH (pre ++ [t])) in Hp as (pre' & -> & Hb'); [|by constructor]. exists (t :: pre'). split; [done|].
    by rewrite <- app_assoc in Hb'.
  - intros [= <- <-]. exists []. by rewrite app_nil_r.
Qed.

(** [f] takes a sentence of [g] off the front of the tokens. *)
Definition sound (f : list tok → pres (tree * list tok)) (g : list tok → tree → Prop) : Prop :=
  ∀ ts c ts', f ts = POk (c, ts') → ∃ pre, ts = pre ++ ts' ∧ g pre c.

Lemma line_sound fuel : sound (p_pipe fuel) g_pipe → sound (p_line fuel) g_line → sound (p_line (S fuel)) g_line.
Proof.
  intros Hp Hl ts c ts'. cbn [p_line]. unfold mbind, pres_bind. destruct (p_pipe fuel ts) as [[c1 ts1]| |] eqn:E1; try done.
  apply Hp in E1 as (pre1 & -> & H1). destruct (p_amps _ c1 ts1) as [[c2 ts2]| |] eqn:E2; try done.
  apply (p_amps_sound _ pre1) in E2 as (pre2 & -> & H2); [|by constructor]. rewrite app_assoc. destruct (sees [c_semi] ts2) eqn:Es.
  - apply sees_split in Es as (t & ts3 & -> & Ht); [|done]. cbn [tail]. destruct (p_line fuel ts3) as [[r ts4]| |] eqn:E3; try done.
    apply Hl in E3 as (pre3 & -> & H3). intros [= <- <-]. exists ((pre1 ++ pre2) ++ t :: pre3). split; [by rewrite <- !app_assoc|].
    by constructor.
  - intros [= <- <-]. exists (pre1 ++ pre2). split; [done|]. by constructor.
Qed.

Lemma pipe_sound fuel : sound (p_exec fuel) g_exec → sound (p_pipe fuel) g_pipe → sound (p_pipe (S fuel)) g_pipe.
Proof.
  intros He Hp ts c ts'. cbn [p_pipe]. unfold mbind, pres_bind. destruct (p_exec fuel ts) as [[c1 ts1]| |] eqn:E1; try done.
  apply He in E1 as (pre1 & -> & H1). destruct (sees [c_bar] ts1) eqn:Es.
  - apply sees_split in Es as (t & ts3 & -> & Ht); [|done]. cbn [tail]. destruct (p_pipe fuel ts3) as [[r ts4]| |] eqn:E3; try done.
    apply Hp in E3 as (pre3 & -> & H3). intros [= <- <-]. exists (pre1 ++ t :: pre3). split; [by rewrite <- !app_assoc|].
    by constructor.
  - intros [= <- <-]. exists pre1. split; [done|]. by constructor.
Qed.

Lemma block_sound fuel : sound (p_line fuel) g_line → sound (p_block (S fuel)) g_exec.
Proof.
  intros Hl ts c ts'. cbn [p_block]. unfold mbind, pres_bind. destruct (sees [c_open] ts) eqn:Es; [|done].
  apply sees_split in Es as (o & ts1 & -> & Ho); [|done]. cbn [tail]. destruct (p_line fuel ts1) as [[c1 ts2]| |] eqn:E1; try done.
  apply Hl in E1 as (pre1 & -> & H1). destruct (sees [c_close] ts2) eqn:Es; [|done].
  apply sees_split in Es as (cl & ts3 & -> & Hcl); [|done]. cbn [tail]. intros Hr.
  apply (p_redirs_sound (length ts3)) in Hr as (pre2 & rs & -> & Hi & ->); [|done].
  exists (o :: pre1 ++ cl :: pre2). split; [simpl; by rewrite <- app_assoc|]. by constructor.
Qed.

Lemma exec_sound fuel : sound (p_block fuel) g_exec → sound (p_exec (S fuel)) g_exec.
Proof.
  intros Hb ts c ts'. cbn [p_exec]. destruct (sees [c_open] ts); [apply Hb|].
  unfold mbind, pres_bind. destruct (p_redirs _ ts) as [[c1 ts1]| |] eqn:E1; try done.
  apply (p_redirs_sound (length ts)) in E1 as (pre1 & rs1 & -> & Hi1 & ->); [|done]. intros Hw.
  apply (p_words_sound _ _ []) in Hw as (pre2 & ws & rs & -> & Hi2 & Hn & ->); [|simpl; unfold MAXARGS; lia].
  exists (pre1 ++ pre2). split; [by rewrite app_assoc|]. constructor; [|done]. by apply (g_items_app pre1 [] rs1 pre2).
Qed.

Lemma parser_sound fuel : sound (p_line fuel) g_line ∧ sound (p_pipe fuel) g_pipe ∧ sound (p_exec fuel) g_exec ∧ sound (p_block fuel) g_exec.
Proof.
  induction fuel as [|fuel (IHl & IHp & IHe & IHb)]; [by split_and!|].
  split_and!; [by apply line_sound|by apply pipe_sound|by apply exec_sound|by apply block_sound].
Qed.

(** ** Enough fuel *)

Lemma p_redirs_total : ∀ n ts c, (length ts <= n)%nat → p_redirs c ts ≠ PFuel.
Proof.
  induction n as [|n IH]; intros ts c Hn; destruct ts as [|t ts]; cbn [p_redirs length] in *; try done; [lia|].
  destruct (sees _ _); [|done]. destruct ts as [|f ts]; [done|]. destruct (_ =? c_a); [|done]. cbn [length] in *. apply IH. lia.
Qed.

Lemma p_words_total fuel : ∀ ts c n, (length ts < fuel)%nat → p_words fuel c n ts ≠ PFuel.
Proof.
  induction fuel as [|fuel IH]; intros ts c n Hf; [lia|]. cbn [p_words]. destruct (sees _ ts); [done|].
  destruct ts as [|t ts]; [done|]. cbn [length] in *. destruct (negb _); [done|]. case_decide; [done|].
  pose proof (p_redirs_total (length ts) ts (add_arg c (word_of t)) ltac:(done)) as Ht.
  destruct (p_redirs _ ts) as [[c1 ts1]| |] eqn:E; unfold mbind, pres_bind; try done. apply IH.
  apply (p_redirs_sound (length ts)) in E as (pre & rs & -> & _); [|done]. rewrite length_app in Hf. lia.
Qed.

Lemma p_amps_total fuel : ∀ ts c, (length ts < fuel)%nat → p_amps fuel c ts ≠ PFuel.
Proof.
  induction fuel as [|fuel IH]; intros ts c Hf; [lia|]. cbn [p_amps]. destruct (sees [c_amp] ts) eqn:E; [|done].
  apply IH. destruct (sees_cons _ _ E) as (t & ts' & ->). simpl in *. lia.
Qed.

Lemma sound_len f g ts c ts' : sound f g → f ts = POk (c, ts') → (length ts' <= length ts)%nat.
Proof. intros Hs Hf. apply Hs in Hf as (pre & -> & _). rewrite length_app. lia. Qed.

Lemma p_amps_len fuel c ts c' ts' : p_amps fuel c ts = POk (c', ts') → (length ts' <= length ts)%nat.
Proof.
  revert c ts. induction fuel as [|fuel IH]; intros c ts; [done|]. cbn [p_amps]. destruct (sees _ ts).
  - intros H%IH. destruct ts; simpl in *; lia.
  - by intros [= _ <-].
Qed.

(** With four units of fuel per token and [k] more, [f] gives an answer. *)
Definition total (f : nat → list tok → pres (tree * list tok)) (k : nat) (fuel : nat) : Prop :=
  ∀ ts, (4 * length ts + k <= fuel)%nat → f fuel ts ≠ PFuel.

Lemma parser_total fuel : total p_line 4 fuel ∧ total p_pipe 3 fuel ∧ total p_exec 2 fuel ∧ total p_block 1 fuel.
Proof.
  induction fuel as [|fuel (IHl & IHp & IHe & IHb)]; [by split_and!; intros ts; lia|].
  destruct (parser_sound fuel) as (Sl & Sp & Se & Sb). split_and!; intros ts Hf; cbn [p_line p_pipe p_exec p_block]; unfold mbind, pres_bind.
  - specialize (IHp ts ltac:(lia)). destruct (p_pipe fuel ts) as [[c1 ts1]| |] eqn:E1; try done. apply (sound_len _ _ _ _ _ Sp) in E1.
    pose proof (p_amps_total (S (length ts1)) ts1 c1 ltac:(lia)) as Ha. destruct (p_amps _ c1 ts1) as [[c2 ts2]| |] eqn:E2; try done.
    apply (p_amps_len _ _ _ _ _) in E2. destruct (sees [c_semi] ts2) eqn:Es; [|done]. destruct (sees_cons _ _ Es) as (t & ts3 & ->).
    cbn [tail length] in *. specialize (IHl ts3 ltac:(lia)). by destruct (p_line fuel ts3) as [[]| |].
  - specialize (IHe ts ltac:(lia)). destruct (p_exec fuel ts) as [[c1 ts1]| |] eqn:E1; try done. apply (sound_len _ _ _ _ _ Se) in E1.
    destruct (sees [c_bar] ts1) eqn:Es; [|done]. destruct (sees_cons _ _ Es) as (t & ts3 & ->).
    cbn [tail length] in *. specialize (IHp ts3 ltac:(lia)). by destruct (p_pipe fuel ts3) as [[]| |].
  - destruct (sees [c_open] ts); [apply IHb; lia|].
    pose proof (p_redirs_total (length ts) ts (TExec []) ltac:(done)) as Ht. destruct (p_redirs _ ts) as [[c1 ts1]| |]; try done.
    apply p_words_total. lia.
  - destruct (sees [c_open] ts) eqn:Es; [|done]. destruct (sees_cons _ _ Es) as (t & ts3 & ->). cbn [tail length] in *.
    specialize (IHl ts3 ltac:(lia)). destruct (p_line fuel ts3) as [[c1 ts1]| |]; try done.
    destruct (sees [c_close] ts1); [|done]. by apply (p_redirs_total (length (tail ts1))).
Qed.

(** ** Every sentence is parsed *)

Scheme g_line_ind2 := Minimality for g_line Sort Prop
with g_back_ind2 := Minimality for g_back Sort Prop
with g_pipe_ind2 := Minimality for g_pipe Sort Prop
with g_exec_ind2 := Minimality for g_exec Sort Prop.
Combined Scheme g_all_ind from g_line_ind2, g_back_ind2, g_pipe_ind2, g_exec_ind2.

(** [f] parses [ts] into [c], whatever of [ks] follows. *)
Definition takes (f : nat → list tok → pres (tree * list tok)) (k : nat) (ks : list Z) (ts : list tok) (c : tree) : Prop :=
  ∀ rest fuel, follows ks rest → (4 * length ts + k <= fuel)%nat → f fuel (ts ++ rest) = POk (c, rest).

(** The same for a command with [&]s behind it: [n] of them follow the pipeline. *)
Definition takes_back (ts : list tok) (c : tree) : Prop :=
  ∀ rest fuel, follows f_pipe rest → (4 * length ts + 3 <= fuel)%nat →
  ∃ c0 ts0 n, p_pipe fuel (ts ++ rest) = POk (c0, ts0) ∧ length ts0 = (n + length rest)%nat ∧
    ∀ fuel', (n < fuel')%nat → p_amps fuel' c0 ts0 = p_amps (fuel' - n) c rest.

Lemma not_in_list (k : Z) ks : forallb (λ x, negb (x =? k)) ks = true → k ∉ ks.
Proof. rewrite forallb_forall. intros H Hin. specialize (H k ltac:(by apply list_elem_of_In)). by rewrite Z.eqb_refl in H. Qed.

Lemma back_takes_line ts c fuel rest : takes_back ts c → follows f_back rest → (4 * length ts + 3 <= fuel)%nat →
  ('(c, ts) ← p_pipe fuel (ts ++ rest); p_amps (S (length ts)) c ts) = POk (c, rest).
Proof.
  intros Hb Hr Hf. destruct (Hb rest fuel) as (c0 & ts0 & n & Hp & Hlen & Ha); [|done|].
  { eapply follows_mono; [done|]. unfold f_back, f_pipe. set_solver. }
  rewrite Hp. unfold mbind, pres_bind. rewrite Ha by lia. rewrite Hlen. replace (S (n + length rest) - n)%nat with (S (length rest)) by lia.
  cbn [p_amps]. by rewrite (sees_follows c_amp f_back rest ltac:(done) Hr (not_in_list c_amp f_back eq_refl)).
Qed.

Lemma list_takes ts1 t ts2 l r : takes_back ts1 l → t_kind t = c_semi → takes p_line 4 f_line ts2 r → takes p_line 4 f_line (ts1 ++ t :: ts2) (TList l r).
Proof.
  intros Hb Ht Hl rest fuel Hr Hf. destruct fuel as [|fuel]; [lia|]. rewrite length_app in Hf. cbn [length p_line] in *.
  rewrite <- app_assoc. cbn [app].
  pose proof (back_takes_line ts1 l fuel (t :: ts2 ++ rest) Hb ltac:(simpl; rewrite Ht; unfold f_back; set_solver) ltac:(lia)) as H1.
  unfold mbind, pres_bind in H1 |- *. destruct (p_pipe fuel _) as [[c0 ts0]| |]; try done. rewrite H1.
  rewrite (sees_head _ _ _ semi_sym Ht). cbn [tail]. by rewrite (Hl rest fuel Hr) by lia.
Qed.

Lemma one_takes ts c : takes_back ts c → takes p_line 4 f_line ts c.
Proof.
  intros Hb rest fuel Hr Hf. destruct fuel as [|fuel]; [lia|]. cbn [p_line].
  pose proof (back_takes_line ts c fuel rest Hb ltac:(eapply follows_mono; [done|unfold f_line, f_back; set_solver]) ltac:(lia)) as H1.
  unfold mbind, pres_bind in H1 |- *. destruct (p_pipe fuel _) as [[c0 ts0]| |]; try done. rewrite H1.
  by rewrite (sees_follows c_semi f_line rest semi_sym Hr (not_in_list c_semi f_line eq_refl)).
Qed.

Lemma amp_takes ts t c : takes_back ts c → t_kind t = c_amp → takes_back (ts ++ [t]) (TBack c).
Proof.
  intros Hb Ht rest fuel Hr Hf. rewrite length_app in Hf. cbn [length] in Hf. rewrite <- app_assoc. cbn [app].
  destruct (Hb (t :: rest) fuel) as (c0 & ts0 & n & Hp & Hlen & Ha); [simpl; rewrite Ht; unfold f_pipe; set_solver|lia|].
  exists c0, ts0, (S n). split_and!; [done|simpl in *; lia|]. intros fuel' Hf'. rewrite Ha by lia.
  destruct (fuel' - n)%nat as [|k] eqn:Ek; [lia|]. cbn [p_amps]. rewrite (sees_head _ _ _ amp_sym Ht). cbn [tail]. f_equal. lia.
Qed.

Lemma pipe_takes ts1 t ts2 l r : takes p_exec 2 f_exec ts1 l → t_kind t = c_bar → takes p_pipe 3 f_pipe ts2 r →
  takes p_pipe 3 f_pipe (ts1 ++ t :: ts2) (TPipe l r).
Proof.
  intros He Ht Hp rest fuel Hr Hf. destruct fuel as [|fuel]; [lia|]. rewrite length_app in Hf. cbn [length p_pipe] in *.
  rewrite <- app_assoc. cbn [app]. rewrite (He (t :: ts2 ++ rest) fuel); [|simpl; rewrite Ht; unfold f_exec; set_solver|lia].
  unfold mbind, pres_bind. rewrite (sees_head _ _ _ bar_sym Ht). cbn [tail]. by rewrite (Hp rest fuel Hr) by lia.
Qed.

Lemma exec_takes ts c : takes p_exec 2 f_exec ts c → takes p_pipe 3 f_pipe ts c.
Proof.
  intros He rest fuel Hr Hf. destruct fuel as [|fuel]; [lia|]. cbn [p_pipe].
  rewrite (He rest fuel); [|eapply follows_mono; [done|unfold f_pipe, f_exec; set_solver]|lia].
  unfold mbind, pres_bind. by rewrite (sees_follows c_bar f_pipe rest bar_sym Hr (not_in_list c_bar f_pipe eq_refl)).
Qed.

Lemma items_not_open pre ws rs rest : g_items pre ws rs → follows f_exec rest → sees [c_open] (pre ++ rest) = false.
Proof.
  intros Hi Hr. destruct Hi as [|t ts ws rs Ht _|t f ts ws rs Ht _ _]; cbn [app].
  - by apply (sees_follows c_open f_exec rest open_sym Hr), not_in_list.
  - by apply (sees_false _ _ _ c_a).
  - destruct Ht as [Ht|[Ht|Ht]]; by eapply sees_false.
Qed.

Lemma items_words pre ws rs rest : g_items pre ws rs → ∀ c c1 ts1, follows f_exec rest → p_redirs c (pre ++ rest) = POk (c1, ts1) →
  (length ws <= length ts1)%nat.
Proof.
  intros Hi. induction Hi as [|t ts ws rs Ht Hi IH|t f ts ws rs Ht Hf Hi IH]; intros c c1 ts1 Hr; cbn [app length].
  - intros _. lia.
  - rewrite p_redirs_stop by by apply (sees_false _ t _ c_a). intros [= _ <-]. cbn [length]. rewrite length_app.
    assert (length ws <= length ts)%nat; [|lia]. clear -Hi. induction Hi; simpl; lia.
  - rewrite p_redirs_step by done. by apply IH.
Qed.

Lemma foldl_add_arg ws : ∀ ws0, foldl add_arg (TExec ws0) ws = TExec (ws0 ++ ws).
Proof. induction ws as [|w ws IH]; intros ws0; [by rewrite app_nil_r|]. cbn. by rewrite IH, <- app_assoc. Qed.

Lemma words_takes ts ws rs : g_items ts ws rs → (length ws < MAXARGS)%nat → takes p_exec 2 f_exec ts (wrap rs (TExec ws)).
Proof.
  intros Hi Hw rest fuel Hr Hf. destruct fuel as [|fuel]; [lia|]. cbn [p_exec]. rewrite (items_not_open _ _ _ _ Hi Hr).
  pose proof (items_complete _ _ _ _ Hi Hr) as H. pose proof (items_words _ _ _ rest Hi (TExec [])) as Hlen. unfold mbind, pres_bind in H |- *.
  pose proof (H (S (length ws)) (TExec []) 0%nat ltac:(lia) ltac:(lia)) as H0.
  specialize (λ fuel, H fuel (TExec []) 0%nat). rewrite foldl_add_arg in H.
  destruct (p_redirs _ _) as [[c1 ts1]| |]; [|done..]. specialize (Hlen c1 ts1 Hr eq_refl). apply H; lia.
Qed.

Lemma block_takes o ts c cl ts2 rs : t_kind o = c_open → takes p_line 4 f_line ts c → t_kind cl = c_close → g_items ts2 [] rs →
  takes p_exec 2 f_exec (o :: ts ++ cl :: ts2) (wrap rs c).
Proof.
  intros Ho Hl Hcl Hi rest fuel Hr Hf. cbn [length] in Hf. rewrite length_app in Hf. cbn [length] in Hf.
  destruct fuel as [|[|fuel]]; [lia..|]. cbn [p_exec p_block app]. rewrite !(sees_head _ _ _ open_sym Ho). cbn [tail].
  rewrite <- app_assoc. cbn [app]. rewrite (Hl (cl :: ts2 ++ rest) fuel); [|simpl; rewrite Hcl; unfold f_line; set_solver|lia].
  unfold mbind, pres_bind. rewrite (sees_head _ _ _ close_sym Hcl). cbn [tail].
  apply (p_redirs_complete _ []); [done|done|by apply follows_not_redir].
Qed.

Lemma parser_complete : (∀ ts c, g_line ts c → takes p_line 4 f_line ts c) ∧ (∀ ts c, g_back ts c → takes_back ts c) ∧
  (∀ ts c, g_pipe ts c → takes p_pipe 3 f_pipe ts c) ∧ (∀ ts c, g_exec ts c → takes p_exec 2 f_exec ts c).
Proof.
  apply g_all_ind.
  - intros ts c _. apply one_takes.
  - intros ts1 t ts2 l r _ Hb Ht _. by apply list_takes.
  - intros ts c _ Hp rest fuel Hr Hf. exists c, rest, 0%nat. split_and!; [by apply Hp|done|]. intros fuel' _. by rewrite Nat.sub_0_r.
  - intros ts t c _. apply amp_takes.
  - intros ts c _. apply exec_takes.
  - intros ts1 t ts2 l r _ He Ht _. by apply pipe_takes.
  - apply words_takes.
  - intros o ts c cl ts2 rs Ho _ Hl. by apply block_takes.
Qed.

(** The parser on tokens decides the grammar. *)
Lemma p_line_decides ts fuel : (4 * length ts + 4 <= fuel)%nat →
  match p_line fuel ts with
  | POk (c, []) => g_line ts c
  | POk (_, _ :: _) | PErr _ => ∀ c, ¬ g_line ts c
  | PFuel => False
  end.
Proof.
  intros Hf. destruct (parser_sound fuel) as (Hs & _). destruct (parser_total fuel) as (Ht & _).
  assert (Hc : ∀ c, g_line ts c → p_line fuel ts = POk (c, [])).
  { intros c Hg. rewrite <- (app_nil_r ts). by apply (proj1 parser_complete ts c Hg [] fuel). }
  destruct (p_line fuel ts) as [[c [|t ts']]|msg|] eqn:E.
  - apply Hs in E as (pre & -> & Hg). by rewrite app_nil_r.
  - intros c' Hg. by apply Hc in Hg.
  - intros c' Hg. by apply Hc in Hg.
  - by apply (Ht ts Hf).
Qed.
