(* ===== verification/ShSpec.v ===== *)
(** The command parser of user/sh.c as a whole: which lines it accepts and what
    [runcmd] is given. *)

From S2P Require Import Prelude Str Sysfile Sh ShLex ShParse ShGrammar.

(** ** Commands with their words *)

Inductive command :=
| Exec (argv : list (list Z))
| Redir (sub : command) (file : list Z) (mode fd : Z)
| Pipe (l r : command)
| List (l r : command)
| Back (sub : command).

(** The characters of the line from [w.1] up to [w.2]. *)
Definition slice (line : list Z) (w : nat * nat) : list Z := take (w.2 - w.1) (drop w.1 line).

Fixpoint text_of (line : list Z) (c : tree) : command :=
  match c with
  | TExec args => Exec (slice line <$> args)
  | TRedir sub f m d => Redir (text_of line sub) (slice line f) m d
  | TPipe l r => Pipe (text_of line l) (text_of line r)
  | TList l r => List (text_of line l) (text_of line r)
  | TBack sub => Back (text_of line sub)
  end.

(** [argv] holds pointers to the strings [ws], then a null pointer. *)
Definition shows_argv (buf : list Z) (argv : list (option nat)) (ws : list (list Z)) : Prop :=
  ∃ qs, take (length ws) argv = Some <$> qs ∧ (λ q, cstr (drop q buf)) <$> qs = ws ∧ argv !! length ws = Some None.

(** The structures at [p] say [c], as [runcmd] reads them; a structure is allocated
    after those it points to. *)
Fixpoint shows (buf : list Z) (h : list cmd) (c : command) (p : nat) : Prop :=
  match c with
  | Exec ws => ∃ argv eargv, h !! p = Some (EXEC argv eargv) ∧ shows_argv buf argv ws
  | Redir sub f m d => ∃ p' q e, h !! p = Some (REDIR p' q e m d) ∧ cstr (drop q buf) = f ∧ (p' < p)%nat ∧ shows buf h sub p'
  | Pipe l r => ∃ pl pr, h !! p = Some (PIPE pl pr) ∧ (pl < p)%nat ∧ (pr < p)%nat ∧ shows buf h l pl ∧ shows buf h r pr
  | List l r => ∃ pl pr, h !! p = Some (LIST pl pr) ∧ (pl < p)%nat ∧ (pr < p)%nat ∧ shows buf h l pl ∧ shows buf h r pr
  | Back sub => ∃ p', h !! p = Some (BACK p') ∧ (p' < p)%nat ∧ shows buf h sub p'
  end.

(** ** Words *)

(** The words of a command. *)
Fixpoint words (c : tree) : list (nat * nat) :=
  match c with
  | TExec args => args
  | TRedir sub f _ _ => words sub ++ [f]
  | TPipe l r | TList l r => words l ++ words r
  | TBack sub => words sub
  end.

Record is_span (line : list Z) (w : nat * nat) : Prop := {
  sp_lt : (w.1 < w.2)%nat;
  sp_le : (w.2 <= length line)%nat;
  sp_in : ∀ i c, (w.1 <= i < w.2)%nat → line !! i = Some c → is_word c = true;
  sp_end : ∀ c, line !! w.2 = Some c → is_word c = false }.

Lemma lex_spans line l : ∀ pre q, line = pre ++ l →
  (∀ q0, q = Some q0 → (q0 < length pre)%nat ∧ ∀ i c, (q0 <= i < length pre)%nat → line !! i = Some c → is_word c = true) →
  Forall (λ t, t_kind t = c_a → is_span line (word_of t)) (lex q (length pre) l).
Proof.
  induction l as [l IH] using (well_founded_induction (well_founded_ltof _ (@length Z))). intros pre q Hline Hq.
  assert (Hfl : (∀ c, line !! length pre = Some c → is_word c = false) →
    Forall (λ t, t_kind t = c_a → is_span line (word_of t)) (flush q (length pre))).
  { intros He. destruct q as [q0|]; [|constructor]. apply list.Forall_singleton. intros _. destruct (Hq q0 eq_refl) as [H1 H2].
    split; cbn; [done|rewrite Hline, length_app; lia|done|done]. }
  destruct l as [|c l].
  { apply Hfl. intros c. rewrite Hline, app_nil_r. by rewrite lookup_ge_None_2. }
  assert (Hpre : line = (pre ++ [c]) ++ l) by by rewrite <- app_assoc.
  assert (Hlen : S (length pre) = length (pre ++ [c])) by (rewrite length_app; simpl; lia).
  assert (Hc : line !! length pre = Some c) by (rewrite Hline; by apply list_lookup_middle).
  cbn [lex]. destruct (is_word c) eqn:Ew.
  { rewrite Hlen. apply IH; [unfold ltof; simpl; lia|done|]. intros q0 [= Hq0]. rewrite <- Hlen. destruct q as [q1|]; cbn in Hq0; unfold id in Hq0; subst q0.
    - destruct (Hq q1 eq_refl) as [H1 H2]. split; [lia|]. intros i x Hi Hx. destruct (decide (i = length pre)) as [->|]; [congruence|].
      apply (H2 i); [lia|done].
    - split; [lia|]. intros i x Hi Hx. replace i with (length pre) in Hx by lia. congruence. }
  assert (IH1 : Forall (λ t, t_kind t = c_a → is_span line (word_of t)) (lex None (S (length pre)) l)).
  { rewrite Hlen. apply IH; [unfold ltof; simpl; lia|done|done]. }
  apply Forall_app; split; [apply Hfl; congruence|]. destruct (is_ws c) eqn:Es; [done|].
  assert (Hca : c ≠ c_a) by (intros ->; done).
  assert (Hone : Forall (λ t, t_kind t = c_a → is_span line (word_of t)) (Tok c (length pre) (S (length pre)) :: lex None (S (length pre)) l))
    by (constructor; [done|done]).
  destruct (c =? c_gt); [|done]. destruct l as [|d l]; [constructor; [done|constructor]|]. destruct (d =? c_gt); [|done].
  constructor; [done|]. replace (S (S (length pre))) with (length (pre ++ [c; d])) by (rewrite length_app; simpl; lia).
  apply IH; [unfold ltof; simpl; lia|by rewrite <- app_assoc|done].
Qed.

(** Where the words of a sentence come from. *)
Definition word_in (ts : list tok) (w : nat * nat) : Prop := ∃ t, t ∈ ts ∧ t_kind t = c_a ∧ w = word_of t.

Lemma word_in_mono ts ts' w : word_in ts w → ts ⊆ ts' → word_in ts' w.
Proof. intros (t & Ht & Hk & ->) Hs. exists t. auto. Qed.

Lemma words_redir k c f w : w ∈ words (redir k c f) → w ∈ words c ∨ w = f.
Proof. unfold redir. destruct (k =? c_lt), (k =? c_gt); cbn [words]; set_solver. Qed.

Lemma words_wrap rs w : ∀ c, w ∈ words (wrap rs c) → w ∈ words c ∨ w ∈ rs.*2.
Proof.
  induction rs as [|[k f] rs IH]; intros c; [by left|]. cbn. intros [H|H]%IH; [|set_solver].
  apply words_redir in H. cbn in H. set_solver.
Qed.

Lemma words_items ts ws rs w : g_items ts ws rs → w ∈ ws ∨ w ∈ rs.*2 → word_in ts w.
Proof.
  intros Hi. induction Hi as [|t ts ws rs Ht Hi IH|t f ts ws rs Ht Hf Hi IH]; cbn.
  - set_solver.
  - rewrite elem_of_cons. intros [[->|H]|H]; [exists t; set_solver|eapply word_in_mono; [by apply IH; left|set_solver]
      |eapply word_in_mono; [by apply IH; right|set_solver]].
  - rewrite elem_of_cons. intros [H|[->|H]]; [eapply word_in_mono; [by apply IH; left|set_solver]|exists f; set_solver
      |eapply word_in_mono; [by apply IH; right|set_solver]].
Qed.

Lemma grammar_words :
  (∀ ts c, g_line ts c → ∀ w, w ∈ words c → word_in ts w) ∧ (∀ ts c, g_back ts c → ∀ w, w ∈ words c → word_in ts w) ∧
  (∀ ts c, g_pipe ts c → ∀ w, w ∈ words c → word_in ts w) ∧ (∀ ts c, g_exec ts c → ∀ w, w ∈ words c → word_in ts w).
Proof.
  apply g_all_ind.
  - auto.
  - intros ts1 t ts2 l r _ Hl _ _ Hr w. cbn [words]. rewrite elem_of_app.
    intros [H|H]; [apply Hl in H|apply Hr in H]; (eapply word_in_mono; [done|set_solver]).
  - auto.
  - intros ts t c _ Hc _ w Hw. eapply word_in_mono; [by apply Hc|set_solver].
  - auto.
  - intros ts1 t ts2 l r _ Hl _ _ Hr w. cbn [words]. rewrite elem_of_app.
    intros [H|H]; [apply Hl in H|apply Hr in H]; (eapply word_in_mono; [done|set_solver]).
  - intros ts ws rs Hi _ w Hw. eapply words_items; [done|]. by apply words_wrap in Hw.
  - intros o ts c cl ts2 rs _ _ Hc _ Hi w [Hw|Hw]%words_wrap.
    + eapply word_in_mono; [by apply Hc|set_solver].
    + eapply word_in_mono; [eapply words_items; [done|by right]|set_solver].
Qed.

Lemma line_spans line c w : g_line (lex None 0 line) c → w ∈ words c → is_span line w.
Proof.
  intros Hg Hw. apply (proj1 grammar_words _ _ Hg) in Hw as (t & Ht & Hk & ->).
  pose proof (lex_spans line line [] None eq_refl ltac:(done)) as H. rewrite list.Forall_forall in H. by apply H.
Qed.

(** ** [nulterminate] *)

Definition zero_at (b : list Z) (es : list nat) : list Z := foldl (λ b e, <[e := 0]> b) b es.

Lemma zero_at_app b es es' : zero_at b (es ++ es') = zero_at (zero_at b es) es'.
Proof. apply foldl_app. Qed.

Lemma zero_at_length es : ∀ b, length (zero_at b es) = length b.
Proof. induction es as [|e es IH]; intros b; [done|]. cbn. change (foldl _ ?b es) with (zero_at b es). by rewrite IH, length_insert. Qed.

Lemma zero_at_ne es i : ∀ b, i ∉ es → zero_at b es !! i = b !! i.
Proof.
  induction es as [|e es IH]; intros b Hi; [done|]. apply not_elem_of_cons in Hi as [Hne Hi].
  cbn. change (foldl _ ?b es) with (zero_at b es). by rewrite IH, list_lookup_insert_ne.
Qed.

Lemma zero_at_eq es i : ∀ b, i ∈ es → (i < length b)%nat → zero_at b es !! i = Some 0.
Proof.
  induction es as [|e es IH]; intros b Hi Hl; [by apply not_elem_of_nil in Hi|]. cbn. change (foldl _ ?b es) with (zero_at b es).
  destruct (decide (i ∈ es)) as [Hin|Hni]; [apply IH; [done|by rewrite length_insert]|].
  apply elem_of_cons in Hi as [->|Hi]; [|done]. by rewrite zero_at_ne, list_lookup_insert_eq.
Qed.

Definition zeroed (st : sh) (es : list nat) : sh := Sh (zero_at (sh_buf st) es) (sh_heap st) (sh_free st).

Lemma zeroed_app st es es' : zeroed st (es ++ es') = zeroed (zeroed st es) es'.
Proof. unfold zeroed. cbn. by rewrite zero_at_app. Qed.

Lemma poke_ok {B} e (f : unit → M sh B) st : (e < length (sh_buf st))%nat → (poke e 0 ≫= f) st = f tt (zeroed st [e]).
Proof. intros He. unfold poke, mbind, M_bind, gets. by rewrite decide_True. Qed.

Lemma lookup_argv_of l i : (length l < MAXARGS)%nat → (i <= length l)%nat → argv_of l !! i = Some (l !! i).
Proof.
  intros Hl Hi. unfold argv_of. destruct (decide (i = length l)) as [->|Hne].
  - rewrite lookup_app_r by (rewrite length_fmap; lia). rewrite length_fmap, Nat.sub_diag.
    rewrite lookup_replicate_2 by lia. by rewrite lookup_ge_None_2.
  - rewrite lookup_app_l by (rewrite length_fmap; lia). rewrite list_lookup_fmap.
    destruct (l !! i) eqn:E; [done|]. apply lookup_ge_None in E. lia.
Qed.

Lemma nulterminate_args_ok args : (length args < MAXARGS)%nat → ∀ fuel i st, (length args - i < fuel)%nat → (i <= length args)%nat →
  (∀ w, w ∈ args → (w.2 < length (sh_buf st))%nat) →
  loop fuel (nulterminate_arg (argv_of args.*1) (argv_of args.*2)) i st = Ok (tt, zeroed st (drop i args.*2)).
Proof.
  intros Hn fuel. induction fuel as [|fuel IH]; intros i st Hf Hi Hw; [lia|]. rewrite loop_S.
  assert (nulterminate_arg (argv_of args.*1) (argv_of args.*2) i st =
    Ok (match args !! i with Some w => (inl (S i), zeroed st [w.2]) | None => (inr tt, st) end)) as Hb.
  { unfold nulterminate_arg. rewrite !lookup_argv_of by (rewrite length_fmap; lia). rewrite !list_lookup_fmap.
    destruct (args !! i) as [w|] eqn:E; cbn [fmap option_fmap option_map]; [|done]. rewrite poke_ok; [done|].
    apply Hw. by eapply list_elem_of_lookup_2. }
  destruct (args !! i) as [w|] eqn:E; rewrite (bind_ok _ _ _ _ _ Hb).
  - pose proof (lookup_lt_Some _ _ _ E). rewrite IH; [|lia|lia|intros w' Hw'; cbn; rewrite length_insert; auto].
    rewrite (drop_S args.*2 w.2 i) by by rewrite list_lookup_fmap, E. by rewrite <- (zeroed_app st [w.2]).
  - apply lookup_ge_None in E. rewrite drop_ge by (rewrite length_fmap; lia). by destruct st.
Qed.

Lemma nulterminate_ok c : ∀ fuel p st, rep (sh_heap st) c p → (p < fuel)%nat →
  (∀ w, w ∈ words c → (w.2 < length (sh_buf st))%nat) →
  nulterminate fuel p st = Ok (tt, zeroed st (words c).*2).
Proof.
  assert (Hlen : ∀ st es, length (sh_buf (zeroed st es)) = length (sh_buf st)) by (intros; apply zero_at_length).
  induction c as [args|sub IH f m d|l IHl r IHr|l IHl r IHr|sub IH]; intros fuel p st; cbn [rep words];
    (destruct fuel as [|fuel]; [lia|]); cbn [nulterminate].
  - intros [Hp Hn] _ Hw. unfold mbind, M_bind, gets, id. rewrite Hp. cbn [exec_of].
    by rewrite nulterminate_args_ok by (done || unfold MAXARGS in *; lia).
  - intros (p' & Hp & Hlt & Hs) Hf Hw. unfold mbind at 1, M_bind at 1, gets, id. rewrite Hp.
    rewrite (bind_ok _ _ _ tt (zeroed st (words sub).*2)) by (apply IH; [done|lia|set_solver]).
    rewrite fmap_app, zeroed_app. unfold poke, mbind, M_bind, gets. rewrite decide_True; [done|].
    rewrite Hlen. apply (Hw f). set_solver.
  - intros (pl & pr & Hp & Hlt1 & Hlt2 & Hl & Hr) Hf Hw. unfold mbind at 1, M_bind at 1, gets, id. rewrite Hp.
    rewrite (bind_ok _ _ _ tt (zeroed st (words l).*2)) by (apply IHl; [done|lia|set_solver]).
    rewrite IHr; [by rewrite fmap_app, zeroed_app|done|lia|rewrite Hlen; set_solver].
  - intros (pl & pr & Hp & Hlt1 & Hlt2 & Hl & Hr) Hf Hw. unfold mbind at 1, M_bind at 1, gets, id. rewrite Hp.
    rewrite (bind_ok _ _ _ tt (zeroed st (words l).*2)) by (apply IHl; [done|lia|set_solver]).
    rewrite IHr; [by rewrite fmap_app, zeroed_app|done|lia|rewrite Hlen; set_solver].
  - intros (p' & Hp & Hlt & Hs) Hf Hw. unfold mbind at 1, M_bind at 1, gets, id. rewrite Hp. apply IH; [done|lia|done].
Qed.

Lemma cstr_app ws rest : 0 ∉ ws → cstr (ws ++ 0 :: rest) = ws.
Proof.
  induction ws as [|c ws IH]; intros H0; [done|]. apply not_elem_of_cons in H0 as [Hc H0]. cbn [app cstr].
  by rewrite (proj2 (truth_ne c)), IH.
Qed.

Section Line.
Context (line junk : list Z) (Hline : 0 ∉ line).

(** Zeros at the ends of words leave the words as they are, and terminate them. *)
Lemma zero_at_word ws w : (∀ w', w' ∈ ws → is_span line w') → w ∈ ws →
  cstr (drop w.1 (zero_at (line ++ 0 :: junk) ws.*2)) = slice line w.
Proof.
  intros Hs Hw. pose proof (Hs w Hw) as [Hlt Hle Hin Hend]. set (b := zero_at _ _).
  assert (Hb : take (w.2 - w.1) (drop w.1 b) = slice line w).
  { apply list_eq. intros i. unfold slice. destruct (decide (i < w.2 - w.1)%nat) as [Hi|Hi]; [|by rewrite !lookup_take_ge by lia].
    rewrite !lookup_take_lt, !lookup_drop by done. unfold b. rewrite zero_at_ne; [by rewrite lookup_app_l by lia|].
    intros (w' & He & Hw')%list_elem_of_fmap. destruct (Hs w' Hw') as [_ Hle' _ Hend'].
    destruct (line !! (w.1 + i)%nat) as [c|] eqn:Ec; [|apply lookup_ge_None in Ec; lia].
    rewrite <- He in Hend'. specialize (Hend' c Ec).
    rewrite (Hin (w.1 + i)%nat c) in Hend'; [done|lia|done]. }
  assert (Hz : b !! w.2 = Some 0).
  { unfold b. apply zero_at_eq; [apply list_elem_of_fmap; by exists w|]. rewrite length_app. simpl. lia. }
  rewrite <- (take_drop (w.2 - w.1) (drop w.1 b)), Hb, drop_drop. replace (w.1 + (w.2 - w.1))%nat with w.2 by lia.
  rewrite (drop_S _ _ _ Hz), cstr_app; [done|]. unfold slice. intros H0. apply Hline.
  rewrite <- (take_drop w.1 line), <- (take_drop (w.2 - w.1) (drop w.1 line)). set_solver.
Qed.

Lemma rep_shows h b (P : nat * nat → Prop) c : ∀ p, (∀ w, P w → cstr (drop w.1 b) = slice line w) →
  (∀ w, w ∈ words c → P w) → rep h c p → shows b h (text_of line c) p.
Proof.
  intros p HP. revert p.
  induction c as [args|sub IH f m d|l IHl r IHr|l IHl r IHr|sub IH]; intros p Hw; cbn [rep words text_of shows] in *.
  - intros [Hp Hn]. eexists _, _. split; [done|]. exists args.*1. rewrite length_fmap. split_and!.
    + unfold argv_of. rewrite take_app_length' by by rewrite !length_fmap. done.
    + rewrite <- list_fmap_compose. apply list_fmap_ext. intros i w Hi. cbn. apply HP, Hw. by eapply list_elem_of_lookup_2.
    + rewrite lookup_argv_of by (rewrite length_fmap; lia). by rewrite lookup_ge_None_2 by (rewrite length_fmap; lia).
  - intros (p' & Hp & Hlt & Hs). exists p', f.1, f.2. split_and!; [done|apply HP, Hw; set_solver|done|apply IH; set_solver].
  - intros (pl & pr & Hp & Hlt1 & Hlt2 & Hl & Hr). exists pl, pr. split_and!; [done..|apply IHl; set_solver|apply IHr; set_solver].
  - intros (pl & pr & Hp & Hlt1 & Hlt2 & Hl & Hr). exists pl, pr. split_and!; [done..|apply IHl; set_solver|apply IHr; set_solver].
  - intros (p' & Hp & Hlt & Hs). exists p'. split_and!; [done..|]. by apply IH.
Qed.

Lemma buf_strlen_ok st : has_line line junk st → buf_strlen st = Ok (length line, st).
Proof.
  intros Hst. unfold buf_strlen. rewrite (bind_ok _ _ _ (sh_buf st) st) by done. rewrite Hst at 1.
  set (body := λ n : nat, _).
  assert (H : ∀ k fuel n, (length line - n = k)%nat → (k < fuel)%nat → (n <= length line)%nat → loop fuel body n st = Ok (length line, st)).
  { induction k as [|k IH]; intros fuel n Hk Hf Hn; (destruct fuel as [|fuel]; [lia|]); rewrite loop_S;
      rewrite (bind_ok _ _ _ (if truth (default 0 (line !! n)) then inl (S n) else inr n) st) by
        (unfold body, mbind, M_bind; by rewrite (deref_ok line junk)).
    - replace n with (length line) by lia. by rewrite lookup_ge_None_2.
    - destruct (line !! n) as [c|] eqn:E; [|apply lookup_ge_None in E; lia]. cbn [default]. unfold id.
      rewrite (proj2 (truth_ne c)) by (intros ->; apply Hline; by eapply list_elem_of_lookup_2). apply IH; lia. }
  apply (H (length line)); rewrite ?length_app; simpl; lia.
Qed.
End Line.

(** ** The parser as a whole *)

(** What the code does, in terms of the parser on tokens. *)
Lemma parsecmd_run line junk st : 0 ∉ line → has_line line junk st → (2 * length line + 1 <= sh_free st)%nat →
  match p_line (parse_fuel (length line)) (lex None 0 line) with
  | POk (c, []) => ∃ p st', parsecmd st = Ok (p, st') ∧ shows (sh_buf st') (sh_heap st') (text_of line c) p
  | _ => ∃ msg, parsecmd st = Panic msg
  end.
Proof.
  intros Hline Hst Hfree. pose proof (length_lex line None 0) as Hlen. cbv iota in Hlen. rewrite Nat.add_0_r in Hlen.
  unfold parsecmd. rewrite (bind_ok _ _ _ _ _ (buf_strlen_ok line junk Hline st Hst)).
  destruct (parser_sim line junk Hline (parse_fuel (length line))) as (Hsim & _).
  specialize (Hsim (lex None 0 line) 0%nat st Hst ltac:(split; [lia|done]) ltac:(lia)).
  pose proof (p_line_decides (lex None 0 line) (parse_fuel (length line)) ltac:(unfold parse_fuel; lia)) as Hdec.
  unfold sim in Hsim. destruct (p_line _ _) as [[c ts']|msg|]; [|exists msg; unfold mbind, M_bind; by rewrite Hsim|done].
  destruct Hsim as ([p s] & st1 & Hrun & [Hrep Hat Hst1 _ _ _]). cbn [fst snd] in *. rewrite (bind_ok _ _ _ _ _ Hrun).
  destruct (peek_ok line junk Hline s ts' [] st1 Hst1 Hat ltac:(by intros ? ?%not_elem_of_nil)) as (s' & Hpeek & Hat' & Hend).
  rewrite (bind_ok _ _ _ _ _ Hpeek). destruct ts' as [|t ts'].
  - rewrite (Hend eq_refl), Nat.eqb_refl. cbn [negb]. rewrite (bind_ok _ _ _ (sh_heap st1) st1) by done.
    assert (Hsp : ∀ w, w ∈ words c → is_span line w) by (intros w; by apply line_spans).
    rewrite (bind_ok _ _ _ tt (zeroed st1 (words c).*2)).
    + exists p, (zeroed st1 (words c).*2). split; [done|].
      apply rep_shows with (P := λ w, w ∈ words c); [done..| |done|done].
      intros w Hw. cbn. rewrite Hst1. by apply zero_at_word.
    + apply nulterminate_ok; [done|apply rep_lt in Hrep; lia|]. intros w Hw. destruct (Hsp w Hw) as [_ Hle _ _].
      rewrite Hst1, length_app. simpl. lia.
  - destruct (Nat.eqb_spec s' (length line)) as [->|Hne]; cbn [negb]; [|by exists "syntax"].
    destruct Hat' as [_ Hl]. by rewrite drop_all in Hl.
Qed.

(** C5. Given any line in its buffer, with memory for two structures per character and
    one more, [parsecmd] terminates without leaving the buffer, its structures or their argument
    arrays.  It accepts exactly the lines of the grammar: it returns structures that
    say what the line means, with every word terminated by a zero in the buffer, or
    reports a syntax error for a line that means nothing. *)
Theorem parsecmd_decides line junk st : 0 ∉ line → has_line line junk st → (2 * length line + 1 <= sh_free st)%nat →
  match parsecmd st with
  | Ok (p, st') => ∃ c, g_line (lex None 0 line) c ∧ shows (sh_buf st') (sh_heap st') (text_of line c) p
  | Panic _ => ∀ c, ¬ g_line (lex None 0 line) c
  | _ => False
  end.
Proof.
  intros Hline Hst Hfree. pose proof (parsecmd_run line junk st Hline Hst Hfree) as Hrun.
  pose proof (length_lex line None 0) as Hlen. cbv iota in Hlen.
  pose proof (p_line_decides (lex None 0 line) (parse_fuel (length line)) ltac:(unfold parse_fuel; lia)) as Hdec.
  destruct (p_line _ _) as [[c [|t ts]]|msg|]; [| | |done].
  - destruct Hrun as (p & st' & -> & Hs). by exists c.
  - by destruct Hrun as [msg ->].
  - by destruct Hrun as [msg' ->].
Qed.
