(* ===== verification/ShPrint.v ===== *)
(** Commands written out as text, and that the parser of user/sh.c reads them back. *)

From S2P Require Import Prelude Str Sysfile Sh ShLex ShParse ShGrammar ShSpec.

(** ** Printing commands *)

(** A token's text, each followed by a blank. *)
Definition render (ps : list (list Z)) : list Z := concat ((λ p, p ++ [32]) <$> ps).

Definition paren (b : bool) (ps : list (list Z)) : list (list Z) := if b then [[c_open]] ++ ps ++ [[c_close]] else ps.

Definition redir_text (mode : Z) (fd : Z) : list Z :=
  if fd =? 0 then [c_lt] else if mode =? Z.lor O_WRONLY O_CREATE then [c_gt; c_gt] else [c_gt].

(** The tokens of a command where one of level [lv] is wanted: a line (0), a line
    without [;] (1), one without [&] (2), or a single command (3). *)
Fixpoint pieces (lv : nat) (c : command) : list (list Z) :=
  match c with
  | Exec ws => ws
  | Redir sub f m d => pieces 3 sub ++ [redir_text m d; f]
  | Pipe l r => paren (2 <? lv)%nat (pieces 3 l ++ [c_bar] :: pieces 2 r)
  | Back sub => paren (1 <? lv)%nat (pieces 1 sub ++ [[c_amp]])
  | List l r => paren (0 <? lv)%nat (pieces 1 l ++ [c_semi] :: pieces 0 r)
  end.

Definition print (c : command) : list Z := render (pieces 0 c).

Definition good_word (w : list Z) : bool := negb (bool_decide (w = [])) && forallb (λ c, is_word c && truth c) w.

(** The commands the parser can make. *)
Fixpoint good (c : command) : bool :=
  match c with
  | Exec ws => bool_decide (length ws < MAXARGS)%nat && forallb good_word ws
  | Redir sub f m d => good sub && good_word f &&
      bool_decide ((m, d) ∈ [(O_RDONLY, 0); (Z.lor (Z.lor O_WRONLY O_CREATE) O_TRUNC, 1); (Z.lor O_WRONLY O_CREATE, 1)])
  | Pipe l r | List l r => good l && good r
  | Back sub => good sub
  end.

(** ** The tokens of printed commands *)

Definition kind_of (p : list Z) : Z :=
  if good_word p then c_a else if bool_decide (p = [c_gt; c_gt]) then c_plus else chr p.

Fixpoint toks (s : nat) (ps : list (list Z)) : list tok :=
  match ps with
  | [] => []
  | p :: ps => Tok (kind_of p) s (s + length p) :: toks (s + length p + 1) ps
  end.

Definition syms : list (list Z) := [[c_bar]; [c_open]; [c_close]; [c_semi]; [c_amp]; [c_lt]; [c_gt]; [c_gt; c_gt]].

Definition piece_ok (p : list Z) : Prop := good_word p = true ∨ p ∈ syms.

Lemma good_word_spec p : good_word p = true ↔ p ≠ [] ∧ Forall (λ c, is_word c = true ∧ c ≠ 0) p.
Proof.
  unfold good_word. rewrite andb_true_iff, negb_true_iff, bool_decide_eq_false, forallb_forall, list.Forall_forall.
  apply and_iff_compat_l. split; intros H c; specialize (H c); rewrite list_elem_of_In in *; intros Hc; apply H in Hc;
    [apply andb_prop in Hc as [? ?%truth_ne]|apply andb_true_intro; rewrite truth_ne]; done.
Qed.

Lemma span_all f p c l : Forall (λ c, f c = true) p → f c = false → span f (p ++ c :: l) = length p.
Proof. intros Hp Hc. induction Hp as [|x p Hx _ IH]; cbn [app span length]; [by rewrite Hc|by rewrite Hx, IH]. Qed.

Lemma lex_piece s p l : piece_ok p → lex None s (p ++ 32 :: l) = Tok (kind_of p) s (s + length p) :: lex None (s + length p + 1) l.
Proof.
  intros [Hw|Hs].
  - unfold kind_of. rewrite Hw. apply good_word_spec in Hw as [Hne Hw]. destruct p as [|c p]; [done|].
    apply list.Forall_cons in Hw as [[Hc _] Hw]. cbn [app lex]. rewrite Hc. cbn [default]. rewrite lex_word.
    rewrite (span_all is_word p); [|eapply list.Forall_impl; [done|]; naive_solver|done].
    replace (S s + length p)%nat with (s + length (c :: p))%nat by (simpl; lia). f_equal.
    rewrite drop_app_length. cbn [lex]. change (is_word 32) with false. change (is_ws 32) with true. cbn [flush app].
    by replace (s + length (c :: p) + 1)%nat with (S (s + length (c :: p)))%nat by lia.
  - unfold syms in Hs. rewrite !elem_of_cons in Hs.
    destruct Hs as [-> | [-> | [-> | [-> | [-> | [-> | [-> | [-> | Hs]]]]]]]]; [..|by apply not_elem_of_nil in Hs];
      cbn -[Nat.add]; rewrite ?Nat.add_1_r, ?Nat.add_succ_r, ?Nat.add_0_r; done.
Qed.

Lemma render_cons p ps : render (p :: ps) = p ++ 32 :: render ps.
Proof. unfold render. cbn. by rewrite <- app_assoc. Qed.

Definition blank (ws : list Z) : Prop := Forall (λ c, is_ws c = true) ws.

Lemma lex_blank ws : blank ws → ∀ s, lex None s ws = [].
Proof.
  intros Hws. induction Hws as [|c ws Hc _ IH]; intros s; [done|]. cbn [lex].
  assert (Hw : is_word c = false) by (unfold is_word; unfold is_ws in Hc; by rewrite Hc). rewrite Hw, Hc, IH. done.
Qed.

Lemma lex_render ps ws : Forall piece_ok ps → blank ws → ∀ s, lex None s (render ps ++ ws) = toks s ps.
Proof.
  intros Hps Hws. induction Hps as [|p ps Hp _ IH]; intros s; [by apply lex_blank|].
  rewrite render_cons, <- app_assoc. cbn [app]. by rewrite lex_piece, IH.
Qed.

Lemma render_app ps ps' : render (ps ++ ps') = render ps ++ render ps'.
Proof. unfold render. by rewrite fmap_app, concat_app. Qed.

Lemma toks_app ps ps' : ∀ s, toks s (ps ++ ps') = toks s ps ++ toks (s + length (render ps)) ps'.
Proof.
  induction ps as [|p ps IH]; intros s; cbn [app toks]; [cbn; by rewrite Nat.add_0_r|]. rewrite IH, render_cons, length_app. cbn [length].
  do 3 f_equal. lia.
Qed.

(** ** Printed commands are sentences *)

Definition g_level (lv : nat) : list tok → tree → Prop :=
  match lv with 0%nat => g_line | 1%nat => g_back | 2%nat => g_pipe | _ => g_exec end.

Lemma g_level_le lv lv' ts c : g_level lv' ts c → (lv <= lv' <= 3)%nat → g_level lv ts c.
Proof.
  intros Hg Hle. destruct lv as [|[|[|lv]]], lv' as [|[|[|lv']]]; cbn in *; try lia; try done; repeat (constructor; try done).
Qed.

(** Wherever the tokens [ps] are written, they are a sentence that says [c]. *)
Definition says (lv : nat) (c : command) (ps : list (list Z)) : Prop :=
  ∀ line pre post, line = pre ++ render ps ++ post → ∃ t, g_level lv (toks (length pre) ps) t ∧ text_of line t = c.

Lemma slice_word pre w post : slice (pre ++ w ++ post) (length pre, (length pre + length w)%nat) = w.
Proof. unfold slice. cbn [fst snd]. rewrite drop_app_length. replace (length pre + length w - length pre)%nat with (length w) by lia. by rewrite take_app_length. Qed.

Lemma kind_word w : good_word w = true → kind_of w = c_a.
Proof. unfold kind_of. by intros ->. Qed.

Lemma says_exec ws : (length ws < MAXARGS)%nat → forallb good_word ws = true → says 3 (Exec ws) ws.
Proof.
  intros Hn Hws line pre post Hl.
  assert (H : ∃ sp, g_items (toks (length pre) ws) sp [] ∧ slice line <$> sp = ws).
  { clear Hn. revert pre Hl. induction ws as [|w ws IH]; intros pre Hl; [exists []; by split; [constructor|]|].
    cbn [forallb] in Hws. apply andb_prop in Hws as [Hw Hws]. rewrite render_cons, <- app_assoc in Hl. cbn [app] in Hl.
    destruct (IH Hws (pre ++ w ++ [32])) as (sp & Hi & Hs); [by rewrite Hl, <- !app_assoc|].
    exists ((length pre, (length pre + length w)%nat) :: sp). split; cbn [toks fmap list_fmap].
    - apply (gi_word (Tok (kind_of w) (length pre) (length pre + length w))); [by apply kind_word|].
      replace (length pre + length w + 1)%nat with (length (pre ++ w ++ [32])) by (rewrite !length_app; simpl; lia). done.
    - f_equal; [|done]. by rewrite Hl, slice_word. }
  destruct H as (sp & Hi & Hs). exists (TExec sp). split; [|cbn; by rewrite Hs].
  apply (ge_words _ sp []); [done|]. by rewrite <- (length_fmap (slice line)), Hs.
Qed.

Lemma says_paren own lv c ps : says own c ps → (own <= 3)%nat → (lv <= 3)%nat → says lv c (paren (own <? lv)%nat ps).
Proof.
  intros Hs Hown Hlv line pre post Hl. unfold paren in *. destruct (Nat.ltb_spec own lv) as [Hlt|Hle].
  - cbn [app] in *. rewrite render_cons, render_app in Hl. cbn [app] in Hl.
    destruct (Hs line (pre ++ [c_open; 32]) (render [[c_close]] ++ post)) as (t & Hg & Ht); [by rewrite Hl, <- !app_assoc|].
    exists t. split; [|done]. apply g_level_le with 3%nat; [|lia]. cbn [g_level toks]. rewrite toks_app.
    apply (ge_block _ _ t _ [] []); [done| |done|constructor]. apply (g_level_le 0) in Hg; [|lia].
    by replace (length pre + length [c_open] + 1)%nat with (length (pre ++ [c_open; 32])) by (rewrite !length_app; simpl; lia).
  - destruct (Hs line pre post Hl) as (t & Hg & Ht). exists t. split; [|done]. by apply (g_level_le lv own).
Qed.

(** Two commands with a symbol between them. *)
Lemma says_pair k lv1 lv2 lv (mk : tree → tree → tree) (mkc : command → command → command) l r ps1 ps2 :
  (∀ ts1 t ts2 tl tr, g_level lv1 ts1 tl → t_kind t = kind_of [k] → g_level lv2 ts2 tr → g_level lv (ts1 ++ t :: ts2) (mk tl tr)) →
  (∀ line tl tr, text_of line (mk tl tr) = mkc (text_of line tl) (text_of line tr)) →
  says lv1 l ps1 → says lv2 r ps2 → says lv (mkc l r) (ps1 ++ [k] :: ps2).
Proof.
  intros Hmk Htext H1 H2 line pre post Hl. rewrite render_app, render_cons in Hl.
  destruct (H1 line pre ([k] ++ 32 :: render ps2 ++ post)) as (tl & Hg1 & Ht1); [by rewrite Hl, <- !app_assoc|].
  destruct (H2 line (pre ++ render ps1 ++ [k; 32]) post) as (tr & Hg2 & Ht2); [by rewrite Hl, <- !app_assoc|].
  exists (mk tl tr). split; [|by rewrite Htext, Ht1, Ht2]. rewrite toks_app. cbn [toks]. apply Hmk; [done|done|].
  replace (length pre + length (render ps1) + length [k] + 1)%nat with (length (pre ++ render ps1 ++ [k; 32]))
    by (rewrite !length_app; simpl; lia). done.
Qed.

Lemma says_back sub ps : says 1 sub ps → says 1 (Back sub) (ps ++ [[c_amp]]).
Proof.
  intros H line pre post Hl. rewrite render_app in Hl.
  destruct (H line pre (render [[c_amp]] ++ post)) as (t & Hg & Ht); [by rewrite Hl, <- !app_assoc|].
  exists (TBack t). split; [|cbn; by rewrite Ht]. rewrite toks_app. by apply gb_amp.
Qed.

Lemma g_exec_redir ts c t f : g_exec ts c → redir_kind t → t_kind f = c_a → g_exec (ts ++ [t; f]) (redir (t_kind t) c (word_of f)).
Proof.
  intros Hg Ht Hf. assert (Hi : g_items [t; f] [] [(t_kind t, word_of f)]) by (apply gi_redir; [done|done|constructor]).
  destruct Hg as [ts ws rs Hw Hn|o ts c cl ts2 rs Ho Hl Hcl Hr].
  - replace (redir _ _ _) with (wrap (rs ++ [(t_kind t, word_of f)]) (TExec ws)) by by rewrite wrap_app.
    constructor; [|done]. rewrite <- (app_nil_r ws). by apply g_items_app.
  - replace (redir _ _ _) with (wrap (rs ++ [(t_kind t, word_of f)]) c) by by rewrite wrap_app.
    cbn [app]. rewrite <- app_assoc. cbn [app]. constructor; [done..|]. by apply (g_items_app _ []).
Qed.

Lemma says_redir sub f m d ps :
  (m, d) ∈ [(O_RDONLY, 0); (Z.lor (Z.lor O_WRONLY O_CREATE) O_TRUNC, 1); (Z.lor O_WRONLY O_CREATE, 1)] →
  good_word f = true → says 3 sub ps → says 3 (Redir sub f m d) (ps ++ [redir_text m d; f]).
Proof.
  intros Hmd Hf H line pre post Hl. rewrite render_app in Hl. set (r := redir_text m d) in *.
  destruct (H line pre (render [r; f] ++ post)) as (t & Hg & Ht); [by rewrite Hl, <- !app_assoc|].
  assert (Hr : redir_kind (Tok (kind_of r) 0 0) ∧ ∀ c w, redir (kind_of r) c w = TRedir c w m d).
  { rewrite !elem_of_cons in Hmd. destruct Hmd as [[= -> ->] | [[= -> ->] | [[= -> ->] | Hmd]]]; [..|by apply not_elem_of_nil in Hmd];
      (split; [unfold redir_kind; cbn; auto|done]). }
  destruct Hr as [Hk Hr]. rewrite toks_app. cbn [toks].
  set (s := (length pre + length (render ps))%nat). eexists. split.
  - apply (g_exec_redir _ t (Tok (kind_of r) s (s + length r))
      (Tok (kind_of f) (s + length r + 1) (s + length r + 1 + length f))); [done|done|by apply kind_word].
  - cbn [t_kind]. rewrite Hr. cbn [text_of]. rewrite Ht. f_equal. unfold word_of. cbn [t_q t_eq].
    rewrite !render_cons in Hl. replace line with ((pre ++ render ps ++ r ++ [32]) ++ f ++ 32 :: post)
      by (rewrite Hl, <- !app_assoc; cbn [app]; rewrite <- !app_assoc; done).
    replace (s + length r + 1)%nat with (length (pre ++ render ps ++ r ++ [32])) by (unfold s; rewrite !length_app; simpl; lia).
    apply slice_word.
Qed.

Lemma good_says c : good c = true → ∀ lv, (lv <= 3)%nat → says lv c (pieces lv c).
Proof.
  assert (Hup : ∀ lv c ps, says 3 c ps → (lv <= 3)%nat → says lv c ps).
  { intros lv c0 ps Hs Hlv line pre post Hl. destruct (Hs line pre post Hl) as (t & Hg & Ht). exists t. split; [|done]. by apply (g_level_le lv 3). }
  induction c as [ws|sub IH f m d|l IHl r IHr|l IHl r IHr|sub IH]; cbn [good]; intros Hg lv Hlv; cbn [pieces].
  - apply andb_prop in Hg as [Hn Hw]. apply bool_decide_eq_true in Hn. apply Hup; [|done]. by apply says_exec.
  - apply andb_prop in Hg as [[Hs Hf]%andb_prop Hmd]. apply bool_decide_eq_true in Hmd. apply Hup; [|done].
    apply says_redir; [done|done|]. by apply IH.
  - apply andb_prop in Hg as [H1 H2]. apply says_paren; [|lia|done].
    apply (says_pair c_bar 3 2 2 TPipe Pipe); [|done|by apply IHl|by apply IHr; [|lia]]. intros. by apply gp_pipe.
  - apply andb_prop in Hg as [H1 H2]. apply says_paren; [|lia|done].
    apply (says_pair c_semi 1 0 0 TList List); [|done|by apply IHl; [|lia]|by apply IHr; [|lia]]. intros. by apply gl_list.
  - apply says_paren; [|lia|done]. apply says_back. by apply IH; [|lia].
Qed.

Lemma good_pieces c : good c = true → ∀ lv, Forall piece_ok (pieces lv c).
Proof.
  assert (Hparen : ∀ b ps, Forall piece_ok ps → Forall piece_ok (paren b ps)).
  { intros b ps Hps. unfold paren. destruct b; [|done]. rewrite !Forall_app, !list.Forall_singleton. unfold piece_ok, syms. set_solver. }
  assert (Hsym : ∀ k, k ∈ syms → piece_ok k) by by right.
  induction c as [ws|sub IH f m d|l IHl r IHr|l IHl r IHr|sub IH]; cbn [good]; intros Hg lv; cbn [pieces].
  - apply andb_prop in Hg as [_ Hw]. rewrite forallb_forall in Hw. apply list.Forall_forall. intros w Hin. left. by apply Hw, list_elem_of_In.
  - apply andb_prop in Hg as [[Hs Hf]%andb_prop _]. apply Forall_app. split; [by apply IH|]. apply list.Forall_cons. split.
    + apply Hsym. unfold redir_text, syms. repeat case_match; set_solver.
    + apply list.Forall_singleton. by left.
  - apply andb_prop in Hg as [H1 H2]. apply Hparen, Forall_app. split; [by apply IHl|]. apply list.Forall_cons.
    split; [apply Hsym; unfold syms; set_solver|by apply IHr].
  - apply andb_prop in Hg as [H1 H2]. apply Hparen, Forall_app. split; [by apply IHl|]. apply list.Forall_cons.
    split; [apply Hsym; unfold syms; set_solver|by apply IHr].
  - apply Hparen, Forall_app. split; [by apply IH|]. apply list.Forall_singleton, Hsym. unfold syms. set_solver.
Qed.

Lemma piece_nonzero p : piece_ok p → 0 ∉ p.
Proof.
  intros [Hw|Hs].
  - apply good_word_spec in Hw as [_ Hw]. rewrite list.Forall_forall in Hw. intros H0. by apply Hw in H0 as [_ ?].
  - unfold syms in Hs. rewrite !elem_of_cons in Hs.
    destruct Hs as [-> | [-> | [-> | [-> | [-> | [-> | [-> | [-> | Hs]]]]]]]]; [..|by apply not_elem_of_nil in Hs];
      rewrite ?not_elem_of_cons; split_and?; (done || apply not_elem_of_nil).
Qed.

Lemma render_nonzero ps : Forall piece_ok ps → 0 ∉ render ps.
Proof.
  intros Hps. induction Hps as [|p ps Hp _ IH]; [apply not_elem_of_nil|]. rewrite render_cons, elem_of_app, elem_of_cons.
  intros [H|[H|H]]; [by apply (piece_nonzero p)|done|done].
Qed.

Lemma blank_nonzero ws : blank ws → 0 ∉ ws.
Proof. intros H H0. unfold blank in H. rewrite list.Forall_forall in H. by apply H in H0. Qed.

(** Every command that the shell can run, written out as text, with any blanks behind
    it, is read back. *)
Lemma parsecmd_print c ws junk st : good c = true → blank ws → has_line (print c ++ ws) junk st → (2 * length (print c ++ ws) + 1 <= sh_free st)%nat →
  wp parsecmd st (λ p st', shows (sh_buf st') (sh_heap st') c p).
Proof.
  intros Hgood Hws Hst Hfree. pose proof (good_pieces c Hgood 0) as Hok.
  assert (H0 : 0 ∉ print c ++ ws) by (rewrite elem_of_app; intros [H|H]; [by apply (render_nonzero _ Hok)|by apply (blank_nonzero ws)]).
  pose proof (parsecmd_run (print c ++ ws) junk st H0 Hst Hfree) as Hrun.
  destruct (good_says c Hgood 0 ltac:(lia) (print c ++ ws) [] ws) as (t & Hg & Ht); [done|].
  cbn [g_level length] in Hg. rewrite <- (lex_render _ _ Hok Hws) in Hg. change (render (pieces 0 c)) with (print c) in Hg.
  pose proof (length_lex (print c ++ ws) None 0) as Hlen. cbv iota in Hlen.
  pose proof (proj1 parser_complete _ _ Hg [] (parse_fuel (length (print c ++ ws))) I ltac:(unfold parse_fuel; lia)) as Hp.
  rewrite app_nil_r in Hp. rewrite Hp in Hrun. destruct Hrun as (p & st' & Hr & Hs). unfold wp. rewrite Hr. by rewrite <- Ht.
Qed.

(** ** Instances *)

(** "echo a>b|(c;d&)<e" *)
Definition line1 : list Z := [101; 99; 104; 111; 32; 97; 62; 98; 124; 40; 99; 59; 100; 38; 41; 60; 101].

Lemma parsecmd_decides_witness :
  match parsecmd (Sh (line1 ++ [0]) [] 100) with
  | Ok (p, st') => ∃ c, g_line (lex None 0 line1) c ∧ shows (sh_buf st') (sh_heap st') (text_of line1 c) p
  | Panic _ => ∀ c, ¬ g_line (lex None 0 line1) c
  | _ => False
  end.
Proof.
  apply (parsecmd_decides line1 [] (Sh (line1 ++ [0]) [] 100)).
  - apply not_in_list. vm_compute. reflexivity.
  - reflexivity.
  - vm_compute. lia.
Defined.

(** ( c ; d & ) < e | f >> g, in the background *)
Definition command1 : command :=
  Back (Pipe (Redir (List (Exec [[99]]) (Back (Exec [[100]]))) [101] O_RDONLY 0)
             (Redir (Exec [[102]]) [103] (Z.lor O_WRONLY O_CREATE) 1)).
