(* ===== verification/ShRun.v ===== *)
(** How the shell runs a command: [runcmd] of user/sh.c.

    A user program is a tree of system calls: it makes a call and goes on with
    the reply.  [runs] executes such a tree with the file descriptors of a
    process and of the processes it forks, and collects the programs they start. *)

From S2P Require Import Prelude Str File Sysfile Sh ShLex ShParse ShSpec ShPrint.

(** ** Programs *)

(** [Print] is [fprintf] of the library; [Stuck] is an access to memory that is not there. *)
Inductive call :=
| Open (path : list Z) (mode : Z)
| Close (fd : Z)
| Dup (fd : Z)
| MkPipe
| Fork
| Wait
| DoExec (path : list Z) (argv : list (list Z))
| Print (fd : Z) (fmt : string) (args : list (list Z))
| Exits (status : Z)
| Stuck.

Definition reply (c : call) : Type :=
  match c with
  | Open _ _ | Close _ | Dup _ | Fork | Wait | DoExec _ _ | Print _ _ _ => Z
  | MkPipe => option (Z * Z)
  | Exits _ | Stuck => Empty_set
  end.

(** Programs that end with [exit] only. *)
Inductive prog := Vis (c : call) (k : reply c → prog).

Definition exit_ (status : Z) : prog := Vis (Exits status) (λ x, match x with end).
Definition stuck : prog := Vis Stuck (λ x, match x with end).

(** The shell's own [panic]. *)
Definition sh_panic (msg : string) : prog := Vis (Print 2 msg []) (λ _, exit_ 1).

(** [fork1]: what the child does and what the parent does. *)
Definition fork1 (child parent : prog) : prog :=
  Vis Fork (λ pid, if pid =? -1 then sh_panic "fork" else if pid =? 0 then child else parent).

(** The strings of an argument vector, up to its null pointer. *)
Fixpoint strings_at (buf : list Z) (argv : list (option nat)) : option (list (list Z)) :=
  match argv with
  | [] => None
  | None :: _ => Some []
  | Some q :: argv => ws ← strings_at buf argv; Some (cstr (drop q buf) :: ws)
  end.

Fixpoint runcmd (fuel : nat) (st : sh) (cmd : nat) : prog :=
  match fuel with
  | O => stuck
  | S fuel =>
    match sh_heap st !! cmd with
    | None => stuck
    | Some (EXEC argv _) =>
      match strings_at (sh_buf st) argv with
      | None => stuck
      | Some [] => exit_ 1
      | Some (path :: args) =>
        Vis (DoExec path (path :: args)) (λ _, Vis (Print 2 "exec %s failed" [path]) (λ _, exit_ 0))
      end
    | Some (REDIR sub file _ mode fd) =>
      Vis (Close fd) (λ _,
      Vis (Open (cstr (drop file (sh_buf st))) mode) (λ r,
        if r <? 0 then Vis (Print 2 "open %s failed" [cstr (drop file (sh_buf st))]) (λ _, exit_ 1) else runcmd fuel st sub))
    | Some (LIST l r) =>
      fork1 (runcmd fuel st l) (Vis Wait (λ _, runcmd fuel st r))
    | Some (PIPE l r) =>
      Vis MkPipe (λ p,
        match p with
        | None => sh_panic "pipe"
        | Some (p0, p1) =>
          fork1
            (Vis (Close 1) (λ _, Vis (Dup p1) (λ _, Vis (Close p0) (λ _, Vis (Close p1) (λ _, runcmd fuel st l)))))
            (fork1
              (Vis (Close 0) (λ _, Vis (Dup p0) (λ _, Vis (Close p0) (λ _, Vis (Close p1) (λ _, runcmd fuel st r)))))
              (Vis (Close p0) (λ _, Vis (Close p1) (λ _, Vis Wait (λ _, Vis Wait (λ _, exit_ 0))))))
        end)
    | Some (BACK sub) => fork1 (runcmd fuel st sub) (exit_ 0)
    end
  end.

(** ** File descriptors *)

(** What a descriptor stands for; a pipe is named after the process that made it. *)
Inductive obj :=
| Inherited (fd : nat)
| OpenFile (path : list Z) (mode : Z)
| PipeR (pid : list nat)
| PipeW (pid : list nat).

(** A process: its place in the tree of processes, how many children it has forked,
    and its descriptors. *)
Record process := Process { pr_id : list nat; pr_forks : nat; pr_fds : list (option obj) }.

Definition with_fds (p : process) (fds : list (option obj)) : process := Process (pr_id p) (pr_forks p) fds.

(** The lowest free descriptor, as [fdalloc] of kernel/sysfile.c gives it out. *)
Definition alloc (o : obj) (fds : list (option obj)) : option (nat * list (option obj)) :=
  '(i, _) ← list_find (λ x, x = None) fds; Some (i, <[i := Some o]> fds).

Definition lookup_fd (fd : Z) (fds : list (option obj)) : option obj :=
  if fd <? 0 then None else fds !! Z.to_nat fd ≫= id.

(** Which files can be opened and which programs can be executed. *)
Record world := World { can_open : list Z → Z → bool; can_exec : list Z → bool }.

(** A program that was started, with its arguments and descriptors. *)
Definition launch : Type := list (list Z) * list (option obj).

Section Runs.
Context (W : world).

(** Calls that only change the descriptors of the caller: the new ones and the reply. *)
Definition do_open (path : list Z) (mode : Z) (fds : list (option obj)) : Z * list (option obj) :=
  if can_open W path mode then
    match alloc (OpenFile path mode) fds with Some (i, fds) => (Z.of_nat i, fds) | None => (-1, fds) end
  else (-1, fds).

Definition do_close (fd : Z) (fds : list (option obj)) : Z * list (option obj) :=
  match lookup_fd fd fds with Some _ => (0, <[Z.to_nat fd := None]> fds) | None => (-1, fds) end.

Definition do_dup (fd : Z) (fds : list (option obj)) : Z * list (option obj) :=
  match lookup_fd fd fds with
  | Some o => match alloc o fds with Some (i, fds) => (Z.of_nat i, fds) | None => (-1, fds) end
  | None => (-1, fds)
  end.

Definition do_pipe (id : list nat) (fds : list (option obj)) : option (Z * Z) * list (option obj) :=
  match alloc (PipeR id) fds with
  | Some (i, fds1) =>
    match alloc (PipeW id) fds1 with
    | Some (j, fds2) => (Some (Z.of_nat i, Z.of_nat j), fds2)
    | None => (None, fds)
    end
  | None => (None, fds)
  end.

(** The programs started by the process and the processes it forks; [None] if one of
    them gets stuck. *)
Fixpoint runs (m : prog) (p : process) : option (list launch) :=
  match m with
  | Vis c k =>
    match c return (reply c → prog) → _ with
    | Open path mode => λ k, let '(r, fds) := do_open path mode (pr_fds p) in runs (k r) (with_fds p fds)
    | Close fd => λ k, let '(r, fds) := do_close fd (pr_fds p) in runs (k r) (with_fds p fds)
    | Dup fd => λ k, let '(r, fds) := do_dup fd (pr_fds p) in runs (k r) (with_fds p fds)
    | MkPipe => λ k, let '(r, fds) := do_pipe (pr_id p) (pr_fds p) in runs (k r) (with_fds p fds)
    | Fork => λ k,
      l1 ← runs (k 0) (Process (pr_id p ++ [pr_forks p]) 0 (pr_fds p));
      l2 ← runs (k 1) (Process (pr_id p) (S (pr_forks p)) (pr_fds p));
      Some (l1 ++ l2)
    | Wait => λ k, runs (k 0) p
    | DoExec path argv => λ k, if can_exec W path then Some [(argv, pr_fds p)] else runs (k (-1)) p
    | Print _ _ _ => λ k, runs (k 0) p
    | Exits _ => λ _, Some []
    | Stuck => λ _, None
    end k
  end.
End Runs.

(** ** What a command should start *)

(** The descriptors of a process with the given standard input, output and error. *)
Definition tab (i o e : obj) : list (option obj) := Some i :: Some o :: Some e :: replicate (Z.to_nat NOFILE - 3) None.

(** The programs [c] starts in the process [id] that has forked [n] children, with
    standard input [i], output [o] and error [e]. *)
Fixpoint wiring (W : world) (c : command) (id : list nat) (n : nat) (i o e : obj) : list launch :=
  match c with
  | Exec [] => []
  | Exec (path :: args) => if can_exec W path then [(path :: args, tab i o e)] else []
  | Redir sub f m d =>
    if can_open W f m then
      if d =? 0 then wiring W sub id n (OpenFile f m) o e else wiring W sub id n i (OpenFile f m) e
    else []
  | Pipe l r => wiring W l (id ++ [n]) 0 i (PipeW id) e ++ wiring W r (id ++ [S n]) 0 (PipeR id) o e
  | List l r => wiring W l (id ++ [n]) 0 i o e ++ wiring W r id (S n) i o e
  | Back sub => wiring W sub (id ++ [n]) 0 i o e
  end.

Lemma strings_at_shows buf ws : ∀ argv, shows_argv buf argv ws → strings_at buf argv = Some ws.
Proof.
  induction ws as [|w ws IH]; intros argv (qs & Hq & Hws & Hn).
  - destruct argv as [|[q|] argv]; [done..|]. done.
  - destruct argv as [|a argv]; [done|]. cbn in Hq. destruct qs as [|q qs]; [done|]. cbn in Hq, Hws. injection Hq as -> Hq.
    injection Hws as Hw Hws. cbn [strings_at]. rewrite (IH argv); [cbn; by rewrite Hw|]. by exists qs.
Qed.

(** Descriptors 0 and 1 after a redirection. *)
Lemma redirect W i o e f m d : can_open W f m = true → d = 0 ∨ d = 1 →
  do_open W f m (do_close d (tab i o e)).2 =
  (d, if d =? 0 then tab (OpenFile f m) o e else tab i (OpenFile f m) e).
Proof. intros Ho [-> | ->]; unfold do_open; by rewrite Ho. Qed.

Lemma redirect_fails W fds f m : can_open W f m = false → do_open W f m fds = (-1, fds).
Proof. unfold do_open. by intros ->. Qed.

Lemma runs_close W fd m p : runs W (Vis (Close fd) (λ _, m)) p = runs W m (with_fds p (do_close fd (pr_fds p)).2).
Proof. cbn [runs]. by destruct (do_close fd (pr_fds p)). Qed.

Lemma runs_dup W fd m p : runs W (Vis (Dup fd) (λ _, m)) p = runs W m (with_fds p (do_dup fd (pr_fds p)).2).
Proof. cbn [runs]. by destruct (do_dup fd (pr_fds p)). Qed.

Lemma runs_fork1 W c m p : runs W (fork1 c m) p =
  (l1 ← runs W c (Process (pr_id p ++ [pr_forks p]) 0 (pr_fds p));
   l2 ← runs W m (Process (pr_id p) (S (pr_forks p)) (pr_fds p)); Some (l1 ++ l2)).
Proof. done. Qed.

(** Descriptors 0 and 1 of the two sides of a pipe. *)
Lemma do_pipe_tab id i o e : ∃ fds, do_pipe id (tab i o e) = (Some (3, 4), fds) ∧
  (do_close 4 (do_close 3 (do_dup 4 (do_close 1 fds).2).2).2).2 = tab i (PipeW id) e ∧
  (do_close 4 (do_close 3 (do_dup 3 (do_close 0 fds).2).2).2).2 = tab (PipeR id) o e.
Proof. eexists. split_and!; reflexivity. Qed.

Lemma runcmd_ok W c : ∀ fuel st p pr i o e, good c = true → shows (sh_buf st) (sh_heap st) c p → (p < fuel)%nat →
  pr_fds pr = tab i o e → runs W (runcmd fuel st p) pr = Some (wiring W c (pr_id pr) (pr_forks pr) i o e).
Proof.
  induction c as [ws|sub IH f m d|l IHl r IHr|l IHl r IHr|sub IH]; intros fuel st p pr i o e Hg Hs Hf Hfds;
    (destruct fuel as [|fuel]; [lia|]); cbn [good shows] in Hg, Hs; cbn [runcmd].
  - destruct Hs as (argv & eargv & -> & Hargv). rewrite (strings_at_shows _ _ _ Hargv). destruct ws as [|path args]; [done|].
    cbn. destruct (can_exec W path); [by rewrite Hfds|done].
  - destruct Hs as (p' & q & eq & -> & <- & Hlt & Hs). apply andb_prop in Hg as [[Hgs _]%andb_prop Hmd].
    apply bool_decide_eq_true in Hmd. set (f := cstr _) in *.
    assert (Hd : d = 0 ∨ d = 1) by set_solver.
    cbn [runs]. rewrite Hfds. destruct (do_close d (tab i o e)) as [rc fds1] eqn:Ec. cbn [with_fds pr_fds].
    replace fds1 with (do_close d (tab i o e)).2 by by rewrite Ec. cbn [wiring].
    destruct (can_open W f m) eqn:Eo; [|by rewrite redirect_fails].
    rewrite redirect by done. rewrite (proj2 (Z.ltb_ge d 0)) by lia. destruct (d =? 0); by erewrite IH by (done || lia).
  - destruct Hs as (pl & pr' & -> & Hlt1 & Hlt2 & Hl & Hr). apply andb_prop in Hg as [Hg1 Hg2].
    cbn [runs]. rewrite Hfds. destruct (do_pipe_tab (pr_id pr) i o e) as (fds & -> & Hleft & Hright).
    rewrite runs_fork1, (runs_close _ 1), runs_dup, (runs_close _ 3), (runs_close _ 4). cbn [with_fds pr_fds pr_id pr_forks].
    rewrite Hleft. erewrite IHl by (done || lia). cbn [mbind option_bind].
    rewrite runs_fork1, (runs_close _ 0), runs_dup, !(runs_close _ 3), !(runs_close _ 4). cbn [with_fds pr_fds pr_id pr_forks].
    rewrite Hright. rewrite (IHr fuel st pr' _ (PipeR (pr_id pr)) o e); [|done|done|lia|done]. cbn. by rewrite app_nil_r.
  - destruct Hs as (pl & pr' & -> & Hlt1 & Hlt2 & Hl & Hr). apply andb_prop in Hg as [Hg1 Hg2].
    rewrite runs_fork1. rewrite (IHl fuel st pl _ i o e); [|done|done|lia|done]. cbn [mbind option_bind runs].
    by rewrite (IHr fuel st pr' _ i o e); [|done|done|lia|done].
  - destruct Hs as (p' & -> & Hlt & Hs). cbn -[runcmd]. erewrite IH by (done || lia). cbn. by rewrite app_nil_r.
Qed.

(** ** From the line to the programs *)

(** What the child that the shell forks for a line does: [runcmd(parsecmd(buf))]. *)
Definition run_line (st : sh) : prog :=
  match parsecmd st with
  | Ok (p, st') => runcmd (S (length (sh_heap st'))) st' p
  | Panic msg => sh_panic msg
  | _ => stuck
  end.

Lemma shows_lt buf h c p : shows buf h c p → (p < length h)%nat.
Proof.
  destruct c; cbn [shows].
  - intros (argv0 & eargv & H & _). by eapply lookup_lt_Some.
  - intros (p' & q & e & H & _). by eapply lookup_lt_Some.
  - intros (pl & pr & H & _). by eapply lookup_lt_Some.
  - intros (pl & pr & H & _). by eapply lookup_lt_Some.
  - intros (p' & H & _). by eapply lookup_lt_Some.
Qed.

(** A command written out as text, with any blanks behind it, and given to the shell starts the programs it
    names, each with its words as arguments, and with exactly three descriptors
    open: input, output and error, connected through the pipes and files the command
    asks for.  In particular no program keeps an end of somebody else's pipe. *)
Lemma run_line_wires W c ws junk st pr i o e : good c = true → blank ws → has_line (print c ++ ws) junk st →
  (2 * length (print c ++ ws) + 1 <= sh_free st)%nat → pr_fds pr = tab i o e →
  runs W (run_line st) pr = Some (wiring W c (pr_id pr) (pr_forks pr) i o e).
Proof.
  intros Hg Hws Hst Hfree Hfds. pose proof (parsecmd_print c ws junk st Hg Hws Hst Hfree) as H. unfold wp in H. unfold run_line.
  destruct (parsecmd st) as [[p st']| | | |]; [|done..]. apply runcmd_ok; [done|done| |done]. apply shows_lt in H. lia.
Qed.
