(* ===== verification/ShMain.v ===== *)
(** The loop of the shell (main and getcmd of user/sh.c, gets of user/ulib.c): it reads
    lines and runs each in a child, except for cd. *)

From S2P Require Import Prelude Str Sysfile Sh ShLex ShSpec ShPrint ShRun.

(** ** Reading a line *)

Definition c_nl : Z := 10.
Definition c_cr : Z := 13.

(** The loop of [gets] at [i], with room for [room] more characters; [input] is what
    [read(0, &c, 1)] will give.  The characters stored and the rest of the input. *)
Fixpoint gets_loop (room : nat) (input : list Z) : list Z * list Z :=
  match room, input with
  | O, _ | _, [] => ([], input)
  | S room, c :: input =>
    if (c =? c_nl) || (c =? c_cr) then ([c], input)
    else let '(got, rest) := gets_loop room input in (c :: got, rest)
  end.

(** [gets(buf, max)]: the contents of [buf] afterwards. *)
Definition gets (buf : list Z) (max : nat) (input : list Z) : list Z * list Z :=
  let '(got, rest) := gets_loop (max - 1) input in
  (got ++ 0 :: drop (length got + 1) buf, rest).

(** [sizeof(buf)] in [main] *)
Definition nbuf : nat := 100.

(** [getcmd(buf, nbuf)]: after [memset(buf, 0, nbuf)]; false at the end of the input. *)
Definition getcmd (input : list Z) : bool * list Z * list Z :=
  let '(buf, rest) := gets (replicate nbuf 0) nbuf input in
  (negb (chr buf =? 0), buf, rest).

(** ** main *)

(** What the loop makes of a line: a change of directory, or a child that runs
    [runcmd(parsecmd(buf))]. *)
Inductive job := Cd (path : list Z) | Run (buf : list Z).

(** buf[0] == 'c' && buf[1] == 'd' && buf[2] == ' ' *)
Definition is_cd (buf : list Z) : bool :=
  match buf with a :: b :: c :: _ => (a =? 99) && (b =? 100) && (c =? 32) | _ => false end.

Definition do_line (buf : list Z) : job :=
  if is_cd buf then
    let buf := <[Z.to_nat (strlen buf - 1) := 0]> buf in
    Cd (cstr (drop 3 buf))
  else Run buf.

Fixpoint main_loop (fuel : nat) (input : list Z) : option (list job) :=
  match fuel with
  | O => None
  | S fuel =>
    let '(more, buf, rest) := getcmd input in
    if more then cons (do_line buf) <$> main_loop fuel rest else Some []
  end.

(** The loop that opens the console until three descriptors are open. *)
Fixpoint open_console (fuel : nat) (W : world) (fds : list (option obj)) : option (list (option obj)) :=
  match fuel with
  | O => None
  | S fuel =>
    let '(fd, fds) := do_open W [99; 111; 110; 115; 111; 108; 101] O_RDWR fds in
    if 0 <=? fd then
      if 3 <=? fd then Some (do_close fd fds).2 else open_console fuel W fds
    else Some fds
  end.

(** ** What the shell does with a script *)

(** A line of a script: [cd] with a path, or a command. *)
Inductive item := ICd (path : list Z) | ICmd (c : command).

Definition item_text (it : item) : list Z :=
  match it with ICd path => [99; 100; 32] ++ path ++ [c_nl] | ICmd c => print c ++ [c_nl] end.

Definition line_char (c : Z) : Prop := c ≠ 0 ∧ c ≠ c_nl ∧ c ≠ c_cr.

Definition good_item (it : item) : Prop :=
  (length (item_text it) < nbuf)%nat ∧
  match it with ICd path => Forall line_char path | ICmd c => good c = true ∧ is_cd (item_text it) = false end.

(** The job of an item: for a command, that the child starts its programs. *)
Definition item_job (W : world) (free : nat) (it : item) (j : job) : Prop :=
  match it, j with
  | ICd path, Cd path' => path' = path
  | ICmd c, Run buf => ∀ pr i o e, pr_fds pr = tab i o e → runs W (run_line (Sh buf [] free)) pr = Some (wiring W c (pr_id pr) (pr_forks pr) i o e)
  | _, _ => False
  end.

Lemma gets_line l rest : Forall line_char l → ∀ room, (length l < room)%nat → gets_loop room (l ++ c_nl :: rest) = (l ++ [c_nl], rest).
Proof.
  induction 1 as [|c l (H0 & Hn & Hr) _ IH]; intros room Hl; (destruct room as [|room]; [cbn in Hl; lia|]); cbn [gets_loop app].
  - done.
  - rewrite !(proj2 (Z.eqb_neq _ _)) by done. cbn [orb]. rewrite IH by (cbn in Hl; lia). done.
Qed.

Lemma getcmd_line l rest : Forall line_char l → (length l + 1 < nbuf)%nat →
  getcmd (l ++ c_nl :: rest) = (true, l ++ c_nl :: replicate (nbuf - length l - 1) 0, rest).
Proof.
  intros Hl Hn. unfold getcmd, gets. rewrite gets_line by (done || lia). rewrite length_app. cbn [length].
  replace (0 :: drop (length l + 1 + 1) (replicate nbuf 0)) with (replicate (nbuf - length l - 1) 0).
  - rewrite <- app_assoc. cbn [app]. do 2 f_equal. destruct Hl as [|c l (Hc & _) _]; [done|]. cbn. by rewrite (proj2 (Z.eqb_neq _ _)).
  - rewrite drop_replicate. replace (nbuf - length l - 1)%nat with (S (nbuf - (length l + 1 + 1))) by lia. done.
Qed.

Lemma word_line_char c : is_word c = true → c ≠ 0 → line_char c.
Proof.
  intros Hw H0. split_and!; [done|intros ->; done|intros ->; done].
Qed.

Lemma piece_line_chars p : piece_ok p → Forall line_char p.
Proof.
  intros [Hw|Hs].
  - apply good_word_spec in Hw as [_ Hw]. eapply list.Forall_impl; [exact Hw|]. intros c [? ?]. by apply word_line_char.
  - unfold syms in Hs. rewrite !elem_of_cons in Hs.
    destruct Hs as [-> | [-> | [-> | [-> | [-> | [-> | [-> | [-> | Hs]]]]]]]]; [..|by apply not_elem_of_nil in Hs]; repeat constructor; done.
Qed.

Lemma print_line_chars c : good c = true → Forall line_char (print c).
Proof.
  intros Hg. pose proof (good_pieces c Hg 0) as Hp. unfold print. induction Hp as [|p ps Hp _ IH]; [constructor|].
  rewrite render_cons. apply Forall_app. split; [by apply piece_line_chars|]. constructor; [done|done].
Qed.

Lemma cstr_line l r : Forall line_char l → cstr (l ++ 0 :: r) = l.
Proof. induction 1 as [|c l (Hc & _) _ IH]; [done|]. cbn [app cstr]. by rewrite (proj2 (truth_ne c) Hc), IH. Qed.

Lemma cstr_full l n : Forall line_char l → cstr (l ++ c_nl :: replicate n 0) = l ++ [c_nl].
Proof. induction 1 as [|c l (Hc & _) _ IH]; cbn [app cstr]; [by rewrite cstr_zeros|]. by rewrite (proj2 (truth_ne c) Hc), IH. Qed.

Lemma do_line_cd path n : Forall line_char path → do_line (([99; 100; 32] ++ path) ++ c_nl :: replicate n 0) = Cd path.
Proof.
  intros Hp. unfold do_line. change (is_cd _) with true. cbv zeta iota. unfold strlen. rewrite strlen_loop_ok.
  rewrite cstr_full by (apply Forall_app; split; [repeat constructor; done|done]).
  replace (Z.to_nat _) with (length ([99; 100; 32] ++ path)) by (rewrite !length_app; cbn [length]; lia).
  rewrite insert_app_r_alt, Nat.sub_diag by lia. cbn [insert list_insert app drop]. f_equal. by apply cstr_line.
Qed.

Lemma is_cd_buf l r : is_cd (l ++ [c_nl]) = false → is_cd (l ++ c_nl :: r) = false.
Proof. destruct l as [|a [|b [|c l]]]; cbn [app is_cd]; intros H; [| | |done]; destruct r as [|? [|? ?]]; cbn; rewrite ?andb_false_r; done. Qed.

(** C13. The shell reads a script.  First it opens the console until descriptors 0, 1
    and 2 are open, and leaves the others alone.  Then, if its input is a sequence of
    lines that fit its buffer, each a [cd] with a path or a command written out, it
    changes to these directories itself, and for each command runs a child that
    starts the programs the command names, with their words as arguments and exactly
    three descriptors, connected through the pipes and files the command asks for; all
    this in order, and at the end of its input it stops. *)
Theorem shell_runs_script W free items : (199 <= free)%nat → Forall good_item items →
  (can_open W [99; 111; 110; 115; 111; 108; 101] O_RDWR = true → ∀ a b c rest,
    let con := λ x, Some (default (OpenFile [99; 111; 110; 115; 111; 108; 101] O_RDWR) x) in
    open_console 4 W (a :: b :: c :: None :: rest) = Some (con a :: con b :: con c :: None :: rest)) ∧
  ∃ jobs, main_loop (S (length items)) (concat (item_text <$> items)) = Some jobs ∧ Forall2 (item_job W free) items jobs.
Proof.
  intros Hfree Hitems. split.
  - intros Hopen a b c rest. cbv zeta. destruct a as [a|], b as [b|], c as [c|]; cbn [open_console default]; unfold do_open; rewrite !Hopen; reflexivity.
  - induction Hitems as [|it items [Hlen Hit] _ (jobs & Hrun & Hjobs)]; [by exists []|].
    assert (Hl : ∃ l, item_text it = l ++ [c_nl] ∧ Forall line_char l).
    { destruct it as [path|c]; cbn [item_text]; [|destruct Hit; eexists; split; [done|by apply print_line_chars]].
      exists ([99; 100; 32] ++ path). split; [done|]. apply Forall_app. split; [repeat constructor; done|done]. }
    destruct Hl as (l & Hl & Hchars). pose proof Hlen as Hlen'. rewrite Hl, length_app in Hlen'. cbn [length] in Hlen'.
    exists (do_line (l ++ c_nl :: replicate (nbuf - length l - 1) 0) :: jobs). split.
    + cbn [length fmap list_fmap concat]. set (n := S (length items)) in *. rewrite Hl, <- app_assoc. cbn [app main_loop].
      rewrite getcmd_line by (done || lia). cbn [fst snd]. by rewrite Hrun.
    + constructor; [|done]. destruct it as [path|c]; cbn [item_text] in Hl.
      * rewrite app_assoc in Hl. apply app_inj_tail in Hl as [<- _]. by rewrite do_line_cd.
      * apply app_inj_tail in Hl as [<- _]. destruct Hit as [Hg Hcd]. unfold do_line. rewrite is_cd_buf by done. cbn [item_job].
        intros pr i o e Hfds. cbn [item_text] in Hlen. unfold nbuf in *. apply (run_line_wires W c [c_nl] (replicate (98 - length (print c)) 0)).
        -- done.
        -- by repeat constructor.
        -- unfold has_line. cbn [sh_buf]. rewrite <- app_assoc. cbn [app]. do 2 f_equal.
           by replace (100 - length (print c) - 1)%nat with (S (98 - length (print c))) by lia.
        -- cbn [sh_free]. lia.
        -- done.
Qed.

(** "cd /", then the command of the previous file *)
Lemma shell_runs_script_witness : ∃ buf, main_loop 3 (concat (item_text <$> [ICd [47]; ICmd command1])) = Some [Cd [47]; Run buf] ∧
  runs (World (λ _ _, true) (λ _, true)) (run_line (Sh buf [] 199)) (Process [] 0 (tab (Inherited 0) (Inherited 1) (Inherited 2))) =
  Some [([[99]], tab (OpenFile [101] O_RDONLY) (PipeW [0%nat]) (Inherited 2));
        ([[100]], tab (OpenFile [101] O_RDONLY) (PipeW [0%nat]) (Inherited 2));
        ([[102]], tab (PipeR [0%nat]) (OpenFile [103] (Z.lor O_WRONLY O_CREATE)) (Inherited 2))].
Proof.
  assert (Hg : Forall good_item [ICd [47]; ICmd command1]).
  { constructor; [split; [vm_compute; lia|repeat constructor; done]|]. constructor; [|constructor]. split; [vm_compute; lia|]. split; vm_compute; reflexivity. }
  destruct (proj2 (shell_runs_script (World (λ _ _, true) (λ _, true)) 199 [ICd [47]; ICmd command1] ltac:(lia) Hg)) as (jobs & Hrun & Hjobs).
  inversion Hjobs as [|? j ? js Hj Hjs]; subst. inversion Hjs as [|? j2 ? js2 Hj2 Hjs2]; subst. inversion Hjs2; subst.
  destruct j as [p|]; [|done]. cbn in Hj. subst p. destruct j2 as [|buf]; [done|]. exists buf. split; [exact Hrun|].
  rewrite (Hj2 (Process [] 0 (tab (Inherited 0) (Inherited 1) (Inherited 2))) (Inherited 0) (Inherited 1) (Inherited 2) eq_refl).
  vm_compute. reflexivity.
Defined.
