(* ===== verification/Umalloc.v ===== *)
(** The memory allocator of user programs, user/umalloc.c.

    Free blocks form a ring of headers in the order of their addresses, entered
    through [freep].  Memory is a map from addresses to headers: every 16 bytes of
    the heap are a place where a header can be. *)

From stdpp Require Import sorting.
From S2P Require Import Prelude.
#[local] Open Scope Z_scope.

(** [union header]; [size] counts headers, the block's own included. *)
Record header := Header { ptr : Z; size : Z }.

Definition sizeof_Header : Z := 16.
Notation HS := sizeof_Header (only parsing).

(** [um_brk] is the end of the process's memory, [um_limit] how far it can grow. *)
Record um := Um { um_mem : gmap Z header; um_freep : Z; um_brk : Z; um_limit : Z }.

Definition set_mem (f : gmap Z header → gmap Z header) (st : um) : um := Um (f (um_mem st)) (um_freep st) (um_brk st) (um_limit st).
Definition set_freep (p : Z) (st : um) : um := Um (um_mem st) p (um_brk st) (um_limit st).

(** [p->s]. *)
Definition hdr (p : Z) : M um header :=
  m ← gets um_mem; match m !! p with Some h => mret h | None => wild p end.

(** [p->s.ptr = q] and [p->s.size = n]. *)
Definition set_ptr (p q : Z) : M um unit := h ← hdr p; modify (set_mem <[p := Header q (size h)]>).
Definition set_size (p n : Z) : M um unit := h ← hdr p; modify (set_mem <[p := Header (ptr h) (w32 n)]>).

(** The headers that [n] more bytes of memory from [brk] on have room for. *)
Definition new_memory (brk n : Z) : gmap Z header :=
  list_to_map ((λ i, (brk + HS * i, Header 0 0)) <$> seqZ 0 (n `div` HS)).

(** The system call [sbrk]: the old end of memory, or -1. *)
Definition sbrk (n : Z) : M um Z :=
  st ← gets id;
  let brk := um_brk st in
  if um_limit st <? brk + n then mret (-1)
  else if 0 <=? n then modify (λ st, Um (new_memory brk n ∪ um_mem st) (um_freep st) (brk + n) (um_limit st));; mret brk
  else modify (λ st, Um (filter (λ kv, kv.1 < brk + n) (um_mem st)) (um_freep st) (brk + n) (um_limit st));; mret brk.

Definition free_body (bp p : Z) : M um (Z + Z) :=
  h ← hdr p;
  if (p <? bp) && (bp <? ptr h) then mret (inr p) else
  if (ptr h <=? p) && ((p <? bp) || (bp <? ptr h)) then mret (inr p) else
  mret (inl (ptr h)).

(** Enough rounds for a ring of headers that are all different. *)
Definition ring_fuel : M um nat := m ← gets um_mem; mret (S (base.size m)).

Definition free (ap : Z) : M um unit :=
  let bp := ap - HS in
  fp ← gets um_freep;
  fuel ← ring_fuel;
  p ← loop fuel (free_body bp) fp;
  hb ← hdr bp;
  hp ← hdr p;
  (if bp + HS * size hb =? ptr hp then
     hq ← hdr (ptr hp);
     set_size bp (size hb + size hq);;
     set_ptr bp (ptr hq)
   else set_ptr bp (ptr hp));;
  hb ← hdr bp;
  hp ← hdr p;
  (if p + HS * size hp =? bp then
     set_size p (size hp + size hb);;
     set_ptr p (ptr hb)
   else set_ptr p bp);;
  modify (set_freep p).

Definition morecore (nu : Z) : M um Z :=
  let nu := if nu <? 4096 then 4096 else nu in
  p ← sbrk (i32 (nu * HS));
  if p =? -1 then mret 0 else
  set_size p nu;;
  free (p + HS);;
  gets um_freep.

Definition malloc_take (nunits prevp p : Z) (h : header) : M um Z :=
  p ← (if size h =? nunits then set_ptr prevp (ptr h);; mret p
       else set_size p (size h - nunits);;
            let p := p + HS * (size h - nunits) in
            set_size p nunits;; mret p);
  modify (set_freep prevp);;
  mret (p + HS).

Definition malloc_body (nunits : Z) '((prevp, p) : Z * Z) : M um (Z * Z + Z) :=
  h ← hdr p;
  if nunits <=? size h then r ← malloc_take nunits prevp p h; mret (inr r) else
  fp ← gets um_freep;
  if p =? fp then
    p ← morecore nunits;
    if p =? 0 then mret (inr 0) else h ← hdr p; mret (inl (p, ptr h))
  else mret (inl (p, ptr h)).

Section Base.
(** The address of the static header [base]. *)
Context (base_addr : Z).

Definition malloc_init : M um Z :=
  fp ← gets um_freep;
  if fp =? 0 then
    set_ptr base_addr base_addr;; modify (set_freep base_addr);; set_size base_addr 0;; mret base_addr
  else mret fp.

(** The ring is gone round at most twice, with one more header the second time. *)
Definition malloc (nbytes : Z) : M um Z :=
  let nunits := (nbytes + HS - 1) `div` HS + 1 in
  prevp ← malloc_init;
  h ← hdr prevp;
  fuel ← ring_fuel;
  loop (2 * fuel + 2)%nat (malloc_body nunits) (prevp, ptr h).
End Base.
