(* ===== verification/UmallocSpec.v ===== *)
(** The allocator of user/umalloc.c: the ring of free blocks and the blocks in use
    divide up the heap. *)

From stdpp Require Import sorting.
From S2P Require Import Prelude Umalloc.
#[local] Open Scope Z_scope.

(** ** Rings *)

(** A block: its address and its size in headers. *)
Notation block := (Z * Z)%type.

Definition hd_addr (l : list block) (to : Z) : Z := match l with [] => to | (a, _) :: _ => a end.

(** [l] is linked in memory, and its last header points to [to]. *)
Fixpoint lseg (m : gmap Z header) (l : list block) (to : Z) : Prop :=
  match l with
  | [] => True
  | (a, s) :: l' => m !! a = Some (Header (hd_addr l' to) s) ∧ lseg m l' to
  end.

Lemma hd_addr_app l1 l2 to : hd_addr (l1 ++ l2) to = hd_addr l1 (hd_addr l2 to).
Proof. by destruct l1 as [|[a s] l1]. Qed.

Lemma lseg_app m l1 l2 to : lseg m (l1 ++ l2) to ↔ lseg m l1 (hd_addr l2 to) ∧ lseg m l2 to.
Proof.
  induction l1 as [|[a s] l1 IH]; cbn [app lseg]; [naive_solver|]. rewrite IH, hd_addr_app. naive_solver.
Qed.

Lemma lseg_insert m l to a h : a ∉ l.*1 → lseg m l to → lseg (<[a := h]> m) l to.
Proof.
  induction l as [|[b s] l IH]; cbn [lseg fmap list_fmap fst]; [done|]. rewrite not_elem_of_cons. intros [Hne Hn] [Hb Hl].
  split; [by rewrite lookup_insert_ne|auto].
Qed.

Lemma lseg_lookup m l to a s : lseg m l to → (a, s) ∈ l → ∃ y, m !! a = Some (Header y s).
Proof.
  induction l as [|[b t] l IH]; cbn [lseg]; [by intros _ ?%not_elem_of_nil|]. intros [Hb Hl]. rewrite elem_of_cons.
  intros [[= -> ->]|Hin]; [by eexists|auto].
Qed.

(** The ring seen from another header. *)
Lemma lseg_rotate m l1 l2 : lseg m (l1 ++ l2) (hd_addr (l1 ++ l2) 0) → l1 ≠ [] → lseg m (l2 ++ l1) (hd_addr (l2 ++ l1) 0).
Proof.
  rewrite !lseg_app, !hd_addr_app. destruct l1 as [|[a s] l1]; [done|]. cbn [hd_addr]. intros [H1 H2] _. split; [done|].
  destruct l2 as [|[b t] l2]; [done|]. done.
Qed.

(** ** Access to headers *)

Lemma hdr_run {B} p h (f : header → M um B) st : um_mem st !! p = Some h → (hdr p ≫= f) st = f h st.
Proof. intros Hp. unfold hdr, mbind, M_bind, gets. by rewrite Hp. Qed.

Lemma set_ptr_run p h q st : um_mem st !! p = Some h → set_ptr p q st = Ok (tt, set_mem <[p := Header q (size h)]> st).
Proof. intros Hp. unfold set_ptr. by rewrite (hdr_run _ _ _ _ Hp). Qed.

Lemma set_size_run p h n st : um_mem st !! p = Some h → 0 <= n < 2 ^ 32 →
  set_size p n st = Ok (tt, set_mem <[p := Header (ptr h) n]> st).
Proof. intros Hp Hn. unfold set_size, w32. rewrite (hdr_run _ _ _ _ Hp), Z.mod_small by done. done. Qed.

(** [size] and then [ptr] of one header. *)
Lemma set_both_run p h n q st : um_mem st !! p = Some h → 0 <= n < 2 ^ 32 →
  (set_size p n;; set_ptr p q) st = Ok (tt, set_mem <[p := Header q n]> st).
Proof.
  intros Hp Hn. rewrite (bind_ok _ _ _ _ _ (set_size_run p h n st Hp Hn)).
  rewrite (set_ptr_run p (Header (ptr h) n)) by apply lookup_insert_eq. unfold set_mem. cbn. by rewrite insert_insert_eq.
Qed.

(** ** The search for the place of a block in [free] *)

Definition stops (bp p y : Z) : bool := ((p <? bp) && (bp <? y)) || ((y <=? p) && ((p <? bp) || (bp <? y))).

Lemma free_walk bp q st to : ∀ rem fuel, lseg (um_mem st) rem to → (length rem < fuel)%nat → q ∈ rem.*1 →
  (∀ x s y, (x, s) ∈ rem → um_mem st !! x = Some (Header y s) → stops bp x y = bool_decide (x = q)) →
  loop fuel (free_body bp) (hd_addr rem 0) st = Ok (q, st).
Proof.
  induction rem as [|[x s] rem IH]; intros fuel Hl Hf Hq Hstop; [by apply not_elem_of_nil in Hq|].
  destruct fuel as [|fuel]; [cbn in Hf; lia|]. cbn [lseg hd_addr length] in *. destruct Hl as [Hx Hl].
  specialize (Hstop x s _ ltac:(by apply elem_of_cons; left) Hx) as Hs. unfold stops in Hs.
  change (loop (S fuel) (free_body bp) x st) with ((r ← free_body bp x; match r with inl a' => loop fuel (free_body bp) a' | inr b => mret b end) st).
  assert (Hb : free_body bp x st = Ok (if bool_decide (x = q) then inr x else inl (hd_addr rem to), st)).
  { unfold free_body, hdr, mbind, M_bind, gets. rewrite Hx. cbn [ptr mret M_ret].
    destruct ((x <? bp) && (bp <? hd_addr rem to)); cbn [orb] in Hs; [by rewrite <- Hs|].
    destruct ((hd_addr rem to <=? x) && _); by rewrite <- Hs. }
  rewrite (bind_ok _ _ _ _ _ Hb). case_bool_decide as E; [by subst|].
  cbn [fmap list_fmap fst] in Hq. apply elem_of_cons in Hq as [->|Hq]; [done|].
  rewrite <- (IH fuel); [|done|lia|done|intros x' s' y' Hin; apply Hstop; by apply elem_of_cons; right].
  destruct rem as [|[x' s'] rem]; [by apply not_elem_of_nil in Hq|done].
Qed.

(** ** Blocks that divide up the heap *)

(** Free blocks are in order and do not touch. *)
Definition gap (x y : block) : Prop := x.1 + HS * x.2 < y.1.
Definition apart (x y : block) : Prop := x.1 + HS * x.2 <= y.1 ∨ y.1 + HS * y.2 <= x.1.
Definition covers (b : block) (x : Z) : Prop := b.1 <= x < b.1 + HS * b.2.

Section Heap.
(** The heap starts at [lo], above the static header. *)
Context (base_addr lo : Z).

Definition in_heap (brk : Z) (b : block) : Prop :=
  0 < b.2 ∧ lo <= b.1 ∧ b.1 + HS * b.2 <= brk ∧ (b.1 - lo) mod HS = 0.

(** The free blocks [fr] and the blocks in use [us], by address, do not overlap and
    leave nothing out. *)
Record parted (brk : Z) (fr : list block) (us : gmap Z Z) : Prop := {
  pt_free : ∀ b, b ∈ fr → in_heap brk b;
  pt_used : ∀ a n, us !! a = Some n → in_heap brk (a, n);
  pt_apart : ∀ a n b, us !! a = Some n → b ∈ fr → apart (a, n) b;
  pt_apart_used : ∀ a n b k, us !! a = Some n → us !! b = Some k → a ≠ b → apart (a, n) (b, k);
  pt_cover : ∀ x, lo <= x < brk → (x - lo) mod HS = 0 →
    (∃ b, b ∈ fr ∧ covers b x) ∨ (∃ a n, us !! a = Some n ∧ covers (a, n) x) }.

Ltac arith := unfold in_heap, apart, gap, covers in *; cbn [fst snd] in *; unfold sizeof_Header in *; try lia.

(** A block that is given back. *)
Lemma parted_put brk fr1 fr2 us bp n : parted brk (fr1 ++ fr2) us → us !! bp = Some n → parted brk (fr1 ++ (bp, n) :: fr2) (delete bp us).
Proof.
  intros [H1 H2 H3 H4 H5] Hbp.
  assert (Hin : ∀ b, b ∈ fr1 ++ (bp, n) :: fr2 ↔ b ∈ fr1 ++ fr2 ∨ b = (bp, n)) by set_solver.
  split.
  - intros b [Hb| ->]%Hin; auto.
  - intros a k [_ Ha]%lookup_delete_Some. auto.
  - intros a k b [Hne Ha]%lookup_delete_Some [Hb| ->]%Hin; [eauto|]. apply H4; [done|done|congruence].
  - intros a k b j [_ Ha]%lookup_delete_Some [_ Hb]%lookup_delete_Some. eauto.
  - intros x Hx Hm. destruct (H5 x Hx Hm) as [(b & Hb & Hc)|(a & k & Ha & Hc)]; [left; exists b; rewrite Hin; auto|].
    destruct (decide (a = bp)) as [->|Hne].
    + left. exists (bp, n). rewrite Hin. split; [by right|]. congruence.
    + right. exists a, k. by rewrite lookup_delete_ne.
Qed.

(** Two free blocks that touch become one. *)
Lemma parted_join brk l1 l2 a s t us : parted brk (l1 ++ (a, s) :: (a + HS * s, t) :: l2) us → parted brk (l1 ++ (a, s + t) :: l2) us.
Proof.
  intros [H1 H2 H3 H4 H5].
  assert (Ha : (a, s) ∈ l1 ++ (a, s) :: (a + HS * s, t) :: l2) by set_solver.
  assert (Hb : (a + HS * s, t) ∈ l1 ++ (a, s) :: (a + HS * s, t) :: l2) by set_solver.
  assert (Hin : ∀ b, b ∈ l1 ++ (a, s + t) :: l2 → b ∈ l1 ++ (a, s) :: (a + HS * s, t) :: l2 ∨ b = (a, s + t)) by set_solver.
  pose proof (H1 _ Ha) as Ga. pose proof (H1 _ Hb) as Gb.
  split; [|done| |done|].
  - intros b [Hin1| ->]%Hin; [auto|]. arith.
  - intros c k b Hc [Hin1| ->]%Hin; [eauto|]. pose proof (H3 _ _ _ Hc Ha). pose proof (H3 _ _ _ Hc Hb). pose proof (H2 _ _ Hc). arith.
  - intros x Hx Hm. destruct (H5 x Hx Hm) as [(b & Hb' & Hc)|H]; [|by right]. left.
    apply elem_of_app in Hb' as [Hb'|[-> | [-> | Hb']%elem_of_cons]%elem_of_cons].
    + exists b. split; [set_solver|done].
    + exists (a, s + t). split; [set_solver|]. arith.
    + exists (a, s + t). split; [set_solver|]. arith.
    + exists b. split; [set_solver|done].
Qed.

(** A whole free block goes into use. *)
Lemma parted_take brk l1 l2 a s us : parted brk (l1 ++ (a, s) :: l2) us → (∀ b, b ∈ l1 ++ l2 → apart (a, s) b) →
  parted brk (l1 ++ l2) (<[a := s]> us).
Proof.
  intros [H1 H2 H3 H4 H5] Hap.
  assert (Ha : (a, s) ∈ l1 ++ (a, s) :: l2) by set_solver. pose proof (H1 _ Ha) as Ga.
  assert (Hin : ∀ b, b ∈ l1 ++ l2 → b ∈ l1 ++ (a, s) :: l2 ∧ apart (a, s) b) by (intros b Hb; split; [set_solver|auto]).
  split.
  - intros b [Hb _]%Hin. auto.
  - intros c k [[<- <-]|[_ Hc]]%lookup_insert_Some; auto.
  - intros c k b [[<- <-]|[_ Hc]]%lookup_insert_Some [Hb Hab]%Hin; eauto.
  - intros c k b j [[<- <-]|[Hne Hc]]%lookup_insert_Some [[<- <-]|[Hne' Hb]]%lookup_insert_Some Hcb; [done| | |eauto].
    + specialize (H3 _ _ _ Hb Ha). arith.
    + eauto.
  - intros x Hx Hm. destruct (H5 x Hx Hm) as [(b & Hb & Hc)|(c & k & Hc & Hx')].
    + apply elem_of_app in Hb as [Hb|[-> | Hb]%elem_of_cons]; [left; exists b; set_solver| |left; exists b; set_solver].
      right. exists a, s. by rewrite lookup_insert_eq.
    + right. exists c, k. rewrite lookup_insert_ne; [done|]. intros <-. specialize (H3 _ _ _ Hc Ha). specialize (H2 _ _ Hc). arith.
Qed.

Lemma gap_apart l1 l2 x b : StronglySorted gap (l1 ++ x :: l2) → b ∈ l1 ++ l2 → apart x b.
Proof.
  intros (Hs1 & _ & [Hs2 _]%StronglySorted_cons)%StronglySorted_app. rewrite list.Forall_forall in Hs2.
  intros [Hb|Hb]%elem_of_app; [right; specialize (Hs1 b x Hb ltac:(set_solver)); arith|left; specialize (Hs2 b Hb); arith].
Qed.

(** A free block is divided. *)
Lemma parted_split brk l1 l2 a s n us : 0 < n < s → parted brk (l1 ++ (a, s) :: l2) us →
  parted brk (l1 ++ (a, s - n) :: (a + HS * (s - n), n) :: l2) us.
Proof.
  intros Hn [H1 H2 H3 H4 H5]. assert (Ha : (a, s) ∈ l1 ++ (a, s) :: l2) by set_solver. pose proof (H1 _ Ha) as Ga.
  assert (Hin : ∀ b, b ∈ l1 ++ (a, s - n) :: (a + HS * (s - n), n) :: l2 →
    b ∈ l1 ++ (a, s) :: l2 ∨ b = (a, s - n) ∨ b = (a + HS * (s - n), n)) by set_solver.
  assert (Hmod : (a + HS * (s - n) - lo) mod HS = 0).
  { destruct Ga as (_ & _ & _ & Hm). cbn [fst] in Hm. rewrite <- Hm. rewrite <- (Z_mod_plus_full (a - lo) (s - n)). f_equal. unfold sizeof_Header. lia. }
  split; [|done| |done|].
  - intros b [Hb|[-> | ->]]%Hin; [auto| |]; arith.
  - intros c k b Hc [Hb|[-> | ->]]%Hin; [eauto| |]; specialize (H3 _ _ _ Hc Ha); specialize (H2 _ _ Hc); arith.
  - intros x Hx Hm. destruct (H5 x Hx Hm) as [(b & Hb & Hc)|H]; [left|by right].
    apply elem_of_app in Hb as [Hb|[-> | Hb]%elem_of_cons]; [exists b; set_solver| |exists b; set_solver].
    destruct (Z.lt_ge_cases x (a + HS * (s - n))); [exists (a, s - n)|exists (a + HS * (s - n), n)]; (split; [set_solver|]); arith.
Qed.

(** More memory, in use at first. *)
Lemma parted_grow brk fr us n : 0 < n → lo <= brk → (brk - lo) mod HS = 0 → parted brk fr us → parted (brk + HS * n) fr (<[brk := n]> us).
Proof.
  intros Hn Hlo Hm [H1 H2 H3 H4 H5]. split.
  - intros b Hb. specialize (H1 b Hb). arith.
  - intros a k [[<- <-]|[_ Ha]]%lookup_insert_Some; [arith|]. specialize (H2 _ _ Ha). arith.
  - intros a k b [[<- <-]|[_ Ha]]%lookup_insert_Some Hb; [|eauto]. specialize (H1 b Hb). arith.
  - intros a k b j [[<- <-]|[Hne Ha]]%lookup_insert_Some [[<- <-]|[Hne' Hb]]%lookup_insert_Some Hab; [done| | |eauto].
    + specialize (H2 _ _ Hb). arith.
    + specialize (H2 _ _ Ha). arith.
  - intros x Hx Hxm. destruct (Z.lt_ge_cases x brk) as [Hlt|Hge].
    + destruct (H5 x ltac:(lia) Hxm) as [H|(a & k & Ha & Hc)]; [by left|]. right. exists a, k. rewrite lookup_insert_ne; [done|].
      specialize (H2 _ _ Ha). arith.
    + right. exists brk, n. rewrite lookup_insert_eq. split; [done|]. arith.
Qed.

(** ** The state of the allocator *)

Record heap_inv (st : um) (fr : list block) (us : gmap Z Z) : Prop := {
  hi_ring : lseg (um_mem st) ((base_addr, 0) :: fr) base_addr;
  hi_freep : um_freep st ∈ base_addr :: fr.*1;
  hi_gap : StronglySorted gap ((base_addr, 0) :: fr);
  hi_part : parted (um_brk st) fr us;
  hi_hdr : ∀ a n, us !! a = Some n → ∃ y, um_mem st !! a = Some (Header y n);
  hi_dom : ∀ x, lo <= x < um_brk st → (x - lo) mod HS = 0 → is_Some (um_mem st !! x);
  hi_base : 0 < base_addr < lo;
  hi_brk : lo <= um_brk st <= um_limit st ∧ (um_brk st - lo) mod HS = 0 ∧ um_limit st < 2 ^ 31 }.

(** The header behind [x] in the ring: the next higher one, or the first. *)
Lemma succ_char m N x s y : StronglySorted gap N → (∀ b, b ∈ N → 0 <= b.2) → lseg m N base_addr → (x, s) ∈ N →
  m !! x = Some (Header y s) →
  (y = base_addr ∧ ∀ b, b ∈ N → b.1 <= x) ∨ (x < y ∧ (∃ t, (y, t) ∈ N) ∧ ∀ b, b ∈ N → b.1 <= x ∨ y <= b.1).
Proof.
  intros Hs Hpos Hl (A & B & ->)%list_elem_of_split Hy. apply lseg_app in Hl as [_ [Hx _]]. rewrite Hy in Hx. injection Hx as ->.
  apply StronglySorted_app in Hs as (HA & _ & [HB HsB]%StronglySorted_cons). rewrite list.Forall_forall in HB.
  assert (HA' : ∀ b, b ∈ A → b.1 <= x).
  { intros b Hb. specialize (HA b (x, s) Hb ltac:(set_solver)). specialize (Hpos b ltac:(set_solver)). arith. }
  pose proof (Hpos (x, s) ltac:(set_solver)) as Hs0. destruct B as [|[q t] B]; cbn [hd_addr].
  - left. split; [done|]. intros b [Hb|[-> | Hb]%elem_of_cons]%elem_of_app; [auto|done|by apply not_elem_of_nil in Hb].
  - right. apply StronglySorted_cons in HsB as [HqB _]. rewrite list.Forall_forall in HqB.
    pose proof (HB (q, t) ltac:(set_solver)) as Hq. split_and!; [arith|exists t; set_solver|].
    intros b [Hb|[-> | [-> | Hb]%elem_of_cons]%elem_of_cons]%elem_of_app; [left; auto|left; done|right; done|right].
    specialize (HqB b Hb). specialize (Hpos (q, t) ltac:(set_solver)). arith.
Qed.

Lemma inv_sizes st fr us b : heap_inv st fr us → b ∈ (base_addr, 0) :: fr → 0 <= b.2 ∧ 0 < b.1 ∧ (b = (base_addr, 0) ∨ in_heap (um_brk st) b).
Proof.
  intros [_ _ _ Hp _ _ Hb _] [-> | Hin]%elem_of_cons; [cbn; split_and!; [done|lia|by left]|].
  pose proof (pt_free _ _ _ Hp b Hin) as Hin'. split_and!; [arith|arith|by right].
Qed.

(** Where a block that is in use belongs in the order of the free blocks. *)
Lemma split_place bp fr : ∀ x, StronglySorted gap (x :: fr) → x.1 < bp → (∀ b, b ∈ fr → b.1 ≠ bp ∧ 0 <= b.2) →
  ∃ N1 p N2, x :: fr = N1 ++ p :: N2 ∧ p.1 < bp ∧ ∀ b, b ∈ N2 → bp < b.1.
Proof.
  induction fr as [|y fr IH]; intros x Hs Hx Hne; [exists [], x, []; split_and!; [done|done|by intros ? ?%not_elem_of_nil]|].
  apply StronglySorted_cons in Hs as [Hxy Hs]. destruct (Z.lt_ge_cases y.1 bp) as [Hy|Hy].
  - destruct (IH y Hs Hy ltac:(set_solver)) as (N1 & p & N2 & -> & Hp & HN2). by exists (x :: N1), p, N2.
  - exists [], x, (y :: fr). split_and!; [done|done|]. apply StronglySorted_cons in Hs as [Hyf _]. rewrite list.Forall_forall in Hyf.
    destruct (Hne y ltac:(set_solver)) as [Hne' Hy0]. intros b [-> | Hb]%elem_of_cons; [lia|]. specialize (Hyf b Hb). arith.
Qed.

Lemma gap_NoDup N : StronglySorted gap N → (∀ b, b ∈ N → 0 <= b.2) → NoDup N.*1.
Proof.
  induction N as [|x N IH]; intros Hs Hpos; [constructor|]. apply StronglySorted_cons in Hs as [Hx Hs]. rewrite list.Forall_forall in Hx.
  cbn. apply list.NoDup_cons. split; [|apply IH; [done|set_solver]]. intros (b & Hb & Hin)%list_elem_of_fmap.
  specialize (Hx b Hin). specialize (Hpos x ltac:(set_solver)). arith.
Qed.

(** A ring has no more headers than the memory. *)
Lemma ring_length (m : gmap Z header) N to : NoDup N.*1 → lseg m N to → (length N <= base.size m)%nat.
Proof.
  intros Hnd Hl. rewrite <- (length_fmap fst N), <- size_dom, <- (size_list_to_set (C := gset Z) N.*1) by done.
  apply subseteq_size. intros a Ha. apply elem_of_list_to_set, list_elem_of_fmap in Ha as ([b s] & -> & Hin).
  destruct (lseg_lookup _ _ _ _ _ Hl Hin) as [y Hy]. apply elem_of_dom. cbn [fst]. by rewrite Hy.
Qed.

Lemma freep_split st fr us : heap_inv st fr us → ∃ A sf B, (base_addr, 0) :: fr = A ++ (um_freep st, sf) :: B.
Proof.
  intros [_ Hfp _ _ _ _ _ _]. change (base_addr :: fr.*1) with (((base_addr, 0) :: fr).*1) in Hfp.
  apply list_elem_of_fmap in Hfp as ([a s] & Ha & Hin). cbn in Ha. subst a. apply list_elem_of_split in Hin as (A & B & ->). by exists A, s, B.
Qed.

(** Walking round the ring, from [freep] on. *)
Lemma ring_from_freep st fr us A sf B : heap_inv st fr us → (base_addr, 0) :: fr = A ++ (um_freep st, sf) :: B →
  lseg (um_mem st) ((um_freep st, sf) :: B ++ A) (um_freep st).
Proof.
  intros Hi HN. pose proof (hi_ring _ _ _ Hi) as Hl. rewrite HN in Hl. destruct A as [|a A].
  - injection HN as HN1 HN2. rewrite app_nil_r. cbn [app] in Hl. by rewrite <- HN1 in *.
  - injection HN as Ha _. pose proof (lseg_rotate (um_mem st) (a :: A) ((um_freep st, sf) :: B)) as Hr. rewrite <- Ha in Hr.
    cbn [app hd_addr] in Hr. rewrite <- Ha. apply Hr; [|done]. by rewrite <- Ha in Hl.
Qed.

Lemma find_place st fr us bp n : heap_inv st fr us → us !! bp = Some n →
  ∃ N1 p sp N2, (base_addr, 0) :: fr = N1 ++ (p, sp) :: N2 ∧ p < bp ∧ (∀ b, b ∈ N2 → bp < b.1) ∧
    ∀ fuel, (base.size (um_mem st) < fuel)%nat → loop fuel (free_body bp) (um_freep st) st = Ok (p, st).
Proof.
  intros Hi Hbp. pose proof (pt_used _ _ _ (hi_part _ _ _ Hi) _ _ Hbp) as Hin. pose proof (hi_base _ _ _ Hi) as Hbase.
  assert (Hsz : ∀ b, b ∈ (base_addr, 0) :: fr → 0 <= b.2) by (intros b Hb; by apply (inv_sizes _ _ _ _ Hi)).
  assert (Hne : ∀ b, b ∈ fr → b.1 ≠ bp ∧ 0 <= b.2).
  { intros b Hb. pose proof (pt_free _ _ _ (hi_part _ _ _ Hi) b Hb). pose proof (pt_apart _ _ _ (hi_part _ _ _ Hi) _ _ _ Hbp Hb). arith. }
  destruct (split_place bp fr (base_addr, 0) (hi_gap _ _ _ Hi) ltac:(arith) Hne) as (N1 & [p sp] & N2 & HN & Hp & HN2).
  exists N1, p, sp, N2. split_and!; [done|done|done|]. intros fuel Hfuel.
  destruct (freep_split st fr us Hi) as (A & sf & B & HNf). pose proof (ring_from_freep _ _ _ _ _ _ Hi HNf) as Hring.
  assert (Hperm : ∀ b, b ∈ (um_freep st, sf) :: B ++ A ↔ b ∈ (base_addr, 0) :: fr) by (rewrite HNf; set_solver).
  pose proof (hi_gap _ _ _ Hi) as Hgap.
  pose proof (ring_length _ _ _ (gap_NoDup _ Hgap Hsz) (hi_ring _ _ _ Hi)) as Hlen.
  rewrite HNf, length_app in Hlen. cbn [length] in Hlen.
  apply (free_walk bp p st (um_freep st) ((um_freep st, sf) :: B ++ A)); [done|cbn [length]; rewrite length_app; lia| |].
  - apply list_elem_of_fmap. exists (p, sp). split; [done|]. apply Hperm. rewrite HN. set_solver.
  - intros x s y Hx Hy. apply Hperm in Hx.
    assert (Hpos : ∀ b, b ∈ (base_addr, 0) :: fr → b.1 <= p ∨ bp < b.1).
    { rewrite HN in Hgap, Hsz |- *. apply StronglySorted_app in Hgap as (HA & _ & _).
      intros b [Hb|[-> | Hb]%elem_of_cons]%elem_of_app; [left|left; done|right; auto].
      specialize (HA b (p, sp) Hb ltac:(set_solver)). specialize (Hsz b ltac:(set_solver)). arith. }
    pose proof (Hpos _ Hx) as Hxp. assert (Hpin : (p, sp) ∈ (base_addr, 0) :: fr) by (rewrite HN; set_solver).
    unfold stops. destruct (succ_char _ _ _ _ _ Hgap Hsz (hi_ring _ _ _ Hi) Hx Hy) as [[-> Hmax]|(Hlt & (t & Hyt) & Hbet)].
    + pose proof (Hmax (base_addr, 0) ltac:(set_solver)). specialize (Hmax _ Hpin). case_bool_decide; arith; lia.
    + specialize (Hbet _ Hpin). specialize (Hpos _ Hyt). case_bool_decide; arith; lia.
Qed.

(** ** Joining a block with its neighbours *)

(** What lies above the block [(bp, n)] once it is joined with a block that touches it. *)
Definition join_right (bp n : Z) (N2 : list block) : Z * list block :=
  match N2 with
  | (q, sq) :: N2' => if bp + HS * n =? q then (n + sq, N2') else (n, N2)
  | [] => (n, [])
  end.

Lemma join_right_run st bp n yb N2 : um_mem st !! bp = Some (Header yb n) → lseg (um_mem st) N2 base_addr → base_addr < bp → 0 < n →
  0 <= (join_right bp n N2).1 < 2 ^ 32 →
  (if bp + HS * n =? hd_addr N2 base_addr then
     hq ← hdr (hd_addr N2 base_addr);
     set_size bp (n + size hq);;
     set_ptr bp (ptr hq)
   else set_ptr bp (hd_addr N2 base_addr)) st =
  Ok (tt, set_mem <[bp := Header (hd_addr (join_right bp n N2).2 base_addr) (join_right bp n N2).1]> st).
Proof.
  intros Hbp Hl Hlt Hn Hb. destruct N2 as [|[q sq] N2]; cbn [hd_addr join_right].
  - rewrite (proj2 (Z.eqb_neq _ _)) by arith. by rewrite (set_ptr_run _ _ _ _ Hbp).
  - cbn [join_right] in Hb. destruct (bp + HS * n =? q); [|by rewrite (set_ptr_run _ _ _ _ Hbp)].
    destruct Hl as [Hq _]. rewrite (hdr_run _ _ _ _ Hq). cbn [size ptr]. by rewrite (set_both_run _ _ _ _ _ Hbp) by done.
Qed.

Lemma join_right_parted brk F1 bp n N2 us : parted brk (F1 ++ (bp, n) :: N2) us →
  parted brk (F1 ++ (bp, (join_right bp n N2).1) :: (join_right bp n N2).2) us.
Proof.
  destruct N2 as [|[q sq] N2]; cbn [join_right]; [done|]. destruct (Z.eqb_spec (bp + HS * n) q) as [<-|]; [|done]. apply parted_join.
Qed.

Lemma join_right_gap bp n N2 : StronglySorted gap N2 → (∀ b, b ∈ N2 → bp < b.1 ∧ 0 <= b.2 ∧ apart (bp, n) b) → 
  StronglySorted gap ((bp, (join_right bp n N2).1) :: (join_right bp n N2).2).
Proof.
  intros Hs Hb. destruct N2 as [|[q sq] N2]; cbn [join_right fst snd]; [by repeat constructor|].
  apply StronglySorted_cons in Hs as [Hq Hs]. rewrite list.Forall_forall in Hq.
  destruct (Z.eqb_spec (bp + HS * n) q) as [<-|Hne]; apply StronglySorted_cons.
  - split; [|done]. apply list.Forall_forall. intros b Hin. specialize (Hq b Hin). arith.
  - split; [|apply StronglySorted_cons; split; [by apply list.Forall_forall|done]].
    destruct (Hb (q, sq) ltac:(set_solver)) as (Hlt & Hsq & Hap). apply list.Forall_forall.
    intros b [-> | Hin]%elem_of_cons; [arith|]. specialize (Hq b Hin). arith.
Qed.

Lemma join_right_lseg m bp n N2 h : lseg m N2 base_addr → bp ∉ N2.*1 → lseg (<[bp := h]> m) (join_right bp n N2).2 base_addr.
Proof.
  intros Hl Hn. destruct N2 as [|[q sq] N2]; cbn [join_right]; [done|]. destruct (bp + HS * n =? q); [|by apply lseg_insert].
  destruct Hl as [_ Hl]. apply lseg_insert; [set_solver|done].
Qed.

Lemma join_right_sub bp n N2 b : b ∈ (join_right bp n N2).2 → b ∈ N2.
Proof. destruct N2 as [|[q sq] N2]; cbn [join_right]; [done|]. destruct (bp + HS * n =? q); set_solver. Qed.

(** What lies below the block [(bp, n)], and the block, joined if they touch. *)
Definition join_left (p sp bp n : Z) : list block := if p + HS * sp =? bp then [(p, sp + n)] else [(p, sp); (bp, n)].

Definition left_header (p sp bp n y : Z) : header := if p + HS * sp =? bp then Header y (sp + n) else Header bp sp.

Lemma join_left_run st p sp bp n yp y : um_mem st !! p = Some (Header yp sp) → 0 <= sp + n < 2 ^ 32 →
  (if p + HS * sp =? bp then set_size p (sp + n);; set_ptr p y else set_ptr p bp) st =
  Ok (tt, set_mem <[p := left_header p sp bp n y]> st).
Proof.
  intros Hp Hb. unfold left_header. destruct (p + HS * sp =? bp); [by rewrite (set_both_run _ _ _ _ _ Hp)|by rewrite (set_ptr_run _ _ _ _ Hp)].
Qed.

Lemma join_left_lseg m N1 p sp bp n N2 : lseg m N1 p → lseg m N2 base_addr → p ∉ N1.*1 → p ∉ N2.*1 → p ≠ bp →
  m !! bp = Some (Header (hd_addr N2 base_addr) n) →
  lseg (<[p := left_header p sp bp n (hd_addr N2 base_addr)]> m) (N1 ++ join_left p sp bp n ++ N2) base_addr.
Proof.
  intros H1 H2 Hp1 Hp2 Hne Hbp. unfold join_left, left_header. destruct (p + HS * sp =? bp); rewrite lseg_app; cbn [app lseg hd_addr].
  - split_and!; [by apply lseg_insert|by rewrite lookup_insert_eq|by apply lseg_insert].
  - split_and!; [by apply lseg_insert|by rewrite lookup_insert_eq|by rewrite lookup_insert_ne|by apply lseg_insert].
Qed.

Lemma join_left_gap N1 p sp bp n N2 : StronglySorted gap (N1 ++ [(p, sp)]) → StronglySorted gap ((bp, n) :: N2) →
  0 <= sp → 0 <= n → p < bp → p + HS * sp <= bp → StronglySorted gap (N1 ++ join_left p sp bp n ++ N2).
Proof.
  intros H1 H2 Hsp Hn Hlt Hle. apply StronglySorted_app in H1 as (HA & HN1 & _). apply StronglySorted_cons in H2 as [HB HN2].
  rewrite list.Forall_forall in HB.
  assert (HA' : ∀ x, x ∈ N1 → gap x (p, sp)) by (intros x Hx; apply HA; set_solver).
  apply StronglySorted_app_2; [|done|].
  - intros x y Hx Hy. specialize (HA' x Hx). unfold join_left in Hy. apply elem_of_app in Hy as [Hy|Hy]; [|specialize (HB y Hy); arith].
    destruct (_ =? bp); [apply list_elem_of_singleton in Hy as ->; arith|]. rewrite !elem_of_cons in Hy.
    destruct Hy as [-> | [-> | Hy%not_elem_of_nil]]; arith; done.
  - unfold join_left. destruct (Z.eqb_spec (p + HS * sp) bp) as [E|E]; cbn [app]; rewrite !StronglySorted_cons, ?list.Forall_cons, !list.Forall_forall;
      split_and!; try done; try (intros x Hx; specialize (HB x Hx)); arith.
Qed.

Lemma join_left_parted brk l1 p sp bp n l2 us : parted brk (l1 ++ (p, sp) :: (bp, n) :: l2) us → parted brk (l1 ++ join_left p sp bp n ++ l2) us.
Proof. unfold join_left. destruct (Z.eqb_spec (p + HS * sp) bp) as [<-|]; [|done]. apply parted_join. Qed.

(** ** [free] *)

(** The headers and contents of the blocks in use are left alone. *)
Definition untouched (st st' : um) (us : gmap Z Z) : Prop :=
  ∀ a n x, us !! a = Some n → covers (a, n) x → um_mem st' !! x = um_mem st !! x.

Lemma node_not_used st fr us p sp a n x : heap_inv st fr us → (p, sp) ∈ (base_addr, 0) :: fr → us !! a = Some n → covers (a, n) x → x ≠ p.
Proof.
  intros Hi Hp Ha Hx. pose proof (pt_used _ _ _ (hi_part _ _ _ Hi) _ _ Ha). pose proof (hi_base _ _ _ Hi).
  apply elem_of_cons in Hp as [[= -> ->]|Hp]; [arith|].
  pose proof (pt_free _ _ _ (hi_part _ _ _ Hi) _ Hp). pose proof (pt_apart _ _ _ (hi_part _ _ _ Hi) _ _ _ Ha Hp). arith.
Qed.

Lemma block_bound st fr us b : heap_inv st fr us → in_heap (um_brk st) b → b.1 + HS * b.2 < 2 ^ 31 ∧ b.2 < 2 ^ 31 ∧ 0 < b.2.
Proof. intros Hi Hb. pose proof (hi_brk _ _ _ Hi). pose proof (hi_base _ _ _ Hi). arith. Qed.

(** The memory after [free] put the block [(bp, n)] between [N1 ++ [(p, sp)]] and [N2]. *)
Definition freed (st : um) (p sp bp n : Z) (N2 : list block) : um :=
  let '(n', N2') := join_right bp n N2 in
  set_freep p (set_mem <[p := left_header p sp bp n' (hd_addr N2' base_addr)]>
    (set_mem <[bp := Header (hd_addr N2' base_addr) n']> st)).

Lemma free_run st fr us bp n N1 p sp N2 : heap_inv st fr us → us !! bp = Some n →
  (base_addr, 0) :: fr = N1 ++ (p, sp) :: N2 → p < bp →
  (∀ fuel, (base.size (um_mem st) < fuel)%nat → loop fuel (free_body bp) (um_freep st) st = Ok (p, st)) →
  sp + (join_right bp n N2).1 < 2 ^ 32 → 0 <= (join_right bp n N2).1 →
  free (bp + HS) st = Ok (tt, freed st p sp bp n N2).
Proof.
  intros Hi Hbp HN Hlt Hloop Hb Hb0. destruct (hi_hdr _ _ _ Hi _ _ Hbp) as [yb Hyb]. pose proof (hi_ring _ _ _ Hi) as Hl. rewrite HN in Hl.
  apply lseg_app in Hl as [_ [Hp Hl2]]. pose proof (pt_used _ _ _ (hi_part _ _ _ Hi) _ _ Hbp) as Hin. pose proof (hi_base _ _ _ Hi).
  assert (Hsp : 0 <= sp). { destruct (inv_sizes _ _ _ (p, sp) Hi) as [? _]; [rewrite HN; set_solver|done]. }
  unfold free. replace (bp + HS - HS) with bp by lia. rewrite (bind_ok _ _ _ (um_freep st) st) by done.
  rewrite (bind_ok _ _ _ (S (base.size (um_mem st))) st) by done. rewrite (bind_ok _ _ _ _ _ (Hloop (S (base.size (um_mem st))) ltac:(lia))).
  rewrite (hdr_run _ _ _ _ Hyb), (hdr_run _ _ _ _ Hp). cbn [size ptr].
  assert (Hn' : 0 <= (join_right bp n N2).1 < 2 ^ 32) by lia.
  rewrite (bind_ok _ _ _ _ _ (join_right_run st bp n yb N2 Hyb Hl2 ltac:(arith) ltac:(arith) Hn')).
  unfold freed. destruct (join_right bp n N2) as [n' N2']. cbn [fst snd] in *. set (st1 := set_mem _ st).
  rewrite (hdr_run bp (Header (hd_addr N2' base_addr) n')) by apply lookup_insert_eq.
  assert (Hp1 : um_mem st1 !! p = Some (Header (hd_addr N2 base_addr) sp)) by (cbn; rewrite lookup_insert_ne; [done|lia]).
  rewrite (hdr_run _ _ _ _ Hp1). cbn [size ptr]. by rewrite (bind_ok _ _ _ _ _ (join_left_run st1 p sp bp n' _ (hd_addr N2' base_addr) Hp1 ltac:(lia))).
Qed.

(** The blocks after [free]. *)
Lemma freed_parted brk fr us bp n N1 p sp N2 n' N2' : (base_addr, 0) :: fr = N1 ++ (p, sp) :: N2 → base_addr < bp →
  parted brk fr us → us !! bp = Some n → join_right bp n N2 = (n', N2') →
  ∃ fr', (base_addr, 0) :: fr' = N1 ++ join_left p sp bp n' ++ N2' ∧ parted brk fr' (delete bp us).
Proof.
  intros HN Hlt Hp Hbp Hj. destruct N1 as [|b N1]; cbn [app] in *; [injection HN as <- <- ->|injection HN as <- ->].
  - pose proof (parted_put _ [] _ _ _ _ Hp Hbp) as Hp'. apply (join_right_parted _ []) in Hp'. rewrite Hj in Hp'. cbn in Hp'.
    exists ((bp, n') :: N2'). split; [|done]. unfold join_left. rewrite (proj2 (Z.eqb_neq _ _)) by arith. done.
  - exists (N1 ++ join_left p sp bp n' ++ N2'). split; [done|]. apply join_left_parted.
    replace (N1 ++ (p, sp) :: N2) with ((N1 ++ [(p, sp)]) ++ N2) in Hp by by rewrite <- app_assoc.
    pose proof (parted_put _ _ _ _ _ _ Hp Hbp) as Hp'. apply join_right_parted in Hp'. rewrite Hj in Hp'.
    by rewrite <- app_assoc in Hp'.
Qed.

Lemma freed_inv st fr us bp n N1 p sp N2 : heap_inv st fr us → us !! bp = Some n →
  (base_addr, 0) :: fr = N1 ++ (p, sp) :: N2 → p < bp → (∀ b, b ∈ N2 → bp < b.1) →
  ∃ fr', (base_addr, 0) :: fr' = N1 ++ join_left p sp bp (join_right bp n N2).1 ++ (join_right bp n N2).2 ∧
    heap_inv (freed st p sp bp n N2) fr' (delete bp us).
Proof.
  intros Hi Hbp HN Hlt HN2. pose proof (hi_base _ _ _ Hi) as Hbase. pose proof (hi_gap _ _ _ Hi) as Hgap.
  assert (Hsz : ∀ b, b ∈ (base_addr, 0) :: fr → 0 <= b.2) by (intros b Hb; by apply (inv_sizes _ _ _ _ Hi)).
  pose proof (pt_used _ _ _ (hi_part _ _ _ Hi) _ _ Hbp) as Hinbp.
  pose proof (gap_NoDup _ Hgap Hsz) as Hnd. pose proof (hi_ring _ _ _ Hi) as Hl. rewrite HN in Hgap, Hsz, Hnd, Hl.
  assert (Hnode : ∀ b, b ∈ (base_addr, 0) :: fr → b.1 ≠ bp).
  { intros [b s] Hb E. cbn in E. subst b. by apply (node_not_used st fr us bp s bp n bp Hi Hb Hbp); arith. }
  assert (Hap : ∀ b, b ∈ N2 → bp < b.1 ∧ 0 <= b.2 ∧ apart (bp, n) b).
  { intros b Hb. split_and!; [auto|apply Hsz; set_solver|]. apply (pt_apart _ _ _ (hi_part _ _ _ Hi)); [done|].
    assert (Hb' : b ∈ (base_addr, 0) :: fr) by (rewrite HN; set_solver). apply elem_of_cons in Hb' as [-> | ?]; [|done].
    specialize (HN2 _ Hb). arith. }
  apply lseg_app in Hl as [Hl1 [Hp Hl2]]. cbn [hd_addr] in Hl1. rewrite fmap_app in Hnd. cbn [fmap list_fmap fst] in Hnd.
  apply list.NoDup_app in Hnd as (_ & Hnd1 & [HpN2 HndN2]%list.NoDup_cons).
  destruct (join_right bp n N2) as [n' N2'] eqn:Ej. cbn [fst snd].
  destruct (freed_parted (um_brk st) fr us bp n N1 p sp N2 n' N2' HN ltac:(arith) (hi_part _ _ _ Hi) Hbp Ej) as (fr' & HN' & Hpart).
  exists fr'. split; [done|]. unfold freed. rewrite Ej.
  pose proof (join_right_lseg (um_mem st) bp n N2 (Header (hd_addr N2' base_addr) n') Hl2) as Hl2'. rewrite Ej in Hl2'. cbn [snd] in Hl2'.
  assert (HN2bp : bp ∉ N2.*1) by (intros (b & -> & Hb)%list_elem_of_fmap; apply HN2 in Hb; lia).
  assert (Hn' : 0 <= n').
  { destruct N2 as [|[q sq] N2]; cbn [join_right] in Ej; [injection Ej as <- _; arith|]. specialize (Hsz (q, sq) ltac:(set_solver)).
    destruct (_ =? q); injection Ej as <- _; arith. }
  assert (Hple : p + HS * sp <= bp).
  { assert (Hb' : (p, sp) ∈ (base_addr, 0) :: fr) by (rewrite HN; set_solver). specialize (Hsz (p, sp) ltac:(set_solver)).
    apply elem_of_cons in Hb' as [[= -> ->] | Hb']; [arith|].
    pose proof (pt_apart _ _ _ (hi_part _ _ _ Hi) _ _ _ Hbp Hb'). arith. }
  split; cbn [um_mem um_freep um_brk um_limit set_mem set_freep].
  - rewrite HN'. apply join_left_lseg.
    + apply lseg_insert; [|done]. intros (b & E & Hb)%list_elem_of_fmap. apply (Hnode b); [rewrite HN; set_solver|done].
    + by apply Hl2'.
    + intros Hin. apply (Hnd1 p Hin). set_solver.
    + intros (b & E & Hb)%list_elem_of_fmap. apply HpN2. rewrite E. apply list_elem_of_fmap. exists b. split; [done|].
      apply (join_right_sub bp n). by rewrite Ej.
    + lia.
    + by rewrite lookup_insert_eq.
  - change (base_addr :: fr'.*1) with (((base_addr, 0) :: fr').*1). rewrite HN', !fmap_app, !elem_of_app. right. left.
    unfold join_left. destruct (_ =? bp); cbn; set_solver.
  - rewrite HN'. pose proof (join_right_gap bp n N2) as Hg2. rewrite Ej in Hg2. cbn [fst snd] in Hg2. apply join_left_gap; [| |..]; try done.
    + replace (N1 ++ (p, sp) :: N2) with ((N1 ++ [(p, sp)]) ++ N2) in Hgap by by rewrite <- app_assoc.
      by apply StronglySorted_app_1_l in Hgap.
    + apply Hg2; [|done]. apply StronglySorted_app_1_r, StronglySorted_cons in Hgap. apply Hgap.
    + apply (Hsz (p, sp)). set_solver.
  - done.
  - intros a k [Hne Ha]%lookup_delete_Some. destruct (hi_hdr _ _ _ Hi a k Ha) as [y Hy]. exists y.
    pose proof (pt_used _ _ _ (hi_part _ _ _ Hi) _ _ Ha). rewrite !lookup_insert_ne; [done|done|].
    intros <-. by apply (node_not_used st fr us p sp p k p Hi ltac:(rewrite HN; set_solver) Ha); arith.
  - intros x Hx Hm. rewrite !lookup_insert_is_Some'. right. right. by apply (hi_dom _ _ _ Hi).
  - done.
  - apply (hi_brk _ _ _ Hi).
Qed.

(** What [free] guarantees. *)
Lemma free_ok st fr us bp n : heap_inv st fr us → us !! bp = Some n →
  wp (free (bp + HS)) st (λ _ st', um_brk st' = um_brk st ∧ um_limit st' = um_limit st ∧ untouched st st' (delete bp us) ∧
    ∃ fr', heap_inv st' fr' (delete bp us) ∧ (length fr' <= S (length fr))%nat ∧ ∃ b, b ∈ fr' ∧ n <= b.2).
Proof.
  intros Hi Hbp. destruct (find_place st fr us bp n Hi Hbp) as (N1 & p & sp & N2 & HN & Hlt & HN2 & Hloop).
  destruct (freed_inv st fr us bp n N1 p sp N2 Hi Hbp HN Hlt HN2) as (fr' & HN' & Hi').
  assert (Hsz : ∀ b, b ∈ (base_addr, 0) :: fr → 0 <= b.2) by (intros b Hb; by apply (inv_sizes _ _ _ _ Hi)). rewrite HN in Hsz.
  pose proof (pt_used _ _ _ (hi_part _ _ _ Hi) _ _ Hbp) as Hinbp. pose proof (hi_base _ _ _ Hi) as Hbase.
  assert (Hin2 : ∀ b, b ∈ N2 → in_heap (um_brk st) b).
  { intros b Hb. destruct (inv_sizes _ _ _ b Hi) as (_ & _ & [-> | ?]); [rewrite HN; set_solver| |done]. specialize (HN2 _ Hb). arith. }
  assert (Hspb : sp < 2 ^ 31).
  { destruct (inv_sizes _ _ _ (p, sp) Hi) as (_ & _ & [[= -> ->] | Hin]); [rewrite HN; set_solver|lia|]. apply (block_bound _ _ _ _ Hi) in Hin. cbn [snd] in Hin. lia. }
  assert (Hn' : n <= (join_right bp n N2).1 < 2 ^ 31 ∧ (length (join_right bp n N2).2 <= length N2)%nat).
  { pose proof (block_bound _ _ _ _ Hi Hinbp). destruct N2 as [|[q sq] N2]; cbn [join_right fst snd] in *; [lia|].
    pose proof (block_bound _ _ _ _ Hi (Hin2 (q, sq) ltac:(set_solver))). specialize (Hin2 (q, sq) ltac:(set_solver)).
    destruct (Z.eqb_spec (bp + HS * n) q); cbn [fst snd length]; arith. }
  specialize (Hsz (p, sp) ltac:(set_solver)). cbn [snd] in Hsz.
  assert (Hn0 : 0 < n) by by destruct Hinbp.
  unfold wp. rewrite (free_run st fr us bp n N1 p sp N2 Hi Hbp HN Hlt Hloop) by lia.
  split_and!; [by unfold freed; destruct (join_right _ _ _)..| |exists fr'; split_and!; [done| |]].
  - intros a k x [Hne Ha]%lookup_delete_Some Hx. unfold freed. destruct (join_right _ _ _) as [n' N2']. cbn.
    rewrite !lookup_insert_ne; [done| |].
    + intros <-. pose proof (pt_apart_used _ _ _ (hi_part _ _ _ Hi) _ _ _ _ Hbp Ha ltac:(congruence)). arith.
    + intros <-. by apply (node_not_used st fr us p sp a k p Hi ltac:(rewrite HN; set_solver) Ha).
  - apply (f_equal length) in HN, HN'. rewrite !length_app in *. cbn [length] in *.
    assert (length (join_left p sp bp (join_right bp n N2).1) <= 2)%nat by (unfold join_left; destruct (_ =? bp); simpl; lia). lia.
  - assert (∃ b, b ∈ (base_addr, 0) :: fr' ∧ n <= b.2) as (b & [-> | Hb]%elem_of_cons & Hnb); [|arith|by exists b].
    rewrite HN'. unfold join_left. destruct (_ =? bp); [exists (p, sp + (join_right bp n N2).1)|exists (bp, (join_right bp n N2).1)];
      (split; [set_solver|cbn; lia]).
Qed.

(** ** [morecore] *)

Lemma new_memory_Some brk n x : 0 <= n → brk <= x < brk + HS * n → (x - brk) mod HS = 0 → new_memory brk (HS * n) !! x = Some (Header 0 0).
Proof.
  intros Hn Hx Hm. unfold new_memory. replace ((HS * n) `div` HS) with n by (unfold sizeof_Header; Z.to_euclidean_division_equations; lia).
  apply elem_of_list_to_map_1'.
  - intros y (i & [= _ ->] & _)%list_elem_of_fmap. done.
  - apply list_elem_of_fmap. exists ((x - brk) `div` HS). unfold sizeof_Header in *.
    split; [f_equal|apply elem_of_seqZ]; Z.to_euclidean_division_equations; lia.
Qed.

Lemma new_memory_None brk n x : x < brk → new_memory brk n !! x = None.
Proof.
  intros Hx. unfold new_memory. apply not_elem_of_list_to_map_1. rewrite <- list_fmap_compose.
  intros (i & -> & Hi%elem_of_seqZ)%list_elem_of_fmap. cbn in Hx. arith.
Qed.

Lemma lseg_ext m m' l to : (∀ a, a ∈ l.*1 → m' !! a = m !! a) → lseg m l to → lseg m' l to.
Proof.
  induction l as [|[a s] l IH]; cbn [lseg fmap list_fmap fst]; [done|]. intros Hm [Ha Hl].
  split; [rewrite Hm; [done|set_solver]|]. apply IH; [|done]. intros b Hb. apply Hm. set_solver.
Qed.

(** The state when the new memory has its header. *)
Definition grown (st : um) (nu : Z) : um :=
  Um (<[um_brk st := Header 0 nu]> (new_memory (um_brk st) (HS * nu) ∪ um_mem st)) (um_freep st) (um_brk st + HS * nu) (um_limit st).

Lemma grown_below st nu x : x < um_brk st → um_mem (grown st nu) !! x = um_mem st !! x.
Proof. intros Hx. cbn. rewrite lookup_insert_ne by lia. by rewrite lookup_union_r by by apply new_memory_None. Qed.

Lemma node_below st fr us b : heap_inv st fr us → b ∈ (base_addr, 0) :: fr → b.1 < um_brk st.
Proof.
  intros Hi Hb. pose proof (hi_base _ _ _ Hi). pose proof (hi_brk _ _ _ Hi). destruct (inv_sizes _ _ _ b Hi Hb) as (_ & _ & [-> | Hin]); arith.
Qed.

Lemma grown_inv st fr us nu : heap_inv st fr us → 0 < nu → um_brk st + HS * nu <= um_limit st →
  heap_inv (grown st nu) fr (<[um_brk st := nu]> us).
Proof.
  intros Hi Hnu Hlim. pose proof (hi_brk _ _ _ Hi) as (Hbrk & Hmod & Hl31). pose proof (hi_base _ _ _ Hi) as Hbase.
  split; [..|done|]; cbn [um_freep um_brk um_limit grown].
  - eapply lseg_ext; [|apply (hi_ring _ _ _ Hi)]. intros a (b & -> & Hb)%list_elem_of_fmap.
    change (um_mem (grown st nu) !! b.1 = um_mem st !! b.1). apply grown_below. by eapply node_below.
  - apply (hi_freep _ _ _ Hi).
  - apply (hi_gap _ _ _ Hi).
  - apply parted_grow; [done|lia|done|apply (hi_part _ _ _ Hi)].
  - intros a n [[<- <-]|[Hne Ha]]%lookup_insert_Some; [exists 0; cbn; by rewrite lookup_insert_eq|].
    destruct (hi_hdr _ _ _ Hi _ _ Ha) as [y Hy]. exists y. pose proof (pt_used _ _ _ (hi_part _ _ _ Hi) _ _ Ha).
    change (um_mem (grown st nu) !! a = Some (Header y n)). rewrite grown_below by arith. done.
  - intros x Hx Hm. destruct (Z.lt_ge_cases x (um_brk st)) as [Hlt|Hge].
    + change (is_Some (um_mem (grown st nu) !! x)). rewrite grown_below by done. apply (hi_dom _ _ _ Hi); [lia|done].
    + cbn [um_mem grown]. rewrite lookup_insert_is_Some'. right. rewrite (lookup_union_Some_l _ _ _ (Header 0 0)); [by eexists|].
      apply new_memory_Some; [lia|lia|]. unfold sizeof_Header in *. Z.to_euclidean_division_equations; lia.
  - unfold sizeof_Header in *. split_and!; [lia|lia| |done]. replace (um_brk st + 16 * nu - lo) with (um_brk st - lo + nu * 16) by lia.
    by rewrite Z_mod_plus_full.
Qed.

(** [nu] headers at most fit into an [int] of bytes. *)
Definition small (nu : Z) : Prop := 0 < nu ∧ Z.max nu 4096 * HS < 2 ^ 31.

Lemma morecore_run st nu : let n := Z.max nu 4096 in small nu → um_brk st ≠ -1 → um_brk st + HS * n <= um_limit st →
  morecore nu st = (free (um_brk st + HS);; gets um_freep) (grown st n).
Proof.
  intros n [Hnu Hsm] Hbrk Hlim. unfold morecore. replace (if nu <? 4096 then 4096 else nu) with n by (unfold n; destruct (Z.ltb_spec nu 4096); lia).
  unfold i32. rewrite Z.mod_small by (fold n in Hsm; arith). replace (n * HS + 2 ^ 31 - 2 ^ 31) with (HS * n) by lia.
  set (st1 := Um (new_memory (um_brk st) (HS * n) ∪ um_mem st) (um_freep st) (um_brk st + HS * n) (um_limit st)).
  rewrite (bind_ok _ _ _ (um_brk st) st1).
  2: { unfold sbrk, mbind, M_bind, gets, id. rewrite (proj2 (Z.ltb_ge _ _)) by lia. by rewrite (proj2 (Z.leb_le _ _)) by arith. }
  rewrite (proj2 (Z.eqb_neq _ _)) by done. rewrite (bind_ok _ _ _ tt (grown st n)); [done|].
  rewrite (set_size_run _ (Header 0 0)); [done| |fold n in Hsm; arith].
  apply lookup_union_Some_l, new_memory_Some; arith. rewrite Z.sub_diag. done.
Qed.

Lemma morecore_ok st fr us nu : heap_inv st fr us → small nu →
  wp (morecore nu) st (λ r st', (r = 0 ∧ st' = st) ∨
    (r = um_freep st' ∧ 0 < r ∧ untouched st st' us ∧
     ∃ fr', heap_inv st' fr' us ∧ (length fr' <= S (length fr))%nat ∧ ∃ b, b ∈ fr' ∧ nu <= b.2)).
Proof.
  intros Hi Hsm. pose proof (hi_brk _ _ _ Hi) as (Hbrk & Hmod & Hl31). pose proof (hi_base _ _ _ Hi) as Hbase. set (n := Z.max nu 4096).
  destruct (Z.lt_ge_cases (um_limit st) (um_brk st + HS * n)) as [Hlim|Hlim].
  - rewrite (wp_ok (morecore nu)). exists 0, st. split; [|by left]. unfold morecore. destruct Hsm as [Hnu Hsm].
    replace (if nu <? 4096 then 4096 else nu) with n by (unfold n; destruct (Z.ltb_spec nu 4096); lia).
    unfold i32. rewrite Z.mod_small by (fold n in Hsm; arith). replace (n * HS + 2 ^ 31 - 2 ^ 31) with (HS * n) by lia.
    rewrite (bind_ok _ _ _ (-1) st); [done|]. unfold sbrk, mbind, M_bind, gets, id. by rewrite (proj2 (Z.ltb_lt _ _)).
  - pose proof (grown_inv st fr us n Hi ltac:(destruct Hsm; unfold n; lia) ltac:(lia)) as Hg.
    pose proof (free_ok (grown st n) fr _ (um_brk st) n Hg ltac:(apply lookup_insert_eq)) as (u & st' & Hrun & _ & _ & Hunt & fr' & Hi' & Hlen & b & Hb & Hnb)%wp_ok.
    destruct u. assert (Hdel : delete (um_brk st) (<[um_brk st := n]> us) = us).
    { apply delete_insert_id. destruct (us !! um_brk st) as [k|] eqn:E; [|done].
      pose proof (pt_used _ _ _ (hi_part _ _ _ Hi) _ _ E). arith. }
    rewrite Hdel in *. rewrite (wp_ok (morecore nu)). exists (um_freep st'), st'. rewrite (morecore_run st nu Hsm) by lia. fold n.
    rewrite (bind_ok _ _ _ _ _ Hrun). split; [done|]. right. split_and!; [done| | |].
    + destruct (freep_split _ _ _ Hi') as (A & sf & B & HN).
      destruct (inv_sizes _ _ _ (um_freep st', sf) Hi') as (_ & Hpos & _); [rewrite HN; set_solver|done].
    + intros a k x Ha Hx. rewrite (Hunt a k x Ha Hx). apply grown_below. pose proof (pt_used _ _ _ (hi_part _ _ _ Hi) _ _ Ha). arith.
    + exists fr'. split_and!; [done|done|]. exists b. split; [done|]. unfold n in Hnb. lia.
Qed.

(** ** [malloc] *)

(** A block of [n] headers has gone into use and nothing else has changed for the others. *)
Definition served (st : um) (us : gmap Z Z) (n r : Z) (st' : um) : Prop :=
  ∃ a fr', r = a + HS ∧ us !! a = None ∧ heap_inv st' fr' (<[a := n]> us) ∧ untouched st st' us.

Lemma used_None st fr us b : heap_inv st fr us → (b ∈ fr ∨ ∃ a s, (a, s) ∈ fr ∧ covers (a, s) b.1) → us !! b.1 = None.
Proof.
  intros Hi Hb. destruct (us !! b.1) as [k|] eqn:E; [|done]. exfalso. pose proof (pt_used _ _ _ (hi_part _ _ _ Hi) _ _ E) as Hk.
  assert (∃ a s, (a, s) ∈ fr ∧ covers (a, s) b.1) as (a & s & Ha & Hc).
  { destruct Hb as [Hb|Hb]; [|done]. destruct b as [a s]. exists a, s. pose proof (pt_free _ _ _ (hi_part _ _ _ Hi) _ Hb). split; [done|arith]. }
  pose proof (pt_apart _ _ _ (hi_part _ _ _ Hi) _ _ _ E Ha). arith.
Qed.

(** The whole of the block at [p]. *)
Lemma take_exact st fr us N1 prevp sprev p n N2 : heap_inv st fr us →
  (base_addr, 0) :: fr = N1 ++ (prevp, sprev) :: (p, n) :: N2 → p ≠ base_addr →
  served st us n (p + HS) (set_freep prevp (set_mem <[prevp := Header (hd_addr N2 base_addr) sprev]> st)).
Proof.
  intros Hi HN Hp. pose proof (hi_gap _ _ _ Hi) as Hgap.
  assert (Hsz : ∀ b, b ∈ (base_addr, 0) :: fr → 0 <= b.2) by (intros b Hb; by apply (inv_sizes _ _ _ _ Hi)).
  pose proof (gap_NoDup _ Hgap Hsz) as Hnd. pose proof (hi_ring _ _ _ Hi) as Hl. rewrite HN in Hnd, Hl.
  assert (∃ F1, (base_addr, 0) :: F1 = N1 ++ [(prevp, sprev)] ∧ fr = F1 ++ (p, n) :: N2) as (F1 & HF1 & Hfr).
  { destruct N1 as [|b N1]; cbn [app] in HN; [injection HN as -> -> ->; by exists []|]. injection HN as <- ->.
    exists (N1 ++ [(prevp, sprev)]). by rewrite <- app_assoc. }
  assert (Hpf : (p, n) ∈ fr) by (rewrite Hfr; set_solver).
  assert (HN' : (base_addr, 0) :: F1 ++ N2 = N1 ++ (prevp, sprev) :: N2) by (rewrite (app_comm_cons F1), HF1, <- app_assoc; done).
  assert (Hpar : parted (um_brk st) (F1 ++ N2) (<[p := n]> us)).
  { apply parted_take; [rewrite <- Hfr; apply (hi_part _ _ _ Hi)|]. intros b. apply gap_apart. rewrite <- Hfr.
    by apply StronglySorted_cons in Hgap as [_ ?]. }
  rewrite fmap_app in Hnd. cbn [fmap list_fmap fst] in Hnd. apply list.NoDup_app in Hnd as (_ & Hnd1 & [Hnp HndN]%list.NoDup_cons).
  apply lseg_app in Hl as [Hl1 (Hl2 & Hl3 & Hl4)]. cbn [hd_addr] in Hl1.
  exists p, (F1 ++ N2). split_and!; [done|by apply (used_None st fr us (p, n) Hi); left| |].
  - split; cbn [um_mem um_freep um_brk um_limit set_mem set_freep]; [..|by apply (hi_base _ _ _ Hi)|by apply (hi_brk _ _ _ Hi)].
    + rewrite HN'. apply lseg_app. cbn [lseg hd_addr]. split_and!; [apply lseg_insert; [|done]|by rewrite lookup_insert_eq|apply lseg_insert; [set_solver|done]].
      intros Hin. apply (Hnd1 _ Hin). set_solver.
    + change (base_addr :: (F1 ++ N2).*1) with (((base_addr, 0) :: F1 ++ N2).*1). rewrite HN', fmap_app. cbn. set_solver.
    + rewrite HN', HN in *. apply StronglySorted_app in Hgap as (HA & HB & HC). rewrite !StronglySorted_cons, !list.Forall_cons in HC.
      apply StronglySorted_app_2; [intros x1 x2 H1 H2; apply HA; set_solver|done|]. apply StronglySorted_cons. naive_solver.
    + done.
    + intros a k [[<- <-]|[Hne Ha]]%lookup_insert_Some.
      * exists (hd_addr N2 base_addr). rewrite lookup_insert_ne by set_solver. done.
      * destruct (hi_hdr _ _ _ Hi _ _ Ha) as [y Hy]. exists y. rewrite lookup_insert_ne; [done|]. intros <-.
        pose proof (pt_used _ _ _ (hi_part _ _ _ Hi) _ _ Ha).
        by apply (node_not_used st fr us prevp sprev prevp k prevp Hi ltac:(rewrite HN; set_solver) Ha); arith.
    + intros x Hx Hm. rewrite lookup_insert_is_Some'. right. by apply (hi_dom _ _ _ Hi).
  - intros a k x Ha Hx. cbn. rewrite lookup_insert_ne; [done|]. intros <-.
    by apply (node_not_used st fr us prevp sprev a k prevp Hi ltac:(rewrite HN; set_solver) Ha).
Qed.

(** The upper part of the block at [p]. *)
Lemma take_split st fr us prevp F1 p s n F2 y k : heap_inv st fr us → prevp ∈ base_addr :: fr.*1 →
  fr = F1 ++ (p, s) :: F2 → 0 < n < s → let p2 := p + HS * (s - n) in um_mem st !! p2 = Some (Header y k) →
  served st us n (p2 + HS) (set_freep prevp (set_mem <[p2 := Header y n]> (set_mem <[p := Header (hd_addr F2 base_addr) (s - n)]> st))).
Proof.
  intros Hi Hprev Hfr Hn p2 Hp2. pose proof (hi_gap _ _ _ Hi) as Hgap.
  assert (Hsz : ∀ b, b ∈ (base_addr, 0) :: fr → 0 <= b.2) by (intros b Hb; by apply (inv_sizes _ _ _ _ Hi)).
  pose proof (gap_NoDup _ Hgap Hsz) as Hnd. pose proof (hi_ring _ _ _ Hi) as Hl. apply StronglySorted_cons in Hgap as [Hgb Hgap].
  assert (Hpf : (p, s) ∈ fr) by (rewrite Hfr; set_solver). pose proof (pt_free _ _ _ (hi_part _ _ _ Hi) _ Hpf) as Hph.
  assert (Hcov : covers (p, s) p2) by (unfold p2; arith).
  assert (Hnode : p2 ∉ ((base_addr, 0) :: fr).*1).
  { intros ([b t] & Hb & Hin)%list_elem_of_fmap. cbn in Hb. subst b. apply elem_of_cons in Hin as [[= E _]|Hin].
    - pose proof (hi_base _ _ _ Hi). arith.
    - rewrite Hfr in Hin. assert (Hin' : (p2, t) ∈ F1 ++ F2 ∨ (p2, t) = (p, s)) by (rewrite elem_of_app, elem_of_cons in Hin; rewrite elem_of_app; tauto).
      destruct Hin' as [Hin'|[= E _]]; [|unfold p2 in E; arith]. rewrite Hfr in Hgap. pose proof (gap_apart _ _ _ _ Hgap Hin') as Hap.
      specialize (Hsz (p2, t) ltac:(rewrite Hfr; set_solver)). unfold p2 in *.
      pose proof (pt_free _ _ _ (hi_part _ _ _ Hi) (p2, t) ltac:(rewrite Hfr; set_solver)). arith. }
  assert (Hpar : parted (um_brk st) (F1 ++ (p, s - n) :: F2) (<[p2 := n]> us)).
  { replace (F1 ++ (p, s - n) :: F2) with ((F1 ++ [(p, s - n)]) ++ F2) by by rewrite <- app_assoc.
    apply parted_take; [rewrite <- app_assoc; apply parted_split; [done|rewrite <- Hfr; apply (hi_part _ _ _ Hi)]|].
    intros b Hb. assert (Hb' : b ∈ F1 ++ F2 ∨ b = (p, s - n)) by set_solver. destruct Hb' as [Hb'| ->]; [|unfold p2; arith].
    rewrite Hfr in Hgap. pose proof (gap_apart _ _ _ _ Hgap Hb'). specialize (Hsz b ltac:(rewrite Hfr; set_solver)). unfold p2. arith. }
  assert (Hp2N : ∀ a k, us !! a = Some k → ∀ x, covers (a, k) x → x ≠ p ∧ x ≠ p2).
  { intros a j Ha x Hx. split; [by apply (node_not_used st fr us p s a j x Hi); [apply elem_of_cons; right|..]|]. intros ->.
    pose proof (pt_apart _ _ _ (hi_part _ _ _ Hi) _ _ _ Ha Hpf). arith. }
  assert (Hp2p : p2 ≠ p) by (unfold p2; arith).
  rewrite Hfr in Hl, Hnd, Hnode. change ((base_addr, 0) :: F1 ++ (p, s) :: F2) with (((base_addr, 0) :: F1) ++ (p, s) :: F2) in Hl, Hnd, Hnode.
  apply lseg_app in Hl as [Hl1 [_ Hl2]]. cbn [hd_addr] in Hl1. rewrite fmap_app in Hnd, Hnode. rewrite fmap_cons in Hnd, Hnode. cbn [fst] in Hnd, Hnode.
  apply list.NoDup_app in Hnd as (_ & Hnd1 & [Hnp _]%list.NoDup_cons).
  exists p2, (F1 ++ (p, s - n) :: F2). split_and!; [done|by apply (used_None st fr us (p2, n) Hi); right; exists p, s| |].
  - split; cbn [um_mem um_freep um_brk um_limit set_mem set_freep]; [..|by apply (hi_base _ _ _ Hi)|by apply (hi_brk _ _ _ Hi)].
    + change ((base_addr, 0) :: F1 ++ (p, s - n) :: F2) with (((base_addr, 0) :: F1) ++ (p, s - n) :: F2). apply lseg_app. cbn [hd_addr].
      split; [|split; [by rewrite lookup_insert_ne, lookup_insert_eq|]]; (apply lseg_insert; [set_solver|apply lseg_insert; [|done]]); [|done].
      intros Hin. apply (Hnd1 _ Hin). set_solver.
    + rewrite Hfr in Hprev. by rewrite fmap_app, fmap_cons in Hprev |- *.
    + rewrite Hfr in Hgap, Hgb. apply StronglySorted_cons. split.
      * rewrite list.Forall_forall in Hgb |- *. intros b [Hb|[-> | Hb]%elem_of_cons]%elem_of_app; [apply Hgb; set_solver| |apply Hgb; set_solver].
        specialize (Hgb (p, s) ltac:(set_solver)). arith.
      * apply StronglySorted_app in Hgap as (HA & HB & [HC HD]%StronglySorted_cons). rewrite list.Forall_forall in HC.
        apply StronglySorted_app_2; [|done|apply StronglySorted_cons; split; [apply list.Forall_forall; intros b Hb; specialize (HC b Hb); arith|done]].
        intros x1 x2 H1 [-> | H2]%elem_of_cons; [specialize (HA x1 (p, s) H1 ltac:(set_solver)); arith|apply HA; set_solver].
    + done.
    + intros a j [[<- <-]|[Hne Ha]]%lookup_insert_Some; [exists y; by rewrite lookup_insert_eq|].
      destruct (hi_hdr _ _ _ Hi _ _ Ha) as [z Hz]. exists z. pose proof (pt_used _ _ _ (hi_part _ _ _ Hi) _ _ Ha).
      destruct (Hp2N a j Ha a ltac:(arith)). by rewrite !lookup_insert_ne.
    + intros x Hx Hm. rewrite !lookup_insert_is_Some'. right. right. by apply (hi_dom _ _ _ Hi).
  - intros a j x Ha Hx. destruct (Hp2N a j Ha x Hx). cbn. by rewrite !lookup_insert_ne.
Qed.

Lemma node_unique (N : list block) (a s t : Z) : NoDup N.*1 → (a, s) ∈ N → (a, t) ∈ N → s = t.
Proof.
  intros Hnd Hs Ht. apply list_elem_of_lookup in Hs as [i Hi], Ht as [j Hj].
  assert (i = j) as ->; [|congruence]. eapply (NoDup_lookup N.*1); [done| |]; rewrite list_lookup_fmap; [by rewrite Hi|by rewrite Hj].
Qed.

Lemma malloc_take_ok st fr us prevp sprev p s n y : heap_inv st fr us → (prevp, sprev) ∈ (base_addr, 0) :: fr →
  um_mem st !! prevp = Some (Header p sprev) → (p, s) ∈ (base_addr, 0) :: fr → um_mem st !! p = Some (Header y s) → 0 < n <= s →
  wp (malloc_take n prevp p (Header y s)) st (served st us n).
Proof.
  intros Hi Hprev Hpm Hp Hpm' Hn. assert (Hsz : ∀ b, b ∈ (base_addr, 0) :: fr → 0 <= b.2) by (intros b Hb; by apply (inv_sizes _ _ _ _ Hi)).
  pose proof (gap_NoDup _ (hi_gap _ _ _ Hi) Hsz) as Hnd. pose proof (hi_ring _ _ _ Hi) as Hl.
  assert (Hpf : (p, s) ∈ fr) by (apply elem_of_cons in Hp as [[= -> ->]|Hp]; [lia|done]).
  pose proof (pt_free _ _ _ (hi_part _ _ _ Hi) _ Hpf) as Hph. pose proof (hi_base _ _ _ Hi) as Hbase.
  unfold malloc_take. cbn [size ptr]. destruct (Z.eqb_spec s n) as [->|Hne].
  - apply list_elem_of_split in Hprev as (N1 & B & HN). pose proof Hl as Hl'. rewrite HN in Hl'. apply lseg_app in Hl' as [_ [Hpm2 HlB]].
    rewrite Hpm in Hpm2. injection Hpm2 as HB. destruct B as [|[q t] B]; cbn [hd_addr] in HB; [arith|]. subst q.
    assert (t = n) as -> by (apply (node_unique _ p t n Hnd); [rewrite HN; set_solver|done]).
    cbn [lseg] in HlB. destruct HlB as [HlB _]. rewrite Hpm' in HlB. injection HlB as ->.
    rewrite wp_ok. exists (p + HS), (set_freep prevp (set_mem <[prevp := Header (hd_addr B base_addr) sprev]> st)).
    split; [|by eapply take_exact; [done|done|arith]].
    rewrite (bind_ok _ _ _ p (set_mem <[prevp := Header (hd_addr B base_addr) sprev]> st)); [done|].
    by rewrite (bind_ok _ _ _ _ _ (set_ptr_run _ _ _ _ Hpm)).
  - pose proof (block_bound _ _ _ _ Hi Hph) as Hbb. cbn [fst snd] in Hbb.
    apply list_elem_of_split in Hpf as (F1 & F2 & Hfr). rewrite Hfr in Hl. cbn [lseg] in Hl. destruct Hl as [_ [_ [Hpl _]]%lseg_app].
    rewrite Hpm' in Hpl. injection Hpl as ->. set (p2 := p + HS * (s - n)).
    assert (is_Some (um_mem st !! p2)) as [[y2 k] Hp2].
    { apply (hi_dom _ _ _ Hi); unfold p2; [arith|]. destruct Hph as (_ & _ & _ & Hm). cbn [fst] in Hm. unfold sizeof_Header in *.
      Z.to_euclidean_division_equations; lia. }
    assert (Hp2p : p ≠ p2) by (unfold p2; arith).
    rewrite wp_ok. eexists (p2 + HS), _. split; [|eapply (take_split st fr us prevp F1 p s n F2 y2 k); [done| |done|lia|exact Hp2]].
    + rewrite (bind_ok _ _ _ p2 (set_mem <[p2 := Header y2 n]> (set_mem <[p := Header (hd_addr F2 base_addr) (s - n)]> st))); [done|].
      rewrite (bind_ok _ _ _ _ _ (set_size_run p _ (s - n) st Hpm' ltac:(lia))). cbv zeta. fold p2.
      rewrite (bind_ok _ _ _ tt (set_mem <[p2 := Header y2 n]> (set_mem <[p := Header (hd_addr F2 base_addr) (s - n)]> st))); [done|].
      rewrite (set_size_run p2 (Header y2 k)); [done|cbn; by rewrite lookup_insert_ne|lia].
    + change (base_addr :: fr.*1) with (((base_addr, 0) :: fr).*1). apply list_elem_of_fmap. by exists (prevp, sprev).
Qed.

(** The rest of [malloc] when the ring has no block that is large enough. *)
Definition miss (n : Z) (fuel : nat) : M um Z :=
  p ← morecore n;
  if p =? 0 then mret 0 else h ← hdr p; loop fuel (malloc_body n) (p, ptr h).

(** Going round the ring from behind [freep] up to it. *)
Lemma malloc_walk st fr us n (Q : Z → um → Prop) to : heap_inv st fr us → 0 < n → (∀ r st', served st us n r st' → Q r st') →
  ∀ rem fuel prevp sprev sf, lseg (um_mem st) (rem ++ [(um_freep st, sf)]) to → NoDup (rem ++ [(um_freep st, sf)]).*1 →
  (∀ b, b ∈ rem ++ [(um_freep st, sf)] → b ∈ (base_addr, 0) :: fr) →
  (prevp, sprev) ∈ (base_addr, 0) :: fr → um_mem st !! prevp = Some (Header (hd_addr (rem ++ [(um_freep st, sf)]) 0) sprev) →
  ((∃ b, b ∈ rem ++ [(um_freep st, sf)] ∧ n <= b.2) ∨ wp (miss n fuel) st Q) →
  wp (loop (S (length rem) + fuel) (malloc_body n) (prevp, hd_addr (rem ++ [(um_freep st, sf)]) 0)) st Q.
Proof.
  intros Hi Hn HQ rem. induction rem as [|[p s] rem IH]; intros fuel prevp sprev sf Hl Hnd Hin Hprev Hpm Hfit; cbn [app length] in *.
  - cbn [hd_addr lseg] in *. destruct Hl as [Hp _]. rewrite Nat.add_1_l. apply wp_loop_S. unfold malloc_body.
    unfold wp. rewrite (hdr_run _ _ _ _ Hp). cbn [size ptr]. destruct (Z.leb_spec n sf) as [Hle|Hgt].
    + pose proof (malloc_take_ok st fr us prevp sprev (um_freep st) sf n _ Hi Hprev Hpm ltac:(apply Hin; set_solver) Hp ltac:(lia)) as Ht.
      apply wp_ok in Ht as (r & st' & Hrun & Hs). rewrite (bind_ok _ _ _ _ _ Hrun). cbn. by apply HQ.
    + destruct Hfit as [(b & Hb%list_elem_of_singleton & Hnb)|Hmiss]; [subst b; cbn in Hnb; lia|].
      rewrite (bind_ok _ _ _ (um_freep st) st) by done. rewrite Z.eqb_refl. unfold wp, miss, mbind, M_bind in Hmiss |- *.
      destruct (morecore n st) as [[p st1]| | | |]; try done. destruct (p =? 0); [done|]. by destruct (hdr p st1) as [[h st2]| | | |].
  - cbn [hd_addr lseg] in *. destruct Hl as [Hp Hl]. rewrite fmap_cons in Hnd. apply list.NoDup_cons in Hnd as [Hnp Hnd].
    replace (S (S (length rem)) + fuel)%nat with (S (S (length rem) + fuel)) by lia. apply wp_loop_S. unfold malloc_body at 1.
    unfold wp at 1. rewrite (hdr_run _ _ _ _ Hp). cbn [size ptr]. destruct (Z.leb_spec n s) as [Hle|Hgt].
    + pose proof (malloc_take_ok st fr us prevp sprev p s n _ Hi Hprev Hpm ltac:(apply Hin; set_solver) Hp ltac:(lia)) as Ht.
      apply wp_ok in Ht as (r & st' & Hrun & Hs). rewrite (bind_ok _ _ _ _ _ Hrun). cbn. by apply HQ.
    + rewrite (bind_ok _ _ _ (um_freep st) st) by done. rewrite (proj2 (Z.eqb_neq _ _)).
      2: { intros ->. apply Hnp. rewrite fmap_app. set_solver. }
      assert (Hhd : hd_addr (rem ++ [(um_freep st, sf)]) to = hd_addr (rem ++ [(um_freep st, sf)]) 0) by by destruct rem.
      rewrite Hhd in *. apply (IH fuel p s sf); [done|done|set_solver|apply Hin; set_solver|done|].
      destruct Hfit as [(b & [-> | Hb]%elem_of_cons & Hnb)|Hmiss]; [cbn in Hnb; lia|left; by exists b|by right].
Qed.

Lemma ring_rem st fr us : heap_inv st fr us → ∃ rem sf to, let R := rem ++ [(um_freep st, sf)] in
  lseg (um_mem st) R to ∧ NoDup R.*1 ∧ (∀ b, b ∈ R ↔ b ∈ (base_addr, 0) :: fr) ∧
  um_mem st !! um_freep st = Some (Header (hd_addr R 0) sf) ∧ length rem = length fr.
Proof.
  intros Hi. destruct (freep_split st fr us Hi) as (A & sf & B & HN). pose proof (ring_from_freep _ _ _ _ _ _ Hi HN) as [Hfp Hl].
  assert (Hsz : ∀ b, b ∈ (base_addr, 0) :: fr → 0 <= b.2) by (intros b Hb; by apply (inv_sizes _ _ _ _ Hi)).
  pose proof (gap_NoDup _ (hi_gap _ _ _ Hi) Hsz) as Hnd. rewrite HN in Hnd.
  exists (B ++ A), sf, (hd_addr (B ++ A) (um_freep st)). split_and!.
  - apply lseg_app. split; [done|]. by split.
  - assert (Hperm : ((B ++ A) ++ [(um_freep st, sf)]).*1 ≡ₚ (A ++ (um_freep st, sf) :: B).*1).
    { apply fmap_Permutation. rewrite <- Permutation_cons_append, <- Permutation_middle. by rewrite (Permutation_app_comm B A). }
    by rewrite Hperm.
  - intros b. rewrite HN. set_solver.
  - rewrite hd_addr_app. cbn [hd_addr]. done.
  - apply (f_equal length) in HN. rewrite !length_app in *. cbn [length] in HN. lia.
Qed.

(** Going once round the ring. *)
Lemma malloc_round st fr us n Q fuel h : heap_inv st fr us → 0 < n → (∀ r st', served st us n r st' → Q r st') →
  um_mem st !! um_freep st = Some h → ((∃ b, b ∈ fr ∧ n <= b.2) ∨ wp (miss n fuel) st Q) →
  wp (loop (S (length fr) + fuel) (malloc_body n) (um_freep st, ptr h)) st Q.
Proof.
  intros Hi Hn HQ Hh Hfit. destruct (ring_rem st fr us Hi) as (rem & sf & to & Hl & Hnd & Hin & Hfp & Hlen).
  rewrite Hh in Hfp. injection Hfp as ->. cbn [ptr]. rewrite <- Hlen. eapply malloc_walk; [done|done|done|done|done|by intros b Hb%Hin| |done|].
  - apply Hin. set_solver.
  - destruct Hfit as [(b & Hb & Hnb)|?]; [left; exists b; split; [apply Hin; set_solver|done]|by right].
Qed.

Lemma freep_header st fr us : heap_inv st fr us → ∃ h, um_mem st !! um_freep st = Some h.
Proof. intros Hi. destruct (ring_rem st fr us Hi) as (rem & sf & to & _ & _ & _ & Hfp & _). by eexists. Qed.

Lemma fr_length st fr us : heap_inv st fr us → (S (length fr) <= base.size (um_mem st))%nat.
Proof.
  intros Hi. assert (Hsz : ∀ b, b ∈ (base_addr, 0) :: fr → 0 <= b.2) by (intros b Hb; by apply (inv_sizes _ _ _ _ Hi)).
  apply (ring_length _ _ _ (gap_NoDup _ (hi_gap _ _ _ Hi) Hsz) (hi_ring _ _ _ Hi)).
Qed.

Lemma miss_ok st fr us n fuel (Q : Z → um → Prop) : heap_inv st fr us → small n → (S (S (length fr)) <= fuel)%nat → Q 0 st →
  (∀ r st', served st us n r st' → Q r st') → wp (miss n fuel) st Q.
Proof.
  intros Hi Hn Hfuel HQ0 HQ. unfold miss. apply wp_bind. eapply wp_mono; [by apply (morecore_ok st fr us)|].
  intros r st' [[-> ->]|(-> & Hr & Hunt & fr' & Hi' & Hlen & b & Hb & Hnb)]; [by apply wp_ret|].
  rewrite (proj2 (Z.eqb_neq _ _)) by lia. destruct (freep_header _ _ _ Hi') as [h Hh]. unfold wp. rewrite (hdr_run _ _ _ _ Hh).
  change (wp (loop fuel (malloc_body n) (um_freep st', ptr h)) st' Q).
  replace fuel with (S (length fr') + (fuel - S (length fr')))%nat by lia. destruct Hn as [Hn _].
  apply (malloc_round st' fr' us n Q); [done|done| |done|left; by exists b].
  intros r st2 (a & fr2 & -> & Ha & Hi2 & Hunt2). apply HQ. exists a, fr2. split_and!; [done|done|done|].
  intros c k x Hc Hx. by rewrite (Hunt2 _ _ _ Hc Hx), (Hunt _ _ _ Hc Hx).
Qed.

(** [malloc] once the ring is there: a block, or null when there is no more memory. *)
Definition units (nbytes : Z) : Z := (nbytes + HS - 1) `div` HS + 1.

Lemma malloc_ready st fr us nbytes (Q : Z → um → Prop) : heap_inv st fr us → small (units nbytes) →
  ((∃ b, b ∈ fr ∧ units nbytes <= b.2) ∨ Q 0 st) → (∀ r st', served st us (units nbytes) r st' → Q r st') →
  wp (malloc base_addr nbytes) st Q.
Proof.
  intros Hi Hn HQ0 HQ. pose proof (hi_base _ _ _ Hi) as Hbase. destruct (freep_header _ _ _ Hi) as [h Hh]. unfold malloc. fold (units nbytes).
  assert (Hfp : um_freep st ≠ 0).
  { destruct (freep_split _ _ _ Hi) as (A & sf & B & HN). destruct (inv_sizes _ _ _ (um_freep st, sf) Hi) as (_ & Hpos & _); [rewrite HN; set_solver|cbn in Hpos; lia]. }
  unfold wp. rewrite (bind_ok _ _ _ (um_freep st) st).
  2: { unfold malloc_init, mbind, M_bind, gets. by rewrite (proj2 (Z.eqb_neq _ _)). }
  rewrite (hdr_run _ _ _ _ Hh). rewrite (bind_ok _ _ _ (S (base.size (um_mem st))) st) by done.
  pose proof (fr_length _ _ _ Hi) as Hlen. set (fuel := (2 * S (base.size (um_mem st)) + 2)%nat).
  change (wp (loop fuel (malloc_body (units nbytes)) (um_freep st, ptr h)) st Q).
  replace fuel with (S (length fr) + (fuel - S (length fr)))%nat by (unfold fuel; lia).
  apply (malloc_round st fr us); [done|apply Hn|done|done|]. destruct HQ0 as [?|HQ0]; [by left|right].
  apply (miss_ok st fr us); [done|done|unfold fuel; lia|done|done].
Qed.
End Heap.
