(* ===== verification/UmallocSys.v ===== *)
(** Programs that use the allocator of user/umalloc.c: they allocate, give back
    blocks they have, and write inside their blocks. *)

From stdpp Require Import sorting.
From S2P Require Import Prelude Umalloc UmallocSpec.
#[local] Open Scope Z_scope.

Section Sys.
Context (base_addr lo : Z).

(** Before the first [malloc]: no heap yet, [freep] is null. *)
Record fresh (st : um) : Prop := {
  fs_freep : um_freep st = 0;
  fs_base : is_Some (um_mem st !! base_addr);
  fs_addr : 0 < base_addr < lo;
  fs_brk : um_brk st = lo ∧ lo <= um_limit st < 2 ^ 31 }.

(** A run of a program: the allocator's state and the blocks the program has. *)
Inductive heap_run : um → gmap Z Z → Prop :=
| hr_start st : fresh st → heap_run st ∅
| hr_malloc st us nbytes r st' : heap_run st us → small (units nbytes) → malloc base_addr nbytes st = Ok (r, st') →
    heap_run st' (if r =? 0 then us else <[r - HS := units nbytes]> us)
| hr_free st us bp n st' : heap_run st us → us !! bp = Some n → free (bp + HS) st = Ok (tt, st') → heap_run st' (delete bp us)
| hr_write st us a n x h : heap_run st us → us !! a = Some n → covers (a, n) x → x ≠ a → heap_run (set_mem <[x := h]> st) us.

Definition started (st : um) : um := set_freep base_addr (set_mem <[base_addr := Header base_addr 0]> st).

Lemma started_inv st : fresh st → heap_inv base_addr lo (started st) [] ∅.
Proof.
  intros [Hf [h Hb] Ha [Hbrk Hlim]]. split; cbn [started set_freep set_mem um_mem um_freep um_brk um_limit lseg hd_addr].
  - by rewrite lookup_insert_eq.
  - set_solver.
  - repeat constructor.
  - split.
    + by intros b ?%not_elem_of_nil.
    + by intros a n.
    + by intros a n b.
    + by intros a n b k.
    + intros x Hx. lia.
  - by intros a n.
  - intros x Hx. lia.
  - done.
  - rewrite Hbrk, Z.sub_diag. split_and!; [lia|lia|done|lia].
Qed.

Lemma malloc_started st nbytes : fresh st → malloc base_addr nbytes st = malloc base_addr nbytes (started st).
Proof.
  intros [Hf [h Hb] Ha _]. unfold malloc.
  assert (Hr : malloc_init base_addr st = Ok (base_addr, started st)).
  { unfold malloc_init. rewrite (bind_ok _ _ _ (um_freep st) st) by done. rewrite Hf. cbn [Z.eqb].
    rewrite (bind_ok _ _ _ _ _ (set_ptr_run base_addr h base_addr st Hb)). rewrite (bind_ok _ _ _ tt (set_freep base_addr (set_mem <[base_addr := Header base_addr (size h)]> st))) by done.
    rewrite (bind_ok _ _ _ tt (started st)); [done|].
    rewrite (set_size_run base_addr (Header base_addr (size h))); [|by cbn; rewrite lookup_insert_eq|lia].
    unfold started, set_freep, set_mem. cbn. by rewrite insert_insert_eq. }
  rewrite (bind_ok _ _ _ _ _ Hr). rewrite (bind_ok (malloc_init base_addr) _ (started st) base_addr (started st)); [done|].
  unfold malloc_init, mbind, M_bind, gets. cbn [started set_freep um_freep]. by rewrite (proj2 (Z.eqb_neq _ _)) by lia.
Qed.

(** Writing inside a block in use. *)
Lemma write_inv st fr us a n x h : heap_inv base_addr lo st fr us → us !! a = Some n → covers (a, n) x → x ≠ a →
  heap_inv base_addr lo (set_mem <[x := h]> st) fr us.
Proof.
  intros Hi Ha Hx Hne. split; cbn [set_mem um_mem um_freep um_brk um_limit]; try apply Hi.
  - apply lseg_insert; [|apply (hi_ring _ _ _ _ _ Hi)]. intros ([b s] & -> & Hb)%list_elem_of_fmap.
    by apply (node_not_used _ _ _ _ _ _ _ _ _ _ Hi Hb Ha Hx).
  - intros b k Hb. destruct (hi_hdr _ _ _ _ _ Hi _ _ Hb) as [y Hy]. exists y. rewrite lookup_insert_ne; [done|]. intros ->.
    destruct (decide (a = b)) as [->|Hab]; [done|].
    pose proof (pt_apart_used _ _ _ _ (hi_part _ _ _ _ _ Hi) _ _ _ _ Ha Hb Hab) as Hap.
    pose proof (pt_used _ _ _ _ (hi_part _ _ _ _ _ Hi) _ _ Hb) as (Hk & _). unfold apart, covers in *. cbn [fst snd] in *. unfold sizeof_Header in *. lia.
  - intros z Hz Hm. rewrite lookup_insert_is_Some'. right. by apply (hi_dom _ _ _ _ _ Hi).
Qed.

(** The state before any step, ready for [malloc]. *)
Definition sound (st : um) (us : gmap Z Z) : Prop := (fresh st ∧ us = ∅) ∨ ∃ fr, heap_inv base_addr lo st fr us.

Lemma sound_malloc st us nbytes (Q : Z → um → Prop) : sound st us → small (units nbytes) →
  (∀ fr st', heap_inv base_addr lo st' fr us → untouched st st' us → Q 0 st') →
  (∀ a fr st', us !! a = None → heap_inv base_addr lo st' fr (<[a := units nbytes]> us) → untouched st st' us → Q (a + HS) st') →
  wp (malloc base_addr nbytes) st Q.
Proof.
  intros Hs Hn HQ0 HQ. destruct Hs as [[Hf ->]|[fr Hi]].
  - unfold wp. rewrite malloc_started by done. pose proof (started_inv st Hf) as Hi.
    apply (malloc_ready _ _ _ _ _ _ _ Hi Hn); [right; by eapply HQ0|]. intros r st' (a & fr' & -> & Ha & Hi' & _). by eapply HQ.
  - apply (malloc_ready _ _ _ _ _ _ _ Hi Hn); [right; by eapply HQ0; [done|]|]. intros r st' (a & fr' & -> & Ha & Hi' & Hu). by eapply HQ.
Qed.

Lemma block_pos st fr us a n : heap_inv base_addr lo st fr us → us !! a = Some n → 0 < a.
Proof. intros Hi Ha. pose proof (hi_base _ _ _ _ _ Hi). destruct (pt_used _ _ _ _ (hi_part _ _ _ _ _ Hi) _ _ Ha) as (_ & Hlo & _). cbn in Hlo. lia. Qed.

Lemma run_sound st us : heap_run st us → sound st us.
Proof.
  intros H. induction H as [st Hf|st us nbytes r st' _ IH Hn Hr|st us bp n st' _ IH Hbp Hr|st us a n x h _ IH Ha Hx Hne].
  - by left.
  - pose proof (sound_malloc st us nbytes (λ r st', sound st' (if r =? 0 then us else <[r - HS := units nbytes]> us)) IH Hn) as Hw.
    unfold wp in Hw. rewrite Hr in Hw. apply Hw.
    + intros fr st2 Hi _. right. by exists fr.
    + intros a fr st2 _ Hi _. right. exists fr. pose proof (block_pos _ _ _ a (units nbytes) Hi ltac:(apply lookup_insert_eq)).
      rewrite (proj2 (Z.eqb_neq _ _)) by (unfold sizeof_Header; lia). by replace (a + HS - HS) with a by lia.
  - destruct IH as [[_ ->]|[fr Hi]]; [done|]. pose proof (free_ok _ _ _ _ _ _ _ Hi Hbp) as Hw. unfold wp in Hw. rewrite Hr in Hw.
    destruct Hw as (_ & _ & _ & fr' & Hi' & _). right. by exists fr'.
  - destruct IH as [[_ ->]|[fr Hi]]; [done|]. right. exists fr. by eapply write_inv.
Qed.

Lemma units_room nbytes : 0 <= nbytes → nbytes <= HS * (units nbytes - 1).
Proof. intros H. unfold units, sizeof_Header. Z.to_euclidean_division_equations; lia. Qed.


(** C36. Memory that was given back can be had again: after [free] of a block,
    [malloc] of no more than the block held does not return null, even if the process
    can get no more memory. *)
Theorem free_then_malloc st us bp n nbytes : heap_run st us → us !! bp = Some n → small (units nbytes) → units nbytes <= n →
  wp (free (bp + HS);; malloc base_addr nbytes) st (λ r _, r ≠ 0).
Proof.
  intros Hs%run_sound Hbp Hn Hle. destruct Hs as [[_ ->]|[fr Hi]]; [done|]. apply wp_bind.
  eapply wp_mono; [by eapply (free_ok _ _ _ _ _ _ _ Hi)|]. intros u st' (_ & _ & _ & fr' & Hi' & _ & b & Hb & Hnb).
  apply (malloc_ready _ _ _ _ _ _ _ Hi' Hn); [left; exists b; split; [done|lia]|]. intros r st2 (a & fr2 & -> & _ & Hi2 & _).
  pose proof (block_pos _ _ _ a (units nbytes) Hi2 ltac:(apply lookup_insert_eq)). unfold sizeof_Header. lia.
Qed.
End Sys.

(** ** An instance: a program with a block *)

Definition um0 : um := Um {[ 0x1000 := Header 0 0 ]} 0 0x4000 0x20000.
Definition um1 : um := match malloc 0x1000 40 um0 with Ok (_, st) => st | _ => um0 end.

Lemma um0_fresh : fresh 0x1000 0x4000 um0.
Proof. split; [done|by eexists|done|done]. Qed.

Lemma um1_Ok r : (match malloc 0x1000 40 um0 with Ok (r, _) => Some r | _ => None end) = Some r → malloc 0x1000 40 um0 = Ok (r, um1).
Proof. unfold um1. destruct (malloc 0x1000 40 um0) as [[b st']| | | |]; try done. by intros [= ->]. Qed.

Lemma um1_run : heap_run 0x1000 0x4000 um1 (<[0x13fc0 := 4]> ∅).
Proof.
  exact (hr_malloc 0x1000 0x4000 um0 ∅ 40 0x13fd0 um1 (hr_start _ _ _ um0_fresh) ltac:(done)
    ltac:(apply um1_Ok; vm_compute; reflexivity)).
Qed.


Lemma free_then_malloc_witness : wp (free (0x13fc0 + HS);; malloc 0x1000 48) um1 (λ r _, r ≠ 0).
Proof. exact (free_then_malloc 0x1000 0x4000 um1 _ 0x13fc0 4 48 um1_run eq_refl ltac:(done) ltac:(done)). Defined.
