(* ===== verification/Queue.v ===== *)
(** Ring buffers: an array used cyclically, with counters that run on past its
    length and wrap around at the width of their type.

    The cyclic queue of page indices (kernel/queue.c, kernel/queue.h) refines a list. *)

From S2P Require Import Prelude.

(** From counter [r] on, the array holds [l]. *)
Definition ring (K : Z) (buf : list Z) (r : Z) (l : list Z) : Prop :=
  Z.of_nat (length buf) = K ∧ Z.of_nat (length l) <= K ∧
  ∀ i c, l !! i = Some c → buf !! Z.to_nat ((r + Z.of_nat i) mod K) = Some c.

Lemma ring_nil K buf r : Z.of_nat (length buf) = K → ring K buf r [].
Proof. intros H. split_and!; [done|simpl; lia|done]. Qed.

(** Only the counter modulo the length matters. *)
Lemma ring_cong K buf r r' l : r mod K = r' mod K → ring K buf r l → ring K buf r' l.
Proof. intros Hr (H1 & H2 & H3). split_and!; [done|done|]. intros i c Hi. rewrite Zplus_mod, <- Hr, <- Zplus_mod. auto. Qed.

Lemma ring_snoc K buf r l c : ring K buf r l → Z.of_nat (length l) < K →
  ring K (<[Z.to_nat ((r + Z.of_nat (length l)) mod K) := c]> buf) r (l ++ [c]).
Proof.
  intros (H1 & H2 & H3) Hl. split_and!; [by rewrite length_insert|rewrite length_app; simpl; lia|]. intros i x Hi.
  assert (HK : 0 < K) by lia. pose proof (Z.mod_pos_bound (r + Z.of_nat (length l)) K HK) as Hb.
  destruct (decide (i = length l)) as [->|Hne].
  - rewrite list_lookup_middle in Hi by done. injection Hi as ->. rewrite list_lookup_insert_eq; [done|lia].
  - pose proof (lookup_lt_Some _ _ _ Hi) as Hlt. rewrite length_app in Hlt. simpl in Hlt. rewrite lookup_app_l in Hi by lia.
    rewrite list_lookup_insert_ne; [by apply H3|]. pose proof (Z.mod_pos_bound (r + Z.of_nat i) K HK) as Hbi.
    intros E. assert (E' : (r + Z.of_nat (length l)) mod K = (r + Z.of_nat i) mod K) by lia. clear E.
    assert ((Z.of_nat (length l) - Z.of_nat i) mod K = 0) as Hm.
    { replace (Z.of_nat (length l) - Z.of_nat i) with (r + Z.of_nat (length l) - (r + Z.of_nat i)) by lia.
      rewrite Zminus_mod, E', Z.sub_diag. done. }
    rewrite Z.mod_small in Hm by lia. lia.
Qed.

Lemma ring_head K buf r c l : ring K buf r (c :: l) → buf !! Z.to_nat (r mod K) = Some c.
Proof. intros (_ & _ & H). specialize (H 0%nat c eq_refl). by rewrite Z.add_0_r in H. Qed.

Lemma ring_tail K buf r c l : ring K buf r (c :: l) → ring K buf (r + 1) l.
Proof.
  intros (H1 & H2 & H3). split_and!; [done|simpl in H2; lia|]. intros i x Hi. specialize (H3 (S i) x Hi).
  by replace (r + 1 + Z.of_nat i) with (r + Z.of_nat (S i)) by lia.
Qed.

Lemma ring_last K buf r l c : ring K buf r (l ++ [c]) → buf !! Z.to_nat ((r + Z.of_nat (length l)) mod K) = Some c.
Proof. intros (_ & _ & H). apply H. by rewrite list_lookup_middle. Qed.

Lemma ring_prefix K buf r l l' : ring K buf r (l ++ l') → ring K buf r l.
Proof.
  intros (H1 & H2 & H3). rewrite length_app in H2. split_and!; [done|lia|]. intros i c Hi. apply H3. by apply lookup_app_l_Some.
Qed.

(** Counters of 32 and 64 bits, for lengths that divide their range. *)
Lemma mod_mod_mul x K m : 0 < K → 0 < m → (x mod (K * m)) mod K = x mod K.
Proof. intros HK Hm. rewrite Z.rem_mul_r by lia. rewrite Z.mul_comm, Z_mod_plus_full, Z.mod_mod; lia. Qed.

Lemma ring_w32 K m buf r l : K * m = 2 ^ 32 → 0 < K → 0 < m → ring K buf r l ↔ ring K buf (w32 r) l.
Proof.
  intros HK H1 H2. unfold w32. rewrite <- HK. split; apply ring_cong; by rewrite mod_mod_mul.
Qed.

Lemma ring_w64 K m buf r l : K * m = 2 ^ 64 → 0 < K → 0 < m → ring K buf r l ↔ ring K buf (w64 r) l.
Proof.
  intros HK H1 H2. unfold w64. rewrite <- HK. split; apply ring_cong; by rewrite mod_mod_mul.
Qed.

Lemma ring_w16 K m buf r l : K * m = 2 ^ 16 → 0 < K → 0 < m → ring K buf r l ↔ ring K buf (w16 r) l.
Proof.
  intros HK H1 H2. unfold w16. rewrite <- HK. split; apply ring_cong; by rewrite mod_mod_mul.
Qed.

Record queue := Queue { q_front : Z; q_rear : Z; q_size : Z; q_items : list Z }.

Definition dequeue : M queue Z :=
  st ← gets id;
  if q_size st =? 0 then mret (-1) else
  match q_items st !! Z.to_nat (q_front st) with
  | None => wild (q_front st)
  | Some item =>
    modify (λ st, Queue (Z.rem (q_front st + 1) 32) (q_rear st) (q_size st - 1) (q_items st));;
    mret item
  end.

Definition enqueue (item : Z) : M queue unit :=
  st ← gets id;
  if q_size st =? 32 then mret tt else
  let rear := Z.rem (q_rear st + 1) 32 in
  if (rear <? 0) || (32 <=? rear) then wild rear else
  modify (λ st, Queue (q_front st) rear (q_size st + 1) (<[Z.to_nat rear := item]> (q_items st))).

Definition remove_item (item : Z) : M queue unit :=
  initial_size ← gets q_size;
  for_each (seqZ 0 initial_size) (λ _,
    tmp ← dequeue;
    if negb (tmp =? item) then enqueue tmp else mret tt).

Definition front_to_rear : M queue unit := item ← dequeue; enqueue item.

(** ** The queue as a list *)

Record holds (st : queue) (l : list Z) : Prop := {
  ho_ring : ring 32 (q_items st) (q_front st) l;
  ho_size : q_size st = Z.of_nat (length l);
  ho_front : 0 <= q_front st < 32;
  ho_rear : -1 <= q_rear st < 32;
  ho_next : (q_rear st + 1) mod 32 = (q_front st + Z.of_nat (length l)) mod 32 }.

Lemma dequeue_run st x l : holds st (x :: l) → ∃ st', dequeue st = Ok (x, st') ∧ holds st' l.
Proof.
  intros [H1 H2 H3 H4 H5]. cbn [length] in *. unfold dequeue. rewrite (bind_ok _ _ _ st st) by done. rewrite (proj2 (Z.eqb_neq _ _)) by lia.
  pose proof (ring_head _ _ _ _ _ H1) as Hx. rewrite Z.mod_small in Hx by done. rewrite Hx. eexists. split; [reflexivity|].
  rewrite Z.rem_mod_nonneg by lia. pose proof (Z.mod_pos_bound (q_front st + 1) 32 ltac:(lia)). split; cbn; [|lia|lia|lia|].
  - eapply ring_cong; [|by eapply ring_tail]. by rewrite Z.mod_mod.
  - rewrite Zplus_mod_idemp_l, H5. f_equal. lia.
Qed.

Lemma dequeue_empty st : holds st [] → dequeue st = Ok (-1, st).
Proof. intros [_ H2 _ _ _]. cbn in H2. unfold dequeue. rewrite (bind_ok _ _ _ st st) by done. by rewrite H2. Qed.

Lemma enqueue_run st x l : holds st l → (length l < 32)%nat → ∃ st', enqueue x st = Ok (tt, st') ∧ holds st' (l ++ [x]).
Proof.
  intros [H1 H2 H3 H4 H5] Hl. unfold enqueue. rewrite (bind_ok _ _ _ st st) by done. rewrite (proj2 (Z.eqb_neq _ _)) by lia. cbv zeta.
  rewrite Z.rem_mod_nonneg by lia. pose proof (Z.mod_pos_bound (q_rear st + 1) 32 ltac:(lia)) as Hb.
  rewrite (proj2 (Z.ltb_ge _ _)), (proj2 (Z.leb_gt _ _)) by lia. eexists. split; [reflexivity|]. split; cbn; rewrite ?length_app; cbn; try lia.
  - rewrite H5. apply ring_snoc; [done|lia].
  - rewrite Zplus_mod_idemp_l, Zplus_mod, H5, <- Zplus_mod. f_equal. lia.
Qed.

Lemma enqueue_full st x l : holds st l → length l = 32%nat → enqueue x st = Ok (tt, st).
Proof. intros [_ H2 _ _ _] Hl. unfold enqueue. rewrite (bind_ok _ _ _ st st) by done. by rewrite H2, Hl. Qed.

Lemma few_items st l : holds st l → (length l <= 32)%nat.
Proof. intros [(_ & H & _) _ _ _ _]. lia. Qed.

Lemma remove_rounds item rest : ∀ (gs : list Z) st kept, length gs = length rest → holds st (rest ++ kept) →
  ∃ st', for_each gs (λ _, tmp ← dequeue; if negb (tmp =? item) then enqueue tmp else mret tt) st = Ok (tt, st') ∧
    holds st' (kept ++ filter (λ x, x ≠ item) rest).
Proof.
  induction rest as [|x rest IH]; intros gs st kept Hlen H; (destruct gs as [|i gs]; [|try done]); try done.
  - exists st. by rewrite app_nil_r.
  - cbn [for_each]. destruct (dequeue_run st x (rest ++ kept) H) as (st1 & Hr1 & H1). pose proof (few_items _ _ H) as Hfew. cbn in Hfew.
    destruct (Z.eqb_spec x item) as [-> |Hne].
    + destruct (IH gs st1 kept ltac:(by injection Hlen) H1) as (st2 & Hr2 & H2). exists st2. rewrite list.filter_cons_False by tauto. split; [|done].
      rewrite (bind_ok _ _ _ tt st1); [done|]. rewrite (bind_ok _ _ _ _ _ Hr1). by rewrite Z.eqb_refl.
    + destruct (enqueue_run st1 x _ H1 ltac:(lia)) as (st2 & Hr2 & H2). rewrite <- app_assoc in H2.
      destruct (IH gs st2 (kept ++ [x]) ltac:(by injection Hlen) H2) as (st3 & Hr3 & H3). exists st3. rewrite list.filter_cons_True by done.
      rewrite <- app_assoc in H3. split; [|done]. rewrite (bind_ok _ _ _ tt st2); [done|]. rewrite (bind_ok _ _ _ _ _ Hr1).
      by rewrite (proj2 (Z.eqb_neq _ _)).
Qed.

(** C38. The cyclic queue is a list of at most 32 items: [dequeue] takes the first or
    returns -1 when there is none, [enqueue] appends unless it is full, [remove_item]
    removes every occurrence and keeps the others in order, and [front_to_rear] moves
    the first item to the end.  On an empty queue, however, [front_to_rear] puts a -1
    into it. *)
Theorem queue_refines st l : holds st l →
  (∀ x l', l = x :: l' → wp dequeue st (λ r st', r = x ∧ holds st' l') ∧ wp front_to_rear st (λ _ st', holds st' (l' ++ [x]))) ∧
  (l = [] → wp dequeue st (λ r st', r = -1 ∧ st' = st) ∧ wp front_to_rear st (λ _ st', holds st' [-1])) ∧
  (∀ x, wp (enqueue x) st (λ _ st', if (length l <? 32)%nat then holds st' (l ++ [x]) else st' = st)) ∧
  (∀ x, wp (remove_item x) st (λ _ st', holds st' (filter (λ y, y ≠ x) l))).
Proof.
  intros H. pose proof (few_items _ _ H) as Hfew. split_and!.
  - intros x l' ->. destruct (dequeue_run st x l' H) as (st1 & Hr1 & H1). cbn in Hfew. destruct (enqueue_run st1 x l' H1 ltac:(lia)) as (st2 & Hr2 & H2).
    rewrite !wp_ok. split; [by exists x, st1|]. exists tt, st2. split; [|done]. unfold front_to_rear. by rewrite (bind_ok _ _ _ _ _ Hr1).
  - intros ->. rewrite !wp_ok. split; [exists (-1), st; split; [by apply dequeue_empty|done]|].
    destruct (enqueue_run st (-1) [] H ltac:(cbn; lia)) as (st2 & Hr2 & H2). exists tt, st2. split; [|done].
    unfold front_to_rear. by rewrite (bind_ok _ _ _ _ _ (dequeue_empty st H)).
  - intros x. rewrite wp_ok. destruct (Nat.ltb_spec (length l) 32).
    + destruct (enqueue_run st x l H) as (st2 & Hr2 & H2); [done|]. by exists tt, st2.
    + exists tt, st. split; [|done]. apply (enqueue_full st x l); [done|lia].
  - intros x. rewrite wp_ok. unfold remove_item. rewrite (bind_ok _ _ _ (q_size st) st) by done. rewrite (ho_size _ _ H).
    destruct (remove_rounds x l (seqZ 0 (Z.of_nat (length l))) st []) as (st' & Hr & H'); [rewrite length_seqZ; lia|by rewrite app_nil_r|]. by exists tt, st'.
Qed.

(** [3; 5; 3] across the end of the array *)
Definition wrapped : queue := Queue 30 0 3 ([3] ++ replicate 29 0 ++ [3; 5]).

Lemma queue_refines_witness : wp (remove_item 3) wrapped (λ _ st', holds st' [5]).
Proof.
  refine (proj2 (proj2 (proj2 (queue_refines wrapped [3; 5; 3] _))) 3). split; cbn; [|done|lia|lia|done].
  split_and!; [done|done|]. intros [|[|[|i]]] c; cbn; intros [= <-]; done.
Defined.
