(* ===== verification/Console.v ===== *)
(** The console (kernel/console.c) and the driver of the UART under it
    (kernel/uart.c).

    What the driver reads from the line status register is up to the device:
    [d_idle] is the list of answers to "can you take another character", [d_rx] the
    characters that have arrived.  [d_thr] records what is written to the transmit
    register.  The two wake-ups count how often they happen. *)

From S2P Require Import Prelude.

Definition BACKSPACE : Z := 0x100.
Definition INPUT_BUF : Z := 128.
Definition UART_TX_BUF_SIZE : Z := 32.

(** C(x) *)
Definition ctrl_D : Z := 4.
Definition ctrl_H : Z := 8.
Definition ctrl_P : Z := 16.
Definition ctrl_U : Z := 21.
Definition c_del : Z := 0x7f.
Definition c_cr : Z := 13.
Definition c_newline : Z := 10.

Record con := Con {
  c_buf : list Z; c_r : Z; c_w : Z; c_e : Z;
  tx_buf : list Z; tx_w : Z; tx_r : Z;
  d_idle : list bool; d_rx : list Z; d_thr : list Z;
  woke_cons : nat; woke_tx : nat }.

Definition set_cons (b : list Z) (r w e : Z) (st : con) : con :=
  Con b r w e (tx_buf st) (tx_w st) (tx_r st) (d_idle st) (d_rx st) (d_thr st) (woke_cons st) (woke_tx st).
Definition set_tx (b : list Z) (w r : Z) (st : con) : con :=
  Con (c_buf st) (c_r st) (c_w st) (c_e st) b w r (d_idle st) (d_rx st) (d_thr st) (woke_cons st) (woke_tx st).
Definition set_dev (idle : list bool) (rx thr : list Z) (st : con) : con :=
  Con (c_buf st) (c_r st) (c_w st) (c_e st) (tx_buf st) (tx_w st) (tx_r st) idle rx thr (woke_cons st) (woke_tx st).
Definition set_woke (wc wt : nat) (st : con) : con :=
  Con (c_buf st) (c_r st) (c_w st) (c_e st) (tx_buf st) (tx_w st) (tx_r st) (d_idle st) (d_rx st) (d_thr st) wc wt.

(** ** kernel/uart.c *)

(** [WriteReg(THR, c)] *)
Definition write_thr (c : Z) : M con unit := modify (λ st, set_dev (d_idle st) (d_rx st) (d_thr st ++ [c]) st).

(** [uartputc_sync] once the transmit register is empty; nobody has panicked. *)
Definition uartputc_sync (c : Z) : M con unit := write_thr (w8 c).

(** [ReadReg(LSR) & LSR_TX_IDLE] *)
Definition lsr_tx_idle : M con bool := λ st,
  match d_idle st with
  | [] => Ok (false, st)
  | b :: rest => Ok (b, set_dev rest (d_rx st) (d_thr st) st)
  end.

Definition wakeup_tx : M con unit := modify (λ st, set_woke (woke_cons st) (S (woke_tx st)) st).

Definition uartstart_body (_ : unit) : M con (unit + unit) :=
  st ← gets id;
  if tx_w st =? tx_r st then mret (inr tt) else
  idle ← lsr_tx_idle;
  if negb idle then mret (inr tt) else
  st ← gets id;
  match tx_buf st !! Z.to_nat (tx_r st mod UART_TX_BUF_SIZE) with
  | None => wild (tx_r st)
  | Some c =>
    modify (set_tx (tx_buf st) (tx_w st) (w64 (tx_r st + 1)));;
    wakeup_tx;;
    write_thr c;;
    mret (inl tt)
  end.

Definition uartstart : M con unit := loop (S (S (Z.to_nat UART_TX_BUF_SIZE))) uartstart_body tt.

(** One round of the loop of [uartputc]: false if the caller has to sleep for room. *)
Definition uartputc (c : Z) : M con bool :=
  st ← gets id;
  if tx_w st =? w64 (tx_r st + UART_TX_BUF_SIZE) then mret false else
  modify (set_tx (<[Z.to_nat (tx_w st mod UART_TX_BUF_SIZE) := w8 c]> (tx_buf st)) (w64 (tx_w st + 1)) (tx_r st));;
  uartstart;;
  mret true.

Definition uartgetc : M con Z := λ st,
  match d_rx st with
  | [] => Ok (-1, st)
  | c :: rest => Ok (c, set_dev (d_idle st) rest (d_thr st) st)
  end.

(** ** kernel/console.c *)

Definition consputc (c : Z) : M con unit :=
  if c =? BACKSPACE then uartputc_sync 8;; uartputc_sync 32;; uartputc_sync 8 else uartputc_sync c.

Definition wakeup_cons : M con unit := modify (λ st, set_woke (S (woke_cons st)) (woke_tx st) st).

Definition erase_one : M con unit :=
  modify (λ st, set_cons (c_buf st) (c_r st) (c_w st) (w32 (c_e st - 1)) st);; consputc BACKSPACE.

Definition kill_body (_ : unit) : M con (unit + unit) :=
  st ← gets id;
  if c_e st =? c_w st then mret (inr tt) else
  match c_buf st !! Z.to_nat (w32 (c_e st - 1) mod INPUT_BUF) with
  | None => wild (c_e st)
  | Some c => if c =? c_newline then mret (inr tt) else erase_one;; mret (inl tt)
  end.

Definition consoleintr (c : Z) : M con unit :=
  if c =? ctrl_P then mret tt
  else if c =? ctrl_U then loop (S (Z.to_nat INPUT_BUF)) kill_body tt
  else if (c =? ctrl_H) || (c =? c_del) then
    st ← gets id;
    if negb (c_e st =? c_w st) then erase_one else mret tt
  else
    st ← gets id;
    if negb (c =? 0) && (w32 (c_e st - c_r st) <? INPUT_BUF) then
      let c := if c =? c_cr then c_newline else c in
      consputc c;;
      let e := w32 (c_e st + 1) in
      modify (λ st, set_cons (<[Z.to_nat (c_e st mod INPUT_BUF) := w8 c]> (c_buf st)) (c_r st) (c_w st) e st);;
      if (c =? c_newline) || (c =? ctrl_D) || (e =? w32 (c_r st + INPUT_BUF)) then
        modify (λ st, set_cons (c_buf st) (c_r st) e e st);;
        wakeup_cons
      else mret tt
    else mret tt.

Definition uartintr_body (_ : unit) : M con (unit + unit) :=
  c ← uartgetc;
  if c =? -1 then mret (inr tt) else consoleintr c;; mret (inl tt).

Definition uartintr : M con unit :=
  st ← gets id;
  loop (S (length (d_rx st))) uartintr_body tt;;
  uartstart.

(** What [consoleread] comes to: a return value, or that it sleeps until woken, with
    [n] bytes still wanted at [dst]. *)
Inductive rd := RdDone (ret : Z) | RdSleep (dst n : Z).

Section Read.
(** [copyout dst c]: whether [either_copyout] of the byte to [dst] succeeds;
    [killed]: the flag of the process when it looks. *)
Context (copyout : Z → Z → bool) (killed : bool).

Definition consoleread_body (target : Z) '((dst, n, got) : Z * Z * list Z) : M con (Z * Z * list Z + rd * list Z) :=
  if n <=? 0 then mret (inr (RdDone (target - n), got)) else
  st ← gets id;
  if c_r st =? c_w st then mret (inr (if killed then RdDone (-1) else RdSleep dst n, got)) else
  match c_buf st !! Z.to_nat (c_r st mod INPUT_BUF) with
  | None => wild (c_r st)
  | Some c =>
    modify (λ st, set_cons (c_buf st) (w32 (c_r st + 1)) (c_w st) (c_e st) st);;
    if c =? ctrl_D then
      (if n <? target then modify (λ st, set_cons (c_buf st) (w32 (c_r st - 1)) (c_w st) (c_e st) st) else mret tt);;
      mret (inr (RdDone (target - n), got))
    else if negb (copyout dst c) then mret (inr (RdDone (target - n), got))
    else
      let got := got ++ [c] in
      let dst := dst + 1 in
      let n := n - 1 in
      if c =? c_newline then mret (inr (RdDone (target - n), got)) else mret (inl (dst, n, got))
  end.

(** [consoleread] from its start, or from where it woke up, with the bytes copied out
    in this stretch. *)
Definition consoleread (target dst n : Z) : M con (rd * list Z) :=
  loop (S (S (Z.to_nat INPUT_BUF))) (consoleread_body target) (dst, n, []).
End Read.

(** What [consolewrite] comes to: a return value, or that it sleeps in [uartputc] with
    character [c], the [i]th, in hand. *)
Inductive wr := WrDone (ret : Z) | WrSleep (i c : Z).

Section Write.
(** [copyin a]: the byte [either_copyin] fetches from [a], if it succeeds. *)
Context (copyin : Z → option Z).

Definition consolewrite_body (src n : Z) '((i, hand) : Z * option Z) : M con (Z * option Z + wr) :=
  if negb (i <? n) then mret (inr (WrDone i)) else
  match (match hand with Some c => Some c | None => copyin (src + i) end) with
  | None => mret (inr (WrDone i))
  | Some c =>
    ok ← uartputc c;
    if ok : bool then mret (inl (i + 1, None)) else mret (inr (WrSleep i c))
  end.

(** [consolewrite] from its start ([i] is 0 and [hand] empty), or from where it woke up
    in [uartputc]. *)
Definition consolewrite (src n i : Z) (hand : option Z) : M con wr :=
  loop (S (Z.to_nat (n - i))) (consolewrite_body src n) (i, hand).
End Write.
