(* ===== verification/ConsoleSpec.v ===== *)
(** The console as a line discipline: text being edited, lines that are complete, and
    characters waiting to be sent. *)

From S2P Require Import Prelude Queue Console.

(** ** What a console does *)

(** [com]: the characters that can be read; [ed]: the line being typed; [pend]: the
    characters accepted from writers and not yet sent. *)
Record ld := Ld { com : list Z; ed : list Z; pend : list Z }.

Definition erased : list Z := [8; 32; 8].

(** Typing a character: the new state, what is echoed, and whether input becomes ready. *)
Definition type_char (c : Z) (l : ld) : ld * list Z * bool :=
  if c =? ctrl_P then (l, [], false)
  else if c =? ctrl_U then (Ld (com l) [] (pend l), concat (replicate (length (ed l)) erased), false)
  else if (c =? ctrl_H) || (c =? c_del) then
    match ed l with
    | [] => (l, [], false)
    | _ => (Ld (com l) (removelast (ed l)) (pend l), erased, false)
    end
  else if negb (c =? 0) && (Z.of_nat (length (com l) + length (ed l)) <? INPUT_BUF) then
    let c := if c =? c_cr then c_newline else c in
    let ed' := ed l ++ [c] in
    if (c =? c_newline) || (c =? ctrl_D) || (Z.of_nat (length (com l) + length ed') =? INPUT_BUF)
    then (Ld (com l ++ ed') [] (pend l), [c], true)
    else (Ld (com l) ed' (pend l), [c], false)
  else (l, [], false).

Fixpoint type_all (cs : list Z) (l : ld) : ld * list Z :=
  match cs with
  | [] => (l, [])
  | c :: cs => let '(l1, echo, _) := type_char c l in let '(l2, echo2) := type_all cs l1 in (l2, echo ++ echo2)
  end.

(** Reading from what is ready: the outcome, the bytes read, and what stays. *)
Fixpoint take_line (copyout : Z → Z → bool) (killed : bool) (target dst n : Z) (got text : list Z) : rd * list Z * list Z :=
  if n <=? 0 then (RdDone (target - n), got, text) else
  match text with
  | [] => (if killed then RdDone (-1) else RdSleep dst n, got, [])
  | c :: text' =>
    if c =? ctrl_D then (RdDone (target - n), got, if n <? target then text else text')
    else if negb (copyout dst c) then (RdDone (target - n), got, text')
    else if c =? c_newline then (RdDone (target - (n - 1)), got ++ [c], text')
    else take_line copyout killed target (dst + 1) (n - 1) (got ++ [c]) text'
  end.

(** How many characters go out before the device is busy, of [n]. *)
Fixpoint idle_count (idle : list bool) (n : nat) : nat :=
  match n, idle with
  | S n, true :: idle => S (idle_count idle n)
  | _, _ => O
  end.

(** ** How the code holds it *)

Record shows_ld (st : con) (l : ld) : Prop := {
  sl_text : ring INPUT_BUF (c_buf st) (c_r st) (com l ++ ed l);
  sl_r : 0 <= c_r st < 2 ^ 32;
  sl_w : c_w st = w32 (c_r st + Z.of_nat (length (com l)));
  sl_e : c_e st = w32 (c_r st + Z.of_nat (length (com l) + length (ed l)));
  sl_ed : c_newline ∉ ed l;
  sl_tx : ring UART_TX_BUF_SIZE (tx_buf st) (tx_r st) (pend l);
  sl_txr : 0 <= tx_r st < 2 ^ 64;
  sl_txw : tx_w st = w64 (tx_r st + Z.of_nat (length (pend l))) }.

Lemma INPUT_BUF_range : INPUT_BUF * 2 ^ 25 = 2 ^ 32.
Proof. done. Qed.
Lemma UART_range : UART_TX_BUF_SIZE * 2 ^ 59 = 2 ^ 64.
Proof. done. Qed.

(** Counters at most a buffer apart are equal only if they really are. *)
Lemma w32_inj r i j : 0 <= i <= INPUT_BUF → 0 <= j <= INPUT_BUF → w32 (r + i) = w32 (r + j) → i = j.
Proof.
  unfold w32, INPUT_BUF. intros Hi Hj H. assert ((r + i - (r + j)) mod 2 ^ 32 = 0) as Hm by (rewrite Zminus_mod, H, Z.sub_diag; done).
  replace (r + i - (r + j)) with (i - j) in Hm by lia. apply Z.mod_divide in Hm as [k Hk]; [|done]. lia.
Qed.

Lemma w64_inj r i j : 0 <= i <= UART_TX_BUF_SIZE → 0 <= j <= UART_TX_BUF_SIZE → w64 (r + i) = w64 (r + j) → i = j.
Proof.
  unfold w64, UART_TX_BUF_SIZE. intros Hi Hj H. assert ((r + i - (r + j)) mod 2 ^ 64 = 0) as Hm by (rewrite Zminus_mod, H, Z.sub_diag; done).
  replace (r + i - (r + j)) with (i - j) in Hm by lia. apply Z.mod_divide in Hm as [k Hk]; [|done]. lia.
Qed.

Lemma w32_add_w32 x y : w32 (w32 x + y) = w32 (x + y).
Proof. unfold w32. by rewrite Zplus_mod_idemp_l. Qed.

Lemma w64_add_w64 x y : w64 (w64 x + y) = w64 (x + y).
Proof. unfold w64. by rewrite Zplus_mod_idemp_l. Qed.

Lemma w32_self r : 0 <= r < 2 ^ 32 → w32 r = r.
Proof. intros H. unfold w32. by rewrite Z.mod_small. Qed.

Lemma w64_self r : 0 <= r < 2 ^ 64 → w64 r = r.
Proof. intros H. unfold w64. by rewrite Z.mod_small. Qed.

Section Shown.
Context {st : con} {l : ld} (H : shows_ld st l).

Lemma ld_len : 0 <= Z.of_nat (length (com l)) + Z.of_nat (length (ed l)) <= INPUT_BUF.
Proof. destruct (sl_text _ _ H) as (_ & Hl & _). rewrite length_app in Hl. lia. Qed.

Lemma ed_nil_eqb : (c_e st =? c_w st) = bool_decide (ed l = []).
Proof.
  pose proof ld_len. rewrite (sl_w _ _ H), (sl_e _ _ H). case_bool_decide as E.
  - rewrite E. simpl. rewrite Nat.add_0_r. by apply Z.eqb_refl.
  - apply Z.eqb_neq. intros Hw. rewrite Nat2Z.inj_add in Hw. apply w32_inj in Hw; [|lia|lia].
    apply E. apply length_zero_iff_nil. lia.
Qed.

Lemma com_nil_eqb : (c_r st =? c_w st) = bool_decide (com l = []).
Proof.
  pose proof ld_len. rewrite (sl_w _ _ H). case_bool_decide as E.
  - rewrite E. simpl. rewrite Z.add_0_r, w32_self by apply (sl_r _ _ H). apply Z.eqb_refl.
  - apply Z.eqb_neq. intros Hw. rewrite <- (w32_self (c_r st)) in Hw at 1 by apply (sl_r _ _ H). rewrite <- (Z.add_0_r (c_r st)) in Hw at 1.
    apply w32_inj in Hw; [|lia|lia]. apply E. apply length_zero_iff_nil. lia.
Qed.

Lemma used_eq : w32 (c_e st - c_r st) = Z.of_nat (length (com l) + length (ed l)).
Proof.
  pose proof ld_len. rewrite (sl_e _ _ H). unfold Z.sub. rewrite w32_add_w32.
  replace (c_r st + Z.of_nat (length (com l) + length (ed l)) + - c_r st) with (Z.of_nat (length (com l) + length (ed l))) by lia.
  apply Z.mod_small. unfold INPUT_BUF in *. lia.
Qed.

Lemma tx_len : 0 <= Z.of_nat (length (pend l)) <= UART_TX_BUF_SIZE.
Proof. destruct (sl_tx _ _ H) as (_ & Hl & _). lia. Qed.

Lemma tx_nil_eqb : (tx_w st =? tx_r st) = bool_decide (pend l = []).
Proof.
  pose proof tx_len. rewrite (sl_txw _ _ H). case_bool_decide as E.
  - rewrite E. simpl. rewrite Z.add_0_r, w64_self by apply (sl_txr _ _ H). apply Z.eqb_refl.
  - apply Z.eqb_neq. intros Hw. rewrite <- (w64_self (tx_r st)) in Hw by apply (sl_txr _ _ H). rewrite w64_add_w64 in Hw.
    rewrite <- (Z.add_0_r (tx_r st)) in Hw at 2. apply w64_inj in Hw; [|lia|lia]. apply E. apply length_zero_iff_nil. lia.
Qed.

Lemma tx_full_eqb : (tx_w st =? w64 (tx_r st + UART_TX_BUF_SIZE)) = (Z.of_nat (length (pend l)) =? UART_TX_BUF_SIZE).
Proof.
  pose proof tx_len. rewrite (sl_txw _ _ H). destruct (Z.eqb_spec (Z.of_nat (length (pend l))) UART_TX_BUF_SIZE) as [->|E]; [apply Z.eqb_refl|].
  apply Z.eqb_neq. intros Hw. apply w64_inj in Hw; [done|lia|unfold UART_TX_BUF_SIZE; lia].
Qed.
End Shown.

(** ** Echoing and erasing *)

Definition echoed (st : con) (out : list Z) : con := set_dev (d_idle st) (d_rx st) (d_thr st ++ out) st.

Lemma consputc_char c st : 0 <= c < 256 → consputc c st = Ok (tt, echoed st [c]).
Proof.
  intros Hc. unfold consputc, BACKSPACE. rewrite (proj2 (Z.eqb_neq _ _)) by lia. unfold uartputc_sync, w8.
  by rewrite Z.mod_small.
Qed.

Lemma consputc_back st : consputc BACKSPACE st = Ok (tt, echoed st erased).
Proof.
  transitivity (Ok (tt, echoed (echoed (echoed st [8]) [32]) [8])); [done|]. do 2 f_equal. unfold echoed, set_dev, erased.
  cbn [d_thr d_idle d_rx]. by rewrite <- !app_assoc.
Qed.

Lemma shows_echoed st l out : shows_ld st l → shows_ld (echoed st out) l.
Proof. intros [H1 H2 H3 H4 H5 H6 H7 H8]. by split. Qed.

Lemma mod_w32 x : w32 x mod INPUT_BUF = x mod INPUT_BUF.
Proof. unfold w32. rewrite <- INPUT_BUF_range. by apply mod_mod_mul. Qed.

Lemma mod_w64 x : w64 x mod UART_TX_BUF_SIZE = x mod UART_TX_BUF_SIZE.
Proof. unfold w64. rewrite <- UART_range. by apply mod_mod_mul. Qed.

(** The counter and the character before the edit index. *)
Lemma last_edit st l ed' c : shows_ld st l → ed l = ed' ++ [c] →
  w32 (c_e st - 1) = w32 (c_r st + Z.of_nat (length (com l) + length ed')) ∧
  c_buf st !! Z.to_nat (w32 (c_e st - 1) mod INPUT_BUF) = Some c.
Proof.
  intros H He. assert (Hw : w32 (c_e st - 1) = w32 (c_r st + Z.of_nat (length (com l) + length ed'))).
  { rewrite (sl_e _ _ H), He. unfold Z.sub. rewrite w32_add_w32, length_app. f_equal. simpl. lia. }
  split; [done|]. rewrite Hw, mod_w32. pose proof (sl_text _ _ H) as Hr. rewrite He, app_assoc in Hr. apply ring_last in Hr.
  by rewrite length_app in Hr.
Qed.

Lemma erase_one_run st l ed' c : shows_ld st l → ed l = ed' ++ [c] →
  ∃ st', erase_one st = Ok (tt, st') ∧ shows_ld st' (Ld (com l) ed' (pend l)) ∧ d_thr st' = d_thr st ++ erased ∧
    d_rx st' = d_rx st ∧ d_idle st' = d_idle st ∧ woke_cons st' = woke_cons st.
Proof.
  intros H He. destruct (last_edit st l ed' c H He) as [Hw _]. eexists. split; [unfold erase_one; rewrite (bind_ok _ _ _ tt _ eq_refl); apply consputc_back|].
  split; [|done]. apply shows_echoed. destruct H as [H1 H2 H3 H4 H5 H6 H7 H8]. split; cbn; try done.
  - rewrite He, app_assoc in H1. by apply ring_prefix in H1.
  - rewrite He in H5. set_solver.
Qed.

Lemma kill_run n : ∀ st l fuel, shows_ld st l → length (ed l) = n → (n < fuel)%nat →
  ∃ st', loop fuel kill_body tt st = Ok (tt, st') ∧ shows_ld st' (Ld (com l) [] (pend l)) ∧
    d_thr st' = d_thr st ++ concat (replicate n erased) ∧ d_rx st' = d_rx st ∧ d_idle st' = d_idle st ∧ woke_cons st' = woke_cons st.
Proof.
  induction n as [|n IH]; intros st l fuel H Hn Hf; (destruct fuel as [|fuel]; [lia|]).
  - apply length_zero_iff_nil in Hn. exists st. cbn [replicate concat]. rewrite app_nil_r. split_and!; [|by destruct l; cbn in *; subst|done..].
    change (loop (S fuel) kill_body tt st) with ((r ← kill_body tt; match r with inl a' => loop fuel kill_body a' | inr b => mret b end) st).
    rewrite (bind_ok _ _ _ (inr tt) st); [done|]. unfold kill_body, mbind, M_bind, gets, id. rewrite (ed_nil_eqb H), bool_decide_eq_true_2 by done. done.
  - destruct (exists_last (l := ed l)) as (ed' & c & He); [by intros E; rewrite E in Hn|].
    rewrite He, length_app in Hn. cbn in Hn. destruct (last_edit st l ed' c H He) as [_ Hc].
    destruct (erase_one_run st l ed' c H He) as (st1 & Hrun & H1 & Ht1 & Hr1 & Hi1 & Hw1).
    destruct (IH st1 (Ld (com l) ed' (pend l)) fuel H1 ltac:(cbn; lia) ltac:(lia)) as (st2 & Hrun2 & H2 & Ht2 & Hr2 & Hi2 & Hw2).
    exists st2. split_and!; [|done|rewrite Ht2, Ht1; cbn; by rewrite <- app_assoc|congruence..].
    change (loop (S fuel) kill_body tt st) with ((r ← kill_body tt; match r with inl a' => loop fuel kill_body a' | inr b => mret b end) st).
    rewrite (bind_ok _ _ _ (inl tt) st1); [done|]. unfold kill_body. rewrite (bind_ok _ _ _ st st) by done.
    rewrite (ed_nil_eqb H), bool_decide_eq_false_2 by (rewrite He; by destruct ed'). rewrite Hc.
    rewrite (proj2 (Z.eqb_neq _ _)) by (intros ->; apply (sl_ed _ _ H); rewrite He; set_solver).
    by rewrite (bind_ok _ _ _ _ _ Hrun).
Qed.

(** ** A typed character *)

(** The state with [c] stored at the edit index. *)
Definition stored (c : Z) (st : con) : con :=
  set_cons (<[Z.to_nat (c_e st mod INPUT_BUF) := c]> (c_buf st)) (c_r st) (c_w st) (w32 (c_e st + 1)) st.

Lemma stored_text st l c : shows_ld st l → Z.of_nat (length (com l) + length (ed l)) < INPUT_BUF →
  ring INPUT_BUF (c_buf (stored c st)) (c_r st) (com l ++ ed l ++ [c]) ∧
  c_e (stored c st) = w32 (c_r st + Z.of_nat (length (com l) + length (ed l ++ [c]))) ∧
  (c_e (stored c st) =? w32 (c_r st + INPUT_BUF)) = (Z.of_nat (length (com l) + length (ed l ++ [c])) =? INPUT_BUF).
Proof.
  intros H Hl. pose proof (ring_snoc _ _ _ _ c (sl_text _ _ H)) as Hr. rewrite length_app in Hr. specialize (Hr Hl).
  assert (He : c_e (stored c st) = w32 (c_r st + Z.of_nat (length (com l) + length (ed l ++ [c])))).
  { cbn. rewrite (sl_e _ _ H), w32_add_w32, length_app. f_equal. simpl. lia. }
  split_and!; [|done|].
  - cbn. rewrite (sl_e _ _ H), mod_w32. by rewrite <- app_assoc in Hr.
  - rewrite He, length_app. cbn [length]. destruct (Z.eqb_spec (Z.of_nat (length (com l) + (length (ed l) + 1))) INPUT_BUF) as [->|Hne]; [apply Z.eqb_refl|].
    apply Z.eqb_neq. intros E. apply w32_inj in E; [done|lia|unfold INPUT_BUF; lia].
Qed.

Lemma shows_stored st l c : shows_ld st l → Z.of_nat (length (com l) + length (ed l)) < INPUT_BUF → c ≠ c_newline →
  shows_ld (stored c st) (Ld (com l) (ed l ++ [c]) (pend l)).
Proof.
  intros H Hl Hc. destruct (stored_text st l c H Hl) as (Hr & He & _). destruct H as [H1 H2 H3 H4 H5 H6 H7 H8].
  split; cbn [com ed pend]; try done. set_solver.
Qed.

Lemma shows_committed st l c : shows_ld st l → Z.of_nat (length (com l) + length (ed l)) < INPUT_BUF →
  let st1 := stored c st in
  shows_ld (set_woke (S (woke_cons st1)) (woke_tx st1) (set_cons (c_buf st1) (c_r st1) (c_e st1) (c_e st1) st1)) (Ld (com l ++ ed l ++ [c]) [] (pend l)).
Proof.
  intros H Hl st1. destruct (stored_text st l c H Hl) as (Hr & He & _). destruct H as [H1 H2 H3 H4 H5 H6 H7 H8].
  split; cbn [com ed pend c_buf c_r c_w c_e tx_buf tx_r tx_w set_woke set_cons]; try done.
  - by rewrite app_nil_r.
  - change (c_r st1) with (c_r st). unfold st1. rewrite He. by rewrite (length_app (com l)).
  - change (c_r st1) with (c_r st). unfold st1. rewrite He. f_equal. rewrite (length_app (com l)). simpl. lia.
  - apply not_elem_of_nil.
Qed.

Lemma consoleintr_run c st l : shows_ld st l → 0 <= c < 256 →
  ∃ st', consoleintr c st = Ok (tt, st') ∧ shows_ld st' (type_char c l).1.1 ∧ d_thr st' = d_thr st ++ (type_char c l).1.2 ∧
    woke_cons st' = (woke_cons st + if (type_char c l).2 then 1 else 0)%nat ∧ d_rx st' = d_rx st ∧ d_idle st' = d_idle st.
Proof.
  intros H Hc. unfold consoleintr, type_char. destruct (c =? ctrl_P); [exists st; cbn [fst snd]; by rewrite app_nil_r, Nat.add_0_r|].
  destruct (c =? ctrl_U).
  { pose proof (ld_len H). destruct (kill_run (length (ed l)) st l (S (Z.to_nat INPUT_BUF)) H eq_refl ltac:(lia)) as (st' & Hr & H' & Ht & Hx & Hi & Hw).
    exists st'. cbn [fst snd]. rewrite Nat.add_0_r. done. }
  destruct ((c =? ctrl_H) || (c =? c_del)).
  { rewrite (bind_ok _ _ _ st st) by done. rewrite (ed_nil_eqb H). destruct (ed l) as [|x ed0] eqn:E.
    - rewrite bool_decide_eq_true_2 by done. exists st. cbn [fst snd]. by rewrite app_nil_r, Nat.add_0_r.
    - rewrite bool_decide_eq_false_2 by done. cbn [negb].
      destruct (exists_last (l := x :: ed0)) as (ed' & y & He); [done|]. rewrite He, removelast_last.
      destruct (erase_one_run st l ed' y H ltac:(by rewrite E)) as (st' & Hr & H' & Ht & Hx & Hi & Hw).
      exists st'. cbn [fst snd]. rewrite Nat.add_0_r. done. }
  rewrite (bind_ok _ _ _ st st) by done. rewrite (used_eq H).
  destruct (negb (c =? 0) && (Z.of_nat (length (com l) + length (ed l)) <? INPUT_BUF)) eqn:Eb.
  2: { exists st. cbn [fst snd]. by rewrite app_nil_r, Nat.add_0_r. }
  apply andb_prop in Eb as [_ Hlt%Z.ltb_lt]. set (c' := if c =? c_cr then c_newline else c). cbv zeta.
  assert (Hc' : 0 <= c' < 256) by (unfold c', c_newline; destruct (c =? c_cr); lia).
  rewrite (bind_ok _ _ _ _ _ (consputc_char c' st Hc')). set (st1 := echoed st [c']).
  assert (H1 : shows_ld st1 l) by by apply shows_echoed.
  rewrite (bind_ok _ _ _ tt (stored c' st1)).
  2: { assert (Hw8 : w8 c' = c') by (unfold w8; by rewrite Z.mod_small). unfold modify. by rewrite Hw8. }
  destruct (stored_text st1 l c' H1 Hlt) as (_ & _ & Hfull). change (w32 (c_e st + 1)) with (c_e (stored c' st1)).
  change (c_r st) with (c_r st1). rewrite Hfull.
  destruct ((c' =? c_newline) || (c' =? ctrl_D) || (Z.of_nat (length (com l) + length (ed l ++ [c'])) =? INPUT_BUF)) eqn:Ew.
  - eexists. split; [reflexivity|]. split; [by apply (shows_committed st1 l c')|]. cbn. rewrite Nat.add_1_r. done.
  - exists (stored c' st1). split; [done|]. split; [|cbn; by rewrite Nat.add_0_r]. apply shows_stored; [done|done|].
    intros E. rewrite E, Z.eqb_refl in Ew. done.
Qed.

(** ** Reading *)

Definition advanced (st : con) : con := set_cons (c_buf st) (w32 (c_r st + 1)) (c_w st) (c_e st) st.

Lemma shows_advanced st l c text : shows_ld st l → com l = c :: text →
  c_buf st !! Z.to_nat (c_r st mod INPUT_BUF) = Some c ∧ shows_ld (advanced st) (Ld text (ed l) (pend l)).
Proof.
  intros H Hc. destruct H as [H1 H2 H3 H4 H5 H6 H7 H8]. rewrite Hc in *. cbn [app] in H1. split; [by eapply ring_head|].
  split; cbn; try done.
  - rewrite <- (ring_w32 _ (2 ^ 25)) by done. by eapply ring_tail.
  - unfold w32. apply Z.mod_pos_bound. done.
  - rewrite w32_add_w32, H3. f_equal. simpl. lia.
  - rewrite w32_add_w32, H4. f_equal. simpl. lia.
Qed.

Lemma shows_back st l c text : shows_ld st l → com l = c :: text →
  set_cons (c_buf (advanced st)) (w32 (c_r (advanced st) - 1)) (c_w (advanced st)) (c_e (advanced st)) (advanced st) = st.
Proof.
  intros H _. unfold advanced. cbn. pose proof (sl_r _ _ H) as Hr. unfold Z.sub. rewrite w32_add_w32.
  rewrite w32_self by lia. replace (c_r st + 1 + - (1)) with (c_r st) by lia. by destruct st.
Qed.

Definition same_dev (st st' : con) : Prop :=
  d_thr st' = d_thr st ∧ d_rx st' = d_rx st ∧ d_idle st' = d_idle st ∧ woke_cons st' = woke_cons st.

Lemma read_run copyout killed target text : ∀ st l dst n got fuel, shows_ld st l → com l = text → (length text < fuel)%nat →
  let '(r, got', text') := take_line copyout killed target dst n got text in
  ∃ st', loop fuel (consoleread_body copyout killed target) (dst, n, got) st = Ok ((r, got'), st') ∧
    shows_ld st' (Ld text' (ed l) (pend l)) ∧ same_dev st st'.
Proof.
  induction text as [|c text IH]; intros st l dst n got fuel H Hcom Hf; (destruct fuel as [|fuel]; [cbn in Hf; lia|]); cbn [take_line].
  all: change (loop (S fuel) (consoleread_body copyout killed target) (dst, n, got) st) with
    ((r ← consoleread_body copyout killed target (dst, n, got);
      match r with inl a' => loop fuel (consoleread_body copyout killed target) a' | inr b => mret b end) st).
  all: assert (Hl : l = Ld (com l) (ed l) (pend l)) by by destruct l.
  - destruct (n <=? 0) eqn:En.
    + exists st. split; [|rewrite <- Hcom, <- Hl; done]. rewrite (bind_ok _ _ _ (inr (RdDone (target - n), got)) st); [done|].
      unfold consoleread_body. by rewrite En.
    + exists st. split; [|rewrite <- Hcom, <- Hl; done].
      rewrite (bind_ok _ _ _ (inr (if killed then RdDone (-1) else RdSleep dst n, got)) st); [done|].
      unfold consoleread_body, mbind, M_bind, gets, id. rewrite En, (com_nil_eqb H), bool_decide_eq_true_2 by done. done.
  - destruct (n <=? 0) eqn:En.
    { exists st. split; [|rewrite <- Hcom, <- Hl; done]. rewrite (bind_ok _ _ _ (inr (RdDone (target - n), got)) st); [done|].
      unfold consoleread_body. by rewrite En. }
    destruct (shows_advanced st l c text H Hcom) as [Hc Hadv].
    assert (Hstep : ∀ r st', ((if c =? ctrl_D then
        (if n <? target then modify (λ st, set_cons (c_buf st) (w32 (c_r st - 1)) (c_w st) (c_e st) st) else mret tt);;
        mret (inr (RdDone (target - n), got))
      else if negb (copyout dst c) then mret (inr (RdDone (target - n), got))
      else if c =? c_newline then mret (inr (RdDone (target - (n - 1)), got ++ [c])) else mret (inl (dst + 1, n - 1, got ++ [c]))) :
        M con (Z * Z * list Z + rd * list Z)) (advanced st) = Ok (r, st') →
      consoleread_body copyout killed target (dst, n, got) st = Ok (r, st')).
    { intros r st' Hr. unfold consoleread_body. rewrite En. rewrite (bind_ok _ _ _ st st) by done.
      rewrite (com_nil_eqb H), bool_decide_eq_false_2 by (by rewrite Hcom). rewrite Hc. rewrite (bind_ok _ _ _ tt (advanced st)) by done. done. }
    destruct (c =? ctrl_D).
    + destruct (n <? target).
      * exists st. split; [|rewrite <- Hcom, <- Hl; done].
        rewrite (bind_ok _ _ _ (inr (RdDone (target - n), got)) st); [done|]. apply Hstep.
        rewrite (bind_ok _ _ _ tt st); [done|]. unfold modify. by rewrite (shows_back st l c text).
      * exists (advanced st). split; [|done]. rewrite (bind_ok _ _ _ (inr (RdDone (target - n), got)) (advanced st)); [done|]. by apply Hstep.
    + destruct (copyout dst c); cbn [negb] in *.
      2: { exists (advanced st). split; [|done]. rewrite (bind_ok _ _ _ (inr (RdDone (target - n), got)) (advanced st)); [done|]. by apply Hstep. }
      destruct (c =? c_newline).
      { exists (advanced st). split; [|done]. rewrite (bind_ok _ _ _ (inr (RdDone (target - (n - 1)), got ++ [c])) (advanced st)); [done|]. by apply Hstep. }
      specialize (IH (advanced st) _ (dst + 1) (n - 1) (got ++ [c]) fuel Hadv eq_refl ltac:(cbn in Hf; lia)).
      destruct (take_line _ _ _ _ _ _ _) as [[r got'] text']. destruct IH as (st' & Hr & Hs & Hd). exists st'. split; [|done].
      rewrite (bind_ok _ _ _ (inl (dst + 1, n - 1, got ++ [c])) (advanced st)); [done|]. by apply Hstep.
Qed.

(** ** Sending *)

Definition sent_one (st : con) (c : Z) (rest : list bool) : con :=
  let st1 := set_tx (tx_buf st) (tx_w st) (w64 (tx_r st + 1)) (set_dev rest (d_rx st) (d_thr st) st) in
  echoed (set_woke (woke_cons st1) (S (woke_tx st1)) st1) [c].

Lemma shows_sent st l c p rest : shows_ld st l → pend l = c :: p →
  tx_buf st !! Z.to_nat (tx_r st mod UART_TX_BUF_SIZE) = Some c ∧ shows_ld (sent_one st c rest) (Ld (com l) (ed l) p).
Proof.
  intros H Hc. destruct H as [H1 H2 H3 H4 H5 H6 H7 H8]. rewrite Hc in *. split; [by eapply ring_head|].
  split; cbn; try done.
  - rewrite <- (ring_w64 _ (2 ^ 59)) by done. by eapply ring_tail.
  - unfold w64. apply Z.mod_pos_bound. done.
  - rewrite w64_add_w64, H8. f_equal. simpl. lia.
Qed.

Lemma uartstart_loop p : ∀ st l fuel, shows_ld st l → pend l = p → (length p < fuel)%nat → let k := idle_count (d_idle st) (length p) in
  ∃ st', loop fuel uartstart_body tt st = Ok (tt, st') ∧ shows_ld st' (Ld (com l) (ed l) (drop k p)) ∧
    d_thr st' = d_thr st ++ take k p ∧ d_rx st' = d_rx st ∧ woke_cons st' = woke_cons st ∧ woke_tx st' = (woke_tx st + k)%nat.
Proof.
  induction p as [|c p IH]; intros st l fuel H Hp Hf k; (destruct fuel as [|fuel]; [cbn in Hf; lia|]).
  all: change (loop (S fuel) uartstart_body tt st) with ((r ← uartstart_body tt; match r with inl a' => loop fuel uartstart_body a' | inr b => mret b end) st).
  - assert (Hl : Ld (com l) (ed l) [] = l) by (destruct l; cbn in *; by subst). exists st. unfold k. cbn [length].
    replace (idle_count (d_idle st) 0) with 0%nat by by destruct (d_idle st). cbn [drop take].
    rewrite Hl, app_nil_r, Nat.add_0_r. split; [|done].
    rewrite (bind_ok _ _ _ (inr tt) st); [done|]. unfold uartstart_body, mbind, M_bind, gets, id. by rewrite (tx_nil_eqb H), bool_decide_eq_true_2.
  - assert (Hl : Ld (com l) (ed l) (c :: p) = l) by (destruct l; cbn in *; by subst). unfold k.
    destruct (d_idle st) as [|[] rest] eqn:Ei; cbn [length idle_count].
    + exists st. cbn [drop take]. rewrite Hl, app_nil_r, Nat.add_0_r. split; [|done]. rewrite (bind_ok _ _ _ (inr tt) st); [done|].
      unfold uartstart_body, mbind, M_bind, gets, id. rewrite (tx_nil_eqb H), bool_decide_eq_false_2 by by rewrite Hp.
      unfold lsr_tx_idle. by rewrite Ei.
    + destruct (shows_sent st l c p rest H Hp) as [Hc Hs].
      specialize (IH (sent_one st c rest) _ fuel Hs eq_refl ltac:(cbn in Hf; lia)). cbn [d_idle sent_one echoed set_dev set_woke set_tx] in IH.
      destruct IH as (st' & Hr & Hs' & Ht & Hx & Hw & Hwt). exists st'. cbn [drop take]. split_and!; [|done| |done|done|].
      * rewrite (bind_ok _ _ _ (inl tt) (sent_one st c rest)); [done|]. unfold uartstart_body. rewrite (bind_ok _ _ _ st st) by done.
        rewrite (tx_nil_eqb H), bool_decide_eq_false_2 by by rewrite Hp.
        rewrite (bind_ok _ _ _ true (set_dev rest (d_rx st) (d_thr st) st)) by (unfold lsr_tx_idle; by rewrite Ei). cbn [negb].
        rewrite (bind_ok _ _ _ _ _ eq_refl). cbn [id tx_buf tx_r tx_w set_dev]. by rewrite Hc.
      * rewrite Ht. cbn. by rewrite <- app_assoc.
      * rewrite Hwt. cbn. lia.
    + exists (set_dev rest (d_rx st) (d_thr st) st). cbn [drop take]. rewrite Hl, app_nil_r, Nat.add_0_r. split_and!; [|by destruct H|done..].
      rewrite (bind_ok _ _ _ (inr tt) (set_dev rest (d_rx st) (d_thr st) st)); [done|]. unfold uartstart_body, mbind, M_bind, gets, id.
      rewrite (tx_nil_eqb H), bool_decide_eq_false_2 by by rewrite Hp. unfold lsr_tx_idle. by rewrite Ei.
Qed.

Lemma uartstart_run st l : shows_ld st l → let k := idle_count (d_idle st) (length (pend l)) in
  ∃ st', uartstart st = Ok (tt, st') ∧ shows_ld st' (Ld (com l) (ed l) (drop k (pend l))) ∧
    d_thr st' = d_thr st ++ take k (pend l) ∧ d_rx st' = d_rx st ∧ woke_cons st' = woke_cons st ∧ woke_tx st' = (woke_tx st + k)%nat.
Proof. intros H. apply uartstart_loop; [done|done|]. pose proof (tx_len H). lia. Qed.

Lemma uartputc_run c st l : shows_ld st l → 0 <= c < 256 →
  if decide (length (pend l) = Z.to_nat UART_TX_BUF_SIZE) then uartputc c st = Ok (false, st)
  else let p := pend l ++ [c] in let k := idle_count (d_idle st) (length p) in
    ∃ st', uartputc c st = Ok (true, st') ∧ shows_ld st' (Ld (com l) (ed l) (drop k p)) ∧ d_thr st' = d_thr st ++ take k p ∧ d_rx st' = d_rx st.
Proof.
  intros H Hc. pose proof (tx_len H) as Hlen. unfold uartputc. rewrite (bind_ok _ _ _ st st) by done. rewrite (tx_full_eqb H).
  destruct (decide _) as [E|E]; [rewrite (proj2 (Z.eqb_eq _ _)) by lia; done|]. rewrite (proj2 (Z.eqb_neq _ _)) by lia. cbv zeta.
  assert (Hw8 : w8 c = c) by (unfold w8; by rewrite Z.mod_small). rewrite Hw8.
  set (st1 := set_tx (<[Z.to_nat (tx_w st mod UART_TX_BUF_SIZE) := c]> (tx_buf st)) (w64 (tx_w st + 1)) (tx_r st) st).
  rewrite (bind_ok _ _ _ tt st1) by done.
  assert (H1 : shows_ld st1 (Ld (com l) (ed l) (pend l ++ [c]))).
  { destruct H as [H1 H2 H3 H4 H5 H6 H7 H8]. split; cbn; try done.
    - rewrite H8, mod_w64. apply ring_snoc; [done|lia].
    - rewrite H8, w64_add_w64, length_app. f_equal. simpl. lia. }
  destruct (uartstart_run st1 _ H1) as (st' & Hr & Hs & Ht & Hx & _). cbn [com ed pend] in *. change (d_idle st1) with (d_idle st) in *.
  exists st'. rewrite (bind_ok _ _ _ _ _ Hr). by split_and!.
Qed.

(** ** The interrupt *)

Lemma type_char_ready c l : (type_char c l).2 = false → com (type_char c l).1.1 = com l.
Proof.
  unfold type_char. destruct (c =? ctrl_P); [done|]. destruct (c =? ctrl_U); [done|]. destruct (_ || _); [by destruct (ed l)|].
  destruct (_ && _); [|done]. cbv zeta. by destruct (_ || _).
Qed.

Lemma type_char_pend c l : pend (type_char c l).1.1 = pend l.
Proof.
  unfold type_char. destruct (c =? ctrl_P); [done|]. destruct (c =? ctrl_U); [done|]. destruct (_ || _); [by destruct (ed l)|].
  destruct (_ && _); [|done]. cbv zeta. by destruct (_ || _).
Qed.

Lemma receive_run cs : ∀ st l fuel, shows_ld st l → d_rx st = cs → Forall (λ c, 0 <= c < 256) cs → (length cs < fuel)%nat →
  let '(l', echo) := type_all cs l in
  ∃ st', loop fuel uartintr_body tt st = Ok (tt, st') ∧ shows_ld st' l' ∧ d_thr st' = d_thr st ++ echo ∧ d_rx st' = [] ∧
    d_idle st' = d_idle st ∧ pend l' = pend l ∧ (com l' = com l ∨ (woke_cons st < woke_cons st')%nat) ∧ (woke_cons st <= woke_cons st')%nat.
Proof.
  induction cs as [|c cs IH]; intros st l fuel H Hcs Hb Hf; (destruct fuel as [|fuel]; [cbn in Hf; lia|]); cbn [type_all].
  all: change (loop (S fuel) uartintr_body tt st) with ((r ← uartintr_body tt; match r with inl a' => loop fuel uartintr_body a' | inr b => mret b end) st).
  - exists st. rewrite app_nil_r. split_and!; [|done|done|done|done|done|by left|done]. rewrite (bind_ok _ _ _ (inr tt) st); [done|].
    unfold uartintr_body, mbind, M_bind, uartgetc. by rewrite Hcs.
  - apply list.Forall_cons in Hb as [Hc Hb]. set (st1 := set_dev (d_idle st) cs (d_thr st) st).
    assert (H1 : shows_ld st1 l) by by destruct H. destruct (consoleintr_run c st1 l H1 Hc) as (st2 & Hr2 & H2 & Ht2 & Hw2 & Hx2 & Hi2).
    pose proof (type_char_ready c l) as Hrdy. pose proof (type_char_pend c l) as Hpend. destruct (type_char c l) as [[l1 echo] rdy]. cbn [fst snd] in *.
    specialize (IH st2 l1 fuel H2 Hx2 Hb ltac:(cbn in Hf; lia)). destruct (type_all cs l1) as [l2 echo2].
    destruct IH as (st3 & Hr3 & H3 & Ht3 & Hx3 & Hi3 & Hp3 & Hw3 & Hw3'). exists st3.
    change (woke_cons st1) with (woke_cons st) in Hw2. split_and!.
    + rewrite (bind_ok _ _ _ (inl tt) st2); [done|]. unfold uartintr_body. rewrite (bind_ok _ _ _ c st1) by (unfold uartgetc; by rewrite Hcs).
      rewrite (proj2 (Z.eqb_neq _ _)) by lia. by rewrite (bind_ok _ _ _ _ _ Hr2).
    + done.
    + rewrite Ht3, Ht2. cbn. by rewrite <- app_assoc.
    + done.
    + by rewrite Hi3, Hi2.
    + by rewrite Hp3.
    + destruct rdy; [right; lia|]. destruct Hw3 as [->|Hw3]; [left; by apply Hrdy|right; lia].
    + destruct rdy; lia.
Qed.

(** ** Writing *)

(** The characters a call of [consolewrite] at [i] has still to send. *)
Fixpoint to_send (copyin : Z → option Z) (src i : Z) (hand : option Z) (k : nat) : list Z :=
  match k with
  | O => []
  | S k =>
    match (match hand with Some c => Some c | None => copyin (src + i) end) with
    | None => []
    | Some c => c :: to_send copyin src (i + 1) None k
    end
  end.

(** The call accepted the first characters [sent] of those; [rest] are left. *)
Definition wrote (r : wr) (i : Z) (sent rest : list Z) (l' : ld) : Prop :=
  match r with
  | WrDone ret => rest = [] ∧ ret = i + Z.of_nat (length sent)
  | WrSleep j c => j = i + Z.of_nat (length sent) ∧ head rest = Some c ∧ Z.of_nat (length (pend l')) = UART_TX_BUF_SIZE
  end.

Lemma write_run copyin src n (Hbytes : ∀ a c, copyin a = Some c → 0 <= c < 256) k : ∀ st l i hand,
  shows_ld st l → (∀ c, hand = Some c → 0 <= c < 256) → Z.to_nat (n - i) = k →
  ∃ r st' l' sent rest, loop (S k) (consolewrite_body copyin src n) (i, hand) st = Ok (r, st') ∧ shows_ld st' l' ∧
    com l' = com l ∧ ed l' = ed l ∧ d_thr st' ++ pend l' = d_thr st ++ pend l ++ sent ∧
    to_send copyin src i hand k = sent ++ rest ∧ wrote r i sent rest l'.
Proof.
  induction k as [|k IH]; intros st l i hand H Hh Hk; rewrite loop_S.
  - exists (WrDone i), st, l, [], []. rewrite app_nil_r. split_and!; try done; [|cbn [wrote length]; split; [done|lia]].
    rewrite (bind_ok _ _ _ (inr (WrDone i)) st); [done|]. unfold consolewrite_body. by rewrite (proj2 (Z.ltb_ge i n)) by lia.
  - cbn [to_send]. assert (Hlt : (i <? n) = true) by (apply Z.ltb_lt; lia).
    destruct (match hand with Some c => Some c | None => copyin (src + i) end) as [c|] eqn:Ec.
    2: { exists (WrDone i), st, l, [], []. rewrite app_nil_r. split_and!; try done; [|cbn [wrote length]; split; [done|lia]].
      rewrite (bind_ok _ _ _ (inr (WrDone i)) st); [done|]. unfold consolewrite_body. by rewrite Hlt, Ec. }
    assert (Hc : 0 <= c < 256) by (destruct hand as [c0|]; [injection Ec as <-; by apply Hh|by eapply Hbytes]).
    pose proof (uartputc_run c st l H Hc) as Hp. destruct (decide _) as [E|E].
    + exists (WrSleep i c), st, l, [], (c :: to_send copyin src (i + 1) None k). rewrite app_nil_r.
      split_and!; try done; [|cbn [wrote length head]; rewrite E; split_and!; [lia|done|done]]. rewrite (bind_ok _ _ _ (inr (WrSleep i c)) st); [done|].
      unfold consolewrite_body. rewrite Hlt, Ec. cbn [negb]. by rewrite (bind_ok _ _ _ _ _ Hp).
    + destruct Hp as (st1 & Hr1 & H1 & Ht1 & _). set (j := idle_count _ _) in *.
      destruct (IH st1 _ (i + 1) None H1 ltac:(done) ltac:(lia)) as (r & st' & l' & sent & rest & Hr & Hs & Hcom & Hed & Ht & Hto & Hw).
      exists r, st', l', (c :: sent), rest. split_and!; [|done|done|done| |by rewrite Hto|].
      * rewrite (bind_ok _ _ _ (inl (i + 1, None)) st1); [done|].
        unfold consolewrite_body. rewrite Hlt, Ec. cbn [negb]. by rewrite (bind_ok _ _ _ _ _ Hr1).
      * rewrite Ht. cbn [pend]. rewrite Ht1, <- app_assoc. f_equal. rewrite app_assoc, take_drop. by rewrite <- app_assoc.
      * destruct r as [ret|m d]; cbn [wrote length] in *; destruct Hw as (Hw1 & Hw2); split_and!; try done; try lia; by destruct Hw2.
Qed.


(** ** An instance: a line is typed with a mistake in it and read *)

Definition con0 : con := Con (replicate 128 0) (2 ^ 32 - 3) (2 ^ 32 - 3) (2 ^ 32 - 3) (replicate 32 0) 0 0 [true] [108; 120; 8; 115; 13] [] 0 0.

Lemma con0_shows : shows_ld con0 (Ld [] [] []).
Proof. split; cbn [com ed pend app]; [by apply ring_nil|done|done|done|apply not_elem_of_nil|by apply ring_nil|done|done]. Qed.

