(* ===== verification/Printf.v ===== *)
(** Formatted output: [printint], [printptr] and [printf] of the kernel
    (kernel/printf.c), which print through [consputc], and those of user programs
    (user/printf.c), which print through [write].

    The variable arguments are the 64-bit slots they are passed in.  [strings p] is the
    memory from the address [p] on.

    What formatted output prints: numerals of the numbers, texts of the strings, in
    the places the format gives them. *)

From S2P Require Import Prelude Str Console.

Definition c_minus : Z := 45.
Definition c_percent : Z := 37.
Definition c_0 : Z := 48.
Definition c_x : Z := 120.
Definition c_c : Z := 99.
Definition c_d : Z := 100.
Definition c_l : Z := 108.
Definition c_p : Z := 112.
Definition c_s : Z := 115.

(** "(null)" *)
Definition null_text : list Z := [40; 110; 117; 108; 108; 41].

(** "0123456789abcdef" *)
Definition digits : list Z := [48; 49; 50; 51; 52; 53; 54; 55; 56; 57; 97; 98; 99; 100; 101; 102].

(** [buf[i++] = c] on [char buf[16]], of which [buf] are the first [i]. *)
Definition push {S} (c : Z) (buf : list Z) : M S (list Z) :=
  if (length buf <? 16)%nat then mret (buf ++ [c]) else wild (Z.of_nat (length buf)).

(** [digits[i]] *)
Definition digit {S} (dg : list Z) (i : Z) : M S Z :=
  match dg !! Z.to_nat i with Some c => mret c | None => wild i end.

(** The [do] loop of [printint], the same in the kernel and in user programs. *)
Definition digits_body {S} (dg : list Z) (base : Z) '((x, buf) : Z * list Z) : M S (Z * list Z + list Z) :=
  c ← digit dg (x mod base);
  buf ← push c buf;
  let x := x / base in
  if negb (x =? 0) then mret (inl (x, buf)) else mret (inr buf).

(** [va_arg(ap, ...)]: the next slot and the rest. *)
Definition va_arg {S} (ap : list Z) : M S (Z * list Z) :=
  match ap with v :: ap => mret (v, ap) | [] => wild 0 end.

(** ** kernel/printf.c *)

Definition printint (xx base : Z) (sign : bool) : M con unit :=
  let sign := sign && (xx <? 0) in
  let x := if sign then w32 (- xx) else w32 xx in
  buf ← loop 33 (digits_body digits base) (x, []);
  buf ← (if sign then push c_minus buf else mret buf);
  for_each (reverse buf) consputc.

Definition printptr (x : Z) : M con unit :=
  consputc c_0;; consputc c_x;;
  foldM (λ x _, c ← digit digits (Z.shiftr x 60); consputc c;; mret (w64 (Z.shiftl x 4))) x (seqZ 0 16);;
  mret tt.

Section Kernel.
Context (strings : Z → list Z).

Fixpoint printf_loop (fmt ap : list Z) : M con unit :=
  match fmt with
  | [] => mret tt
  | c :: fmt1 =>
    if c =? 0 then mret tt
    else if negb (c =? c_percent) then consputc c;; printf_loop fmt1 ap
    else
      match fmt1 with
      | [] => mret tt
      | c :: fmt2 =>
        if c =? 0 then mret tt
        else if c =? c_d then '(v, ap) ← va_arg ap; printint (i32 v) 10 true;; printf_loop fmt2 ap
        else if c =? c_x then '(v, ap) ← va_arg ap; printint (i32 v) 16 true;; printf_loop fmt2 ap
        else if c =? c_p then '(v, ap) ← va_arg ap; printptr v;; printf_loop fmt2 ap
        else if c =? c_s then
          '(v, ap) ← va_arg ap;
          for_each (if v =? 0 then null_text else cstr (strings v)) consputc;; printf_loop fmt2 ap
        else if c =? c_percent then consputc c_percent;; printf_loop fmt2 ap
        else consputc c_percent;; consputc c;; printf_loop fmt2 ap
      end
  end.

(** [printf]; None is the null pointer. *)
Definition printf (fmt : option (list Z)) (ap : list Z) : M con unit :=
  match fmt with None => panic "null fmt" | Some fmt => printf_loop fmt ap end.
End Kernel.

(** ** user/printf.c *)

(** "0123456789ABCDEF" *)
Definition udigits : list Z := [48; 49; 50; 51; 52; 53; 54; 55; 56; 57; 65; 66; 67; 68; 69; 70].

(** The characters written so far, each with its descriptor. *)
Definition out : Type := list (Z * Z).

Definition putc (fd c : Z) : M out unit := modify (λ o, o ++ [(fd, w8 c)]).

Definition uprintint (fd xx base : Z) (sgn : bool) : M out unit :=
  let neg := sgn && (xx <? 0) in
  let x := if neg then w32 (- xx) else w32 xx in
  buf ← loop 33 (digits_body udigits base) (x, []);
  buf ← (if neg then push c_minus buf else mret buf);
  for_each (reverse buf) (putc fd).

Definition uprintptr (fd x : Z) : M out unit :=
  putc fd c_0;; putc fd c_x;;
  foldM (λ x _, c ← digit udigits (Z.shiftr x 60); putc fd c;; mret (w64 (Z.shiftl x 4))) x (seqZ 0 16);;
  mret tt.

Section User.
Context (strings : Z → list Z).

(** The loop of [vprintf]; [st] is whether [state] is '%'. *)
Fixpoint vprintf_loop (fd : Z) (fmt : list Z) (st : bool) (ap : list Z) : M out unit :=
  match fmt with
  | [] => mret tt
  | c :: fmt =>
    if c =? 0 then mret tt
    else if negb st then
      if c =? c_percent then vprintf_loop fd fmt true ap else putc fd c;; vprintf_loop fd fmt false ap
    else if c =? c_d then '(v, ap) ← va_arg ap; uprintint fd (i32 v) 10 true;; vprintf_loop fd fmt false ap
    else if c =? c_l then '(v, ap) ← va_arg ap; uprintint fd (i32 v) 10 false;; vprintf_loop fd fmt false ap
    else if c =? c_x then '(v, ap) ← va_arg ap; uprintint fd (i32 v) 16 false;; vprintf_loop fd fmt false ap
    else if c =? c_p then '(v, ap) ← va_arg ap; uprintptr fd v;; vprintf_loop fd fmt false ap
    else if c =? c_s then
      '(v, ap) ← va_arg ap;
      for_each (if v =? 0 then null_text else cstr (strings v)) (putc fd);; vprintf_loop fd fmt false ap
    else if c =? c_c then '(v, ap) ← va_arg ap; putc fd (w32 v);; vprintf_loop fd fmt false ap
    else if c =? c_percent then putc fd c;; vprintf_loop fd fmt false ap
    else putc fd c_percent;; putc fd c;; vprintf_loop fd fmt false ap
  end.

Definition vprintf (fd : Z) (fmt ap : list Z) : M out unit := vprintf_loop fd fmt false ap.
Definition fprintf (fd : Z) (fmt ap : list Z) : M out unit := vprintf fd fmt ap.
Definition uprintf (fmt ap : list Z) : M out unit := vprintf 1 fmt ap.
End User.

(** ** user/ulib.c *)

Fixpoint atoi_loop (s : list Z) (n : Z) : Z :=
  match s with
  | c :: s => if (c_0 <=? c) && (c <=? 57) then atoi_loop s (i32 (n * 10 + c - c_0)) else n
  | [] => n
  end.
Definition atoi (s : list Z) : Z := atoi_loop s 0.

(** ** Printing as appending to what is printed *)

Class Sink (S : Type) := {
  sink : S → list Z → S;
  sink_nil s : sink s [] = s;
  sink_app s a b : sink (sink s a) b = sink s (a ++ b) }.

(** [m] prints [t], whatever was printed before, and does nothing else. *)
Definition emits {S} (K : Sink S) (m : M S unit) (t : list Z) : Prop := ∀ s, m s = Ok (tt, sink s t).

Section Emits.
Context {S : Type} (K : Sink S).

Lemma emits_ret : emits K (mret tt) [].
Proof. intros s. by rewrite sink_nil. Qed.

Lemma emits_seq m1 m2 t1 t2 : emits K m1 t1 → emits K m2 t2 → emits K (m1;; m2) (t1 ++ t2).
Proof. intros H1 H2 s. by rewrite (bind_ok _ _ _ _ _ (H1 s)), H2, sink_app. Qed.

Lemma emits_val {A} (m : M S A) (a : A) f t : (∀ s, m s = Ok (a, s)) → emits K (f a) t → emits K (m ≫= f) t.
Proof. intros Hm Hf s. by rewrite (bind_ok _ _ _ _ _ (Hm s)). Qed.

Lemma emits_for_each f l : Forall (λ c, emits K (f c) [c]) l → emits K (for_each l f) l.
Proof.
  induction 1 as [|c l Hc _ IH]; [apply emits_ret|]. cbn [for_each]. change (c :: l) with ([c] ++ l). by apply emits_seq.
Qed.
End Emits.

#[export] Instance con_sink : Sink con.
Proof.
  refine {| sink st t := set_dev (d_idle st) (d_rx st) (d_thr st ++ t) st |}.
  - intros []. unfold set_dev. cbn. by rewrite app_nil_r.
  - intros [] a b. unfold set_dev. cbn. by rewrite <- app_assoc.
Defined.

Definition out_sink (fd : Z) : Sink out.
Proof.
  refine {| sink (o : out) t := o ++ (pair fd <$> t) |}.
  - intros o. apply app_nil_r.
  - intros o a b. by rewrite fmap_app, app_assoc.
Defined.

Definition is_char (c : Z) : Prop := 0 <= c < 256.

Lemma consputc_emits c : is_char c → emits con_sink (consputc c) [c].
Proof.
  intros Hc st. unfold consputc, BACKSPACE. rewrite (proj2 (Z.eqb_neq _ _)) by (unfold is_char in Hc; lia).
  unfold uartputc_sync, write_thr, w8. by rewrite Z.mod_small.
Qed.

Lemma putc_emits fd c : is_char c → emits (out_sink fd) (putc fd c) [c].
Proof. intros Hc o. unfold putc, w8. by rewrite Z.mod_small. Qed.

(** ** Numerals *)

(** The number with digits [ds], the first the most significant. *)
Definition numval (b : Z) (ds : list Z) : Z := fold_left (λ n d, n * b + d) ds 0.

Definition digit_char (dg : list Z) (d : Z) : Z := default 0 (dg !! Z.to_nat d).

(** [t] is [z] written in base [b]: a minus sign if it is negative, then its digits,
    the first of which is not zero unless it is the only one. *)
Definition numeral (dg : list Z) (b : Z) (t : list Z) (z : Z) : Prop :=
  ∃ ds, t = (if z <? 0 then [c_minus] else []) ++ (digit_char dg <$> ds) ∧ Forall (λ d, 0 <= d < b) ds ∧
    numval b ds = Z.abs z ∧ ds ≠ [] ∧ (head ds = Some 0 → ds = [0]).

(** [t] is the 64-bit number [x] as an address: 0x and sixteen hexadecimal digits. *)
Definition address (dg : list Z) (t : list Z) (x : Z) : Prop :=
  ∃ ds, t = [c_0; c_x] ++ (digit_char dg <$> ds) ∧ Forall (λ d, 0 <= d < 16) ds ∧ length ds = 16%nat ∧ numval 16 ds = x.

Lemma numval_snoc b ds d : numval b (ds ++ [d]) = numval b ds * b + d.
Proof. unfold numval. by rewrite fold_left_app. Qed.

Lemma numval_from b ds a : fold_left (λ n d, n * b + d) ds a = a * b ^ Z.of_nat (length ds) + numval b ds.
Proof.
  unfold numval. revert a. induction ds as [|d ds IH]; intros a; [cbn; rewrite Z.pow_0_r; lia|]. cbn [fold_left length].
  rewrite IH, (IH (0 * b + d)), Nat2Z.inj_succ, Z.pow_succ_r by lia. lia.
Qed.

Lemma numval_cons b d ds : numval b (d :: ds) = d * b ^ Z.of_nat (length ds) + numval b ds.
Proof. unfold numval at 1. cbn [fold_left]. by rewrite numval_from, Z.mul_0_l, Z.add_0_l. Qed.

Definition good_digits (dg : list Z) : Prop := length dg = 16%nat ∧ Forall is_char dg.

Lemma digit_run {S} dg d (s : S) : good_digits dg → 0 <= d < 16 → digit dg d s = Ok (digit_char dg d, s).
Proof.
  intros [Hl _] Hd. unfold digit, digit_char. destruct (lookup_lt_is_Some_2 dg (Z.to_nat d)) as [c ->]; [lia|done].
Qed.

Lemma digit_is_char dg d : good_digits dg → 0 <= d < 16 → is_char (digit_char dg d).
Proof.
  intros [Hl Hd] Hr. unfold digit_char. destruct (lookup_lt_is_Some_2 dg (Z.to_nat d)) as [c Hc]; [lia|]. rewrite Hc. cbn.
  by eapply list.Forall_lookup_1 in Hc.
Qed.

Lemma digits_round {S} dg b x buf (s : S) : good_digits dg → 2 <= b <= 16 → (length buf < 16)%nat →
  digits_body dg b (x, buf) s = Ok (if negb (x / b =? 0) then inl (x / b, buf ++ [digit_char dg (x mod b)]) else inr (buf ++ [digit_char dg (x mod b)]), s).
Proof.
  intros Hdg Hb Hbuf. unfold digits_body. pose proof (Z.mod_pos_bound x b ltac:(lia)).
  rewrite (bind_ok _ _ _ _ _ (digit_run dg (x mod b) s Hdg ltac:(lia))). unfold push.
  rewrite (proj2 (Nat.ltb_lt _ _)) by done. rewrite (bind_ok _ _ _ (buf ++ [digit_char dg (x mod b)]) s) by done.
  by destruct (negb _).
Qed.

Lemma digits_run {S} dg b : good_digits dg → 2 <= b <= 16 → ∀ k x buf fuel, 0 <= x < b ^ Z.of_nat k → (1 <= k)%nat →
  (length buf + k <= 16)%nat → (k <= fuel)%nat →
  ∃ ds : list Z, (∀ s : S, loop fuel (digits_body dg b) (x, buf) s = Ok (buf ++ (digit_char dg <$> ds), s)) ∧ Forall (λ d, 0 <= d < b) ds ∧
    numval b (reverse ds) = x ∧ ds ≠ [] ∧ (length ds <= k)%nat ∧ (head (reverse ds) = Some 0 → ds = [0]).
Proof.
  intros Hdg Hb k. induction k as [|k IH]; intros x buf fuel Hx Hk Hbuf Hf; [lia|]. destruct fuel as [|fuel]; [lia|].
  pose proof (λ s : S, digits_round dg b x buf s Hdg Hb ltac:(lia)) as Hround. pose proof (Z.mod_pos_bound x b ltac:(lia)) as Hm.
  pose proof (Z.div_mod x b ltac:(lia)) as Hdm. destruct (Z.eqb_spec (x / b) 0) as [E|E]; cbn [negb] in Hround.
  - exists [x mod b]. split_and!; [intros s; by rewrite loop_S, (bind_ok _ _ _ _ _ (Hround s))|by constructor| |done|simpl; lia|cbn; by intros [= ->]]. cbn. lia.
  - rewrite Nat2Z.inj_succ, Z.pow_succ_r in Hx by lia.
    assert (Hq : 0 <= x / b < b ^ Z.of_nat k) by (split; [apply Z.div_pos; lia|apply Z.div_lt_upper_bound; lia]).
    assert (Hk1 : (1 <= k)%nat) by (destruct k; [rewrite Z.pow_0_r in Hq; lia|lia]).
    destruct (IH (x / b) (buf ++ [digit_char dg (x mod b)]) fuel Hq Hk1 ltac:(rewrite length_app; simpl; lia) ltac:(lia))
      as (ds & Hr & Hds & Hv & Hne & Hl & Hlast).
    exists (x mod b :: ds). split_and!; [|by constructor| |done|simpl; lia|].
    + intros s. by rewrite loop_S, (bind_ok _ _ _ _ _ (Hround s)), Hr, <- app_assoc.
    + rewrite reverse_cons, numval_snoc, Hv. lia.
    + rewrite reverse_cons. destruct (reverse ds) as [|d rs] eqn:Er; [by apply (f_equal reverse) in Er; rewrite reverse_involutive in Er|].
      cbn [app head]. intros [= ->]. specialize (Hlast eq_refl). subst ds. change (reverse [0]) with [0] in Er. injection Er as <-. cbn in Hv. lia.
Qed.

(** ** The three printers *)

(** Both versions of [printint] on a number [xx] of type [int]. *)
Section Printint.
Context {S : Type} (K : Sink S) (put : Z → M S unit) (Hput : ∀ c, is_char c → emits K (put c) [c]).
Context (dg : list Z) (Hdg : good_digits dg).

Definition print_digits (xx base : Z) (sign : bool) : M S unit :=
  let sign := sign && (xx <? 0) in
  let x := if sign then w32 (- xx) else w32 xx in
  buf ← loop 33 (digits_body dg base) (x, []);
  buf ← (if sign then push c_minus buf else mret buf);
  for_each (reverse buf) put.

Lemma chars_emit ds : Forall (λ d, 0 <= d < 16) ds → Forall (λ c, emits K (put c) [c]) (digit_char dg <$> ds).
Proof. intros H. apply list.Forall_fmap. eapply list.Forall_impl; [exact H|]. intros d Hd. by apply Hput, digit_is_char. Qed.

Lemma print_digits_emits xx base sign : base = 10 ∨ base = 16 → -2 ^ 31 <= xx < 2 ^ 31 →
  ∃ t, emits K (print_digits xx base sign) t ∧ numeral dg base t (if sign then xx else w32 xx).
Proof.
  intros Hb Hxx. unfold print_digits. cbv zeta. set (neg := sign && (xx <? 0)).
  set (x := if neg then w32 (- xx) else w32 xx).
  assert (Hx : 0 <= x < 2 ^ 32) by (unfold x, w32; destruct neg; apply Z.mod_pos_bound; lia).
  assert (Hz : x = Z.abs (if sign then xx else w32 xx) ∧ neg = ((if sign then xx else w32 xx) <? 0)).
  { subst x neg. unfold w32 in *. destruct sign; cbn [andb].
    - destruct (Z.ltb_spec xx 0); [rewrite Z.mod_small by lia; lia|rewrite Z.mod_small by lia; lia].
    - pose proof (Z.mod_pos_bound xx (2 ^ 32) ltac:(lia)). split; [lia|]. symmetry. apply Z.ltb_ge. lia. }
  destruct Hz as [Hz Hneg].
  assert (Hx10 : 0 <= x < base ^ Z.of_nat 10) by (destruct Hb as [-> | ->]; change (10 ^ Z.of_nat 10) with 10000000000; change (16 ^ Z.of_nat 10) with 1099511627776; lia).
  destruct (digits_run (S := S) dg base Hdg ltac:(lia) 10 x [] 33 Hx10 ltac:(lia) ltac:(simpl; lia) ltac:(lia))
    as (ds & Hr & Hds & Hv & Hne & Hl & Hlast). cbn [app] in Hr.
  assert (Hds16 : Forall (λ d, 0 <= d < 16) (reverse ds)) by (apply Forall_reverse; eapply list.Forall_impl; [exact Hds|]; cbn; lia).
  exists ((if neg then [c_minus] else []) ++ (digit_char dg <$> reverse ds)). split.
  - eapply emits_val; [exact Hr|]. set (cs := digit_char dg <$> ds).
    apply (emits_val _ _ (cs ++ if neg then [c_minus] else [])).
    + intros s. destruct neg; [|by rewrite app_nil_r]. unfold push. rewrite (proj2 (Nat.ltb_lt _ _)); [done|]. unfold cs. rewrite length_fmap. lia.
    + rewrite reverse_app. unfold cs. rewrite <- fmap_reverse. replace (reverse (if neg then [c_minus] else [])) with (if neg then [c_minus] else []) by by destruct neg.
      apply emits_for_each, Forall_app. split; [|by apply chars_emit]. destruct neg; [|constructor].
      constructor; [|constructor]. apply Hput. unfold is_char, c_minus. lia.
  - exists (reverse ds). rewrite <- Hneg, <- Hz. split_and!; [done|by apply Forall_reverse|done| |].
    + intros E. apply Hne. by rewrite <- (reverse_involutive ds), E.
    + intros E. by rewrite Hlast.
Qed.

(** Both versions of [printptr]. *)
Definition print_address (x : Z) : M S unit :=
  put c_0;; put c_x;;
  foldM (λ x _, c ← digit dg (Z.shiftr x 60); put c;; mret (w64 (Z.shiftl x 4))) x (seqZ 0 16);;
  mret tt.

(** The top digit and the digits below it. *)
Lemma top_digit x k : 0 <= x < 2 ^ 64 → 0 <= k <= 15 →
  x / 2 ^ (60 - 4 * k) = x / 2 ^ 60 * 16 ^ k + w64 (x * 2 ^ 4) / 2 ^ (64 - 4 * k).
Proof.
  intros Hx Hk. pose proof (Z.div_mod x (2 ^ 60) ltac:(lia)) as Hd. set (q := x / 2 ^ 60) in *. set (r := x mod 2 ^ 60) in *.
  pose proof (Z.mod_pos_bound x (2 ^ 60) ltac:(lia)) as Hr. fold r in Hr.
  assert (Hw : w64 (x * 2 ^ 4) = r * 2 ^ 4).
  { unfold w64. replace (x * 2 ^ 4) with (r * 2 ^ 4 + q * 2 ^ 64) by lia. rewrite Z.mod_add by lia. apply Z.mod_small. lia. }
  rewrite Hw. replace (64 - 4 * k) with ((60 - 4 * k) + 4) by lia. rewrite Z.pow_add_r by lia.
  assert (Hp : 0 < 2 ^ (60 - 4 * k)) by (apply Z.pow_pos_nonneg; lia).
  rewrite Z.div_mul_cancel_r by lia. rewrite <- Z.div_add_l by lia. f_equal.
  replace (q * 16 ^ k * 2 ^ (60 - 4 * k)) with (q * 2 ^ 60); [lia|]. change 16 with (2 ^ 4). rewrite <- Z.pow_mul_r by lia.
  rewrite <- Z.mul_assoc, <- Z.pow_add_r by lia. do 2 f_equal. lia.
Qed.

Lemma address_run : ∀ (l : list Z) x, 0 <= x < 2 ^ 64 → (length l <= 16)%nat → ∃ ds x',
  (∀ s, foldM (λ x _, c ← digit dg (Z.shiftr x 60); put c;; mret (w64 (Z.shiftl x 4))) x l s = Ok (x', sink s (digit_char dg <$> ds))) ∧
  Forall (λ d, 0 <= d < 16) ds ∧ length ds = length l ∧ numval 16 ds = x / 2 ^ (64 - 4 * Z.of_nat (length l)).
Proof.
  induction l as [|i l IH]; intros x Hx Hl.
  - exists [], x. split_and!; [intros s; by rewrite sink_nil|done|done|]. change (64 - 4 * Z.of_nat (length (@nil Z))) with 64.
    by rewrite Z.div_small.
  - cbn [length] in *. destruct (IH (w64 (Z.shiftl x 4)) ltac:(apply Z.mod_pos_bound; lia) ltac:(lia)) as (ds & x' & Hr & Hds & Hlen & Hv).
    assert (Hd : 0 <= Z.shiftr x 60 < 16) by (rewrite Z.shiftr_div_pow2 by lia; split; [apply Z.div_pos; lia|apply Z.div_lt_upper_bound; lia]).
    exists (Z.shiftr x 60 :: ds), x'. split_and!; [|by constructor|by rewrite <- Hlen|].
    + intros s. cbn [foldM]. rewrite (bind_ok _ _ _ (w64 (Z.shiftl x 4)) (sink s [digit_char dg (Z.shiftr x 60)])).
      * rewrite Hr, sink_app. done.
      * rewrite (bind_ok _ _ _ _ _ (digit_run dg _ s Hdg Hd)). by rewrite (bind_ok _ _ _ _ _ (Hput _ (digit_is_char dg _ Hdg Hd) s)).
    + rewrite numval_cons, Hlen, Hv, Z.shiftr_div_pow2, Z.shiftl_mul_pow2 by lia. rewrite <- top_digit by lia. do 2 f_equal. lia.
Qed.

Lemma print_address_emits x : 0 <= x < 2 ^ 64 → ∃ t, emits K (print_address x) t ∧ address dg t x.
Proof.
  intros Hx. destruct (address_run (seqZ 0 16) x Hx ltac:(done)) as (ds & x' & Hr & Hds & Hl & Hv).
  exists ([c_0; c_x] ++ (digit_char dg <$> ds)). split.
  - unfold print_address. change ([c_0; c_x] ++ (digit_char dg <$> ds)) with ([c_0] ++ [c_x] ++ (digit_char dg <$> ds)).
    apply emits_seq; [by apply Hput|]. apply emits_seq; [by apply Hput|]. intros s. by rewrite (bind_ok _ _ _ _ _ (Hr s)).
  - exists ds. split_and!; [done|done|by rewrite Hl|]. rewrite Hv. cbn [length seqZ]. rewrite length_seqZ. change (64 - 4 * Z.of_nat (Z.to_nat 16)) with 0. by rewrite Z.div_1_r.
Qed.
End Printint.

Lemma i32_bounds v : -2 ^ 31 <= i32 v < 2 ^ 31.
Proof. unfold i32. pose proof (Z.mod_pos_bound (v + 2 ^ 31) (2 ^ 32) ltac:(lia)). lia. Qed.

Lemma w32_of_i32 v : w32 (i32 v) = w32 v.
Proof.
  unfold w32, i32. rewrite Zminus_mod_idemp_l. f_equal. lia.
Qed.

Lemma digits_good : good_digits digits.
Proof. split; [done|]. repeat constructor; done. Qed.

Lemma udigits_good : good_digits udigits.
Proof. split; [done|]. repeat constructor; done. Qed.

(** ** Formats *)

(** The pieces a format string is made of, with the arguments they take. *)
Inductive piece :=
| Lit (c : Z) | Dec (v : Z) | Hex (v : Z) | Ptr (v : Z) | Text (p : Z)
| Long (v : Z) | Chr (v : Z) | Percent | Other (c : Z).

Definition fmt_of (p : piece) : list Z :=
  match p with
  | Lit c => [c]
  | Dec _ => [c_percent; c_d] | Hex _ => [c_percent; c_x] | Ptr _ => [c_percent; c_p] | Text _ => [c_percent; c_s]
  | Long _ => [c_percent; c_l] | Chr _ => [c_percent; c_c] | Percent => [c_percent; c_percent] | Other c => [c_percent; c]
  end.

Definition arg_of (p : piece) : list Z :=
  match p with Dec v | Hex v | Ptr v | Text v | Long v | Chr v => [v] | _ => [] end.

Section Prints.
Context (strings : Z → list Z) (Hstrings : ∀ p, Forall is_char (strings p)).

(** What the kernel prints for a piece ([%x] is signed, like [%d]) ... *)
Definition kprints (p : piece) (t : list Z) : Prop :=
  match p with
  | Lit c => t = [c]
  | Dec v => numeral digits 10 t (i32 v)
  | Hex v => numeral digits 16 t (i32 v)
  | Ptr v => address digits t v
  | Text a => t = if a =? 0 then null_text else cstr (strings a)
  | Percent => t = [c_percent]
  | Other c => t = [c_percent; c]
  | _ => False
  end.

Definition kpiece (p : piece) : Prop :=
  match p with
  | Lit c => 0 < c < 256 ∧ c ≠ c_percent
  | Ptr v => 0 <= v < 2 ^ 64
  | Other c => 0 < c < 256 ∧ c ∉ [c_percent; c_d; c_x; c_p; c_s]
  | Long _ | Chr _ => False
  | _ => True
  end.

(** ... and what user programs print ([%x] and [%l] are unsigned, and [%l] takes the
    low 32 bits only). *)
Definition uprints (p : piece) (t : list Z) : Prop :=
  match p with
  | Lit c => t = [c]
  | Dec v => numeral udigits 10 t (i32 v)
  | Hex v => numeral udigits 16 t (w32 v)
  | Ptr v => address udigits t v
  | Text a => t = if a =? 0 then null_text else cstr (strings a)
  | Long v => numeral udigits 10 t (w32 v)
  | Chr v => t = [w8 v]
  | Percent => t = [c_percent]
  | Other c => t = [c_percent; c]
  end.

Definition upiece (p : piece) : Prop :=
  match p with
  | Lit c => 0 < c < 256 ∧ c ≠ c_percent
  | Ptr v => 0 <= v < 2 ^ 64
  | Other c => 0 < c < 256 ∧ c ∉ [c_percent; c_d; c_x; c_p; c_s; c_l; c_c]
  | _ => True
  end.

Lemma cstr_chars s : Forall is_char s → Forall is_char (cstr s).
Proof. induction 1 as [|c s Hc _ IH]; [constructor|]. cbn [cstr]. destruct (truth c); by constructor. Qed.

Lemma text_chars a : Forall is_char (if a =? 0 then null_text else cstr (strings a)).
Proof. destruct (a =? 0); [repeat constructor; done|]. by apply cstr_chars. Qed.

Lemma put_text {S} (K : Sink S) put t : (∀ c, is_char c → emits K (put c) [c]) → Forall is_char t → emits K (for_each t put) t.
Proof. intros Hput Ht. apply emits_for_each. eapply list.Forall_impl; [exact Ht|]. by apply Hput. Qed.

(** One piece of a kernel format. *)
Lemma kpiece_emits p rest ap t2 : kpiece p → emits con_sink (printf_loop strings rest ap) t2 →
  ∃ t, kprints p t ∧ emits con_sink (printf_loop strings (fmt_of p ++ rest) (arg_of p ++ ap)) (t ++ t2).
Proof.
  intros Hp Hrest.
  assert (Hval : ∀ v (f : Z → M con unit) t, emits con_sink (f v) t →
    emits con_sink ('(v, ap) ← va_arg (v :: ap); f v;; printf_loop strings rest ap) (t ++ t2)).
  { intros v f t Hf. eapply emits_val; [done|]. by apply emits_seq. }
  destruct p as [c|v|v|v|a|v|v| |c]; cbn [kpiece fmt_of arg_of app] in *; try done.
  - destruct Hp as [Hc Hne]. exists [c]. split; [done|]. cbn [printf_loop]. rewrite !(proj2 (Z.eqb_neq _ _)) by lia.
    apply emits_seq; [|done]. apply consputc_emits. unfold is_char. lia.
  - destruct (print_digits_emits con_sink consputc consputc_emits digits digits_good (i32 v) 10 true ltac:(by left) (i32_bounds v)) as (t & Ht & Hn).
    exists t. split; [exact Hn|]. by apply (Hval v (λ v, printint (i32 v) 10 true)).
  - destruct (print_digits_emits con_sink consputc consputc_emits digits digits_good (i32 v) 16 true ltac:(by right) (i32_bounds v)) as (t & Ht & Hn).
    exists t. split; [exact Hn|]. by apply (Hval v (λ v, printint (i32 v) 16 true)).
  - destruct (print_address_emits con_sink consputc consputc_emits digits digits_good v Hp) as (t & Ht & Hn).
    exists t. split; [exact Hn|]. by apply (Hval v printptr).
  - eexists. split; [done|]. apply (Hval a (λ v, for_each (if v =? 0 then null_text else cstr (strings v)) consputc)).
    apply put_text; [apply consputc_emits|apply text_chars].
  - exists [c_percent]. split; [done|]. apply emits_seq; [|done]. by apply consputc_emits.
  - destruct Hp as [Hc Hne]. exists [c_percent; c]. split; [done|]. cbn [printf_loop]. change (c_percent =? 0) with false. change (c_percent =? c_percent) with true. cbn [negb].
    rewrite !not_elem_of_cons in Hne. rewrite !(proj2 (Z.eqb_neq c _)) by (lia || tauto).
    change ([c_percent; c] ++ t2) with ([c_percent] ++ [c] ++ t2). apply emits_seq; [by apply consputc_emits|].
    apply emits_seq; [|done]. apply consputc_emits. unfold is_char. lia.
Qed.

(** One piece of a user format. *)
Lemma upiece_emits fd p rest ap t2 : upiece p → emits (out_sink fd) (vprintf_loop strings fd rest false ap) t2 →
  ∃ t, uprints p t ∧ emits (out_sink fd) (vprintf_loop strings fd (fmt_of p ++ rest) false (arg_of p ++ ap)) (t ++ t2).
Proof.
  intros Hp Hrest.
  assert (Hval : ∀ v (f : Z → M out unit) t, emits (out_sink fd) (f v) t →
    emits (out_sink fd) ('(v, ap) ← va_arg (v :: ap); f v;; vprintf_loop strings fd rest false ap) (t ++ t2)).
  { intros v f t Hf. eapply emits_val; [done|]. by apply emits_seq. }
  pose proof (λ v b sg Hb, print_digits_emits (out_sink fd) (putc fd) (putc_emits fd) udigits udigits_good (i32 v) b sg Hb (i32_bounds v)) as Hint.
  destruct p as [c|v|v|v|a|v|v| |c]; cbn [upiece fmt_of arg_of app] in *; try done.
  - destruct Hp as [Hc Hne]. exists [c]. split; [done|]. cbn [vprintf_loop]. rewrite !(proj2 (Z.eqb_neq _ _)) by lia.
    apply emits_seq; [|done]. apply putc_emits. unfold is_char. lia.
  - destruct (Hint v 10 true ltac:(by left)) as (t & Ht & Hn). exists t. split; [exact Hn|]. by apply (Hval v (λ v, uprintint fd (i32 v) 10 true)).
  - destruct (Hint v 16 false ltac:(by right)) as (t & Ht & Hn). exists t. rewrite w32_of_i32 in Hn. split; [exact Hn|].
    by apply (Hval v (λ v, uprintint fd (i32 v) 16 false)).
  - destruct (print_address_emits (out_sink fd) (putc fd) (putc_emits fd) udigits udigits_good v Hp) as (t & Ht & Hn).
    exists t. split; [exact Hn|]. by apply (Hval v (uprintptr fd)).
  - eexists. split; [done|]. apply (Hval a (λ v, for_each (if v =? 0 then null_text else cstr (strings v)) (putc fd))).
    apply put_text; [apply putc_emits|apply text_chars].
  - destruct (Hint v 10 false ltac:(by left)) as (t & Ht & Hn). exists t. rewrite w32_of_i32 in Hn. split; [exact Hn|].
    by apply (Hval v (λ v, uprintint fd (i32 v) 10 false)).
  - exists [w8 v]. split; [done|]. apply (Hval v (λ v, putc fd (w32 v))). intros o. unfold putc, modify. cbn.
    do 5 f_equal. unfold w8, w32. rewrite <- Znumtheory.Zmod_div_mod; [done|lia|lia|by exists (2 ^ 24)].
  - exists [c_percent]. split; [done|]. apply emits_seq; [|done]. by apply putc_emits.
  - destruct Hp as [Hc Hne]. exists [c_percent; c]. split; [done|]. cbn [vprintf_loop]. change (c_percent =? 0) with false. change (c_percent =? c_percent) with true. cbn [negb].
    rewrite !not_elem_of_cons in Hne. rewrite !(proj2 (Z.eqb_neq c _)) by (lia || tauto).
    change ([c_percent; c] ++ t2) with ([c_percent] ++ [c] ++ t2). apply emits_seq; [by apply putc_emits|].
    apply emits_seq; [|done]. apply putc_emits. unfold is_char. lia.
Qed.
End Prints.

(** A whole format, from one piece. *)
Lemma pieces_emit {S} (K : Sink S) (run : list Z → list Z → M S unit) (good : piece → Prop) (prints : piece → list Z → Prop) last :
  (∀ p rest ap t2, good p → emits K (run rest ap) t2 → ∃ t, prints p t ∧ emits K (run (fmt_of p ++ rest) (arg_of p ++ ap)) (t ++ t2)) →
  emits K (run last []) [] → ∀ ps, Forall good ps →
  ∃ ts, Forall2 prints ps ts ∧ emits K (run (concat (fmt_of <$> ps) ++ last) (concat (arg_of <$> ps))) (concat ts).
Proof.
  intros Hstep Hlast ps. induction 1 as [|p ps Hp _ (ts & Hts & IH)]; [by exists []|].
  destruct (Hstep p _ _ _ Hp IH) as (t & Ht & Hrun). exists (t :: ts). split; [by constructor|].
  cbn [fmap list_fmap concat]. by rewrite <- app_assoc.
Qed.

(** C34. The formats of [printf].  Given a format made of literal characters and
    directives (and perhaps a lone % at its end) and an argument for each directive,
    the kernel's [printf] sends to the console, and a user program's [fprintf] writes
    to the descriptor, the text of each piece in turn: numbers as numerals without
    leading zeros, minus signs where the number is negative (also for the least one),
    addresses as sixteen digits, strings as they are. *)
Theorem printf_prints strings last : (∀ p, Forall is_char (strings p)) → last = [] ∨ last = [c_percent] →
  (∀ ps, Forall kpiece ps → ∃ ts, Forall2 (kprints strings) ps ts ∧ ∀ st,
    printf strings (Some (concat (fmt_of <$> ps) ++ last)) (concat (arg_of <$> ps)) st =
    Ok (tt, set_dev (d_idle st) (d_rx st) (d_thr st ++ concat ts) st)) ∧
  (∀ fd ps, Forall upiece ps → ∃ ts, Forall2 (uprints strings) ps ts ∧ ∀ o,
    fprintf strings fd (concat (fmt_of <$> ps) ++ last) (concat (arg_of <$> ps)) o = Ok (tt, o ++ (pair fd <$> concat ts))).
Proof.
  intros Hs Hlast. split.
  - intros ps Hps. apply (pieces_emit con_sink (printf_loop strings) kpiece); [|destruct Hlast as [-> | ->]; apply emits_ret|done].
    intros p rest ap t2. by apply kpiece_emits.
  - intros fd ps Hps. apply (pieces_emit (out_sink fd) (λ fmt, vprintf_loop strings fd fmt false) upiece); [|destruct Hlast as [-> | ->]; apply (emits_ret (out_sink fd))|done].
    intros p rest ap t2. by apply upiece_emits.
Qed.

(** [printf("-%d%%", -2^31)] with the argument in its slot *)
Lemma printf_prints_witness : ∃ ts, Forall2 (uprints (λ _, [])) [Lit 45; Dec (2 ^ 64 - 2 ^ 31); Percent] ts ∧
  ∀ o, fprintf (λ _, []) 1 [45; c_percent; c_d; c_percent; c_percent] [2 ^ 64 - 2 ^ 31] o = Ok (tt, o ++ (pair 1 <$> concat ts)).
Proof.
  exact (proj2 (printf_prints (λ _, []) [] (λ _, Forall_nil_2 _) (or_introl eq_refl)) 1 [Lit 45; Dec (2 ^ 64 - 2 ^ 31); Percent]
    ltac:(repeat constructor; done)).
Defined.

(** ** Reading numbers back *)

Lemma atoi_digits ds : ∀ n, Forall (λ d, 0 <= d < 10) ds → 0 <= n →
  fold_left (λ n d, n * 10 + d) ds n < 2 ^ 31 → atoi_loop (digit_char udigits <$> ds) n = fold_left (λ n d, n * 10 + d) ds n.
Proof.
  induction ds as [|d ds IH]; intros n Hds Hn Hlt; [done|]. apply list.Forall_cons in Hds as [Hd Hds]. cbn [fmap list_fmap atoi_loop fold_left] in *.
  assert (Hc : digit_char udigits d = c_0 + d).
  { unfold digit_char. assert (Hcases : d = 0 ∨ d = 1 ∨ d = 2 ∨ d = 3 ∨ d = 4 ∨ d = 5 ∨ d = 6 ∨ d = 7 ∨ d = 8 ∨ d = 9) by lia.
    destruct_or! Hcases; by subst d. }
  rewrite Hc. unfold c_0 in *. rewrite (proj2 (Z.leb_le _ _)), (proj2 (Z.leb_le _ _)) by lia. cbn [andb].
  assert (Hle : n * 10 + d <= fold_left (λ n d, n * 10 + d) ds (n * 10 + d)).
  { rewrite numval_from. assert (Hpos : 0 <= numval 10 ds).
    { clear - Hds. unfold numval. assert (H : ∀ a, 0 <= a → 0 <= fold_left (λ n d, n * 10 + d) ds a); [|by apply H].
      induction Hds as [|d ds Hd _ IH]; intros a Ha; [done|]. cbn. apply IH. lia. }
    assert (1 <= 10 ^ Z.of_nat (length ds)) by (apply (Z.pow_le_mono_r 10 0); lia). nia. }
  replace (n * 10 + (48 + d) - 48) with (n * 10 + d) by lia.
  replace (i32 (n * 10 + d)) with (n * 10 + d) by (unfold i32; rewrite Z.mod_small by lia; lia). apply IH; [done|lia|done].
Qed.

(** [atoi] reads back what [%d] prints, for every number that is not negative. *)
Lemma atoi_printint fd x : 0 <= x < 2 ^ 31 →
  ∃ t, (∀ o, uprintint fd x 10 true o = Ok (tt, o ++ (pair fd <$> t))) ∧ atoi t = x.
Proof.
  intros Hx. destruct (print_digits_emits (out_sink fd) (putc fd) (putc_emits fd) udigits udigits_good x 10 true ltac:(by left) ltac:(lia))
    as (t & Ht & ds & -> & Hds & Hv & _). exists (digit_char udigits <$> ds). rewrite (proj2 (Z.ltb_ge x 0)) in Ht by lia. split; [exact Ht|].
  unfold atoi. unfold numval in Hv. rewrite atoi_digits; [lia|done|lia|lia].
Qed.
