(* ===== verification/UserProgs.v ===== *)
(** Small user programs: wc, cat and echo (user/wc.c, user/cat.c, user/echo.c), over the
    formatted output of user/printf.c.

    What successive calls of [read] on a descriptor return is a list; when it is used
    up, they return 0. *)

From S2P Require Import Prelude Str Sh Console Printf.

Inductive rdres := Got (bs : list Z) | ReadError.

(** " \r\t\n\v" *)
Definition wc_blanks : list Z := [32; 13; 9; 10; 11].

Record counts := Counts { wc_l : Z; wc_w : Z; wc_c : Z; inword : bool }.

(** The body of the inner loop of [wc]. *)
Definition wc_char (st : counts) (ch : Z) : counts :=
  let c := i32 (wc_c st + 1) in
  let l := if ch =? 10 then i32 (wc_l st + 1) else wc_l st in
  if strchr wc_blanks ch then Counts l (wc_w st) c false
  else if negb (inword st) then Counts l (i32 (wc_w st + 1)) c true
  else Counts l (wc_w st) c (inword st).

(** The outer loop; None on a read error. *)
Fixpoint wc_loop (rs : list rdres) (st : counts) : option counts :=
  match rs with
  | [] | Got [] :: _ => Some st
  | ReadError :: _ => None
  | Got bs :: rs => wc_loop rs (fold_left wc_char bs st)
  end.

(** "wc: read error\n" and "%d %d %d %s\n" *)
Definition wc_error : list Z := [119; 99; 58; 32; 114; 101; 97; 100; 32; 101; 114; 114; 111; 114; 10].
Definition wc_fmt : list Z := [37; 100; 32; 37; 100; 32; 37; 100; 32; 37; 115; 10].

Section Programs.
Context (strings : Z → list Z).

(** [wc(fd, name)] *)
Definition wc (rs : list rdres) (name : Z) : M out unit :=
  match wc_loop rs (Counts 0 0 0 false) with
  | None => uprintf strings wc_error [];; exits 1
  | Some st => uprintf strings wc_fmt [w64 (wc_l st); w64 (wc_w st); w64 (wc_c st); name]
  end.

(** "wc: cannot open %s\n" *)
Definition wc_cannot : list Z := [119; 99; 58; 32; 99; 97; 110; 110; 111; 116; 32; 111; 112; 101; 110; 32; 37; 115; 10].

(** [main] of wc: each argument with what reading the file gives, or None if it cannot
    be opened; [stdin] is what reading descriptor 0 gives and [empty] the address of "". *)
Definition wc_main (args : list (Z * option (list rdres))) (stdin : list rdres) (empty : Z) : M out unit :=
  match args with
  | [] => wc stdin empty;; exits 0
  | _ =>
    for_each args (λ '(name, file),
      match file with
      | None => uprintf strings wc_cannot [name];; exits 1
      | Some rs => wc rs name
      end);;
    exits 0
  end.

(** ** cat *)

(** [write(1, buf, n)], of which the first [k] characters are written, or an error. *)
Definition write1 (bs : list Z) (k : option nat) : M out Z :=
  match k with
  | None => mret (-1)
  | Some k => modify (λ o, o ++ (pair 1 <$> take k bs));; mret (Z.of_nat (length (take k bs)))
  end.

(** "cat: write error\n" and "cat: read error\n" *)
Definition cat_werror : list Z := [99; 97; 116; 58; 32; 119; 114; 105; 116; 101; 32; 101; 114; 114; 111; 114; 10].
Definition cat_rerror : list Z := [99; 97; 116; 58; 32; 114; 101; 97; 100; 32; 101; 114; 114; 111; 114; 10].

(** [cat(fd)]: the results of the reads and of the writes; writes beyond the list write all. *)
Fixpoint cat (rs : list rdres) (ws : list (option nat)) : M out unit :=
  match rs with
  | [] | Got [] :: _ => mret tt
  | ReadError :: _ => fprintf strings 2 cat_rerror [];; exits 1
  | Got bs :: rs =>
    n ← write1 bs (match ws with [] => Some (length bs) | w :: _ => w end);
    if negb (n =? Z.of_nat (length bs)) then fprintf strings 2 cat_werror [];; exits 1 else cat rs (tail ws)
  end.

(** ** echo *)

Fixpoint echo (argv : list (list Z)) : M out unit :=
  match argv with
  | [] => mret tt
  | a :: rest =>
    write1 a (Some (Z.to_nat (strlen a)));;
    (match rest with [] => write1 [10] (Some 1%nat) | _ => write1 [32] (Some 1%nat) end);;
    echo rest
  end.
End Programs.

(** ** What they do *)

(** The characters that were read. *)
Fixpoint contents (rs : list rdres) : option (list Z) :=
  match rs with
  | [] | Got [] :: _ => Some []
  | ReadError :: _ => None
  | Got bs :: rs => app bs <$> contents rs
  end.

Definition lines (t : list Z) : Z := Z.of_nat (length (filter (λ c, c = 10) t)).

(** The words of a text: the places where a character that is not blank comes at the
    start or after one that is. *)
Definition starts_word (t : list Z) (i : nat) : bool :=
  match t !! i with
  | Some c => negb (strchr wc_blanks c) && match i with O => true | S j => match t !! j with Some d => strchr wc_blanks d | None => false end end
  | None => false
  end.
Definition words (t : list Z) : Z := Z.of_nat (length (filter (λ i, starts_word t i = true) (seq 0 (length t)))).

Lemma wc_loop_contents rs : ∀ st, wc_loop rs st = match contents rs with Some t => Some (fold_left wc_char t st) | None => None end.
Proof.
  induction rs as [|[bs|] rs IH]; intros st; [done| |done]. destruct bs as [|c bs]; [done|]. cbn [wc_loop contents]. rewrite IH.
  destruct (contents rs) as [t|]; [|done]. cbn [fmap option_fmap option_map]. by rewrite fold_left_app.
Qed.

Lemma i32_succ x : i32 (i32 x + 1) = i32 (x + 1).
Proof.
  unfold i32. replace ((x + 2 ^ 31) mod 2 ^ 32 - 2 ^ 31 + 1 + 2 ^ 31) with ((x + 2 ^ 31) mod 2 ^ 32 + 1) by lia. rewrite Zplus_mod_idemp_l. do 2 f_equal. lia.
Qed.

Definition ends_in_word (t : list Z) : bool := match t !! pred (length t) with Some c => negb (strchr wc_blanks c) | None => false end.

Lemma starts_word_snoc t c i : (i < length t)%nat → starts_word (t ++ [c]) i = starts_word t i.
Proof.
  intros Hi. unfold starts_word. rewrite lookup_app_l by done. destruct (t !! i); [|done]. destruct i as [|j]; [done|]. by rewrite lookup_app_l by lia.
Qed.

Lemma starts_word_last t c : starts_word (t ++ [c]) (length t) = negb (strchr wc_blanks c) && negb (ends_in_word t).
Proof.
  unfold starts_word, ends_in_word. rewrite list_lookup_middle by done. f_equal. destruct (length t) as [|j] eqn:E.
  - apply nil_length_inv in E as ->. done.
  - cbn [pred]. rewrite lookup_app_l by lia. destruct (lookup_lt_is_Some_2 t j ltac:(lia)) as [d ->]. by rewrite negb_involutive.
Qed.

Lemma words_snoc t c : words (t ++ [c]) = words t + (if negb (strchr wc_blanks c) && negb (ends_in_word t) then 1 else 0).
Proof.
  unfold words. rewrite length_app. cbn [length]. rewrite seq_app, list.filter_app, length_app, Nat2Z.inj_add. cbn [plus seq]. f_equal.
  - f_equal. f_equal. apply filter_same. intros i Hi%elem_of_seq. by rewrite starts_word_snoc by lia.
  - rewrite list.filter_cons, starts_word_last. cbn [Nat.add]. destruct (_ && _); done.
Qed.

Lemma lines_snoc t c : lines (t ++ [c]) = lines t + (if c =? 10 then 1 else 0).
Proof.
  unfold lines. rewrite list.filter_app, length_app, Nat2Z.inj_add. f_equal. rewrite list.filter_cons.
  destruct (Z.eqb_spec c 10); [by rewrite decide_True|by rewrite decide_False].
Qed.

Lemma ends_snoc t c : ends_in_word (t ++ [c]) = negb (strchr wc_blanks c).
Proof. unfold ends_in_word. rewrite length_app. cbn [length]. rewrite Nat.add_1_r. cbn [pred]. by rewrite list_lookup_middle. Qed.

Lemma wc_counted t : fold_left wc_char t (Counts 0 0 0 false) = Counts (i32 (lines t)) (i32 (words t)) (i32 (Z.of_nat (length t))) (ends_in_word t).
Proof.
  induction t as [|c t IH] using rev_ind; [done|]. rewrite fold_left_app. cbn [fold_left]. rewrite IH. unfold wc_char. cbn [wc_l wc_w wc_c inword].
  rewrite ends_snoc, lines_snoc, words_snoc, length_app, Nat2Z.inj_add. cbn [length]. change (Z.of_nat 1) with 1.
  destruct (strchr wc_blanks c) eqn:Eb; destruct (c =? 10); destruct (ends_in_word t); cbn [negb andb]; by rewrite ?i32_succ, ?Z.add_0_r.
Qed.

Lemma i32_w64_i32 x : i32 (w64 (i32 x)) = i32 x.
Proof.
  unfold i32, w64. set (y := (x + 2 ^ 31) mod 2 ^ 32). pose proof (Z.mod_pos_bound (x + 2 ^ 31) (2 ^ 32) ltac:(lia)) as Hy. fold y in Hy. f_equal.
  destruct (Z.le_gt_cases (2 ^ 31) y).
  - rewrite (Z.mod_small (y - 2 ^ 31)) by lia. rewrite Z.mod_small; lia.
  - replace ((y - 2 ^ 31) mod 2 ^ 64) with (y - 2 ^ 31 + 2 ^ 64) by (apply (Z.mod_unique _ _ (-1)); lia).
    replace (y - 2 ^ 31 + 2 ^ 64 + 2 ^ 31) with (y + 2 ^ 32 * 2 ^ 32) by lia. rewrite Z.mod_add by lia. apply Z.mod_small. lia.
Qed.

Lemma cat_copied strings rs t : contents rs = Some t → ∀ o, cat strings rs [] o = Ok (tt, o ++ (pair 1 <$> t)).
Proof.
  revert t. induction rs as [|[bs|] rs IH]; intros t Ht o; cbn [contents] in Ht; [injection Ht as <-; by rewrite app_nil_r| |done].
  destruct bs as [|c bs]; [injection Ht as <-; by rewrite app_nil_r|]. destruct (contents rs) as [t'|] eqn:E; [|done]. injection Ht as <-.
  set (l := c :: bs) in *. change (cat strings (Got l :: rs) []) with
    (n ← write1 l (Some (length l)); if negb (n =? Z.of_nat (length l)) then fprintf strings 2 cat_werror [];; exits 1 else cat strings rs []).
  unfold write1. rewrite firstn_all. rewrite (bind_ok _ _ _ (Z.of_nat (length l)) (o ++ (pair 1 <$> l))) by done. rewrite Z.eqb_refl. cbn [negb].
  rewrite (IH t' eq_refl). change (c :: bs ++ t') with (l ++ t'). by rewrite fmap_app, app_assoc.
Qed.

(** The arguments with blanks between them and a newline at the end. *)
Fixpoint echoed (argv : list (list Z)) : list Z :=
  match argv with [] => [] | [a] => a ++ [10] | a :: rest => a ++ 32 :: echoed rest end.

Lemma echo_writes argv : Forall (λ a, 0 ∉ a) argv → ∀ o, echo argv o = Ok (tt, o ++ (pair 1 <$> echoed argv)).
Proof.
  assert (Hlen : ∀ a : list Z, 0 ∉ a → Z.to_nat (strlen a) = length a).
  { intros a Ha. unfold strlen. rewrite strlen_loop_ok. replace (cstr a) with a; [lia|]. induction a as [|c a IH]; [done|].
    rewrite not_elem_of_cons in Ha. cbn. rewrite (proj2 (truth_ne c)) by naive_solver. f_equal. tauto. }
  induction 1 as [|a rest Ha _ IH]; intros o; [by rewrite app_nil_r|]. cbn [echo].
  rewrite (bind_ok _ _ _ (Z.of_nat (length a)) (o ++ (pair 1 <$> a))) by (unfold write1; by rewrite Hlen, firstn_all by done).
  destruct rest as [|b rest].
  - rewrite (bind_ok _ _ _ 1 ((o ++ (pair 1 <$> a)) ++ [(1, 10)])) by done. cbn [echo echoed]. by rewrite fmap_app, app_assoc.
  - rewrite (bind_ok _ _ _ 1 ((o ++ (pair 1 <$> a)) ++ [(1, 32)])) by done. rewrite IH. cbn [echoed]. by rewrite fmap_app, <- !app_assoc.
Qed.

(** C35. wc, cat and echo do not depend on the pieces their input arrives in.  wc prints the
    numbers of lines, words and characters of what it read (as 32-bit numbers) and the
    name; a word starts where a character that is not blank follows a blank or
    nothing.  cat writes what it read.  echo writes its arguments with a blank between
    two and a newline behind the last. *)
Theorem filters_copy_and_count strings : (∀ p, Forall is_char (strings p)) →
  (∀ rs t name o, contents rs = Some t → ∃ tl tw tc, numeral udigits 10 tl (i32 (lines t)) ∧ numeral udigits 10 tw (i32 (words t)) ∧
    numeral udigits 10 tc (i32 (Z.of_nat (length t))) ∧
    wc strings rs name o = Ok (tt, o ++ (pair 1 <$> tl ++ [32] ++ tw ++ [32] ++ tc ++ [32] ++ (if name =? 0 then null_text else cstr (strings name)) ++ [10]))) ∧
  (∀ rs t o, contents rs = Some t → cat strings rs [] o = Ok (tt, o ++ (pair 1 <$> t))) ∧
  (∀ argv o, Forall (λ a, 0 ∉ a) argv → echo argv o = Ok (tt, o ++ (pair 1 <$> echoed argv))).
Proof.
  intros Hs. split_and!; [|by intros; apply cat_copied|by intros; apply echo_writes].
  intros rs t name o Ht. unfold wc. rewrite wc_loop_contents, Ht, wc_counted. cbn [wc_l wc_w wc_c].
  set (ps := [Dec (w64 (i32 (lines t))); Lit 32; Dec (w64 (i32 (words t))); Lit 32; Dec (w64 (i32 (Z.of_nat (length t)))); Lit 32; Text name; Lit 10]).
  destruct (pieces_emit (out_sink 1) (λ fmt, vprintf_loop strings 1 fmt false) upiece (uprints strings) []) with (ps := ps) as (ts & Hts & Hrun).
  - intros p rest ap t2. by apply upiece_emits.
  - apply (emits_ret (out_sink 1)).
  - repeat constructor; done.
  - unfold ps in Hts. repeat match goal with H : Forall2 _ (_ :: _) _ |- _ => inversion H; clear H; subst | H : Forall2 _ [] _ |- _ => inversion H; clear H; subst end.
    cbn [uprints] in *. rewrite i32_w64_i32 in *. subst. eexists _, _, _. split_and!; [done|done|done|]. exact (Hrun o).
Qed.

(** "a  b
", in two pieces *)
Lemma filters_copy_and_count_witness : ∃ tl tw tc, numeral udigits 10 tl 1 ∧ numeral udigits 10 tw 2 ∧ numeral udigits 10 tc 5 ∧
  wc (λ _, [120]) [Got [97; 32]; Got [32; 98; 10]] 7 [] = Ok (tt, pair 1 <$> tl ++ [32] ++ tw ++ [32] ++ tc ++ [32; 120; 10]).
Proof.
  assert (Hs : ∀ p : Z, Forall is_char [120]) by (intros _; by repeat constructor).
  exact (proj1 (filters_copy_and_count (λ _, [120]) Hs) [Got [97; 32]; Got [32; 98; 10]] [97; 32; 32; 98; 10] 7 [] eq_refl).
Defined.
