(* ===== verification/Spinlock.v ===== *)
(** Spin locks (kernel/spinlock.c) on several CPUs.

    The functions are cut at their accesses to the lock, which is what the CPUs share:
    a step of a CPU is one access, or code that concerns that CPU only.  The steps of
    different CPUs interleave in any way.

    Spin locks exclude each other in every interleaving, with interrupts off. *)

From stdpp Require Import functions.
From S2P Require Import Prelude.

#[local] Open Scope Z_scope.

(** A lock; its [cpu] is the number of a CPU, or null. *)
Record spinlock := Spinlock { locked : Z; lk_cpu : option nat }.

(** Of [struct cpu], what push_off and pop_off use, and the interrupt bit SIE of the
    CPU's [sstatus]. *)
Record cpu := Cpu { noff : Z; intena : bool; sie : bool }.

Record smp := Smp { locks : nat → spinlock; cpus : nat → cpu }.

Definition set_lock (lk : nat) (l : spinlock) (s : smp) : smp := Smp (<[lk := l]> (locks s)) (cpus s).
Definition set_cpu (c : nat) (p : cpu) (s : smp) : smp := Smp (locks s) (<[c := p]> (cpus s)).

Definition initlock (lk : nat) : M smp unit := modify (set_lock lk (Spinlock 0 None)).

(** kernel/riscv.h *)
Definition intr_get (c : nat) : M smp bool := gets (λ s, sie (cpus s c)).
Definition intr_set (c : nat) (on : bool) : M smp unit :=
  modify (λ s, let p := cpus s c in set_cpu c (Cpu (noff p) (intena p) on) s).
Definition intr_on (c : nat) : M smp unit := intr_set c true.
Definition intr_off (c : nat) : M smp unit := intr_set c false.

Definition push_off (c : nat) : M smp unit :=
  old ← intr_get c;
  intr_off c;;
  p ← gets (λ s, cpus s c);
  (if noff p =? 0 then modify (set_cpu c (Cpu (noff p) old (sie p))) else mret tt);;
  modify (λ s, let p := cpus s c in set_cpu c (Cpu (noff p + 1) (intena p) (sie p)) s).

Definition pop_off (c : nat) : M smp unit :=
  on ← intr_get c;
  if on : bool then panic "pop_off - interruptible" else
  p ← gets (λ s, cpus s c);
  if noff p <? 1 then panic "pop_off" else
  modify (set_cpu c (Cpu (noff p - 1) (intena p) (sie p)));;
  if (noff p - 1 =? 0) && intena p then intr_on c else mret tt.

(** Where a CPU is inside [acquire] or [release]:
    - [AcqCall], [RelTest1]: at the start;
    - [AcqTest1], [AcqTest2]: in [holding], before reading [locked] and [cpu];
    - [AcqSpin]: before the atomic swap;
    - [AcqSet]: before [lk->cpu = mycpu()];
    - [RelTest1], [RelTest2]: in [holding], as above;
    - [RelClear]: before [lk->cpu = 0];
    - [RelOpen]: before [__sync_lock_release];
    - [RelPop]: before [pop_off]. *)
Inductive point := AcqCall | AcqTest1 | AcqTest2 | AcqSpin | AcqSet | RelTest1 | RelTest2 | RelClear | RelOpen | RelPop.

#[export] Instance point_eq_dec : EqDecision point.
Proof. solve_decision. Defined.

(** The step of CPU [c] at [at_] with the lock [lk]: where it is next, or None if the
    function returns. *)
Definition lock_step (c lk : nat) (at_ : point) : M smp (option point) :=
  l ← gets (λ s, locks s lk);
  match at_ with
  | AcqCall => push_off c;; mret (Some AcqTest1)
  | AcqTest1 => mret (Some (if truth (locked l) then AcqTest2 else AcqSpin))
  | AcqTest2 => if decide (lk_cpu l = Some c) then panic "acquire" else mret (Some AcqSpin)
  | AcqSpin => modify (set_lock lk (Spinlock 1 (lk_cpu l)));; mret (Some (if negb (locked l =? 0) then AcqSpin else AcqSet))
  | AcqSet => modify (set_lock lk (Spinlock (locked l) (Some c)));; mret None
  | RelTest1 => if truth (locked l) then mret (Some RelTest2) else panic "release"
  | RelTest2 => if decide (lk_cpu l = Some c) then mret (Some RelClear) else panic "release"
  | RelClear => modify (set_lock lk (Spinlock (locked l) None));; mret (Some RelOpen)
  | RelOpen => modify (set_lock lk (Spinlock 0 (lk_cpu l)));; mret (Some RelPop)
  | RelPop => pop_off c;; mret None
  end.

(** ** All CPUs together *)

(** With the shared state: where each CPU is; the locks it has taken and not given
    back; how many calls of [push_off] it has not yet undone; and how its interrupts
    were when it last had neither. *)
Record conf := Conf {
  sh : smp; pcs : nat → option (point * nat); held : nat → list nat; pushed : nat → nat; was : nat → bool }.

Definition boot (on : nat → bool) : conf :=
  Conf (Smp (λ _, Spinlock 0 None) (λ c, Cpu 0 false (on c))) (λ _, None) (λ _, []) (λ _, O) on.

(** What taking and giving back means: a lock is taken when [acquire] returns and
    given back when [release] has found that it is held. *)
Definition now_held (at_ : point) (lk : nat) (h : list nat) : list nat :=
  match at_ with AcqSet => lk :: h | RelClear => filter (λ k, k ≠ lk) h | _ => h end.

Inductive cstep : conf → conf → Prop :=
| cs_acquire c lk x : pcs x c = None →
    cstep x (Conf (sh x) (<[c := Some (AcqCall, lk)]> (pcs x)) (held x) (pushed x) (was x))
| cs_release c lk x : pcs x c = None →
    cstep x (Conf (sh x) (<[c := Some (RelTest1, lk)]> (pcs x)) (held x) (pushed x) (was x))
| cs_run c lk at_ next s' x : pcs x c = Some (at_, lk) → lock_step c lk at_ (sh x) = Ok (next, s') →
    cstep x (Conf s' (<[c := (λ p, (p, lk)) <$> next]> (pcs x)) (<[c := now_held at_ lk (held x c)]> (held x)) (pushed x) (was x))
| cs_push_off c s' x : pcs x c = None → push_off c (sh x) = Ok (tt, s') →
    cstep x (Conf s' (pcs x) (held x) (<[c := S (pushed x c)]> (pushed x)) (was x))
| cs_pop_off c k s' x : pcs x c = None → pushed x c = S k → pop_off c (sh x) = Ok (tt, s') →
    cstep x (Conf s' (pcs x) (held x) (<[c := k]> (pushed x)) (was x))
| cs_intr c on s' x : pcs x c = None → held x c = [] → pushed x c = O → intr_set c on (sh x) = Ok (tt, s') →
    cstep x (Conf s' (pcs x) (held x) (pushed x) (<[c := on]> (was x))).

(** ** push_off and pop_off *)

(** The CPU is [depth] deep in critical sections; outside its interrupts were [w]. *)
Definition nested (p : cpu) (depth : Z) (w : bool) : Prop :=
  noff p = depth ∧ (depth = 0 → sie p = w) ∧ (0 < depth → sie p = false ∧ intena p = w).

Lemma cpus_set_eq c p s : cpus (set_cpu c p s) c = p.
Proof. apply fn_lookup_insert. Qed.

Lemma cpus_set_ne c d p s : d ≠ c → cpus (set_cpu c p s) d = cpus s d.
Proof. intros Hne. by apply fn_lookup_insert_ne. Qed.

Lemma push_off_run c s : ∃ s', push_off c s = Ok (tt, s') ∧ locks s' = locks s ∧ (∀ d, d ≠ c → cpus s' d = cpus s d) ∧
  ∀ depth w, 0 <= depth → nested (cpus s c) depth w → nested (cpus s' c) (depth + 1) w.
Proof.
  unfold push_off, intr_get, intr_off, intr_set, mbind, M_bind, gets, modify, mret, M_ret. cbv zeta. rewrite !cpus_set_eq. cbn [noff intena sie].
  destruct (noff (cpus s c) =? 0) eqn:E; eexists; (split; [reflexivity|]); rewrite !cpus_set_eq; cbn [noff intena sie];
    (split; [done|]); (split; [intros d Hd; by rewrite !cpus_set_ne by done|]); intros depth w Hd (H1 & H2 & H3).
  - apply Z.eqb_eq in E. split_and!; cbn [noff intena sie]; [lia|lia|]. intros _. split; [done|]. apply H2. lia.
  - apply Z.eqb_neq in E. split_and!; cbn [noff intena sie]; [lia|lia|]. intros _. split; [done|]. apply H3. lia.
Qed.

Lemma pop_off_run c s depth w : nested (cpus s c) depth w → 0 < depth → ∃ s', pop_off c s = Ok (tt, s') ∧ locks s' = locks s ∧
  (∀ d, d ≠ c → cpus s' d = cpus s d) ∧ nested (cpus s' c) (depth - 1) w.
Proof.
  intros (H1 & _ & H3) Hd. destruct (H3 Hd) as [Hs Hi].
  unfold pop_off, intr_get, intr_on, intr_set, mbind, M_bind, gets, modify, mret, M_ret. cbv zeta. rewrite Hs, H1, Hi.
  rewrite (proj2 (Z.ltb_ge _ _)) by lia.
  destruct (Z.eqb_spec (depth - 1) 0) as [E|E]; [destruct w|]; cbn [andb]; eexists; (split; [reflexivity|]); (split; [done|]);
    (split; [intros d Hne; by rewrite !cpus_set_ne by done|]); rewrite !cpus_set_eq; unfold nested; cbn [noff intena sie]; split_and!; done || lia.
Qed.

(** ** The invariant *)

Definition extra (o : option (point * nat)) : Z :=
  match o with
  | Some ((AcqTest1 | AcqTest2 | AcqSpin | AcqSet | RelOpen | RelPop), _) => 1
  | _ => 0
  end.

Definition depth (x : conf) (c : nat) : Z := Z.of_nat (length (held x c) + pushed x c) + extra (pcs x c).

(** CPU [c] has the lock: it has taken it, or is about to have, or is about to open it. *)
Definition owns (x : conf) (c lk : nat) : Prop :=
  lk ∈ held x c ∨ pcs x c = Some (AcqSet, lk) ∨ pcs x c = Some (RelOpen, lk).

Definition pc_ok (x : conf) (c : nat) : Prop :=
  match pcs x c with
  | Some ((AcqSpin | AcqSet | RelOpen), lk) => lk ∉ held x c
  | Some (RelClear, lk) => lk ∈ held x c
  | _ => True
  end.

Record lock_ok (x : conf) (lk : nat) : Prop := {
  lo_cpu c : lk_cpu (locks (sh x) lk) = Some c ↔ lk ∈ held x c;
  lo_own c : owns x c lk → locked (locks (sh x) lk) = 1;
  lo_free : locked (locks (sh x) lk) = 0 ∨ ∃ c, owns x c lk;
  lo_excl c d : owns x c lk → owns x d lk → c = d }.

Record cpu_ok (x : conf) (c : nat) : Prop := {
  co_nested : nested (cpus (sh x) c) (depth x c) (was x c);
  co_pc : pc_ok x c;
  co_nodup : NoDup (held x c) }.

Definition spin_inv (x : conf) : Prop := (∀ lk, lock_ok x lk) ∧ (∀ c, cpu_ok x c).

Lemma boot_inv on : spin_inv (boot on).
Proof.
  split.
  - intros lk. split; cbn; [|by intros c [?%not_elem_of_nil|[?|?]]|by left|by intros c d [?%not_elem_of_nil|[?|?]]].
    intros c. split; [done|by intros ?%not_elem_of_nil].
  - intros c. split; cbn; [|done|constructor]. split; cbn; [done|]. split; [done|]. unfold depth. cbn. lia.
Qed.

(** A change that concerns no lock. *)
Lemma lock_ok_same x y lk : locks (sh y) lk = locks (sh x) lk → (∀ c, lk ∈ held y c ↔ lk ∈ held x c) → (∀ c, owns y c lk ↔ owns x c lk) →
  lock_ok x lk → lock_ok y lk.
Proof.
  intros Hl Hh Ho [H1 H2 H3 H4]. split; rewrite ?Hl.
  - intros c. by rewrite Hh.
  - intros c. rewrite Ho. apply H2.
  - destruct H3 as [H3|[c Hc]]; [by left|right]. exists c. by apply Ho.
  - intros c d. rewrite !Ho. apply H4.
Qed.

Lemma cpu_ok_same x y c : cpus (sh y) c = cpus (sh x) c → pcs y c = pcs x c → held y c = held x c → pushed y c = pushed x c → was y c = was x c →
  cpu_ok x c → cpu_ok y c.
Proof. intros H1 H2 H3 H4 H5 [Ha Hb Hc]. split; unfold depth, pc_ok in *; by rewrite ?H1, ?H2, ?H3, ?H4, ?H5. Qed.

Lemma length_without (k : nat) (l : list nat) : NoDup l → k ∈ l → length l = S (length (filter (λ j, j ≠ k) l)).
Proof.
  intros Hnd Hk. apply list_elem_of_split in Hk as (l1 & l2 & ->). rewrite list.NoDup_app in Hnd. destruct Hnd as (_ & H1 & H2).
  apply list.NoDup_cons in H2 as [H2 _]. rewrite list.filter_app, list.filter_cons_False by tauto.
  rewrite !filter_all; [rewrite !length_app; simpl; lia| |].
  - intros j Hj ->. done.
  - intros j Hj ->. apply (H1 k Hj), elem_of_cons. by left.
Qed.

(** Tactics: which CPU an update is about. *)
Ltac at_cpu d c := destruct (decide (d = c)) as [-> |]; [rewrite ?fn_lookup_insert|rewrite ?fn_lookup_insert_ne by done].

(** A CPU moves to a point where it owns what it owned. *)
Lemma owns_move x y c o : (∀ d, pcs y d = <[c := o]> (pcs x) d) → (∀ d, held y d = held x d) →
  (∀ lk, pcs x c ≠ Some (AcqSet, lk) ∧ pcs x c ≠ Some (RelOpen, lk) ∧ o ≠ Some (AcqSet, lk) ∧ o ≠ Some (RelOpen, lk)) →
  ∀ d lk, owns y d lk ↔ owns x d lk.
Proof.
  intros Hp Hh Hno d lk. unfold owns. rewrite Hp, Hh. destruct (Hno lk) as (H1 & H2 & H3 & H4). at_cpu d c; tauto.
Qed.

(** Steps that change no lock: CPU [c] moves from [o] to [o'], and its depth changes with it. *)
Lemma quiet_step x y c o' :
  (∀ d, pcs y d = <[c := o']> (pcs x) d) → (∀ d, held y d = held x d) → (∀ d, was y d = was x d) → (∀ d, d ≠ c → pushed y d = pushed x d) →
  (∀ lk, locks (sh y) lk = locks (sh x) lk) → (∀ d, d ≠ c → cpus (sh y) d = cpus (sh x) d) →
  (∀ lk, pcs x c ≠ Some (AcqSet, lk) ∧ pcs x c ≠ Some (RelOpen, lk) ∧ o' ≠ Some (AcqSet, lk) ∧ o' ≠ Some (RelOpen, lk)) →
  nested (cpus (sh y) c) (depth y c) (was x c) → pc_ok y c → spin_inv x → spin_inv y.
Proof.
  intros Hp Hh Hw Hpu Hl Hc Hno Hn Hpc [HL HC]. split.
  - intros lk. apply (lock_ok_same x); [done|intros d; by rewrite Hh|intros d; by apply (owns_move x y c o')|done].
  - intros d. destruct (decide (d = c)) as [-> |Hne].
    + split; [by rewrite Hw|done|]. rewrite Hh. apply HC.
    + apply (cpu_ok_same x); [by apply Hc|by rewrite Hp, fn_lookup_insert_ne|done|by apply Hpu|done|done].
Qed.

(** What the steps of a CPU do, point by point. *)

Definition moved (x : conf) (c : nat) (at_ : point) (lk : nat) (next : option point) (s' : smp) : conf :=
  Conf s' (<[c := (λ p, (p, lk)) <$> next]> (pcs x)) (<[c := now_held at_ lk (held x c)]> (held x)) (pushed x) (was x).

(** Points at which no lock changes. *)
Lemma quiet_moved x c at_ lk next s' : spin_inv x → pcs x c = Some (at_, lk) →
  at_ ∉ [AcqSet; RelOpen; RelClear] → next ∉ [Some AcqSet; Some RelOpen] → locks s' = locks (sh x) → (∀ d, d ≠ c → cpus s' d = cpus (sh x) d) →
  nested (cpus s' c) (Z.of_nat (length (held x c) + pushed x c) + extra ((λ p, (p, lk)) <$> next)) (was x c) →
  (next = Some AcqSpin → lk ∉ held x c) → (next = Some RelClear → lk ∈ held x c) → spin_inv (moved x c at_ lk next s').
Proof.
  intros Hi Hpc Hat Hnext Hl Hc Hn Hs Hr. rewrite !not_elem_of_cons in Hat. rewrite !not_elem_of_cons in Hnext. unfold moved.
  assert (Hh : now_held at_ lk (held x c) = held x c) by (destruct at_; tauto || done).
  assert (Hh' : ∀ d, (<[c:=now_held at_ lk (held x c)]> (held x)) d = held x d) by (intros d; at_cpu d c; done).
  apply (quiet_step x _ c ((λ p, (p, lk)) <$> next)); cbn; try done; [by intros k; rewrite Hl| | |].
  - intros k. rewrite Hpc. destruct next as [n|]; cbn; naive_solver.
  - unfold depth. cbn. by rewrite Hh', fn_lookup_insert.
  - unfold pc_ok. cbn. rewrite Hh', fn_lookup_insert. destruct next as [[]|]; cbn; naive_solver.
Qed.

(** The atomic swap. *)
Lemma swap_inv x c lk s' next : spin_inv x → pcs x c = Some (AcqSpin, lk) → lock_step c lk AcqSpin (sh x) = Ok (next, s') → spin_inv (moved x c AcqSpin lk next s').
Proof.
  intros [HL HC] Hpc Hrun. injection Hrun as <- <-. pose proof (HL lk) as Hlk. unfold moved.
  set (y := Conf _ _ _ _ _).
  assert (Hh : ∀ d, held y d = held x d) by (intros d; cbn; at_cpu d c; done).
  assert (Hnot : ∀ k, ¬ (pcs x c = Some (AcqSet, k) ∨ pcs x c = Some (RelOpen, k))) by (rewrite Hpc; naive_solver).
  pose proof (co_pc _ _ (HC c)) as Hcpc. unfold pc_ok in Hcpc. rewrite Hpc in Hcpc.
  split.
  - intros k. destruct (decide (k = lk)) as [-> |Hk].
    + destruct (Z.eqb_spec (locked (locks (sh x) lk)) 0) as [E|E].
      * (* it was open: this CPU takes it *)
        assert (Hnone : ∀ d, ¬ owns x d lk) by (intros d Hd; pose proof (lo_own _ _ Hlk d Hd); lia).
        assert (Hy : ∀ d, owns y d lk ↔ d = c).
        { intros d. split.
          - intros Hd. destruct (decide (d = c)) as [|Hne]; [done|]. destruct (Hnone d). unfold owns in *. rewrite Hh in Hd. cbn in Hd.
            by rewrite fn_lookup_insert_ne in Hd.
          - intros ->. right; left. cbn. by rewrite fn_lookup_insert. }
        assert (Hl : locks (sh y) lk = Spinlock 1 (lk_cpu (locks (sh x) lk))) by (cbn; by rewrite fn_lookup_insert).
        split; rewrite ?Hl; cbn [locked lk_cpu].
        -- intros d. rewrite Hh. apply Hlk.
        -- done.
        -- right. exists c. by apply Hy.
        -- intros d1 d2 H1 H2. apply Hy in H1, H2. congruence.
      * (* it was taken *)
        assert (Hlocked : locked (locks (sh x) lk) = 1) by (destruct (lo_free _ _ Hlk) as [|[d Hd]]; [done|by apply (lo_own _ _ Hlk d)]).
        assert (Hy : ∀ d, owns y d lk ↔ owns x d lk).
        { intros d. apply (owns_move x y c (Some (AcqSpin, lk))); [|done|rewrite Hpc; naive_solver]. done. }
        apply (lock_ok_same x); [|intros d; by rewrite Hh|done|done]. cbn. rewrite fn_lookup_insert. rewrite <- Hlocked. by destruct (locks (sh x) lk).
    + apply (lock_ok_same x); [cbn; by rewrite fn_lookup_insert_ne|intros d; by rewrite Hh| |done]. intros d. unfold owns. rewrite Hh. cbn.
      at_cpu d c; [|done]. rewrite Hpc. destruct (negb _); cbn; naive_solver.
  - intros d. destruct (decide (d = c)) as [-> |Hne].
    + split; [| |rewrite Hh; apply HC].
      * pose proof (co_nested _ _ (HC c)) as Hn. unfold depth in *. rewrite Hh. cbn. rewrite Hpc in Hn. rewrite fn_lookup_insert. by destruct (negb _).
      * unfold pc_ok. rewrite Hh. cbn. rewrite fn_lookup_insert. by destruct (negb _).
    + apply (cpu_ok_same x); try done. cbn. by rewrite fn_lookup_insert_ne.
Qed.

(** [lk->cpu = mycpu()]: from here on the lock is held. *)
Lemma set_inv x c lk s' next : spin_inv x → pcs x c = Some (AcqSet, lk) → lock_step c lk AcqSet (sh x) = Ok (next, s') → spin_inv (moved x c AcqSet lk next s').
Proof.
  intros [HL HC] Hpc Hrun. injection Hrun as <- <-. pose proof (HL lk) as Hlk. unfold moved. set (y := Conf _ _ _ _ _).
  pose proof (co_pc _ _ (HC c)) as Hcpc. unfold pc_ok in Hcpc. rewrite Hpc in Hcpc.
  assert (Hhc : held y c = lk :: held x c) by (cbn; by rewrite fn_lookup_insert).
  assert (Hhd : ∀ d, d ≠ c → held y d = held x d) by (intros d Hd; cbn; by rewrite fn_lookup_insert_ne).
  assert (Hpy : pcs y c = None) by (cbn; by rewrite fn_lookup_insert).
  assert (Hpd : ∀ d, d ≠ c → pcs y d = pcs x d) by (intros d Hd; cbn; by rewrite fn_lookup_insert_ne).
  assert (Hown : ∀ d k, owns y d k ↔ owns x d k).
  { intros d k. unfold owns. destruct (decide (d = c)) as [-> |Hne]; [|by rewrite Hhd, Hpd]. rewrite Hhc, Hpy, Hpc, elem_of_cons. naive_solver. }
  assert (Honly : ∀ d, owns x d lk → d = c) by (intros d Hd; apply (lo_excl _ _ Hlk d c); [done|right; by left]).
  split.
  - intros k. destruct (decide (k = lk)) as [-> |Hk].
    + assert (Hl : locks (sh y) lk = Spinlock (locked (locks (sh x) lk)) (Some c)) by (cbn; by rewrite fn_lookup_insert).
      split; rewrite ?Hl; cbn [locked lk_cpu].
      * intros d. split; [intros [= <-]; rewrite Hhc; apply elem_of_cons; by left|]. intros Hd. f_equal. symmetry. apply Honly, Hown. by left.
      * intros d Hd%Hown. by apply (lo_own _ _ Hlk d).
      * right. exists c. apply Hown. right; by left.
      * intros d1 d2 H1%Hown H2%Hown. by apply (lo_excl _ _ Hlk).
    + apply (lock_ok_same x); [cbn; by rewrite fn_lookup_insert_ne| |intros d; apply Hown|done].
      intros d. destruct (decide (d = c)) as [-> |Hne]; [|by rewrite Hhd]. rewrite Hhc, elem_of_cons. naive_solver.
  - intros d. destruct (decide (d = c)) as [-> |Hne]; [|apply (cpu_ok_same x); [done|by apply Hpd|by apply Hhd|done|done|done]]. split.
    + pose proof (co_nested _ _ (HC c)) as Hn. unfold depth in *. rewrite Hhc, Hpy. rewrite Hpc in Hn. cbn [extra length] in *.
      replace (Z.of_nat (S (length (held x c)) + pushed y c) + 0) with (Z.of_nat (length (held x c) + pushed x c) + 1) by (cbn; lia). done.
    + unfold pc_ok. by rewrite Hpy.
    + rewrite Hhc. constructor; [done|apply HC].
Qed.

(** [lk->cpu = 0] *)
Lemma clear_inv x c lk s' next : spin_inv x → pcs x c = Some (RelClear, lk) → lock_step c lk RelClear (sh x) = Ok (next, s') → spin_inv (moved x c RelClear lk next s').
Proof.
  intros [HL HC] Hpc Hrun. injection Hrun as <- <-. pose proof (HL lk) as Hlk. unfold moved. set (y := Conf _ _ _ _ _).
  pose proof (co_pc _ _ (HC c)) as Hcpc. unfold pc_ok in Hcpc. rewrite Hpc in Hcpc.
  assert (Hhc : held y c = filter (λ k, k ≠ lk) (held x c)) by (cbn; by rewrite fn_lookup_insert).
  assert (Hhd : ∀ d, d ≠ c → held y d = held x d) by (intros d Hd; cbn; by rewrite fn_lookup_insert_ne).
  assert (Hpy : pcs y c = Some (RelOpen, lk)) by (cbn; by rewrite fn_lookup_insert).
  assert (Hpd : ∀ d, d ≠ c → pcs y d = pcs x d) by (intros d Hd; cbn; by rewrite fn_lookup_insert_ne).
  assert (Hown : ∀ d k, owns y d k ↔ owns x d k).
  { intros d k. unfold owns. destruct (decide (d = c)) as [-> |Hne]; [|by rewrite Hhd, Hpd]. rewrite Hhc, Hpy, Hpc, list_elem_of_filter.
    destruct (decide (k = lk)) as [-> |]; naive_solver. }
  assert (Honly : ∀ d, owns x d lk → d = c) by (intros d Hd; apply (lo_excl _ _ Hlk d c); [done|by left]).
  split.
  - intros k. destruct (decide (k = lk)) as [-> |Hk].
    + assert (Hl : locks (sh y) lk = Spinlock (locked (locks (sh x) lk)) None) by (cbn; by rewrite fn_lookup_insert).
      split; rewrite ?Hl; cbn [locked lk_cpu].
      * intros d. split; [done|]. intros Hd. destruct (decide (d = c)) as [-> |Hne]; [|destruct Hne; apply Honly, Hown; by left].
        rewrite Hhc, list_elem_of_filter in Hd. by destruct Hd.
      * intros d Hd%Hown. by apply (lo_own _ _ Hlk d).
      * right. exists c. apply Hown. by left.
      * intros d1 d2 H1%Hown H2%Hown. by apply (lo_excl _ _ Hlk).
    + apply (lock_ok_same x); [cbn; by rewrite fn_lookup_insert_ne| |intros d; apply Hown|done].
      intros d. destruct (decide (d = c)) as [-> |Hne]; [|by rewrite Hhd]. rewrite Hhc, list_elem_of_filter. naive_solver.
  - intros d. destruct (decide (d = c)) as [-> |Hne]; [|apply (cpu_ok_same x); [done|by apply Hpd|by apply Hhd|done|done|done]].
    pose proof (co_nodup _ _ (HC c)) as Hnd. split.
    + pose proof (co_nested _ _ (HC c)) as Hn. unfold depth in *. rewrite Hhc, Hpy. rewrite Hpc in Hn. cbn [extra] in *.
      replace (Z.of_nat (length (filter (λ k, k ≠ lk) (held x c)) + pushed y c) + 1) with (Z.of_nat (length (held x c) + pushed x c) + 0); [done|].
      rewrite (length_without lk (held x c)) by done. cbn. lia.
    + unfold pc_ok. rewrite Hpy, Hhc, list_elem_of_filter. naive_solver.
    + rewrite Hhc. by apply list.NoDup_filter.
Qed.

(** [__sync_lock_release] *)
Lemma open_inv x c lk s' next : spin_inv x → pcs x c = Some (RelOpen, lk) → lock_step c lk RelOpen (sh x) = Ok (next, s') → spin_inv (moved x c RelOpen lk next s').
Proof.
  intros [HL HC] Hpc Hrun. injection Hrun as <- <-. pose proof (HL lk) as Hlk. unfold moved. set (y := Conf _ _ _ _ _).
  pose proof (co_pc _ _ (HC c)) as Hcpc. unfold pc_ok in Hcpc. rewrite Hpc in Hcpc.
  assert (Hh : ∀ d, held y d = held x d) by (intros d; cbn; at_cpu d c; done).
  assert (Hpy : pcs y c = Some (RelPop, lk)) by (cbn; by rewrite fn_lookup_insert).
  assert (Hpd : ∀ d, d ≠ c → pcs y d = pcs x d) by (intros d Hd; cbn; by rewrite fn_lookup_insert_ne).
  assert (Honly : ∀ d, owns x d lk → d = c) by (intros d Hd; apply (lo_excl _ _ Hlk d c); [done|right; by right]).
  split.
  - intros k. destruct (decide (k = lk)) as [-> |Hk].
    + assert (Hnone : ∀ d, ¬ owns y d lk).
      { intros d Hd. destruct (decide (d = c)) as [-> |Hne].
        - unfold owns in Hd. rewrite Hh, Hpy in Hd. naive_solver.
        - apply Hne, Honly. unfold owns in *. by rewrite Hh, Hpd in Hd. }
      assert (Hl : locks (sh y) lk = Spinlock 0 (lk_cpu (locks (sh x) lk))) by (cbn; by rewrite fn_lookup_insert).
      split; rewrite ?Hl; cbn [locked lk_cpu].
      * intros d. rewrite Hh. apply Hlk.
      * intros d Hd. by destruct (Hnone d).
      * by left.
      * intros d1 d2 H1. by destruct (Hnone d1).
    + apply (lock_ok_same x); [cbn; by rewrite fn_lookup_insert_ne|intros d; by rewrite Hh| |done].
      intros d. unfold owns. rewrite Hh. destruct (decide (d = c)) as [-> |Hne]; [|by rewrite Hpd]. rewrite Hpy, Hpc. naive_solver.
  - intros d. destruct (decide (d = c)) as [-> |Hne]; [|apply (cpu_ok_same x); [done|by apply Hpd|by apply Hh|done|done|done]]. split.
    + pose proof (co_nested _ _ (HC c)) as Hn. unfold depth in *. rewrite Hh, Hpy. by rewrite Hpc in Hn.
    + unfold pc_ok. by rewrite Hpy.
    + rewrite Hh. apply HC.
Qed.

Lemma run_inv x c lk at_ next s' : spin_inv x → pcs x c = Some (at_, lk) → lock_step c lk at_ (sh x) = Ok (next, s') → spin_inv (moved x c at_ lk next s').
Proof.
  intros Hi Hpc Hrun. pose proof (co_nested _ _ (proj2 Hi c)) as Hn. unfold depth in Hn. rewrite Hpc in Hn.
  destruct at_; try first [by eapply swap_inv | by eapply set_inv | by eapply clear_inv | by eapply open_inv]; unfold lock_step in Hrun; rewrite (bind_ok _ _ _ (locks (sh x) lk) (sh x)) in Hrun by done.
  - destruct (push_off_run c (sh x)) as (s1 & Hr & Hl & Hc & Hnest). rewrite (bind_ok _ _ _ _ _ Hr) in Hrun. injection Hrun as <- <-.
    apply quiet_moved; try done; [by rewrite !elem_of_cons, elem_of_nil; naive_solver|by rewrite !elem_of_cons, elem_of_nil; naive_solver|].
    cbn [extra] in Hn. rewrite Z.add_0_r in Hn. apply Hnest in Hn; [done|lia].
  - injection Hrun as <- <-. apply quiet_moved; try done; [by rewrite !elem_of_cons, elem_of_nil; naive_solver|by destruct (truth _); rewrite !elem_of_cons, elem_of_nil; naive_solver|by destruct (truth _)| |by destruct (truth _)].
    destruct (truth (locked (locks (sh x) lk))) eqn:E; [done|]. intros _ Hin. unfold truth in E. apply negb_false_iff, Z.eqb_eq in E.
    rewrite (lo_own _ _ (proj1 Hi lk) c) in E by by left. done.
  - destruct (decide _) as [E|E]; [done|]. injection Hrun as <- <-. apply quiet_moved; try done; [by rewrite !elem_of_cons, elem_of_nil; naive_solver|by rewrite !elem_of_cons, elem_of_nil; naive_solver|].
    intros _ Hin. apply E. by apply (lo_cpu _ _ (proj1 Hi lk)).
  - destruct (truth _); [|done]. injection Hrun as <- <-. apply quiet_moved; try done; by rewrite !elem_of_cons, elem_of_nil; naive_solver.
  - destruct (decide _) as [E|E]; [|done]. injection Hrun as <- <-. apply quiet_moved; try done; [by rewrite !elem_of_cons, elem_of_nil; naive_solver|by rewrite !elem_of_cons, elem_of_nil; naive_solver|].
    intros _. by apply (lo_cpu _ _ (proj1 Hi lk)).
  - destruct (pop_off_run c (sh x) _ _ Hn ltac:(cbn [extra]; lia)) as (s1 & Hr & Hl & Hc & Hnest). rewrite (bind_ok _ _ _ _ _ Hr) in Hrun. injection Hrun as <- <-.
    apply quiet_moved; try done; [by rewrite !elem_of_cons, elem_of_nil; naive_solver|by rewrite !elem_of_cons, elem_of_nil; naive_solver|].
    cbn [extra fmap option_fmap option_map] in *. by replace (Z.of_nat (length (held x c) + pushed x c) + 0) with (Z.of_nat (length (held x c) + pushed x c) + 1 - 1) by lia.
Qed.

(** Calls, and what a CPU does outside of them. *)
Lemma call_inv x c p lk : spin_inv x → pcs x c = None → p = AcqCall ∨ p = RelTest1 →
  spin_inv (Conf (sh x) (<[c := Some (p, lk)]> (pcs x)) (held x) (pushed x) (was x)).
Proof.
  intros Hi Hpc Hp. pose proof (co_nested _ _ (proj2 Hi c)) as Hn.
  apply (quiet_step x _ c (Some (p, lk))); cbn; try done.
  - rewrite Hpc. destruct Hp as [-> | ->]; naive_solver.
  - unfold depth in *. cbn. rewrite fn_lookup_insert. rewrite Hpc in Hn. by destruct Hp as [-> | ->].
  - unfold pc_ok. cbn. rewrite fn_lookup_insert. by destruct Hp as [-> | ->].
Qed.

Lemma local_inv x c s' n w : spin_inv x → pcs x c = None → locks s' = locks (sh x) → (∀ d, d ≠ c → cpus s' d = cpus (sh x) d) →
  nested (cpus s' c) (Z.of_nat (length (held x c) + n)) w →
  spin_inv (Conf s' (pcs x) (held x) (<[c := n]> (pushed x)) (<[c := w]> (was x))).
Proof.
  intros [HL HC] Hpc Hl Hc Hn. split.
  - intros lk. apply (lock_ok_same x); [cbn; by rewrite Hl|done|done|done].
  - intros d. destruct (decide (d = c)) as [-> |Hne].
    + split; [|apply HC|apply HC]. unfold depth. cbn. rewrite !fn_lookup_insert, Hpc. cbn [extra]. by rewrite Z.add_0_r.
    + apply (cpu_ok_same x); cbn; try done; [by apply Hc|by rewrite fn_lookup_insert_ne|by rewrite fn_lookup_insert_ne].
Qed.

(** The invariant does not tell states apart that agree everywhere. *)
Lemma spin_inv_ext x y : sh y = sh x → (∀ d, pcs y d = pcs x d) → (∀ d, held y d = held x d) → (∀ d, pushed y d = pushed x d) → (∀ d, was y d = was x d) →
  spin_inv x → spin_inv y.
Proof.
  intros Hs Hp Hh Hu Hw [HL HC]. split.
  - intros lk. apply (lock_ok_same x); [by rewrite Hs|intros d; by rewrite Hh|intros d; unfold owns; by rewrite Hh, Hp|done].
  - intros d. apply (cpu_ok_same x); [by rewrite Hs|done|done|done|done|done].
Qed.

Lemma cstep_inv x y : cstep x y → spin_inv x → spin_inv y.
Proof.
  intros Hstep Hi. destruct Hstep as [c lk x Hpc|c lk x Hpc|c lk at_ next s' x Hpc Hrun|c s' x Hpc Hrun|c k s' x Hpc Hk Hrun|c on s' x Hpc Hh Hk Hrun].
  - apply call_inv; [done|done|by left].
  - apply call_inv; [done|done|by right].
  - by eapply run_inv.
  - destruct (push_off_run c (sh x)) as (s1 & Hr & Hl & Hc & Hnest). rewrite Hr in Hrun. injection Hrun as <-.
    pose proof (co_nested _ _ (proj2 Hi c)) as Hn. unfold depth in Hn. rewrite Hpc in Hn. apply Hnest in Hn; [|cbn; lia].
    eapply spin_inv_ext; [| | | | |apply (local_inv x c s1 (S (pushed x c)) (was x c)); try done]; try done.
    + intros d. cbn. at_cpu d c; done.
    + cbn [extra] in Hn. by replace (Z.of_nat (length (held x c) + S (pushed x c))) with (Z.of_nat (length (held x c) + pushed x c) + 0 + 1) by lia.
  - pose proof (co_nested _ _ (proj2 Hi c)) as Hn. unfold depth in Hn. rewrite Hpc, Hk in Hn. cbn [extra] in Hn.
    destruct (pop_off_run c (sh x) _ _ Hn ltac:(lia)) as (s1 & Hr & Hl & Hc & Hnest). rewrite Hr in Hrun. injection Hrun as <-.
    eapply spin_inv_ext; [| | | | |apply (local_inv x c s1 k (was x c)); try done]; try done.
    + intros d. cbn. at_cpu d c; done.
    + by replace (Z.of_nat (length (held x c) + k)) with (Z.of_nat (length (held x c) + S k) + 0 - 1) by lia.
  - pose proof (co_nested _ _ (proj2 Hi c)) as (Hn & _). unfold depth in Hn. rewrite Hpc, Hh, Hk in Hn. cbn in Hn.
    unfold intr_set, modify in Hrun. injection Hrun as <-. set (s1 := set_cpu _ _ _).
    eapply spin_inv_ext; [| | | | |apply (local_inv x c s1 0 on); try done]; try done.
    + intros d. cbn. at_cpu d c; done.
    + intros d Hd. cbn. by rewrite fn_lookup_insert_ne.
    + rewrite Hh. unfold nested. cbn. rewrite fn_lookup_insert. cbn. split_and!; [done|done|lia].
Qed.

Lemma reach_inv on x : rtc cstep (boot on) x → spin_inv x.
Proof.
  intros H. assert (Hb := boot_inv on). revert Hb. induction H as [x|x y z Hxy _ IH]; [done|]. intros Hx. by eapply IH, cstep_inv.
Qed.

(** C11. Spin locks on any number of CPUs, whose accesses to the locks interleave in any
    way.  Two CPUs never hold the same lock.  A CPU that holds a lock has its interrupts
    off; once it holds none and has undone every [push_off], its interrupts are as they
    were before.  [acquire] and [release] panic exactly when a CPU takes a lock it holds
    or gives back one it does not hold, so a CPU never spins on its own lock; and the
    swap of a CPU that spins finds the lock open as soon as nobody has it. *)
Theorem spinlock_excludes on x : rtc cstep (boot on) x →
  (∀ c d lk, lk ∈ held x c → lk ∈ held x d → c = d) ∧
  (∀ c lk, lk ∈ held x c → sie (cpus (sh x) c) = false) ∧
  (∀ c, pcs x c = None → held x c = [] → pushed x c = O → sie (cpus (sh x) c) = was x c) ∧
  (∀ c lk at_, pcs x c = Some (at_, lk) →
    (∃ next s', lock_step c lk at_ (sh x) = Ok (next, s')) ∨
    (at_ = AcqTest2 ∧ lk ∈ held x c ∧ lock_step c lk at_ (sh x) = Panic "acquire") ∨
    ((at_ = RelTest1 ∨ at_ = RelTest2) ∧ lk ∉ held x c ∧ lock_step c lk at_ (sh x) = Panic "release")) ∧
  (∀ c lk, pcs x c = Some (AcqSpin, lk) → lk ∉ held x c) ∧
  (∀ c lk, pcs x c = Some (AcqSpin, lk) → (∀ d, ¬ owns x d lk) → ∃ s', lock_step c lk AcqSpin (sh x) = Ok (Some AcqSet, s')).
Proof.
  intros [HL HC]%reach_inv. split_and!.
  - intros c d lk Hc Hd. apply (lo_excl _ _ (HL lk)); by left.
  - intros c lk Hc. destruct (co_nested _ _ (HC c)) as (_ & _ & Hn). apply Hn. unfold depth. destruct (held x c); [by apply not_elem_of_nil in Hc|].
    assert (0 <= extra (pcs x c)) by (destruct (pcs x c) as [[[] ?]|]; cbn; lia). cbn [length]. lia.
  - intros c Hpc Hh Hp. destruct (co_nested _ _ (HC c)) as (_ & Hn & _). apply Hn. unfold depth. by rewrite Hpc, Hh, Hp.
  - intros c lk at_ Hpc. pose proof (HL lk) as Hlk. unfold lock_step. rewrite (bind_ok _ _ _ (locks (sh x) lk) (sh x)) by done.
    pose proof (co_nested _ _ (HC c)) as Hn. unfold depth in Hn. rewrite Hpc in Hn.
    destruct at_; try (left; by eexists _, _).
    + left. destruct (push_off_run c (sh x)) as (s1 & Hr & _). rewrite (bind_ok _ _ _ _ _ Hr). by eexists _, _.
    + destruct (decide _) as [E|E]; [right; left; by apply Hlk in E|left; by eexists _, _].
    + destruct (truth _) eqn:E; [left; by eexists _, _|right; right]. split_and!; [by left| |done].
      intros Hin. unfold truth in E. rewrite (lo_own _ _ Hlk c) in E by by left. done.
    + destruct (decide _) as [E|E]; [left; by eexists _, _|right; right]. split_and!; [by right| |done]. intros Hin. by apply E, Hlk.
    + left. destruct (pop_off_run c (sh x) _ _ Hn ltac:(cbn [extra]; lia)) as (s1 & Hr & _). rewrite (bind_ok _ _ _ _ _ Hr). by eexists _, _.
  - intros c lk Hpc. pose proof (co_pc _ _ (HC c)) as H. unfold pc_ok in H. by rewrite Hpc in H.
  - intros c lk Hpc Hno. destruct (lo_free _ _ (HL lk)) as [E|[d Hd]]; [|by destruct (Hno d)]. eexists. unfold lock_step.
    rewrite (bind_ok _ _ _ (locks (sh x) lk) (sh x)) by done. rewrite E. done.
Qed.

(** ** An instance: CPU 0 holds lock 7, for which CPU 1 spins *)

Definition go (c : nat) (x : conf) : conf :=
  match pcs x c with
  | Some (at_, lk) => match lock_step c lk at_ (sh x) with Ok (next, s') => moved x c at_ lk next s' | _ => x end
  | None => Conf (sh x) (<[c := Some (AcqCall, 7%nat)]> (pcs x)) (held x) (pushed x) (was x)
  end.

Lemma go_steps c x : rtc cstep x (go c x).
Proof.
  unfold go. destruct (pcs x c) as [[at_ lk]|] eqn:E; [|apply rtc_once; by apply cs_acquire].
  destruct (lock_step c lk at_ (sh x)) as [[next s']| | | |] eqn:Er; [|done|done|done|done]. apply rtc_once. by apply cs_run.
Qed.

Definition contended : conf := fold_left (λ x c, go c x) [0; 0; 0; 0; 0; 1; 1; 1; 1]%nat (boot (λ _, true)).

Lemma contended_reached : rtc cstep (boot (λ _, true)) contended.
Proof.
  unfold contended. generalize (boot (λ _, true)). intros x. generalize [0; 0; 0; 0; 0; 1; 1; 1; 1]%nat. intros l. revert x.
  induction l as [|c l IH]; intros x; [done|]. cbn. etrans; [apply go_steps|apply IH].
Qed.

Lemma spinlock_excludes_witness : held contended 0 = [7%nat] ∧ pcs contended 1 = Some (AcqSpin, 7%nat) ∧
  sie (cpus (sh contended) 0) = false ∧ ¬ 7%nat ∈ held contended 1.
Proof.
  assert (H1 : held contended 0 = [7%nat]) by (vm_compute; reflexivity).
  assert (H2 : pcs contended 1 = Some (AcqSpin, 7%nat)) by (vm_compute; reflexivity).
  destruct (spinlock_excludes (λ _, true) contended contended_reached) as (_ & H3 & _ & _ & H5 & _).
  split_and!; [exact H1|exact H2| |by apply H5]. apply (H3 0%nat 7%nat). rewrite H1. apply elem_of_cons. by left.
Defined.
