(* ===== verification/Virtio.v ===== *)
(** The driver of the virtio disk (kernel/virtio_disk.c) and the structures of
    kernel/virtio.h it shares with the device.

    The driver runs under [vdisk_lock], which it gives up only where it sleeps; the
    device runs at any time.  What the device does with a request is a parameter. *)

From stdpp Require Import functions.
From S2P Require Import Prelude Riscv Cache.
#[local] Open Scope Z_scope.

Definition NUM : Z := 8.
Definition VRING_DESC_F_NEXT : Z := 1.
Definition VRING_DESC_F_WRITE : Z := 2.
Definition VIRTIO_BLK_T_IN : Z := 0.
Definition VIRTIO_BLK_T_OUT : Z := 1.
Definition sizeof_virtio_blk_req : Z := 16.

(** The addresses a descriptor can have: null, [&disk.ops[i]], [b->data] and
    [&disk.info[i].status]. *)
Inductive loc := LNull | LOp (i : Z) | LData (b : nat) | LStatus (i : Z).

Record virtq_desc := Desc { d_addr : loc; d_len : Z; d_flags : Z; d_next : Z }.
Record virtio_blk_req := BlkReq { r_type : Z; r_reserved : Z; r_sector : Z }.

(** What the driver shares with the device: the descriptors, the rings with their
    counters, the command headers and the status bytes. *)
Record vq := Vq {
  desc : list virtq_desc; avail_ring : list Z; avail_idx : Z; used_ring : list Z; used_didx : Z;
  ops : list virtio_blk_req; status : list Z }.

Inductive chan := ChFree | ChBuf (b : nat).

(** The driver's own: which descriptors are free, how far it has looked at the used
    ring, the buffer of each request, [b->disk] of the buffers; and what it did to
    the outside: registers written, channels woken. *)
Record book := Book {
  free : list bool; used_idx : Z; info_b : list (option nat); b_disk : nat → Z; regs : list (Z * Z); wakes : list chan }.

(** With the contents of the buffers and the bytes of the disk. *)
Record vd := Vd { q : vq; k : book; b_data : nat → list Z; platter : Z → Z }.

Definition on_q (f : vq → vq) : M vd unit := modify (λ s, Vd (f (q s)) (k s) (b_data s) (platter s)).
Definition on_k (f : book → book) : M vd unit := modify (λ s, Vd (q s) (f (k s)) (b_data s) (platter s)).

Definition set_desc (i : Z) (d : virtq_desc) : M vd unit :=
  on_q (λ v, Vq (<[Z.to_nat i := d]> (desc v)) (avail_ring v) (avail_idx v) (used_ring v) (used_didx v) (ops v) (status v)).
Definition set_op (i : Z) (o : virtio_blk_req) : M vd unit :=
  on_q (λ v, Vq (desc v) (avail_ring v) (avail_idx v) (used_ring v) (used_didx v) (<[Z.to_nat i := o]> (ops v)) (status v)).
Definition set_status (i : Z) (c : Z) : M vd unit :=
  on_q (λ v, Vq (desc v) (avail_ring v) (avail_idx v) (used_ring v) (used_didx v) (ops v) (<[Z.to_nat i := c]> (status v))).
Definition set_free (i : Z) (b : bool) : M vd unit :=
  on_k (λ b0, Book (<[Z.to_nat i := b]> (free b0)) (used_idx b0) (info_b b0) (b_disk b0) (regs b0) (wakes b0)).
Definition set_info (i : Z) (b : option nat) : M vd unit :=
  on_k (λ b0, Book (free b0) (used_idx b0) (<[Z.to_nat i := b]> (info_b b0)) (b_disk b0) (regs b0) (wakes b0)).
Definition set_disk (b : nat) (x : Z) : M vd unit :=
  on_k (λ b0, Book (free b0) (used_idx b0) (info_b b0) (<[b := x]> (b_disk b0)) (regs b0) (wakes b0)).
Definition write_reg (r x : Z) : M vd unit :=
  on_k (λ b0, Book (free b0) (used_idx b0) (info_b b0) (b_disk b0) (regs b0 ++ [(r, x)]) (wakes b0)).
Definition wakeup_chan (c : chan) : M vd unit :=
  on_k (λ b0, Book (free b0) (used_idx b0) (info_b b0) (b_disk b0) (regs b0) (wakes b0 ++ [c])).

(** ** Descriptors *)

Definition alloc_desc : M vd Z :=
  fr ← gets (λ s, free (k s));
  match List.find (λ i, default false (fr !! Z.to_nat i)) (seqZ 0 NUM) with
  | Some i => set_free i false;; mret i
  | None => mret (-1)
  end.

Definition free_desc (i : Z) : M vd unit :=
  if NUM <=? i then panic "free_desc 1" else
  fr ← gets (λ s, free (k s));
  match fr !! Z.to_nat i with
  | None => wild i
  | Some true => panic "free_desc 2"
  | Some false =>
    set_desc i (Desc LNull 0 0 0);;
    set_free i true;;
    wakeup_chan ChFree
  end.

Definition free_chain_body (i : Z) : M vd (Z + unit) :=
  ds ← gets (λ s, desc (q s));
  match ds !! Z.to_nat i with
  | None => wild i
  | Some d =>
    free_desc i;;
    if truth (Z.land (d_flags d) VRING_DESC_F_NEXT) then mret (inl (d_next d)) else mret (inr tt)
  end.

Definition free_chain (i : Z) : M vd unit := loop (S (Z.to_nat NUM)) free_chain_body i.

(** The loop of [alloc3_desc], with [n] descriptors still to get. *)
Fixpoint alloc_descs (n : nat) (idx : list Z) : M vd (option (list Z)) :=
  match n with
  | O => mret (Some idx)
  | S n =>
    i ← alloc_desc;
    if i <? 0 then for_each idx free_desc;; mret None
    else alloc_descs n (idx ++ [i])
  end.
Definition alloc3_desc : M vd (option (list Z)) := alloc_descs 3 [].

(** ** virtio_disk_rw *)

Definition VIRTIO_MMIO_QUEUE_NOTIFY : Z := 0x050.
Definition VIRTIO_MMIO_INTERRUPT_STATUS : Z := 0x060.
Definition VIRTIO_MMIO_INTERRUPT_ACK : Z := 0x064.

(** From the allocation of the descriptors to the notification of the device; None if
    the caller has to sleep for descriptors first. *)
Definition rw_start (b : nat) (blockno : Z) (write : bool) : M vd (option Z) :=
  let sector := w32 (blockno * (BSIZE / 512)) in
  idx ← alloc3_desc;
  match idx with
  | Some [i0; i1; i2] =>
    set_op i0 (BlkReq (if write then VIRTIO_BLK_T_OUT else VIRTIO_BLK_T_IN) 0 sector);;
    set_desc i0 (Desc (LOp i0) sizeof_virtio_blk_req VRING_DESC_F_NEXT i1);;
    set_desc i1 (Desc (LData b) BSIZE (Z.lor (if write then 0 else VRING_DESC_F_WRITE) VRING_DESC_F_NEXT) i2);;
    set_status i0 0xff;;
    set_desc i2 (Desc (LStatus i0) 1 VRING_DESC_F_WRITE 0);;
    set_disk b 1;;
    set_info i0 (Some b);;
    on_q (λ v, Vq (desc v) (<[Z.to_nat (avail_idx v mod NUM) := i0]> (avail_ring v)) (avail_idx v) (used_ring v) (used_didx v) (ops v) (status v));;
    on_q (λ v, Vq (desc v) (avail_ring v) (w16 (avail_idx v + 1)) (used_ring v) (used_didx v) (ops v) (status v));;
    write_reg VIRTIO_MMIO_QUEUE_NOTIFY 0;;
    mret (Some i0)
  | _ => mret None
  end.

(** After the wait for [b->disk]. *)
Definition rw_finish (i0 : Z) : M vd unit := set_info i0 None;; free_chain i0.

(** ** virtio_disk_intr *)

(** A round of the loop over the used ring: false if there is nothing more. *)
Definition intr_round : M vd bool :=
  s ← gets id;
  if used_idx (k s) =? used_didx (q s) then mret false else
  match used_ring (q s) !! Z.to_nat (used_idx (k s) mod NUM) with
  | None => wild (used_idx (k s))
  | Some id =>
    match status (q s) !! Z.to_nat id, info_b (k s) !! Z.to_nat id with
    | Some st, Some ob =>
      if negb (st =? 0) then panic "virtio_disk_intr status" else
      match ob with
      | None => wild 0
      | Some b =>
        set_disk b 0;;
        wakeup_chan (ChBuf b);;
        on_k (λ b0, Book (free b0) (w16 (used_idx b0 + 1)) (info_b b0) (b_disk b0) (regs b0) (wakes b0));;
        mret true
      end
    | _, _ => wild id
    end
  end.

(** The whole handler; [istatus] is what VIRTIO_MMIO_INTERRUPT_STATUS reads. *)
Definition virtio_disk_intr (istatus : Z) : M vd unit :=
  write_reg VIRTIO_MMIO_INTERRUPT_ACK (Z.land istatus 3);;
  loop (S (Z.to_nat NUM)) (λ _ : unit, more ← intr_round; mret (if more : bool then inl tt else inr tt)) tt.

(** ** virtio_disk_init *)

Definition VIRTIO_MMIO_MAGIC_VALUE : Z := 0x000.
Definition VIRTIO_MMIO_VERSION : Z := 0x004.
Definition VIRTIO_MMIO_DEVICE_ID : Z := 0x008.
Definition VIRTIO_MMIO_VENDOR_ID : Z := 0x00c.
Definition VIRTIO_MMIO_DEVICE_FEATURES : Z := 0x010.
Definition VIRTIO_MMIO_DRIVER_FEATURES : Z := 0x020.
Definition VIRTIO_MMIO_GUEST_PAGE_SIZE : Z := 0x028.
Definition VIRTIO_MMIO_QUEUE_SEL : Z := 0x030.
Definition VIRTIO_MMIO_QUEUE_NUM_MAX : Z := 0x034.
Definition VIRTIO_MMIO_QUEUE_NUM : Z := 0x038.
Definition VIRTIO_MMIO_QUEUE_PFN : Z := 0x040.
Definition VIRTIO_MMIO_STATUS : Z := 0x070.

Definition VIRTIO_CONFIG_S_ACKNOWLEDGE : Z := 1.
Definition VIRTIO_CONFIG_S_DRIVER : Z := 2.
Definition VIRTIO_CONFIG_S_DRIVER_OK : Z := 4.
Definition VIRTIO_CONFIG_S_FEATURES_OK : Z := 8.

(** VIRTIO_BLK_F_RO, _SCSI, _CONFIG_WCE, _MQ, VIRTIO_F_ANY_LAYOUT,
    VIRTIO_RING_F_EVENT_IDX, _INDIRECT_DESC: the features the driver does not use. *)
Definition unused_features : list Z := [5; 7; 11; 12; 27; 29; 28].

(** [memset(disk.pages, 0, ...)], and the counters and rings that lie there. *)
Definition zero_pages : M vd unit :=
  on_q (λ v, Vq (replicate (Z.to_nat NUM) (Desc LNull 0 0 0)) (replicate (Z.to_nat NUM) 0) 0 (replicate (Z.to_nat NUM) 0) 0 (ops v) (status v)).

(** [rd r] is what the register [r] reads; [pages] the address of disk.pages. *)
Definition virtio_disk_init (rd : Z → Z) (pages : Z) : M vd unit :=
  if negb (rd VIRTIO_MMIO_MAGIC_VALUE =? 0x74726976) || negb (rd VIRTIO_MMIO_VERSION =? 1) ||
     negb (rd VIRTIO_MMIO_DEVICE_ID =? 2) || negb (rd VIRTIO_MMIO_VENDOR_ID =? 0x554d4551)
  then panic "could not find virtio disk" else
  let status := Z.lor 0 VIRTIO_CONFIG_S_ACKNOWLEDGE in
  write_reg VIRTIO_MMIO_STATUS status;;
  let status := Z.lor status VIRTIO_CONFIG_S_DRIVER in
  write_reg VIRTIO_MMIO_STATUS status;;
  let features := fold_left (λ f b, Z.ldiff f (Z.shiftl 1 b)) unused_features (rd VIRTIO_MMIO_DEVICE_FEATURES) in
  write_reg VIRTIO_MMIO_DRIVER_FEATURES (w32 features);;
  let status := Z.lor status VIRTIO_CONFIG_S_FEATURES_OK in
  write_reg VIRTIO_MMIO_STATUS status;;
  let status := Z.lor status VIRTIO_CONFIG_S_DRIVER_OK in
  write_reg VIRTIO_MMIO_STATUS status;;
  write_reg VIRTIO_MMIO_GUEST_PAGE_SIZE PGSIZE;;
  write_reg VIRTIO_MMIO_QUEUE_SEL 0;;
  let max := rd VIRTIO_MMIO_QUEUE_NUM_MAX in
  if max =? 0 then panic "virtio disk has no queue 0" else
  if max <? NUM then panic "virtio disk max queue too short" else
  write_reg VIRTIO_MMIO_QUEUE_NUM NUM;;
  zero_pages;;
  write_reg VIRTIO_MMIO_QUEUE_PFN (w32 (Z.shiftr pages PGSHIFT));;
  for_each (seqZ 0 NUM) (λ i, set_free i true).

(** ** The device *)

(** The request the chain at [h] makes, as the device reads it: direction, sector,
    buffer, and where the status goes. *)
Definition describe (s : vd) (h : Z) : option (bool * Z * nat * Z) :=
  d0 ← desc (q s) !! Z.to_nat h;
  d1 ← desc (q s) !! Z.to_nat (d_next d0);
  d2 ← desc (q s) !! Z.to_nat (d_next d1);
  match d0, d1, d2 with
  | Desc (LOp i) 16 1 _, Desc (LData b) len fl _, Desc (LStatus j) 1 2 _ =>
    op ← ops (q s) !! Z.to_nat i;
    if negb (len =? BSIZE) then None
    else if (r_type op =? VIRTIO_BLK_T_OUT) && (fl =? VRING_DESC_F_NEXT) then Some (true, r_sector op, b, j)
    else if (r_type op =? VIRTIO_BLK_T_IN) && (fl =? Z.lor VRING_DESC_F_WRITE VRING_DESC_F_NEXT) then Some (false, r_sector op, b, j)
    else None
  | _, _, _ => None
  end.

(** A block of the disk from a sector on. *)
Definition disk_block (p : Z → Z) (sector : Z) : list Z := (λ i, p (sector * 512 + i)) <$> seqZ 0 BSIZE.

(** The state after a request has been served without error. *)
Definition transfer (s : vd) (write : bool) (sector : Z) (b : nat) (j : Z) : vd :=
  let v := q s in
  let v' := Vq (desc v) (avail_ring v) (avail_idx v) (used_ring v) (used_didx v) (ops v) (<[Z.to_nat j := 0]> (status v)) in
  if write
  then Vd v' (k s) (b_data s)
    (λ a, if (sector * 512 <=? a) && (a <? sector * 512 + BSIZE) then default 0 (b_data s b !! Z.to_nat (a - sector * 512)) else platter s a)
  else Vd v' (k s) (<[b := disk_block (platter s) sector]> (b_data s)) (platter s).

(** The device puts the chain [h] into the used ring. *)
Definition push_used (h : Z) (s : vd) : vd :=
  let v := q s in
  Vd (Vq (desc v) (avail_ring v) (avail_idx v) (<[Z.to_nat (used_didx v mod NUM) := h]> (used_ring v)) (w16 (used_didx v + 1)) (ops v) (status v))
    (k s) (b_data s) (platter s).

(** ** Processes, device and interrupts together *)

(** Where a process is in [virtio_disk_rw]: before it gets its descriptors, asleep for
    descriptors, before it looks at [b->disk], asleep on the buffer. *)
Inductive vpc :=
| VIdle
| VAlloc (b : nat) (blockno : Z) (write : bool)
| VSleepFree (b : nat) (blockno : Z) (write : bool)
| VWait (b : nat) (blockno : Z) (write : bool) (i0 : Z)
| VSleepBuf (b : nat) (blockno : Z) (write : bool) (i0 : Z).

Definition vpc_buf (o : vpc) : option nat :=
  match o with VIdle => None | VAlloc b _ _ | VSleepFree b _ _ | VWait b _ _ _ | VSleepBuf b _ _ _ => Some b end.

Definition woken (ws : list chan) (o : vpc) : vpc :=
  match o with
  | VSleepFree b n w => if existsb (λ c, match c with ChFree => true | _ => false end) ws then VAlloc b n w else o
  | VSleepBuf b n w i => if existsb (λ c, match c with ChBuf b' => Nat.eqb b b' | _ => false end) ws then VWait b n w i else o
  | _ => o
  end.

(** Beside the state: the device's place in the avail ring, the chains it works on,
    and for each buffer the transfers made since the last call with it. *)
Record vsys := Vsys {
  vs : vd; vpcs : nat → vpc; seen : Z; taken : list Z; made : nat → list (bool * Z * list Z) }.

(** The driver's code [m] runs to [s']: those it woke are awake. *)
Definition wake_up (x : vsys) (s' : vd) : nat → vpc := λ p, woken (wakes (k s')) (vpcs x p).
Definition clear_wakes (s : vd) : vd :=
  let b := k s in Vd (q s) (Book (free b) (used_idx b) (info_b b) (b_disk b) (regs b) []) (b_data s) (platter s).

Section Device.
(** What the device makes of the chain at a head. *)
Context (serve : vd → Z → option vd).

Inductive vstep : vsys → vsys → Prop :=
| v_call p b n w x : vpcs x p = VIdle → (∀ p', vpc_buf (vpcs x p') ≠ Some b) → 0 <= n < 2 ^ 31 →
    vstep x (Vsys (vs x) (<[p := VAlloc b n w]> (vpcs x)) (seen x) (taken x) (<[b := []]> (made x)))
| v_start p b n w i0 s' x : vpcs x p = VAlloc b n w → rw_start b n w (vs x) = Ok (Some i0, s') →
    vstep x (Vsys (clear_wakes s') (<[p := VWait b n w i0]> (wake_up x s')) (seen x) (taken x) (made x))
| v_full p b n w s' x : vpcs x p = VAlloc b n w → rw_start b n w (vs x) = Ok (None, s') →
    vstep x (Vsys (clear_wakes s') (<[p := VSleepFree b n w]> (wake_up x s')) (seen x) (taken x) (made x))
| v_wait p b n w i0 x : vpcs x p = VWait b n w i0 → b_disk (k (vs x)) b = 1 →
    vstep x (Vsys (vs x) (<[p := VSleepBuf b n w i0]> (vpcs x)) (seen x) (taken x) (made x))
| v_finish p b n w i0 s' x : vpcs x p = VWait b n w i0 → b_disk (k (vs x)) b ≠ 1 → rw_finish i0 (vs x) = Ok (tt, s') →
    vstep x (Vsys (clear_wakes s') (<[p := VIdle]> (wake_up x s')) (seen x) (taken x) (made x))
| v_intr s' x : intr_round (vs x) = Ok (true, s') →
    vstep x (Vsys (clear_wakes s') (wake_up x s') (seen x) (taken x) (made x))
| v_take h x : seen x ≠ avail_idx (q (vs x)) → avail_ring (q (vs x)) !! Z.to_nat (seen x mod NUM) = Some h →
    vstep x (Vsys (vs x) (vpcs x) (w16 (seen x + 1)) (taken x ++ [h]) (made x))
| v_serve t1 h t2 w sec b j s' x : taken x = t1 ++ h :: t2 → describe (vs x) h = Some (w, sec, b, j) → serve (vs x) h = Some s' →
    vstep x (Vsys (push_used h s') (vpcs x) (seen x) (t1 ++ t2) (<[b := made x b ++ [(w, sec, b_data s' b)]]> (made x)))
| v_other b d x : (∀ p, vpc_buf (vpcs x p) ≠ Some b) →
    vstep x (Vsys (Vd (q (vs x)) (k (vs x)) (<[b := d]> (b_data (vs x))) (platter (vs x))) (vpcs x) (seen x) (taken x) (made x)).
End Device.
