(* ===== verification/VirtioSpec.v ===== *)
(** The virtio driver: every request is served once, descriptors and rings never run
    into each other, and nobody sleeps without reason. *)

From stdpp Require Import functions.
From S2P Require Import Prelude Cache Queue Virtio.
#[local] Open Scope Z_scope.

(** ** Descriptors *)

Definition in_range (i : Z) : Prop := 0 <= i < NUM.

(** The free flags say that exactly the descriptors [us] are in use. *)
Definition in_use (fr : list bool) (us : list Z) : Prop :=
  Z.of_nat (length fr) = NUM ∧ ∀ i, in_range i → fr !! Z.to_nat i = Some (bool_decide (i ∉ us)).

Lemma ins_eq {A} (l : list A) i x : 0 <= i < Z.of_nat (length l) → <[Z.to_nat i := x]> l !! Z.to_nat i = Some x.
Proof. intros Hi. apply list_lookup_insert_eq. lia. Qed.

Lemma ins_ne {A} (l : list A) i j x : 0 <= i → 0 <= j → i ≠ j → <[Z.to_nat i := x]> l !! Z.to_nat j = l !! Z.to_nat j.
Proof. intros Hi Hj Hne. apply list_lookup_insert_ne. lia. Qed.

Lemma in_use_take fr us i : in_range i → in_use fr us → in_use (<[Z.to_nat i := false]> fr) (i :: us).
Proof.
  intros Hi [Hl Hf]. split; [by rewrite length_insert|]. intros j Hj. destruct (decide (j = i)) as [-> |Hne].
  - rewrite ins_eq by (unfold in_range in Hi; lia). f_equal. symmetry. apply bool_decide_eq_false. rewrite not_elem_of_cons. tauto.
  - rewrite ins_ne by (unfold in_range in *; lia). rewrite Hf by done. f_equal. apply bool_decide_ext. rewrite not_elem_of_cons. tauto.
Qed.

Lemma in_use_give fr us i : in_range i → i ∉ us → in_use fr (i :: us) → in_use (<[Z.to_nat i := true]> fr) us.
Proof.
  intros Hi Hus [Hl Hf]. split; [by rewrite length_insert|]. intros j Hj. destruct (decide (j = i)) as [-> |Hne].
  - rewrite ins_eq by (unfold in_range in Hi; lia). f_equal. symmetry. by apply bool_decide_eq_true.
  - rewrite ins_ne by (unfold in_range in *; lia). rewrite Hf by done. f_equal. apply bool_decide_ext. rewrite not_elem_of_cons. tauto.
Qed.

Lemma in_use_perm fr us us' : (∀ i, i ∈ us ↔ i ∈ us') → in_use fr us → in_use fr us'.
Proof. intros Hp [Hl Hf]. split; [done|]. intros i Hi. rewrite Hf by done. f_equal. apply bool_decide_ext. by rewrite Hp. Qed.

(** With fewer than all in use one is free. *)
Lemma some_free us : (length us < Z.to_nat NUM)%nat → ∃ i, in_range i ∧ i ∉ us.
Proof.
  intros Hl. destruct (decide (Forall (λ i, i ∈ us) (seqZ 0 NUM))) as [Hall|Hno].
  - assert (Hs : seqZ 0 NUM ⊆+ us) by (apply NoDup_submseteq; [apply NoDup_seqZ|by apply list.Forall_forall]).
    apply submseteq_length in Hs. rewrite length_seqZ in Hs. lia.
  - apply not_Forall_Exists in Hno; [|solve_decision]. apply list.Exists_exists in Hno as (i & Hi & Hn). exists i. split; [|done]. apply elem_of_seqZ in Hi. unfold in_range. lia.
Qed.

Definition with_free (fr : list bool) (s : vd) : vd :=
  let b := k s in Vd (q s) (Book fr (used_idx b) (info_b b) (b_disk b) (regs b) (wakes b)) (b_data s) (platter s).

Lemma alloc_desc_run s us : in_use (free (k s)) us → (length us < Z.to_nat NUM)%nat →
  ∃ i fr, alloc_desc s = Ok (i, with_free fr s) ∧ in_range i ∧ i ∉ us ∧ in_use fr (i :: us).
Proof.
  intros Hu Hl. unfold alloc_desc. rewrite (bind_ok _ _ _ (free (k s)) s) by done.
  assert (Hf : ∀ i, in_range i → default false (free (k s) !! Z.to_nat i) = bool_decide (i ∉ us)) by (intros i Hi; by rewrite (proj2 Hu i Hi)).
  destruct (List.find _ _) as [i|] eqn:E.
  - apply find_seqZ_Some in E as (Hi & Ht & _). rewrite Hf in Ht by done. apply bool_decide_eq_true in Ht.
    exists i, (<[Z.to_nat i := false]> (free (k s))). split_and!; [done|done|done|by apply in_use_take].
  - destruct (some_free us Hl) as (i & Hi & Hn). rewrite find_seqZ_None in E. specialize (E i Hi). rewrite Hf in E by done.
    by apply bool_decide_eq_false in E.
Qed.

Lemma alloc_desc_none s us : in_use (free (k s)) us → (∀ i, in_range i → i ∈ us) → alloc_desc s = Ok (-1, s).
Proof.
  intros Hu Hall. unfold alloc_desc. rewrite (bind_ok _ _ _ (free (k s)) s) by done. destruct (List.find _ _) as [i|] eqn:E; [|done].
  apply find_seqZ_Some in E as (Hi & Ht & _). rewrite (proj2 Hu i Hi) in Ht. cbn in Ht. apply bool_decide_eq_true in Ht. by destruct (Ht (Hall i Hi)).
Qed.

(** Freeing descriptors [gs] changes them only, and wakes those who wait for some. *)
Record gave (s s' : vd) (gs : list Z) : Prop := {
  gv_q : ∃ ds, q s' = Vq ds (avail_ring (q s)) (avail_idx (q s)) (used_ring (q s)) (used_didx (q s)) (ops (q s)) (status (q s)) ∧
    length ds = length (desc (q s)) ∧ ∀ j, 0 <= j → j ∉ gs → ds !! Z.to_nat j = desc (q s) !! Z.to_nat j;
  gv_k : ∃ fr, k s' = Book fr (used_idx (k s)) (info_b (k s)) (b_disk (k s)) (regs (k s)) (wakes (k s) ++ replicate (length gs) ChFree);
  gv_data : b_data s' = b_data s;
  gv_platter : platter s' = platter s }.

Lemma gave_nil s : gave s s [].
Proof.
  split; [|exists (free (k s)); cbn; rewrite app_nil_r; by destruct (k s)|done|done]. exists (desc (q s)). split; [by destruct (q s)|done].
Qed.

Lemma gave_trans s1 s2 s3 a b : gave s1 s2 a → gave s2 s3 b → gave s1 s3 (a ++ b).
Proof.
  intros [(d1 & Hq1 & Hl1 & Hd1) (f1 & Hk1) Hb1 Hp1] [(d2 & Hq2 & Hl2 & Hd2) (f2 & Hk2) Hb2 Hp2]. rewrite Hq1, Hk1 in *. cbn in *. split.
  - exists d2. split_and!; [done|congruence|]. intros j Hj Hn. rewrite not_elem_of_app in Hn. rewrite Hd2, Hd1; tauto.
  - exists f2. rewrite Hk2, length_app, replicate_add, app_assoc. done.
  - congruence.
  - congruence.
Qed.

Lemma free_desc_run s us i : in_use (free (k s)) (i :: us) → i ∉ us → in_range i → ∃ s', free_desc i s = Ok (tt, s') ∧ gave s s' [i] ∧ in_use (free (k s')) us.
Proof.
  intros Hu Hn Hi. unfold free_desc. rewrite (proj2 (Z.leb_gt _ _)) by (unfold in_range in Hi; lia). rewrite (bind_ok _ _ _ (free (k s)) s) by done.
  rewrite (proj2 Hu i Hi). rewrite bool_decide_eq_false_2 by (rewrite not_elem_of_cons; tauto). eexists. split; [reflexivity|]. split.
  - split; [|eexists; reflexivity|done|done]. eexists. split_and!; [reflexivity|by rewrite length_insert|]. intros j Hj Hne.
    apply ins_ne; [unfold in_range in Hi; lia|done|]. intros ->. apply Hne, elem_of_cons. by left.
  - cbn. by apply in_use_give.
Qed.

Lemma free_descs_run gs : ∀ s us, in_use (free (k s)) (gs ++ us) → NoDup (gs ++ us) → Forall in_range gs →
  ∃ s', for_each gs free_desc s = Ok (tt, s') ∧ gave s s' gs ∧ in_use (free (k s')) us.
Proof.
  induction gs as [|i gs IH]; intros s us Hu Hnd Hr; cbn [for_each].
  - exists s. split_and!; [done|apply gave_nil|done].
  - apply list.Forall_cons in Hr as [Hi Hr]. cbn in Hnd, Hu. apply list.NoDup_cons in Hnd as [Hn Hnd].
    destruct (free_desc_run s (gs ++ us) i Hu Hn Hi) as (s1 & Hr1 & Hg1 & Hu1). destruct (IH s1 us Hu1 Hnd Hr) as (s2 & Hr2 & Hg2 & Hu2).
    exists s2. split_and!; [by rewrite (bind_ok _ _ _ _ _ Hr1)|by apply (gave_trans s s1 s2 [i] gs)|done].
Qed.

(** [alloc3_desc] gets three descriptors, or leaves all as it was. *)
Lemma alloc_descs_run n : ∀ s idx us, in_use (free (k s)) (idx ++ us) → NoDup (idx ++ us) → Forall in_range idx → Forall in_range us →
  (length (idx ++ us) + n <= Z.to_nat NUM)%nat →
  ∃ gs fr, alloc_descs n idx s = Ok (Some (idx ++ gs), with_free fr s) ∧ length gs = n ∧ Forall in_range gs ∧
    NoDup (idx ++ gs ++ us) ∧ in_use fr (idx ++ gs ++ us).
Proof.
  induction n as [|n IH]; intros s idx us Hu Hnd Hi Hus Hl; cbn [alloc_descs].
  - exists [], (free (k s)). rewrite app_nil_r. split_and!; [|done|constructor|done|done]. by destruct s as [? []].
  - destruct (alloc_desc_run s (idx ++ us) Hu ltac:(lia)) as (i & fr & Hr & Hri & Hni & Hu1). rewrite (bind_ok _ _ _ _ _ Hr).
    rewrite (proj2 (Z.ltb_ge _ _)) by (unfold in_range in Hri; lia).
    destruct (IH (with_free fr s) (idx ++ [i]) us) as (gs & fr' & Hr2 & Hlen & His & Hnd2 & Hu2).
    + eapply in_use_perm; [|exact Hu1]. intros j. rewrite !elem_of_app, !elem_of_cons, !elem_of_app, elem_of_nil. tauto.
    + rewrite <- app_assoc. change ([i] ++ us) with (i :: us). rewrite <- Permutation_middle. apply list.NoDup_cons. done.
    + apply Forall_app. split; [done|by constructor].
    + done.
    + rewrite !length_app in *. cbn. lia.
    + exists (i :: gs), fr'. rewrite <- !app_assoc in *. cbn in *. split_and!; [exact Hr2|by rewrite Hlen|by constructor|done|done].
Qed.

Lemma few_in_range l : NoDup l → Forall in_range l → (length l <= Z.to_nat NUM)%nat.
Proof.
  intros Hnd Hr. assert (Hs : l ⊆+ seqZ 0 NUM).
  { apply NoDup_submseteq; [done|]. intros i Hi. apply elem_of_seqZ. rewrite list.Forall_forall in Hr. specialize (Hr i Hi). unfold in_range in Hr. lia. }
  apply submseteq_length in Hs. by rewrite length_seqZ in Hs.
Qed.

Lemma all_in_use l i : NoDup l → Forall in_range l → (Z.to_nat NUM <= length l)%nat → in_range i → i ∈ l.
Proof.
  intros Hnd Hr Hl Hi. destruct (decide (i ∈ l)) as [|Hn]; [done|]. pose proof (few_in_range (i :: l)) as H.
  cbn in H. exfalso. enough (S (length l) <= Z.to_nat NUM)%nat by lia. apply H; by constructor.
Qed.

Lemma gave_with_free fr s s' gs : gave (with_free fr s) s' gs → gave s s' gs.
Proof. by intros [H1 H2 H3 H4]. Qed.

Lemma alloc_descs_none n : ∀ s idx us, in_use (free (k s)) (idx ++ us) → NoDup (idx ++ us) → Forall in_range idx → Forall in_range us →
  (Z.to_nat NUM < length (idx ++ us) + n)%nat →
  ∃ s' gs, alloc_descs n idx s = Ok (None, s') ∧ gave s s' gs ∧ (∀ i, i ∈ gs → i ∉ us) ∧ in_use (free (k s')) us.
Proof.
  induction n as [|n IH]; intros s idx us Hu Hnd Hi Hus Hl; cbn [alloc_descs].
  - pose proof (few_in_range (idx ++ us) Hnd ltac:(by apply Forall_app)). lia.
  - destruct (decide (length (idx ++ us) < Z.to_nat NUM)%nat) as [Hlt|Hge].
    + destruct (alloc_desc_run s (idx ++ us) Hu Hlt) as (i & fr & Hr & Hri & Hni & Hu1). rewrite (bind_ok _ _ _ _ _ Hr).
      rewrite (proj2 (Z.ltb_ge _ _)) by (unfold in_range in Hri; lia).
      destruct (IH (with_free fr s) (idx ++ [i]) us) as (s' & gs & Hr2 & Hg & Hgs & Hu2).
      * eapply in_use_perm; [|exact Hu1]. intros j. rewrite !elem_of_app, !elem_of_cons, !elem_of_app, elem_of_nil. tauto.
      * rewrite <- app_assoc. change ([i] ++ us) with (i :: us). rewrite <- Permutation_middle. by apply list.NoDup_cons.
      * apply Forall_app. split; [done|by constructor].
      * done.
      * rewrite !length_app in *. cbn. lia.
      * exists s', gs. split_and!; [done|by eapply gave_with_free|done|done].
    + rewrite (bind_ok _ _ _ (-1) s).
      2: { apply (alloc_desc_none s (idx ++ us) Hu). intros i Hri. apply all_in_use; [done|by apply Forall_app|lia|done]. }
      change (-1 <? 0) with true. cbn iota. destruct (free_descs_run idx s us Hu Hnd Hi) as (s' & Hr & Hg & Hu').
      exists s', idx. split_and!; [by rewrite (bind_ok _ _ _ _ _ Hr)|done| |done].
      intros i Hii Hui. apply list.NoDup_app in Hnd as (_ & Hd & _). by apply (Hd i).
Qed.

(** ** Requests *)

Record rq := Rq { rq_b : nat; rq_n : Z; rq_w : bool; rq_0 : Z; rq_1 : Z; rq_2 : Z }.

#[export] Instance rq_eq_dec : EqDecision rq.
Proof. solve_decision. Defined.

Definition chain (r : rq) : list Z := [rq_0 r; rq_1 r; rq_2 r].
Definition chains (l : list rq) : list Z := concat (chain <$> l).

(** The structures in memory say what the request is. *)
Record formatted (s : vd) (r : rq) : Prop := {
  fm_0 : desc (q s) !! Z.to_nat (rq_0 r) = Some (Desc (LOp (rq_0 r)) 16 1 (rq_1 r));
  fm_1 : desc (q s) !! Z.to_nat (rq_1 r) = Some (Desc (LData (rq_b r)) BSIZE (if rq_w r then 1 else 3) (rq_2 r));
  fm_2 : desc (q s) !! Z.to_nat (rq_2 r) = Some (Desc (LStatus (rq_0 r)) 1 2 0);
  fm_op : ops (q s) !! Z.to_nat (rq_0 r) = Some (BlkReq (if rq_w r then 1 else 0) 0 (2 * rq_n r));
  fm_b : info_b (k s) !! Z.to_nat (rq_0 r) = Some (Some (rq_b r)) }.

(** The device reads from them just that. *)
Lemma formatted_describes s r : formatted s r → describe s (rq_0 r) = Some (rq_w r, 2 * rq_n r, rq_b r, rq_0 r).
Proof.
  intros [H0 H1 H2 Ho _]. unfold describe. rewrite H0. cbn [mbind option_bind d_next]. rewrite H1. cbn [mbind option_bind d_next]. rewrite H2. cbn [mbind option_bind].
  rewrite Ho. cbn [mbind option_bind]. by destruct (rq_w r).
Qed.

(** The process [o] is at works for the request [r]. *)
Definition waits (o : vpc) (r : rq) : Prop :=
  o = VWait (rq_b r) (rq_n r) (rq_w r) (rq_0 r) ∨ o = VSleepBuf (rq_b r) (rq_n r) (rq_w r) (rq_0 r).

Definition proc_ok (x : vsys) (busy all : list rq) (o : vpc) : Prop :=
  match o with
  | VIdle => True
  | VAlloc b n _ => 0 <= n < 2 ^ 31 ∧ made x b = []
  | VSleepFree b n _ => 0 <= n < 2 ^ 31 ∧ made x b = [] ∧ (2 <= length all)%nat
  | VWait _ _ _ _ => ∃ r, r ∈ all ∧ waits o r
  | VSleepBuf _ _ _ _ => ∃ r, r ∈ busy ∧ waits o r
  end.

(** What holds of the requests [all] together. *)
Record core (s : vd) (pcs : nat → vpc) (all : list rq) : Prop := {
  co_nodup : NoDup (chains all);
  co_range : Forall in_range (chains all);
  co_free : in_use (free (k s)) (chains all);
  co_len : length (desc (q s)) = Z.to_nat NUM ∧ length (ops (q s)) = Z.to_nat NUM ∧
    length (status (q s)) = Z.to_nat NUM ∧ length (info_b (k s)) = Z.to_nat NUM;
  co_fmt : Forall (formatted s) all;
  co_bufs : NoDup (rq_b <$> all);
  co_reqs : Forall (λ r, ∃ p, waits (pcs p) r) all }.

(** The requests: [Q] in the avail ring, [T] with the device, [U] in the used ring,
    [D] done. *)
Record vinv (x : vsys) (Q T U D : list rq) : Prop := {
  vi_core : core (vs x) (vpcs x) (Q ++ T ++ U ++ D);
  vi_avail : ring NUM (avail_ring (q (vs x))) (seen x) (rq_0 <$> Q) ∧ 0 <= seen x < 2 ^ 16 ∧
    avail_idx (q (vs x)) = w16 (seen x + Z.of_nat (length Q));
  vi_taken : taken x = rq_0 <$> T;
  vi_used : ring NUM (used_ring (q (vs x))) (used_idx (k (vs x))) (rq_0 <$> U) ∧ 0 <= used_idx (k (vs x)) < 2 ^ 16 ∧
    used_didx (q (vs x)) = w16 (used_idx (k (vs x)) + Z.of_nat (length U));
  vi_status : Forall (λ r, status (q (vs x)) !! Z.to_nat (rq_0 r) = Some 0) U;
  vi_busy : Forall (λ r, b_disk (k (vs x)) (rq_b r) = 1) (Q ++ T ++ U);
  vi_idle : Forall (λ r, b_disk (k (vs x)) (rq_b r) = 0) D;
  vi_unmade : Forall (λ r, made x (rq_b r) = []) (Q ++ T);
  vi_made : Forall (λ r, made x (rq_b r) = [(rq_w r, 2 * rq_n r, b_data (vs x) (rq_b r))]) (U ++ D);
  vi_procs p : proc_ok x (Q ++ T ++ U) (Q ++ T ++ U ++ D) (vpcs x p);
  vi_excl p p' b : vpc_buf (vpcs x p) = Some b → vpc_buf (vpcs x p') = Some b → p = p';
  vi_wakes : wakes (k (vs x)) = [] }.

Lemma chains_length l : length (chains l) = (3 * length l)%nat.
Proof. induction l as [|r l IH]; [done|]. unfold chains in *. cbn [fmap list_fmap concat]. rewrite length_app, IH. cbn. lia. Qed.

Lemma chains_app a b : chains (a ++ b) = chains a ++ chains b.
Proof. unfold chains. by rewrite fmap_app, concat_app. Qed.

Lemma elem_of_chains i l : i ∈ chains l ↔ ∃ r, r ∈ l ∧ i ∈ chain r.
Proof.
  unfold chains. induction l as [|r l IH]; cbn [fmap list_fmap concat].
  - split; [by intros ?%not_elem_of_nil|by intros (r & ?%not_elem_of_nil & _)].
  - rewrite elem_of_app, IH. setoid_rewrite elem_of_cons. naive_solver.
Qed.

(** At most two requests at a time. *)
Lemma few_requests s pcs all : core s pcs all → (length all <= 2)%nat.
Proof. intros H. pose proof (few_in_range _ (co_nodup _ _ _ H) (co_range _ _ _ H)) as Hl. rewrite chains_length in Hl. change (Z.to_nat NUM) with 8%nat in Hl. lia. Qed.

Lemma chains_perm a b : a ≡ₚ b → chains a ≡ₚ chains b.
Proof. unfold chains. intros H. induction H as [|x a b _ IH|x y a|a b c _ IH1 _ IH2]; cbn [fmap list_fmap concat]; [done|by rewrite IH|by rewrite !app_assoc, (Permutation_app_comm (chain y))|by etrans]. Qed.

Lemma core_perm s pcs a b : a ≡ₚ b → core s pcs a → core s pcs b.
Proof.
  intros Hp [H1 H2 H3 H4 H5 H6 H7]. pose proof (chains_perm _ _ Hp) as Hc. split; [by rewrite <- Hc|by rewrite <- Hc| |done|by rewrite <- Hp|by rewrite <- Hp|by rewrite <- Hp].
  eapply in_use_perm; [|exact H3]. intros i. by rewrite Hc.
Qed.

(** A change of state that the requests do not see. *)
Lemma formatted_same s s' r : formatted s r → (∀ i, i ∈ chain r → desc (q s') !! Z.to_nat i = desc (q s) !! Z.to_nat i) →
  ops (q s') !! Z.to_nat (rq_0 r) = ops (q s) !! Z.to_nat (rq_0 r) → info_b (k s') !! Z.to_nat (rq_0 r) = info_b (k s) !! Z.to_nat (rq_0 r) → formatted s' r.
Proof.
  intros [H0 H1 H2 H3 H4] Hd Ho Hi. split; [rewrite Hd|rewrite Hd|rewrite Hd|by rewrite Ho|by rewrite Hi]; try done; unfold chain; rewrite !elem_of_cons; tauto.
Qed.

Lemma core_same s s' pcs pcs' all : core s pcs all → desc (q s') = desc (q s) → ops (q s') = ops (q s) → length (status (q s')) = length (status (q s)) →
  free (k s') = free (k s) → info_b (k s') = info_b (k s) → (∀ r, r ∈ all → (∃ p, waits (pcs p) r) → ∃ p, waits (pcs' p) r) → core s' pcs' all.
Proof.
  intros [H1 H2 H3 H4 H5 H6 H7] Hd Ho Hs Hf Hi Hw. split; rewrite ?Hd, ?Ho, ?Hs, ?Hf, ?Hi; try done.
  - eapply list.Forall_impl; [exact H5|]. intros r Hr. apply (formatted_same s); [done|by rewrite Hd|by rewrite Ho|by rewrite Hi].
  - rewrite list.Forall_forall in *. intros r Hr. apply Hw; [done|]. by apply H7.
Qed.

Lemma heads_distinct s pcs all r r' : core s pcs all → r ∈ all → r' ∈ all → rq_0 r = rq_0 r' → r = r'.
Proof.
  intros H Hr Hr' He. apply list_elem_of_split in Hr as (a & b & ->). pose proof (co_nodup _ _ _ H) as Hnd.
  rewrite elem_of_app, elem_of_cons in Hr'. assert (Hp : a ++ r :: b ≡ₚ r :: (a ++ b)) by by rewrite Permutation_middle.
  rewrite (chains_perm _ _ Hp) in Hnd. change (chains (r :: (a ++ b))) with (chain r ++ chains (a ++ b)) in Hnd.
  apply list.NoDup_app in Hnd as (_ & Hd & _). destruct Hr' as [Hr'|[-> |Hr']]; [|done|].
  all: destruct (Hd (rq_0 r)); [apply elem_of_cons; by left|]; apply elem_of_chains; exists r'; split; [apply elem_of_app; tauto|]; rewrite He; apply elem_of_cons; by left.
Qed.

Lemma bufs_distinct s pcs all r r' : core s pcs all → r ∈ all → r' ∈ all → rq_b r = rq_b r' → r = r'.
Proof.
  intros H Hr Hr' He. apply list_elem_of_lookup in Hr as [i Hi]. apply list_elem_of_lookup in Hr' as [j Hj].
  assert (i = j) as <-; [|congruence]. eapply NoDup_lookup; [apply (co_bufs _ _ _ H)|by rewrite list_lookup_fmap, Hi|]. by rewrite list_lookup_fmap, Hj, He.
Qed.

(** The other requests have other descriptors and other buffers. *)
Lemma other_request s pcs r l r' : core s pcs (r :: l) → r' ∈ l → rq_b r' ≠ rq_b r ∧ (∀ i, i ∈ chain r' → i ∉ chain r).
Proof.
  intros H Hr'. split.
  - pose proof (co_bufs _ _ _ H) as Hnd. cbn in Hnd. apply list.NoDup_cons in Hnd as [Hn _]. intros He. apply Hn. rewrite <- He.
    apply list_elem_of_fmap. by exists r'.
  - intros i Hi Hi'. pose proof (co_nodup _ _ _ H) as Hnd. change (chains (r :: l)) with (chain r ++ chains l) in Hnd.
    apply list.NoDup_app in Hnd as (_ & Hd & _). apply (Hd i Hi'), elem_of_chains. by exists r'.
Qed.

Lemma head_in_chain r : rq_0 r ∈ chain r.
Proof. apply elem_of_cons. by left. Qed.

Lemma chain_in_range s pcs all r i : core s pcs all → r ∈ all → i ∈ chain r → in_range i.
Proof. intros H Hr Hi. pose proof (co_range _ _ _ H) as Hf. rewrite list.Forall_forall in Hf. apply Hf, elem_of_chains. by exists r. Qed.

Lemma w16_w16_add a b : w16 (w16 a + b) = w16 (a + b).
Proof. unfold w16. by rewrite Zplus_mod_idemp_l. Qed.

Lemma w16_range a : 0 <= w16 a < 2 ^ 16.
Proof. apply Z.mod_pos_bound. lia. Qed.

Lemma w16_small a : 0 <= a < 2 ^ 16 → w16 a = a.
Proof. apply Z.mod_small. Qed.

(** A queue of at most two is empty exactly when its counters agree. *)
Lemma queue_empty a n : 0 <= a < 2 ^ 16 → (n <= 2)%nat → a = w16 (a + Z.of_nat n) → n = O.
Proof. intros Ha Hn He. unfold w16 in He. destruct (decide (n = O)); [done|]. Z.to_euclidean_division_equations. lia. Qed.

Lemma proc_ok_mono x y busy all busy' all' o : (∀ b, made y b = made x b) → (∀ r, r ∈ busy → r ∈ busy') → (∀ r, r ∈ all → r ∈ all') →
  (length all <= length all')%nat → proc_ok x busy all o → proc_ok y busy' all' o.
Proof. intros Hm Hb Ha Hl. destruct o as [|b n w|b n w|b n w i|b n w i]; cbn; rewrite ?Hm; [done|done| | |]; naive_solver lia. Qed.

Ltac elem := repeat rewrite ?elem_of_app, ?elem_of_cons, ?elem_of_nil in *; tauto.

(** ** The device *)

Lemma take_inv x Q T U D h : vinv x Q T U D → seen x ≠ avail_idx (q (vs x)) → avail_ring (q (vs x)) !! Z.to_nat (seen x mod NUM) = Some h →
  ∃ r Q', Q = r :: Q' ∧ h = rq_0 r ∧ vinv (Vsys (vs x) (vpcs x) (w16 (seen x + 1)) (taken x ++ [h]) (made x)) Q' (T ++ [r]) U D.
Proof.
  intros H Hne Hh. destruct (vi_avail _ _ _ _ _ H) as (Hring & Hs & Ha).
  destruct Q as [|r Q]; [destruct Hne; rewrite Ha; cbn; rewrite Z.add_0_r; symmetry; by apply w16_small|].
  cbn [fmap list_fmap] in Hring. pose proof (ring_head _ _ _ _ _ Hring) as Hr. rewrite Hh in Hr. injection Hr as ->.
  exists r, Q. split_and!; [done|done|]. destruct H as [H1 H2 H3 H4 H5 H6 H7 H8 H9 H10 H11 H12].
  assert (Hp : (r :: Q) ++ T ++ U ++ D ≡ₚ Q ++ (T ++ [r]) ++ U ++ D) by solve_Permutation.
  assert (Hp' : (r :: Q) ++ T ++ U ≡ₚ Q ++ (T ++ [r]) ++ U) by solve_Permutation.
  split; cbn [vs vpcs seen taken made].
  - by apply (core_perm _ _ _ _ Hp).
  - split_and!; [|apply w16_range|apply w16_range|].
    + apply (ring_w16 NUM (2 ^ 13) _ (seen x + 1)); [done|done|done|]. by eapply ring_tail.
    + rewrite w16_w16_add, Ha. f_equal. cbn [length]. lia.
  - by rewrite fmap_app, H3.
  - done.
  - done.
  - by rewrite <- Hp'.
  - done.
  - assert (Hp2 : (r :: Q) ++ T ≡ₚ Q ++ T ++ [r]) by solve_Permutation. by rewrite <- Hp2.
  - done.
  - intros p. eapply proc_ok_mono; [| | | |apply H10]; [done|intros r'; by rewrite Hp'|intros r'; by rewrite Hp|by rewrite Hp].
  - done.
  - done.
Qed.

Lemma serve_inv x Q T1 r T2 U D : vinv x Q (T1 ++ r :: T2) U D →
  let s' := transfer (vs x) (rq_w r) (2 * rq_n r) (rq_b r) (rq_0 r) in
  vinv (Vsys (push_used (rq_0 r) s') (vpcs x) (seen x) (rq_0 <$> (T1 ++ T2)) (<[rq_b r := made x (rq_b r) ++ [(rq_w r, 2 * rq_n r, b_data s' (rq_b r))]]> (made x)))
    Q (T1 ++ T2) (U ++ [r]) D.
Proof.
  intros H s'. set (all := Q ++ (T1 ++ r :: T2) ++ U ++ D). destruct H as [H1 H2 H3 H4 H5 H6 H7 H8 H9 H10 H11 H12].
  assert (Hin : r ∈ all) by (unfold all; elem).
  assert (Hp : all ≡ₚ Q ++ (T1 ++ T2) ++ (U ++ [r]) ++ D) by (unfold all; solve_Permutation).
  assert (Hp' : Q ++ (T1 ++ r :: T2) ++ U ≡ₚ Q ++ (T1 ++ T2) ++ U ++ [r]) by solve_Permutation.
  assert (Hother : ∀ r', r' ∈ Q ++ (T1 ++ T2) ++ U ++ D → rq_b r' ≠ rq_b r ∧ rq_0 r' ≠ rq_0 r).
  { intros r' Hr'. assert (Hc : core (vs x) (vpcs x) (r :: (Q ++ (T1 ++ T2) ++ U ++ D))) by (eapply core_perm; [|exact H1]; solve_Permutation).
    destruct (other_request _ _ _ _ _ Hc Hr') as [Hb Hi]. split; [done|]. intros He. apply (Hi (rq_0 r')); [apply head_in_chain|rewrite He; apply head_in_chain]. }
  assert (Hdesc : desc (q s') = desc (q (vs x)) ∧ ops (q s') = ops (q (vs x)) ∧ avail_ring (q s') = avail_ring (q (vs x)) ∧ avail_idx (q s') = avail_idx (q (vs x)) ∧
    used_ring (q s') = used_ring (q (vs x)) ∧ used_didx (q s') = used_didx (q (vs x)) ∧ status (q s') = <[Z.to_nat (rq_0 r) := 0]> (status (q (vs x))) ∧ k s' = k (vs x))
    by (unfold s', transfer; by destruct (rq_w r)).
  destruct Hdesc as (Hd1 & Hd2 & Hd3 & Hd4 & Hd5 & Hd6 & Hd7 & Hd8).
  assert (Hdata : ∀ b, b ≠ rq_b r → b_data s' b = b_data (vs x) b).
  { intros b Hb. unfold s', transfer. destruct (rq_w r); [done|]. cbn. by rewrite fn_lookup_insert_ne. }
  destruct H2 as (Hr & Hs & Ha). destruct H4 as (Hur & Hus & Hu). pose proof (few_requests _ _ _ H1) as Hfew. rewrite !length_app in Hfew. cbn in Hfew.
  assert (Hin0 : ∀ r', r' ∈ all → in_range (rq_0 r')) by (intros r' Hr'; eapply chain_in_range; [done|done|apply head_in_chain]).
  split; cbn [vs vpcs seen taken made push_used q k b_data].
  - apply (core_perm _ _ _ _ Hp). eapply core_same; [exact H1|..]; cbn; rewrite ?Hd8; try done. by rewrite Hd7, length_insert.
  - cbn. by rewrite Hd3, Hd4.
  - done.
  - cbn. rewrite Hd5, Hd6, Hd8. split_and!; [|lia|lia|].
    + rewrite fmap_app. cbn [fmap list_fmap]. rewrite Hu. unfold NUM, w16. rewrite (mod_mod_mul _ 8 (2 ^ 13)) by lia.
      rewrite <- (length_fmap rq_0 U). apply ring_snoc; [exact Hur|]. rewrite length_fmap. lia.
    + rewrite Hu, w16_w16_add, length_app. f_equal. cbn [length]. lia.
  - cbn. rewrite Hd7. pose proof (co_len _ _ _ H1) as (_ & _ & Hl & _). apply Forall_app. split.
    + rewrite list.Forall_forall in *. intros r' Hr'. destruct (Hother r' ltac:(elem)) as [_ Hne].
      pose proof (Hin0 r Hin). pose proof (Hin0 r' ltac:(unfold all; elem)).
      rewrite ins_ne by (unfold in_range in *; try lia; congruence). by apply H5.
    + constructor; [|constructor]. apply ins_eq. rewrite Hl. apply (Hin0 r Hin).
  - cbn. rewrite Hd8. by rewrite <- Hp'.
  - cbn. by rewrite Hd8.
  - rewrite list.Forall_forall in *. intros r' Hr'. destruct (Hother r' ltac:(elem)) as [Hne _]. rewrite fn_lookup_insert_ne by done. apply H8. elem.
  - cbn. rewrite list.Forall_forall in *. intros r' Hr'. destruct (decide (r' = r)) as [-> |Hne'].
    + rewrite fn_lookup_insert, H8 by elem. done.
    + destruct (Hother r' ltac:(elem)) as [Hne _]. rewrite fn_lookup_insert_ne, Hdata by done. apply H9. elem.
  - intros p. specialize (H10 p). assert (Hmb : ∀ b, b ≠ rq_b r → (<[rq_b r := made x (rq_b r) ++ [(rq_w r, 2 * rq_n r, b_data s' (rq_b r))]]> (made x)) b = made x b)
      by (intros b Hb; by rewrite fn_lookup_insert_ne).
    (* a process that has no request yet has another buffer *)
    assert (Hno : ∀ b, vpc_buf (vpcs x p) = Some b → (∀ r', ¬ waits (vpcs x p) r') → b ≠ rq_b r).
    { intros b Hb Hw ->. pose proof (co_reqs _ _ _ H1) as Hreq. rewrite list.Forall_forall in Hreq. destruct (Hreq r Hin) as [p' Hp2].
      assert (p = p') as <-; [|by apply (Hw r)]. eapply H11; [exact Hb|]. by destruct Hp2 as [-> | ->]. }
    destruct (vpcs x p) as [|b n w|b n w|b n w i|b n w i]; cbn in *.
    + done.
    + rewrite Hmb; [done|]. apply Hno; [done|]. by intros r' [?|?].
    + rewrite Hmb; [by rewrite <- Hp|]. apply Hno; [done|]. by intros r' [?|?].
    + destruct H10 as (r' & Hr' & Hw). exists r'. split; [by rewrite <- Hp|done].
    + destruct H10 as (r' & Hr' & Hw). exists r'. split; [by rewrite <- Hp'|done].
  - done.
  - cbn. by rewrite Hd8.
Qed.

(** ** The driver *)

Lemma waits_woken ws o r : waits o r → waits (woken ws o) r.
Proof. intros [-> | ->]; cbn; [by left|]. destruct (existsb _ _); [by left|by right]. Qed.

Lemma woken_buf ws o : vpc_buf (woken ws o) = vpc_buf o.
Proof. destruct o; cbn; [done|done|by destruct (existsb _ _)|done|by destruct (existsb _ _)]. Qed.

Lemma intr_run x Q T U D : vinv x Q T U D →
  (U = [] ∧ intr_round (vs x) = Ok (false, vs x)) ∨
  ∃ r U' s', U = r :: U' ∧ intr_round (vs x) = Ok (true, s') ∧
    vinv (Vsys (clear_wakes s') (wake_up x s') (seen x) (taken x) (made x)) Q T U' (D ++ [r]).
Proof.
  intros H. destruct (vi_used _ _ _ _ _ H) as (Hur & Hus & Hu). pose proof (few_requests _ _ _ (vi_core _ _ _ _ _ H)) as Hfew. rewrite !length_app in Hfew.
  unfold intr_round. rewrite (bind_ok _ _ _ (vs x) (vs x)) by done. destruct U as [|r U]; [left|right].
  - split; [done|]. rewrite Hu. cbn. rewrite Z.add_0_r, w16_small, Z.eqb_refl by done. done.
  - rewrite (proj2 (Z.eqb_neq _ _)) by (intros He; rewrite Hu in He; apply queue_empty in He; [done|done|cbn in *; lia]).
    cbn [fmap list_fmap] in Hur. rewrite (ring_head _ _ _ _ _ Hur). pose proof (vi_status _ _ _ _ _ H) as Hst. apply list.Forall_cons in Hst as [Hst Hst'].
    pose proof (co_fmt _ _ _ (vi_core _ _ _ _ _ H)) as Hfmt. rewrite list.Forall_forall in Hfmt. pose proof (fm_b _ _ (Hfmt r ltac:(elem))) as Hb.
    rewrite Hst, Hb. cbn [negb Z.eqb]. exists r, U. eexists. split_and!; [done|reflexivity|].
    destruct H as [H1 H2 H3 H4 H5 H6 H7 H8 H9 H10 H11 H12].
    assert (Hp : Q ++ T ++ (r :: U) ++ D ≡ₚ Q ++ T ++ U ++ D ++ [r]) by solve_Permutation.
    assert (Hc : core (vs x) (vpcs x) (r :: (Q ++ T ++ U ++ D))) by (eapply core_perm; [|exact H1]; solve_Permutation).
    assert (Hother : ∀ r', r' ∈ Q ++ T ++ U ++ D → rq_b r' ≠ rq_b r) by (intros r' Hr'; by apply (other_request _ _ _ _ _ Hc Hr')).
    split; cbn [vs vpcs seen taken made clear_wakes q k b_data platter]; cbn.
    + apply (core_perm _ _ _ _ Hp). eapply core_same; [exact H1|..]; try done. intros r' _ [p Hp2]. exists p. by apply waits_woken.
    + done.
    + done.
    + split_and!; [|apply w16_range|apply w16_range|].
      * apply (ring_w16 NUM (2 ^ 13) _ (used_idx (k (vs x)) + 1)); [done|done|done|]. by eapply ring_tail.
      * rewrite w16_w16_add, Hu. f_equal. cbn [length]. lia.
    + done.
    + rewrite list.Forall_forall in *. intros r' Hr'. rewrite fn_lookup_insert_ne by (symmetry; apply Hother; elem). apply H6. elem.
    + apply Forall_app. split; [|constructor; [by rewrite fn_lookup_insert|constructor]].
      rewrite list.Forall_forall in *. intros r' Hr'. rewrite fn_lookup_insert_ne by (symmetry; apply Hother; elem). by apply H7.
    + done.
    + assert (Hp2 : (r :: U) ++ D ≡ₚ U ++ D ++ [r]) by solve_Permutation. by rewrite <- Hp2.
    + intros p. specialize (H10 p). unfold wake_up. cbn. rewrite H12. cbn. destruct (vpcs x p) as [|b n w|b n w|b n w i|b n w i]; cbn in *; try done.
      * rewrite <- Hp. done.
      * destruct H10 as (r' & Hr' & Hw). exists r'. split; [by rewrite <- Hp|done].
      * destruct H10 as (r' & Hr' & Hw). destruct (Nat.eqb_spec b (rq_b r)) as [Hbr|Hbr]; cbn.
        -- exists r'. split; [elem|]. destruct Hw as [?|[= -> -> -> ->]]; [done|]. by left.
        -- exists r'. split; [|done]. assert (Hne : r' ≠ r) by (intros ->; destruct Hw as [?|[= -> -> -> ->]]; done). elem.
    + intros p p' b. unfold wake_up. rewrite !woken_buf. apply H11.
    + done.
Qed.

Lemma woken_nil o : woken [] o = o.
Proof. by destruct o. Qed.

(** The state [rw_start] leaves when it got the descriptors. *)
Definition submitted (s : vd) (fr : list bool) (r : rq) : vd :=
  let v := q s in let b := k s in
  Vd (Vq (<[Z.to_nat (rq_2 r) := Desc (LStatus (rq_0 r)) 1 2 0]> (<[Z.to_nat (rq_1 r) := Desc (LData (rq_b r)) BSIZE (if rq_w r then 1 else 3) (rq_2 r)]>
        (<[Z.to_nat (rq_0 r) := Desc (LOp (rq_0 r)) 16 1 (rq_1 r)]> (desc v))))
      (<[Z.to_nat (avail_idx v mod NUM) := rq_0 r]> (avail_ring v)) (w16 (avail_idx v + 1)) (used_ring v) (used_didx v)
      (<[Z.to_nat (rq_0 r) := BlkReq (if rq_w r then 1 else 0) 0 (2 * rq_n r)]> (ops v)) (<[Z.to_nat (rq_0 r) := 0xff]> (status v)))
    (Book fr (used_idx b) (<[Z.to_nat (rq_0 r) := Some (rq_b r)]> (info_b b)) (<[rq_b r := 1]> (b_disk b)) (regs b ++ [(VIRTIO_MMIO_QUEUE_NOTIFY, 0)]) (wakes b))
    (b_data s) (platter s).

Lemma rw_start_run s b n w us : in_use (free (k s)) us → NoDup us → Forall in_range us → (length us + 3 <= Z.to_nat NUM)%nat → 0 <= n < 2 ^ 31 →
  ∃ fr r, rw_start b n w s = Ok (Some (rq_0 r), submitted s fr r) ∧ rq_b r = b ∧ rq_n r = n ∧ rq_w r = w ∧
    Forall in_range (chain r) ∧ NoDup (chain r ++ us) ∧ in_use fr (chain r ++ us).
Proof.
  intros Hu Hnd Hr Hl Hn. destruct (alloc_descs_run 3 s [] us Hu Hnd ltac:(constructor) Hr Hl) as (gs & fr & Hrun & Hlen & Hgs & Hnd' & Hu').
  destruct gs as [|i0 [|i1 [|i2 [|]]]]; try done. exists fr, (Rq b n w i0 i1 i2). split_and!; try done. cbn [rq_0].
  unfold rw_start. cbv zeta. unfold alloc3_desc. rewrite (bind_ok _ _ _ _ _ Hrun). cbn [app].
  replace (w32 (n * (BSIZE / 512))) with (2 * n) by (change (BSIZE / 512) with 2; unfold w32; rewrite Z.mod_small; lia).
  by destruct w.
Qed.

(** The new request is formatted, and the old ones still are. *)
Lemma submitted_formatted s fr r : Forall in_range (chain r) → NoDup (chain r) → length (desc (q s)) = Z.to_nat NUM → length (ops (q s)) = Z.to_nat NUM →
  length (info_b (k s)) = Z.to_nat NUM → formatted (submitted s fr r) r.
Proof.
  intros Hr Hnd H1 H2 H3. unfold chain in *. rewrite !list.Forall_cons in Hr. destruct Hr as (R0 & R1 & R2 & _). unfold in_range in *. change NUM with 8 in *.
  rewrite !list.NoDup_cons, !not_elem_of_cons in Hnd. destruct Hnd as ((N1 & N2 & _) & (N3 & _) & _).
  split; cbn.
  - rewrite ins_ne by lia. rewrite ins_ne by lia. apply ins_eq. lia.
  - rewrite ins_ne by lia. apply ins_eq. rewrite !length_insert. lia.
  - apply ins_eq. rewrite !length_insert. lia.
  - apply ins_eq. lia.
  - apply ins_eq. lia.
Qed.

Lemma submitted_others s fr r r' : Forall in_range (chain r) → Forall in_range (chain r') → (∀ i, i ∈ chain r' → i ∉ chain r) → formatted s r' →
  formatted (submitted s fr r) r'.
Proof.
  intros Hr Hr' Hd Hf. rewrite list.Forall_forall in Hr'. unfold chain in Hr. rewrite !list.Forall_cons in Hr. destruct Hr as (R0 & R1 & R2 & _). unfold in_range in *.
  assert (Hne : ∀ i, i ∈ chain r' → 0 <= i ∧ i ≠ rq_0 r ∧ i ≠ rq_1 r ∧ i ≠ rq_2 r).
  { intros i Hi. specialize (Hd i Hi). unfold chain in Hd. rewrite !not_elem_of_cons in Hd. specialize (Hr' i Hi). cbn in Hr'. split_and!; [lia|tauto..]. }
  destruct (Hne _ (head_in_chain r')) as (? & ? & ? & ?). apply (formatted_same s); [done| | |]; cbn.
  - intros i Hi. destruct (Hne i Hi) as (? & ? & ? & ?). rewrite !ins_ne by (lia || congruence). done.
  - by rewrite ins_ne by (lia || congruence).
  - by rewrite ins_ne by (lia || congruence).
Qed.

Lemma submitted_core x s' fr r all pcs : core (vs x) (vpcs x) all → s' = submitted (vs x) fr r → Forall in_range (chain r) → NoDup (chain r ++ chains all) →
  in_use fr (chain r ++ chains all) → rq_b r ∉ (rq_b <$> all) → (∀ r', r' ∈ r :: all → ∃ p, waits (pcs p) r') → core s' pcs (r :: all).
Proof.
  intros [H1 H2 H3 H4 H5 H6 H7] -> Hr Hnd Hu Hb Hw. pose proof Hnd as Hnd'. apply list.NoDup_app in Hnd' as (Hndr & Hdis & _). destruct H4 as (L1 & L2 & L3 & L4). split.
  - done.
  - apply Forall_app. done.
  - done.
  - cbn. rewrite !length_insert. done.
  - constructor; [by apply submitted_formatted|]. rewrite list.Forall_forall in H2. rewrite list.Forall_forall in H5. apply list.Forall_forall. intros r' Hr'. apply submitted_others; [done| | |by apply H5].
    + apply list.Forall_forall. intros i Hi. apply H2, elem_of_chains. by exists r'.
    + intros i Hi Hi'. apply (Hdis i Hi'), elem_of_chains. by exists r'.
  - cbn. by constructor.
  - apply list.Forall_forall. exact Hw.
Qed.

Lemma not_waits_alloc b n w r : ¬ waits (VAlloc b n w) r.
Proof. by intros [?|?]. Qed.

(** A process without a request has a buffer that no request has. *)
Lemma buffer_unused x Q T U D p b : vinv x Q T U D → vpc_buf (vpcs x p) = Some b → (∀ r, ¬ waits (vpcs x p) r) → b ∉ (rq_b <$> (Q ++ T ++ U ++ D)).
Proof.
  intros H Hb Hw (r & -> & Hr)%list_elem_of_fmap. pose proof (co_reqs _ _ _ (vi_core _ _ _ _ _ H)) as Hreq. rewrite list.Forall_forall in Hreq.
  destruct (Hreq r Hr) as [p' Hp']. assert (p = p') as <-; [|by apply (Hw r)]. eapply (vi_excl _ _ _ _ _ H); [exact Hb|]. by destruct Hp' as [-> | ->].
Qed.

Lemma start_run x Q T U D p b n w : vinv x Q T U D → vpcs x p = VAlloc b n w → (length (Q ++ T ++ U ++ D) <= 1)%nat →
  ∃ r s', rw_start b n w (vs x) = Ok (Some (rq_0 r), s') ∧
    vinv (Vsys (clear_wakes s') (<[p := VWait b n w (rq_0 r)]> (wake_up x s')) (seen x) (taken x) (made x)) (Q ++ [r]) T U D.
Proof.
  intros H Hpc Hlen. pose proof (vi_core _ _ _ _ _ H) as Hcore. pose proof (vi_procs _ _ _ _ _ H p) as Hproc. rewrite Hpc in Hproc. destruct Hproc as [Hn Hmade].
  destruct (rw_start_run (vs x) b n w _ (co_free _ _ _ Hcore) (co_nodup _ _ _ Hcore) (co_range _ _ _ Hcore)) as (fr & r & Hrun & <- & <- & <- & Hr & Hnd & Hu);
    [rewrite chains_length; change (Z.to_nat NUM) with 8%nat; lia|done|].
  assert (Hbuf : rq_b r ∉ (rq_b <$> (Q ++ T ++ U ++ D))).
  { apply (buffer_unused x Q T U D p); [done|by rewrite Hpc|]. rewrite Hpc. apply not_waits_alloc. }
  exists r, (submitted (vs x) fr r). split; [done|]. set (s' := submitted (vs x) fr r).
  set (pcs := <[p := VWait (rq_b r) (rq_n r) (rq_w r) (rq_0 r)]> (wake_up x s')).
  assert (Hpcs : ∀ p', p' ≠ p → pcs p' = vpcs x p').
  { intros p' Hne. unfold pcs. rewrite fn_lookup_insert_ne by done. unfold wake_up. cbn. rewrite (vi_wakes _ _ _ _ _ H). apply woken_nil. }
  assert (Hpcp : pcs p = VWait (rq_b r) (rq_n r) (rq_w r) (rq_0 r)) by apply fn_lookup_insert.
  assert (Hne : ∀ r', r' ∈ Q ++ T ++ U ++ D → rq_b r' ≠ rq_b r) by (intros r' Hr' He; apply Hbuf; rewrite <- He; apply list_elem_of_fmap; by exists r').
  assert (Hc : core s' pcs (r :: (Q ++ T ++ U ++ D))).
  { eapply submitted_core; try done. intros r' [-> |Hr']%elem_of_cons; [exists p; rewrite Hpcp; by left|].
    pose proof (co_reqs _ _ _ Hcore) as Hreq. rewrite list.Forall_forall in Hreq. destruct (Hreq r' Hr') as [p' Hp']. exists p'. rewrite Hpcs; [done|].
    intros ->. rewrite Hpc in Hp'. by apply not_waits_alloc in Hp'. }
  assert (Hidx : ∀ r', r' ∈ Q ++ T ++ U ++ D → rq_0 r' ≠ rq_0 r ∧ in_range (rq_0 r')).
  { intros r' Hr'. split; [|eapply chain_in_range; [exact Hcore|done|apply head_in_chain]]. intros He.
    destruct (other_request _ _ _ _ _ Hc Hr') as [_ Hd]. apply (Hd (rq_0 r')); [apply head_in_chain|rewrite He; apply head_in_chain]. }
  assert (Hr0 : in_range (rq_0 r)) by (rewrite list.Forall_forall in Hr; apply Hr, head_in_chain).
  destruct H as [_ H2 H3 H4 H5 H6 H7 H8 H9 H10 H11 H12]. destruct H2 as (Hring & Hs & Ha).
  split; cbn [vs vpcs seen taken made clear_wakes q k b_data platter]; cbn.
  - eapply core_perm; [|eapply core_same; [exact Hc|..]; done]. solve_Permutation.
  - split_and!; [|lia|lia|].
    + rewrite fmap_app. cbn [fmap list_fmap]. rewrite Ha. unfold w16 at 1. unfold NUM. rewrite (mod_mod_mul _ 8 (2 ^ 13)) by lia.
      rewrite <- (length_fmap rq_0 Q). apply ring_snoc; [exact Hring|]. rewrite length_fmap. rewrite !length_app in Hlen. lia.
    + rewrite Ha, w16_w16_add, length_app. f_equal. cbn [length]. lia.
  - done.
  - done.
  - rewrite list.Forall_forall in *. intros r' Hr'. destruct (Hidx r' ltac:(elem)) as [Hne0 Hir]. unfold in_range in *. rewrite ins_ne by (lia || congruence). by apply H5.
  - rewrite list.Forall_forall in *. intros r' Hr'. destruct (decide (r' = r)) as [-> |Hnr]; [by rewrite fn_lookup_insert|].
    rewrite fn_lookup_insert_ne by (symmetry; apply Hne; elem). apply H6. elem.
  - rewrite list.Forall_forall in *. intros r' Hr'. rewrite fn_lookup_insert_ne by (symmetry; apply Hne; elem). by apply H7.
  - rewrite list.Forall_forall in *. intros r' Hr'. destruct (decide (r' = r)) as [-> |Hnr]; [done|]. apply H8. elem.
  - done.
  - intros p'. destruct (decide (p' = p)) as [-> |Hnp].
    + rewrite Hpcp. cbn. exists r. split; [elem|by left].
    + rewrite Hpcs by done. eapply proc_ok_mono; [| | | |apply H10]; [done|intros r'; elem|intros r'; elem|rewrite !length_app; cbn; lia].
  - assert (Hvb : ∀ p', vpc_buf (pcs p') = vpc_buf (vpcs x p')) by (intros p'; destruct (decide (p' = p)) as [-> |]; [by rewrite Hpcp, Hpc|by rewrite Hpcs]).
    intros p1 p2 b'. rewrite !Hvb. apply H11.
  - done.
Qed.

(** Giving back descriptors that no request has. *)
Lemma gave_core s s' gs pcs pcs' all : core s pcs all → gave s s' gs → (∀ i, i ∈ gs → i ∉ chains all) → in_use (free (k s')) (chains all) →
  (∀ r, r ∈ all → (∃ p, waits (pcs p) r) → ∃ p, waits (pcs' p) r) → core s' pcs' all.
Proof.
  intros [H1 H2 H3 (L1 & L2 & L3 & L4) H5 H6 H7] [(ds & Hq & Hl & Hd) (fr & Hk) _ _] Hgs Hu Hw. split; try done.
  - rewrite Hq, Hk. cbn. split_and!; [by rewrite Hl|done|done|done].
  - rewrite list.Forall_forall in *. intros r Hr. apply (formatted_same s); [by apply H5| |by rewrite Hq|by rewrite Hk]. intros i Hi. rewrite Hq. cbn.
    assert (Hic : i ∈ chains all) by (apply elem_of_chains; by exists r). apply Hd; [apply (proj1 (list.Forall_forall _ _) H2) in Hic; unfold in_range in Hic; lia|]. intros Hg. by apply (Hgs i Hg).
  - rewrite list.Forall_forall in *. intros r Hr. apply Hw; [done|]. by apply H7.
Qed.

Lemma wakes_gave x s' gs Q T U D : vinv x Q T U D → gave (vs x) s' gs → wakes (k s') = replicate (length gs) ChFree.
Proof. intros H [_ (fr & Hk) _ _]. by rewrite Hk, (vi_wakes _ _ _ _ _ H). Qed.

Lemma proc_ok_free n x y busy all o : (∀ b, made y b = made x b) → proc_ok x busy all o → proc_ok y busy all (woken (replicate n ChFree) o).
Proof.
  intros Hm. assert (Hno : ∀ b, existsb (λ c, match c with ChBuf b' => Nat.eqb b b' | _ => false end) (replicate n ChFree) = false) by (intros b; by induction n).
  destruct o as [|b m w|b m w|b m w i|b m w i]; cbn; rewrite ?Hno; cbn; rewrite ?Hm; try done. destruct (existsb _ _); cbn; rewrite Hm; tauto.
Qed.

Lemma full_run x Q T U D p b n w : vinv x Q T U D → vpcs x p = VAlloc b n w → (2 <= length (Q ++ T ++ U ++ D))%nat →
  ∃ s', rw_start b n w (vs x) = Ok (None, s') ∧
    vinv (Vsys (clear_wakes s') (<[p := VSleepFree b n w]> (wake_up x s')) (seen x) (taken x) (made x)) Q T U D.
Proof.
  intros H Hpc Hlen. pose proof (vi_core _ _ _ _ _ H) as Hcore.
  destruct (alloc_descs_none 3 (vs x) [] _ (co_free _ _ _ Hcore) (co_nodup _ _ _ Hcore) ltac:(constructor) (co_range _ _ _ Hcore)) as (s' & gs & Hrun & Hg & Hgs & Hu);
    [cbn [app]; rewrite chains_length; change (Z.to_nat NUM) with 8%nat; lia|].
  exists s'. split; [unfold rw_start; cbv zeta; unfold alloc3_desc; by rewrite (bind_ok _ _ _ _ _ Hrun)|].
  set (pcs := <[p := VSleepFree b n w]> (wake_up x s')).
  assert (Hpcs : ∀ p', p' ≠ p → pcs p' = woken (replicate (length gs) ChFree) (vpcs x p')).
  { intros p' Hne. unfold pcs. rewrite fn_lookup_insert_ne by done. unfold wake_up. by rewrite (wakes_gave _ _ _ _ _ _ _ H Hg). }
  assert (Hpcp : pcs p = VSleepFree b n w) by apply fn_lookup_insert.
  destruct H as [_ H2 H3 H4 H5 H6 H7 H8 H9 H10 H11 H12]. pose proof Hg as [(ds & Hq & Hl & Hd) (fr & Hk) Hdata Hplat].
  assert (Hc1 : core s' pcs (Q ++ T ++ U ++ D)).
  { eapply gave_core; [exact Hcore|exact Hg|done|done|]. intros r Hr [p' Hp']. exists p'. rewrite Hpcs; [by apply waits_woken|].
    intros ->. rewrite Hpc in Hp'. by apply not_waits_alloc in Hp'. }
  split; [eapply core_same; [exact Hc1|..]; done|..]; cbn [vs vpcs seen taken made clear_wakes q k b_data platter]; rewrite ?Hq, ?Hk, ?Hdata; cbn; try done.
  - intros p'. specialize (H10 p'). destruct (decide (p' = p)) as [-> |Hne].
    + rewrite Hpcp. rewrite Hpc in H10. cbn in *. tauto.
    + rewrite Hpcs by done. by apply (proc_ok_free _ x).
  - assert (Hvb : ∀ p', vpc_buf (pcs p') = vpc_buf (vpcs x p')) by (intros p'; destruct (decide (p' = p)) as [-> |]; [by rewrite Hpcp, Hpc|by rewrite Hpcs, woken_buf]).
    intros p1 p2 b'. rewrite !Hvb. apply H11.
Qed.

(** ** Returning *)

Lemma free_chain_step s us i d : in_use (free (k s)) (i :: us) → i ∉ us → in_range i → desc (q s) !! Z.to_nat i = Some d →
  ∃ s', free_chain_body i s = Ok (if truth (Z.land (d_flags d) VRING_DESC_F_NEXT) then inl (d_next d) else inr tt, s') ∧ gave s s' [i] ∧ in_use (free (k s')) us.
Proof.
  intros Hu Hn Hi Hd. destruct (free_desc_run s us i Hu Hn Hi) as (s' & Hr & Hg & Hu'). exists s'. split; [|done].
  unfold free_chain_body. rewrite (bind_ok _ _ _ (desc (q s)) s) by done. rewrite Hd, (bind_ok _ _ _ _ _ Hr). by destruct (truth _).
Qed.

Lemma gave_desc s s' gs i : gave s s' gs → 0 <= i → i ∉ gs → desc (q s') !! Z.to_nat i = desc (q s) !! Z.to_nat i.
Proof. intros [(ds & Hq & _ & Hd) _ _ _] Hi Hn. rewrite Hq. by apply Hd. Qed.

Lemma free_chain_run s us r : in_use (free (k s)) (chain r ++ us) → NoDup (chain r ++ us) → Forall in_range (chain r) →
  desc (q s) !! Z.to_nat (rq_0 r) = Some (Desc (LOp (rq_0 r)) 16 1 (rq_1 r)) →
  desc (q s) !! Z.to_nat (rq_1 r) = Some (Desc (LData (rq_b r)) BSIZE (if rq_w r then 1 else 3) (rq_2 r)) →
  desc (q s) !! Z.to_nat (rq_2 r) = Some (Desc (LStatus (rq_0 r)) 1 2 0) →
  ∃ s', free_chain (rq_0 r) s = Ok (tt, s') ∧ gave s s' (chain r) ∧ in_use (free (k s')) us.
Proof.
  intros Hu Hnd Hr D0 D1 D2. unfold chain in *. cbn [app] in *. rewrite !list.Forall_cons in Hr. destruct Hr as (R0 & R1 & R2 & _).
  rewrite !list.NoDup_cons in Hnd. destruct Hnd as (N0 & N1 & N2 & _). unfold free_chain. change (S (Z.to_nat NUM)) with 9%nat.
  destruct (free_chain_step s _ _ _ Hu N0 R0 D0) as (s1 & Hr1 & Hg1 & Hu1). rewrite !not_elem_of_cons in N0, N1.
  assert (D1' : desc (q s1) !! Z.to_nat (rq_1 r) = desc (q s) !! Z.to_nat (rq_1 r)) by (eapply gave_desc; [exact Hg1|unfold in_range in R1; lia|intros Hi%list_elem_of_singleton; destruct_and!; congruence]).
  rewrite D1 in D1'. destruct (free_chain_step s1 _ _ _ Hu1 ltac:(by rewrite not_elem_of_cons) R1 D1') as (s2 & Hr2 & Hg2 & Hu2).
  assert (D2' : desc (q s2) !! Z.to_nat (rq_2 r) = desc (q s) !! Z.to_nat (rq_2 r)).
  { etrans; [eapply gave_desc; [exact Hg2|unfold in_range in R2; lia|intros Hi%list_elem_of_singleton; destruct_and!; congruence]|].
    eapply gave_desc; [exact Hg1|unfold in_range in R2; lia|intros Hi%list_elem_of_singleton; destruct_and!; congruence]. }
  rewrite D2 in D2'. destruct (free_chain_step s2 _ _ _ Hu2 N2 R2 D2') as (s3 & Hr3 & Hg3 & Hu3).
  exists s3. split_and!; [|apply (gave_trans s s1 s3 [rq_0 r]); [done|by apply (gave_trans s1 s2 s3 [rq_1 r])]|done].
  rewrite loop_S, (bind_ok _ _ _ _ _ Hr1). cbn [d_flags d_next]. change (truth (Z.land 1 VRING_DESC_F_NEXT)) with true. cbn iota.
  rewrite loop_S, (bind_ok _ _ _ _ _ Hr2). cbn [d_flags d_next]. replace (truth (Z.land (if rq_w r then 1 else 3) VRING_DESC_F_NEXT)) with true by by destruct (rq_w r). cbn iota.
  by rewrite loop_S, (bind_ok _ _ _ _ _ Hr3).
Qed.

Lemma waits_eq r b n w i : waits (VWait b n w i) r → rq_b r = b ∧ rq_n r = n ∧ rq_w r = w ∧ rq_0 r = i.
Proof. intros [[= -> -> -> ->]|?]; done. Qed.

(** The state after [disk.info[i].b = 0]. *)
Definition forget_buf (i : Z) (s : vd) : vd :=
  let b := k s in Vd (q s) (Book (free b) (used_idx b) (<[Z.to_nat i := None]> (info_b b)) (b_disk b) (regs b) (wakes b)) (b_data s) (platter s).

Lemma finish_core s s' pcs pcs' r rest : core s pcs (r :: rest) → gave (forget_buf (rq_0 r) s) s' (chain r) → in_use (free (k s')) (chains rest) →
  (∀ r', r' ∈ rest → (∃ p, waits (pcs p) r') → ∃ p, waits (pcs' p) r') → core s' pcs' rest.
Proof.
  intros Hc Hg Hu Hw. pose proof (λ r' Hr', other_request _ _ _ _ r' Hc Hr') as Hother. pose proof Hc as [C1 C2 C3 (L1 & L2 & L3 & L4) C5 C6 C7].
  change (chains (r :: rest)) with (chain r ++ chains rest) in C1, C2. apply list.NoDup_app in C1 as (_ & _ & C1). apply Forall_app in C2 as [Cr C2].
  cbn in C6. apply list.NoDup_cons in C6 as [_ C6]. apply list.Forall_cons in C5 as [_ C5]. apply list.Forall_cons in C7 as [_ C7].
  pose proof Hg as [(ds & Hq & Hl & Hd) (fr & Hk) _ _]. cbn in Hq, Hk, Hl. split; try done.
  - rewrite Hq, Hk. cbn. rewrite length_insert. split_and!; [by rewrite Hl|done|done|done].
  - apply list.Forall_forall. intros r' Hr'. destruct (Hother r' Hr') as [_ Hi].
    assert (Hnn : ∀ i, i ∈ chain r' → 0 <= i) by (intros i Hii; assert (Hir : in_range i) by (eapply chain_in_range; [exact Hc|apply elem_of_cons; by right|done]); unfold in_range in Hir; lia).
    apply (formatted_same s); [by apply (proj1 (list.Forall_forall _ _) C5)| |by rewrite Hq|].
    + intros i Hii. apply (gave_desc _ _ _ _ Hg); [by apply Hnn|by apply Hi].
    + rewrite Hk. cbn. apply ins_ne.
      * assert (Hir : in_range (rq_0 r)) by (apply (proj1 (list.Forall_forall _ _) Cr), head_in_chain). unfold in_range in Hir. lia.
      * apply Hnn, head_in_chain.
      * intros He. apply (Hi (rq_0 r')); [apply head_in_chain|]. rewrite <- He. apply head_in_chain.
  - apply list.Forall_forall. intros r' Hr'. apply Hw; [done|]. by apply (proj1 (list.Forall_forall _ _) C7).
Qed.

(** A process that finds its buffer done gives back its descriptors and returns. *)
Lemma finish_run x Q T U D p b n w i0 : vinv x Q T U D → vpcs x p = VWait b n w i0 → b_disk (k (vs x)) b ≠ 1 →
  ∃ s' D', rw_finish i0 (vs x) = Ok (tt, s') ∧ made x b = [(w, 2 * n, b_data (vs x) b)] ∧
    vinv (Vsys (clear_wakes s') (<[p := VIdle]> (wake_up x s')) (seen x) (taken x) (made x)) Q T U D'.
Proof.
  intros H Hpc Hb. pose proof (vi_procs _ _ _ _ _ H p) as Hproc. rewrite Hpc in Hproc. destruct Hproc as (r & Hr & Hw).
  apply waits_eq in Hw as (<- & <- & <- & <-).
  assert (HrD : r ∈ D).
  { pose proof (vi_busy _ _ _ _ _ H) as Hbusy. rewrite list.Forall_forall in Hbusy. rewrite !elem_of_app in Hr. destruct_or! Hr; [| | |done].
    all: destruct Hb; apply Hbusy; elem. }
  pose proof (proj1 (list.Forall_forall _ _) (vi_made _ _ _ _ _ H) r ltac:(elem)) as Hmade. cbn in Hmade.
  apply list_elem_of_split in HrD as (D1 & D2 & ->). set (rest := Q ++ T ++ U ++ D1 ++ D2).
  assert (Hc : core (vs x) (vpcs x) (r :: rest)) by (eapply core_perm; [|apply (vi_core _ _ _ _ _ H)]; unfold rest; solve_Permutation).
  pose proof (proj1 (list.Forall_forall _ _) (co_fmt _ _ _ Hc) r ltac:(elem)) as Hf.
  assert (Hrange : Forall in_range (chain r)) by (apply list.Forall_forall; intros i Hi; eapply chain_in_range; [exact Hc|elem|done]).
  set (s0 := forget_buf (rq_0 r) (vs x)).
  destruct (free_chain_run s0 (chains rest) r (co_free _ _ _ Hc) (co_nodup _ _ _ Hc) Hrange (fm_0 _ _ Hf) (fm_1 _ _ Hf) (fm_2 _ _ Hf)) as (s' & Hrun & Hg & Hu).
  exists s', (D1 ++ D2). split_and!; [unfold rw_finish; by rewrite (bind_ok _ _ _ tt s0)|done|].
  set (pcs := <[p := VIdle]> (wake_up x s')).
  assert (Hwk : wakes (k s') = replicate 3 ChFree) by (destruct Hg as [_ (fr & Hk) _ _]; rewrite Hk; cbn; by rewrite (vi_wakes _ _ _ _ _ H)).
  assert (Hpcs : ∀ p', p' ≠ p → pcs p' = woken (replicate 3 ChFree) (vpcs x p')) by (intros p' Hne; unfold pcs; rewrite fn_lookup_insert_ne by done; unfold wake_up; by rewrite Hwk).
  assert (Hpcp : pcs p = VIdle) by apply fn_lookup_insert.
  assert (Hnotp : ∀ r' p', r' ∈ rest → waits (vpcs x p') r' → p' ≠ p).
  { intros r' p' Hr' Hw' ->. rewrite Hpc in Hw'. apply waits_eq in Hw' as (Hb' & _). by apply (other_request _ _ _ _ _ Hc Hr'). }
  assert (Hc1 : core s' pcs rest).
  { eapply finish_core; [exact Hc|exact Hg|exact Hu|]. intros r' Hr' [p' Hp']. exists p'. rewrite Hpcs by by eapply Hnotp. by apply waits_woken. }
  destruct H as [_ H2 H3 H4 H5 H6 H7 H8 H9 H10 H11 H12]. destruct Hg as [(ds & Hq & Hl & Hd) (fr & Hk) Hdata Hplat]. cbn in Hq, Hk.
  split; [eapply core_same; [exact Hc1|..]; done|..]; cbn [vs vpcs seen taken made clear_wakes q k b_data platter]; rewrite ?Hq, ?Hk, ?Hdata; cbn; try done.
  - rewrite list.Forall_app in H7. rewrite list.Forall_app. destruct H7 as [? H7]. apply list.Forall_cons in H7 as [_ H7]. done.
  - rewrite !list.Forall_app in *. destruct H9 as (? & ? & H9). apply list.Forall_cons in H9 as [_ H9]. done.
  - intros p'. specialize (H10 p'). destruct (decide (p' = p)) as [-> |Hne]; [by rewrite Hpcp|]. rewrite Hpcs by done.
    assert (Hin : ∀ r', r' ∈ Q ++ T ++ U ++ D1 ++ r :: D2 → waits (vpcs x p') r' → r' ∈ rest).
    { intros r' Hr' Hw'. assert (Hnr : r' ≠ r); [|unfold rest; elem]. intros ->. apply Hne. eapply H11; [by destruct Hw' as [-> | ->]|by rewrite Hpc]. }
    destruct (vpcs x p') as [|b m w|b m w|b m w i|b m w i]; cbn in *; try done.
    + tauto.
    + destruct H10 as (r' & Hr' & Hw'). exists r'. split; [by apply Hin|done].
  - assert (Hvb : ∀ p' b, vpc_buf (pcs p') = Some b → vpc_buf (vpcs x p') = Some b).
    { intros p' b'. destruct (decide (p' = p)) as [-> |]; [by rewrite Hpcp|by rewrite Hpcs, woken_buf]. }
    intros p1 p2 b' Hp1%Hvb Hp2%Hvb. by eapply H11.
Qed.

(** ** The other steps *)

Lemma vcall_inv x Q T U D p b n w : vinv x Q T U D → vpcs x p = VIdle → (∀ p', vpc_buf (vpcs x p') ≠ Some b) → 0 <= n < 2 ^ 31 →
  vinv (Vsys (vs x) (<[p := VAlloc b n w]> (vpcs x)) (seen x) (taken x) (<[b := []]> (made x))) Q T U D.
Proof.
  intros H Hpc Hb Hn. assert (Hnb : ∀ r, r ∈ Q ++ T ++ U ++ D → rq_b r ≠ b).
  { intros r Hr <-. destruct (proj1 (list.Forall_forall _ _) (co_reqs _ _ _ (vi_core _ _ _ _ _ H)) r Hr) as [p' Hp']. apply (Hb p'). by destruct Hp' as [-> | ->]. }
  destruct H as [H1 H2 H3 H4 H5 H6 H7 H8 H9 H10 H11 H12]. split; cbn [vs vpcs seen taken made]; try done.
  - eapply core_same; [exact H1|..]; try done. intros r _ [p' Hp']. exists p'. rewrite fn_lookup_insert_ne; [done|]. intros <-. rewrite Hpc in Hp'. by destruct Hp'.
  - rewrite list.Forall_forall in *. intros r Hr. rewrite fn_lookup_insert_ne by (symmetry; apply Hnb; elem). by apply H8.
  - rewrite list.Forall_forall in *. intros r Hr. rewrite fn_lookup_insert_ne by (symmetry; apply Hnb; elem). by apply H9.
  - intros p'. destruct (decide (p' = p)) as [-> |Hne]; [rewrite fn_lookup_insert; cbn; by rewrite fn_lookup_insert|]. rewrite fn_lookup_insert_ne by done.
    specialize (H10 p'). specialize (Hb p'). destruct (vpcs x p') as [|b' m v|b' m v|b' m v i|b' m v i]; cbn in *; try done; by rewrite fn_lookup_insert_ne by congruence.
  - intros p1 p2 b'. destruct (decide (p1 = p)) as [-> |]; destruct (decide (p2 = p)) as [-> |]; rewrite ?fn_lookup_insert, ?fn_lookup_insert_ne by done; cbn; [done| | |apply H11].
    + intros [= <-] Hp2. by destruct (Hb p2).
    + intros Hp1 [= <-]. by destruct (Hb p1).
Qed.

Lemma wait_inv x Q T U D p b n w i0 : vinv x Q T U D → vpcs x p = VWait b n w i0 → b_disk (k (vs x)) b = 1 →
  vinv (Vsys (vs x) (<[p := VSleepBuf b n w i0]> (vpcs x)) (seen x) (taken x) (made x)) Q T U D.
Proof.
  intros H Hpc Hb. pose proof (vi_procs _ _ _ _ _ H p) as Hproc. rewrite Hpc in Hproc. destruct Hproc as (r & Hr & Hw).
  pose proof Hw as Hw0. apply waits_eq in Hw0 as (<- & <- & <- & <-). destruct H as [H1 H2 H3 H4 H5 H6 H7 H8 H9 H10 H11 H12].
  assert (HnD : r ∉ D) by (intros HD; pose proof (proj1 (list.Forall_forall _ _) H7 r HD) as H0; cbn in H0; lia).
  split; cbn [vs vpcs seen taken made]; try done.
  - eapply core_same; [exact H1|..]; try done. intros r' _ [p' Hp']. exists p'. destruct (decide (p' = p)) as [-> |]; [|by rewrite fn_lookup_insert_ne].
    rewrite fn_lookup_insert. rewrite Hpc in Hp'. apply waits_eq in Hp' as (E1 & E2 & E3 & E4). right. congruence.
  - intros p'. destruct (decide (p' = p)) as [-> |Hne]; [rewrite fn_lookup_insert; cbn|rewrite fn_lookup_insert_ne by done; apply H10].
    exists r. split; [elem|by right].
  - assert (Hvb : ∀ p', vpc_buf ((<[p := VSleepBuf (rq_b r) (rq_n r) (rq_w r) (rq_0 r)]> (vpcs x)) p') = vpc_buf (vpcs x p')).
    { intros p'. destruct (decide (p' = p)) as [-> |]; [by rewrite fn_lookup_insert, Hpc|by rewrite fn_lookup_insert_ne]. }
    intros p1 p2 b'. rewrite !Hvb. apply H11.
Qed.

Lemma other_inv x Q T U D b d : vinv x Q T U D → (∀ p, vpc_buf (vpcs x p) ≠ Some b) →
  vinv (Vsys (Vd (q (vs x)) (k (vs x)) (<[b := d]> (b_data (vs x))) (platter (vs x))) (vpcs x) (seen x) (taken x) (made x)) Q T U D.
Proof.
  intros H Hb. assert (Hnb : ∀ r, r ∈ Q ++ T ++ U ++ D → rq_b r ≠ b).
  { intros r Hr <-. destruct (proj1 (list.Forall_forall _ _) (co_reqs _ _ _ (vi_core _ _ _ _ _ H)) r Hr) as [p' Hp']. apply (Hb p'). by destruct Hp' as [-> | ->]. }
  destruct H as [H1 H2 H3 H4 H5 H6 H7 H8 H9 H10 H11 H12]. split; cbn [vs vpcs seen taken made q k b_data]; try done.
  - eapply core_same; [exact H1|..]; done.
  - rewrite list.Forall_forall in *. intros r Hr. rewrite fn_lookup_insert_ne by (symmetry; apply Hnb; elem). by apply H9.
Qed.

(** ** Every run *)

(** What the device does is what its specification says: on a request it can read it
    moves the block and writes status 0. *)
Definition device_ok (serve : vd → Z → option vd) : Prop :=
  ∀ s h w sec b j, describe s h = Some (w, sec, b, j) → serve s h = Some (transfer s w sec b j).

Lemma vstep_inv serve x y : device_ok serve → vstep serve x y → (∃ Q T U D, vinv x Q T U D) → ∃ Q T U D, vinv y Q T U D.
Proof.
  intros Hdev Hstep (Q & T & U & D & H).
  destruct Hstep as [p b n w x Hpc Hb Hn|p b n w i0 s' x Hpc Hrun|p b n w s' x Hpc Hrun|p b n w i0 x Hpc Hb|p b n w i0 s' x Hpc Hb Hrun|s' x Hrun|h x Hne Hh|t1 h t2 w sec b j s' x Ht Hd Hs|b d x Hb].
  - exists Q, T, U, D. by apply vcall_inv.
  - destruct (decide (length (Q ++ T ++ U ++ D) <= 1)%nat) as [Hl|Hl].
    + destruct (start_run x Q T U D p b n w H Hpc Hl) as (r & s1 & Hrun1 & Hinv). rewrite Hrun in Hrun1. injection Hrun1 as -> ->. by eexists _, _, _, _.
    + destruct (full_run x Q T U D p b n w H Hpc ltac:(lia)) as (s1 & Hrun1 & Hinv). by rewrite Hrun in Hrun1.
  - destruct (decide (length (Q ++ T ++ U ++ D) <= 1)%nat) as [Hl|Hl].
    + destruct (start_run x Q T U D p b n w H Hpc Hl) as (r & s1 & Hrun1 & Hinv). by rewrite Hrun in Hrun1.
    + destruct (full_run x Q T U D p b n w H Hpc ltac:(lia)) as (s1 & Hrun1 & Hinv). rewrite Hrun in Hrun1. injection Hrun1 as ->. by eexists _, _, _, _.
  - exists Q, T, U, D. by apply wait_inv.
  - destruct (finish_run x Q T U D p b n w i0 H Hpc Hb) as (s1 & D' & Hrun1 & _ & Hinv). rewrite Hrun in Hrun1. injection Hrun1 as ->. by eexists _, _, _, _.
  - destruct (intr_run x Q T U D H) as [[_ Hrun1]|(r & U' & s1 & _ & Hrun1 & Hinv)]; [by rewrite Hrun in Hrun1|].
    rewrite Hrun in Hrun1. injection Hrun1 as ->. by eexists _, _, _, _.
  - destruct (take_inv x Q T U D h H Hne Hh) as (r & Q' & _ & _ & Hinv). by eexists _, _, _, _.
  - pose proof (vi_taken _ _ _ _ _ H) as Htk. rewrite Ht in Htk. symmetry in Htk. apply fmap_app_inv in Htk as (T1 & T' & -> & Htk & ->).
    symmetry in Htk. apply fmap_cons_inv in Htk as (r & T2 & -> & -> & ->).
    pose proof (proj1 (list.Forall_forall _ _) (co_fmt _ _ _ (vi_core _ _ _ _ _ H)) r ltac:(elem)) as Hf. rewrite (formatted_describes _ _ Hf) in Hd. injection Hd as <- <- <- <-.
    rewrite (Hdev _ _ _ _ _ _ (formatted_describes _ _ Hf)) in Hs. injection Hs as <-. pose proof (serve_inv x Q T1 r T2 U D H) as Hinv. cbv zeta in Hinv.
    rewrite fmap_app in Hinv. by eexists _, _, _, _.
  - exists Q, T, U, D. by apply other_inv.
Qed.
