(* ===== verification/VirtioSys.v ===== *)
(** What the virtio driver, the device and the interrupts do together, from boot. *)

From stdpp Require Import functions.
From S2P Require Import Prelude Cache Queue Virtio VirtioSpec.
#[local] Open Scope Z_scope.

(** ** Boot *)

(** The driver's variables before [virtio_disk_init]. *)
Definition bss (data : nat → list Z) (p : Z → Z) : vd :=
  Vd (Vq (replicate 8 (Desc LNull 0 0 0)) (replicate 8 0) 0 (replicate 8 0) 0 (replicate 8 (BlkReq 0 0 0)) (replicate 8 0))
    (Book (replicate 8 false) 0 (replicate 8 None) (λ _, 0) [] []) data p.

Definition vboot (s : vd) : vsys := Vsys s (λ _, VIdle) 0 [] (λ _, []).

Definition with_regs (rs : list (Z * Z)) (s : vd) : vd :=
  let b := k s in Vd (q s) (Book (free b) (used_idx b) (info_b b) (b_disk b) rs (wakes b)) (b_data s) (platter s).

Definition zeroed (s : vd) : vd :=
  Vd (Vq (replicate 8 (Desc LNull 0 0 0)) (replicate 8 0) 0 (replicate 8 0) 0 (ops (q s)) (status (q s))) (k s) (b_data s) (platter s).

Lemma write_reg_run r x rs s : write_reg r x (with_regs rs s) = Ok (tt, with_regs (rs ++ [(r, x)]) s).
Proof. done. Qed.

Lemma zero_pages_run rs s : zero_pages (with_regs rs s) = Ok (tt, with_regs rs (zeroed s)).
Proof. done. Qed.

Lemma free_all_run l rs : ∀ s, for_each l (λ i, set_free i true) (with_regs rs s) =
  Ok (tt, with_regs rs (with_free (fold_left (λ fr i, <[Z.to_nat i := true]> fr) l (free (k s))) s)).
Proof.
  induction l as [|i l IH]; intros s; cbn [for_each fold_left]; [by destruct s as [? [] ? ?]|].
  rewrite (bind_ok _ _ _ tt (with_regs rs (with_free (<[Z.to_nat i := true]> (free (k s))) s))) by done. by rewrite IH.
Qed.

Lemma init_run rd pages s s0 : virtio_disk_init rd pages s = Ok (tt, s0) → ∃ rs,
  s0 = with_regs rs (with_free (fold_left (λ fr i, <[Z.to_nat i := true]> fr) (seqZ 0 NUM) (free (k s))) (zeroed s)).
Proof.
  replace s with (with_regs (regs (k s)) s) at 1 by by destruct s as [? [] ? ?].
  unfold virtio_disk_init. destruct (_ || _); [done|]. cbv zeta. do 7 rewrite (bind_ok _ _ _ _ _ (write_reg_run _ _ _ _)).
  destruct (_ =? 0); [done|]. destruct (_ <? NUM); [done|]. rewrite (bind_ok _ _ _ _ _ (write_reg_run _ _ _ _)), (bind_ok _ _ _ _ _ (zero_pages_run _ _)).
  rewrite (bind_ok _ _ _ _ _ (write_reg_run _ _ _ _)), free_all_run. intros [= <-]. by eexists.
Qed.

Lemma boot_vinv rd pages data p s0 : virtio_disk_init rd pages (bss data p) = Ok (tt, s0) → vinv (vboot s0) [] [] [] [].
Proof.
  intros (rs & ->)%init_run. split; cbn; try done.
  split; cbn; try done; try (by constructor). split; [done|]. intros i Hi. assert (Hcases : i = 0 ∨ i = 1 ∨ i = 2 ∨ i = 3 ∨ i = 4 ∨ i = 5 ∨ i = 6 ∨ i = 7) by (unfold in_range, NUM in Hi; lia).
  destruct_or! Hcases; subst i; done.
Qed.

Lemma reached_vinv serve rd pages data p s0 x : device_ok serve → virtio_disk_init rd pages (bss data p) = Ok (tt, s0) →
  rtc (vstep serve) (vboot s0) x → ∃ Q T U D, vinv x Q T U D.
Proof.
  intros Hdev Hinit Hreach. assert (Hb : ∃ Q T U D, vinv (vboot s0) Q T U D) by (eexists _, _, _, _; by eapply boot_vinv).
  revert Hb. induction Hreach as [x|x y z Hxy _ IH]; [done|]. intros Hx. by eapply IH, vstep_inv.
Qed.

(** ** The interrupt handler as a whole *)

Definition pending (s : vd) (hs : list (Z * nat)) : Prop :=
  ring NUM (used_ring (q s)) (used_idx (k s)) (fst <$> hs) ∧ 0 <= used_idx (k s) < 2 ^ 16 ∧ (length hs <= 2)%nat ∧
  used_didx (q s) = w16 (used_idx (k s) + Z.of_nat (length hs)) ∧
  Forall (λ '(h, b), status (q s) !! Z.to_nat h = Some 0 ∧ info_b (k s) !! Z.to_nat h = Some (Some b)) hs.

Lemma handler_loop hs : ∀ s fuel, pending s hs → (length hs < fuel)%nat →
  ∃ s', loop fuel (λ _ : unit, more ← intr_round; mret (if more : bool then inl tt else inr tt)) tt s = Ok (tt, s') ∧
    used_idx (k s') = used_didx (q s') ∧ q s' = q s ∧ (∀ h b, (h, b) ∈ hs → b_disk (k s') b = 0) ∧ (∀ b, b_disk (k s) b = 0 → b_disk (k s') b = 0).
Proof.
  induction hs as [|[h b] hs IH]; intros s fuel (Hring & Hu & Hl & Hd & Hf) Hfuel; (destruct fuel as [|fuel]; [cbn in Hfuel; lia|]); rewrite loop_S.
  - rewrite (bind_ok _ _ _ (inr tt) s).
    + exists s. split_and!; [done| |done|by intros h b ?%not_elem_of_nil|done]. rewrite Hd. cbn. rewrite Z.add_0_r. symmetry. by apply w16_small.
    + rewrite (bind_ok _ _ _ false s); [done|]. unfold intr_round. rewrite (bind_ok _ _ _ s s) by done.
      rewrite Hd. cbn. rewrite Z.add_0_r, w16_small, Z.eqb_refl by done. done.
  - apply list.Forall_cons in Hf as [[Hst Hb] Hf]. cbn [fmap list_fmap fst] in Hring.
    set (s1 := Vd (q s) (Book (free (k s)) (w16 (used_idx (k s) + 1)) (info_b (k s)) (<[b := 0]> (b_disk (k s))) (regs (k s)) (wakes (k s) ++ [ChBuf b])) (b_data s) (platter s)).
    rewrite (bind_ok _ _ _ (inl tt) s1).
    + destruct (IH s1 fuel) as (s' & Hr & Hidx & Hq & Hz & Hkeep); [|cbn in Hfuel; lia|].
      { split_and!; cbn; [|apply w16_range|apply w16_range|cbn in Hl; lia| |done].
        - apply (ring_w16 NUM (2 ^ 13) _ (used_idx (k s) + 1)); [done|done|done|]. by eapply ring_tail.
        - rewrite w16_w16_add, Hd. f_equal. cbn [length]. lia. }
      exists s'. split_and!; [done|done|done| |].
      * intros h' b' [[= -> ->]|Hin]%elem_of_cons; [|by eapply Hz]. apply Hkeep. cbn. by rewrite fn_lookup_insert.
      * intros b' Hb'. apply Hkeep. cbn. destruct (decide (b' = b)) as [-> |]; [by rewrite fn_lookup_insert|by rewrite fn_lookup_insert_ne].
    + rewrite (bind_ok _ _ _ true s1); [done|]. unfold intr_round. rewrite (bind_ok _ _ _ s s) by done.
      rewrite (proj2 (Z.eqb_neq _ _)) by (intros He; rewrite Hd in He; apply queue_empty in He; [done|done|done]).
      rewrite (ring_head _ _ _ _ _ Hring), Hst, Hb. done.
Qed.

Lemma handler_run x Q T U D st : vinv x Q T U D →
  ∃ s', virtio_disk_intr st (vs x) = Ok (tt, s') ∧ used_idx (k s') = used_didx (q s') ∧ q s' = q (vs x) ∧ ∀ r, r ∈ U → b_disk (k s') (rq_b r) = 0.
Proof.
  intros H. pose proof (few_requests _ _ _ (vi_core _ _ _ _ _ H)) as Hfew. rewrite !length_app in Hfew. destruct (vi_used _ _ _ _ _ H) as (Hr & Hu & Hd).
  unfold virtio_disk_intr. rewrite (bind_ok _ _ _ _ _ eq_refl). match goal with |- context [loop _ _ _ ?s1] => set (s0 := s1) end.
  destruct (handler_loop ((λ r, (rq_0 r, rq_b r)) <$> U) s0 (S (Z.to_nat NUM))) as (s' & Hrun & Hidx & Hq & Hz & _).
  - split_and!; cbn; rewrite ?length_fmap; try done; try lia.
    + rewrite <- list_fmap_compose. exact Hr.
    + apply Forall_fmap, list.Forall_forall. intros r Hin. cbn. split; [by apply (proj1 (list.Forall_forall _ _) (vi_status _ _ _ _ _ H))|].
      apply (fm_b (vs x)), (proj1 (list.Forall_forall _ _) (co_fmt _ _ _ (vi_core _ _ _ _ _ H))). elem.
  - rewrite length_fmap. change (Z.to_nat NUM) with 8%nat. lia.
  - exists s'. split_and!; [done|done|done|]. intros r Hin. apply (Hz (rq_0 r)). apply list_elem_of_fmap. by exists r.
Qed.

(** ** The theorems *)

(** C10. From boot, with any number of processes in [virtio_disk_rw], a device that
    serves requests in any order, and interrupts at any time: the driver never panics
    or strays.  Starting a request returns, or finds no three descriptors free.  Each
    chain the device has describes the request of one waiting process.  The
    interrupt handler returns and empties the used ring.  A process that finds its
    buffer done gives its descriptors back without error, and since its call the
    device has made exactly one transfer for it, of its block, in its direction, with
    the data now in the buffer. *)
Theorem virtio_serves_once serve rd pages data p s0 x : device_ok serve → virtio_disk_init rd pages (bss data p) = Ok (tt, s0) →
  rtc (vstep serve) (vboot s0) x →
  (∀ p b n w, vpcs x p = VAlloc b n w → ∃ o s', rw_start b n w (vs x) = Ok (o, s')) ∧
  (∀ h, h ∈ taken x → ∃ p b n w, (vpcs x p = VWait b n w h ∨ vpcs x p = VSleepBuf b n w h) ∧ describe (vs x) h = Some (w, 2 * n, b, h)) ∧
  (∀ st, ∃ s', virtio_disk_intr st (vs x) = Ok (tt, s') ∧ used_idx (k s') = used_didx (q s')) ∧
  (∀ p b n w i0, vpcs x p = VWait b n w i0 → b_disk (k (vs x)) b ≠ 1 →
    (∃ s', rw_finish i0 (vs x) = Ok (tt, s')) ∧ made x b = [(w, 2 * n, b_data (vs x) b)]).
Proof.
  intros Hdev Hinit Hreach. destruct (reached_vinv _ _ _ _ _ _ _ Hdev Hinit Hreach) as (Q & T & U & D & H). split_and!.
  - intros p' b n w Hpc. destruct (decide (length (Q ++ T ++ U ++ D) <= 1)%nat) as [Hl|Hl].
    + destruct (start_run x Q T U D p' b n w H Hpc Hl) as (r & s1 & Hrun & _). by eexists _, _.
    + destruct (full_run x Q T U D p' b n w H Hpc ltac:(lia)) as (s1 & Hrun & _). by eexists _, _.
  - intros h Hh. rewrite (vi_taken _ _ _ _ _ H) in Hh. apply list_elem_of_fmap in Hh as (r & -> & Hr). pose proof (vi_core _ _ _ _ _ H) as Hc.
    destruct (proj1 (list.Forall_forall _ _) (co_reqs _ _ _ Hc) r ltac:(elem)) as [p' Hp']. exists p', (rq_b r), (rq_n r), (rq_w r). split; [exact Hp'|].
    apply formatted_describes, (proj1 (list.Forall_forall _ _) (co_fmt _ _ _ Hc)). elem.
  - intros st. destruct (handler_run x Q T U D st H) as (s' & Hrun & Hidx & _). by exists s'.
  - intros p' b n w i0 Hpc Hb. destruct (finish_run x Q T U D p' b n w i0 H Hpc Hb) as (s' & D' & Hrun & Hmade & _). split; [by exists s'|done].
Qed.

(** C20. Nobody sleeps in the virtio driver without reason.  A process asleep for
    descriptors could not get three now; one asleep on its buffer has a request that
    is not done; and once the device has taken and served all requests and the handler
    has emptied the used ring, no process is asleep on a buffer, and if one is asleep
    for descriptors then another is awake that will give its descriptors back. *)
Theorem virtio_no_lost_wakeup serve rd pages data p s0 x : device_ok serve → virtio_disk_init rd pages (bss data p) = Ok (tt, s0) →
  rtc (vstep serve) (vboot s0) x →
  (∀ p b n w, vpcs x p = VSleepFree b n w → ∃ s', alloc3_desc (vs x) = Ok (None, s')) ∧
  (∀ p b n w i0, vpcs x p = VSleepBuf b n w i0 → b_disk (k (vs x)) b = 1) ∧
  (seen x = avail_idx (q (vs x)) → taken x = [] → used_idx (k (vs x)) = used_didx (q (vs x)) →
    (∀ p b n w i0, vpcs x p ≠ VSleepBuf b n w i0) ∧
    (∀ p b n w, vpcs x p = VSleepFree b n w → ∃ p' b' n' w' i0, vpcs x p' = VWait b' n' w' i0 ∧ b_disk (k (vs x)) b' = 0)).
Proof.
  intros Hdev Hinit Hreach. destruct (reached_vinv _ _ _ _ _ _ _ Hdev Hinit Hreach) as (Q & T & U & D & H). pose proof (vi_core _ _ _ _ _ H) as Hc.
  assert (Hbuf : ∀ p b n w i0, vpcs x p = VSleepBuf b n w i0 → ∃ r, r ∈ Q ++ T ++ U ∧ rq_b r = b).
  { intros p' b n w i0 Hpc. pose proof (vi_procs _ _ _ _ _ H p') as Hproc. rewrite Hpc in Hproc. destruct Hproc as (r & Hr & [?|[= -> -> -> ->]]); [done|]. by exists r. }
  split_and!.
  - intros p' b n w Hpc. pose proof (vi_procs _ _ _ _ _ H p') as Hproc. rewrite Hpc in Hproc. destruct Hproc as (_ & _ & Hlen).
    destruct (alloc_descs_none 3 (vs x) [] _ (co_free _ _ _ Hc) (co_nodup _ _ _ Hc) ltac:(constructor) (co_range _ _ _ Hc)) as (s' & gs & Hrun & _);
      [cbn [app]; rewrite chains_length; change (Z.to_nat NUM) with 8%nat; lia|]. by exists s'.
  - intros p' b n w i0 Hpc. destruct (Hbuf _ _ _ _ _ Hpc) as (r & Hr & <-). by apply (proj1 (list.Forall_forall _ _) (vi_busy _ _ _ _ _ H)).
  - intros Hs Ht Hu. destruct (vi_avail _ _ _ _ _ H) as (_ & Hsr & Ha). destruct (vi_used _ _ _ _ _ H) as (_ & Hur & Hd).
    pose proof (few_requests _ _ _ Hc) as Hfew. rewrite !length_app in Hfew. rewrite Ha in Hs. rewrite Hd in Hu.
    apply queue_empty in Hs as HQ; [|done|lia]. apply queue_empty in Hu as HU; [|done|lia]. apply nil_length_inv in HQ as ->. apply nil_length_inv in HU as ->.
    pose proof (vi_taken _ _ _ _ _ H) as HT. rewrite Ht in HT. symmetry in HT. apply fmap_nil_inv in HT as ->. split.
    + intros p' b n w i0 Hpc. destruct (Hbuf _ _ _ _ _ Hpc) as (r & Hr%not_elem_of_nil & _). done.
    + intros p' b n w Hpc. pose proof (vi_procs _ _ _ _ _ H p') as Hproc. rewrite Hpc in Hproc. destruct Hproc as (_ & _ & Hlen). cbn [app] in *.
      destruct D as [|r D]; [cbn in Hlen; lia|]. destruct (proj1 (list.Forall_forall _ _) (co_reqs _ _ _ Hc) r ltac:(elem)) as [p2 [Hp2|Hp2]].
      * eexists p2, _, _, _, _. split; [exact Hp2|]. pose proof (vi_idle _ _ _ _ _ H) as Hi. by apply list.Forall_cons in Hi as [? _].
      * destruct (Hbuf _ _ _ _ _ Hp2) as (r' & Hr'%not_elem_of_nil & _). done.
Qed.

(** ** An instance *)

(** A device that does what it has to. *)
Definition serve0 (s : vd) (h : Z) : option vd := '(w, sec, b, j) ← describe s h; Some (transfer s w sec b j).

Lemma serve0_ok : device_ok serve0.
Proof. intros s h w sec b j H. unfold serve0. by rewrite H. Qed.

(** The registers of such a device. *)
Definition rd0 (r : Z) : Z :=
  if r =? VIRTIO_MMIO_MAGIC_VALUE then 0x74726976 else if r =? VIRTIO_MMIO_VERSION then 1 else if r =? VIRTIO_MMIO_DEVICE_ID then 2
  else if r =? VIRTIO_MMIO_VENDOR_ID then 0x554d4551 else if r =? VIRTIO_MMIO_QUEUE_NUM_MAX then 1024 else 0.

(** One step, if it is possible: the process 0, the device or the handler. *)
Inductive act := ARun | ATake | AServe | AIntr.

Definition do_act (a : act) (x : vsys) : vsys :=
  match a with
  | ARun =>
    match vpcs x 0%nat with
    | VAlloc b n w => match rw_start b n w (vs x) with
      | Ok (Some i0, s') => Vsys (clear_wakes s') (<[0%nat := VWait b n w i0]> (wake_up x s')) (seen x) (taken x) (made x) | _ => x end
    | VWait b n w i0 => if decide (b_disk (k (vs x)) b = 1) then Vsys (vs x) (<[0%nat := VSleepBuf b n w i0]> (vpcs x)) (seen x) (taken x) (made x) else x
    | _ => x
    end
  | ATake =>
    if decide (seen x = avail_idx (q (vs x))) then x else
    match avail_ring (q (vs x)) !! Z.to_nat (seen x mod NUM) with
    | Some h => Vsys (vs x) (vpcs x) (w16 (seen x + 1)) (taken x ++ [h]) (made x) | None => x end
  | AServe =>
    match taken x with
    | [] => x
    | h :: t => match describe (vs x) h, serve0 (vs x) h with
      | Some (w, sec, b, j), Some s' => Vsys (push_used h s') (vpcs x) (seen x) t (<[b := made x b ++ [(w, sec, b_data s' b)]]> (made x))
      | _, _ => x end
    end
  | AIntr => match intr_round (vs x) with Ok (true, s') => Vsys (clear_wakes s') (wake_up x s') (seen x) (taken x) (made x) | _ => x end
  end.

Lemma do_act_steps a x : rtc (vstep serve0) x (do_act a x).
Proof.
  destruct a; cbn [do_act].
  - destruct (vpcs x 0%nat) as [|b n w| |b n w i0|] eqn:E; try done.
    + destruct (rw_start b n w (vs x)) as [[[i0|] s']| | | |] eqn:Er; try done. apply rtc_once. by eapply v_start.
    + destruct (decide _) as [Hb|]; [|done]. apply rtc_once. by apply v_wait.
  - destruct (decide _) as [|Hne]; [done|]. destruct (_ !! _) as [h|] eqn:E; [|done]. apply rtc_once. by apply v_take.
  - destruct (taken x) as [|h t] eqn:Et; [done|]. destruct (describe (vs x) h) as [[[[w sec] b] j]|] eqn:Ed; [|done].
    destruct (serve0 (vs x) h) as [s'|] eqn:Es; [|done]. apply rtc_once. by apply (v_serve serve0 [] h t w sec b j).
  - destruct (intr_round (vs x)) as [[[] s']| | | |] eqn:E; try done. apply rtc_once. by apply v_intr.
Qed.

Definition started : vd :=
  with_regs [(112, 1); (112, 3); (32, 0); (112, 11); (112, 15); (40, 4096); (48, 0); (56, 8); (64, 552960)]
    (with_free (replicate 8 true) (zeroed (bss (λ _, [7; 7]) (λ _, 0)))).

Lemma started_init : virtio_disk_init rd0 0x87000000 (bss (λ _, [7; 7]) (λ _, 0)) = Ok (tt, started).
Proof.
  change (bss (λ _, [7; 7]) (λ _, 0)) with (with_regs [] (bss (λ _, [7; 7]) (λ _, 0))) at 1.
  unfold virtio_disk_init. match goal with |- context [if ?c then _ else _] => change c with false end. cbn iota. cbv zeta.
  do 7 rewrite (bind_ok _ _ _ _ _ (write_reg_run _ _ _ _)).
  change (rd0 VIRTIO_MMIO_QUEUE_NUM_MAX) with 1024. change (1024 =? 0) with false. change (1024 <? NUM) with false. cbn iota.
  rewrite (bind_ok _ _ _ _ _ (write_reg_run _ _ _ _)), (bind_ok _ _ _ _ _ (zero_pages_run _ _)).
  rewrite (bind_ok _ _ _ _ _ (write_reg_run _ _ _ _)), free_all_run. reflexivity.
Qed.

(** Process 0 writes buffer 1 to block 5 and sleeps; then the device and the handler run. *)
Definition called : vsys := Vsys started (<[0%nat := VAlloc 1 5 true]> (λ _, VIdle)) 0 [] (<[1%nat := []]> (λ _, [])).
Definition asleep : vsys := fold_left (λ x a, do_act a x) [ARun; ARun] called.
Definition served : vsys := fold_left (λ x a, do_act a x) [ATake; AServe; AIntr] asleep.

Lemma acts_reach l : ∀ x, rtc (vstep serve0) x (fold_left (λ x a, do_act a x) l x).
Proof. induction l as [|a l IH]; intros x; [done|]. cbn. etrans; [apply do_act_steps|apply IH]. Qed.

Lemma asleep_reached : rtc (vstep serve0) (vboot started) asleep.
Proof. etrans; [|apply acts_reach]. apply rtc_once. by apply (v_call serve0 0 1 5 true). Qed.

Lemma virtio_serves_once_witness : made served 1 = [(true, 10, b_data (vs served) 1)].
Proof.
  refine (proj2 (proj2 (proj2 (proj2 (virtio_serves_once serve0 rd0 0x87000000 _ _ started served serve0_ok started_init _))) 0%nat 1%nat 5 true 0 _ _)).
  - etrans; [apply asleep_reached|apply acts_reach].
  - vm_compute. reflexivity.
  - vm_compute. discriminate.
Defined.

Lemma virtio_no_lost_wakeup_witness : b_disk (k (vs asleep)) 1 = 1.
Proof.
  refine (proj1 (proj2 (virtio_no_lost_wakeup serve0 rd0 0x87000000 _ _ started asleep serve0_ok started_init asleep_reached)) 0%nat 1%nat 5 true 0 _).
  vm_compute. reflexivity.
Defined.
